(* ===== verification/_CoqProject ===== *)
-Q . S2P
Prelude.v
SessionEvent.v
SessionState.v
SessionReducer.v
SessionOrchestrator.v
MemberRuntime.v
TurnClaims.v
Dependency.v
Auth.v
AcpConfig.v
AcpSession.v
AcpSync.v
AcpFlow.v
TurnEvents.v
TurnMessages.v
StreamRelay.v
RelayText.v
RelayOutcome.v
TurnFlow.v
TurnTheorems.v
WorkModel.v
WorkCoordinator.v
WorkInvariant.v
WorkPreserve.v
WorkSettle.v
WorkTheorems.v
TeamRun.v
RuntimeTokens.v
AgentTasks.v
Interleave.v
TeamTables.v
TaskBoard.v
Mailbox.v
TeamScheduler.v
SerdeJson.v
SessionCommand.v
ClaudeAdapter.v
ClaudeFrames.v
ClaudeReader.v
ClaudeBackend.v
ClaudeTurns.v
ClaudeSession.v
CronTypes.v
CronStore.v
CronSkill.v
CronSkillText.v
CronExecutor.v
CronAgents.v
CronService.v
CronRows.v
CronQuiet.v
CronCalls.v
CronLease.v
CronOutcome.v
CronCreate.v
CronSkillFiles.v
CronRuns.v
ChannelStore.v
ChannelPairing.v
ChannelFlow.v
ChannelActions.v
ChannelRelay.v
ChannelAdmit.v
ChannelCodes.v
ChannelReplies.v
ChannelRuns.v
