(* ===== verification/Prelude.v ===== *)
(** * Verification of TjuaeCore: root file and shared prelude

    TjuaeCore is the local server behind an AI workbench.  It runs agents
    (command-line programs that speak one of several protocols), keeps their
    conversations in a database, shows them to clients over a WebSocket, and
    lets several agents work together as a team.  This development models the
    stateful core of it as executable functions and step relations, and proves
    what makes each part correct.  This file documents the whole and holds
    what the other files share; a path below is under [src/crates/].

    ** The parts and their files

    - Session state machine ([tjuaeui-session/src]).  [SessionEvent] is the
      event vocabulary ([event.rs]), [SessionState] the state and its derived
      views ([state.rs]), [SessionReducer] the pure [step] ([reducer.rs]),
      [SessionOrchestrator] the loop that folds the events of all sessions and
      tells the subscribers ([backend/orchestrator.rs]).
    - The claude backend of a session ([tjuaeui-session/src]), the process
      whose events the loop folds.  [SessionCommand] has the commands and
      capabilities ([backend/types.rs], [capability.rs]), [ClaudeAdapter] the
      lines and frames of the process ([adapter/claude.rs]) and [ClaudeFrames]
      what they achieve, [ClaudeReader] the task that reads them
      ([backend/claude_conn.rs]) and [ClaudeTurns] how it ends turns,
      [ClaudeBackend] every command with the idle timer ([backend/suspend.rs])
      and [ClaudeSession] its properties.  [SerdeJson] has JSON values and
      UTF-8 as all of these use them.
    - Team coordination ([tjuaeui-team/src]).  [WorkModel] has the data and
      the [RunCausalityPort] as a type class, [WorkCoordinator] every operation
      of the slot work coordinator ([work_coordinator/coordinator.rs]), and
      [WorkInvariant], [WorkPreserve], [WorkSettle], [WorkTheorems] its proofs.
      [TeamRun] is the run manager ([team_run/manager.rs]) as an instance of
      the port, and the two together.  [MemberRuntime] is the registry of
      member runtimes ([member_runtime.rs]).  [TeamTables] has the tables of
      the team ([tjuaeui-db/src/repository/sqlite_team.rs]) over which
      [TaskBoard] ([task_board.rs]), [Mailbox] ([mailbox.rs]) and
      [TeamScheduler] ([scheduler/]) run.
    - A turn of a conversation ([tjuaeui-conversation/src]).  [TurnClaims]
      admits one turn per conversation ([runtime_state.rs]); [TurnEvents] has
      the agent's events, the errors and the three turn policies;
      [TurnMessages] the writes to the messages table and the broadcasts
      ([stream_persistence.rs] and its neighbours); [StreamRelay] the relay
      ([stream_relay.rs]) and [RelayText], [RelayOutcome] what it achieves;
      [TurnFlow] the orchestrator of the turn ([turn_orchestrator.rs]), which
      calls all of these, and [TurnTheorems] its properties.
    - An ACP agent ([tjuaeui-ai-agent/src]).  [AcpConfig] has its
      configuration options, [AcpSession] the aggregate of one session
      ([manager/acp/session.rs]), [AcpSync] the consumer that writes its domain
      events to the database ([persistence/acp_session_sync.rs]), [AcpFlow] the
      driver that opens, resumes and reconciles it.
    - The agents of all conversations ([tjuaeui-ai-agent/src]).  [AgentTasks]
      is the table of agents with its idle scanner ([task_manager.rs],
      [idle_scanner.rs]), [RuntimeTokens] the tokens with which an agent calls
      back ([runtime_token.rs]).
    - Scheduled jobs ([tjuaeui-cron/src]).  [CronTypes] has jobs, rows and the
      instants of the next run ([types.rs], [scheduler.rs]), [CronStore] the
      tables of jobs and runs ([tjuaeui-db/src/repository/sqlite_cron.rs]) and
      the world that the processes share, [CronSkill] the saved skill of a job
      with its file, the artifacts and the suggestions ([skill_file.rs],
      [artifacts.rs], [skill_suggest.rs]), [CronExecutor] the timers and the
      executor ([executor.rs], [prompt.rs]), [CronAgents] the agent and the
      mode of a job ([tjuaeui-db/src/agent_binding.rs], [service.rs]),
      [CronService] the service that joins them ([service.rs]).  Their
      properties are in [CronRows] (rows and instants), [CronSkillText] (the
      text of a skill), [CronLease] (who may run an occurrence), [CronSkillFiles]
      (what the skill files hold), [CronOutcome] and [CronCreate] (what a run, a
      start, an update and a failed creation leave behind); [CronRuns] runs
      them.  Two interfaces carry them: [Sees] of [CronQuiet] (which parts of
      the world a relation between worlds looks at; what does not write them
      keeps the relation) and [StoreSteps] of [CronCalls] (a relation that the
      steps on the store keep is kept by every call of the service).
    - Chat channels ([tjuaeui-channel/src]).  [ChannelStore] has the messages
      ([types.rs]) and the tables of users, sessions and pairing codes
      ([tjuaeui-db/src/repository/sqlite_channel.rs]), [ChannelPairing] the
      services on them ([pairing.rs], [session.rs]), [ChannelFlow] the settings
      of a platform ([channel_settings.rs]), [ChannelActions] what becomes of a
      message and of a button ([action.rs]), [ChannelRelay] the agent's
      conversation, the relay of its reply, the handling of a message and the
      administrator's routes ([message_service.rs], [stream_relay.rs],
      [orchestrator.rs], [routes.rs]).  Their properties are in [ChannelAdmit]
      (who reaches an agent; its class [Tolerant] is what a relation between
      worlds must allow for most statements to keep it), [ChannelCodes] (what
      requesting and approving a code do) and [ChannelReplies] (what a relay
      leaves in the chat); [ChannelRuns] runs them.  [ch_granted] of the world
      notes every user that was ever inserted; nothing reads it.
    - [Dependency] orders the extensions ([tjuaeui-extension/src/dependency.rs]);
      [Auth] has the rate limits and the QR login tokens ([tjuaeui-auth/src]).

    ** How the code is read

    A struct is a record, an enum an inductive type (in a module of its own
    name, so that [Enum::Variant] is [Enum.Variant]); a method is a function
    that returns the changed struct; [Result] and [?] are [Result] and [let?]
    below.  Code that changes several things in sequence runs in the state
    monad [St], whose triples are the program logic of the turn files.
    [u32]/[u64]/[usize] values are [N] (or [nat] for lengths), [i64] ones [Z],
    with saturation and wrap-around written out where a bound can be met.
    Strings are their bytes in UTF-8.

    What the code takes from outside is an argument: the clock, generated
    ids, the order in which a [HashMap] is iterated, whether a write fails.
    Third-party code and services are type classes: [AcpTypes] and
    [AcpProtocol] (the protocol crate and the agent's program), [JsonValues],
    [Printed] and [SerdeJson] (serde and SQLite's JSON), [Base64], [TurnEnv]
    and [TurnDriver] (the database, the agent and the rest of the server
    during a turn), [TeamEnv] and [ManagerEnv] (the clock, the events and other
    calls of the team), [CronLib] (cron expressions, time zones, lower-casing,
    the hash of a text and the JSON of an agent's configuration), [CronDb] (the
    clock, generated ids, which statements and which calls of the file system
    fail and how far they get), [CronHost] (conversations, agents and the
    turns of a scheduled job, answered call by call), [ChannelDb] (clock, ids,
    random numbers and failures of the channels), [ChannelHost] (their
    conversations, plugins, assistants and the formatter) and [ChannelStreams]
    (what the subscription to an agent gives).  A temporary file has a
    name that no other has (the process and a time in nanoseconds), so that
    writing it is one step.  The record [Io] is what a process answers to a write or a spawn,
    [ReaderConfig] what a reader is started with.  A theorem
    that assumes something of them names it, and its witness runs the
    hypotheses on a concrete instance.

    A mutex makes an operation one step; where the code computes under the
    lock and acts after it, the calls are returned in order.  Concurrency is a
    step relation: the callers of the registries and claims, the relay with its
    channel, the consumer with its timer, the orchestrator with its
    subscribers.  Where it is async code that other async code interrupts, it
    is a program of atomic steps ([Interleave]), and a pool of such programs
    interleaves them: the task board, the mailbox, the scheduler, the claude
    backend, the tasks of the chat channels and the processes that run
    scheduled jobs, each of which has its timers and heartbeats while all share
    the database.  A program is [quiet] for a relation between worlds if each
    of its steps is in it whatever happens in between; the steps of a component
    are hints of the tactic [quietly], which follows a program.  A statement or a
    transaction is one step; so is the replacement of a timer.  Their theorems
    hold of every interleaving.  Watch and broadcast channels are stores or
    lists of what was sent.  A poisoned mutex is modelled where the code answers to it
    ([TurnClaims]) and left out where the code recovers the guard.  Logging,
    metrics and serde derives are left out throughout.

    ** What is shown

    - Invariants and safety: every piece of team work is in exactly one place
      and a batch is settled once; one turn per conversation; a QR token is
      used once; who was granted an attach is the one who commits it; nothing
      is shown of an attempt that is replayed; at most one option update runs;
      no task waits for itself; a late result does not end the next turn; a
      permission is answered once; a woken process is the one that slept; an
      occurrence of a job stays with the process that claimed it until its
      lease is over, and one that is held or settled is not run; a skill file
      is never half written; only users whose code was approved reach an agent
      from a chat, and strangers get codes and nothing else.
    - Functional behaviour: how a turn of the session machine ends, what
      cancelling a run settles, which work comes next, how an option is set,
      which text a message of the process becomes, what a permission's response
      says, what the end of a run writes to its job, which pairing codes a
      request leaves, how a reply in a chat ends.
    - Equivalence and refinement: the table's messages against a cut of the
      event list, the member runtimes and requires-action flags against
      abstract specifications, the database row against the aggregate, cycles
      against paths, the reconcile plan against what is left to do, the frames
      of a stream however it is cut; a prompt, a job and a skill read back as they
      were written; an update of a job stores what it answers.
    - Liveness and termination: every waiter is told once, no wake-up is lost,
      a failed send ends the relay, a turn ends within its bounds, the load
      order is total, the end of the process ends the turn, the last teammate
      to settle wakes the leader, every enabled job has a timer after a start.
    - Errors and bounds: a failed turn is told, a job that cannot be tied to its
      conversation is taken back, what approving a pairing code does on every
      branch, the validation verdict, the request rate, the next run of a job,
      within [i64].

    Fuel is shown to be enough where a definition takes it: the cycle search
    and Kahn's algorithm ([compute_topological_order_total]), the two loops
    of a turn ([turn_always_ends]: [ATTEMPT_FUEL] is the first send and
    four continuations, [TURN_FUEL] the turn and one replay), reconciling
    ([reconcile_bounded]); the scans of a text take its length.

    Lemmas named as findings show where the code does not do what it means
    to, each on a concrete run ([delete_guard_lost], [late_update_resurrects],
    [lag_drops_send_error], [failed_tick_loses_job] and others).

    ** Not modelled

    Process supervision and the spawning of the agents' programs, the HTTP
    routes, the SQL of the other tables, file watching, downloads, the plugins
    of the chat platforms with their manager and the formatter (regular
    expressions), and the static catalogs: they are I/O and parsing of foreign
    formats around the parts above.  The channels cut ids after eight bytes,
    which panics within a character; ids are taken to be ASCII.  Next in line are the codex and acp
    backends of a session, the team session with its event loop, the routing of
    permission requests and the conversation service's cancel and delete flows
    over the turn. *)

From stdpp Require Export base option list gmap strings numbers sorting.
From Stdlib Require Export Lia ZifyBool ZifyN.

(** ** Scope and results

    The Rust code threads failures through [Result<T, E>] and the [?]
    operator; [Result] and its bind are the model of both. *)
Declare Scope tjuae_scope.
Delimit Scope tjuae_scope with tj.

Inductive Result (A E : Type) : Type :=
| Ok (a : A)
| Err (e : E).
Arguments Ok {A E} a.
Arguments Err {A E} e.

Definition result_bind {A B E : Type} (r : Result A E) (f : A -> Result B E) : Result B E :=
  match r with
  | Ok a => f a
  | Err e => Err e
  end.

Definition ok_or {A E : Type} (o : option A) (e : E) : Result A E :=
  match o with
  | Some a => Ok a
  | None => Err e
  end.

Definition is_ok {A E : Type} (r : Result A E) : bool :=
  match r with
  | Ok _ => true
  | Err _ => false
  end.

Notation "'let?' x := r 'in' k" := (result_bind r (fun x => k))
  (at level 10, x name, r at level 100, k at level 200) : tjuae_scope.

(** ** Code that changes a state

    A computation that answers with an [A] and may change a state [S]; what the
    source runs in sequence is bound in sequence.  A triple states what holds
    of the answer and the state after it. *)
Definition St (S A : Type) : Type := S -> A * S.

Definition st_ret {S A : Type} (a : A) : St S A := fun s => (a, s).
Definition st_bind {S A B : Type} (m : St S A) (f : A -> St S B) : St S B :=
  fun s => let '(a, s) := m s in f a s.
Definition st_modify {S : Type} (f : S -> S) : St S unit := fun s => (tt, f s).
Definition st_gets {S A : Type} (f : S -> A) : St S A := fun s => (f s, s).

Notation "'let*' x := m 'in' k" := (st_bind m (fun x => k))
  (at level 10, x pattern, m at level 100, k at level 200) : tjuae_scope.
Notation "m ';;' k" := (st_bind m (fun _ => k))
  (at level 100, k at level 200, right associativity) : tjuae_scope.

(** [for x in l]. *)
Fixpoint st_each {S A : Type} (f : A -> St S unit) (l : list A) : St S unit :=
  match l with
  | [] => st_ret tt
  | a :: l' => st_bind (f a) (fun _ => st_each f l')
  end.

Definition triple {S A : Type} (P : S -> Prop) (m : St S A) (Q : A -> S -> Prop) : Prop :=
  forall s, P s -> Q (fst (m s)) (snd (m s)).

(** ** Machine integers

    [u32]/[u64]/[usize] values are [N], [i32]/[i64] values are [Z]; the
    operations that meet a bound are written out. *)
Definition u32_max : N := (2 ^ 32 - 1)%N.
Definition u64_max : N := (2 ^ 64 - 1)%N.

Definition u32_saturating_add (a b : N) : N := N.min (a + b) u32_max.
Definition u32_saturating_sub (a b : N) : N := (a - b)%N.
Definition u64_saturating_add (a b : N) : N := N.min (a + b) u64_max.

Definition i64_max : Z := (2 ^ 63 - 1)%Z.
Definition i64_min : Z := (- 2 ^ 63)%Z.
Definition i64_clamp (z : Z) : Z := Z.max i64_min (Z.min i64_max z).
Definition i64_saturating_add (a b : Z) : Z := i64_clamp (a + b).
Definition i64_saturating_sub (a b : Z) : Z := i64_clamp (a - b).
Definition is_i64 (z : Z) : bool := (i64_min <=? z)%Z && (z <=? i64_max)%Z.
Definition i64_checked (z : Z) : option Z := if is_i64 z then Some z else None.
(** What arithmetic without a check gives in a release build. *)
Definition i64_wrap (z : Z) : Z := ((z - i64_min) mod 2 ^ 64 + i64_min)%Z.

(** ** Strings

    [str::contains]: does [needle] occur as a contiguous run of bytes? *)
Fixpoint str_contains (needle hay : string) : bool :=
  String.prefix needle hay ||
  match hay with
  | EmptyString => false
  | String _ rest => str_contains needle rest
  end.

(** [str::trim]: a string is its bytes in UTF-8, and what is trimmed are the
    characters with the property White_Space, of one, two or three bytes. *)
Definition bytes (s : string) : list N := map Ascii.N_of_ascii (String.list_ascii_of_string s).
Definition of_bytes (l : list N) : string := String.string_of_list_ascii (map Ascii.ascii_of_N l).

(** The length of the white space character at the front, 0 if there is none. *)
Definition space_front (l : list N) : nat :=
  match l with
  | a :: l =>
      if ((9 <=? a) && (a <=? 13) || (a =? 32))%N then 1
      else match l with
      | b :: l =>
          if ((a =? 194) && ((b =? 133) || (b =? 160)))%N then 2
          else match l with
          | c :: _ =>
              if ((a =? 225) && (b =? 154) && (c =? 128)
                  || (a =? 226) && (b =? 128) && ((128 <=? c) && (c <=? 138) || (c =? 168) || (c =? 169) || (c =? 175))
                  || (a =? 226) && (b =? 129) && (c =? 159)
                  || (a =? 227) && (b =? 128) && (c =? 128))%N then 3 else 0
          | [] => 0
          end
      | [] => 0
      end
  | [] => 0
  end.

(** The same for the last character of a string, its bytes in reverse. *)
Definition space_back (l : list N) : nat :=
  match l with
  | c :: b :: a :: _ =>
      if (space_front [c] =? 1)%nat then 1
      else if (space_front [b; c] =? 2)%nat then 2
      else if (space_front [a; b; c] =? 3)%nat then 3 else 0
  | [c; b] => if (space_front [c] =? 1)%nat then 1 else if (space_front [b; c] =? 2)%nat then 2 else 0
  | [c] => space_front [c]
  | [] => 0
  end.

Fixpoint drop_spaces (space : list N -> nat) (skip : nat) (l : list N) : list N :=
  match l with
  | [] => []
  | _ :: l' =>
      match skip with
      | S k => drop_spaces space k l'
      | 0 => match space l with 0 => l | S k => drop_spaces space k l' end
      end
  end.

Definition str_trim (s : string) : string :=
  of_bytes (rev (drop_spaces space_back 0 (rev (drop_spaces space_front 0 (bytes s))))).

(** ** Lists

    [Vec::iter_mut().find(p)] followed by a write through the reference:
    the first element satisfying [p] is replaced by [f x]. *)
Fixpoint update_first {A : Type} (p : A -> bool) (f : A -> A) (l : list A) : list A :=
  match l with
  | [] => []
  | x :: l' => if p x then f x :: l' else x :: update_first p f l'
  end.

Definition is_empty {A : Type} (l : list A) : bool :=
  match l with [] => true | _ => false end.

(** Iteration order of a [BTreeSet<String>] collected from a list, and of the
    keys of a [BTreeMap<String, _>] (the order of [str] is by bytes). *)
Definition btree_set (l : list string) : list string := merge_sort String.le (remove_dups l).
Definition btree_keys {A : Type} (m : gmap string A) : list string :=
  merge_sort String.le (map fst (map_to_list m)).

(** The values of a map, in some order: what [HashMap::values] yields where
    the order does not matter. *)
Definition map_values {A : Type} (m : gmap string A) : list A := map snd (map_to_list m).

(** Left fold of a state transformer over a list of inputs. *)
Definition run_list {S I : Type} (f : S -> I -> S) (s : S) (is_ : list I) : S :=
  fold_left f is_ s.

(** A loop whose body may panic. *)
Fixpoint try_fold {S I : Type} (f : S -> I -> option S) (s : S) (l : list I) : option S :=
  match l with
  | [] => Some s
  | i :: l' => match f s i with Some s' => try_fold f s' l' | None => None end
  end.

(** ** Tactics *)
Ltac break_match_goal :=
  match goal with
  | |- context [match ?x with _ => _ end] => destruct x eqn:?
  end.

Ltac break_match_hyp :=
  match goal with
  | H : context [match ?x with _ => _ end] |- _ => destruct x eqn:?
  end.

Ltac break_all := repeat first [break_match_goal | break_match_hyp]; simplify_eq/=.

(** ** Hint databases

    [tjuae] collects the lemmas that close the routine goals of the
    components: lookups of updated maps, bounds of saturating operations. *)
Create HintDb tjuae.

(** ** Rules for triples *)
Lemma triple_ret {S A : Type} (a : A) (Q : A -> S -> Prop) : triple (Q a) (st_ret a) Q.
Proof. by intros s Hs. Qed.

Lemma triple_bind {S A B : Type} (P : S -> Prop) (m : St S A) (f : A -> St S B) R Q :
  triple P m R -> (forall a, triple (R a) (f a) Q) -> triple P (st_bind m f) Q.
Proof.
  intros Hm Hf s Hs. unfold st_bind. specialize (Hm s Hs). destruct (m s) as [a s']. by apply Hf.
Qed.

Lemma triple_conseq {S A : Type} (P P' : S -> Prop) (m : St S A) (Q Q' : A -> S -> Prop) :
  triple P m Q -> (forall s, P' s -> P s) -> (forall a s, Q a s -> Q' a s) -> triple P' m Q'.
Proof. intros Hm HP HQ s Hs. apply HQ, Hm, HP, Hs. Qed.

Lemma triple_post {S A : Type} (P : S -> Prop) (m : St S A) (Q Q' : A -> S -> Prop) :
  triple P m Q -> (forall a s, Q a s -> Q' a s) -> triple P m Q'.
Proof. intros Hm HQ s Hs. by apply HQ, Hm. Qed.

Lemma triple_modify {S : Type} (f : S -> S) (Q : unit -> S -> Prop) :
  triple (fun s => Q tt (f s)) (st_modify f) Q.
Proof. by intros s Hs. Qed.

Lemma triple_pure {S A : Type} (phi : Prop) (P : S -> Prop) (m : St S A) (Q : A -> S -> Prop) :
  (phi -> triple P m Q) -> triple (fun s => phi /\ P s) m Q.
Proof. intros Hm s [Hphi Hs]. by apply Hm. Qed.

Lemma triple_ex {S A X : Type} (phi : X -> Prop) (P : X -> S -> Prop) (m : St S A) (Q : A -> S -> Prop) :
  (forall x, phi x -> triple (P x) m Q) -> triple (fun s => exists x, phi x /\ P x s) m Q.
Proof. intros Hm s (x & Hphi & Hs). by apply (Hm x). Qed.

(** The answer alone. *)
Lemma triple_answer {S A : Type} (m : St S A) (phi : A -> Prop) s :
  triple (fun _ => True) m (fun a _ => phi a) -> phi (fst (m s)).
Proof. intros Hm. by apply (Hm s). Qed.

Lemma triple_skip {S A B : Type} (P : S -> Prop) (m : St S A) (f : A -> St S B) Q :
  (forall a, triple (fun _ => True) (f a) Q) -> triple P (st_bind m f) Q.
Proof. intros Hf. by apply (triple_bind _ _ _ (fun _ _ => True)). Qed.

Lemma triple_each {S A : Type} (P : S -> Prop) (f : A -> St S unit) (l : list A) :
  (forall a, In a l -> triple P (f a) (fun _ => P)) -> triple P (st_each f l) (fun _ => P).
Proof.
  induction l as [|a l IH]; intros Hf; simpl; [by intros s|].
  eapply triple_bind; [apply Hf; by left|]. intros u. apply IH. intros b Hb. apply Hf. by right.
Qed.

(** ** Lemmas on results *)
Lemma result_bind_ok {A B E : Type} (r : Result A E) (f : A -> Result B E) (b : B) :
  result_bind r f = Ok b <-> exists a, r = Ok a /\ f a = Ok b.
Proof.
  destruct r; simpl; split.
  - intros Hf. by exists a.
  - by intros (a' & [= ->] & Hf).
  - done.
  - by intros (a' & Hbad & _).
Qed.

Lemma ok_or_ok {A E : Type} (o : option A) (e : E) (a : A) :
  ok_or o e = Ok a <-> o = Some a.
Proof. destruct o; simpl; split; congruence. Qed.

(** ** Lemmas on saturating arithmetic *)
Lemma u32_saturating_add_bound a b : (u32_saturating_add a b <= u32_max)%N.
Proof. unfold u32_saturating_add. lia. Qed.

Lemma u32_saturating_sub_bound a b : (a <= u32_max)%N -> (u32_saturating_sub a b <= u32_max)%N.
Proof. unfold u32_saturating_sub. lia. Qed.

Lemma u32_saturating_add_exact a b :
  (a + b <= u32_max)%N -> u32_saturating_add a b = (a + b)%N.
Proof. unfold u32_saturating_add. lia. Qed.

#[export] Hint Resolve u32_saturating_add_bound u32_saturating_sub_bound : tjuae.

(** ** Lemmas on strings *)
Lemma str_prefix_app p s : String.prefix p (p +:+ s) = true.
Proof.
  induction p as [|c p IH]; simpl; [by destruct s|].
  destruct (Ascii.ascii_dec c c); [done|congruence].
Qed.

Lemma str_app_cons a s t : String a s +:+ t = String a (s +:+ t).
Proof. done. Qed.
Lemma str_app_nil s : s +:+ "" = s.
Proof. induction s as [|a s IH]; [done|]. by rewrite str_app_cons, IH. Qed.
Lemma str_app_assoc s t u : s +:+ t +:+ u = (s +:+ t) +:+ u.
Proof. induction s as [|a s IH]; [done|]. by rewrite !str_app_cons, IH. Qed.
Lemma str_app_inv s t : s +:+ t = "" -> s = "" /\ t = "".
Proof. by destruct s. Qed.

Lemma str_contains_app pre needle post :
  str_contains needle (pre +:+ needle +:+ post) = true.
Proof.
  induction pre as [|c pre IH]; simpl.
  - pose proof (str_prefix_app needle post) as Hp.
    by destruct (needle +:+ post); simpl in *; rewrite Hp.
  - by rewrite IH, orb_true_r.
Qed.

(** ** Lemmas on [update_first] *)
Section UpdateFirst.
Context {A : Type} (p : A -> bool) (f : A -> A).

Lemma length_update_first l : length (update_first p f l) = length l.
Proof. induction l; simpl; [done|]. destruct (p a); simpl; congruence. Qed.

Lemma update_first_none l : Forall (fun x => p x = false) l -> update_first p f l = l.
Proof. induction 1 as [|x l Hx _ IH]; simpl; [done|]. by rewrite Hx, IH. Qed.

Lemma map_update_first {B : Type} (g : A -> B) l :
  (forall x, p x = true -> g (f x) = g x) -> map g (update_first p f l) = map g l.
Proof.
  intros Hg. induction l as [|x l IH]; simpl; [done|].
  destruct (p x) eqn:E; simpl; [by rewrite Hg|by rewrite IH].
Qed.

Lemma Forall_update_first (P : A -> Prop) l :
  Forall P l -> (forall x, P x -> p x = true -> P (f x)) -> Forall P (update_first p f l).
Proof.
  intros Hl Hf. induction Hl as [|x l Hx Hl IH]; simpl; [constructor|].
  destruct (p x) eqn:E; constructor; auto.
Qed.
End UpdateFirst.

(** ** Lemmas on boolean lists *)
Lemma forallb_app_iff {A : Type} (p : A -> bool) l1 l2 :
  forallb p (l1 ++ l2) = true -> forallb p l1 = true /\ forallb p l2 = true.
Proof. rewrite forallb_app. apply andb_true_iff. Qed.

(** ** Lemmas on lists with distinct keys *)
Lemma NoDup_map_inj {A B : Type} (f : A -> B) l x y :
  NoDup (map f l) -> x ∈ l -> y ∈ l -> f x = f y -> x = y.
Proof.
  induction l as [|z l IH]; intros Hn Hx Hy Hf; [by apply elem_of_nil in Hx|].
  apply list.NoDup_cons in Hn as [Hz Hn].
  assert (Hout : forall u, u ∈ l -> f u = f z -> False).
  { intros u Hu E. apply Hz. rewrite <- E. by apply list_elem_of_fmap_2. }
  apply elem_of_cons in Hx as [->|Hx], Hy as [->|Hy]; try done.
  - by destruct (Hout y).
  - by destruct (Hout x).
  - by apply IH.
Qed.

(** ** Lemmas on ordered sets and map values *)
Lemma elem_of_btree_set x l : x ∈ btree_set l <-> x ∈ l.
Proof. unfold btree_set. by rewrite merge_sort_Permutation, elem_of_remove_dups. Qed.

Lemma NoDup_btree_set l : NoDup (btree_set l).
Proof. unfold btree_set. rewrite merge_sort_Permutation. apply NoDup_remove_dups. Qed.

Lemma elem_of_btree_keys {A : Type} (m : gmap string A) k : k ∈ btree_keys m <-> is_Some (m !! k).
Proof.
  unfold btree_keys. rewrite merge_sort_Permutation, list_elem_of_In, in_map_iff. split.
  - intros ((k' & x) & <- & Hin%list_elem_of_In%elem_of_map_to_list). by eexists.
  - intros [x Hx]. exists (k, x). split; [done|]. by apply list_elem_of_In, elem_of_map_to_list.
Qed.

Lemma NoDup_btree_keys {A : Type} (m : gmap string A) : NoDup (btree_keys m).
Proof. unfold btree_keys. rewrite merge_sort_Permutation. apply NoDup_fst_map_to_list. Qed.

Lemma elem_of_map_values {A : Type} (m : gmap string A) x :
  x ∈ map_values m <-> exists k, m !! k = Some x.
Proof.
  unfold map_values. rewrite list_elem_of_In, in_map_iff. split.
  - intros ((k & x') & <- & Hin%list_elem_of_In%elem_of_map_to_list). by exists k.
  - intros [k Hk]. exists (k, x). split; [done|]. by apply list_elem_of_In, elem_of_map_to_list.
Qed.

(** ** Lemmas on runs *)
Lemma run_list_app {S I : Type} (f : S -> I -> S) s l1 l2 :
  run_list f s (l1 ++ l2) = run_list f (run_list f s l1) l2.
Proof. apply fold_left_app. Qed.

Lemma run_list_cons {S I : Type} (f : S -> I -> S) s i l :
  run_list f s (i :: l) = run_list f (f s i) l.
Proof. reflexivity. Qed.

Lemma run_list_invariant {S I : Type} (f : S -> I -> S) (P : S -> Prop) s l :
  P s -> (forall s' i, P s' -> In i l -> P (f s' i)) -> P (run_list f s l).
Proof.
  revert s. induction l as [|i l IH]; simpl; intros s Hs Hf; [done|].
  apply IH; [apply Hf; auto|]. intros; apply Hf; auto.
Qed.

Lemma try_fold_invariant {S I : Type} (f : S -> I -> option S) (P : S -> Prop) s l s' :
  P s -> (forall t i t', P t -> f t i = Some t' -> P t') -> try_fold f s l = Some s' -> P s'.
Proof.
  intros Hs Hf. revert s Hs. induction l as [|i l IH]; intros s Hs; simpl; [by intros [= <-]|].
  destruct (f s i) as [t|] eqn:E; [|done]. apply IH. by eapply Hf.
Qed.
