(* ===== verification/SessionEvent.v ===== *)
(** * The session event vocabulary ([crates/tjuaeui-session/src/event.rs])

    One inductive type per Rust enum, one record per Rust struct, and the two
    pure classifiers [classify] and [persist_tier] the storage layer consults.
    An enum lives in a module of its own name, as its variants are written
    [Enum::Variant] in the source.  [serde_json::Value], which is code of a
    dependency and which nothing modelled here looks into, is the parameter
    [Value] of the types that carry it; [f64] is the IEEE format type
    [spec_float]. *)

From S2P Require Import Prelude.
From Stdlib Require Import Floats.SpecFloat.

(** ** Supporting enums *)

Module ToolResultContent.
Inductive t : Type :=
| Text (text : string)
| FilePath (path : string) (mime old_text new_text : option string)
| Image (media_type : string) (data : list Byte.byte).
End ToolResultContent.

Module SubagentKind.
Inductive t : Type :=
| Inline
| Spawned (session_id : string)
| Workflow.
End SubagentKind.

Module PermissionKind.
Inductive t : Type := Tool | Auth.
#[export] Instance t_eq_dec : EqDecision t.
Proof. solve_decision. Defined.
End PermissionKind.
Export (hints) PermissionKind.

Module PlanStatus.
Inductive t : Type := Pending | InProgress | Completed.
End PlanStatus.

Module PlanPriority.
Inductive t : Type := High | Medium | Low.
End PlanPriority.

Record PlanEntry : Type := mkPlanEntry {
  plan_content : string;
  plan_status : PlanStatus.t;
  plan_priority : option PlanPriority.t;
}.

Module SubagentStatus.
Inductive t : Type := PendingInit | Running | Interrupted | Completed | Errored | Shutdown.
#[export] Instance t_eq_dec : EqDecision t.
Proof. solve_decision. Defined.

(** [SubagentStatus::is_terminal] *)
Definition is_terminal (s : t) : bool :=
  match s with
  | Interrupted | Completed | Errored | Shutdown => true
  | _ => false
  end.
End SubagentStatus.
Export (hints) SubagentStatus.

Module TruncationKind.
Inductive t : Type := MaxTokens | ContextWindow | MaxTurns | Budget | Truncated.
End TruncationKind.

Module CancelReason.
Inductive t : Type := UserCancel | BargeIn | SocketAbort | ToolDenyChain.
End CancelReason.

Module StopReason.
Inductive t : Type :=
| EndTurn
| Truncated (kind : TruncationKind.t)
| Refused (category : option string).
End StopReason.

(** The [#[default]] variant of the source is the bare [EndTurn]. *)
Module TurnOutcome.
Inductive t : Type :=
| Completed (stop_reason : StopReason.t)
| Cancelled (reason : CancelReason.t)
| Failed
| EndTurn.
Definition default : t := EndTurn.
End TurnOutcome.

Module ProvisioningPhase.
Inductive t : Type :=
| Injecting
| ToolsWaiting
| ToolsReady
| Degraded (reason : string)
| LoadFailed (reason : string).
End ProvisioningPhase.

Module NoticeLevel.
Inductive t : Type := Info | Warning.
End NoticeLevel.

Module ItemKind.
Inductive t : Type := Text | Thinking | Tool | Image.
End ItemKind.

Record TruncationInfo : Type := mkTruncationInfo {
  trunc_kind : TruncationKind.t;
  partial_text : option string;
}.

Record FinalizedMessage : Type := mkFinalizedMessage {
  fin_item_id : string;
  fin_kind : ItemKind.t;
  fin_content : string;
  fin_truncation : option TruncationInfo;
  fin_seq : N;
}.

Record CheckpointEntry : Type := mkCheckpointEntry {
  checkpoint_id : string;
  checkpoint_label : option string;
  checkpoint_turn_gen : option N;
}.

Record ContextUsageCategory : Type := mkContextUsageCategory {
  category_name : string;
  category_tokens : N;
}.

Record ContextUsage : Type := mkContextUsage {
  used : N;
  max : N;
  categories : list ContextUsageCategory;
}.

(** [WorkflowLoopState] of [state.rs], which [SubagentDetail] carries. *)
Module WorkflowLoopState.
Inductive t : Type := Start | Progress | Done.
End WorkflowLoopState.

(** The catalog entries of [capability.rs]. *)
Record ModelInfo : Type := mkModelInfo {
  model_id : string;
  model_name : string;
  model_description : option string;
  reasoning_efforts : list string;
}.

Record ModeInfo : Type := mkModeInfo {
  mode_id : string;
  mode_name : string;
  mode_description : option string;
}.

Record SlashCommandInfo : Type := mkSlashCommandInfo {
  slash_name : string;
  slash_description : option string;
}.

Record ExitStatusLite : Type := mkExitStatusLite {
  code : option Z;
  signal : option Z;
}.

(** ** The events *)
Inductive SessionEvent (Value : Type) : Type :=
| TurnStarted (epoch : N)
| Cancel
| MessageDelta (item_id text : string)
| ThoughtDelta (item_id text : string)
| ToolCall (tool_use_id name : string) (subagent : SubagentKind.t) (input : Value)
    (parent_tool_use_id : option string)
| ToolResult (tool_use_id : string) (is_error : bool) (content : list ToolResultContent.t)
    (parent_tool_use_id : option string)
| Heartbeat
| TurnResult (is_error : bool) (api_error_status : option N) (result_text : string)
    (epoch : N) (outcome : TurnOutcome.t)
| Detached (exit : option ExitStatusLite) (redacted_summary : option string)
| AdapterSpecific (tag : string) (payload : Value)
| Plan (entries : list PlanEntry) (explanation : option string)
| Permission (request_id : string) (kind : PermissionKind.t) (metadata : option Value)
    (tool_name : option string) (input : option Value)
| PermissionResolved (request_id : string) (kind : PermissionKind.t)
| PromptAccepted (client_msg_id : string)
| UsageDelta (input_tokens output_tokens total_tokens : N) (cost_usd : option spec_float)
| Provisioning (phase : ProvisioningPhase.t)
| Rewound (to_turn : N)
| ConfigChanged (mode model : option string)
| CatalogUpdated (models : list ModelInfo) (modes : list ModeInfo)
    (slash_commands : list SlashCommandInfo)
| SubagentUpdate (ref : string) (label : option string) (status : SubagentStatus.t)
    (parent_ref : option string)
| SubagentDetail (ref : string) (parent_ref label : option string)
    (loop_state : option WorkflowLoopState.t) (model : option string)
    (tokens tool_calls : option N) (last_tool_name : option string)
| Notice (level : NoticeLevel.t) (message : string)
| ToolOutputDelta (item_id text : string)
| TurnDiffUpdated (diff : string)
| ItemStarted (item_id : string) (kind : ItemKind.t)
| ItemCompleted (item_id : string) (truncation : option TruncationInfo)
| MessageFinalized (message : FinalizedMessage)
| Snapshot (state_repr : string) (turn_gen : N)
| Lagged (skipped : N)
| BackendSuspended
| CheckpointList (entries : list CheckpointEntry)
| SessionInfo (context_usage : option ContextUsage) (cost_text : option string)
| BackendBound (backend_session_id : option string).

Arguments TurnStarted {Value} epoch.
Arguments Cancel {Value}.
Arguments MessageDelta {Value} item_id text.
Arguments ThoughtDelta {Value} item_id text.
Arguments ToolCall {Value} tool_use_id name subagent input parent_tool_use_id.
Arguments ToolResult {Value} tool_use_id is_error content parent_tool_use_id.
Arguments Heartbeat {Value}.
Arguments TurnResult {Value} is_error api_error_status result_text epoch outcome.
Arguments Detached {Value} exit redacted_summary.
Arguments AdapterSpecific {Value} tag payload.
Arguments Plan {Value} entries explanation.
Arguments Permission {Value} request_id kind metadata tool_name input.
Arguments PermissionResolved {Value} request_id kind.
Arguments PromptAccepted {Value} client_msg_id.
Arguments UsageDelta {Value} input_tokens output_tokens total_tokens cost_usd.
Arguments Provisioning {Value} phase.
Arguments Rewound {Value} to_turn.
Arguments ConfigChanged {Value} mode model.
Arguments CatalogUpdated {Value} models modes slash_commands.
Arguments SubagentUpdate {Value} ref label status parent_ref.
Arguments SubagentDetail {Value} ref parent_ref label loop_state model tokens tool_calls last_tool_name.
Arguments Notice {Value} level message.
Arguments ToolOutputDelta {Value} item_id text.
Arguments TurnDiffUpdated {Value} diff.
Arguments ItemStarted {Value} item_id kind.
Arguments ItemCompleted {Value} item_id truncation.
Arguments MessageFinalized {Value} message.
Arguments Snapshot {Value} state_repr turn_gen.
Arguments Lagged {Value} skipped.
Arguments BackendSuspended {Value}.
Arguments CheckpointList {Value} entries.
Arguments SessionInfo {Value} context_usage cost_text.
Arguments BackendBound {Value} backend_session_id.

(** ** Classification for persistence *)

Module EventClass.
Inductive t : Type := BackendProduced | OrchestrationLowered.
End EventClass.

Module PersistTier.
Inductive t : Type := Ephemeral | Display | State | DisplayAndState.
#[export] Instance t_eq_dec : EqDecision t.
Proof. solve_decision. Defined.
End PersistTier.

Section Classify.
Context {Value : Type}.

Definition classify (event : SessionEvent Value) : EventClass.t :=
  match event with
  | TurnStarted _ | Cancel | Heartbeat | Snapshot _ _ | Lagged _ | BackendBound _
  | BackendSuspended => EventClass.OrchestrationLowered
  | MessageDelta _ _ | ThoughtDelta _ _ | ToolCall _ _ _ _ _ | ToolResult _ _ _ _
  | TurnResult _ _ _ _ _ | Detached _ _ | AdapterSpecific _ _ | Plan _ _
  | Permission _ _ _ _ _ | PermissionResolved _ _ | PromptAccepted _ | UsageDelta _ _ _ _
  | Provisioning _ | Rewound _ | ConfigChanged _ _ | CatalogUpdated _ _ _
  | SubagentUpdate _ _ _ _ | SubagentDetail _ _ _ _ _ _ _ _ | Notice _ _
  | ToolOutputDelta _ _ | TurnDiffUpdated _ | ItemStarted _ _ | ItemCompleted _ _
  | MessageFinalized _ | SessionInfo _ _ | CheckpointList _ => EventClass.BackendProduced
  end.

Definition is_raw_timing (tag : string) : bool :=
  bool_decide (tag = "ttft_ms") || bool_decide (tag = "elapsed") || bool_decide (tag = "latency").

Definition persist_tier (event : SessionEvent Value) : PersistTier.t :=
  match classify event with
  | EventClass.OrchestrationLowered => PersistTier.Ephemeral
  | EventClass.BackendProduced =>
      match event with
      | MessageDelta _ _ | ThoughtDelta _ _ => PersistTier.Ephemeral
      | ToolOutputDelta _ _ | TurnDiffUpdated _ => PersistTier.Ephemeral
      | ItemStarted _ _ | ItemCompleted _ _ => PersistTier.Ephemeral
      | CheckpointList _ => PersistTier.Ephemeral
      | CatalogUpdated _ _ _ => PersistTier.Ephemeral
      | SessionInfo _ _ => PersistTier.Ephemeral
      | SubagentDetail _ _ _ _ _ _ _ _ => PersistTier.Ephemeral
      | Plan _ _ => PersistTier.Ephemeral
      | ToolCall _ _ _ _ _ | ToolResult _ _ _ _ | UsageDelta _ _ _ _ | Provisioning _
      | ConfigChanged _ _ | Notice _ _ | MessageFinalized _ => PersistTier.Display
      | TurnResult _ _ _ _ _ => PersistTier.DisplayAndState
      | Permission _ _ _ _ _ | PermissionResolved _ _ | Detached _ _ | PromptAccepted _ =>
          PersistTier.DisplayAndState
      | SubagentUpdate _ _ _ _ => PersistTier.DisplayAndState
      | Rewound _ => PersistTier.State
      | AdapterSpecific tag _ =>
          if is_raw_timing tag then PersistTier.Ephemeral else PersistTier.Display
      | TurnStarted _ | Cancel | Heartbeat | Snapshot _ _ | Lagged _ | BackendBound _
      | BackendSuspended => PersistTier.Ephemeral
      end
  end.
End Classify.
