(* ===== verification/SessionState.v ===== *)
(** * The session state and its derived views ([crates/tjuaeui-session/src/state.rs])

    [SessionState] is the four-variant FSM; the fields of the [Running]
    variant are the record [Turn].  The views [can_send_message],
    [can_queue_message], [can_cancel], [is_requires_action],
    [has_foreground_activity] and [background_active] are the functions of the
    same names. *)

From S2P Require Import Prelude SessionEvent.

Record RequiresActionSet : Type := mkRequiresActionSet {
  waiting_on_approval : N;
  waiting_on_auth : N;
}.

Definition RequiresActionSet_default : RequiresActionSet := mkRequiresActionSet 0 0.

Record SubagentState : Type := mkSubagentState {
  sub_ref : string;
  sub_label : option string;
  sub_status : SubagentStatus.t;
  sub_parent_ref : option string;
}.

Module WorkflowTaskStatus.
Inductive t : Type := Running | Completed | Failed | Stopped.

Definition is_terminal (s : t) : bool :=
  match s with Running => false | _ => true end.
End WorkflowTaskStatus.

Record WorkflowAgentState : Type := mkWorkflowAgentState {
  ref_id : string;
  task_status : WorkflowTaskStatus.t;
  has_lifecycle : bool;
  retain : option bool;
  wf_label : option string;
  wf_state : option WorkflowLoopState.t;
  wf_model : option string;
  wf_last_tool_name : option string;
  wf_tokens : option N;
  wf_tool_calls : option N;
}.

Abbreviation Roster := (gmap string WorkflowAgentState).

Module ErrorReason.
Inductive t : Type :=
| Crashed
| EmptyTurn
| Backend (api_error_status : option N) (message : string).
End ErrorReason.

(** The carry of [SessionState::Running]. *)
Record Turn : Type := mkTurn {
  since_epoch : N;
  saw_substantive_output : bool;
  terminal_result_seen : bool;
  requires_action : RequiresActionSet;
  subagents : list SubagentState;
}.

Inductive SessionState : Type :=
| Starting
| Running (turn : Turn)
| Error (reason : ErrorReason.t)
| Idle.

(** The carry a [TurnStarted] installs. *)
Definition fresh_turn (epoch : N) : Turn :=
  mkTurn epoch false false RequiresActionSet_default [].

(** Writes through a [&mut] to one field of the carry. *)
Definition set_saw (b : bool) (c : Turn) : Turn :=
  mkTurn (since_epoch c) b (terminal_result_seen c) (requires_action c) (subagents c).
Definition set_requires_action (r : RequiresActionSet) (c : Turn) : Turn :=
  mkTurn (since_epoch c) (saw_substantive_output c) (terminal_result_seen c) r (subagents c).
Definition set_subagents (l : list SubagentState) (c : Turn) : Turn :=
  mkTurn (since_epoch c) (saw_substantive_output c) (terminal_result_seen c) (requires_action c) l.

(** ** Derived views *)

Definition background_active (roster : Roster) : bool :=
  existsb (fun w => has_lifecycle w && negb (WorkflowTaskStatus.is_terminal (task_status w)))
    (map snd (map_to_list roster)).

Definition can_send_message (state : SessionState) : bool :=
  match state with Idle => true | _ => false end.

Definition is_requires_action (state : SessionState) : bool :=
  match state with
  | Running c =>
      (0 <? waiting_on_approval (requires_action c))%N ||
      (0 <? waiting_on_auth (requires_action c))%N
  | _ => false
  end.

Definition can_queue_message (state : SessionState) (accepts_proactive_input : bool) : bool :=
  accepts_proactive_input &&
  match state with Running _ => true | _ => false end &&
  negb (is_requires_action state).

Definition can_cancel (state : SessionState) : bool :=
  match state with Starting | Running _ => true | _ => false end.

Definition any_subagent_active (l : list SubagentState) : bool :=
  existsb (fun s =>
    match sub_status s with
    | SubagentStatus.PendingInit | SubagentStatus.Running => true
    | _ => false
    end) l.

Definition has_foreground_activity (state : SessionState) : bool :=
  match state with
  | Starting => true
  | Running c => negb (is_requires_action state) || any_subagent_active (subagents c)
  | Error _ | Idle => false
  end.

Definition is_unrecoverable_resume_error (reason : ErrorReason.t) : bool :=
  match reason with
  | ErrorReason.Backend _ message =>
      str_contains "No conversation found" message ||
      str_contains "error_during_execution" message ||
      str_contains "no rollout found for thread id" message ||
      str_contains "thread not found:" message
  | _ => false
  end.

(** ** Lemmas *)

Lemma background_active_true (roster : Roster) :
  background_active roster = true <->
  exists k w, roster !! k = Some w /\ has_lifecycle w = true /\
    WorkflowTaskStatus.is_terminal (task_status w) = false.
Proof.
  unfold background_active. rewrite existsb_exists. split.
  - intros (w & Hin & Hw). apply in_map_iff in Hin as ((k & w') & <- & Hin).
    apply list_elem_of_In, elem_of_map_to_list in Hin. simpl in Hw.
    apply andb_true_iff in Hw as [? ?%negb_true_iff]. by exists k, w'.
  - intros (k & w & Hk & Hl & Ht). exists w. split.
    + apply in_map_iff. exists (k, w). split; [done|].
      by apply list_elem_of_In, elem_of_map_to_list.
    + by rewrite Hl, Ht.
Qed.

Lemma background_active_false (roster : Roster) :
  background_active roster = false <->
  forall k w, roster !! k = Some w -> has_lifecycle w = true ->
    WorkflowTaskStatus.is_terminal (task_status w) = true.
Proof.
  rewrite <- not_true_iff_false, background_active_true. split.
  - intros Hn k w Hk Hl. destruct (WorkflowTaskStatus.is_terminal _) eqn:E; [done|].
    exfalso. apply Hn. by exists k, w.
  - intros Hall (k & w & Hk & Hl & Ht). by rewrite (Hall k w Hk Hl) in Ht.
Qed.

Lemma background_active_empty : background_active ∅ = false.
Proof. reflexivity. Qed.

(** A subagent is active exactly when its status is not terminal. *)
Lemma subagent_active_dual (s : SubagentStatus.t) :
  match s with
  | SubagentStatus.PendingInit | SubagentStatus.Running => true
  | _ => false
  end = negb (SubagentStatus.is_terminal s).
Proof. by destruct s. Qed.

