(* ===== verification/SessionReducer.v ===== *)
(** * The session reducer ([crates/tjuaeui-session/src/reducer.rs])

    [step] is the pure reducer of the session FSM.  Its match is split into
    one definition per group of arms, in the order of the source: the
    [TurnStarted] arm, the terminal-absorbing arm, [Cancel], the arms that
    apply while [Starting] ([step_starting]) and the arms that apply while
    [Running] ([step_running] and the helpers it calls). *)

From S2P Require Import Prelude SessionEvent SessionState.

Record Transition : Type := mkTransition {
  tr_from : SessionState;
  tr_to : SessionState;
  tr_epoch : N;
}.

Module ExternalPhase.
Inductive t : Type := Starting | Running | RequiresAction | Error | Idle.
#[export] Instance t_eq_dec : EqDecision t.
Proof. solve_decision. Defined.
End ExternalPhase.
Export (hints) ExternalPhase.

Definition external_phase (s : SessionState) : ExternalPhase.t :=
  match s with
  | Starting => ExternalPhase.Starting
  | Running _ =>
      if is_requires_action s then ExternalPhase.RequiresAction else ExternalPhase.Running
  | Error _ => ExternalPhase.Error
  | Idle => ExternalPhase.Idle
  end.

Definition settle (from to : SessionState) (epoch : N) : SessionState * list Transition :=
  let transitions :=
    if decide (external_phase from = external_phase to) then []
    else [mkTransition from to epoch] in
  (to, transitions).

Definition anchor_epoch (s : SessionState) : N :=
  match s with
  | Running c => since_epoch c
  | _ => 0%N
  end.

(** [event::Outcome] *)
Module Outcome.
Inductive t : Type := Crashed | CleanNoResult | FollowResult.
End Outcome.

Definition crash_outcome (terminal_result_seen : bool) (exit : option ExitStatusLite) : Outcome.t :=
  if terminal_result_seen then Outcome.FollowResult
  else
    match exit with
    | Some (mkExitStatusLite (Some code) None) =>
        if (code =? 0)%Z then Outcome.CleanNoResult else Outcome.Crashed
    | _ => Outcome.Crashed
    end.

(** The upsert of the [SubagentUpdate] arm. *)
Definition upsert_subagent (next : SubagentState) (l : list SubagentState) : list SubagentState :=
  let same s := bool_decide (sub_ref s = sub_ref next) in
  match find same l with
  | Some slot =>
      if SubagentStatus.is_terminal (sub_status slot)
         && negb (SubagentStatus.is_terminal (sub_status next))
      then l
      else update_first same (fun _ => next) l
  | None => l ++ [next]
  end.

(** The counter updates of the [Permission] and [PermissionResolved] arms. *)
Definition request_permission (kind : PermissionKind.t) (r : RequiresActionSet) : RequiresActionSet :=
  match kind with
  | PermissionKind.Tool =>
      mkRequiresActionSet (u32_saturating_add (waiting_on_approval r) 1) (waiting_on_auth r)
  | PermissionKind.Auth =>
      mkRequiresActionSet (waiting_on_approval r) (u32_saturating_add (waiting_on_auth r) 1)
  end.

Definition resolve_permission (kind : PermissionKind.t) (r : RequiresActionSet) : RequiresActionSet :=
  match kind with
  | PermissionKind.Tool =>
      mkRequiresActionSet (u32_saturating_sub (waiting_on_approval r) 1) (waiting_on_auth r)
  | PermissionKind.Auth =>
      mkRequiresActionSet (waiting_on_approval r) (u32_saturating_sub (waiting_on_auth r) 1)
  end.

Definition is_refused (outcome : TurnOutcome.t) : bool :=
  match outcome with
  | TurnOutcome.Completed (StopReason.Refused _) => true
  | _ => false
  end.

(** The [TurnResult] arm while [Running]. *)
Definition step_turn_result (c : Turn) (is_error : bool) (api_error_status : option N)
    (result_text : string) (result_epoch : N) (outcome : TurnOutcome.t)
    : SessionState * list Transition :=
  let state := Running c in
  if negb (result_epoch =? 0)%N && (result_epoch <? since_epoch c)%N then (state, [])
  else
    let to :=
      if is_error then Error (ErrorReason.Backend api_error_status result_text)
      else if negb (saw_substantive_output c) && bool_decide (result_text = "")
              && negb (is_refused outcome)
      then Error ErrorReason.EmptyTurn
      else Idle in
    settle state to (anchor_epoch state).

(** The [Detached] arm while [Running]. *)
Definition step_detached (c : Turn) (exit : option ExitStatusLite) : SessionState * list Transition :=
  let state := Running c in
  match crash_outcome (terminal_result_seen c) exit with
  | Outcome.Crashed => settle state (Error ErrorReason.Crashed) (anchor_epoch state)
  | Outcome.CleanNoResult => settle state (Error ErrorReason.EmptyTurn) (anchor_epoch state)
  | Outcome.FollowResult => (state, [])
  end.

Section Step.
Context {Value : Type}.

Definition step_starting (event : SessionEvent Value) : SessionState * list Transition :=
  match event with
  | Detached _ _ => settle Starting (Error ErrorReason.Crashed) (anchor_epoch Starting)
  | TurnResult true api_error_status result_text _ _ =>
      settle Starting (Error (ErrorReason.Backend api_error_status result_text))
        (anchor_epoch Starting)
  | _ => (Starting, [])
  end.

Definition step_running (c : Turn) (event : SessionEvent Value) : SessionState * list Transition :=
  let state := Running c in
  match event with
  | MessageDelta _ text =>
      (if bool_decide (text = "") then state else Running (set_saw true c), [])
  | ThoughtDelta _ _ => (state, [])
  | ToolCall _ _ _ _ _ => (state, [])
  | ToolResult _ _ _ _ => (Running (set_saw true c), [])
  | Heartbeat => (state, [])
  | TurnResult is_error api_error_status result_text result_epoch outcome =>
      step_turn_result c is_error api_error_status result_text result_epoch outcome
  | Detached exit _ => step_detached c exit
  | Permission _ kind _ _ _ =>
      settle state (Running (set_requires_action (request_permission kind (requires_action c)) c))
        (anchor_epoch state)
  | PermissionResolved _ kind =>
      settle state (Running (set_requires_action (resolve_permission kind (requires_action c)) c))
        (anchor_epoch state)
  | AdapterSpecific _ _ => (state, [])
  | PromptAccepted _ | UsageDelta _ _ _ _ | Plan _ _ | Provisioning _ | Rewound _
  | ConfigChanged _ _ | CatalogUpdated _ _ _ | ItemStarted _ _ | ItemCompleted _ _
  | ToolOutputDelta _ _ | TurnDiffUpdated _ | Notice _ _ | MessageFinalized _ | Snapshot _ _
  | Lagged _ | CheckpointList _ | SessionInfo _ _ | SubagentDetail _ _ _ _ _ _ _ _
  | BackendBound _ | BackendSuspended => (state, [])
  | SubagentUpdate ref label status parent_ref =>
      (Running (set_subagents
         (upsert_subagent (mkSubagentState ref label status parent_ref) (subagents c)) c), [])
  | TurnStarted _ | Cancel => (state, []) (* taken by earlier arms of [step] *)
  end.

Definition step (state : SessionState) (event : SessionEvent Value)
    : SessionState * list Transition :=
  match event with
  | TurnStarted epoch =>
      let start := settle state (Running (fresh_turn epoch)) epoch in
      match state with
      | Running c => if (epoch <=? since_epoch c)%N then (state, []) else start
      | _ => start
      end
  | _ =>
      match state with
      | Idle | Error _ => (state, [])
      | _ =>
          match event, state with
          | Cancel, _ => settle state Idle (anchor_epoch state)
          | _, Starting => step_starting event
          | _, Running c => step_running c event
          | _, _ => (state, [])
          end
      end
  end.

(** The state after one event, and after a sequence of events. *)
Definition step_state (state : SessionState) (event : SessionEvent Value) : SessionState :=
  fst (step state event).

Definition run_events (state : SessionState) (events : list (SessionEvent Value)) : SessionState :=
  run_list step_state state events.

(** ** Specification of a turn

    What a turn amounts to is a function of its events: the first event that
    [decides] the turn, and whether a [substantive] event came before it. *)
Definition is_turn_started (event : SessionEvent Value) : bool :=
  match event with TurnStarted _ => true | _ => false end.

Definition substantive (event : SessionEvent Value) : bool :=
  match event with
  | MessageDelta _ text => negb (bool_decide (text = ""))
  | ToolResult _ _ _ _ => true
  | _ => false
  end.

Definition decides (epoch : N) (event : SessionEvent Value) : bool :=
  match event with
  | Cancel | Detached _ _ => true
  | TurnResult _ _ _ result_epoch _ => (result_epoch =? 0)%N || (epoch <=? result_epoch)%N
  | _ => false
  end.

Definition verdict (saw : bool) (event : SessionEvent Value) : SessionState :=
  match event with
  | Detached (Some (mkExitStatusLite (Some 0%Z) None)) _ => Error ErrorReason.EmptyTurn
  | Detached _ _ => Error ErrorReason.Crashed
  | TurnResult true status text _ _ => Error (ErrorReason.Backend status text)
  | TurnResult false _ text _ outcome =>
      if saw || negb (bool_decide (text = "")) || is_refused outcome
      then Idle else Error ErrorReason.EmptyTurn
  | _ => Idle
  end.

(** ** Specification of the requires-action set

    [Outstanding epoch events T A]: [events] is a trace of a turn, starting
    after its [TurnStarted], in which every request id is asked for at most
    once at a time and answered only while it is outstanding, and after which
    [T] and [A] are the tool and auth requests that are outstanding. *)
Definition neutral (epoch : N) (event : SessionEvent Value) : bool :=
  negb (is_turn_started event) && negb (decides epoch event) &&
  match event with
  | Permission _ _ _ _ _ | PermissionResolved _ _ => false
  | _ => true
  end.

Inductive Outstanding (epoch : N) :
    list (SessionEvent Value) -> gset string -> gset string -> Prop :=
| out_nil : Outstanding epoch [] ∅ ∅
| out_other events T A e :
    Outstanding epoch events T A -> neutral epoch e = true ->
    Outstanding epoch (events ++ [e]) T A
| out_ask_tool events T A r md tn inp :
    Outstanding epoch events T A -> r ∉ T -> (N.of_nat (size T) < u32_max)%N ->
    Outstanding epoch (events ++ [Permission r PermissionKind.Tool md tn inp]) ({[r]} ∪ T) A
| out_ask_auth events T A r md tn inp :
    Outstanding epoch events T A -> r ∉ A -> (N.of_nat (size A) < u32_max)%N ->
    Outstanding epoch (events ++ [Permission r PermissionKind.Auth md tn inp]) T ({[r]} ∪ A)
| out_answer_tool events T A r :
    Outstanding epoch events T A -> r ∈ T ->
    Outstanding epoch (events ++ [PermissionResolved r PermissionKind.Tool]) (T ∖ {[r]}) A
| out_answer_auth events T A r :
    Outstanding epoch events T A -> r ∈ A ->
    Outstanding epoch (events ++ [PermissionResolved r PermissionKind.Auth]) T (A ∖ {[r]}).

(** ** The invariant of the reachable states *)
Definition turn_ok (c : Turn) : Prop :=
  terminal_result_seen c = false /\
  (waiting_on_approval (requires_action c) <= u32_max)%N /\
  (waiting_on_auth (requires_action c) <= u32_max)%N /\
  NoDup (map sub_ref (subagents c)).

Definition state_ok (s : SessionState) : Prop :=
  match s with
  | Starting => False
  | Running c => turn_ok c
  | Error _ | Idle => True
  end.

(** ** Lemmas on [settle] and [step] *)

Lemma settle_fst from to epoch : fst (settle from to epoch) = to.
Proof. reflexivity. Qed.

Lemma settle_self s epoch : settle s s epoch = (s, []).
Proof. unfold settle. by rewrite decide_True. Qed.

Definition is_terminal_state (s : SessionState) : bool :=
  match s with Idle | Error _ => true | _ => false end.

(** The epoch stamped on a transition out of [s] by [e]. *)
Definition stamp (s : SessionState) (e : SessionEvent Value) : N :=
  match e with
  | TurnStarted epoch => epoch
  | _ => anchor_epoch s
  end.

Lemma phase_set_saw b c : external_phase (Running (set_saw b c)) = external_phase (Running c).
Proof. reflexivity. Qed.

Lemma phase_set_subagents l c :
  external_phase (Running (set_subagents l c)) = external_phase (Running c).
Proof. reflexivity. Qed.

Lemma settle_eq s s' epoch :
  external_phase s = external_phase s' -> (s', []) = settle s s' epoch.
Proof. intros H. unfold settle. by rewrite decide_True. Qed.

(** Every arm of the reducer is a [settle]. *)
Lemma step_settles s e : step s e = settle s (step_state s e) (stamp s e).
Proof.
  unfold step_state. destruct e, s; simpl; try (by rewrite settle_self); try reflexivity.
  all: repeat (case_match; simpl; try (by rewrite settle_self); try reflexivity).
  all: unfold step_turn_result, step_detached.
  all: repeat (case_match; simpl; try (by rewrite settle_self); try reflexivity).
  all: by apply settle_eq.
Qed.

(** Reduction of [step] on a running turn, for the events that do not start
    or cancel a turn. *)
Lemma step_running_eq c e :
  is_turn_started e = false -> (match e with Cancel => False | _ => True end) ->
  step (Running c) e = step_running c e.
Proof. by destruct e. Qed.

Lemma step_terminal s e :
  is_terminal_state s = true -> is_turn_started e = false -> step s e = (s, []).
Proof. by destruct s, e. Qed.

Lemma run_events_app s l1 l2 : run_events s (l1 ++ l2) = run_events (run_events s l1) l2.
Proof. apply run_list_app. Qed.

Lemma run_events_terminal s l :
  is_terminal_state s = true -> forallb (fun e => negb (is_turn_started e)) l = true ->
  run_events s l = s.
Proof.
  intros Hs. induction l as [|e l IH]; simpl; [done|].
  intros [He%negb_true_iff Hl]%andb_true_iff.
  unfold run_events, step_state in *. simpl. rewrite step_terminal by done. auto.
Qed.

(** ** The subagent roster *)

Lemma upsert_refs next l :
  map sub_ref (upsert_subagent next l) =
  if existsb (fun s => bool_decide (sub_ref s = sub_ref next)) l
  then map sub_ref l else map sub_ref l ++ [sub_ref next].
Proof.
  unfold upsert_subagent.
  destruct (find _ l) as [slot|] eqn:Hf.
  - apply find_some in Hf as [Hin Hp].
    assert (Hex : existsb (fun s => bool_decide (sub_ref s = sub_ref next)) l = true)
      by (apply existsb_exists; eauto).
    rewrite Hex. case_match; [done|]. apply map_update_first.
    intros x Hx%bool_decide_eq_true. congruence.
  - assert (Hex : existsb (fun s => bool_decide (sub_ref s = sub_ref next)) l = false).
    { apply not_true_iff_false. intros (x & Hin & Hx)%existsb_exists.
      by rewrite (find_none _ _ Hf x Hin) in Hx. }
    by rewrite Hex, map_app.
Qed.

Lemma upsert_nodup next l :
  NoDup (map sub_ref l) -> NoDup (map sub_ref (upsert_subagent next l)).
Proof.
  intros Hnd. rewrite upsert_refs. destruct (existsb _ l) eqn:Hex; [done|].
  apply list.NoDup_app. split; [done|]. split; [|apply NoDup_singleton].
  intros r Hr ->%list_elem_of_singleton. apply not_true_iff_false in Hex. apply Hex.
  apply list_elem_of_In, in_map_iff in Hr as (s & Hs & Hin).
  apply existsb_exists. exists s. split; [done|]. by apply bool_decide_eq_true.
Qed.

(** The status the roster holds for a reference. *)
Definition sub_lookup (ref : string) (l : list SubagentState) : option SubagentState :=
  find (fun s => bool_decide (sub_ref s = ref)) l.

Lemma sub_lookup_update_first ref next l :
  sub_lookup ref (update_first (fun s => bool_decide (sub_ref s = sub_ref next)) (fun _ => next) l)
  = match sub_lookup ref l with
    | Some slot => Some (if bool_decide (ref = sub_ref next) then next else slot)
    | None => None
    end.
Proof.
  unfold sub_lookup. induction l as [|s l IH]; simpl; [done|].
  destruct (bool_decide_reflect (sub_ref s = sub_ref next)) as [E|E]; simpl.
  - destruct (bool_decide_reflect (sub_ref next = ref)) as [E'|E'].
    + rewrite bool_decide_eq_true_2 by congruence.
      by rewrite bool_decide_eq_true_2 by congruence.
    + rewrite (bool_decide_eq_false_2 (sub_ref s = ref)) by congruence.
      destruct (find _ l); [|done]. by rewrite bool_decide_eq_false_2 by congruence.
  - destruct (bool_decide_reflect (sub_ref s = ref)) as [E'|E']; [|apply IH].
    by rewrite bool_decide_eq_false_2 by congruence.
Qed.

Lemma find_app_none {A} (p : A -> bool) l x :
  find p (l ++ [x]) = match find p l with Some y => Some y | None => if p x then Some x else None end.
Proof. induction l as [|y l IH]; simpl; [done|]. by destruct (p y). Qed.

(** ** The invariant *)

Lemma fresh_turn_ok epoch : turn_ok (fresh_turn epoch).
Proof. repeat split; simpl; try (unfold u32_max; lia). constructor. Qed.

Lemma turn_ok_saw c b : turn_ok c -> turn_ok (set_saw b c).
Proof. done. Qed.

Lemma turn_ok_request c kind :
  turn_ok c -> turn_ok (set_requires_action (request_permission kind (requires_action c)) c).
Proof.
  intros (? & ? & ? & ?). split; [done|].
  destruct kind; simpl; auto using u32_saturating_add_bound.
Qed.

Lemma turn_ok_resolve c kind :
  turn_ok c -> turn_ok (set_requires_action (resolve_permission kind (requires_action c)) c).
Proof.
  intros (? & ? & ? & ?). split; [done|].
  destruct kind; simpl; auto using u32_saturating_sub_bound.
Qed.

Lemma turn_ok_subagents c l :
  turn_ok c -> NoDup (map sub_ref l) -> turn_ok (set_subagents l c).
Proof. by intros (? & ? & ? & _). Qed.

#[local] Hint Resolve fresh_turn_ok turn_ok_saw : tjuae.

Lemma step_running_ok c e :
  turn_ok c -> is_turn_started e = false -> state_ok (fst (step_running c e)).
Proof.
  intros Hc He. destruct e; simpl in *; try done.
  - case_match; [done|]. simpl. auto with tjuae.
  - unfold step_turn_result. repeat (case_match; simpl; try done).
  - unfold step_detached. repeat (case_match; simpl; try done).
  - by apply turn_ok_request.
  - by apply turn_ok_resolve.
  - apply turn_ok_subagents; [done|]. destruct Hc as (_ & _ & _ & ?). by apply upsert_nodup.
Qed.

Lemma step_ok s e : state_ok s -> state_ok (step_state s e).
Proof.
  unfold step_state. intros Hs. destruct (is_turn_started e) eqn:He.
  - destruct e; try done. simpl. destruct s; simpl in *; auto with tjuae.
    case_match; simpl; auto with tjuae.
  - destruct s as [|c|r|]; [done| |by rewrite step_terminal..].
    destruct (match e with Cancel => true | _ => false end) eqn:Hc; [by destruct e|].
    rewrite step_running_eq by (done || by destruct e). by apply step_running_ok.
Qed.

(** ** Running a turn *)

Lemma run_events_cons s e l : run_events s (e :: l) = run_events (step_state s e) l.
Proof. reflexivity. Qed.

Lemma run_events_snoc s l e : run_events s (l ++ [e]) = step_state (run_events s l) e.
Proof. by rewrite run_events_app. Qed.

(** An event that neither starts nor decides a turn keeps it running; of the
    carry, only the substantive-output flag, the counters and the roster
    move. *)
Lemma step_undecided c e :
  is_turn_started e = false -> decides (since_epoch c) e = false ->
  exists c', step_state (Running c) e = Running c' /\
    since_epoch c' = since_epoch c /\
    saw_substantive_output c' = (saw_substantive_output c || substantive e) /\
    terminal_result_seen c' = terminal_result_seen c.
Proof.
  intros Hs Hd. unfold step_state. destruct e; try done; simpl in *;
    try (eexists; by rewrite ?orb_false_r, ?orb_true_r).
  - case_bool_decide; eexists; by rewrite ?orb_false_r, ?orb_true_r.
  - unfold step_turn_result. apply orb_false_iff in Hd as [He Hlt].
    rewrite He. replace (epoch <? since_epoch c)%N with true by lia.
    eexists. by rewrite orb_false_r.
Qed.

Lemma run_undecided l c :
  terminal_result_seen c = false ->
  forallb (fun e => negb (is_turn_started e) && negb (decides (since_epoch c) e)) l = true ->
  exists c', run_events (Running c) l = Running c' /\
    since_epoch c' = since_epoch c /\
    saw_substantive_output c' = (saw_substantive_output c || existsb substantive l) /\
    terminal_result_seen c' = false.
Proof.
  revert c. induction l as [|e l IH]; intros c Ht Hl; simpl in Hl.
  - exists c. by rewrite orb_false_r.
  - apply andb_true_iff in Hl as [He Hl].
    apply andb_true_iff in He as [Hs%negb_true_iff Hd%negb_true_iff].
    destruct (step_undecided c e Hs Hd) as (c1 & Hstep & Hep & Hsaw & Hterm).
    rewrite run_events_cons, Hstep.
    destruct (IH c1) as (c2 & Hrun & Hep2 & Hsaw2 & Hterm2);
      [congruence | by rewrite Hep |].
    exists c2. rewrite Hrun, Hsaw2, Hsaw, Hep2, Hep. simpl. by rewrite orb_assoc.
Qed.

Lemma step_decided c e :
  terminal_result_seen c = false -> is_turn_started e = false ->
  decides (since_epoch c) e = true ->
  step_state (Running c) e = verdict (saw_substantive_output c) e.
Proof.
  intros Ht Hs Hd. unfold step_state. destruct e; try done; simpl in *.
  - unfold step_turn_result.
    replace (negb (epoch =? 0)%N && (epoch <? since_epoch c)%N) with false by lia.
    destruct is_error; [done|].
    destruct (saw_substantive_output c); simpl; [done|].
    destruct (bool_decide (result_text = "")); simpl; [|done].
    by destruct (is_refused outcome).
  - unfold step_detached, crash_outcome. rewrite Ht.
    destruct exit as [[[z|] [sg|]]|]; simpl; try done.
    all: by destruct z.
Qed.

Lemma verdict_terminal saw e : is_terminal_state (verdict saw e) = true.
Proof.
  destruct e; simpl; repeat case_match; done.
Qed.

(** ** The requires-action counters *)

Definition counters (s : SessionState) : option (N * N) :=
  match s with
  | Running c => Some (waiting_on_approval (requires_action c), waiting_on_auth (requires_action c))
  | _ => None
  end.

Lemma step_neutral c e :
  neutral (since_epoch c) e = true ->
  exists c', step_state (Running c) e = Running c' /\
    since_epoch c' = since_epoch c /\ requires_action c' = requires_action c.
Proof.
  unfold neutral. intros [[Hs Hd]%andb_true_iff Hk]%andb_true_iff.
  apply negb_true_iff in Hs, Hd. unfold step_state.
  destruct e; try done; simpl in *; try (by eexists).
  - case_bool_decide; by eexists.
  - unfold step_turn_result. apply orb_false_iff in Hd as [He Hlt].
    rewrite He. replace (epoch <? since_epoch c)%N with true by lia. by eexists.
Qed.

Lemma size_add_new (X : gset string) (r : string) :
  r ∉ X -> size ({[r]} ∪ X) = S (size X).
Proof. intros Hr. rewrite size_union by set_solver. by rewrite size_singleton. Qed.

Lemma size_remove (X : gset string) (r : string) :
  r ∈ X -> size X = S (size (X ∖ {[r]})).
Proof.
  intros Hr. rewrite size_difference by set_solver. rewrite size_singleton.
  assert (size X <> 0)%nat; [|lia]. intros H%size_empty_inv. set_solver.
Qed.

Lemma outstanding_counters epoch events T A :
  Outstanding epoch events T A ->
  exists c, run_events (Running (fresh_turn epoch)) events = Running c /\
    since_epoch c = epoch /\
    waiting_on_approval (requires_action c) = N.of_nat (size T) /\
    waiting_on_auth (requires_action c) = N.of_nat (size A).
Proof.
  induction 1 as [|? ? ? e _ (c & Hrun & Hep & HT & HA) Hn
    |? ? ? r ? ? ? _ (c & Hrun & Hep & HT & HA) Hr Hb|? ? ? r ? ? ? _ (c & Hrun & Hep & HT & HA) Hr Hb
    |? ? ? r _ (c & Hrun & Hep & HT & HA) Hr|? ? ? r _ (c & Hrun & Hep & HT & HA) Hr].
  { by exists (fresh_turn epoch). }
  all: rewrite run_events_snoc, Hrun.
  { destruct (step_neutral c e) as (c' & -> & Hep' & Hra'); [by rewrite Hep|].
    exists c'. by rewrite Hep', Hra'. }
  all: eexists; split; [reflexivity|]; simpl; rewrite ?HT, ?HA; split; [done|].
  all: unfold u32_saturating_add, u32_saturating_sub; split; try done.
  all: rewrite ?size_add_new by done; try lia.
  - pose proof (size_remove _ _ Hr). lia.
  - pose proof (size_remove _ _ Hr). lia.
Qed.

(** ** Unlock *)

Lemma can_send_terminal s : can_send_message s = true -> s = Idle.
Proof. by destruct s. Qed.

Lemma verdict_not_running saw e c : verdict saw e <> Running c.
Proof. intros H. pose proof (verdict_terminal saw e) as Ht. by rewrite H in Ht. Qed.

(** ** Absorption in the roster *)

Lemma sub_lookup_upsert ref next l :
  sub_lookup ref (upsert_subagent next l) =
  if bool_decide (ref = sub_ref next) then
    match sub_lookup ref l with
    | Some slot =>
        if SubagentStatus.is_terminal (sub_status slot)
           && negb (SubagentStatus.is_terminal (sub_status next))
        then Some slot else Some next
    | None => Some next
    end
  else sub_lookup ref l.
Proof.
  unfold upsert_subagent. fold (sub_lookup (sub_ref next) l).
  case_bool_decide as Hr; [subst ref|].
  - destruct (sub_lookup (sub_ref next) l) as [slot|] eqn:Hl.
    + destruct (_ && _); [done|]. rewrite sub_lookup_update_first, Hl.
      by rewrite bool_decide_eq_true_2.
    + unfold sub_lookup in *. rewrite find_app_none, Hl. by rewrite bool_decide_eq_true_2.
  - destruct (sub_lookup (sub_ref next) l) as [slot|] eqn:Hl.
    + destruct (_ && _); [done|]. rewrite sub_lookup_update_first.
      destruct (sub_lookup ref l); [|done]. by rewrite bool_decide_eq_false_2.
    + unfold sub_lookup. rewrite find_app_none.
      destruct (find _ l); [done|]. by rewrite bool_decide_eq_false_2.
Qed.

(** What an event does to the roster of a turn that keeps running. *)
Lemma step_running_roster c e c' :
  is_turn_started e = false -> step_state (Running c) e = Running c' ->
  subagents c' =
  match e with
  | SubagentUpdate ref label status parent_ref =>
      upsert_subagent (mkSubagentState ref label status parent_ref) (subagents c)
  | _ => subagents c
  end.
Proof.
  intros Hs. unfold step_state. destruct e; try done; simpl; try congruence.
  - case_bool_decide; intros [= <-]; done.
  - by intros [= <-].
  - unfold step_turn_result. repeat (case_match; simpl; try congruence).
  - unfold step_detached. repeat (case_match; simpl; try congruence).
  - by intros [= <-].
  - by intros [= <-].
  - by intros [= <-].
Qed.

Lemma step_not_running s e c :
  is_turn_started e = false -> step_state s e = Running c -> exists c0, s = Running c0.
Proof.
  unfold step_state. destruct s; [|eauto|by destruct e..].
  destruct e; simpl; try done. by destruct is_error.
Qed.

Lemma run_not_running s l c :
  forallb (fun e => negb (is_turn_started e)) l = true ->
  run_events s l = Running c -> exists c0, s = Running c0.
Proof.
  revert s. induction l as [|e l IH]; intros s Hf Hrun; [by eauto|].
  apply andb_true_iff in Hf as [He%negb_true_iff Hl]. rewrite run_events_cons in Hrun.
  destruct (IH _ Hl Hrun) as [c1 Hc1]. by eapply step_not_running.
Qed.

Definition sub_terminal (ref : string) (c : Turn) : Prop :=
  exists slot, sub_lookup ref (subagents c) = Some slot /\
    SubagentStatus.is_terminal (sub_status slot) = true.

Lemma step_sub_terminal ref c e c' :
  is_turn_started e = false -> step_state (Running c) e = Running c' ->
  sub_terminal ref c -> sub_terminal ref c'.
Proof.
  intros Hs Hstep (slot & Hl & Ht). unfold sub_terminal.
  rewrite (step_running_roster _ _ _ Hs Hstep).
  destruct e; try (by exists slot). rewrite sub_lookup_upsert. simpl.
  case_bool_decide; [|by exists slot]. rewrite Hl, Ht. simpl.
  destruct (SubagentStatus.is_terminal status) eqn:E; simpl; eauto.
Qed.

(** ** Properties *)

(** C3. A turn is decided by its first deciding event.  Starting from any
    terminal state, a turn whose events before [e] neither start a turn nor
    decide this one ends, whatever comes after [e] short of a new turn, in the
    state [verdict] reads off [e]: [Idle] for a cancel, an error for a process
    exit (empty turn for a clean exit, crash otherwise) or an error result, and
    for a success result [Idle] exactly when some event before it was
    substantive, or the result carries text, or it is a refusal. *)
Theorem turn_outcome s epoch pre e post :
  is_terminal_state s = true ->
  forallb (fun x => negb (is_turn_started x) && negb (decides epoch x)) pre = true ->
  is_turn_started e = false -> decides epoch e = true ->
  forallb (fun x => negb (is_turn_started x)) post = true ->
  run_events s (TurnStarted epoch :: pre ++ e :: post) = verdict (existsb substantive pre) e.
Proof.
  intros Hs Hpre He Hd Hpost. rewrite run_events_cons.
  replace (step_state s (TurnStarted epoch)) with (Running (fresh_turn epoch)) by (by destruct s).
  rewrite run_events_app.
  destruct (run_undecided pre (fresh_turn epoch)) as (c & Hrun & Hep & Hsaw & Ht); [done|done|].
  rewrite Hrun, run_events_cons, step_decided by (done || by rewrite Hep).
  rewrite Hsaw. apply run_events_terminal; [apply verdict_terminal|done].
Qed.

(** A transition is emitted exactly when the external phase changes, at
    most one per event, and it records the state before, the state after and
    the epoch: the new one for a [TurnStarted], the running turn's (0 outside
    a turn) for any other event. *)
Theorem transition_law s e :
  snd (step s e) =
  if decide (external_phase s = external_phase (step_state s e)) then []
  else [mkTransition s (step_state s e) (stamp s e)].
Proof. rewrite step_settles at 1. reflexivity. Qed.

(** The terminal states absorb: after a cancel taken in any state that
    can be cancelled, no sequence of events short of a new turn leaves [Idle]
    or emits a transition, so the process exit or the late result that follows
    a cancel is never reported as a crash or an error. *)
Theorem cancel_absorbs s l e :
  can_cancel s = true ->
  forallb (fun x => negb (is_turn_started x)) (l ++ [e]) = true ->
  run_events s (Cancel :: l) = Idle /\ step (run_events s (Cancel :: l)) e = (Idle, []).
Proof.
  intros Hs [Hl [He%negb_true_iff _]%andb_true_iff]%forallb_app_iff.
  rewrite run_events_cons. replace (step_state s Cancel) with Idle by (by destruct s).
  rewrite run_events_terminal by done. split; [done|]. by apply step_terminal.
Qed.

(** Cross-turn guards: while a turn runs, a [TurnStarted] that does not
    advance its epoch and a stamped result of an older epoch change nothing
    and emit nothing; and a step that leaves a turn running never lowers its
    epoch and raises it only by a [TurnStarted] of the new epoch. *)
Theorem stale_events_dropped c e :
  (match e with
   | TurnStarted epoch => (epoch <= since_epoch c)%N
   | TurnResult _ _ _ epoch _ => (0 < epoch < since_epoch c)%N
   | _ => False
   end -> step (Running c) e = (Running c, [])) /\
  (forall c', step_state (Running c) e = Running c' ->
     (since_epoch c < since_epoch c')%N /\ e = TurnStarted (since_epoch c') \/
     since_epoch c = since_epoch c').
Proof.
  split.
  - destruct e; try done; simpl; intros He.
    + by replace (epoch <=? since_epoch c)%N with true by lia.
    + unfold step_turn_result.
      by replace (negb (epoch =? 0)%N && (epoch <? since_epoch c)%N) with true by lia.
  - intros c' Hstep. destruct (is_turn_started e) eqn:Hs.
    + destruct e; try done.
      unfold step_state in Hstep. simpl in Hstep.
      destruct (epoch <=? since_epoch c)%N eqn:Hep; simpl in Hstep; injection Hstep as <-; [by right|].
      left. simpl. split; [lia|done].
    + right. destruct e; try done; unfold step_state in Hstep; simpl in Hstep; try congruence;
        try (by injection Hstep as <-).
      * case_bool_decide; by injection Hstep as <-.
      * unfold step_turn_result in Hstep.
        repeat (case_match; simpl in Hstep; try congruence).
      * unfold step_detached in Hstep.
        repeat (case_match; simpl in Hstep; try congruence).
Qed.

(** The unlock law: a state that does not admit a new prompt comes to
    admit one by exactly two kinds of event, a cancel while something is in
    flight, and a success result of the current (or an unstamped) epoch for a
    running turn that produced output, carries text or is a refusal. *)
Theorem unlock_law s e :
  can_send_message s = false ->
  can_send_message (step_state s e) = true <->
  (e = Cancel /\ can_cancel s = true) \/
  (exists c status text epoch outcome,
     s = Running c /\ e = TurnResult false status text epoch outcome /\
     (epoch = 0 \/ since_epoch c <= epoch)%N /\
     (saw_substantive_output c = true \/ text <> "" \/ is_refused outcome = true)).
Proof.
  intros Hs. split.
  - intros Hsend. destruct (is_turn_started e) eqn:Hts.
    { destruct e; try done. destruct s; unfold step_state in Hsend; simpl in Hsend; try done.
      by destruct (epoch <=? since_epoch turn)%N. }
    destruct s as [|c|r|]; try done.
    { left. destruct e; try done. by destruct is_error. }
    { destruct (decides (since_epoch c) e) eqn:Hd.
      - destruct e; try done; [by left| |].
        + right. unfold step_state in Hsend. simpl in Hsend, Hd. unfold step_turn_result in Hsend.
          replace (negb (epoch =? 0)%N && (epoch <? since_epoch c)%N) with false in Hsend by lia.
          destruct is_error; [done|]. exists c, api_error_status, result_text, epoch, outcome.
          do 2 (split; [done|]). split; [lia|].
          destruct (saw_substantive_output c); [by left|]. right.
          case_bool_decide; [|by left]. right. by destruct (is_refused outcome).
        + unfold step_state in Hsend. simpl in Hsend. unfold step_detached in Hsend.
          by destruct (crash_outcome _ _).
      - destruct (step_undecided c e Hts Hd) as (c' & Hst & _). by rewrite Hst in Hsend. }
    { unfold step_state in Hsend. by rewrite step_terminal in Hsend. }
  - intros [[-> Hc]|(c & status & text & epoch & outcome & -> & -> & Hep & Hout)].
    + by destruct s.
    + unfold step_state. simpl. unfold step_turn_result.
      replace (negb (epoch =? 0)%N && (epoch <? since_epoch c)%N) with false by lia.
      destruct (saw_substantive_output c) eqn:Hsaw; [done|].
      case_bool_decide; [|done].
      destruct Hout as [?|[?|Href]]; [congruence..|]. by rewrite Href.
Qed.

(** The invariant of the reachable states: from [Idle], no sequence of
    events reaches [Starting]; and in every running turn reached, the
    terminal-result flag is still clear (so the [FollowResult] arm is dead),
    both request counters are 32-bit values and no two roster entries share a
    reference. *)
Theorem reachable_state_ok events : state_ok (run_events Idle events).
Proof.
  apply (run_list_invariant step_state state_ok); [done|]. intros. by apply step_ok.
Qed.

(** Refinement of the request counters: on a turn in which every request
    id is asked for once at a time and answered while outstanding (and fewer
    than 2^32 - 1 are outstanding of a kind), the two counters are the sizes of
    the sets of outstanding tool and auth requests; so the turn waits for an
    action exactly while some request is outstanding, and one answer never
    unlocks it while another is pending. *)
Theorem requires_action_tracks_outstanding epoch events T A :
  Outstanding epoch events T A ->
  counters (run_events (Running (fresh_turn epoch)) events)
    = Some (N.of_nat (size T), N.of_nat (size A)) /\
  is_requires_action (run_events (Running (fresh_turn epoch)) events)
    = negb (bool_decide (T ∪ A = ∅)).
Proof.
  intros H. destruct (outstanding_counters _ _ _ _ H) as (c & -> & _ & HT & HA).
  simpl. rewrite HT, HA. split; [done|].
  case_bool_decide as He; simpl.
  - apply empty_union_L in He as [-> ->]. by rewrite size_empty.
  - destruct (decide (T = ∅)) as [->|HTne].
    + destruct (decide (A = ∅)) as [->|HAne]; [set_solver|].
      assert (size A <> 0)%nat by (intros ?%size_empty_inv; by apply HAne, leibniz_equiv). lia.
    + assert (size T <> 0)%nat by (intros ?%size_empty_inv; by apply HTne, leibniz_equiv). lia.
Qed.

(** Absorption in the turn's roster: once the reducer holds a terminal
    status for a subagent, no sequence of events that leaves the turn running
    (and starts no other) makes its status active again or drops it. *)
Theorem subagent_stays_terminal ref c events c' :
  forallb (fun e => negb (is_turn_started e)) events = true ->
  run_events (Running c) events = Running c' ->
  (exists slot, sub_lookup ref (subagents c) = Some slot /\
     SubagentStatus.is_terminal (sub_status slot) = true) ->
  exists slot, sub_lookup ref (subagents c') = Some slot /\
    SubagentStatus.is_terminal (sub_status slot) = true.
Proof.
  revert c. induction events as [|e events IH]; intros c Hf Hrun Ht; [by injection Hrun as <-|].
  apply andb_true_iff in Hf as [He%negb_true_iff Hf]. rewrite run_events_cons in Hrun.
  destruct (run_not_running _ _ _ Hf Hrun) as [c1 Hc1]. rewrite Hc1 in Hrun.
  eapply IH; [done|done|]. by eapply step_sub_terminal.
Qed.

End Step.

(** ** Witnesses *)

Lemma turn_outcome_witness :
  run_events (Value := unit) (Error ErrorReason.Crashed)
    [TurnStarted 3; MessageDelta "m" "hello"; TurnResult true (Some 500%N) "late" 2 TurnOutcome.EndTurn;
     TurnResult false None "" 3 TurnOutcome.EndTurn; Detached None None] = Idle.
Proof.
  apply (turn_outcome (Value := unit) (Error ErrorReason.Crashed) 3
    [MessageDelta "m" "hello"; TurnResult true (Some 500%N) "late" 2 TurnOutcome.EndTurn]
    (TurnResult false None "" 3 TurnOutcome.EndTurn) [Detached None None]); reflexivity.
Defined.

Lemma cancel_absorbs_witness :
  run_events (Value := unit) (Running (fresh_turn 1)) [Cancel; Heartbeat] = Idle /\
  step (Value := unit) (run_events (Value := unit) (Running (fresh_turn 1)) [Cancel; Heartbeat]) (Detached None None)
    = (Idle, []).
Proof.
  apply (cancel_absorbs (Value := unit) (Running (fresh_turn 1)) [Heartbeat] (Detached None None));
    reflexivity.
Defined.

Lemma stale_events_dropped_witness :
  step (Value := unit) (Running (fresh_turn 5)) (TurnResult true None "late" 4 TurnOutcome.Failed)
    = (Running (fresh_turn 5), []).
Proof.
  apply (proj1 (stale_events_dropped (Value := unit) (fresh_turn 5)
    (TurnResult true None "late" 4 TurnOutcome.Failed))).
  simpl. lia.
Defined.

Lemma unlock_law_witness :
  can_send_message (step_state (Value := unit) (Running (fresh_turn 5))
    (TurnResult false None "done" 5 TurnOutcome.EndTurn)) = true.
Proof.
  apply (unlock_law (Value := unit) (Running (fresh_turn 5))
    (TurnResult false None "done" 5 TurnOutcome.EndTurn)); [reflexivity|].
  right. exists (fresh_turn 5), None, "done", 5%N, TurnOutcome.EndTurn.
  do 2 (split; [reflexivity|]). split; [right; simpl; lia|]. right. left. discriminate.
Defined.

Lemma requires_action_tracks_outstanding_witness :
  is_requires_action (run_events (Value := unit) (Running (fresh_turn 5))
    [Permission "r1" PermissionKind.Tool None None None;
     Permission "r2" PermissionKind.Tool None None None;
     PermissionResolved "r1" PermissionKind.Tool]) = true.
Proof.
  rewrite (proj2 (requires_action_tracks_outstanding (Value := unit) 5
    [Permission "r1" PermissionKind.Tool None None None;
     Permission "r2" PermissionKind.Tool None None None;
     PermissionResolved "r1" PermissionKind.Tool] (({["r2"]} ∪ ({["r1"]} ∪ ∅)) ∖ {["r1"]}) ∅
    ltac:(apply (out_answer_tool 5 [Permission "r1" PermissionKind.Tool None None None;
                                    Permission "r2" PermissionKind.Tool None None None]);
          [apply (out_ask_tool 5 [Permission "r1" PermissionKind.Tool None None None]);
            [apply (out_ask_tool 5 []); [constructor|set_solver|vm_compute; reflexivity]
            |set_solver|vm_compute; reflexivity]
          |set_solver]))).
  vm_compute. reflexivity.
Defined.

Lemma subagent_stays_terminal_witness :
  exists slot, sub_lookup "s" (subagents (mkTurn 1 true false RequiresActionSet_default
      [mkSubagentState "s" None SubagentStatus.Completed None])) = Some slot /\
    SubagentStatus.is_terminal (sub_status slot) = true.
Proof.
  apply (subagent_stays_terminal (Value := unit) "s"
    (mkTurn 1 false false RequiresActionSet_default
      [mkSubagentState "s" None SubagentStatus.Completed None])
    [SubagentUpdate "s" (Some "late") SubagentStatus.Running None; MessageDelta "m" "x"]).
  - reflexivity.
  - reflexivity.
  - eexists. split; reflexivity.
Defined.

(** ** What the reducer reads

    [event.rs] says of [TurnResult::outcome] that [step] never reads it; the
    empty-output test of [step_turn_result] does. *)
Theorem outcome_is_read :
  exists c text epoch o1 o2,
    step_state (Value := unit) (Running c) (TurnResult false None text epoch o1)
    <> step_state (Value := unit) (Running c) (TurnResult false None text epoch o2).
Proof.
  exists (fresh_turn 1), "", 1%N, TurnOutcome.EndTurn, (TurnOutcome.Completed (StopReason.Refused None)).
  discriminate.
Qed.

(** [prune_terminal_subagents_on_boundary] calls [Interrupted] a pause that
    may resume; the roster absorbs it like any other terminal status. *)
Theorem interrupted_never_resumes :
  forall label parent l slot,
    sub_lookup "s" l = Some slot -> sub_status slot = SubagentStatus.Interrupted ->
    upsert_subagent (mkSubagentState "s" label SubagentStatus.Running parent) l = l.
Proof.
  intros label parent l slot Hl Hs. unfold upsert_subagent. simpl.
  unfold sub_lookup in Hl. by rewrite Hl, Hs.
Qed.
