(* ===== verification/SessionOrchestrator.v ===== *)
(** * The orchestrator fold loop ([crates/tjuaeui-session/src/backend/orchestrator.rs])

    [Orchestrator] holds what the struct's fields hold: the envelopes and
    snapshots broadcast so far (in the order sent), the lowered-event queue and
    the two caches [latest] and [last_terminal].  [Lanes] holds the two locals
    of [run], one FSM and one background roster per session.  [fold_one] is
    the method of that name; [run_step] is the loop of [run] (the lowered queue
    first) together with the calls of [send] and [cancel] that feed it. *)

From S2P Require Import Prelude SessionEvent SessionState SessionReducer.

(** ** Data of [backend/types.rs] *)

Record SessionEnvelope (Value : Type) : Type := mkSessionEnvelope {
  env_session_id : string;
  env_turn_gen : N;
  env_event : SessionEvent Value;
}.
Arguments mkSessionEnvelope {Value}.
Arguments env_session_id {Value}.
Arguments env_turn_gen {Value}.
Arguments env_event {Value}.

Module TransitionReason.
Inductive t : Type :=
| Started
| Completed (stop_reason : StopReason.t)
| Errored (reason : ErrorReason.t)
| Cancelled (reason : CancelReason.t)
| PermissionRequested (kind : PermissionKind.t)
| PermissionResolved.
End TransitionReason.

Record StateSnapshot : Type := mkStateSnapshot {
  snap_session_id : string;
  snap_state : SessionState;
  snap_can_send : bool;
  snap_has_activity : bool;
  snap_can_queue : bool;
  snap_can_cancel : bool;
  snap_turn_gen : N;
  snap_last_reason : option TransitionReason.t;
}.

Module Admission.
Inductive t : Type := Started | Queued | NoTurn.
End Admission.

Record CommandReceipt : Type := mkCommandReceipt {
  accepted : bool;
  admission : Admission.t;
  receipt_turn_gen : N;
}.

Module BackendError.
Inductive t : Type :=
| CommandNotSupported (command : string)
| Transport (message : string)
| WorkspaceUnavailable (path : string)
| SessionNotFound (session_id : string)
| SetupRejected (message : string)
| HandshakeTimeout (message : string).
End BackendError.

(** ** State *)

Record Orchestrator (Value : Type) : Type := mkOrchestrator {
  event_tx : list (SessionEnvelope Value);
  state_tx : list StateSnapshot;
  lowered : list (SessionEnvelope Value);
  latest : gmap string StateSnapshot;
  last_terminal : gmap string (N * TransitionReason.t);
}.
Arguments mkOrchestrator {Value}.
Arguments event_tx {Value}.
Arguments state_tx {Value}.
Arguments lowered {Value}.
Arguments latest {Value}.
Arguments last_terminal {Value}.

Record Lanes : Type := mkLanes {
  fsms : gmap string SessionState;
  rosters : gmap string Roster;
}.

Section Fold.
Context {Value : Type}.

Definition new_orchestrator : Orchestrator Value := mkOrchestrator [] [] [] ∅ ∅.
Definition new_lanes : Lanes := mkLanes ∅ ∅.

(** The [HashMap::entry(..).or_insert(SessionState::Idle)] and
    [entry(..).or_default()] of the loop. *)
Definition lane_state (lanes : Lanes) (sid : string) : SessionState :=
  default Idle (fsms lanes !! sid).
Definition lane_roster (lanes : Lanes) (sid : string) : Roster :=
  default ∅ (rosters lanes !! sid).

Definition send_event (env : SessionEnvelope Value) (o : Orchestrator Value) : Orchestrator Value :=
  mkOrchestrator (event_tx o ++ [env]) (state_tx o) (lowered o) (latest o) (last_terminal o).
Definition send_state (snap : StateSnapshot) (o : Orchestrator Value) : Orchestrator Value :=
  mkOrchestrator (event_tx o) (state_tx o ++ [snap]) (lowered o) (latest o) (last_terminal o).
Definition send_lowered (env : SessionEnvelope Value) (o : Orchestrator Value) : Orchestrator Value :=
  mkOrchestrator (event_tx o) (state_tx o) (lowered o ++ [env]) (latest o) (last_terminal o).
Definition set_lowered (l : list (SessionEnvelope Value)) (o : Orchestrator Value) : Orchestrator Value :=
  mkOrchestrator (event_tx o) (state_tx o) l (latest o) (last_terminal o).
Definition cache_latest (sid : string) (snap : StateSnapshot) (o : Orchestrator Value) :=
  mkOrchestrator (event_tx o) (state_tx o) (lowered o) (<[sid := snap]> (latest o)) (last_terminal o).
Definition cache_terminal (sid : string) (t : N * TransitionReason.t) (o : Orchestrator Value) :=
  mkOrchestrator (event_tx o) (state_tx o) (lowered o) (latest o) (<[sid := t]> (last_terminal o)).

(** ** Helpers of [fold_one] *)

Definition restamp_epoch (env : SessionEnvelope Value) : SessionEnvelope Value :=
  match env_event env with
  | TurnResult is_error status text epoch outcome =>
      if (epoch =? 0)%N
      then mkSessionEnvelope (env_session_id env) (env_turn_gen env)
             (TurnResult is_error status text (env_turn_gen env) outcome)
      else env
  | _ => env
  end.

Definition prune_terminal_subagents_on_boundary (prev next : SessionState) : SessionState :=
  match next with
  | Running c =>
      Running (set_subagents (List.filter (fun s =>
        match sub_status s with
        | SubagentStatus.Completed | SubagentStatus.Errored | SubagentStatus.Shutdown => false
        | _ => true
        end) (subagents c)) c)
  | _ => next
  end.

(** [if x.is_some() { slot.x = x.clone() }] *)
Definition or_keep {A : Type} (new old : option A) : option A :=
  match new with Some _ => new | None => old end.

Definition task_status_of (status : SubagentStatus.t) : WorkflowTaskStatus.t :=
  match status with
  | SubagentStatus.PendingInit | SubagentStatus.Running => WorkflowTaskStatus.Running
  | SubagentStatus.Completed => WorkflowTaskStatus.Completed
  | SubagentStatus.Errored => WorkflowTaskStatus.Failed
  | SubagentStatus.Interrupted | SubagentStatus.Shutdown => WorkflowTaskStatus.Stopped
  end.

Definition update_roster (roster : Roster) (event : SessionEvent Value) : Roster :=
  match event with
  | SubagentDetail ref _ label loop_state model tokens tool_calls last_tool_name =>
      let slot := default
        (mkWorkflowAgentState ref WorkflowTaskStatus.Running false None None None None None None None)
        (roster !! ref) in
      <[ref := mkWorkflowAgentState (ref_id slot) (task_status slot) (has_lifecycle slot)
                 (retain slot) (or_keep label (wf_label slot)) (or_keep loop_state (wf_state slot))
                 (or_keep model (wf_model slot)) (or_keep last_tool_name (wf_last_tool_name slot))
                 (or_keep tokens (wf_tokens slot)) (or_keep tool_calls (wf_tool_calls slot))]> roster
  | SubagentUpdate ref label status _ =>
      let task_status' := task_status_of status in
      match roster !! ref with
      | Some slot =>
          if WorkflowTaskStatus.is_terminal (task_status slot)
             && negb (WorkflowTaskStatus.is_terminal task_status')
          then roster
          else <[ref := mkWorkflowAgentState (ref_id slot) task_status' true (retain slot)
                          (or_keep label (wf_label slot)) (wf_state slot) (wf_model slot)
                          (wf_last_tool_name slot) (wf_tokens slot) (wf_tool_calls slot)]> roster
      | None =>
          <[ref := mkWorkflowAgentState ref task_status' true None label None None None None None]> roster
      end
  | _ => roster
  end.

Definition derive_reason (t : option Transition) (event : SessionEvent Value)
    : option TransitionReason.t :=
  match t with
  | None => None
  | Some t =>
      let reason :=
        match tr_to t with
        | Running _ =>
            match event with
            | TurnStarted _ => TransitionReason.Started
            | PermissionResolved _ _ => TransitionReason.PermissionResolved
            | _ => TransitionReason.Started
            end
        | Idle =>
            match event with
            | Cancel => TransitionReason.Cancelled CancelReason.UserCancel
            | TurnResult _ _ _ _ outcome =>
                match outcome with
                | TurnOutcome.Cancelled reason => TransitionReason.Cancelled reason
                | TurnOutcome.Completed stop_reason => TransitionReason.Completed stop_reason
                | _ => TransitionReason.Completed StopReason.EndTurn
                end
            | _ => TransitionReason.Completed StopReason.EndTurn
            end
        | Error reason => TransitionReason.Errored reason
        | Starting => TransitionReason.Started
        end in
      match event with
      | Permission _ kind _ _ _ =>
          if is_requires_action (tr_to t) && negb (is_requires_action (tr_from t))
          then Some (TransitionReason.PermissionRequested kind)
          else Some reason
      | _ => Some reason
      end
  end.

(** The background roster after an event: cleared when the process is gone. *)
Definition fold_roster (roster : Roster) (event : SessionEvent Value) : Roster :=
  match event with
  | BackendSuspended | Detached _ _ => ∅
  | _ => update_roster roster event
  end.

Definition make_snapshot (sid : string) (state : SessionState) (has_activity : bool)
    (accepts_proactive_input : bool) (turn_gen : N) (last_reason : option TransitionReason.t)
    : StateSnapshot :=
  mkStateSnapshot sid state (can_send_message state) has_activity
    (can_queue_message state accepts_proactive_input) (can_cancel state) turn_gen last_reason.

(** The snapshot push of [fold_one]: cache, sticky terminal, resume-anchor
    self-heal, broadcast, in that order. *)
Definition push_snapshot (env : SessionEnvelope Value) (state : SessionState) (snap : StateSnapshot)
    (o : Orchestrator Value) : Orchestrator Value :=
  let sid := env_session_id env in
  let o := cache_latest sid snap o in
  let o :=
    match state, snap_last_reason snap with
    | Idle, Some reason | Error _, Some reason => cache_terminal sid (env_turn_gen env, reason) o
    | _, _ => o
    end in
  let o :=
    match state with
    | Error reason =>
        if is_unrecoverable_resume_error reason
        then send_event (mkSessionEnvelope sid (env_turn_gen env) (BackendBound None)) o
        else o
    | _ => o
    end in
  send_state snap o.

Definition fold_one (accepts_proactive_input : bool) (st : Orchestrator Value * Lanes)
    (env : SessionEnvelope Value) : Orchestrator Value * Lanes :=
  let '(o, lanes) := st in
  let env := restamp_epoch env in
  let sid := env_session_id env in
  let o := send_event env o in
  let roster := lane_roster lanes sid in
  let bg_before := background_active roster in
  let roster := fold_roster roster (env_event env) in
  let bg_after := background_active roster in
  let prev := lane_state lanes sid in
  let '(next, transitions) := step prev (env_event env) in
  let state := prune_terminal_subagents_on_boundary prev next in
  let lanes := mkLanes (<[sid := state]> (fsms lanes)) (<[sid := roster]> (rosters lanes)) in
  let has_activity := has_foreground_activity state || bg_after in
  let prev_has_activity := has_foreground_activity prev || bg_before in
  let activity_changed := negb (eqb prev_has_activity has_activity) in
  if negb (is_empty transitions) || activity_changed then
    let last_reason := derive_reason (list.last transitions) (env_event env) in
    let snap := make_snapshot sid state has_activity accepts_proactive_input
                  (env_turn_gen env) last_reason in
    (push_snapshot env state snap o, lanes)
  else (o, lanes).

Arguments push_snapshot : simpl never.

(** ** The methods *)

(** [send]: [receipt] is what [backend.dispatch(Command::Send ..)] returned. *)
Definition send (session_id : string) (receipt : Result CommandReceipt BackendError.t)
    (o : Orchestrator Value) : Orchestrator Value * Result CommandReceipt BackendError.t :=
  match receipt with
  | Err e => (o, Err e)
  | Ok receipt =>
      (match admission receipt with
       | Admission.Started =>
           send_lowered (mkSessionEnvelope session_id (receipt_turn_gen receipt)
             (TurnStarted (receipt_turn_gen receipt))) o
       | _ => o
       end, Ok receipt)
  end.

(** [cancel]: [receipt] is what [backend.dispatch(Command::Cancel ..)] returned. *)
Definition cancel (session_id : string) (receipt : Result CommandReceipt BackendError.t)
    (o : Orchestrator Value) : Orchestrator Value * Result CommandReceipt BackendError.t :=
  match receipt with
  | Err e => (o, Err e)
  | Ok receipt =>
      (send_lowered (mkSessionEnvelope session_id (receipt_turn_gen receipt) Cancel) o, Ok receipt)
  end.

Definition latest_snapshot (o : Orchestrator Value) (session_id : string) : option StateSnapshot :=
  latest o !! session_id.

Definition latest_terminal (o : Orchestrator Value) (session_id : string)
    : option (N * TransitionReason.t) :=
  last_terminal o !! session_id.

(** What a receiver of a tokio broadcast ring gets from one [recv]: the next
    value, or how many it missed, or that the senders are gone. *)
Inductive Recv (A : Type) : Type :=
| RecvOk (a : A)
| RecvLagged (n : N)
| RecvClosed.
Arguments RecvOk {A} a.
Arguments RecvLagged {A} n.
Arguments RecvClosed {A}.

(** One poll of the stream of [subscribe_events]: what it yields, given the
    outcomes of the [recv]s it makes, and the outcomes left. [None] when the
    stream ends or still waits. *)
Fixpoint poll_events (me : string) (rx : list (Recv (SessionEnvelope Value)))
    : option (SessionEnvelope Value * list (Recv (SessionEnvelope Value))) :=
  match rx with
  | [] => None
  | RecvOk env :: rx' =>
      if bool_decide (env_session_id env = me) then Some (env, rx') else poll_events me rx'
  | RecvLagged n :: rx' => Some (mkSessionEnvelope me 0 (Lagged n), rx')
  | RecvClosed :: _ => None
  end.

(** The snapshot [subscribe_state] makes up for a session with no transition yet. *)
Definition initial_snapshot (me : string) : StateSnapshot :=
  mkStateSnapshot me Idle true false false false 0 None.

(** One poll of the stream of [subscribe_state]. [seed] is the cached snapshot
    taken at the subscription, delivered by the first poll. *)
Fixpoint poll_state_rx (latest : gmap string StateSnapshot) (me : string)
    (rx : list (Recv StateSnapshot)) : option (StateSnapshot * list (Recv StateSnapshot)) :=
  match rx with
  | [] => None
  | RecvOk s :: rx' =>
      if bool_decide (snap_session_id s = me) then Some (s, rx') else poll_state_rx latest me rx'
  | RecvLagged _ :: rx' =>
      match latest !! me with
      | Some s => Some (s, rx')
      | None => Some (initial_snapshot me, rx')
      end
  | RecvClosed :: _ => None
  end.

Definition poll_state (latest : gmap string StateSnapshot) (me : string)
    (seed : option StateSnapshot) (rx : list (Recv StateSnapshot))
    : option (StateSnapshot * list (Recv StateSnapshot)) :=
  match seed with
  | Some s => Some (s, rx)
  | None => poll_state_rx latest me rx
  end.

Definition subscribe_unlock (s : StateSnapshot) : bool := snap_can_send s.

(** [reconnect]; [debug] is the [Debug] rendering of the state. *)
Definition reconnect (debug : SessionState -> string) (session_id : string)
    (o : Orchestrator Value) : Orchestrator Value :=
  match latest o !! session_id with
  | Some snap =>
      send_state snap
        (send_event (mkSessionEnvelope session_id (snap_turn_gen snap)
          (Snapshot (debug (snap_state snap)) (snap_turn_gen snap))) o)
  | None => o
  end.

(** ** The run loop

    The loop takes a lowered event if there is one ([biased] select) and the
    backend's next envelope otherwise; between two folds, [send] and [cancel]
    may queue lowered events and [reconnect] may broadcast. *)
Inductive run_step (accepts : bool) (debug : SessionState -> string) :
    Orchestrator Value * Lanes -> Orchestrator Value * Lanes -> Prop :=
| run_lowered o lanes env rest :
    lowered o = env :: rest ->
    run_step accepts debug (o, lanes) (fold_one accepts (set_lowered rest o, lanes) env)
| run_backend o lanes env :
    lowered o = [] ->
    run_step accepts debug (o, lanes) (fold_one accepts (o, lanes) env)
| run_send o lanes sid receipt :
    run_step accepts debug (o, lanes) (fst (send sid receipt o), lanes)
| run_cancel o lanes sid receipt :
    run_step accepts debug (o, lanes) (fst (cancel sid receipt o), lanes)
| run_reconnect o lanes sid :
    run_step accepts debug (o, lanes) (reconnect debug sid o, lanes).

Definition reachable (accepts : bool) (debug : SessionState -> string)
    (st : Orchestrator Value * Lanes) : Prop :=
  rtc (run_step accepts debug) (new_orchestrator, new_lanes) st.

(** ** Specification: what a subscriber must be told

    The live view of a session is the four booleans derived from its FSM and
    roster; a session never seen is idle with an empty roster. *)
Record View : Type := mkView {
  view_can_send : bool;
  view_has_activity : bool;
  view_can_queue : bool;
  view_can_cancel : bool;
}.

Definition live_view (accepts : bool) (lanes : Lanes) (sid : string) : View :=
  let s := lane_state lanes sid in
  mkView (can_send_message s)
    (has_foreground_activity s || background_active (lane_roster lanes sid))
    (can_queue_message s accepts) (can_cancel s).

Definition snapshot_view (s : StateSnapshot) : View :=
  mkView (snap_can_send s) (snap_has_activity s) (snap_can_queue s) (snap_can_cancel s).

(** What the cache tells: the latest snapshot, or the initial one. *)
Definition cached_snapshot (o : Orchestrator Value) (sid : string) : StateSnapshot :=
  default (initial_snapshot sid) (latest o !! sid).

(** The roster of a lane holds no entry the prune would drop, and its FSM
    state is one the reducer reaches. *)
Definition pruned (s : SessionState) : Prop :=
  match s with
  | Running c =>
      Forall (fun x => sub_status x <> SubagentStatus.Completed /\
        sub_status x <> SubagentStatus.Errored /\ sub_status x <> SubagentStatus.Shutdown)
        (subagents c)
  | _ => True
  end.

(** ** Specification: one session on its own

    What a session owns in the loop's state: its FSM, its roster, its two
    cache entries and the part of the two broadcasts demuxed to it. *)
Record SessionPart : Type := mkSessionPart {
  part_state : SessionState;
  part_roster : Roster;
  part_latest : option StateSnapshot;
  part_terminal : option (N * TransitionReason.t);
  part_events : list (SessionEnvelope Value);
  part_snapshots : list StateSnapshot;
}.

Definition of_session (sid : string) (env : SessionEnvelope Value) : bool :=
  bool_decide (env_session_id env = sid).
Definition snap_of_session (sid : string) (s : StateSnapshot) : bool :=
  bool_decide (snap_session_id s = sid).

Definition part (sid : string) (st : Orchestrator Value * Lanes) : SessionPart :=
  mkSessionPart (lane_state (snd st) sid) (lane_roster (snd st) sid)
    (latest (fst st) !! sid) (last_terminal (fst st) !! sid)
    (List.filter (of_session sid) (event_tx (fst st)))
    (List.filter (snap_of_session sid) (state_tx (fst st))).

Definition fold_all (accepts : bool) (st : Orchestrator Value * Lanes)
    (envs : list (SessionEnvelope Value)) : Orchestrator Value * Lanes :=
  run_list (fold_one accepts) st envs.

(** The session state a fold installs, and when it pushes a snapshot. *)
Definition fold_state (prev : SessionState) (e : SessionEvent Value) : SessionState :=
  prune_terminal_subagents_on_boundary prev (step_state prev e).

Definition activity (s : SessionState) (r : Roster) : bool :=
  has_foreground_activity s || background_active r.

Definition pushes (prev : SessionState) (r : Roster) (e : SessionEvent Value) : bool :=
  negb (bool_decide (external_phase prev = external_phase (fold_state prev e)))
  || negb (eqb (activity prev r) (activity (fold_state prev e) (fold_roster r e))).

(** ** Lemmas on one fold *)

Lemma prune_phase prev s :
  external_phase (prune_terminal_subagents_on_boundary prev s) = external_phase s.
Proof. by destruct s. Qed.

Lemma restamp_session env : env_session_id (restamp_epoch env) = env_session_id env.
Proof. unfold restamp_epoch. destruct (env_event env); try done. by case_match. Qed.

Lemma restamp_turn_gen env : env_turn_gen (restamp_epoch env) = env_turn_gen env.
Proof. unfold restamp_epoch. destruct (env_event env); try done. by case_match. Qed.

Lemma step_transitions s (e : SessionEvent Value) :
  snd (step s e) =
  if decide (external_phase s = external_phase (step_state s e)) then []
  else [mkTransition s (step_state s e) (stamp s e)].
Proof. rewrite step_settles at 1. reflexivity. Qed.

Lemma phase_pushes prev (e : SessionEvent Value) :
  negb (is_empty (snd (step prev e))) =
  negb (bool_decide (external_phase prev = external_phase (fold_state prev e))).
Proof.
  rewrite step_transitions. unfold fold_state. rewrite prune_phase.
  destruct (decide _); [by rewrite bool_decide_eq_true_2|by rewrite bool_decide_eq_false_2].
Qed.

(** What a fold of the (restamped) envelope does to the two caches and the
    broadcasts. *)
Definition fold_output (accepts : bool) (o : Orchestrator Value) (lanes : Lanes)
    (env : SessionEnvelope Value) : Orchestrator Value :=
  let sid := env_session_id env in
  let prev := lane_state lanes sid in
  let state := fold_state prev (env_event env) in
  let roster := fold_roster (lane_roster lanes sid) (env_event env) in
  if pushes prev (lane_roster lanes sid) (env_event env)
  then push_snapshot env state
         (make_snapshot sid state (activity state roster) accepts (env_turn_gen env)
           (derive_reason (list.last (snd (step prev (env_event env)))) (env_event env)))
         (send_event env o)
  else send_event env o.

Definition fold_lanes (lanes : Lanes) (env : SessionEnvelope Value) : Lanes :=
  let sid := env_session_id env in
  mkLanes (<[sid := fold_state (lane_state lanes sid) (env_event env)]> (fsms lanes))
    (<[sid := fold_roster (lane_roster lanes sid) (env_event env)]> (rosters lanes)).

Lemma fold_one_eq accepts o lanes env :
  fold_one accepts (o, lanes) env =
  (fold_output accepts o lanes (restamp_epoch env), fold_lanes lanes (restamp_epoch env)).
Proof.
  unfold fold_one, fold_output, fold_lanes, pushes, fold_state. set (env' := restamp_epoch env).
  set (prev := lane_state lanes (env_session_id env')).
  pose proof (phase_pushes prev (env_event env')) as Hts. unfold fold_state in Hts.
  unfold step_state in *. destruct (step prev (env_event env')) as [next ts]. simpl in *.
  rewrite Hts. unfold activity. by destruct (_ || _).
Qed.

Lemma fold_lanes_state lanes env sid :
  lane_state (fold_lanes lanes env) sid =
  if of_session sid env
  then fold_state (lane_state lanes sid) (env_event env) else lane_state lanes sid.
Proof.
  unfold lane_state, fold_lanes. simpl. unfold of_session. case_bool_decide as H; [subst sid|].
  - by rewrite lookup_insert_eq.
  - by rewrite lookup_insert_ne.
Qed.

Lemma fold_lanes_roster lanes env sid :
  lane_roster (fold_lanes lanes env) sid =
  if of_session sid env
  then fold_roster (lane_roster lanes sid) (env_event env) else lane_roster lanes sid.
Proof.
  unfold lane_roster, fold_lanes. simpl. unfold of_session. case_bool_decide as H; [subst sid|].
  - by rewrite lookup_insert_eq.
  - by rewrite lookup_insert_ne.
Qed.

Lemma push_latest env state snap o :
  latest (push_snapshot env state snap o) = <[env_session_id env := snap]> (latest o).
Proof. unfold push_snapshot. by repeat (case_match; simpl). Qed.

Lemma push_state_tx env state snap o :
  state_tx (push_snapshot env state snap o) = state_tx o ++ [snap].
Proof. unfold push_snapshot. by repeat (case_match; simpl). Qed.

Lemma push_lowered env state snap o :
  lowered (push_snapshot env state snap o) = lowered o.
Proof. unfold push_snapshot. by repeat (case_match; simpl). Qed.

(** The self-heal envelope, if any. *)
Definition self_heal (env : SessionEnvelope Value) (state : SessionState)
    : list (SessionEnvelope Value) :=
  match state with
  | Error reason =>
      if is_unrecoverable_resume_error reason
      then [mkSessionEnvelope (env_session_id env) (env_turn_gen env) (BackendBound None)] else []
  | _ => []
  end.

Lemma push_event_tx env state snap o :
  event_tx (push_snapshot env state snap o) = event_tx o ++ self_heal env state.
Proof.
  unfold push_snapshot, self_heal. repeat (case_match; simpl); by rewrite ?app_nil_r.
Qed.

(** The sticky terminal written by a push, if any. *)
Definition sticky (env : SessionEnvelope Value) (state : SessionState) (snap : StateSnapshot)
    : option (N * TransitionReason.t) :=
  match snap_last_reason snap with
  | Some reason => if is_terminal_state state then Some (env_turn_gen env, reason) else None
  | None => None
  end.

Lemma push_last_terminal env state snap o :
  last_terminal (push_snapshot env state snap o) =
  match sticky env state snap with
  | Some t => <[env_session_id env := t]> (last_terminal o)
  | None => last_terminal o
  end.
Proof.
  unfold push_snapshot, sticky.
  destruct state, (snap_last_reason snap); simpl; try done; by case_match.
Qed.

(** The reason a fold attributes: none without a phase change. *)
Definition fold_reason (prev : SessionState) (e : SessionEvent Value)
    : option TransitionReason.t :=
  derive_reason (list.last (snd (step prev e))) e.

Lemma fold_reason_none prev e :
  external_phase prev = external_phase (step_state prev e) -> fold_reason prev e = None.
Proof. intros H. unfold fold_reason. rewrite step_transitions. by rewrite decide_True. Qed.

Lemma fold_reason_some prev e :
  external_phase prev <> external_phase (step_state prev e) ->
  fold_reason prev e = derive_reason (Some (mkTransition prev (step_state prev e) (stamp prev e))) e.
Proof. intros H. unfold fold_reason. rewrite step_transitions. by rewrite decide_False. Qed.

(** ** What one fold does to each session *)

Lemma fold_output_latest accepts o lanes env sid :
  latest (fold_output accepts o lanes env) !! sid =
  if of_session sid env
     && pushes (lane_state lanes sid) (lane_roster lanes sid) (env_event env)
  then
    let state := fold_state (lane_state lanes sid) (env_event env) in
    Some (make_snapshot sid state
           (activity state (fold_roster (lane_roster lanes sid) (env_event env)))
           accepts (env_turn_gen env) (fold_reason (lane_state lanes sid) (env_event env)))
  else latest o !! sid.
Proof.
  unfold fold_output, of_session. case_bool_decide as H; [subst sid|]; simpl.
  - destruct (pushes _ _ _); [|done]. rewrite push_latest. simpl. by rewrite lookup_insert_eq.
  - destruct (pushes _ _ _); [|done]. rewrite push_latest. simpl. by rewrite lookup_insert_ne.
Qed.

Lemma fold_output_terminal accepts o lanes env sid :
  last_terminal (fold_output accepts o lanes env) !! sid =
  let prev := lane_state lanes sid in
  let state := fold_state prev (env_event env) in
  if of_session sid env
     && pushes prev (lane_roster lanes sid) (env_event env) && is_terminal_state state
  then match fold_reason prev (env_event env) with
       | Some reason => Some (env_turn_gen env, reason)
       | None => last_terminal o !! sid
       end
  else last_terminal o !! sid.
Proof.
  unfold fold_output, of_session. simpl. case_bool_decide as H; [subst sid|]; simpl.
  - destruct (pushes _ _ _); [|done]. rewrite push_last_terminal. unfold sticky, make_snapshot. simpl.
    fold (fold_reason (lane_state lanes (env_session_id env)) (env_event env)).
    destruct (fold_reason _ _) as [reason|]; [|by destruct (is_terminal_state _)].
    destruct (is_terminal_state _); [by rewrite lookup_insert_eq|done].
  - destruct (pushes _ _ _); [|done]. rewrite push_last_terminal.
    destruct (sticky _ _ _); [by rewrite lookup_insert_ne|done].
Qed.

(** One session's fold, as a function of that session's part alone. *)
Definition part_fold (accepts : bool) (sid : string) (p : SessionPart)
    (env : SessionEnvelope Value) : SessionPart :=
  let prev := part_state p in
  let state := fold_state prev (env_event env) in
  let roster := fold_roster (part_roster p) (env_event env) in
  let reason := fold_reason prev (env_event env) in
  let snap := make_snapshot sid state (activity state roster) accepts (env_turn_gen env) reason in
  if pushes prev (part_roster p) (env_event env)
  then mkSessionPart state roster (Some snap)
         (match reason with
          | Some r => if is_terminal_state state then Some (env_turn_gen env, r) else part_terminal p
          | None => part_terminal p
          end)
         ((part_events p ++ [env]) ++ self_heal env state) (part_snapshots p ++ [snap])
  else mkSessionPart state roster (part_latest p) (part_terminal p)
         (part_events p ++ [env]) (part_snapshots p).

Lemma filter_self_heal sid env state :
  List.filter (of_session sid) (self_heal env state) =
  if of_session sid env then self_heal env state else [].
Proof.
  unfold self_heal. destruct state; try by case_match.
  destruct (is_unrecoverable_resume_error reason); simpl; [|by case_match].
  unfold of_session. simpl. by case_bool_decide.
Qed.

Lemma fold_output_events accepts o lanes env :
  event_tx (fold_output accepts o lanes env) =
  (event_tx o ++ [env]) ++
  if pushes (lane_state lanes (env_session_id env)) (lane_roster lanes (env_session_id env))
       (env_event env)
  then self_heal env (fold_state (lane_state lanes (env_session_id env)) (env_event env)) else [].
Proof.
  unfold fold_output. destruct (pushes _ _ _); [by rewrite push_event_tx|by rewrite app_nil_r].
Qed.

Lemma fold_output_snapshots accepts o lanes env :
  state_tx (fold_output accepts o lanes env) =
  state_tx o ++
  if pushes (lane_state lanes (env_session_id env)) (lane_roster lanes (env_session_id env))
       (env_event env)
  then
    let sid := env_session_id env in
    let state := fold_state (lane_state lanes sid) (env_event env) in
    [make_snapshot sid state
       (activity state (fold_roster (lane_roster lanes sid) (env_event env)))
       accepts (env_turn_gen env) (fold_reason (lane_state lanes sid) (env_event env))]
  else [].
Proof.
  unfold fold_output. destruct (pushes _ _ _); [by rewrite push_state_tx|by rewrite app_nil_r].
Qed.

Lemma part_fold_one accepts sid st env :
  part sid (fold_one accepts st env) =
  if of_session sid env then part_fold accepts sid (part sid st) (restamp_epoch env)
  else part sid st.
Proof.
  destruct st as [o lanes]. rewrite fold_one_eq.
  replace (of_session sid env) with (of_session sid (restamp_epoch env))
    by (unfold of_session; by rewrite restamp_session). set (env' := restamp_epoch env). clearbody env'. clear env.
  unfold part. cbn [fst snd].
  rewrite fold_lanes_state, fold_lanes_roster, fold_output_latest, fold_output_terminal,
    fold_output_events, fold_output_snapshots, !List.filter_app.
  unfold part_fold. cbn [part_state part_roster part_latest part_terminal part_events part_snapshots].
  destruct (of_session sid env') eqn:H; simpl; rewrite H.
  - apply bool_decide_eq_true in H as <-. unfold snap_of_session. destruct (pushes _ _ _); simpl.
    + rewrite bool_decide_eq_true_2, filter_self_heal by done.
      unfold of_session at 2. rewrite bool_decide_eq_true_2 by done. f_equal.
      by destruct (fold_reason _ _), (is_terminal_state _).
    + by rewrite !app_nil_r.
  - pose proof H as H'. apply bool_decide_eq_false in H'. unfold snap_of_session.
    destruct (pushes _ _ _); simpl; rewrite ?filter_self_heal, ?H.
    + rewrite bool_decide_eq_false_2 by done. by rewrite !app_nil_r.
    + by rewrite !app_nil_r.
Qed.

(** ** The invariant of the loop *)

(** [Coherent sid p]: what the broadcasts and the caches tell of a session is
    what its FSM and roster are. *)
Definition told (sid : string) (p : SessionPart) : StateSnapshot :=
  default (initial_snapshot sid) (part_latest p).

Definition part_view (accepts : bool) (p : SessionPart) : View :=
  mkView (can_send_message (part_state p)) (activity (part_state p) (part_roster p))
    (can_queue_message (part_state p) accepts) (can_cancel (part_state p)).

Definition terminal_coherent (p : SessionPart) : Prop :=
  match part_state p, part_terminal p with
  | Error r, Some (_, TransitionReason.Errored r') => r = r'
  | Error _, _ => False
  | Idle, (None | Some (_, TransitionReason.Completed _) | Some (_, TransitionReason.Cancelled _)) => True
  | Idle, _ => False
  | _, _ => True
  end.

Definition coherent (accepts : bool) (sid : string) (p : SessionPart) : Prop :=
  snapshot_view (told sid p) = part_view accepts p /\
  list.last (part_snapshots p) = part_latest p /\
  terminal_coherent p /\ state_ok (part_state p) /\ pruned (part_state p).

Lemma phase_views accepts s s' :
  external_phase s = external_phase s' ->
  can_send_message s = can_send_message s' /\
  can_queue_message s accepts = can_queue_message s' accepts /\ can_cancel s = can_cancel s'.
Proof.
  unfold can_queue_message.
  destruct s as [|c| |], s' as [|c'| |]; simpl; by repeat case_match.
Qed.

Lemma quiet_view accepts prev r e l t es ss :
  pushes prev r e = false ->
  part_view accepts (mkSessionPart (fold_state prev e) (fold_roster r e) l t es ss) =
  mkView (can_send_message prev) (activity prev r) (can_queue_message prev accepts)
    (can_cancel prev).
Proof.
  unfold pushes. intros [Hp%negb_false_iff Ha%negb_false_iff]%orb_false_iff.
  apply bool_decide_eq_true, (phase_views accepts) in Hp as (H1 & H2 & H3).
  apply eqb_prop in Ha. unfold part_view. simpl. by rewrite H1, H2, H3, Ha.
Qed.

Lemma fold_state_phase prev e :
  external_phase (fold_state prev e) = external_phase (step_state prev e).
Proof. apply prune_phase. Qed.

Lemma fold_state_ok prev e : state_ok prev -> state_ok (fold_state prev e).
Proof.
  intros H%(step_ok prev e). unfold fold_state. destruct (step_state prev e) as [|c| |]; try done.
  simpl in *. apply turn_ok_subagents; [done|]. destruct H as (_ & _ & _ & Hnd).
  induction (subagents c) as [|x l IH]; [done|]. simpl in *.
  apply list.NoDup_cons in Hnd as [Hx Hnd].
  assert (Hsub : forall f, map sub_ref (List.filter f l) ⊆ map sub_ref l).
  { intros f y Hy. apply list_elem_of_In, in_map_iff in Hy as (z & <- & Hz%filter_In).
    apply list_elem_of_In, in_map. tauto. }
  case_match; simpl; auto; apply list.NoDup_cons; split; auto; intros Hin; apply Hx;
    by eapply Hsub.
Qed.

Lemma fold_state_pruned prev e : pruned (fold_state prev e).
Proof.
  unfold fold_state. destruct (step_state prev e) as [|c| |]; try done. simpl.
  apply List.Forall_forall. intros x [_ Hx]%filter_In. by destruct (sub_status x).
Qed.

(** From an error only a [TurnStarted] moves the state. *)
Lemma error_same_phase s (e : SessionEvent Value) :
  state_ok s -> external_phase s = external_phase (step_state s e) ->
  is_terminal_state (step_state s e) = true -> step_state s e = s.
Proof.
  intros Hs Hp Ht. destruct (is_terminal_state s) eqn:Hts.
  - destruct (is_turn_started e) eqn:He; [|unfold step_state; by rewrite step_terminal].
    destruct e; try done. by destruct s.
  - destruct (step_state s e), s; simpl in *; try done; by repeat case_match.
Qed.

Lemma fold_state_terminal prev (e : SessionEvent Value) :
  is_terminal_state (fold_state prev e) = true -> fold_state prev e = step_state prev e.
Proof. unfold fold_state. by destruct (step_state prev e). Qed.

Lemma idle_reason prev (e : SessionEvent Value) :
  step_state prev e = Idle -> external_phase prev <> ExternalPhase.Idle ->
  match fold_reason prev e with
  | Some (TransitionReason.Completed _) | Some (TransitionReason.Cancelled _) => True
  | _ => False
  end.
Proof.
  intros Hi Hp. rewrite fold_reason_some by (by rewrite Hi). simpl. rewrite Hi. simpl.
  destruct e; try done. by destruct outcome.
Qed.

Lemma error_reason prev (e : SessionEvent Value) r :
  step_state prev e = Error r -> external_phase prev <> ExternalPhase.Error ->
  fold_reason prev e = Some (TransitionReason.Errored r).
Proof.
  intros Hi Hp. rewrite fold_reason_some by (by rewrite Hi). simpl. rewrite Hi. by destruct e.
Qed.

Lemma same_phase_reason prev (e : SessionEvent Value) :
  external_phase prev = external_phase (fold_state prev e) -> fold_reason prev e = None.
Proof. rewrite fold_state_phase. apply fold_reason_none. Qed.

Lemma moved_pushes prev r (e : SessionEvent Value) :
  external_phase prev <> external_phase (step_state prev e) -> pushes prev r e = true.
Proof. intros H. unfold pushes. by rewrite fold_state_phase, bool_decide_eq_false_2. Qed.

Lemma terminal_coherent_fold accepts sid p env :
  state_ok (part_state p) -> terminal_coherent p ->
  terminal_coherent (part_fold accepts sid p env).
Proof.
  intros Hok Ht. unfold part_fold. set (prev := part_state p) in *. set (e := env_event env).
  destruct (is_terminal_state (fold_state prev e)) eqn:Hterm.
  2:{ unfold terminal_coherent. destruct (pushes _ _ _); simpl; by destruct (fold_state prev e). }
  pose proof (fold_state_terminal _ _ Hterm) as Hfs. rewrite Hfs in *.
  destruct (decide (external_phase prev = external_phase (step_state prev e))) as [Hph|Hph].
  - rewrite (error_same_phase _ _ Hok Hph Hterm).
    rewrite (fold_reason_none _ _ Hph). by destruct (pushes _ _ _).
  - rewrite (moved_pushes _ _ _ Hph). unfold terminal_coherent. simpl.
    destruct (step_state prev e) as [|?|r|] eqn:Hs; try done.
    + rewrite (error_reason _ _ _ Hs) by (contradict Hph; by rewrite Hph). done.
    + pose proof (idle_reason _ _ Hs ltac:(contradict Hph; by rewrite Hph)) as Hr.
      by destruct (fold_reason prev e) as [[]|].
Qed.

Lemma coherent_fold accepts sid p env :
  coherent accepts sid p -> coherent accepts sid (part_fold accepts sid p env).
Proof.
  intros (Hview & Hlast & Ht & Hok & Hpr). split; [|split; [|split; [|split]]].
  - unfold part_fold. destruct (pushes _ _ _) eqn:Hp; [done|].
    by rewrite quiet_view.
  - unfold part_fold. destruct (pushes _ _ _); simpl; [by rewrite last_snoc|done].
  - by apply terminal_coherent_fold.
  - unfold part_fold. destruct (pushes _ _ _); by apply fold_state_ok.
  - unfold part_fold. destruct (pushes _ _ _); apply fold_state_pruned.
Qed.

Lemma coherent_init accepts sid : coherent accepts sid (part sid (new_orchestrator, new_lanes)).
Proof.
  split; [|split; [|split; [|split]]]; try done. unfold told, part_view, part, activity,
    lane_state, lane_roster, can_queue_message. simpl. by rewrite andb_false_r.
Qed.

(** [send], [cancel] and the queue do not touch any session's part. *)
Lemma part_outside sid o o' lanes :
  event_tx o' = event_tx o -> state_tx o' = state_tx o -> latest o' = latest o ->
  last_terminal o' = last_terminal o -> part sid (o', lanes) = part sid (o, lanes).
Proof. intros H1 H2 H3 H4. unfold part. simpl. by rewrite H1, H2, H3, H4. Qed.

Lemma part_send sid o lanes me receipt : part sid (fst (send me receipt o), lanes) = part sid (o, lanes).
Proof. apply part_outside; destruct receipt as [r|]; try done; simpl; by destruct (admission r). Qed.

Lemma part_cancel sid o lanes me receipt :
  part sid (fst (cancel me receipt o), lanes) = part sid (o, lanes).
Proof. by apply part_outside; destruct receipt. Qed.

(** Every snapshot is cached under its own session. *)
Definition keyed (o : Orchestrator Value) : Prop :=
  forall sid snap, latest o !! sid = Some snap -> snap_session_id snap = sid.

Lemma keyed_fold accepts o lanes env :
  keyed o -> keyed (fst (fold_one accepts (o, lanes) env)).
Proof.
  intros Hk sid snap. rewrite fold_one_eq. simpl. rewrite fold_output_latest.
  case_match; [by intros [= <-]|]. apply Hk.
Qed.

Lemma coherent_reconnect accepts debug sid me o lanes :
  keyed o -> coherent accepts sid (part sid (o, lanes)) ->
  coherent accepts sid (part sid (reconnect debug me o, lanes)).
Proof.
  intros Hk (Hview & Hlast & Ht & Hok & Hpr). unfold reconnect.
  destruct (latest o !! me) as [snap|] eqn:Hme; [|done].
  split; [|split; [|split; [|split]]]; try done. simpl. rewrite List.filter_app. simpl.
  unfold snap_of_session at 2. rewrite (Hk _ _ Hme).
  case_bool_decide as H; [subst me|by rewrite app_nil_r].
  by rewrite last_snoc.
Qed.

Lemma reachable_coherent accepts debug st sid :
  reachable accepts debug st -> keyed (fst st) /\ coherent accepts sid (part sid st).
Proof.
  unfold reachable. intros Hr. remember (new_orchestrator, new_lanes) as init eqn:Hi.
  assert (Hinit : keyed (fst init) /\ coherent accepts sid (part sid init)).
  { subst init. split; [by intros ? ?|apply coherent_init]. }
  clear Hi. induction Hr as [st|st st' st'' Hstep _ IH]; [done|]. apply IH. clear IH.
  destruct Hinit as [Hk Hc]. destruct Hstep as [o lanes env rest Hl|o lanes env Hl|o lanes me receipt|o lanes me receipt|o lanes me].
  - split; [by apply keyed_fold|]. rewrite part_fold_one. case_match; [|done]. by apply coherent_fold.
  - split; [by apply keyed_fold|]. rewrite part_fold_one. case_match; [|done]. by apply coherent_fold.
  - rewrite part_send. split; [|done]. destruct receipt as [r|]; [|done]. simpl.
    by destruct (admission r).
  - rewrite part_cancel. split; [|done]. by destruct receipt.
  - split; [|by apply coherent_reconnect]. simpl. unfold reconnect. by case_match.
Qed.

(** ** The background plane *)

Definition run_roster (r : Roster) (events : list (SessionEvent Value)) : Roster :=
  run_list fold_roster r events.

Definition process_gone (e : SessionEvent Value) : bool :=
  match e with BackendSuspended | Detached _ _ => true | _ => false end.

(** The lifecycle status an event reports for [ref]. *)
Definition reports (ref : string) (e : SessionEvent Value) : option SubagentStatus.t :=
  match e with
  | SubagentUpdate r _ status _ => if bool_decide (r = ref) then Some status else None
  | _ => None
  end.

Definition roster_active (w : WorkflowAgentState) : bool :=
  has_lifecycle w && negb (WorkflowTaskStatus.is_terminal (task_status w)).

Lemma task_status_terminal s :
  WorkflowTaskStatus.is_terminal (task_status_of s) = SubagentStatus.is_terminal s.
Proof. by destruct s. Qed.

(** An entry is active after an event exactly when the process is there and
    either the event reports it active and it had not ended, or it was active
    and the event reports nothing on it. *)
Lemma fold_roster_active r e ref w :
  fold_roster r e !! ref = Some w -> roster_active w = true ->
  process_gone e = false /\
  ((exists status, reports ref e = Some status /\ SubagentStatus.is_terminal status = false) \/
   (reports ref e = None /\ exists w0, r !! ref = Some w0 /\ roster_active w0 = true)).
Proof.
  intros Hl Ha. destruct e; simpl in *; try (split; [done|right; by eauto]);
    try (by rewrite lookup_empty in Hl).
  - split; [done|]. case_bool_decide as Hr; [subst ref0|].
    + left. exists status. split; [done|].
      destruct (r !! ref) as [slot|] eqn:Hs.
      * case_match eqn:Hc; [|rewrite lookup_insert_eq in Hl].
        -- rewrite Hs in Hl. injection Hl as <-. unfold roster_active in Ha.
           apply andb_true_iff in Hc as [Hc _]. by rewrite Hc, andb_false_r in Ha.
        -- injection Hl as <-. unfold roster_active in Ha. simpl in Ha.
           rewrite task_status_terminal in Ha. by apply negb_true_iff in Ha.
      * rewrite lookup_insert_eq in Hl. injection Hl as <-. unfold roster_active in Ha. simpl in Ha.
        rewrite task_status_terminal in Ha. by apply negb_true_iff in Ha.
    + right. split; [done|]. exists w. split; [|done].
      destruct (r !! ref0); [|by rewrite lookup_insert_ne in Hl].
      case_match; [done|]. by rewrite lookup_insert_ne in Hl.
  - split; [done|]. right. split; [done|]. destruct (decide (ref0 = ref)) as [->|Hne].
    + rewrite lookup_insert_eq in Hl. injection Hl as <-. unfold roster_active in Ha. simpl in Ha.
      destruct (r !! ref) as [slot|]; simpl in Ha; [|done]. by exists slot.
    + rewrite lookup_insert_ne in Hl by done. by exists w.
Qed.

Lemma run_roster_active events r ref w :
  run_roster r events !! ref = Some w -> roster_active w = true ->
  (exists pre label status parent post,
     events = pre ++ SubagentUpdate ref label status parent :: post /\
     SubagentStatus.is_terminal status = false /\
     forallb (fun e => negb (process_gone e) && negb (bool_decide (is_Some (reports ref e)))) post
       = true) \/
  (forallb (fun e => negb (process_gone e) && negb (bool_decide (is_Some (reports ref e)))) events
     = true /\ exists w0, r !! ref = Some w0 /\ roster_active w0 = true).
Proof.
  revert w. induction events as [|e events IH] using rev_ind; intros w Hl Ha.
  { right. by eauto. }
  unfold run_roster in *. rewrite run_list_app in Hl. simpl in Hl.
  apply fold_roster_active in Hl as [Hg [(status & Hr & Ht)|(Hr & w0 & Hl & Hw0)]]; [| |done].
  - left. destruct e; try done. simpl in Hr. case_bool_decide; [|done]. injection Hr as ->. subst ref0.
    by exists events, label, status, parent_ref, [].
  - assert (He : negb (process_gone e) && negb (bool_decide (is_Some (reports ref e))) = true)
      by (rewrite Hg, Hr; by rewrite bool_decide_eq_false_2 by (by intros [? ?])).
    destruct (IH w0 Hl Hw0) as [(pre & label & status & parent & post & -> & Ht & Hpost)|[Hall Hw]].
    + left. exists pre, label, status, parent, (post ++ [e]). rewrite <- app_assoc. split; [done|].
      split; [done|]. rewrite forallb_app, Hpost. simpl. by rewrite He.
    + right. split; [|done]. rewrite forallb_app, Hall. simpl. by rewrite He.
Qed.

(** The part of a session after a list of folds of its own envelopes. *)
Lemma part_fold_all accepts sid st envs :
  part sid (fold_all accepts st envs) =
  run_list (part_fold accepts sid) (part sid st)
    (map restamp_epoch (List.filter (of_session sid) envs)).
Proof.
  revert st. induction envs as [|env envs IH]; intros st; [done|].
  unfold fold_all in *. simpl. rewrite IH, part_fold_one. by destruct (of_session sid env).
Qed.

Lemma filter_idem {A} (p : A -> bool) l : List.filter p (List.filter p l) = List.filter p l.
Proof.
  induction l as [|x l IH]; simpl; [done|]. destruct (p x) eqn:E; simpl; [|done].
  rewrite E. by f_equal.
Qed.

Lemma pushes_false_iff prev r e :
  pushes prev r e = false <->
  external_phase (fold_state prev e) = external_phase prev /\
  activity (fold_state prev e) (fold_roster r e) = activity prev r.
Proof.
  unfold pushes. rewrite orb_false_iff, !negb_false_iff, bool_decide_eq_true, eqb_true_iff.
  split; intros [? ?]; by split.
Qed.

Lemma pruned_fixed prev s : pruned s -> prune_terminal_subagents_on_boundary prev s = s.
Proof.
  destruct s as [|c| |]; try done. simpl. intros Hp. f_equal. destruct c as [ep saw tr ra l].
  unfold set_subagents. simpl in *. f_equal.
  induction Hp as [|x l (H1 & H2 & H3) _ IH]; simpl; [done|].
  destruct (sub_status x); try done; by rewrite IH.
Qed.

(** ** Properties *)


(** Sessions do not interfere: what a run of the loop over any
    interleaving of many sessions' envelopes leaves of one session (its FSM, its
    roster, its cached snapshot and terminal, the envelopes and the snapshots
    its subscribers see, in order) is what the run over its own envelopes alone
    leaves. *)
Theorem sessions_isolated accepts sid envs st :
  part sid (fold_all accepts st envs) =
  part sid (fold_all accepts st (List.filter (of_session sid) envs)).
Proof. by rewrite !part_fold_all, filter_idem. Qed.

(** A fold broadcasts the envelope always, and a snapshot exactly when
    the session's external phase or activity changes: then one, carrying the
    new state and its live view; otherwise none, so a stream of deltas pushes
    no snapshot. *)
Theorem fold_broadcasts accepts o lanes env :
  let sid := env_session_id env in
  let st' := fold_one accepts (o, lanes) env in
  let old := lane_state lanes sid in
  let new := lane_state (snd st') sid in
  (exists extra, event_tx (fst st') = event_tx o ++ restamp_epoch env :: extra) /\
  if decide (external_phase new = external_phase old /\
             activity new (lane_roster (snd st') sid) = activity old (lane_roster lanes sid))
  then state_tx (fst st') = state_tx o
  else exists snap, state_tx (fst st') = state_tx o ++ [snap] /\
    snap_session_id snap = sid /\ snap_state snap = new /\ snap_turn_gen snap = env_turn_gen env /\
    snapshot_view snap = live_view accepts (snd st') sid.
Proof.
  intros sid st' old new. unfold new, st', old, sid. clear. rewrite fold_one_eq. cbn [fst snd].
  unfold live_view. rewrite !fold_lanes_state, !fold_lanes_roster, fold_output_events,
    fold_output_snapshots, restamp_session.
  unfold of_session. rewrite restamp_session, bool_decide_eq_true_2 by done.
  split; [rewrite <- app_assoc; by eexists|].
  destruct (decide _) as [H|H].
  - apply pushes_false_iff in H. rewrite H. apply app_nil_r.
  - destruct (pushes _ _ _) eqn:Hp; [|by apply pushes_false_iff in Hp].
    eexists. split; [done|]. simpl. by rewrite restamp_turn_gen.
Qed.

(** The sticky terminal is true: in every state the loop reaches, a
    session in error has as its last terminal that very error, and an idle
    session has none (no turn ended yet), a completion or a cancellation,
    never an error; a fold that leaves the session running or starting keeps
    the entry of the turn before. *)
Theorem sticky_terminal accepts debug o lanes sid :
  reachable accepts debug (o, lanes) ->
  match lane_state lanes sid with
  | Error r => exists g, latest_terminal o sid = Some (g, TransitionReason.Errored r)
  | Idle => forall g r, latest_terminal o sid = Some (g, r) ->
      (exists sr, r = TransitionReason.Completed sr) \/ (exists cr, r = TransitionReason.Cancelled cr)
  | _ => True
  end /\
  forall env, is_terminal_state (lane_state (snd (fold_one accepts (o, lanes) env)) sid) = false ->
    latest_terminal (fst (fold_one accepts (o, lanes) env)) sid = latest_terminal o sid.
Proof.
  intros Hr. destruct (reachable_coherent _ _ _ sid Hr) as [_ (_ & _ & Ht & _)]. split.
  - unfold terminal_coherent in Ht. simpl in Ht. unfold latest_terminal.
    destruct (lane_state lanes sid) as [| |r|]; try done.
    + destruct (last_terminal o !! sid) as [[g []]|]; try done. subst. by exists g.
    + intros g r Hl. rewrite Hl in Ht. destruct r; try done; eauto.
  - intros env. rewrite fold_one_eq. cbn [fst snd]. unfold latest_terminal.
    rewrite fold_lanes_state, fold_output_terminal. simpl.
    destruct (of_session _ _); [|done]. intros ->. by rewrite andb_false_r.
Qed.

(** Every FSM state the loop holds is one the reducer reaches, and no
    running turn it holds lists a completed, errored or shut-down subagent. *)
Theorem reachable_lanes_ok accepts debug o lanes sid :
  reachable accepts debug (o, lanes) ->
  state_ok (lane_state lanes sid) /\ pruned (lane_state lanes sid).
Proof. intros Hr. by destruct (reachable_coherent _ _ _ sid Hr) as [_ (_ & _ & _ & ? & ?)]. Qed.

(** Results without an epoch are stamped with their envelope's turn: in
    every reachable state, such a result from an older turn than the running
    one changes no lane and pushes no snapshot, and any other settles the
    running turn by its verdict. *)
Theorem unstamped_result accepts debug o lanes sid c g is_error status text outcome :
  reachable accepts debug (o, lanes) ->
  lane_state lanes sid = Running c ->
  let env := mkSessionEnvelope sid g (TurnResult is_error status text 0 outcome) in
  let st' := fold_one accepts (o, lanes) env in
  if decide (0 < g < since_epoch c)%N
  then lane_state (snd st') sid = Running c /\ state_tx (fst st') = state_tx o
  else lane_state (snd st') sid =
         verdict (Value := Value) (saw_substantive_output c)
           (TurnResult is_error status text g outcome).
Proof.
  intros Hr Hs env st'.
  destruct (reachable_coherent _ _ _ sid Hr) as [_ (_ & _ & _ & Hok & Hpr)]. simpl in Hok, Hpr.
  assert (Hst : st' = (fold_output accepts o lanes
      (mkSessionEnvelope sid g (TurnResult is_error status text g outcome)),
    fold_lanes lanes (mkSessionEnvelope sid g (TurnResult is_error status text g outcome))))
    by apply fold_one_eq.
  rewrite Hst. cbn [fst snd]. rewrite fold_lanes_state. unfold of_session.
  rewrite bool_decide_eq_true_2 by done. cbn [env_event]. rewrite Hs in *.
  destruct (decide _) as [Hg|Hg].
  - assert (Hfs : fold_state (Running c) (TurnResult is_error status text g outcome) = Running c).
    { unfold fold_state, step_state. simpl. unfold step_turn_result.
      replace (negb (g =? 0)%N && (g <? since_epoch c)%N) with true by lia. by apply pruned_fixed. }
    split; [done|]. rewrite fold_output_snapshots. simpl. rewrite Hs.
    replace (pushes _ _ _) with false; [by rewrite app_nil_r|].
    symmetry. apply pushes_false_iff. by rewrite Hfs.
  - unfold fold_state. rewrite step_decided; [| |done|simpl; lia].
    + apply pruned_fixed. pose proof (verdict_terminal (Value := Value) (saw_substantive_output c)
        (TurnResult is_error status text g outcome)). by destruct (verdict (Value := Value) _ _).
    + by destruct Hok.
Qed.

(** The background spinner is on only for a live workflow: if, after any
    events, some roster entry is active, then the last thing the events say of
    its reference is that it is pending or running, and the process has not
    been suspended or detached since. Detail-only entries never light it. *)
Theorem background_active_live events :
  background_active (run_roster ∅ events) = true ->
  exists pre ref label status parent post,
    events = pre ++ SubagentUpdate ref label status parent :: post /\
    SubagentStatus.is_terminal status = false /\
    forallb (fun e => negb (process_gone e) && negb (bool_decide (is_Some (reports ref e)))) post
      = true.
Proof.
  intros (ref & w & Hl & Hlc & Ht)%background_active_true.
  destruct (run_roster_active events ∅ ref w) as [(pre & label & status & parent & post & H)|H];
    [done|unfold roster_active; by rewrite Hlc, Ht|by exists pre, ref, label, status, parent, post|].
  destruct H as [_ (w0 & Hw & _)]. by rewrite lookup_empty in Hw.
Qed.

End Fold.

(** ** Witnesses *)

Definition no_debug (_ : SessionState) : string := "".

(** A loop that has folded the start of turn 3 of session [s]. *)
Definition started_loop : Orchestrator unit * Lanes :=
  fold_one true (new_orchestrator, new_lanes) (mkSessionEnvelope "s" 3 (TurnStarted 3)).

Definition failed_loop : Orchestrator unit * Lanes :=
  fold_one true started_loop
    (mkSessionEnvelope "s" 3 (TurnResult true None "thread not found: x" 0 TurnOutcome.Failed)).

Lemma started_reachable : reachable true no_debug started_loop.
Proof. eapply rtc_l; [by apply run_backend|apply rtc_refl]. Qed.

Lemma failed_reachable : reachable true no_debug failed_loop.
Proof. eapply rtc_r; [apply started_reachable|]. by apply run_backend. Qed.


Lemma sticky_terminal_witness :
  exists g, latest_terminal (fst failed_loop) "s" =
    Some (g, TransitionReason.Errored (ErrorReason.Backend None "thread not found: x")).
Proof.
  exact (proj1 (sticky_terminal true no_debug (fst failed_loop) (snd failed_loop) "s"
    failed_reachable)).
Defined.

Lemma reachable_lanes_ok_witness :
  state_ok (lane_state (snd started_loop) "s") /\ pruned (lane_state (snd started_loop) "s").
Proof.
  exact (reachable_lanes_ok true no_debug (fst started_loop) (snd started_loop) "s"
    started_reachable).
Defined.

Lemma unstamped_result_witness :
  lane_state (snd (fold_one true started_loop
    (mkSessionEnvelope "s" 2 (TurnResult false None "late" 0 TurnOutcome.EndTurn)))) "s"
  = Running (fresh_turn 3).
Proof.
  exact (proj1 (unstamped_result true no_debug (fst started_loop) (snd started_loop) "s"
    (fresh_turn 3) 2 false None "late" TurnOutcome.EndTurn started_reachable eq_refl)).
Defined.

Lemma background_active_live_witness :
  exists pre ref label status parent post,
    [SubagentUpdate "w" None SubagentStatus.Running None; TurnStarted (Value := unit) 2] =
      pre ++ SubagentUpdate ref label status parent :: post /\
    SubagentStatus.is_terminal status = false /\
    forallb (fun e => negb (process_gone e) && negb (bool_decide (is_Some (reports ref e)))) post
      = true.
Proof. apply background_active_live. vm_compute. reflexivity. Defined.

(** ** A pruned subagent comes back

    The prune drops a completed subagent from the running turn on the fold of
    its own update, so the absorption rule of the reducer has no entry to
    absorb into: a late [Running] update of a completed subagent is listed and
    counted as active again, where the reducer alone would have ignored it. *)
Definition late_update : list (SessionEvent unit) :=
  [TurnStarted 1; SubagentUpdate "s" None SubagentStatus.Completed None;
   Permission "r" PermissionKind.Tool None None None;
   SubagentUpdate "s" None SubagentStatus.Running None].

Theorem late_update_resurrects :
  has_foreground_activity (lane_state (snd (fold_all true (new_orchestrator, new_lanes)
    (map (mkSessionEnvelope "s" 1) late_update))) "s") = true /\
  has_foreground_activity (run_events Idle late_update) = false /\
  background_active (run_roster ∅ late_update) = false.
Proof. vm_compute. repeat split. Qed.
