(* ===== verification/MemberRuntime.v ===== *)
(** * The runtimes of the team members
    ([crates/tjuaeui-team/src/member_runtime.rs])

    [MemberRuntimeRegistry] says, per member, whether its runtime is absent,
    being attached, ready, failed or being removed.  A caller that starts an
    attach or a removal gets a lease; every other caller gets a waiter, the
    receiving end of a watch channel that is told the outcome.

    The channels are shared between the registry and the waiters, so they live
    in a store of their own: [channels] lists their contents, and a sender or
    a receiver is an index into it.  The senders are those the entries hold. *)

From S2P Require Import Prelude.

(** ** Data *)

Record MemberRuntimeFailure : Type := mkMemberRuntimeFailure {
  classification : string;
  public_reason : string;
}.

Module AttachOutcome.
Inductive t : Type :=
| Ready
| Failed (f : MemberRuntimeFailure)
| Removed
| SessionStopped.
End AttachOutcome.

Module AttachSignal.
Inductive t : Type :=
| Pending
| Terminal (o : AttachOutcome.t).
End AttachSignal.

Record AttachWaiter : Type := mkAttachWaiter {
  waiter_operation_id : N;
  outcome_rx : nat;
}.

Record AttachLease : Type := mkAttachLease {
  lease_generation : string;
  lease_agent_id : string;
  lease_waiter : AttachWaiter;
}.

Definition lease_operation_id (l : AttachLease) : N := waiter_operation_id (lease_waiter l).

Record RemoveLease : Type := mkRemoveLease {
  remove_generation : string;
  remove_agent_id : string;
  remove_operation_id : N;
}.

Module ReserveAttach.
Inductive t : Type :=
| Start (l : AttachLease)
| Join (w : AttachWaiter)
| AlreadyReady
| Removing (w : AttachWaiter)
| SessionStopped.
End ReserveAttach.

Module BeginRemove.
Inductive t : Type :=
| Start (l : RemoveLease)
| Join (w : AttachWaiter)
| Absent
| SessionStopped.
End BeginRemove.

Module MemberRuntimeSnapshot.
Inductive t : Type :=
| Absent
| Attaching (operation_id : N)
| Ready
| Failed (operation_id : N) (failure : MemberRuntimeFailure)
| Removing (operation_id : N)
| SessionStopped.
End MemberRuntimeSnapshot.

Module MemberRuntimeEntry.
Inductive t : Type :=
| Attaching (operation_id : N) (outcome_tx : nat)
| Ready
| Failed (operation_id : N) (failure : MemberRuntimeFailure) (outcome_tx : nat)
| Removing (operation_id : N) (outcome_tx : nat).
End MemberRuntimeEntry.

Record MemberRuntimeRegistry : Type := mkRegistry {
  session_generation : string;
  op_counter : N;
  entries : gmap string MemberRuntimeEntry.t;
  stopped : bool;
  channels : list AttachSignal.t;
}.

Definition MemberRuntimeRegistry_new (generation : string) : MemberRuntimeRegistry :=
  mkRegistry generation 1 ∅ false [].

(** ** Effects *)

Definition set_entry (agent : string) (e : MemberRuntimeEntry.t) (r : MemberRuntimeRegistry) :=
  mkRegistry (session_generation r) (op_counter r) (<[agent := e]> (entries r)) (stopped r) (channels r).
Definition drop_entry (agent : string) (r : MemberRuntimeRegistry) :=
  mkRegistry (session_generation r) (op_counter r) (delete agent (entries r)) (stopped r) (channels r).

(** [watch::channel(Pending)] and [Sender::send_replace]. *)
Definition watch_channel (r : MemberRuntimeRegistry) : nat * MemberRuntimeRegistry :=
  (length (channels r),
   mkRegistry (session_generation r) (op_counter r) (entries r) (stopped r)
     (channels r ++ [AttachSignal.Pending])).
Definition send_replace (tx : nat) (o : AttachOutcome.t) (r : MemberRuntimeRegistry) :=
  mkRegistry (session_generation r) (op_counter r) (entries r) (stopped r)
    (<[tx := AttachSignal.Terminal o]> (channels r)).

(** [AtomicU64::fetch_add] wraps. *)
Definition next_operation_id (r : MemberRuntimeRegistry) : N * MemberRuntimeRegistry :=
  (op_counter r,
   mkRegistry (session_generation r) ((op_counter r + 1) mod (u64_max + 1))%N (entries r)
     (stopped r) (channels r)).

(** ** Operations *)

(** The arm shared by [reserve_attach] and [reserve_repair]: a fresh operation
    with a channel of its own takes the entry over. *)
Definition start_attach (agent : string) (r : MemberRuntimeRegistry)
    : ReserveAttach.t * MemberRuntimeRegistry :=
  let '(op, r) := next_operation_id r in
  let '(ch, r) := watch_channel r in
  (ReserveAttach.Start (mkAttachLease (session_generation r) agent (mkAttachWaiter op ch)),
   set_entry agent (MemberRuntimeEntry.Attaching op ch) r).

Definition reserve_attach (agent : string) (retry_failed : bool) (r : MemberRuntimeRegistry)
    : ReserveAttach.t * MemberRuntimeRegistry :=
  if stopped r then (ReserveAttach.SessionStopped, r)
  else
    match entries r !! agent with
    | Some (MemberRuntimeEntry.Attaching op tx) => (ReserveAttach.Join (mkAttachWaiter op tx), r)
    | Some MemberRuntimeEntry.Ready => (ReserveAttach.AlreadyReady, r)
    | Some (MemberRuntimeEntry.Failed op _ tx) =>
        if negb retry_failed then (ReserveAttach.Join (mkAttachWaiter op tx), r)
        else start_attach agent r
    | Some (MemberRuntimeEntry.Removing op tx) => (ReserveAttach.Removing (mkAttachWaiter op tx), r)
    | None => start_attach agent r
    end.

Definition reserve_repair (agent : string) (r : MemberRuntimeRegistry)
    : ReserveAttach.t * MemberRuntimeRegistry :=
  if stopped r then (ReserveAttach.SessionStopped, r)
  else
    match entries r !! agent with
    | Some (MemberRuntimeEntry.Attaching op tx) => (ReserveAttach.Join (mkAttachWaiter op tx), r)
    | Some MemberRuntimeEntry.Ready => start_attach agent r
    | Some (MemberRuntimeEntry.Failed op _ tx) => (ReserveAttach.Join (mkAttachWaiter op tx), r)
    | Some (MemberRuntimeEntry.Removing op tx) => (ReserveAttach.Removing (mkAttachWaiter op tx), r)
    | None => start_attach agent r
    end.

(** The channel of the attach a lease owns, if it still owns it. *)
Definition attach_channel (l : AttachLease) (r : MemberRuntimeRegistry) : option nat :=
  match entries r !! lease_agent_id l with
  | Some (MemberRuntimeEntry.Attaching op tx) =>
      if (op =? lease_operation_id l)%N then Some tx else None
  | _ => None
  end.

Definition owns_attach (l : AttachLease) (r : MemberRuntimeRegistry) : bool :=
  if negb (bool_decide (lease_generation l = session_generation r)) || stopped r then false
  else match attach_channel l r with Some _ => true | None => false end.

Definition commit_ready (l : AttachLease) (r : MemberRuntimeRegistry) : bool * MemberRuntimeRegistry :=
  if negb (bool_decide (lease_generation l = session_generation r)) then (false, r)
  else if stopped r then (false, r)
  else
    match attach_channel l r with
    | Some tx =>
        (true, send_replace tx AttachOutcome.Ready
                 (set_entry (lease_agent_id l) MemberRuntimeEntry.Ready r))
    | None => (false, r)
    end.

Definition commit_failed (l : AttachLease) (failure : MemberRuntimeFailure) (r : MemberRuntimeRegistry)
    : bool * MemberRuntimeRegistry :=
  if negb (bool_decide (lease_generation l = session_generation r)) then (false, r)
  else if stopped r then (false, r)
  else
    match attach_channel l r with
    | Some tx =>
        (true, send_replace tx (AttachOutcome.Failed failure)
                 (set_entry (lease_agent_id l)
                   (MemberRuntimeEntry.Failed (lease_operation_id l) failure tx) r))
    | None => (false, r)
    end.

(** A removal takes the entry over; the attach it interrupts is told last. *)
Definition start_remove (agent : string) (cancelled : option nat) (r : MemberRuntimeRegistry)
    : BeginRemove.t * MemberRuntimeRegistry :=
  let r := drop_entry agent r in
  let '(op, r) := next_operation_id r in
  let '(ch, r) := watch_channel r in
  let r := set_entry agent (MemberRuntimeEntry.Removing op ch) r in
  (BeginRemove.Start (mkRemoveLease (session_generation r) agent op),
   match cancelled with Some tx => send_replace tx AttachOutcome.Removed r | None => r end).

Definition begin_remove (agent : string) (r : MemberRuntimeRegistry)
    : BeginRemove.t * MemberRuntimeRegistry :=
  if stopped r then (BeginRemove.SessionStopped, r)
  else
    match entries r !! agent with
    | Some (MemberRuntimeEntry.Removing op tx) => (BeginRemove.Join (mkAttachWaiter op tx), r)
    | Some (MemberRuntimeEntry.Attaching _ tx) => start_remove agent (Some tx) r
    | Some (MemberRuntimeEntry.Failed _ _ _) => start_remove agent None r
    | Some MemberRuntimeEntry.Ready => start_remove agent None r
    | None => (BeginRemove.Absent, r)
    end.

Definition remove_channel (l : RemoveLease) (r : MemberRuntimeRegistry) : option nat :=
  match entries r !! remove_agent_id l with
  | Some (MemberRuntimeEntry.Removing op tx) =>
      if (op =? remove_operation_id l)%N then Some tx else None
  | _ => None
  end.

Definition finish_remove (l : RemoveLease) (r : MemberRuntimeRegistry) : bool * MemberRuntimeRegistry :=
  if negb (bool_decide (remove_generation l = session_generation r)) then (false, r)
  else if stopped r then (false, r)
  else
    match remove_channel l r with
    | Some tx => (true, send_replace tx AttachOutcome.Removed (drop_entry (remove_agent_id l) r))
    | None => (false, r)
    end.

Definition restore_attach_required_after_remove_persist_error (l : RemoveLease)
    (failure : MemberRuntimeFailure) (r : MemberRuntimeRegistry) : bool * MemberRuntimeRegistry :=
  if negb (bool_decide (remove_generation l = session_generation r)) then (false, r)
  else if stopped r then (false, r)
  else
    match remove_channel l r with
    | Some tx =>
        (true, send_replace tx (AttachOutcome.Failed failure)
                 (set_entry (remove_agent_id l)
                   (MemberRuntimeEntry.Failed (remove_operation_id l) failure tx) r))
    | None => (false, r)
    end.

Definition snapshot (agent : string) (r : MemberRuntimeRegistry) : MemberRuntimeSnapshot.t :=
  if stopped r then MemberRuntimeSnapshot.SessionStopped
  else
    match entries r !! agent with
    | None => MemberRuntimeSnapshot.Absent
    | Some (MemberRuntimeEntry.Attaching op _) => MemberRuntimeSnapshot.Attaching op
    | Some MemberRuntimeEntry.Ready => MemberRuntimeSnapshot.Ready
    | Some (MemberRuntimeEntry.Failed op f _) => MemberRuntimeSnapshot.Failed op f
    | Some (MemberRuntimeEntry.Removing op _) => MemberRuntimeSnapshot.Removing op
    end.

(** What [stop] does to one drained entry. *)
Definition stop_entry (r : MemberRuntimeRegistry) (e : MemberRuntimeEntry.t) : MemberRuntimeRegistry :=
  match e with
  | MemberRuntimeEntry.Attaching _ tx | MemberRuntimeEntry.Removing _ tx =>
      send_replace tx AttachOutcome.SessionStopped r
  | MemberRuntimeEntry.Ready | MemberRuntimeEntry.Failed _ _ _ => r
  end.

Definition stop (r : MemberRuntimeRegistry) : bool * MemberRuntimeRegistry :=
  if stopped r then (false, r)
  else
    (true,
     run_list stop_entry
       (mkRegistry (session_generation r) (op_counter r) ∅ true (channels r))
       (map_values (entries r))).

(** [AttachWaiter::wait], one poll: the outcome if there is one; otherwise the
    waiter sleeps ([None]), unless no entry holds the sender any more, which it
    takes for a stopped session. *)
Definition holds_sender (tx : nat) (e : MemberRuntimeEntry.t) : bool :=
  match e with
  | MemberRuntimeEntry.Attaching _ tx' | MemberRuntimeEntry.Failed _ _ tx'
  | MemberRuntimeEntry.Removing _ tx' => (tx' =? tx)%nat
  | MemberRuntimeEntry.Ready => false
  end.

Definition wait_poll (w : AttachWaiter) (r : MemberRuntimeRegistry) : option AttachOutcome.t :=
  match channels r !! outcome_rx w with
  | Some (AttachSignal.Terminal o) => Some o
  | _ => if existsb (holds_sender (outcome_rx w)) (map_values (entries r)) then None
         else Some AttachOutcome.SessionStopped
  end.

(** ** Clients

    The leases and the waiters the registry has handed out.  Every holder may
    use its lease any number of times, at any moment. *)
Record Clients : Type := mkClients {
  leases : list AttachLease;
  removes : list RemoveLease;
  waiters : list AttachWaiter;
}.

Definition note_waiter (w : AttachWaiter) (c : Clients) : Clients :=
  mkClients (leases c) (removes c) (w :: waiters c).
Definition note_lease (l : AttachLease) (c : Clients) : Clients :=
  mkClients (l :: leases c) (removes c) (lease_waiter l :: waiters c).
Definition note_remove (l : RemoveLease) (c : Clients) : Clients :=
  mkClients (leases c) (l :: removes c) (waiters c).

Definition note_reserve (x : ReserveAttach.t) (c : Clients) : Clients :=
  match x with
  | ReserveAttach.Start l => note_lease l c
  | ReserveAttach.Join w | ReserveAttach.Removing w => note_waiter w c
  | ReserveAttach.AlreadyReady | ReserveAttach.SessionStopped => c
  end.

Definition note_begin (x : BeginRemove.t) (c : Clients) : Clients :=
  match x with
  | BeginRemove.Start l => note_remove l c
  | BeginRemove.Join w => note_waiter w c
  | BeginRemove.Absent | BeginRemove.SessionStopped => c
  end.

(** The operations started so far. *)
Definition started (c : Clients) : N := N.of_nat (length (leases c) + length (removes c)).

Section Registry.
Context (gen : string).

(** One call by any client.  A lease used was handed out by this registry, or
    belongs to another session. *)
Definition attach_lease_of (c : Clients) (l : AttachLease) : Prop :=
  l ∈ leases c \/ lease_generation l <> gen.
Definition remove_lease_of (c : Clients) (l : RemoveLease) : Prop :=
  l ∈ removes c \/ remove_generation l <> gen.

Inductive registry_step : MemberRuntimeRegistry * Clients -> MemberRuntimeRegistry * Clients -> Prop :=
| step_reserve agent retry r c :
    registry_step (r, c) (snd (reserve_attach agent retry r), note_reserve (fst (reserve_attach agent retry r)) c)
| step_repair agent r c :
    registry_step (r, c) (snd (reserve_repair agent r), note_reserve (fst (reserve_repair agent r)) c)
| step_ready l r c : attach_lease_of c l -> registry_step (r, c) (snd (commit_ready l r), c)
| step_failed l f r c : attach_lease_of c l -> registry_step (r, c) (snd (commit_failed l f r), c)
| step_remove agent r c :
    registry_step (r, c) (snd (begin_remove agent r), note_begin (fst (begin_remove agent r)) c)
| step_finish l r c : remove_lease_of c l -> registry_step (r, c) (snd (finish_remove l r), c)
| step_restore l f r c : remove_lease_of c l ->
    registry_step (r, c) (snd (restore_attach_required_after_remove_persist_error l f r), c)
| step_stop r c : registry_step (r, c) (snd (stop r), c).

Definition registry_reachable (st : MemberRuntimeRegistry * Clients) : Prop :=
  rtc registry_step (MemberRuntimeRegistry_new gen, mkClients [] [] []) st.

(** ** The invariant

    Operation [op] has the channel with index [op - 1]; it is pending exactly
    while some entry is attaching or removing under [op]. *)
Definition in_progress (e : MemberRuntimeEntry.t) : option (N * nat) :=
  match e with
  | MemberRuntimeEntry.Attaching op tx | MemberRuntimeEntry.Removing op tx => Some (op, tx)
  | _ => None
  end.

Definition channel_of (op : N) (tx : nat) : Prop := (N.of_nat tx + 1 = op)%N.

Definition entry_ok (r : MemberRuntimeRegistry) (c : Clients) (agent : string)
    (e : MemberRuntimeEntry.t) : Prop :=
  match e with
  | MemberRuntimeEntry.Attaching op tx =>
      channel_of op tx /\ channels r !! tx = Some AttachSignal.Pending /\
      exists l, l ∈ leases c /\ lease_agent_id l = agent /\ lease_operation_id l = op
  | MemberRuntimeEntry.Ready => True
  | MemberRuntimeEntry.Failed op f tx =>
      channel_of op tx /\ channels r !! tx = Some (AttachSignal.Terminal (AttachOutcome.Failed f))
  | MemberRuntimeEntry.Removing op tx =>
      channel_of op tx /\ channels r !! tx = Some AttachSignal.Pending /\
      exists l, l ∈ removes c /\ remove_agent_id l = agent /\ remove_operation_id l = op
  end.

Definition waiter_ok (r : MemberRuntimeRegistry) (w : AttachWaiter) : Prop :=
  channel_of (waiter_operation_id w) (outcome_rx w) /\ outcome_rx w < length (channels r).

Record registry_ok (r : MemberRuntimeRegistry) (c : Clients) : Prop := {
  ok_generation : session_generation r = gen;
  ok_channels : N.of_nat (length (channels r)) = started c;
  ok_counter : op_counter r = (started c + 1)%N;
  ok_leases : forall l, l ∈ leases c -> lease_generation l = gen /\ waiter_ok r (lease_waiter l);
  ok_removes : forall l, l ∈ removes c -> remove_generation l = gen /\ (1 <= remove_operation_id l <= started c)%N;
  ok_distinct : NoDup (map lease_operation_id (leases c) ++ map remove_operation_id (removes c));
  ok_waiters : forall w, w ∈ waiters c -> waiter_ok r w;
  ok_entries : forall agent e, entries r !! agent = Some e -> entry_ok r c agent e;
  ok_pending : forall tx, channels r !! tx = Some AttachSignal.Pending ->
    exists agent e op, entries r !! agent = Some e /\ in_progress e = Some (op, tx);
  ok_stopped : stopped r = true -> entries r = ∅;
}.

Lemma new_ok : registry_ok (MemberRuntimeRegistry_new gen) (mkClients [] [] []).
Proof.
  split; simpl; try done; try (by intros ? ?%elem_of_nil).
  constructor.
Qed.

Lemma in_progress_ok r c agent e op tx :
  entry_ok r c agent e -> in_progress e = Some (op, tx) ->
  channel_of op tx /\ channels r !! tx = Some AttachSignal.Pending.
Proof. intros He Hp. destruct e; simpl in *; try done; injection Hp as <- <-; destruct He as (? & ? & _); done. Qed.

(** An operation in progress is in progress for one member. *)
Lemma in_progress_inj r c a1 e1 op1 a2 e2 op2 tx :
  registry_ok r c -> entries r !! a1 = Some e1 -> entries r !! a2 = Some e2 ->
  in_progress e1 = Some (op1, tx) -> in_progress e2 = Some (op2, tx) -> a1 = a2.
Proof.
  intros Hok H1%(ok_entries _ _ Hok) H2%(ok_entries _ _ Hok) Hp1 Hp2.
  assert (op1 = op2) as ->.
  { destruct (in_progress_ok _ _ _ _ _ _ H1 Hp1) as [E1 _], (in_progress_ok _ _ _ _ _ _ H2 Hp2) as [E2 _].
    by rewrite <- E1, <- E2. }
  destruct (proj1 (list.NoDup_app _ _) (ok_distinct _ _ Hok)) as (Hn1 & Hdis & Hn2).
  assert (Hcross : forall l l', l ∈ leases c -> l' ∈ removes c ->
    lease_operation_id l = remove_operation_id l' -> False).
  { intros l l' Hl Hl' E. apply (Hdis (lease_operation_id l)).
    - by apply list_elem_of_fmap_2.
    - rewrite E. by apply list_elem_of_fmap_2. }
  destruct e1, e2; simpl in *; try done; injection Hp1 as <- <-; injection Hp2 as <- <-;
    destruct H1 as (_ & _ & l1 & Hl1 & <- & Ho1), H2 as (_ & _ & l2 & Hl2 & <- & Ho2).
  - f_equal. apply (NoDup_map_inj lease_operation_id (leases c)); [done..|congruence].
  - by destruct (Hcross l1 l2 Hl1 Hl2 (eq_trans Ho1 (eq_sym Ho2))).
  - by destruct (Hcross l2 l1 Hl2 Hl1 (eq_trans Ho2 (eq_sym Ho1))).
  - f_equal. apply (NoDup_map_inj remove_operation_id (removes c)); [done..|congruence].
Qed.

(** ** The effects preserve the invariant *)

Lemma entry_ok_grow r c r' c' agent e :
  (forall tx s, channels r !! tx = Some s -> channels r' !! tx = Some s) ->
  (forall l, l ∈ leases c -> l ∈ leases c') -> (forall l, l ∈ removes c -> l ∈ removes c') ->
  entry_ok r c agent e -> entry_ok r' c' agent e.
Proof.
  intros Hch Hl Hr. destruct e; simpl; try done.
  - intros (Hc & Hp & l & Hin & Ha & Ho). split_and!; [done|by apply Hch|]. exists l. auto.
  - intros [Hc Hp]. split; [done|by apply Hch].
  - intros (Hc & Hp & l & Hin & Ha & Ho). split_and!; [done|by apply Hch|]. exists l. auto.
Qed.

Lemma note_waiter_ok r c w : registry_ok r c -> waiter_ok r w -> registry_ok r (note_waiter w c).
Proof.
  intros Hok Hw. destruct Hok. split; simpl; try done.
  intros w' [->|?]%elem_of_cons; auto.
Qed.

Lemma entry_waiter_ok r c agent op tx e :
  registry_ok r c -> entries r !! agent = Some e ->
  (in_progress e = Some (op, tx) \/ exists f, e = MemberRuntimeEntry.Failed op f tx) ->
  waiter_ok r (mkAttachWaiter op tx).
Proof.
  intros Hok He%(ok_entries _ _ Hok) Hp. unfold waiter_ok. simpl.
  destruct Hp as [Hp|[f ->]].
  - destruct (in_progress_ok _ _ _ _ _ _ He Hp) as [Hc Hl]. split; [done|].
    by apply lookup_lt_Some in Hl.
  - destruct He as [Hc Hl]. split; [done|]. by apply lookup_lt_Some in Hl.
Qed.

(** An entry at rest may be dropped, or put where there is none. *)
Lemma drop_ok r c agent :
  registry_ok r c ->
  (forall e, entries r !! agent = Some e -> in_progress e = None) ->
  registry_ok (drop_entry agent r) c.
Proof.
  intros Hok Hrest. destruct Hok. split; simpl; try done.
  - intros a e [_ He]%lookup_delete_Some. by apply ok_entries0.
  - intros tx (a & e & op & He & Hp)%ok_pending0. exists a, e, op. split; [|done].
    apply lookup_delete_Some. split; [|done]. intros ->. by rewrite (Hrest e He) in Hp.
  - intros Hs. rewrite (ok_stopped0 Hs). apply delete_empty.
Qed.

Lemma rest_ok r c agent e :
  registry_ok r c -> stopped r = false -> entries r !! agent = None ->
  in_progress e = None -> entry_ok r c agent e -> registry_ok (set_entry agent e r) c.
Proof.
  intros Hok Hst Hn Hrest He. destruct Hok. split; simpl; try done.
  - intros a e' [[<- <-]|[_ ?]]%lookup_insert_Some; [done|]. by apply ok_entries0.
  - intros tx (a & e' & op & ? & ?)%ok_pending0. exists a, e', op. split; [|done].
    rewrite lookup_insert_ne; [done|]. intros ->. congruence.
  - by rewrite Hst.
Qed.

(** An operation in progress is resolved: its entry goes, its waiters are told. *)
Lemma resolve_ok r c agent e op tx o :
  registry_ok r c -> entries r !! agent = Some e -> in_progress e = Some (op, tx) ->
  registry_ok (send_replace tx o (drop_entry agent r)) c.
Proof.
  intros Hok He Hp. pose proof Hok as Hok'. destruct Hok.
  destruct (in_progress_ok _ _ _ _ _ _ (ok_entries0 _ _ He) Hp) as [Hc Htx].
  assert (Hlen : length (<[tx:=AttachSignal.Terminal o]> (channels r)) = length (channels r))
    by apply length_insert.
  split; simpl; try done.
  - by rewrite Hlen.
  - intros l Hl. destruct (ok_leases0 l Hl) as [? [? ?]]. split; [done|]. split; [done|]. simpl. lia.
  - intros w Hw. destruct (ok_waiters0 w Hw) as [? ?]. split; [done|]. simpl. lia.
  - intros a e' [Hne He']%lookup_delete_Some. pose proof (ok_entries0 _ _ He') as He2.
    assert (Hother : forall op' tx', in_progress e' = Some (op', tx') -> tx' <> tx).
    { intros op' tx' Hp' ->. apply Hne. by eapply (in_progress_inj r c agent e op a e' op' tx). }
    destruct e' as [op' tx'| |op' f tx'|op' tx']; simpl in *; try done.
    + rewrite list_lookup_insert_ne by (by apply not_eq_sym, (Hother op')). done.
    + destruct He2 as [? Hl]. split; [done|]. rewrite list_lookup_insert_ne; [done|].
      intros ->. by rewrite Htx in Hl.
    + rewrite list_lookup_insert_ne by (by apply not_eq_sym, (Hother op')). done.
  - intros tx' [(<- & ? & _)|[Hne Hl]]%list_lookup_insert_Some; [done|].
    destruct (ok_pending0 _ Hl) as (a & e' & op' & He' & Hp'). exists a, e', op'.
    split; [|done]. apply lookup_delete_Some. split; [|done]. intros <-.
    rewrite He in He'. injection He' as <-. rewrite Hp in Hp'. by injection Hp'.
  - intros Hs. by rewrite (ok_stopped0 Hs) in He.
Qed.

Lemma counter_next n : (n + 1 < u64_max)%N -> ((n + 1 + 1) mod (u64_max + 1) = n + 1 + 1)%N.
Proof. intros Hn. apply N.mod_small. lia. Qed.

Lemma lookup_snoc_Some {A : Type} (l : list A) x i y :
  (l ++ [x]) !! i = Some y <-> l !! i = Some y \/ i = length l /\ y = x.
Proof.
  rewrite lookup_app_Some, list_lookup_singleton_Some. split.
  - intros [?|(? & ? & <-)]; [by left|]. right. split; [lia|done].
  - intros [?|[-> ->]]; [by left|]. right. split; [lia|]. split; [lia|done].
Qed.

(** What starting an operation needs of its lease: a fresh id and its entry. *)
Lemma issue_ok r c c' agent e :
  registry_ok r c -> stopped r = false -> entries r !! agent = None ->
  started c' = (started c + 1)%N -> (started c' < u64_max)%N ->
  (forall l, l ∈ leases c' -> l ∈ leases c \/
     l = mkAttachLease gen agent (mkAttachWaiter (op_counter r) (length (channels r)))) ->
  (forall l, l ∈ removes c' -> l ∈ removes c \/ l = mkRemoveLease gen agent (op_counter r)) ->
  (forall w, w ∈ waiters c' -> w ∈ waiters c \/
     w = mkAttachWaiter (op_counter r) (length (channels r))) ->
  (forall l, l ∈ leases c -> l ∈ leases c') -> (forall l, l ∈ removes c -> l ∈ removes c') ->
  map lease_operation_id (leases c') ++ map remove_operation_id (removes c') ≡ₚ
    op_counter r :: map lease_operation_id (leases c) ++ map remove_operation_id (removes c) ->
  in_progress e = Some (op_counter r, length (channels r)) ->
  let r' := set_entry agent e (snd (watch_channel (snd (next_operation_id r)))) in
  (channels r' !! length (channels r) = Some AttachSignal.Pending -> entry_ok r' c' agent e) ->
  registry_ok r' c'.
Proof.
  intros Hok Hst Hn Hc' Hmax HL HR HW HLs HRs Hperm Hp r' He. pose proof Hok as Hok'. destruct Hok.
  assert (Hlen : N.of_nat (length (channels r) + 1) = started c') by lia.
  assert (Hw : forall w, waiter_ok r w -> waiter_ok r' w).
  { intros w [? ?]. split; [done|]. unfold r'. simpl. rewrite length_app. simpl. lia. }
  assert (Hnew : waiter_ok r' (mkAttachWaiter (op_counter r) (length (channels r)))).
  { split; unfold r', channel_of; simpl; [lia|]. rewrite length_app. simpl. lia. }
  assert (Hsnoc : channels r' !! length (channels r) = Some AttachSignal.Pending).
  { apply lookup_snoc_Some. by right. }
  split.
  - done.
  - simpl. by rewrite length_app.
  - unfold r'. simpl. rewrite ok_counter0, counter_next; lia.
  - intros l [Hl| ->]%HL; [|by split]. destruct (ok_leases0 l Hl) as [? ?]. auto.
  - intros l [Hl| ->]%HR; [destruct (ok_removes0 l Hl) as [? ?]; split; [done|lia]|].
    simpl. split; [done|lia].
  - rewrite Hperm. apply list.NoDup_cons. split; [|done]. intros Hin.
    apply elem_of_app in Hin as [Hin|Hin]; apply list_elem_of_fmap in Hin as (l & Ho & Hin).
    + destruct (ok_leases0 l Hin) as [_ [Hch Hlt]]. unfold channel_of, lease_operation_id in *. lia.
    + destruct (ok_removes0 l Hin). lia.
  - intros w [Hin| ->]%HW; auto.
  - intros a e'. unfold r'. simpl. intros [[<- <-]|[_ He']]%lookup_insert_Some; [by apply He|].
    apply (entry_ok_grow r c); [|done..|by apply ok_entries0].
    intros tx s Hl. unfold r'. simpl. by apply lookup_app_l_Some.
  - intros tx. unfold r'. simpl. intros [Hl|[-> _]]%lookup_snoc_Some.
    + destruct (ok_pending0 tx Hl) as (a & e' & op & He' & Hpe). exists a, e', op. split; [|done].
      rewrite lookup_insert_ne; [done|]. intros <-. congruence.
    + exists agent, e, (op_counter r). by rewrite lookup_insert_eq.
  - unfold r'. simpl. congruence.
Qed.

Lemma drop_then_start_attach agent r :
  start_attach agent (drop_entry agent r) = start_attach agent r.
Proof. unfold start_attach, set_entry. simpl. by rewrite insert_delete_eq. Qed.

Lemma start_attach_ok r c agent :
  registry_ok r c -> stopped r = false ->
  (forall e, entries r !! agent = Some e -> in_progress e = None) ->
  let res := start_attach agent r in
  (started (note_reserve (fst res) c) < u64_max)%N ->
  registry_ok (snd res) (note_reserve (fst res) c).
Proof.
  intros Hok Hst Hrest. cbv zeta. rewrite <- drop_then_start_attach.
  pose proof (drop_ok r c agent Hok Hrest) as Hd. set (r0 := drop_entry agent r) in *. intros Hmax.
  assert (Hg : session_generation r = gen) by apply (ok_generation _ _ Hok).
  eapply (issue_ok r0 c); try done.
  - apply lookup_delete_eq.
  - unfold started. simpl. lia.
  - simpl. rewrite Hg. intros l [->|?]%elem_of_cons; auto.
  - simpl. auto.
  - simpl. intros w [->|?]%elem_of_cons; auto.
  - simpl. intros l ?. by apply elem_of_cons; right.
  - intros Hp. simpl. split_and!; [|done|].
    + unfold channel_of. rewrite (ok_counter _ _ Hok). pose proof (ok_channels _ _ Hok). lia.
    + eexists. split; [by apply elem_of_cons; left|done].
Qed.

Lemma start_remove_ok r c agent :
  registry_ok r c -> stopped r = false ->
  (forall e, entries r !! agent = Some e -> in_progress e = None) ->
  let res := start_remove agent None r in
  (started (note_begin (fst res) c) < u64_max)%N ->
  registry_ok (snd res) (note_begin (fst res) c).
Proof.
  intros Hok Hst Hrest. cbv zeta. intros Hmax.
  pose proof (drop_ok r c agent Hok Hrest) as Hd.
  assert (Hg : session_generation r = gen) by apply (ok_generation _ _ Hok).
  eapply (issue_ok (drop_entry agent r) c); try done.
  - apply lookup_delete_eq.
  - unfold started. simpl. lia.
  - simpl. auto.
  - simpl. rewrite Hg. intros l [->|?]%elem_of_cons; auto.
  - simpl. auto.
  - simpl. intros l ?. by apply elem_of_cons; right.
  - simpl. by rewrite Permutation_middle.
  - intros Hp. simpl. split_and!; [|done|].
    + unfold channel_of. rewrite (ok_counter _ _ Hok). pose proof (ok_channels _ _ Hok). lia.
    + eexists. split; [by apply elem_of_cons; left|done].
Qed.

(** Cancelling the attach first or last comes to the same. *)
Lemma start_remove_cancels agent tx r :
  tx < length (channels r) ->
  start_remove agent (Some tx) r =
  start_remove agent None (send_replace tx AttachOutcome.Removed (drop_entry agent r)).
Proof.
  intros Hlt. unfold start_remove, send_replace, drop_entry, set_entry. simpl.
  rewrite delete_delete_eq, insert_app_l by done. rewrite length_insert. done.
Qed.

(** ** [stop] *)
Definition told (tx : nat) (e : MemberRuntimeEntry.t) : bool :=
  match in_progress e with Some (_, tx') => (tx' =? tx)%nat | None => false end.

Definition stop_signal (s : AttachSignal.t) : AttachSignal.t :=
  match s with AttachSignal.Pending => AttachSignal.Terminal AttachOutcome.SessionStopped | _ => s end.

Lemma stop_entries_spec es r :
  let r' := run_list stop_entry r es in
  session_generation r' = session_generation r /\ op_counter r' = op_counter r /\
  entries r' = entries r /\ stopped r' = stopped r /\
  forall tx, channels r' !! tx =
    if existsb (told tx) es
    then (fun _ => AttachSignal.Terminal AttachOutcome.SessionStopped) <$> (channels r !! tx)
    else channels r !! tx.
Proof.
  revert r. induction es as [|e es IH]; intros r; [done|]. cbv zeta in *.
  rewrite run_list_cons. destruct (IH (stop_entry r e)) as (-> & -> & -> & -> & Hch).
  assert (Hsame : session_generation (stop_entry r e) = session_generation r /\
    op_counter (stop_entry r e) = op_counter r /\ entries (stop_entry r e) = entries r /\
    stopped (stop_entry r e) = stopped r) by (by destruct e).
  destruct Hsame as (-> & -> & -> & ->). split_and!; try done.
  intros tx. rewrite Hch. simpl. clear.
  assert (Hone : channels (stop_entry r e) !! tx = if told tx e
    then (fun _ => AttachSignal.Terminal AttachOutcome.SessionStopped) <$> (channels r !! tx)
    else channels r !! tx).
  { unfold told. destruct e as [op tx'| |op f tx'|op tx']; simpl; try done;
      (destruct (Nat.eqb_spec tx' tx) as [->|Hne]; [|by apply list_lookup_insert_ne]);
      (destruct (channels r !! tx) as [s|] eqn:E; simpl;
        [apply list_lookup_insert_eq; by eapply lookup_lt_Some
        |rewrite list_insert_ge; [done|by apply lookup_ge_None]]). }
  rewrite Hone. destruct (told tx e), (existsb (told tx) es); simpl; try done.
  by destruct (channels r !! tx).
Qed.

Lemma told_pending r c tx :
  registry_ok r c ->
  existsb (told tx) (map_values (entries r)) = true <-> channels r !! tx = Some AttachSignal.Pending.
Proof.
  intros Hok. rewrite existsb_exists. split.
  - intros (e & Hin%list_elem_of_In%elem_of_map_values & He). destruct Hin as [a Ha].
    unfold told in He. destruct (in_progress e) as [[op tx']|] eqn:Hp; [|done].
    apply Nat.eqb_eq in He as ->.
    by destruct (in_progress_ok _ _ _ _ _ _ (ok_entries _ _ Hok _ _ Ha) Hp).
  - intros (a & e & op & He & Hp)%(ok_pending _ _ Hok). exists e. split.
    + apply list_elem_of_In, elem_of_map_values. by exists a.
    + unfold told. by rewrite Hp, Nat.eqb_refl.
Qed.

Lemma stop_channels r c tx :
  registry_ok r c -> channels (snd (stop r)) !! tx = stop_signal <$> (channels r !! tx).
Proof.
  intros Hok. unfold stop. destruct (stopped r) eqn:Hs; simpl.
  - destruct (channels r !! tx) as [[|o]|] eqn:E; try done.
    destruct (ok_pending _ _ Hok _ E) as (a & e & op & He & _).
    by rewrite (ok_stopped _ _ Hok Hs) in He.
  - destruct (stop_entries_spec (map_values (entries r))
      (mkRegistry (session_generation r) (op_counter r) ∅ true (channels r))) as (_ & _ & _ & _ & ->).
    simpl. pose proof (told_pending r c tx Hok) as Ht.
    destruct (existsb (told tx) (map_values (entries r))).
    + by rewrite (proj1 Ht eq_refl).
    + destruct (channels r !! tx) as [[|o]|]; try done. by discriminate (proj2 Ht eq_refl).
Qed.

Lemma stop_stopped r : stopped (snd (stop r)) = true /\
  (stopped r = false -> entries (snd (stop r)) = ∅) /\
  session_generation (snd (stop r)) = session_generation r /\
  op_counter (snd (stop r)) = op_counter r.
Proof.
  unfold stop. destruct (stopped r) eqn:Hs; simpl; [done|].
  destruct (stop_entries_spec (map_values (entries r))
    (mkRegistry (session_generation r) (op_counter r) ∅ true (channels r))) as (-> & -> & -> & -> & _).
  done.
Qed.

Lemma stop_ok r c : registry_ok r c -> registry_ok (snd (stop r)) c.
Proof.
  intros Hok. pose proof (stop_channels r c) as Hch. destruct (stop_stopped r) as (Hs & He & Hg & Hn).
  assert (Hent : entries (snd (stop r)) = ∅).
  { destruct (stopped r) eqn:E; [|auto]. unfold stop. rewrite E. by apply (ok_stopped _ _ Hok). }
  assert (Hlen : length (channels (snd (stop r))) = length (channels r)).
  { apply Nat.le_antisymm; apply Nat.nlt_ge; intros Hlt.
    - destruct (lookup_lt_is_Some_2 _ _ Hlt) as [s E]. rewrite (Hch _ Hok), lookup_ge_None_2 in E; [done|lia].
    - destruct (lookup_lt_is_Some_2 _ _ Hlt) as [s E]. pose proof (Hch (length (channels (snd (stop r)))) Hok) as H.
      rewrite E, lookup_ge_None_2 in H; [done|lia]. }
  assert (Hw : forall w, waiter_ok r w -> waiter_ok (snd (stop r)) w).
  { intros w [? ?]. split; [done|]. by rewrite Hlen. }
  destruct Hok. split; rewrite ?Hg, ?Hn, ?Hlen, ?Hent; try done.
  - intros l Hl. destruct (ok_leases0 l Hl). auto.
  - auto.
  - intros tx. rewrite Hch by (by split). destruct (channels r !! tx) as [[|o]|]; done.
Qed.

(** ** The calls *)

(** The channel a lease may settle: its entry is still in progress under it. *)
Definition held_attach (l : AttachLease) (r : MemberRuntimeRegistry) : option nat :=
  if bool_decide (lease_generation l = session_generation r) && negb (stopped r)
  then attach_channel l r else None.
Definition held_remove (l : RemoveLease) (r : MemberRuntimeRegistry) : option nat :=
  if bool_decide (remove_generation l = session_generation r) && negb (stopped r)
  then remove_channel l r else None.

(** The two ways of settling it: with an entry left at rest, or with none. *)
Definition settle_with (agent : string) (e : MemberRuntimeEntry.t) (tx : nat) (o : AttachOutcome.t)
    (r : MemberRuntimeRegistry) := send_replace tx o (set_entry agent e r).
Definition settle_drop (agent : string) (tx : nat) (o : AttachOutcome.t) (r : MemberRuntimeRegistry) :=
  send_replace tx o (drop_entry agent r).

Ltac by_lease := unfold commit_ready, commit_failed, finish_remove,
  restore_attach_required_after_remove_persist_error, held_attach, held_remove, owns_attach;
  case_bool_decide; simpl; [destruct (stopped _); simpl; [done|]|done];
  by destruct (attach_channel _ _) || destruct (remove_channel _ _).

Lemma commit_ready_eq l r : commit_ready l r =
  match held_attach l r with
  | Some tx => (true, settle_with (lease_agent_id l) MemberRuntimeEntry.Ready tx AttachOutcome.Ready r)
  | None => (false, r)
  end.
Proof. by_lease. Qed.

Lemma commit_failed_eq l f r : commit_failed l f r =
  match held_attach l r with
  | Some tx => (true, settle_with (lease_agent_id l)
      (MemberRuntimeEntry.Failed (lease_operation_id l) f tx) tx (AttachOutcome.Failed f) r)
  | None => (false, r)
  end.
Proof. by_lease. Qed.

Lemma finish_remove_eq l r : finish_remove l r =
  match held_remove l r with
  | Some tx => (true, settle_drop (remove_agent_id l) tx AttachOutcome.Removed r)
  | None => (false, r)
  end.
Proof. by_lease. Qed.

Lemma restore_eq l f r : restore_attach_required_after_remove_persist_error l f r =
  match held_remove l r with
  | Some tx => (true, settle_with (remove_agent_id l)
      (MemberRuntimeEntry.Failed (remove_operation_id l) f tx) tx (AttachOutcome.Failed f) r)
  | None => (false, r)
  end.
Proof. by_lease. Qed.

Lemma owns_attach_held l r : owns_attach l r = true <-> is_Some (held_attach l r).
Proof.
  unfold owns_attach, held_attach. case_bool_decide; simpl; [|split; [done|by intros []]].
  destruct (stopped r); simpl; [split; [done|by intros []]|].
  destruct (attach_channel l r); split; try done; by intros [].
Qed.

Lemma held_attach_Some l r tx :
  held_attach l r = Some tx ->
  entries r !! lease_agent_id l = Some (MemberRuntimeEntry.Attaching (lease_operation_id l) tx) /\
  stopped r = false.
Proof.
  unfold held_attach, attach_channel. case_bool_decide; simpl; [|done].
  destruct (stopped r); simpl; [done|]. destruct (entries r !! _) as [[op tx'| | |]|]; try done.
  destruct (N.eqb_spec op (lease_operation_id l)) as [->|]; [|done]. by intros [= ->].
Qed.

Lemma held_remove_Some l r tx :
  held_remove l r = Some tx ->
  entries r !! remove_agent_id l = Some (MemberRuntimeEntry.Removing (remove_operation_id l) tx) /\
  stopped r = false.
Proof.
  unfold held_remove, remove_channel. case_bool_decide; simpl; [|done].
  destruct (stopped r); simpl; [done|]. destruct (entries r !! _) as [[| | |op tx']|]; try done.
  destruct (N.eqb_spec op (remove_operation_id l)) as [->|]; [|done]. by intros [= ->].
Qed.

Lemma settle_with_ok r c agent e op tx o e' :
  registry_ok r c -> stopped r = false -> entries r !! agent = Some e ->
  in_progress e = Some (op, tx) ->
  (e' = MemberRuntimeEntry.Ready \/
   exists f, e' = MemberRuntimeEntry.Failed op f tx /\ o = AttachOutcome.Failed f) ->
  registry_ok (settle_with agent e' tx o r) c.
Proof.
  intros Hok Hst He Hp He'.
  assert (Heq : settle_with agent e' tx o r = set_entry agent e' (settle_drop agent tx o r)).
  { unfold settle_with, settle_drop, set_entry, send_replace, drop_entry. simpl.
    by rewrite insert_delete_eq. }
  rewrite Heq. destruct (in_progress_ok _ _ _ _ _ _ (ok_entries _ _ Hok _ _ He) Hp) as [Hc Htx].
  apply rest_ok.
  - by eapply resolve_ok.
  - done.
  - apply lookup_delete_eq.
  - by destruct He' as [->|[f [-> _]]].
  - destruct He' as [->|[f [-> ->]]]; simpl; [done|]. split; [done|].
    apply list_lookup_insert_eq. by eapply lookup_lt_Some.
Qed.

Lemma started_mono st st' : registry_step st st' -> (started (snd st) <= started (snd st'))%N.
Proof.
  intros H. destruct H; simpl; try done.
  - destruct (fst (reserve_attach agent retry r)); unfold started; simpl; lia.
  - destruct (fst (reserve_repair agent r)); unfold started; simpl; lia.
  - destruct (fst (begin_remove agent r)); unfold started; simpl; lia.
Qed.

(** What the two reservations may do: refuse, share a wait, or start. *)
Inductive reserve_shape (agent : string) (r : MemberRuntimeRegistry) :
    ReserveAttach.t * MemberRuntimeRegistry -> Prop :=
| shape_idle x :
    x = ReserveAttach.SessionStopped \/ x = ReserveAttach.AlreadyReady -> reserve_shape agent r (x, r)
| shape_wait x e op tx :
    entries r !! agent = Some e ->
    in_progress e = Some (op, tx) \/ (exists f, e = MemberRuntimeEntry.Failed op f tx) ->
    x = ReserveAttach.Join (mkAttachWaiter op tx) \/ x = ReserveAttach.Removing (mkAttachWaiter op tx) ->
    reserve_shape agent r (x, r)
| shape_start :
    stopped r = false -> (forall e, entries r !! agent = Some e -> in_progress e = None) ->
    reserve_shape agent r (start_attach agent r).

Ltac reserve_cases r agent :=
  destruct (stopped r) eqn:Hs; [apply shape_idle; auto|];
  destruct (entries r !! agent) as [[op tx| |op f tx|op tx]|] eqn:He.

Lemma reserve_attach_shape agent retry r : reserve_shape agent r (reserve_attach agent retry r).
Proof.
  unfold reserve_attach. reserve_cases r agent; try (by apply shape_idle; auto).
  - eapply shape_wait; simpl; eauto.
  - destruct retry; simpl; [by apply shape_start; [|intros ? [= <-]%(eq_trans (eq_sym He))]|].
    eapply shape_wait; simpl; eauto.
  - eapply shape_wait; simpl; eauto.
  - apply shape_start; [done|]. by rewrite He.
Qed.

Lemma reserve_repair_shape agent r : reserve_shape agent r (reserve_repair agent r).
Proof.
  unfold reserve_repair. reserve_cases r agent.
  - eapply shape_wait; simpl; eauto.
  - by apply shape_start; [|intros ? [= <-]%(eq_trans (eq_sym He))].
  - eapply shape_wait; simpl; eauto.
  - eapply shape_wait; simpl; eauto.
  - apply shape_start; [done|]. by rewrite He.
Qed.

Lemma reserve_ok r c agent res :
  registry_ok r c -> reserve_shape agent r res ->
  (started (note_reserve (fst res) c) < u64_max)%N ->
  registry_ok (snd res) (note_reserve (fst res) c).
Proof.
  intros Hok Hres Hmax. destruct Hres as [x Hx|x e op tx He Hp Hx|Hs Hrest].
  - by destruct Hx as [->| ->].
  - pose proof (entry_waiter_ok _ _ _ _ _ _ Hok He Hp).
    destruct Hx as [->| ->]; by apply note_waiter_ok.
  - by apply start_attach_ok.
Qed.

Lemma begin_remove_ok r c agent :
  registry_ok r c -> let res := begin_remove agent r in
  (started (note_begin (fst res) c) < u64_max)%N ->
  registry_ok (snd res) (note_begin (fst res) c).
Proof.
  intros Hok. cbv zeta. unfold begin_remove. destruct (stopped r) eqn:Hs; [done|].
  destruct (entries r !! agent) as [[op tx| |op f tx|op tx]|] eqn:He; intros Hmax; try done.
  - rewrite start_remove_cancels in *
      by (by eapply lookup_lt_Some, in_progress_ok; [apply (ok_entries _ _ Hok), He|]).
    apply start_remove_ok; try done.
    + by eapply (resolve_ok _ _ _ _ op).
    + intros e. simpl. by rewrite lookup_delete_eq.
  - apply start_remove_ok; try done. intros e. by rewrite He; intros [= <-].
  - apply start_remove_ok; try done. intros e. by rewrite He; intros [= <-].
  - apply note_waiter_ok; [done|]. by eapply entry_waiter_ok; [|apply He|left].
Qed.

Lemma registry_step_ok st st' :
  registry_step st st' -> (started (snd st') < u64_max)%N ->
  registry_ok (fst st) (snd st) -> registry_ok (fst st') (snd st').
Proof.
  intros Hstep Hmax Hok. destruct Hstep as [agent retry r c|agent r c|l r c _|l f r c _|agent r c|l r c _|l f r c _|r c];
    simpl in *.
  - apply (reserve_ok r c agent); [done|apply reserve_attach_shape|done].
  - apply (reserve_ok r c agent); [done|apply reserve_repair_shape|done].
  - rewrite commit_ready_eq. destruct (held_attach l r) as [tx|] eqn:Hh; [|done].
    apply held_attach_Some in Hh as [He Hs]. eapply settle_with_ok; eauto; done.
  - rewrite commit_failed_eq. destruct (held_attach l r) as [tx|] eqn:Hh; [|done].
    apply held_attach_Some in Hh as [He Hs]. eapply settle_with_ok; eauto; done.
  - by apply begin_remove_ok.
  - rewrite finish_remove_eq. destruct (held_remove l r) as [tx|] eqn:Hh; [|done].
    apply held_remove_Some in Hh as [He Hs]. eapply resolve_ok; eauto; done.
  - rewrite restore_eq. destruct (held_remove l r) as [tx|] eqn:Hh; [|done].
    apply held_remove_Some in Hh as [He Hs]. eapply settle_with_ok; eauto; done.
  - by apply stop_ok.
Qed.

Lemma steps_ok st st' :
  rtc registry_step st st' -> (started (snd st') < u64_max)%N ->
  registry_ok (fst st) (snd st) -> registry_ok (fst st') (snd st').
Proof.
  intros Hr. induction Hr as [st|st1 st2 st3 Hs Hr IH]; [done|]. intros Hmax Hok.
  apply IH; [done|]. eapply registry_step_ok; [done| |done].
  eapply N.le_lt_trans; [|exact Hmax]. clear -Hr.
  induction Hr as [st|st1 st2 st3 Hs Hr IH]; [done|]. etrans; [by apply started_mono|done].
Qed.

Lemma reachable_registry_ok r c :
  registry_reachable (r, c) -> (started c < u64_max)%N -> registry_ok r c.
Proof. intros Hr Hmax. by apply (steps_ok _ _ Hr Hmax), new_ok. Qed.

(** ** What the waiters are told *)

Definition signal_outcome (s : option AttachSignal.t) : option AttachOutcome.t :=
  match s with Some (AttachSignal.Terminal o) => Some o | _ => None end.

Lemma wait_poll_signal r c w :
  registry_ok r c -> waiter_ok r w -> wait_poll w r = signal_outcome (channels r !! outcome_rx w).
Proof.
  intros Hok [_ Hlt]. unfold wait_poll.
  destruct (lookup_lt_is_Some_2 _ _ Hlt) as [[|o] E]; rewrite E; [|done].
  destruct (ok_pending _ _ Hok _ E) as (a & e & op & He & Hp).
  replace (existsb (holds_sender (outcome_rx w)) (map_values (entries r))) with true; [done|].
  symmetry. apply existsb_exists. exists e. split.
  - apply list_elem_of_In, elem_of_map_values. by exists a.
  - destruct e; simpl in *; simplify_eq; by rewrite ?Nat.eqb_refl.
Qed.

Lemma reserve_keeps agent r res tx o :
  reserve_shape agent r res -> channels r !! tx = Some (AttachSignal.Terminal o) ->
  channels (snd res) !! tx = Some (AttachSignal.Terminal o).
Proof. intros Hres Htx. destruct Hres; simpl; [done..|]. by apply lookup_app_l_Some. Qed.

Lemma settled_elsewhere r c agent e op tx tx' o :
  registry_ok r c -> entries r !! agent = Some e -> in_progress e = Some (op, tx) ->
  channels r !! tx' = Some (AttachSignal.Terminal o) -> tx <> tx'.
Proof.
  intros Hok He Hp Htx' ->. destruct (in_progress_ok _ _ _ _ _ _ (ok_entries _ _ Hok _ _ He) Hp).
  congruence.
Qed.

Lemma begin_remove_keeps agent r c tx o :
  registry_ok r c -> channels r !! tx = Some (AttachSignal.Terminal o) ->
  channels (snd (begin_remove agent r)) !! tx = Some (AttachSignal.Terminal o).
Proof.
  intros Hok Htx. unfold begin_remove. destruct (stopped r); [done|].
  destruct (entries r !! agent) as [[op tx'| |op f tx'|op tx']|] eqn:He; simpl; try done;
    try (by apply lookup_app_l_Some).
  rewrite list_lookup_insert_ne by by eapply settled_elsewhere.
  by apply lookup_app_l_Some.
Qed.

Lemma step_keeps_told st st' tx o :
  registry_step st st' -> registry_ok (fst st) (snd st) ->
  channels (fst st) !! tx = Some (AttachSignal.Terminal o) ->
  channels (fst st') !! tx = Some (AttachSignal.Terminal o).
Proof.
  intros Hstep Hok Htx.
  destruct Hstep as [agent retry r c|agent r c|l r c _|l f r c _|agent r c|l r c _|l f r c _|r c];
    simpl in *.
  - by eapply reserve_keeps, Htx; apply reserve_attach_shape.
  - by eapply reserve_keeps, Htx; apply reserve_repair_shape.
  - rewrite commit_ready_eq. destruct (held_attach l r) as [tx'|] eqn:Hh; [|done].
    apply held_attach_Some in Hh as [He _]. simpl. rewrite list_lookup_insert_ne; [done|].
    by eapply settled_elsewhere.
  - rewrite commit_failed_eq. destruct (held_attach l r) as [tx'|] eqn:Hh; [|done].
    apply held_attach_Some in Hh as [He _]. simpl. rewrite list_lookup_insert_ne; [done|].
    by eapply settled_elsewhere.
  - by eapply begin_remove_keeps.
  - rewrite finish_remove_eq. destruct (held_remove l r) as [tx'|] eqn:Hh; [|done].
    apply held_remove_Some in Hh as [He _]. simpl. rewrite list_lookup_insert_ne; [done|].
    by eapply settled_elsewhere.
  - rewrite restore_eq. destruct (held_remove l r) as [tx'|] eqn:Hh; [|done].
    apply held_remove_Some in Hh as [He _]. simpl. rewrite list_lookup_insert_ne; [done|].
    by eapply settled_elsewhere.
  - by rewrite (stop_channels _ c), Htx.
Qed.

Lemma steps_started st st' :
  rtc registry_step st st' -> (started (snd st) <= started (snd st'))%N.
Proof. induction 1 as [st|st1 st2 st3 Hs _ IH]; [done|]. etrans; [by apply started_mono|done]. Qed.

Lemma steps_keep_told st st' tx o :
  rtc registry_step st st' -> (started (snd st') < u64_max)%N -> registry_ok (fst st) (snd st) ->
  channels (fst st) !! tx = Some (AttachSignal.Terminal o) ->
  channels (fst st') !! tx = Some (AttachSignal.Terminal o).
Proof.
  intros Hr Hmax. induction Hr as [st|st1 st2 st3 Hs Hr IH]; [done|]. intros Hok Htx.
  apply IH; [done| |by eapply step_keeps_told].
  eapply registry_step_ok; [done| |done]. by eapply N.le_lt_trans; [by apply steps_started|].
Qed.

Lemma steps_keep_waiters st st' w :
  rtc registry_step st st' -> w ∈ waiters (snd st) -> w ∈ waiters (snd st').
Proof.
  induction 1 as [st|st1 st2 st3 Hs _ IH]; [done|]. intros Hw. apply IH. clear IH.
  assert (Hres : forall x c, w ∈ waiters c -> w ∈ waiters (note_reserve x c)).
  { intros [] c Hc; simpl; try done; by apply elem_of_cons; right. }
  assert (Hbeg : forall x c, w ∈ waiters c -> w ∈ waiters (note_begin x c)).
  { intros [] c Hc; simpl; try done; by apply elem_of_cons; right. }
  destruct Hs; simpl in *; auto.
Qed.

(** C8. Every waiter is told, once, and never by mistake.  In every state the
    calls of any clients reach (before the 64-bit operation counter wraps), a
    waiter that still sleeps waits for an operation that is in progress for
    some member; a waiter that is told an outcome is told what was sent, not
    that a sender was lost, and is told the same in every later state; and
    stopping the session wakes every sleeper with [SessionStopped] and changes
    no outcome already told. *)
Theorem waiter_told_once r c w :
  registry_reachable (r, c) -> (started c < u64_max)%N -> w ∈ waiters c ->
  match wait_poll w r with
  | None => exists agent,
      snapshot agent r = MemberRuntimeSnapshot.Attaching (waiter_operation_id w) \/
      snapshot agent r = MemberRuntimeSnapshot.Removing (waiter_operation_id w)
  | Some o =>
      channels r !! outcome_rx w = Some (AttachSignal.Terminal o) /\
      forall r' c', rtc registry_step (r, c) (r', c') -> (started c' < u64_max)%N ->
        wait_poll w r' = Some o
  end /\
  wait_poll w (snd (stop r)) = Some (default AttachOutcome.SessionStopped (wait_poll w r)).
Proof.
  intros Hr Hmax Hw. pose proof (reachable_registry_ok _ _ Hr Hmax) as Hok.
  pose proof (ok_waiters _ _ Hok w Hw) as Hwok.
  assert (Hstop : wait_poll w (snd (stop r)) =
    signal_outcome (stop_signal <$> (channels r !! outcome_rx w))).
  { rewrite <- (stop_channels r c) by done. apply (wait_poll_signal _ c).
    - by apply stop_ok.
    - by apply (ok_waiters _ _ (stop_ok _ _ Hok)). }
  rewrite Hstop, (wait_poll_signal r c w) by done.
  destruct Hwok as [Hch Hlt]. destruct (lookup_lt_is_Some_2 _ _ Hlt) as [[|o] E]; rewrite E; simpl.
  - split; [|done]. destruct (ok_pending _ _ Hok _ E) as (a & e & op & He & Hp).
    assert (Hop : op = waiter_operation_id w).
    { destruct (in_progress_ok _ _ _ _ _ _ (ok_entries _ _ Hok _ _ He) Hp) as [Hc _].
      unfold channel_of in *. lia. }
    exists a. unfold snapshot. destruct (stopped r) eqn:Hs.
    { by rewrite (ok_stopped _ _ Hok Hs) in He. }
    rewrite He. destruct e; simpl in Hp; simplify_eq; auto.
  - split; [|done]. split; [done|]. intros r' c' Hsteps Hmax'.
    rewrite (wait_poll_signal r' c').
    + pose proof (steps_keep_told _ _ _ _ Hsteps Hmax' Hok E) as H'. simpl in H'. by rewrite H'.
    + by apply (steps_ok _ _ Hsteps).
    + apply (ok_waiters r' c' (steps_ok _ _ Hsteps Hmax' Hok)). by apply (steps_keep_waiters _ _ _ Hsteps).
Qed.

(** ** Who may commit *)

Lemma lease_distinct r c l l' :
  registry_ok r c -> l ∈ leases c -> l' ∈ leases c ->
  lease_operation_id l = lease_operation_id l' -> l = l'.
Proof.
  intros Hok. apply NoDup_map_inj. apply (proj1 (list.NoDup_app _ _) (ok_distinct _ _ Hok)).
Qed.

Lemma lease_not_remove r c l l' :
  registry_ok r c -> l ∈ leases c -> l' ∈ removes c ->
  lease_operation_id l <> remove_operation_id l'.
Proof.
  intros Hok Hl Hl' E. destruct (proj1 (list.NoDup_app _ _) (ok_distinct _ _ Hok)) as (_ & Hdis & _).
  apply (Hdis (lease_operation_id l)); [by apply list_elem_of_fmap_2|].
  rewrite E. by apply list_elem_of_fmap_2.
Qed.

Lemma owned_iff_pending r c l :
  registry_ok r c -> l ∈ leases c ->
  owns_attach l r = true <-> channels r !! outcome_rx (lease_waiter l) = Some AttachSignal.Pending.
Proof.
  intros Hok Hl. destruct (ok_leases _ _ Hok l Hl) as [Hg [Hch _]].
  rewrite owns_attach_held. split.
  - intros [tx [He _]%held_attach_Some]. apply (ok_entries _ _ Hok) in He as (Hc & Htx & _).
    replace (outcome_rx (lease_waiter l)) with tx; [done|]. unfold channel_of, lease_operation_id in *. lia.
  - intros E. destruct (ok_pending _ _ Hok _ E) as (a & e & op & He & Hp).
    pose proof (ok_entries _ _ Hok _ _ He) as Heok.
    destruct (in_progress_ok _ _ _ _ _ _ Heok Hp) as [Hc _].
    assert (op = lease_operation_id l) as -> by (unfold channel_of, lease_operation_id in *; lia).
    assert (Hs : stopped r = false).
    { destruct (stopped r) eqn:Hs; [|done]. by rewrite (ok_stopped _ _ Hok Hs) in He. }
    destruct e as [op tx| | |op tx]; simpl in Hp; try done; injection Hp as -> ->;
      destruct Heok as (_ & _ & l' & Hl' & <- & Ho).
    + assert (l' = l) as -> by by eapply lease_distinct. unfold held_attach, attach_channel.
      rewrite Hg, (ok_generation _ _ Hok), Hs, bool_decide_eq_true_2 by done. simpl.
      by rewrite He, N.eqb_refl.
    + by destruct (lease_not_remove _ _ _ _ Hok Hl Hl').
Qed.

(** Settling an operation tells its waiters and no other. *)
Lemma settled_polls r c l w o e :
  registry_ok r c -> l ∈ leases c -> w ∈ waiters c -> owns_attach l r = true ->
  registry_ok (settle_with (lease_agent_id l) e (outcome_rx (lease_waiter l)) o r) c ->
  wait_poll w (settle_with (lease_agent_id l) e (outcome_rx (lease_waiter l)) o r) =
  if decide (waiter_operation_id w = lease_operation_id l) then Some o else wait_poll w r.
Proof.
  intros Hok Hl Hw Hown Hok'. pose proof (proj1 (owned_iff_pending _ _ _ Hok Hl) Hown) as Hp.
  rewrite (wait_poll_signal _ _ _ Hok' (ok_waiters _ _ Hok' w Hw)),
    (wait_poll_signal _ _ _ Hok (ok_waiters _ _ Hok w Hw)). simpl.
  destruct (ok_leases _ _ Hok l Hl) as [_ [Hch Hlt]], (ok_waiters _ _ Hok w Hw) as [Hcw _].
  unfold channel_of, lease_operation_id in *. case_decide as E.
  - replace (outcome_rx w) with (outcome_rx (lease_waiter l)) by lia.
    by rewrite list_lookup_insert_eq.
  - rewrite list_lookup_insert_ne; [done|]. intros E'. apply E. rewrite <- Hcw, <- Hch. by rewrite E'.
Qed.

Lemma settled_snapshot agent e tx o r :
  stopped r = false ->
  snapshot agent (settle_with agent e tx o r) = snapshot agent (set_entry agent e r) /\
  forall a, a <> agent -> snapshot a (settle_with agent e tx o r) = snapshot a r.
Proof.
  intros Hs. split; [done|]. intros a Ha. unfold snapshot. simpl. by rewrite lookup_insert_ne.
Qed.

(** Only the owner settles an attach, and once.  A lease handed out that
    still owns its attach is the only lease of its member that does; committing
    it succeeds, puts the member in the state committed and tells the outcome to
    exactly the waiters of its operation.  A lease that lost it (committed,
    removed, superseded or stopped) commits nothing and changes nothing, now or
    in any later state. *)
Theorem attach_owner_commits r c l f :
  registry_reachable (r, c) -> (started c < u64_max)%N -> l ∈ leases c ->
  let told o w r' := wait_poll w r' =
    if decide (waiter_operation_id w = lease_operation_id l) then Some o else wait_poll w r in
  if owns_attach l r then
    snapshot (lease_agent_id l) r = MemberRuntimeSnapshot.Attaching (lease_operation_id l) /\
    (forall l2, l2 ∈ leases c -> lease_agent_id l2 = lease_agent_id l ->
       owns_attach l2 r = true -> l2 = l) /\
    (exists r', commit_ready l r = (true, r') /\
       snapshot (lease_agent_id l) r' = MemberRuntimeSnapshot.Ready /\
       forall w, w ∈ waiters c -> told AttachOutcome.Ready w r') /\
    (exists r', commit_failed l f r = (true, r') /\
       snapshot (lease_agent_id l) r' = MemberRuntimeSnapshot.Failed (lease_operation_id l) f /\
       forall w, w ∈ waiters c -> told (AttachOutcome.Failed f) w r')
  else
    forall r' c', rtc registry_step (r, c) (r', c') -> (started c' < u64_max)%N ->
      commit_ready l r' = (false, r') /\ commit_failed l f r' = (false, r').
Proof.
  intros Hr Hmax Hl told. pose proof (reachable_registry_ok _ _ Hr Hmax) as Hok.
  destruct (owns_attach l r) eqn:Hown.
  - destruct (proj1 (owns_attach_held l r) Hown) as [tx Hh].
    destruct (held_attach_Some _ _ _ Hh) as [He Hs].
    assert (Hrx : outcome_rx (lease_waiter l) = tx).
    { pose proof (ok_entries _ _ Hok _ _ He) as (Hc & _). destruct (ok_leases _ _ Hok l Hl) as [_ [Hch _]].
      unfold channel_of, lease_operation_id in *. lia. }
    assert (Hset : forall e o, (e = MemberRuntimeEntry.Ready \/ exists f',
        e = MemberRuntimeEntry.Failed (lease_operation_id l) f' tx /\ o = AttachOutcome.Failed f') ->
      registry_ok (settle_with (lease_agent_id l) e tx o r) c).
    { intros e o He'. eapply settle_with_ok; eauto; done. }
    split_and!.
    + unfold snapshot. by rewrite Hs, He.
    + intros l2 Hl2 Ha Hown2. destruct (proj1 (owns_attach_held l2 r) Hown2) as [tx2 Hh2].
      destruct (held_attach_Some _ _ _ Hh2) as [He2 _]. rewrite Ha, He in He2.
      injection He2 as Hop _. by apply (lease_distinct r c).
    + eexists. rewrite commit_ready_eq, Hh. split; [done|]. split.
      * unfold snapshot. simpl. by rewrite Hs, lookup_insert_eq.
      * intros w Hw. unfold told. rewrite <- Hrx in *. apply (settled_polls r c); auto.
    + eexists. rewrite commit_failed_eq, Hh. split; [done|]. split.
      * unfold snapshot. simpl. by rewrite Hs, lookup_insert_eq.
      * intros w Hw. unfold told. rewrite <- Hrx in *. apply (settled_polls r c); eauto.
  - intros r' c' Hsteps Hmax'. pose proof (steps_ok _ _ Hsteps Hmax' Hok) as Hok'. simpl in Hok'.
    assert (Hlost : held_attach l r' = None).
    { destruct (held_attach l r') as [tx|] eqn:Hh; [|done]. exfalso.
      apply held_attach_Some in Hh as [(Hc & Htx & _)%(ok_entries _ _ Hok') _].
      destruct (ok_leases _ _ Hok l Hl) as [_ [Hch Hlt]].
      assert (tx = outcome_rx (lease_waiter l)) as -> by (unfold channel_of, lease_operation_id in *; lia).
      destruct (lookup_lt_is_Some_2 _ _ Hlt) as [[|o] E].
      - by rewrite (proj2 (owned_iff_pending _ _ _ Hok Hl) E) in Hown.
      - pose proof (steps_keep_told _ _ _ _ Hsteps Hmax' Hok E) as E'. simpl in E'. congruence. }
    by rewrite commit_ready_eq, commit_failed_eq, Hlost.
Qed.

(** ** The life of a member *)

(** The diagram: what one call may do to one member's runtime, with [op] the id
    of the operation it may start. *)
Inductive phase_step (op : N) : MemberRuntimeSnapshot.t -> MemberRuntimeSnapshot.t -> Prop :=
| phase_attach s :
    s = MemberRuntimeSnapshot.Absent \/ s = MemberRuntimeSnapshot.Ready \/
    (exists op' f, s = MemberRuntimeSnapshot.Failed op' f) ->
    phase_step op s (MemberRuntimeSnapshot.Attaching op)
| phase_ready op' :
    phase_step op (MemberRuntimeSnapshot.Attaching op') MemberRuntimeSnapshot.Ready
| phase_failed op' f :
    phase_step op (MemberRuntimeSnapshot.Attaching op') (MemberRuntimeSnapshot.Failed op' f)
| phase_remove s :
    s = MemberRuntimeSnapshot.Ready \/ (exists op', s = MemberRuntimeSnapshot.Attaching op') \/
    (exists op' f, s = MemberRuntimeSnapshot.Failed op' f) ->
    phase_step op s (MemberRuntimeSnapshot.Removing op)
| phase_removed op' :
    phase_step op (MemberRuntimeSnapshot.Removing op') MemberRuntimeSnapshot.Absent
| phase_restored op' f :
    phase_step op (MemberRuntimeSnapshot.Removing op') (MemberRuntimeSnapshot.Failed op' f).

(** A call moves one member along the diagram, or moves none. *)
Definition moves_one (op : N) (r r' : MemberRuntimeRegistry) : Prop :=
  exists agent,
    (snapshot agent r' = snapshot agent r \/ phase_step op (snapshot agent r) (snapshot agent r')) /\
    forall a, a <> agent -> snapshot a r' = snapshot a r.

Lemma moves_none op r : moves_one op r r.
Proof. exists "". by split; [left|]. Qed.

Lemma snapshot_live agent r e :
  stopped r = false -> entries r !! agent = e ->
  snapshot agent r =
  match e with
  | None => MemberRuntimeSnapshot.Absent
  | Some (MemberRuntimeEntry.Attaching op _) => MemberRuntimeSnapshot.Attaching op
  | Some MemberRuntimeEntry.Ready => MemberRuntimeSnapshot.Ready
  | Some (MemberRuntimeEntry.Failed op f _) => MemberRuntimeSnapshot.Failed op f
  | Some (MemberRuntimeEntry.Removing op _) => MemberRuntimeSnapshot.Removing op
  end.
Proof. intros Hs He. unfold snapshot. by rewrite Hs, He. Qed.

Lemma moves_entry op agent r r' :
  stopped r = false -> stopped r' = false ->
  (forall a, a <> agent -> entries r' !! a = entries r !! a) ->
  (snapshot agent r' = snapshot agent r \/ phase_step op (snapshot agent r) (snapshot agent r')) ->
  moves_one op r r'.
Proof.
  intros Hs Hs' Hother Hp. exists agent. split; [done|]. intros a Ha.
  unfold snapshot. by rewrite Hs, Hs', Hother.
Qed.

Lemma start_moves agent r :
  stopped r = false -> (forall e, entries r !! agent = Some e -> in_progress e = None) ->
  moves_one (op_counter r) r (snd (start_attach agent r)).
Proof.
  intros Hs Hrest. eapply moves_entry; try done.
  - intros a Ha. simpl. by apply lookup_insert_ne.
  - right. rewrite (snapshot_live agent (snd (start_attach agent r)) _ Hs (lookup_insert_eq _ _ _)).
    apply phase_attach. rewrite (snapshot_live agent r _ Hs eq_refl).
    destruct (entries r !! agent) as [[op tx| |op f tx|op tx]|] eqn:He; auto.
    + by specialize (Hrest _ eq_refl).
    + right; right. by do 2 eexists.
    + by specialize (Hrest _ eq_refl).
Qed.

Lemma reserve_moves agent r res :
  reserve_shape agent r res -> moves_one (op_counter r) r (snd res).
Proof. intros Hres. destruct Hres; [apply moves_none..|]. by apply start_moves. Qed.

Lemma begin_remove_moves agent r : moves_one (op_counter r) r (snd (begin_remove agent r)).
Proof.
  unfold begin_remove. destruct (stopped r) eqn:Hs; [apply moves_none|].
  assert (Hgo : forall cancelled e, entries r !! agent = Some e ->
    (forall op tx, e <> MemberRuntimeEntry.Removing op tx) ->
    moves_one (op_counter r) r (snd (start_remove agent cancelled r))).
  { intros cancelled e He Hne. set (r' := snd (start_remove agent cancelled r)).
    assert (Hr' : entries r' = <[agent := MemberRuntimeEntry.Removing (op_counter r) (length (channels r))]>
        (delete agent (entries r)) /\ stopped r' = false) by (by destruct cancelled).
    destruct Hr' as [Hent Hs']. eapply (moves_entry _ agent); try done.
    - intros a Ha. by rewrite Hent, lookup_insert_ne, lookup_delete_ne.
    - right. rewrite (snapshot_live agent r' (Some (MemberRuntimeEntry.Removing (op_counter r)
        (length (channels r)))) Hs') by (by rewrite Hent, lookup_insert_eq).
      apply phase_remove. rewrite (snapshot_live agent r _ Hs He).
      destruct e as [op tx| |op f tx|op tx]; eauto. by destruct (Hne op tx). }
  destruct (entries r !! agent) as [[op tx| |op f tx|op tx]|]; try apply moves_none;
    by eapply Hgo.
Qed.

Lemma settle_moves n agent r e' tx o e :
  stopped r = false -> entries r !! agent = Some e ->
  phase_step n (snapshot agent r) (snapshot agent (settle_with agent e' tx o r)) ->
  moves_one n r (settle_with agent e' tx o r).
Proof.
  intros Hs He Hp. eapply (moves_entry _ agent); try done; [|by right].
  intros a Ha. simpl. by apply lookup_insert_ne.
Qed.

Ltac by_settle Hh Hs He :=
  simpl; eapply settle_moves; [exact Hs|exact He|];
  rewrite (snapshot_live _ _ _ Hs He);
  unfold snapshot; simpl; rewrite Hs, lookup_insert_eq; constructor.

Lemma step_moves st st' :
  registry_step st st' ->
  stopped (fst st) = false /\ stopped (fst st') = true \/
  moves_one (op_counter (fst st)) (fst st) (fst st').
Proof.
  intros Hstep.
  destruct Hstep as [agent retry r c|agent r c|l r c _|l f r c _|agent r c|l r c _|l f r c _|r c]; simpl.
  - right. apply (reserve_moves agent), reserve_attach_shape.
  - right. apply (reserve_moves agent), reserve_repair_shape.
  - right. rewrite commit_ready_eq. destruct (held_attach l r) as [tx|] eqn:Hh; [|apply moves_none].
    apply held_attach_Some in Hh as [He Hs]. by_settle Hh Hs He.
  - right. rewrite commit_failed_eq. destruct (held_attach l r) as [tx|] eqn:Hh; [|apply moves_none].
    apply held_attach_Some in Hh as [He Hs]. by_settle Hh Hs He.
  - right. apply begin_remove_moves.
  - right. rewrite finish_remove_eq. destruct (held_remove l r) as [tx|] eqn:Hh; [|apply moves_none].
    apply held_remove_Some in Hh as [He Hs]. eapply (moves_entry _ (remove_agent_id l)); try done.
    + intros a Ha. by apply lookup_delete_ne.
    + right. rewrite (snapshot_live _ _ _ Hs He). unfold snapshot. simpl.
      rewrite Hs, lookup_delete_eq. constructor.
  - right. rewrite restore_eq. destruct (held_remove l r) as [tx|] eqn:Hh; [|apply moves_none].
    apply held_remove_Some in Hh as [He Hs]. by_settle Hh Hs He.
  - destruct (stopped r) eqn:Hs; [right|left; by split; [|apply stop_stopped]].
    unfold stop. rewrite Hs. apply moves_none.
Qed.

(** The registry refines the life cycle of a member.  In any state reached,
    a call by any client is either the first [stop], after which every member
    reads as stopped; or it moves at most one member, along the diagram
    [phase_step] (absent, failed and ready runtimes may be attached, only an
    attaching one becomes ready or fails, anything present may be removed,
    only a removal ends absent or is restored as failed), under an operation
    id larger than every one handed out; all other members read as before. *)
Theorem lifecycle_refines r c r' c' :
  registry_reachable (r, c) -> (started c' < u64_max)%N -> registry_step (r, c) (r', c') ->
  (stopped r = false /\ stopped r' = true /\
     forall agent, snapshot agent r' = MemberRuntimeSnapshot.SessionStopped) \/
  exists op, moves_one op r r' /\
    (forall l, l ∈ leases c -> (lease_operation_id l < op)%N) /\
    (forall l, l ∈ removes c -> (remove_operation_id l < op)%N).
Proof.
  intros Hr Hmax Hstep. pose proof (started_mono _ _ Hstep) as Hle. simpl in Hle.
  assert (Hok : registry_ok r c) by (apply (reachable_registry_ok _ _ Hr); lia).
  destruct (step_moves _ _ Hstep) as [[Hs Hs']|Hmv]; simpl in *.
  - left. split_and!; try done. intros agent. unfold snapshot. by rewrite Hs'.
  - right. exists (op_counter r). split; [done|]. rewrite (ok_counter _ _ Hok). split.
    + intros l Hl. destruct (ok_leases _ _ Hok l Hl) as [_ [Hch Hlt]].
      pose proof (ok_channels _ _ Hok). unfold channel_of, lease_operation_id in *. lia.
    + intros l Hl. destruct (ok_removes _ _ Hok l Hl). lia.
Qed.
End Registry.

(** ** Witnesses: a member attached by one caller while another waits *)

Definition demo_reg0 : MemberRuntimeRegistry := MemberRuntimeRegistry_new "g".
Definition demo_attach : ReserveAttach.t * MemberRuntimeRegistry := reserve_attach "m" false demo_reg0.
Definition demo_lease : AttachLease := mkAttachLease "g" "m" (mkAttachWaiter 1 0).
Definition demo_clients1 : Clients := mkClients [demo_lease] [] [lease_waiter demo_lease].
Definition demo_reg1 : MemberRuntimeRegistry := snd demo_attach.
Definition demo_clients2 : Clients :=
  mkClients [demo_lease] [] [mkAttachWaiter 1 0; lease_waiter demo_lease].

Lemma demo_attaching_reachable : registry_reachable "g" (demo_reg1, demo_clients2).
Proof.
  eapply rtc_l; [exact (step_reserve "g" "m" false demo_reg0 (mkClients [] [] []))|].
  eapply rtc_l; [exact (step_reserve "g" "m" false demo_reg1 demo_clients1)|]. apply rtc_refl.
Qed.

Lemma waiter_told_once_witness :
  wait_poll (mkAttachWaiter 1 0) demo_reg1 = None /\
  wait_poll (mkAttachWaiter 1 0) (snd (stop demo_reg1)) = Some AttachOutcome.SessionStopped.
Proof.
  assert (Hmax : (started demo_clients2 < u64_max)%N) by (vm_compute; reflexivity).
  assert (Hw : mkAttachWaiter 1 0 ∈ waiters demo_clients2) by (apply elem_of_cons; left; reflexivity).
  split; [vm_compute; reflexivity|].
  exact (proj2 (waiter_told_once "g" demo_reg1 demo_clients2 (mkAttachWaiter 1 0)
    demo_attaching_reachable Hmax Hw)).
Defined.

Lemma attach_owner_commits_witness :
  exists r', commit_ready demo_lease demo_reg1 = (true, r') /\
    snapshot "m" r' = MemberRuntimeSnapshot.Ready.
Proof.
  assert (Hmax : (started demo_clients2 < u64_max)%N) by (vm_compute; reflexivity).
  assert (Hl : demo_lease ∈ leases demo_clients2) by (apply elem_of_cons; left; reflexivity).
  destruct (attach_owner_commits "g" demo_reg1 demo_clients2 demo_lease
    (mkMemberRuntimeFailure "spawn" "no binary") demo_attaching_reachable Hmax Hl)
    as (_ & _ & (r' & Hc & Hs & _) & _).
  exists r'. split; [exact Hc|exact Hs].
Defined.

Lemma lifecycle_refines_witness :
  exists op, moves_one op demo_reg1 (snd (begin_remove "m" demo_reg1)) /\ (1 < op)%N.
Proof.
  destruct (lifecycle_refines "g" demo_reg1 demo_clients2 (snd (begin_remove "m" demo_reg1))
    (note_begin (fst (begin_remove "m" demo_reg1)) demo_clients2) demo_attaching_reachable
    ltac:(vm_compute; reflexivity) (step_remove "g" "m" demo_reg1 demo_clients2))
    as [(_ & Hs & _)|(op & Hmv & Hop & _)].
  - vm_compute in Hs. discriminate Hs.
  - exists op. split; [exact Hmv|]. apply (Hop demo_lease). apply elem_of_cons. left. reflexivity.
Defined.
