(* ===== verification/TurnClaims.v ===== *)
(** * The turn claims of the conversation runtime
    ([crates/tjuaeui-conversation/src/runtime_state.rs])

    [ConversationRuntimeStateService] admits one turn per conversation at a
    time.  The caller that claims it holds a [TurnClaim], which gives the
    conversation back when released or dropped; whoever waits for it sleeps on
    [release_notify].  The service also keeps the marks of conversations being
    deleted or cancelled and of the shutdown.

    [releases] counts the calls of [notify_waiters]: a [Notified] future is
    woken by every call made after it was created, whether or not it was polled
    in between. *)

From S2P Require Import Prelude.

(** ** Data *)

Module ConversationStatus.
Inductive t : Type := Pending | Running | Finished.
#[export] Instance t_eq_dec : EqDecision t.
Proof. solve_decision. Defined.
End ConversationStatus.
Export (hints) ConversationStatus.

Module ConversationRuntimeStateKind.
Inductive t : Type := Idle | Starting | Running | Cancelling | WaitingConfirmation.
#[export] Instance t_eq_dec : EqDecision t.
Proof. solve_decision. Defined.
End ConversationRuntimeStateKind.
Export (hints) ConversationRuntimeStateKind.

Module RuntimeLifecycleState.
Inductive t : Type := Active | Deleting | Cancelling | ShuttingDown.
End RuntimeLifecycleState.

(** Of the errors of the crate, those the service returns. *)
Module ConversationError.
Inductive t : Type :=
| Busy (reason : string)
| Internal (reason : string).
End ConversationError.

Record ConversationRuntimeSummary : Type := mkSummary {
  state : ConversationRuntimeStateKind.t;
  can_send_message : bool;
  has_task : bool;
  task_status : option ConversationStatus.t;
  is_processing : bool;
  pending_confirmations : nat;
  summary_turn_id : option string;
}.

Record ConversationRuntimeState : Type := mkRuntimeState {
  active_turns : gmap string string;
  deleting_conversations : gset string;
  cancelling_conversations : gset string;
  shutting_down : bool;
}.

Definition ConversationRuntimeState_default : ConversationRuntimeState :=
  mkRuntimeState ∅ ∅ ∅ false.

(** The service: the mutex with what it guards, and [release_notify]. *)
Record ConversationRuntimeStateService : Type := mkService {
  locked : ConversationRuntimeState;
  poisoned : bool;
  releases : nat;
}.

Definition ConversationRuntimeStateService_default : ConversationRuntimeStateService :=
  mkService ConversationRuntimeState_default false 0.

(** [Mutex::lock] fails when the mutex is poisoned. *)
Definition lock (s : ConversationRuntimeStateService) : option ConversationRuntimeState :=
  if poisoned s then None else Some (locked s).
Definition set_locked (st : ConversationRuntimeState) (s : ConversationRuntimeStateService) :=
  mkService st (poisoned s) (releases s).
Definition notify_waiters (s : ConversationRuntimeStateService) :=
  mkService (locked s) (poisoned s) (S (releases s)).

Record TurnClaim : Type := mkTurnClaim {
  conversation_id : string;
  turn_id : string;
  released : bool;
}.

(** ** The service *)

Definition try_claim_turn (conversation turn : string) (s : ConversationRuntimeStateService)
    : Result TurnClaim ConversationError.t * ConversationRuntimeStateService :=
  match lock s with
  | None => (Err (ConversationError.Internal "conversation runtime state lock poisoned"), s)
  | Some st =>
      if shutting_down st then (Err (ConversationError.Busy "对话运行时正在关闭"), s)
      else if bool_decide (conversation ∈ deleting_conversations st)
      then (Err (ConversationError.Busy ("对话 " +:+ conversation +:+ " 正在删除")), s)
      else if bool_decide (is_Some (active_turns st !! conversation))
      then (Err (ConversationError.Busy ("对话 " +:+ conversation +:+ " 已在运行")), s)
      else
        (Ok (mkTurnClaim conversation turn false),
         set_locked (mkRuntimeState (<[conversation := turn]> (active_turns st))
           (deleting_conversations st) (cancelling_conversations st) (shutting_down st)) s)
  end.

Definition is_claimed (conversation : string) (s : ConversationRuntimeStateService) : bool :=
  match lock s with
  | Some st => bool_decide (is_Some (active_turns st !! conversation))
  | None => false
  end.

Definition active_turn_id_for (conversation : string) (s : ConversationRuntimeStateService)
    : option string :=
  match lock s with
  | Some st => active_turns st !! conversation
  | None => None
  end.

Definition mark_deleting (conversation : string) (s : ConversationRuntimeStateService)
    : bool * ConversationRuntimeStateService :=
  match lock s with
  | Some st =>
      (bool_decide (is_Some (active_turns st !! conversation)),
       set_locked (mkRuntimeState (active_turns st) ({[conversation]} ∪ deleting_conversations st)
         (cancelling_conversations st) (shutting_down st)) s)
  | None => (false, s)
  end.

Definition clear_deleting (conversation : string) (s : ConversationRuntimeStateService)
    : ConversationRuntimeStateService :=
  match lock s with
  | Some st =>
      set_locked (mkRuntimeState (active_turns st) (deleting_conversations st ∖ {[conversation]})
        (cancelling_conversations st) (shutting_down st)) s
  | None => s
  end.

Definition is_deleting (conversation : string) (s : ConversationRuntimeStateService) : bool :=
  match lock s with
  | Some st => bool_decide (conversation ∈ deleting_conversations st)
  | None => false
  end.

Definition mark_cancelling (conversation : string) (s : ConversationRuntimeStateService)
    : ConversationRuntimeStateService :=
  match lock s with
  | Some st =>
      set_locked (mkRuntimeState (active_turns st) (deleting_conversations st)
        ({[conversation]} ∪ cancelling_conversations st) (shutting_down st)) s
  | None => s
  end.

Definition clear_cancelling (conversation : string) (s : ConversationRuntimeStateService)
    : ConversationRuntimeStateService :=
  match lock s with
  | Some st =>
      set_locked (mkRuntimeState (active_turns st) (deleting_conversations st)
        (cancelling_conversations st ∖ {[conversation]}) (shutting_down st)) s
  | None => s
  end.

Definition is_cancelling (conversation : string) (s : ConversationRuntimeStateService) : bool :=
  match lock s with
  | Some st => bool_decide (conversation ∈ cancelling_conversations st)
  | None => false
  end.

Definition mark_shutting_down (s : ConversationRuntimeStateService)
    : nat * ConversationRuntimeStateService :=
  match lock s with
  | Some st =>
      (size (active_turns st),
       set_locked (mkRuntimeState (active_turns st) (deleting_conversations st)
         (cancelling_conversations st) true) s)
  | None => (0, s)
  end.

Definition is_shutting_down (s : ConversationRuntimeStateService) : bool :=
  match lock s with Some st => shutting_down st | None => true end.

Definition lifecycle_for (conversation : string) (s : ConversationRuntimeStateService)
    : RuntimeLifecycleState.t :=
  match lock s with
  | Some st =>
      if shutting_down st then RuntimeLifecycleState.ShuttingDown
      else if bool_decide (conversation ∈ deleting_conversations st)
      then RuntimeLifecycleState.Deleting
      else if bool_decide (conversation ∈ cancelling_conversations st)
      then RuntimeLifecycleState.Cancelling
      else RuntimeLifecycleState.Active
  | None => RuntimeLifecycleState.ShuttingDown
  end.

Definition summary_from_parts (conversation : string) (status : option ConversationStatus.t)
    (task : bool) (pending : nat) (s : ConversationRuntimeStateService) : ConversationRuntimeSummary :=
  let '(active_turn, cancelling) :=
    match lock s with
    | Some st => (active_turns st !! conversation,
                  bool_decide (conversation ∈ cancelling_conversations st))
    | None => (None, false)
    end in
  let claimed := match active_turn with Some _ => true | None => false end in
  let running := bool_decide (status = Some ConversationStatus.Running) in
  let kind :=
    if (0 <? pending)%nat then ConversationRuntimeStateKind.WaitingConfirmation
    else if cancelling then ConversationRuntimeStateKind.Cancelling
    else if claimed && negb running then ConversationRuntimeStateKind.Starting
    else if claimed || running then ConversationRuntimeStateKind.Running
    else ConversationRuntimeStateKind.Idle in
  let processing := negb (bool_decide (kind = ConversationRuntimeStateKind.Idle)) in
  mkSummary kind (negb processing) task status processing pending active_turn.

(** [ConversationRuntimeStateService::release]. *)
Definition release_turn (conversation turn : string) (s : ConversationRuntimeStateService)
    : bool * ConversationRuntimeStateService :=
  match lock s with
  | None => (false, s)
  | Some st =>
      match active_turns st !! conversation with
      | Some active =>
          if bool_decide (active = turn) then
            (bool_decide (conversation ∈ deleting_conversations st),
             notify_waiters (set_locked (mkRuntimeState (delete conversation (active_turns st))
               (deleting_conversations st ∖ {[conversation]})
               (cancelling_conversations st ∖ {[conversation]}) (shutting_down st)) s))
          else (false, s)
      | None => (false, s)
      end
  end.

(** ** [TurnClaim]

    [alive] tells whether the service still exists ([Weak::upgrade]). *)
Definition release_inner (alive : bool) (c : TurnClaim) (s : ConversationRuntimeStateService)
    : bool * TurnClaim * ConversationRuntimeStateService :=
  if released c then (false, c, s)
  else
    let '(was_deleting, s) :=
      if alive then release_turn (conversation_id c) (turn_id c) s else (false, s) in
    (was_deleting, mkTurnClaim (conversation_id c) (turn_id c) true, s).

Definition release (alive : bool) (c : TurnClaim) (s : ConversationRuntimeStateService) :=
  release_inner alive c s.

Definition release_for_turn (alive : bool) (turn : string) (c : TurnClaim)
    (s : ConversationRuntimeStateService) : bool * TurnClaim * ConversationRuntimeStateService :=
  if negb (bool_decide (turn_id c = turn)) then (false, c, s) else release_inner alive c s.

(** [Drop for TurnClaim]. *)
Definition drop_claim (alive : bool) (c : TurnClaim) (s : ConversationRuntimeStateService)
    : ConversationRuntimeStateService := snd (release_inner alive c s).

(** ** [wait_until_unclaimed]

    The loop arms a [Notified] future, then checks, then sleeps on the future;
    other calls may come between any two of these. *)
Inductive WaitState : Type :=
| Arming
| Armed (notified : nat)
| Sleeping (notified : nat)
| Returned.

Definition wait_step (conversation : string) (s : ConversationRuntimeStateService) (w : WaitState)
    : WaitState :=
  match w with
  | Arming => Armed (releases s)
  | Armed n => if is_claimed conversation s then Sleeping n else Returned
  | Sleeping n => if (n <? releases s)%nat then Arming else Sleeping n
  | Returned => Returned
  end.

(** ** Runs

    The service together with the claims its callers hold. *)
Definition live (l : list TurnClaim) : list TurnClaim := List.filter (fun c => negb (released c)) l.

Definition Held : Type := ConversationRuntimeStateService * list TurnClaim.

Inductive claim_step : Held -> Held -> Prop :=
| claim_try conversation turn s l :
    claim_step (s, l)
      (snd (try_claim_turn conversation turn s),
       match fst (try_claim_turn conversation turn s) with Ok c => c :: l | Err _ => l end)
| claim_release c s l l' s' c' b :
    l ≡ₚ c :: l' -> release true c s = (b, c', s') -> claim_step (s, l) (s', c' :: l')
| claim_release_for turn c s l l' s' c' b :
    l ≡ₚ c :: l' -> release_for_turn true turn c s = (b, c', s') -> claim_step (s, l) (s', c' :: l')
| claim_drop c s l l' :
    l ≡ₚ c :: l' -> claim_step (s, l) (drop_claim true c s, l')
| claim_mark_deleting conversation s l : claim_step (s, l) (snd (mark_deleting conversation s), l)
| claim_clear_deleting conversation s l : claim_step (s, l) (clear_deleting conversation s, l)
| claim_mark_cancelling conversation s l : claim_step (s, l) (mark_cancelling conversation s, l)
| claim_clear_cancelling conversation s l : claim_step (s, l) (clear_cancelling conversation s, l)
| claim_shut_down s l : claim_step (s, l) (snd (mark_shutting_down s), l).

Definition claims_reachable (st : Held) : Prop :=
  rtc claim_step (ConversationRuntimeStateService_default, []) st.

(** The active turns are exactly the unreleased claims. *)
Definition claims_ok (st : Held) : Prop :=
  poisoned (fst st) = false /\
  map_to_list (active_turns (locked (fst st))) ≡ₚ
    map (fun c => (conversation_id c, turn_id c)) (live (snd st)).

Lemma live_permutation l l' : l ≡ₚ l' -> live l ≡ₚ live l'.
Proof.
  induction 1 as [|c l l' _ IH|c c' l|l1 l2 l3 _ IH1 _ IH2]; simpl.
  - done.
  - destruct (released c); simpl; [done|by rewrite IH].
  - destruct (released c), (released c'); simpl; try done. apply Permutation_swap.
  - by rewrite IH1.
Qed.

Lemma claims_ok_perm s l l' : l ≡ₚ l' -> claims_ok (s, l) -> claims_ok (s, l').
Proof. intros Hp [H1 H2]. split; [done|]. simpl in *. by rewrite <- (live_permutation _ _ Hp). Qed.

Lemma claims_active s l conversation turn :
  claims_ok (s, l) ->
  active_turns (locked s) !! conversation = Some turn <->
  exists c, c ∈ l /\ released c = false /\ conversation_id c = conversation /\ turn_id c = turn.
Proof.
  intros [_ Hp]. simpl in Hp. rewrite <- elem_of_map_to_list, Hp, list_elem_of_fmap. unfold live.
  split.
  - intros (c & [= -> ->] & [Hc Hr]%list_elem_of_In%filter_In). exists c.
    split_and!; [by apply list_elem_of_In|by destruct (released c)|done..].
  - intros (c & Hc & Hr & <- & <-). exists c. split; [done|].
    apply list_elem_of_In, filter_In. split; [by apply list_elem_of_In|by rewrite Hr].
Qed.

Lemma NoDup_live s l : claims_ok (s, l) -> NoDup (map conversation_id (live l)).
Proof.
  intros [_ Hp]. simpl in Hp.
  replace (map conversation_id (live l)) with (map fst (map (fun c => (conversation_id c, turn_id c)) (live l)))
    by (rewrite map_map; done).
  rewrite <- Hp. apply NoDup_fst_map_to_list.
Qed.

(** What releasing a held claim does. *)
Definition freed (c : TurnClaim) (s : ConversationRuntimeStateService) : ConversationRuntimeStateService :=
  notify_waiters (set_locked (mkRuntimeState
    (delete (conversation_id c) (active_turns (locked s)))
    (deleting_conversations (locked s) ∖ {[conversation_id c]})
    (cancelling_conversations (locked s) ∖ {[conversation_id c]}) (shutting_down (locked s))) s).

Lemma release_held s l c :
  claims_ok (s, l) -> c ∈ l ->
  release_inner true c s =
  if released c then (false, c, s)
  else (is_deleting (conversation_id c) s, mkTurnClaim (conversation_id c) (turn_id c) true, freed c s).
Proof.
  intros Hok Hc. unfold release_inner. destruct (released c) eqn:Hr; [done|].
  assert (Ha : active_turns (locked s) !! conversation_id c = Some (turn_id c)).
  { apply (claims_active s l _ _ Hok). by exists c. }
  destruct Hok as [Hp _]. simpl in Hp. unfold release_turn, is_deleting, lock. rewrite Hp, Ha.
  by rewrite bool_decide_eq_true_2.
Qed.

Lemma freed_ok s l c l' :
  l ≡ₚ c :: l' -> released c = false -> claims_ok (s, l) -> claims_ok (freed c s, l').
Proof.
  intros Hl Hr Hok. pose proof (claims_ok_perm _ _ _ Hl Hok) as Hok'.
  assert (Ha : active_turns (locked s) !! conversation_id c = Some (turn_id c)).
  { apply (claims_active _ _ _ _ Hok'). exists c. split; [by apply elem_of_cons; left|done]. }
  destruct Hok' as [Hp Hm]. split; [done|]. simpl in *. rewrite Hr in Hm. simpl in Hm.
  apply (Permutation_cons_inv (a := (conversation_id c, turn_id c))).
  rewrite <- Hm. by apply map_to_list_delete.
Qed.

Lemma claim_step_ok st st' : claim_step st st' -> claims_ok st -> claims_ok st'.
Proof.
  assert (Hrel : forall c s l l' b c' s', l ≡ₚ c :: l' -> claims_ok (s, l) ->
    release_inner true c s = (b, c', s') -> claims_ok (s', c' :: l') /\ claims_ok (s', l')).
  { intros c s l l' b c' s' Hl Hok. rewrite (release_held s l) by (try done; rewrite Hl; by apply elem_of_cons; left).
    destruct (released c) eqn:Hr; intros [= <- <- <-].
    - pose proof (claims_ok_perm _ _ _ Hl Hok) as Hok'. split; [done|].
      destruct Hok' as [? Hm]. split; [done|]. simpl in *. by rewrite Hr in Hm.
    - assert (Hf : claims_ok (freed c s, l')) by by eapply freed_ok. split; [|done].
      destruct Hf as [? Hm]. by split. }
  intros Hstep Hok. destruct Hstep as [conversation turn s l|c s l l' s' c' b Hl He|turn c s l l' s' c' b Hl He
    |c s l l' Hl|conversation s l|conversation s l|conversation s l|conversation s l|s l].
  2: { apply (Hrel _ _ _ _ _ _ _ Hl Hok He). }
  2: { unfold release_for_turn in He. destruct (negb _); [|apply (Hrel _ _ _ _ _ _ _ Hl Hok He)].
    injection He as <- <- <-. by eapply claims_ok_perm. }
  2: { unfold drop_claim. destruct (release_inner true c s) as [[b c'] s'] eqn:He. simpl. apply (Hrel _ _ _ _ _ _ _ Hl Hok He). }
  all: pose proof Hok as [Hp Hm]; simpl in Hp, Hm.
  - unfold try_claim_turn, lock. rewrite Hp. destruct (shutting_down (locked s)); [done|].
    case_bool_decide; [done|]. case_bool_decide as Hn; [done|]. split; [done|]. simpl.
    rewrite map_to_list_insert by (by apply eq_None_not_Some). by rewrite Hm.
  - unfold mark_deleting, lock. by rewrite Hp.
  - unfold clear_deleting, lock. by rewrite Hp.
  - unfold mark_cancelling, lock. by rewrite Hp.
  - unfold clear_cancelling, lock. by rewrite Hp.
  - unfold mark_shutting_down, lock. by rewrite Hp.
Qed.

Lemma claims_reachable_ok st : claims_reachable st -> claims_ok st.
Proof.
  unfold claims_reachable. apply (rtc_ind_r claims_ok).
  - split; [done|]. simpl. by rewrite map_to_list_empty.
  - intros x y _ Hs Hx. by eapply claim_step_ok.
Qed.

(** ** Properties *)

(** C4. One turn per conversation.  In every state any callers reach, the
    active turn of a conversation is the turn of the one unreleased claim held
    on it (no two unreleased claims are held on a conversation, and there is no
    active turn without one); and a claim is granted exactly when the
    conversation has no active turn, is not marked deleting and the runtime is
    not shutting down. *)
Theorem turn_claims_exclusive s l :
  claims_reachable (s, l) ->
  (forall conversation turn, active_turn_id_for conversation s = Some turn <->
     exists c, c ∈ l /\ released c = false /\ conversation_id c = conversation /\ turn_id c = turn) /\
  NoDup (map conversation_id (live l)) /\
  forall conversation turn, is_ok (fst (try_claim_turn conversation turn s)) =
    negb (is_claimed conversation s) && negb (is_deleting conversation s) && negb (is_shutting_down s).
Proof.
  intros Hok%claims_reachable_ok. pose proof Hok as [Hp _]. simpl in Hp. split; [|split].
  - intros conversation turn. unfold active_turn_id_for, lock. rewrite Hp.
    by apply (claims_active s l).
  - by eapply NoDup_live.
  - intros conversation turn. unfold try_claim_turn, is_claimed, is_deleting, is_shutting_down, lock.
    rewrite Hp. destruct (shutting_down (locked s)); simpl; [by rewrite andb_false_r|].
    do 2 case_bool_decide; simpl; done.
Qed.

(** A claim gives its conversation back once.  Releasing an unreleased
    claim held in a reachable state returns whether the conversation was being
    deleted, frees it, clears its deleting and cancelling marks, wakes those
    who wait, and leaves every other conversation as it was; releasing it again,
    or on behalf of another turn, changes nothing: it cannot free a turn claimed
    since. *)
Theorem release_once s l c :
  claims_reachable (s, l) -> c ∈ l ->
  (forall turn, turn <> turn_id c -> release_for_turn true turn c s = (false, c, s)) /\
  release_for_turn true (turn_id c) c s = release true c s /\
  if released c then release true c s = (false, c, s)
  else exists s', release true c s =
      (is_deleting (conversation_id c) s, mkTurnClaim (conversation_id c) (turn_id c) true, s') /\
    releases s' = S (releases s) /\ is_shutting_down s' = is_shutting_down s /\
    (forall s'', release true (mkTurnClaim (conversation_id c) (turn_id c) true) s'' =
       (false, mkTurnClaim (conversation_id c) (turn_id c) true, s'')) /\
    (is_claimed (conversation_id c) s' = false /\ is_deleting (conversation_id c) s' = false /\
     is_cancelling (conversation_id c) s' = false) /\
    forall other, other <> conversation_id c ->
      active_turn_id_for other s' = active_turn_id_for other s /\
      is_deleting other s' = is_deleting other s /\ is_cancelling other s' = is_cancelling other s.
Proof.
  intros Hok%claims_reachable_ok Hc. split; [|split].
  - intros turn Hne. unfold release_for_turn. by rewrite bool_decide_eq_false_2.
  - unfold release_for_turn. by rewrite bool_decide_eq_true_2.
  - unfold release. rewrite (release_held s l c Hok Hc). destruct (released c); [done|].
    destruct Hok as [Hp _]. simpl in Hp. exists (freed c s).
    unfold is_shutting_down, is_claimed, is_deleting, is_cancelling, active_turn_id_for, lock. simpl.
    rewrite Hp. simpl. split_and!; try done.
    + rewrite lookup_delete_eq. by apply bool_decide_eq_false_2; intros [].
    + apply bool_decide_eq_false_2. clear. set_solver.
    + apply bool_decide_eq_false_2. clear. set_solver.
    + intros other Hne. rewrite lookup_delete_ne by done.
      split_and!; [done|apply bool_decide_ext; clear -Hne; set_solver..].
Qed.

Lemma freeing_notifies st st' conversation :
  claim_step st st' -> claims_ok st ->
  releases (fst st) <= releases (fst st') /\
  (is_claimed conversation (fst st) = true -> is_claimed conversation (fst st') = false ->
     releases (fst st) < releases (fst st')).
Proof.
  assert (Hrel : forall c s l l' b c' s', l ≡ₚ c :: l' -> claims_ok (s, l) ->
    release_inner true c s = (b, c', s') -> s' = s \/ releases s' = S (releases s)).
  { intros c s l l' b c' s' Hl Hok. rewrite (release_held s l) by (try done; rewrite Hl; by apply elem_of_cons; left).
    destruct (released c); intros [= <- <- <-]; [by left|by right]. }
  assert (Hdone : forall s s' : ConversationRuntimeStateService, s' = s \/ releases s' = S (releases s) ->
    releases s <= releases s' /\ (is_claimed conversation s = true ->
      is_claimed conversation s' = false -> releases s < releases s')).
  { intros s s' [->|E]; [split; [done|congruence]|lia]. }
  intros Hstep Hok. destruct Hstep as [conv turn s l|c s l l' s' c' b Hl He|turn c s l l' s' c' b Hl He
    |c s l l' Hl|conv s l|conv s l|conv s l|conv s l|s l]; simpl in *.
  2: { apply Hdone, (Hrel _ _ _ _ _ _ _ Hl Hok He). }
  2: { apply Hdone. unfold release_for_turn in He. destruct (negb _); [|apply (Hrel _ _ _ _ _ _ _ Hl Hok He)].
    injection He as <- <- <-. by left. }
  2: { apply Hdone. unfold drop_claim. destruct (release_inner true c s) as [[b c'] s'] eqn:He.
    apply (Hrel _ _ _ _ _ _ _ Hl Hok He). }
  all: destruct Hok as [Hp _]; simpl in Hp.
  2-6: unfold mark_deleting, clear_deleting, mark_cancelling, clear_cancelling, mark_shutting_down,
    is_claimed, lock; simpl; rewrite ?Hp; simpl; rewrite ?Hp; simpl; split; [done|congruence].
  unfold try_claim_turn, is_claimed, lock. rewrite Hp.
  destruct (shutting_down (locked s)); simpl; [rewrite Hp; split; [done|congruence]|].
  case_bool_decide; simpl; [rewrite Hp; split; [done|congruence]|].
  case_bool_decide; simpl; rewrite Hp; [split; [done|congruence]|].
  split; [done|]. intros Ha%bool_decide_eq_true Hb%bool_decide_eq_false. exfalso. apply Hb. simpl.
  destruct (decide (conv = conversation)) as [->|]; [rewrite lookup_insert_eq; by eexists|].
  by rewrite lookup_insert_ne.
Qed.

Lemma freeing_notifies_run st st' conversation :
  rtc claim_step st st' -> claims_ok st ->
  releases (fst st) <= releases (fst st') /\
  (is_claimed conversation (fst st) = true -> is_claimed conversation (fst st') = false ->
     releases (fst st) < releases (fst st')).
Proof.
  induction 1 as [st|st1 st2 st3 Hs _ IH]; intros Hok; [split; [done|congruence]|].
  destruct (freeing_notifies _ _ conversation Hs Hok) as [Hle1 Hlt1].
  destruct (IH (claim_step_ok _ _ Hs Hok)) as [Hle2 Hlt2]. split; [lia|]. intros H1 H3.
  destruct (is_claimed conversation (fst st2)); [specialize (Hlt2 eq_refl H3)|specialize (Hlt1 H1 eq_refl)]; lia.
Qed.

(** No wakeup is lost.  Whatever calls come between a waiter's arming its
    notification, its finding the conversation claimed, and the moment it is
    looked at: if the conversation is free then, the notification has fired,
    and, left alone, the waiter returns at its next three steps. *)
Theorem no_lost_wakeup st0 st1 st2 conversation :
  claims_reachable st0 -> rtc claim_step st0 st1 -> rtc claim_step st1 st2 ->
  let armed := wait_step conversation (fst st0) Arming in
  let waiting := wait_step conversation (fst st1) armed in
  is_claimed conversation (fst st2) = false ->
  Nat.iter 3 (wait_step conversation (fst st2)) waiting = Returned.
Proof.
  intros Hok%claims_reachable_ok H01 H12 armed waiting Hfree.
  assert (Hok1 : claims_ok st1).
  { clear -Hok H01. induction H01; [done|]. by eapply IHH01, claim_step_ok. }
  pose proof (proj1 (freeing_notifies_run _ _ conversation H01 Hok)) as Hle.
  pose proof (proj2 (freeing_notifies_run _ _ conversation H12 Hok1)) as Hlt.
  unfold waiting, armed. simpl. destruct (is_claimed conversation (fst st1)).
  - specialize (Hlt eq_refl Hfree). simpl. rewrite (proj2 (Nat.ltb_lt _ _)) by lia. simpl. by rewrite Hfree.
  - done.
Qed.

(** ** Witnesses *)

Definition claim1 : TurnClaim := mkTurnClaim "c" "t1" false.
Definition service1 : ConversationRuntimeStateService :=
  snd (try_claim_turn "c" "t1" ConversationRuntimeStateService_default).
Definition service2 : ConversationRuntimeStateService := snd (release true claim1 service1).

Lemma claim1_reachable : claims_reachable (service1, [claim1]).
Proof.
  apply rtc_once. exact (claim_try "c" "t1" ConversationRuntimeStateService_default []).
Qed.

Lemma claim1_released : rtc claim_step (service1, [claim1]) (service2, [mkTurnClaim "c" "t1" true]).
Proof.
  apply rtc_once. apply (claim_release claim1 service1 [claim1] [] service2 _ false);
    [reflexivity|vm_compute; reflexivity].
Qed.

Lemma turn_claims_exclusive_witness :
  active_turn_id_for "c" service1 = Some "t1" /\ is_ok (fst (try_claim_turn "c" "t2" service1)) = false.
Proof.
  destruct (turn_claims_exclusive service1 [claim1] claim1_reachable) as (H1 & _ & H2). split.
  - apply H1. exists claim1. split; [apply elem_of_cons; left; reflexivity|]. repeat split.
  - exact (eq_trans (H2 "c" "t2") ltac:(vm_compute; reflexivity)).
Defined.

Lemma release_once_witness :
  exists s', release true claim1 service1 = (false, mkTurnClaim "c" "t1" true, s') /\
    is_claimed "c" s' = false.
Proof.
  destruct (release_once service1 [claim1] claim1 claim1_reachable
    ltac:(apply elem_of_cons; left; reflexivity)) as (_ & _ & H).
  destruct H as (s' & He & _ & _ & _ & (Hc & _) & _). exists s'. split; [exact He|exact Hc].
Defined.

Lemma no_lost_wakeup_witness :
  Nat.iter 3 (wait_step "c" service2) (wait_step "c" service1 (wait_step "c" service1 Arming)) = Returned.
Proof.
  exact (no_lost_wakeup (service1, [claim1]) (service1, [claim1])
    (service2, [mkTurnClaim "c" "t1" true]) "c" claim1_reachable (rtc_refl _ _) claim1_released
    ltac:(vm_compute; reflexivity)).
Defined.

(** ** What the marks do not promise

    A release clears the deleting mark, so a deletion that began while a turn
    was active loses its guard when the turn ends: a new turn is claimed while
    the deletion is still under way. *)
Theorem delete_guard_lost :
  let deleting := snd (mark_deleting "c" service1) in
  let '(was_deleting, _, s) := release true claim1 deleting in
  is_ok (fst (try_claim_turn "c" "t2" deleting)) = false /\
  was_deleting = true /\ is_ok (fst (try_claim_turn "c" "t2" s)) = true.
Proof. vm_compute. repeat split. Qed.

(** A cancel that marks its conversation after the turn has ended leaves the
    mark until some later turn ends: the idle conversation is reported as
    cancelling and not sendable, although a claim on it would be granted. *)
Theorem cancelling_outlives_turn :
  let s := mark_cancelling "c" service2 in
  can_send_message (summary_from_parts "c" None false 0 s) = false /\
  active_turn_id_for "c" s = None /\ is_ok (fst (try_claim_turn "c" "t2" s)) = true.
Proof. vm_compute. repeat split. Qed.
