(* ===== verification/Dependency.v ===== *)
(** * The dependency check of the extensions
    ([crates/tjuaeui-extension/src/dependency.rs])

    [validate_dependencies] reports missing dependencies, version mismatches
    and cycles of a set of extensions, and gives the order to load them in:
    Kahn's algorithm, then a depth-first search of what it leaves over.

    A [HashMap] of dependencies is the list of its entries in the order it is
    iterated in; its keys are distinct.  Parsing and matching of versions are
    the [semver] crate's and are parameters.  The recursion of the search and
    the loop of Kahn's algorithm take fuel; [None] is a panic or fuel run out,
    and [compute_topological_order_total] shows neither happens. *)

From S2P Require Import Prelude.

(** ** Data *)

(** Of the manifest and of a loaded extension, what the check reads. *)
Record ExtensionManifest : Type := mkManifest {
  name : string;
  version : string;
  dependencies : list (string * string);
}.

Record LoadedExtension : Type := mkLoaded { manifest : ExtensionManifest }.

Definition ext_name (e : LoadedExtension) : string := name (manifest e).
Definition ext_deps (e : LoadedExtension) : list string := map fst (dependencies (manifest e)).

Module DependencyIssue.
Inductive t : Type :=
| Missing (extension dependency required : string)
| VersionMismatch (extension dependency required actual : string)
| Circular (cycle : list string).
End DependencyIssue.

Record DependencyValidationResult : Type := mkValidation {
  valid : bool;
  issues : list DependencyIssue.t;
  load_order : list string;
}.

(** [sort_unstable] on strings; equal strings cannot be told apart. *)
Definition sort_strings (l : list string) : list string := merge_sort String.le l.

(** ** Kahn's algorithm *)

(** One dependency of one extension: an edge from the dependency to it. *)
Definition add_edge (known : gset string) (ext : string)
    (acc : gmap string (list string) * gmap string nat) (dep : string)
    : gmap string (list string) * gmap string nat :=
  let '(adj, in_degree) := acc in
  if bool_decide (dep ∈ known) then
    (<[dep := default [] (adj !! dep) ++ [ext]]> adj,
     <[ext := S (default 0 (in_degree !! ext))]> in_degree)
  else acc.

Definition add_extension (known : gset string)
    (acc : gmap string (list string) * gmap string nat) (e : LoadedExtension)
    : gmap string (list string) * gmap string nat :=
  let '(adj, in_degree) := acc in
  let in_degree := <[ext_name e := default 0 (in_degree !! ext_name e)]> in_degree in
  run_list (add_edge known (ext_name e)) (adj, in_degree) (ext_deps e).

Definition known_names (extensions : list LoadedExtension) : gset string :=
  list_to_set (map ext_name extensions).

Definition build_graph (extensions : list LoadedExtension)
    : gmap string (list string) * gmap string nat :=
  run_list (add_extension (known_names extensions)) (∅, ∅) extensions.

(** The initial queue: the names of in-degree zero, sorted. *)
Definition seeds (in_degree : gmap string nat) : list string :=
  sort_strings (map fst (List.filter (fun x => (snd x =? 0)%nat) (map_to_list in_degree))).

(** One dependent of an emitted node. *)
Definition release_dependent (acc : gmap string nat * list string) (dep : string)
    : option (gmap string nat * list string) :=
  let '(in_degree, ready) := acc in
  match in_degree !! dep with
  | None | Some 0 => None
  | Some (S deg) =>
      Some (<[dep := deg]> in_degree, if (deg =? 0)%nat then ready ++ [dep] else ready)
  end.

Fixpoint kahn (fuel : nat) (adj : gmap string (list string)) (queue : list string)
    (in_degree : gmap string nat) (order : list string) : option (list string) :=
  match queue with
  | [] => Some order
  | node :: queue =>
      match fuel with
      | 0 => None
      | S fuel =>
          match try_fold release_dependent (in_degree, []) (default [] (adj !! node)) with
          | None => None
          | Some (in_degree, ready) =>
              kahn fuel adj (queue ++ sort_strings ready) in_degree (order ++ [node])
          end
      end
  end.

(** ** The search for cycles *)

Record DfsState : Type := mkDfs {
  visited : gset string;
  on_stack : gset string;
  path : list string;
  cycles : list (list string);
}.

Definition enter (node : string) (st : DfsState) : DfsState :=
  mkDfs ({[node]} ∪ visited st) ({[node]} ∪ on_stack st) (path st ++ [node]) (cycles st).
Definition leave (node : string) (st : DfsState) : DfsState :=
  mkDfs (visited st) (on_stack st ∖ {[node]}) (removelast (path st)) (cycles st).
Definition push_cycle (c : list string) (st : DfsState) : DfsState :=
  mkDfs (visited st) (on_stack st) (path st) (cycles st ++ [c]).

(** [path.iter().position(|&n| n == next)] *)
Fixpoint position (x : string) (l : list string) : option nat :=
  match l with
  | [] => None
  | y :: l => if bool_decide (y = x) then Some 0 else option_map S (position x l)
  end.

(** A neighbour already visited: a cycle, if it is on the stack. *)
Definition close_cycle (next : string) (st : DfsState) : DfsState :=
  if bool_decide (next ∈ on_stack st) then
    match position next (path st) with
    | Some start => push_cycle (drop start (path st) ++ [next]) st
    | None => st
    end
  else st.

Fixpoint dfs_find_cycles (fuel : nat) (adj : gmap string (list string)) (node : string)
    (st : DfsState) : option DfsState :=
  match fuel with
  | 0 => None
  | S fuel =>
      match
        try_fold (fun st next =>
          if bool_decide (next ∈ visited st) then Some (close_cycle next st)
          else dfs_find_cycles fuel adj next st) (enter node st) (default [] (adj !! node))
      with
      | None => None
      | Some st => Some (leave node st)
      end
  end.

Definition involved_deps (involved : gset string) (e : LoadedExtension) : list string :=
  sort_strings (List.filter (fun d => bool_decide (d ∈ involved)) (ext_deps e)).

Definition involved_graph (involved : gset string) (extensions : list LoadedExtension)
    : gmap string (list string) :=
  run_list (fun adj e =>
    if bool_decide (ext_name e ∈ involved)
    then <[ext_name e := involved_deps involved e]> adj else adj) ∅ extensions.

Definition sorted_nodes (s : gset string) : list string := sort_strings (elements s).

Definition find_cycles (extensions : list LoadedExtension) (involved : gset string)
    : option (list (list string)) :=
  let adj := involved_graph involved extensions in
  option_map cycles
    (try_fold (fun st node =>
       if bool_decide (node ∈ visited st) then Some st
       else dfs_find_cycles (S (size involved)) adj node st)
     (mkDfs ∅ ∅ [] []) (sorted_nodes involved)).

(** ** The two together *)

Definition compute_topological_order (extensions : list LoadedExtension)
    : option (list string * list (list string)) :=
  let known := known_names extensions in
  let '(adj, in_degree) := build_graph extensions in
  match kahn (size known) adj (seeds in_degree) in_degree [] with
  | None => None
  | Some order =>
      let emitted : gset string := list_to_set order in
      let remaining := known ∖ emitted in
      match (if bool_decide (remaining = ∅) then Some []
             else find_cycles extensions remaining) with
      | None => None
      | Some cycles => Some (order ++ sorted_nodes remaining, cycles)
      end
  end.

Definition topological_sort (extensions : list LoadedExtension) : option (list string) :=
  option_map fst (compute_topological_order extensions).

Section Validate.
(** [semver::Version::parse], [semver::VersionReq::parse], [VersionReq::matches]. *)
Context {Version VersionReq : Type}.
Context (version_parse : string -> option Version) (req_parse : string -> option VersionReq)
  (req_matches : VersionReq -> Version -> bool).

Definition starts_with_digit (s : string) : bool :=
  match s with
  | EmptyString => false
  | String c _ => let n := Ascii.nat_of_ascii c in (48 <=? n)%nat && (n <=? 57)%nat
  end.

Definition version_matches (requirement actual : string) : bool :=
  match version_parse actual with
  | None => false
  | Some version =>
      let req_str := if starts_with_digit requirement then "=" +:+ requirement else requirement in
      match req_parse req_str with
      | None => false
      | Some req => req_matches req version
      end
  end.

(** [collect()] into a map: the last extension of a name wins. *)
Definition versions_of (extensions : list LoadedExtension) : gmap string string :=
  run_list (fun m e => <[ext_name e := version (manifest e)]> m) ∅ extensions.

Definition check_dependency (versions : gmap string string) (ext : string) (d : string * string)
    : list DependencyIssue.t :=
  let '(dep, required) := d in
  match versions !! dep with
  | None => [DependencyIssue.Missing ext dep required]
  | Some actual =>
      if negb (version_matches required actual)
      then [DependencyIssue.VersionMismatch ext dep required actual] else []
  end.

Definition check_extension (versions : gmap string string) (e : LoadedExtension)
    : list DependencyIssue.t :=
  concat (map (check_dependency versions (ext_name e)) (dependencies (manifest e))).

Definition validate_dependencies (extensions : list LoadedExtension)
    : option DependencyValidationResult :=
  let found := concat (map (check_extension (versions_of extensions)) extensions) in
  match compute_topological_order extensions with
  | None => None
  | Some (order, cycles) =>
      let all := found ++ map DependencyIssue.Circular cycles in
      Some (mkValidation (is_empty all) all order)
  end.
End Validate.

(** ** Counting *)
Definition count (n : string) (l : list string) : nat :=
  length (List.filter (fun x => bool_decide (x = n)) l).

Lemma count_cons n x l : count n (x :: l) = (if bool_decide (x = n) then 1 else 0) + count n l.
Proof. unfold count. simpl. by destruct (bool_decide _). Qed.

Lemma count_pos n l : n ∈ l <-> 0 < count n l.
Proof.
  induction l as [|x l IH]; [split; [by intros ?%elem_of_nil|unfold count; simpl; lia]|].
  rewrite elem_of_cons, count_cons, IH. case_bool_decide; simpl; split; try lia.
  - intros _. by left.
  - by intros [<-|?].
Qed.

Lemma sort_strings_perm l : sort_strings l ≡ₚ l.
Proof. apply merge_sort_Permutation. Qed.

Lemma elem_of_sorted_nodes x s : x ∈ sorted_nodes s <-> x ∈ s.
Proof. unfold sorted_nodes. by rewrite sort_strings_perm, elem_of_elements. Qed.

Lemma NoDup_sorted_nodes s : NoDup (sorted_nodes s).
Proof. unfold sorted_nodes. rewrite sort_strings_perm. apply NoDup_elements. Qed.

(** ** Releasing the dependents of a node *)
Lemma release_dependents_spec l in_degree ready :
  (forall n, n ∈ l -> exists k, in_degree !! n = Some k /\ count n l <= k) ->
  NoDup ready -> (forall n, n ∈ ready -> in_degree !! n = Some 0) ->
  exists in_degree' ready',
    try_fold release_dependent (in_degree, ready) l = Some (in_degree', ready') /\
    (forall n, in_degree' !! n = (fun k => k - count n l) <$> (in_degree !! n)) /\
    NoDup ready' /\
    forall n, n ∈ ready' <-> n ∈ ready \/ n ∈ l /\ in_degree !! n = Some (count n l).
Proof.
  revert in_degree ready. induction l as [|x l IH]; intros deg ready Hl Hn Hz.
  - exists deg, ready. split; [done|]. split; [|split; [done|]].
    + intros n. destruct (deg !! n); simpl; [f_equal; unfold count; simpl; lia|done].
    + intros n. split; [by left|]. by intros [?|[?%elem_of_nil _]].
  - destruct (Hl x) as (k & Hk & Hc); [by apply elem_of_cons; left|].
    rewrite count_cons, bool_decide_eq_true_2 in Hc by done. simpl. rewrite Hk.
    destruct k as [|k]; [lia|].
    assert (Hx : x ∉ ready) by (intros Hin; rewrite (Hz x Hin) in Hk; done).
    set (ready1 := if (k =? 0)%nat then ready ++ [x] else ready).
    assert (Hr1 : forall n, n ∈ ready1 <-> n ∈ ready \/ n = x /\ k = 0).
    { intros n. unfold ready1. destruct (Nat.eqb_spec k 0) as [->|].
      - rewrite elem_of_app, list_elem_of_singleton. intuition.
      - split; [by left|]. intros [?|[_ ?]]; done. }
    destruct (IH (<[x:=k]> deg) ready1) as (deg' & ready' & He & Hd & Hn' & Hr').
    + intros n Hin. destruct (decide (n = x)) as [->|Hne].
      * exists k. rewrite lookup_insert_eq. split; [done|lia].
      * destruct (Hl n) as (j & Hj & Hcj); [by apply elem_of_cons; right|].
        exists j. rewrite lookup_insert_ne by done. split; [done|].
        rewrite count_cons in Hcj. lia.
    + unfold ready1. destruct (k =? 0)%nat; [|done]. apply list.NoDup_app.
      split; [done|]. split; [|apply NoDup_singleton].
      intros y Hy ->%list_elem_of_singleton. done.
    + intros n [Hin|[-> ->]]%Hr1; [|by rewrite lookup_insert_eq].
      rewrite lookup_insert_ne; [by apply Hz|]. by intros <-.
    + exists deg', ready'. split; [done|]. split; [|split; [done|]].
      * intros n. rewrite Hd, count_cons. destruct (decide (n = x)) as [->|Hne].
        -- rewrite lookup_insert_eq, Hk, bool_decide_eq_true_2 by done. simpl. f_equal; lia.
        -- rewrite lookup_insert_ne, bool_decide_eq_false_2 by congruence. done.
      * intros n. rewrite Hr', Hr1, elem_of_cons, count_cons.
        destruct (decide (n = x)) as [->|Hne].
        -- rewrite lookup_insert_eq, Hk, bool_decide_eq_true_2 by done. simpl.
           rewrite !(inj_iff Some). pose proof (count_pos x l) as Hp.
           assert (Hdec : x ∈ l \/ count x l = 0) by (rewrite Hp; lia). intuition lia.
        -- rewrite lookup_insert_ne, bool_decide_eq_false_2 by congruence.
           split; [intros [[?|[? _]]|[? ?]]|intros [?|[[?|?] ?]]]; try done; auto.
Qed.

(** ** The invariant of the loop

    [es] are the edges, from a dependency to its dependent; [pending order n]
    counts the dependencies of [n] not yet emitted. *)
Section Kahn.
Context (es : list (string * string)) (names : gset string).
Context (Hes : forall d n, (d, n) ∈ es -> d ∈ names /\ n ∈ names).

Definition succs (d : string) : list string :=
  map snd (List.filter (fun e => bool_decide (fst e = d)) es).

Definition pending_in (order : list string) (n : string) (l : list (string * string)) : nat :=
  length (List.filter (fun e => bool_decide (snd e = n) && negb (bool_decide (fst e ∈ order))) l).
Definition pending (order : list string) (n : string) : nat := pending_in order n es.

Lemma pending_zero order n : pending order n = 0 <-> forall d, (d, n) ∈ es -> d ∈ order.
Proof.
  unfold pending, pending_in. split.
  - intros H0 d Hin. destruct (decide (d ∈ order)) as [|Hout]; [done|].
    apply length_zero_iff_nil in H0.
    assert (Hf : (d, n) ∈ List.filter (fun e => bool_decide (snd e = n) && negb (bool_decide (fst e ∈ order))) es).
    { apply list_elem_of_In, filter_In. split; [by apply list_elem_of_In|]. simpl.
      by rewrite bool_decide_eq_true_2, bool_decide_eq_false_2. }
    rewrite H0 in Hf. by apply elem_of_nil in Hf.
  - intros H. apply length_zero_iff_nil.
    destruct (List.filter _ es) as [|[d m] l] eqn:E; [done|]. exfalso.
    assert (Hin : In (d, m) ((d, m) :: l)) by by left. rewrite <- E in Hin.
    apply filter_In in Hin as [Hin [Hm%bool_decide_eq_true Ho]%andb_true_iff]. simpl in *. subst.
    apply negb_true_iff, bool_decide_eq_false in Ho. apply Ho, H. by apply list_elem_of_In.
Qed.

Lemma pending_emit order node n :
  ~ (node ∈ order) -> pending (order ++ [node]) n + count n (succs node) = pending order n.
Proof.
  intros Hnode. unfold pending, succs. clear Hes. induction es as [|[d m] l IH]; [done|].
  unfold pending_in, count in *. simpl. destruct (decide (d = node)) as [->|Hd].
  - rewrite (bool_decide_eq_true_2 (node = node)) by done.
    rewrite (bool_decide_eq_true_2 (node ∈ order ++ [node]))
      by (apply elem_of_app; right; by apply list_elem_of_singleton).
    rewrite (bool_decide_eq_false_2 (node ∈ order)) by done. simpl.
    rewrite andb_false_r, andb_true_r. destruct (bool_decide (m = n)); simpl; lia.
  - rewrite (bool_decide_eq_false_2 (d = node)) by done.
    rewrite (bool_decide_ext (d ∈ order ++ [node]) (d ∈ order))
      by (rewrite elem_of_app, list_elem_of_singleton; split; [intros [?|?]; congruence|by left]).
    destruct (bool_decide (m = n) && negb (bool_decide (d ∈ order))); simpl; lia.
Qed.

Record kahn_ok (queue : list string) (in_degree : gmap string nat) (order : list string) : Prop := {
  kahn_degree : forall n, n ∈ names -> in_degree !! n = Some (pending order n);
  kahn_distinct : NoDup (order ++ queue);
  kahn_ready : forall n, n ∈ order ++ queue <-> n ∈ names /\ pending order n = 0;
  kahn_sorted : forall i n d, order !! i = Some n -> (d, n) ∈ es -> d ∈ take i order;
}.

Lemma kahn_step (adj : gmap string (list string)) node queue in_degree order :
  (forall d, default [] (adj !! d) = succs d) ->
  kahn_ok (node :: queue) in_degree order ->
  exists in_degree' ready,
    try_fold release_dependent (in_degree, []) (default [] (adj !! node)) = Some (in_degree', ready) /\
    kahn_ok (queue ++ sort_strings ready) in_degree' (order ++ [node]).
Proof.
  intros Hadj Hok. rewrite Hadj. destruct Hok as [Hdeg Hnd Hready Hsorted].
  assert (Hnode : node ∈ names /\ pending order node = 0).
  { apply Hready, elem_of_app. right. by apply elem_of_cons; left. }
  assert (Hout : ~ (node ∈ order)).
  { apply list.NoDup_app in Hnd as (_ & Hdis & _). intros Hin. apply (Hdis node Hin). by apply elem_of_cons; left. }
  assert (Hsucc : forall n, n ∈ succs node -> n ∈ names).
  { intros n (e & -> & He)%list_elem_of_fmap. apply list_elem_of_In, filter_In in He as [He Hd].
    destruct e as [d m]. apply (Hes d m). by apply list_elem_of_In. }
  pose proof (fun n => pending_emit order node n Hout) as Hpe.
  destruct (release_dependents_spec (succs node) in_degree []) as (deg' & ready & He & Hd & Hnr & Hr).
  - intros n Hn. exists (pending order n). split; [by apply Hdeg, Hsucc|]. specialize (Hpe n). lia.
  - constructor.
  - by intros n ?%elem_of_nil.
  - exists deg', ready. split; [done|].
    assert (Hr' : forall n, n ∈ ready <-> n ∈ names /\ pending order n <> 0 /\ pending (order ++ [node]) n = 0).
    { intros n. rewrite Hr. specialize (Hpe n). split.
      - intros [Hbad|[Hn Hk]]; [by apply elem_of_nil in Hbad|].
        pose proof (Hsucc n Hn) as Hin. rewrite (Hdeg n Hin) in Hk. injection Hk as Hk.
        apply count_pos in Hn. split; [done|lia].
      - intros (Hin & Hp & Hp'). right. rewrite (Hdeg n Hin). split; [apply count_pos; lia|f_equal; lia]. }
    assert (Hperm : (order ++ [node]) ++ queue ++ sort_strings ready ≡ₚ (order ++ node :: queue) ++ ready).
    { rewrite sort_strings_perm. by rewrite <- !app_assoc. }
    split.
    + intros n Hn. rewrite Hd, (Hdeg n Hn). simpl. f_equal. specialize (Hpe n). lia.
    + rewrite Hperm. apply list.NoDup_app. split; [done|]. split; [|done].
      intros n [_ Hz]%Hready (_ & Hnz & _)%Hr'. done.
    + intros n. rewrite Hperm, elem_of_app, Hready, Hr'. specialize (Hpe n).
      split; [intros [[? ?]|(? & _ & ?)]; split; [done|lia|done|done]|].
      intros [? ?]. destruct (decide (pending order n = 0)); [by left|by right].
    + intros i n d [Hi|[Hlen Hi]]%lookup_app_Some Hdn.
      * rewrite take_app_le by (apply lookup_lt_Some in Hi; lia). by eapply Hsorted.
      * apply list_lookup_singleton_Some in Hi as [Hi <-].
        rewrite take_app_length' by lia. by apply (proj1 (pending_zero order node) (proj2 Hnode)).
Qed.

Lemma kahn_length queue in_degree order : kahn_ok queue in_degree order -> length order + length queue <= size names.
Proof.
  intros Hok. rewrite <- length_app. transitivity (size (list_to_set (C := gset string) (order ++ queue))).
  - by rewrite size_list_to_set by apply (kahn_distinct _ _ _ Hok).
  - apply subseteq_size. intros n Hn%elem_of_list_to_set%(kahn_ready _ _ _ Hok). by apply Hn.
Qed.

Lemma kahn_total (adj : gmap string (list string)) fuel queue in_degree order :
  (forall d, default [] (adj !! d) = succs d) ->
  kahn_ok queue in_degree order -> size names <= fuel + length order ->
  exists in_degree' order', kahn fuel adj queue in_degree order = Some order' /\
    kahn_ok [] in_degree' order'.
Proof.
  intros Hadj. revert queue in_degree order. induction fuel as [|fuel IH]; intros queue deg order Hok Hf;
    (destruct queue as [|node queue]; [by exists deg, order|]); pose proof (kahn_length _ _ _ Hok) as Hlen;
    simpl in *; [lia|].
  destruct (kahn_step adj node queue deg order Hadj Hok) as (deg' & ready & -> & Hok').
  apply IH; [done|]. rewrite length_app. simpl. lia.
Qed.
End Kahn.

(** ** The graph *)
Definition edges_of (known : gset string) (e : LoadedExtension) : list (string * string) :=
  map (fun d => (d, ext_name e)) (List.filter (fun d => bool_decide (d ∈ known)) (ext_deps e)).
Definition edges (extensions : list LoadedExtension) : list (string * string) :=
  concat (map (edges_of (known_names extensions)) extensions).

Lemma elem_of_known x extensions : x ∈ known_names extensions <-> exists e, e ∈ extensions /\ ext_name e = x.
Proof.
  unfold known_names. rewrite elem_of_list_to_set, list_elem_of_fmap.
  split; [intros (e & -> & ?); by exists e|intros (e & ? & <-); by exists e].
Qed.

Lemma elem_of_edges d n extensions :
  (d, n) ∈ edges extensions <->
  exists e, e ∈ extensions /\ ext_name e = n /\ d ∈ ext_deps e /\ d ∈ known_names extensions.
Proof.
  unfold edges. rewrite list_elem_of_In, in_concat. split.
  - intros (l & Hl & Hin). apply in_map_iff in Hl as (e & <- & He).
    apply in_map_iff in Hin as (d' & [= -> <-] & Hd). apply filter_In in Hd as [Hd Hk%bool_decide_eq_true].
    exists e. by rewrite !list_elem_of_In.
  - intros (e & He & <- & Hd & Hk). exists (edges_of (known_names extensions) e). split.
    + apply in_map. by apply list_elem_of_In.
    + apply in_map_iff. exists d. split; [done|]. apply filter_In.
      rewrite <- list_elem_of_In. by rewrite bool_decide_eq_true_2.
Qed.

Lemma edges_known extensions d n :
  (d, n) ∈ edges extensions -> d ∈ known_names extensions /\ n ∈ known_names extensions.
Proof.
  intros (e & He & <- & _ & Hk)%elem_of_edges. split; [done|]. apply elem_of_known. by exists e.
Qed.

Definition graph_of (es : list (string * string)) (acc : gmap string (list string) * gmap string nat) : Prop :=
  (forall d, default [] (fst acc !! d) = succs es d) /\
  (forall n, default 0 (snd acc !! n) = pending es [] n).

Lemma succs_app es1 es2 d : succs (es1 ++ es2) d = succs es1 d ++ succs es2 d.
Proof. unfold succs. by rewrite List.filter_app, map_app. Qed.

Lemma pending_app es1 es2 order n : pending (es1 ++ es2) order n = pending es1 order n + pending es2 order n.
Proof. unfold pending, pending_in. by rewrite List.filter_app, length_app. Qed.

Lemma add_edge_graph known ext es acc dep :
  graph_of es acc ->
  graph_of (es ++ (if bool_decide (dep ∈ known) then [(dep, ext)] else [])) (add_edge known ext acc dep) /\
  forall n, is_Some (snd (add_edge known ext acc dep) !! n) -> is_Some (snd acc !! n) \/ n = ext.
Proof.
  destruct acc as [adj deg]. intros [Ha Hd]. simpl in *.
  destruct (bool_decide (dep ∈ known)); simpl; [|rewrite app_nil_r; split; [done|auto]].
  split; [split|]; simpl.
  - intros d. rewrite succs_app. unfold succs at 2. simpl. destruct (decide (d = dep)) as [->|Hne].
    + rewrite lookup_insert_eq, bool_decide_eq_true_2 by done. simpl. by rewrite Ha.
    + rewrite lookup_insert_ne, bool_decide_eq_false_2 by congruence. simpl. by rewrite Ha, app_nil_r.
  - intros n. rewrite pending_app. unfold pending at 2, pending_in. simpl.
    destruct (decide (n = ext)) as [->|Hne].
    + rewrite lookup_insert_eq, bool_decide_eq_true_2 by done. simpl. rewrite Hd. lia.
    + rewrite lookup_insert_ne, bool_decide_eq_false_2 by congruence. simpl. rewrite Hd. lia.
  - intros n. destruct (decide (n = ext)) as [->|Hne]; [by right|].
    rewrite lookup_insert_ne by congruence. by left.
Qed.

Lemma add_edges_graph known ext deps es acc :
  graph_of es acc ->
  let acc' := run_list (add_edge known ext) acc deps in
  graph_of (es ++ map (fun d => (d, ext)) (List.filter (fun d => bool_decide (d ∈ known)) deps)) acc' /\
  forall n, is_Some (snd acc' !! n) -> is_Some (snd acc !! n) \/ n = ext.
Proof.
  revert es acc. induction deps as [|d deps IH]; intros es acc Hg; simpl.
  - rewrite app_nil_r. by split; [|left].
  - destruct (add_edge_graph known ext es acc d Hg) as [Hg1 Hs1].
    destruct (IH _ _ Hg1) as [Hg2 Hs2]. split.
    + destruct (bool_decide (d ∈ known)); simpl in *.
      * by rewrite <- app_assoc in Hg2.
      * by rewrite app_nil_r in Hg2.
    + intros n [?|?]%Hs2; auto.
Qed.

Lemma add_edges_keep known ext deps acc n :
  is_Some (snd acc !! n) -> is_Some (snd (run_list (add_edge known ext) acc deps) !! n).
Proof.
  revert acc. induction deps as [|d deps IH]; intros acc Hn; [done|]. apply IH.
  destruct acc as [adj deg]. simpl in *. destruct (bool_decide (d ∈ known)); simpl; [|done].
  destruct (decide (n = ext)) as [->|]; [rewrite lookup_insert_eq; by eexists|by rewrite lookup_insert_ne].
Qed.

Lemma add_extensions_graph known l es acc :
  graph_of es acc ->
  let acc' := run_list (add_extension known) acc l in
  graph_of (es ++ concat (map (edges_of known) l)) acc' /\
  forall n, is_Some (snd acc' !! n) <-> is_Some (snd acc !! n) \/ exists e, e ∈ l /\ ext_name e = n.
Proof.
  revert es acc. induction l as [|e l IH]; intros es acc Hg; simpl.
  - rewrite app_nil_r. split; [done|]. intros n. split; [by left|].
    intros [?|(e & ?%elem_of_nil & _)]; done.
  - destruct acc as [adj deg]. set (deg1 := <[ext_name e := default 0 (deg !! ext_name e)]> deg).
    assert (Hg0 : graph_of es (adj, deg1)).
    { destruct Hg as [Ha Hd]. split; [done|]. simpl in *. intros n. unfold deg1.
      destruct (decide (n = ext_name e)) as [->|]; [by rewrite lookup_insert_eq, <- Hd|by rewrite lookup_insert_ne]. }
    destruct (add_edges_graph known (ext_name e) (ext_deps e) es _ Hg0) as [Hg1 Hs1].
    pose proof (add_edges_keep known (ext_name e) (ext_deps e) (adj, deg1)) as Hk1.
    destruct (IH _ _ Hg1) as [Hg2 Hs2]. unfold add_extension at 2 4. fold deg1. split.
    + unfold edges_of at 1. by rewrite <- app_assoc in Hg2.
    + intros n. rewrite Hs2. split.
      * intros [[Hn| ->]%Hs1|(e' & He' & <-)].
        -- unfold deg1 in Hn. simpl in Hn. destruct (decide (n = ext_name e)) as [->|].
           ++ right. exists e. split; [by apply elem_of_cons; left|done].
           ++ rewrite lookup_insert_ne in Hn by done. by left.
        -- right. exists e. split; [by apply elem_of_cons; left|done].
        -- right. exists e'. split; [by apply elem_of_cons; right|done].
      * assert (Hdeg : is_Some (deg1 !! n) <-> n = ext_name e \/ is_Some (deg !! n)).
        { unfold deg1. destruct (decide (n = ext_name e)) as [->|].
          - rewrite lookup_insert_eq. split; [by left|by eexists].
          - rewrite lookup_insert_ne by done. split; [by right|by intros [?|?]]. }
        intros [Hn|(e' & [->|He']%elem_of_cons & <-)].
        -- left. apply Hk1. simpl. rewrite Hdeg. by right.
        -- left. apply Hk1. simpl. rewrite Hdeg. by left.
        -- right. by exists e'.
Qed.

Lemma build_graph_spec extensions :
  graph_of (edges extensions) (build_graph extensions) /\
  forall n, is_Some (snd (build_graph extensions) !! n) <-> n ∈ known_names extensions.
Proof.
  destruct (add_extensions_graph (known_names extensions) extensions [] (∅, ∅)) as [Hg Hs].
  { split; intros n; simpl; by rewrite lookup_empty. }
  split; [done|]. intros n. unfold build_graph. rewrite Hs, elem_of_known. simpl. rewrite lookup_empty.
  split; [by intros [[]|?]|by right].
Qed.

Lemma elem_of_seeds deg n : n ∈ seeds deg <-> deg !! n = Some 0.
Proof.
  unfold seeds. rewrite sort_strings_perm, list_elem_of_fmap. split.
  - intros ([n' k] & -> & Hin). apply list_elem_of_In, filter_In in Hin as [Hin Hk%Nat.eqb_eq].
    simpl in *. subst. by apply elem_of_map_to_list, list_elem_of_In.
  - intros Hn. exists (n, 0). split; [done|]. apply list_elem_of_In, filter_In.
    split; [by apply list_elem_of_In, elem_of_map_to_list|done].
Qed.

Lemma NoDup_map_fst_filter {A B : Type} (p : A * B -> bool) (l : list (A * B)) :
  NoDup (map fst l) -> NoDup (map fst (List.filter p l)).
Proof.
  induction l as [|x l IH]; [done|]. simpl. intros [Hx Hl]%list.NoDup_cons.
  destruct (p x); simpl; [|by apply IH]. apply list.NoDup_cons. split; [|by apply IH].
  intros (y & E & Hy)%list_elem_of_fmap. apply Hx, list_elem_of_fmap. exists y. split; [done|].
  apply list_elem_of_In, filter_In in Hy as [Hy _]. by apply list_elem_of_In.
Qed.

Lemma NoDup_seeds deg : NoDup (seeds deg).
Proof.
  unfold seeds. rewrite sort_strings_perm. apply NoDup_map_fst_filter, NoDup_fst_map_to_list.
Qed.

Lemma kahn_start extensions :
  kahn_ok (edges extensions) (known_names extensions)
    (seeds (snd (build_graph extensions))) (snd (build_graph extensions)) [].
Proof.
  destruct (build_graph_spec extensions) as [[_ Hd] Hs].
  assert (Hdeg : forall n, n ∈ known_names extensions ->
    snd (build_graph extensions) !! n = Some (pending (edges extensions) [] n)).
  { intros n [k Hk]%Hs. rewrite Hk. f_equal. by rewrite <- Hd, Hk. }
  split; [done|apply NoDup_seeds| |done].
  intros n. simpl. rewrite elem_of_seeds. split.
  - intros Hn. assert (Hin : n ∈ known_names extensions) by (apply Hs; by eexists).
    split; [done|]. rewrite (Hdeg n Hin) in Hn. by injection Hn.
  - intros [Hin Hp]. by rewrite (Hdeg n Hin), Hp.
Qed.

(** Kahn's loop always ends: the names emitted come after all their
    dependencies, and each name left over has a dependency left over. *)
Lemma kahn_result extensions :
  exists order,
    kahn (size (known_names extensions)) (fst (build_graph extensions))
      (seeds (snd (build_graph extensions))) (snd (build_graph extensions)) [] = Some order /\
    NoDup order /\ (forall n, n ∈ order -> n ∈ known_names extensions) /\
    (forall i n d, order !! i = Some n -> (d, n) ∈ edges extensions -> d ∈ take i order) /\
    (forall n, n ∈ known_names extensions -> ~ (n ∈ order) ->
       exists d, (d, n) ∈ edges extensions /\ ~ (d ∈ order)).
Proof.
  destruct (kahn_total (edges extensions) (known_names extensions) (edges_known extensions)
    (fst (build_graph extensions)) (size (known_names extensions))
    (seeds (snd (build_graph extensions))) (snd (build_graph extensions)) [])
    as (deg & order & Hk & Hok).
  - apply build_graph_spec.
  - apply kahn_start.
  - simpl. lia.
  - exists order. split; [done|]. destruct Hok as [_ Hnd Hready Hsorted].
    rewrite app_nil_r in Hnd. split; [done|]. split; [|split; [done|]].
    + intros n Hn. apply (Hready n). by rewrite app_nil_r.
    + intros n Hn Hout. destruct (decide (Forall (fun e => snd e = n -> fst e ∈ order) (edges extensions)))
        as [Hall|Hex].
      * exfalso. apply Hout. rewrite <- (app_nil_r order). apply Hready. split; [done|].
        apply pending_zero. intros d Hd. rewrite list.Forall_forall in Hall. by apply (Hall (d, n)).
      * apply not_Forall_Exists in Hex; [|apply _]. apply list.Exists_exists in Hex as ([d m] & Hin & Hne).
        simpl in Hne. exists d.
        assert (m = n) as -> by (destruct (decide (m = n)) as [|Hm]; [done|exfalso; by apply Hne]).
        split; [done|]. intros Hd. by apply Hne.
Qed.

(** ** The search *)

Definition chain (R : string -> string -> Prop) (l : list string) : Prop :=
  forall i x y, l !! i = Some x -> l !! S i = Some y -> R x y.

(** A closed walk along [R]. *)
Definition is_cycle (R : string -> string -> Prop) (c : list string) : Prop :=
  (exists x mid, c = x :: mid ++ [x]) /\ chain R c.

Lemma chain_snoc R l x y : chain R (l ++ [x]) -> R x y -> chain R ((l ++ [x]) ++ [y]).
Proof.
  intros Hc Hxy i u v Hu Hv. apply lookup_app_Some in Hv as [Hv|[Hlen Hv]].
  - rewrite lookup_app_l in Hu by (apply lookup_lt_Some in Hv; lia). by eapply Hc.
  - apply list_lookup_singleton_Some in Hv as [Hi <-]. rewrite length_app in *. simpl in *.
    assert (i = length l) as -> by lia. rewrite lookup_app_l in Hu by (rewrite length_app; simpl; lia).
    rewrite (list_lookup_middle l [] x (length l) eq_refl) in Hu. by injection Hu as <-.
Qed.

Lemma chain_start R l x : chain R l -> (forall y, last l = Some y -> R y x) -> chain R (l ++ [x]).
Proof.
  intros Hc Hl. destruct l as [|z l] using rev_ind; [by intros [|] ? ?|].
  apply chain_snoc; [done|]. apply Hl. by rewrite last_snoc.
Qed.

Lemma chain_drop R n l : chain R l -> chain R (drop n l).
Proof. intros Hc i x y. rewrite !lookup_drop, Nat.add_succ_r. apply Hc. Qed.

Lemma chain_prefix R l1 l2 : chain R (l1 ++ l2) -> chain R l1.
Proof. intros Hc i x y Hx Hy. by eapply Hc; apply lookup_app_l_Some. Qed.

Lemma position_elem x l : x ∈ l -> exists i, position x l = Some i /\ l !! i = Some x.
Proof.
  induction l as [|y l IH]; [by intros ?%elem_of_nil|]. intros Hin. simpl.
  case_bool_decide as E; [exists 0; by rewrite E|].
  apply elem_of_cons in Hin as [->|Hin]; [done|]. destruct (IH Hin) as (i & -> & Hi). by exists (S i).
Qed.

Lemma removelast_snoc {A : Type} (l : list A) x : removelast (l ++ [x]) = l.
Proof. induction l as [|y l IH]; [done|]. simpl. rewrite IH. by destruct l. Qed.

(** What a call leaves: the stack as it was, more visited, more cycles. *)
Record grows (st st' : DfsState) : Prop := {
  grows_path : path st' = path st;
  grows_stack : on_stack st' = on_stack st;
  grows_visited : visited st ⊆ visited st';
  grows_cycles : exists new, cycles st' = cycles st ++ new;
}.

Lemma grows_refl st : grows st st.
Proof. split; [done..|]. exists []. by rewrite app_nil_r. Qed.

Lemma grows_trans st1 st2 st3 : grows st1 st2 -> grows st2 st3 -> grows st1 st3.
Proof.
  intros [Hp1 Hs1 Hv1 [n1 Hc1]] [Hp2 Hs2 Hv2 [n2 Hc2]]. split; [congruence|congruence|set_solver|].
  exists (n1 ++ n2). by rewrite Hc2, Hc1, app_assoc.
Qed.

Section Search.
Context (adj : gmap string (list string)) (involved : gset string).
Definition arrow (x y : string) : Prop := y ∈ default [] (adj !! x).
Context (Hclosed : forall x y, arrow x y -> y ∈ involved).

Record dfs_ok (st : DfsState) : Prop := {
  dfs_visited : visited st ⊆ involved;
  dfs_stack : on_stack st ⊆ visited st;
  dfs_path : forall x, x ∈ on_stack st <-> x ∈ path st;
  dfs_chain : chain arrow (path st);
  dfs_real : forall c, c ∈ cycles st -> is_cycle arrow c;
}.

Lemma enter_ok node st :
  dfs_ok st -> node ∈ involved -> chain arrow (path st ++ [node]) -> dfs_ok (enter node st).
Proof.
  intros [Hv Hs Hp Hc Hr] Hin Hch. split; simpl.
  - set_solver.
  - set_solver.
  - intros x. rewrite elem_of_union, elem_of_singleton, elem_of_app, list_elem_of_singleton, Hp.
    split; by intros [?|?]; auto.
  - done.
  - done.
Qed.

Lemma leave_enter node st st1 :
  dfs_ok st -> node ∉ on_stack st -> dfs_ok st1 -> grows (enter node st) st1 ->
  dfs_ok (leave node st1) /\ grows st (leave node st1) /\ node ∈ visited (leave node st1).
Proof.
  intros Hok Hn [Hv Hs Hp Hc Hr] [Hgp Hgs Hgv Hgc]. simpl in *. rewrite Hgp, Hgs in *.
  assert (Hstack : ({[node]} ∪ on_stack st) ∖ {[node]} = on_stack st) by (apply set_eq; set_solver).
  assert (Hgrow : grows st (leave node st1)).
  { split; simpl; [by rewrite Hgp, removelast_snoc|by rewrite Hgs|set_solver|done]. }
  split; [|split; [done|set_solver]]. destruct Hok as [Hv0 Hs0 Hp0 Hc0 Hr0].
  split; simpl; rewrite ?Hgp, ?Hgs, ?removelast_snoc, ?Hstack; try done. set_solver.
Qed.

(** A neighbour that is visited closes a cycle if it is on the stack. *)
Lemma close_cycle_ok node next st l :
  dfs_ok st -> path st = l ++ [node] -> arrow node next ->
  dfs_ok (close_cycle next st) /\ grows st (close_cycle next st) /\
  (next ∈ on_stack st -> cycles (close_cycle next st) <> []).
Proof.
  intros Hok Hpath Harr. unfold close_cycle. case_bool_decide as Hin; [|by split; [|split; [apply grows_refl|]]].
  destruct (position_elem next (path st)) as (i & Hi & Hl); [by apply (dfs_path _ Hok)|]. rewrite Hi.
  destruct Hok as [Hv Hs Hp Hc Hr]. split; [|split].
  - split; simpl; try done. intros c [Hc'|Hc']%elem_of_app; [by apply Hr|].
    apply list_elem_of_singleton in Hc' as ->. split.
    + exists next, (drop (S i) (path st)). by rewrite (drop_S _ next) by done.
    + destruct (decide (i = length l)) as [->|Hne].
      * rewrite Hpath, drop_app_length. apply (chain_snoc arrow []); [by intros [|]|]. simpl.
        rewrite Hpath, (list_lookup_middle l [] node (length l) eq_refl) in Hl. by injection Hl as <-.
      * assert (Hi' : i <= length l).
        { apply lookup_lt_Some in Hl. rewrite Hpath, length_app in Hl. simpl in Hl. lia. }
        rewrite Hpath, drop_app_le by done. apply chain_snoc; [|done].
        rewrite <- drop_app_le by done. rewrite <- Hpath. by apply chain_drop.
  - split; [done..|]. by eexists.
  - intros _. simpl. by intros [_ ?]%app_eq_nil.
Qed.

Definition visit (fuel : nat) (st : DfsState) (next : string) : option DfsState :=
  if bool_decide (next ∈ visited st) then Some (close_cycle next st)
  else dfs_find_cycles fuel adj next st.

Definition spec (fuel : nat) : Prop := forall node st,
  dfs_ok st -> chain arrow (path st ++ [node]) -> node ∈ involved -> node ∉ visited st ->
  size (involved ∖ visited st) <= fuel ->
  exists st', dfs_find_cycles fuel adj node st = Some st' /\ dfs_ok st' /\ grows st st' /\
    node ∈ visited st'.

Lemma visit_ok fuel node next l st :
  spec fuel -> dfs_ok st -> path st = l ++ [node] -> arrow node next ->
  size (involved ∖ visited st) <= fuel ->
  exists st', visit fuel st next = Some st' /\ dfs_ok st' /\ grows st st'.
Proof.
  intros Hspec Hok Hp Harr Hf. unfold visit. case_bool_decide as Hin.
  - destruct (close_cycle_ok node next st l Hok Hp Harr) as (? & ? & _). by eexists.
  - destruct (Hspec next st Hok) as (st' & ? & ? & ? & _); try done; [|by eapply Hclosed|by exists st'].
    rewrite Hp. apply chain_snoc; [|done]. rewrite <- Hp. apply (dfs_chain _ Hok).
Qed.

Lemma visits_ok fuel node l ns st :
  spec fuel -> dfs_ok st -> path st = l ++ [node] -> (forall n, n ∈ ns -> arrow node n) ->
  size (involved ∖ visited st) <= fuel ->
  exists st', try_fold (visit fuel) st ns = Some st' /\ dfs_ok st' /\ grows st st'.
Proof.
  intros Hspec. revert st. induction ns as [|n ns IH]; intros st Hok Hp Hns Hf.
  - exists st. split; [done|]. split; [done|apply grows_refl].
  - destruct (visit_ok fuel node n l st Hspec Hok Hp) as (st1 & He1 & Hok1 & Hg1);
      [by apply Hns, elem_of_cons; left|done|].
    simpl. rewrite He1. destruct (IH st1) as (st2 & He2 & Hok2 & Hg2); try done.
    + by rewrite (grows_path _ _ Hg1).
    + intros m Hm. by apply Hns, elem_of_cons; right.
    + etrans; [|exact Hf]. apply subseteq_size. pose proof (grows_visited _ _ Hg1). set_solver.
    + exists st2. split; [done|]. split; [done|]. by eapply grows_trans.
Qed.

Lemma enter_fuel node st fuel :
  node ∈ involved -> node ∉ visited st -> size (involved ∖ visited st) <= S fuel ->
  size (involved ∖ visited (enter node st)) <= fuel.
Proof.
  intros Hin Hn Hf. simpl.
  assert (Heq : involved ∖ visited st ≡ {[node]} ∪ (involved ∖ ({[node]} ∪ visited st))).
  { intros x. destruct (decide (x = node)) as [->|]; set_solver. }
  rewrite Heq, size_union, size_singleton in Hf by set_solver. lia.
Qed.

Lemma dfs_spec fuel : spec fuel.
Proof.
  induction fuel as [|fuel IH]; intros node st Hok Hch Hin Hn Hf.
  - exfalso. assert (Hz : size (involved ∖ visited st) = 0) by lia.
    apply size_empty_iff in Hz. set_solver.
  - simpl. destruct (visits_ok fuel node (path st) (default [] (adj !! node)) (enter node st) IH)
      as (st1 & He & Hok1 & Hg1); try done.
    + by apply enter_ok.
    + by apply enter_fuel.
    + unfold visit in He. rewrite He. eexists. split; [done|].
      apply (leave_enter node st st1); try done. pose proof (dfs_stack _ Hok). set_solver.
Qed.

(** Where every node leads on, the first node visited closes a cycle: nothing
    has left the stack before. *)
Context (Hnonempty : forall x, x ∈ involved -> default [] (adj !! x) <> []).

Lemma dfs_finds fuel node st :
  dfs_ok st -> chain arrow (path st ++ [node]) -> node ∈ involved -> node ∉ visited st ->
  size (involved ∖ visited st) <= fuel -> visited st = on_stack st ->
  forall st', dfs_find_cycles fuel adj node st = Some st' -> cycles st' <> [].
Proof.
  revert node st. induction fuel as [|fuel IH]; intros node st Hok Hch Hin Hn Hf Hall st' He; [done|].
  simpl in He. assert (Hok1 : dfs_ok (enter node st)) by by apply enter_ok.
  pose proof (enter_fuel node st fuel Hin Hn Hf) as Hf1.
  pose proof (Hnonempty node Hin) as Hne. assert (Harr : forall n, n ∈ default [] (adj !! node) -> arrow node n) by done.
  destruct (default [] (adj !! node)) as [|n ns]; [done|].
  destruct (visit_ok fuel node n (path st) (enter node st) (dfs_spec fuel) Hok1 eq_refl) as (st1 & He1 & Hok1' & Hg1);
    [by apply Harr, elem_of_cons; left|done|].
  assert (Hc1 : cycles st1 <> []).
  { unfold visit in He1. case_bool_decide as Hv.
    - injection He1 as <-.
      apply (close_cycle_ok node n (enter node st) (path st)); [done|done|by apply Harr, elem_of_cons; left|].
      simpl in *. by rewrite <- Hall.
    - apply (IH n (enter node st)); try done.
      + apply chain_snoc; [done|]. by apply Harr, elem_of_cons; left.
      + eapply Hclosed. by apply Harr, elem_of_cons; left.
      + simpl. by rewrite Hall. }
  destruct (visits_ok fuel node (path st) ns st1 (dfs_spec fuel) Hok1') as (st2 & He2 & _ & Hg2).
  - by rewrite (grows_path _ _ Hg1).
  - intros m Hm. by apply Harr, elem_of_cons; right.
  - etrans; [|exact Hf1]. apply subseteq_size. pose proof (grows_visited _ _ Hg1). set_solver.
  - assert (He' : match try_fold (visit fuel) (enter node st) (n :: ns) with
      | Some st2 => Some (leave node st2) | None => None end = Some st') by exact He.
    cbn [try_fold] in He'. rewrite He1, He2 in He'. injection He' as <-. simpl.
    destruct (grows_cycles _ _ Hg2) as [new ->]. by intros [? _]%app_eq_nil.
Qed.
End Search.

(** [x] lists [y] among its dependencies, and [y] is there. *)
Definition depends (extensions : list LoadedExtension) (x y : string) : Prop :=
  exists e, e ∈ extensions /\ ext_name e = x /\ y ∈ ext_deps e /\ y ∈ known_names extensions.

Lemma depends_edge extensions x y : depends extensions x y <-> (y, x) ∈ edges extensions.
Proof. symmetry. apply elem_of_edges. Qed.

Lemma elem_of_involved_deps involved e y :
  y ∈ involved_deps involved e <-> y ∈ ext_deps e /\ y ∈ involved.
Proof.
  unfold involved_deps. rewrite sort_strings_perm, !list_elem_of_In, filter_In.
  by rewrite bool_decide_eq_true.
Qed.

Lemma involved_graph_arrow involved extensions x y :
  arrow (involved_graph involved extensions) x y ->
  x ∈ involved /\ y ∈ involved /\ exists e, e ∈ extensions /\ ext_name e = x /\ y ∈ ext_deps e.
Proof.
  unfold arrow, involved_graph.
  apply (run_list_invariant _ (fun adj => y ∈ default [] (adj !! x) ->
    x ∈ involved /\ y ∈ involved /\ exists e, e ∈ extensions /\ ext_name e = x /\ y ∈ ext_deps e)).
  - rewrite lookup_empty. by intros ?%elem_of_nil.
  - intros adj e IH He%list_elem_of_In. case_bool_decide as Hin; [|done].
    destruct (decide (ext_name e = x)) as [<-|Hne].
    + rewrite lookup_insert_eq. simpl. intros [Hy Hi]%elem_of_involved_deps. eauto 6.
    + by rewrite lookup_insert_ne.
Qed.

Lemma involved_graph_lookup involved extensions e :
  NoDup (map ext_name extensions) -> e ∈ extensions -> ext_name e ∈ involved ->
  involved_graph involved extensions !! ext_name e = Some (involved_deps involved e).
Proof.
  intros Hnd He Hin. unfold involved_graph. induction extensions as [|e' l IH] using rev_ind;
    [by apply elem_of_nil in He|].
  rewrite map_app in Hnd. apply list.NoDup_app in Hnd as (Hnd & Hdis & _).
  rewrite run_list_app. cbn [run_list fold_left]. apply elem_of_app in He as [He|He].
  - case_bool_decide; [|by apply IH]. rewrite lookup_insert_ne; [by apply IH|].
    intros E. apply (Hdis (ext_name e)); [by apply list_elem_of_fmap_2|]. rewrite <- E.
    apply list_elem_of_fmap_2. by apply list_elem_of_singleton.
  - apply list_elem_of_singleton in He as ->. by rewrite bool_decide_eq_true_2, lookup_insert_eq.
Qed.

Section FindCycles.
Context (extensions : list LoadedExtension) (involved : gset string).
Let adj := involved_graph involved extensions.

Lemma involved_closed x y : arrow adj x y -> y ∈ involved.
Proof. by intros (_ & ? & _)%involved_graph_arrow. Qed.

Definition visit_root (st : DfsState) (node : string) : option DfsState :=
  if bool_decide (node ∈ visited st) then Some st
  else dfs_find_cycles (S (size involved)) adj node st.

Lemma visit_roots_ok nodes st :
  dfs_ok adj involved st -> path st = [] -> (forall n, n ∈ nodes -> n ∈ involved) ->
  exists st', try_fold visit_root st nodes = Some st' /\ dfs_ok adj involved st' /\ grows st st'.
Proof.
  revert st. induction nodes as [|n nodes IH]; intros st Hok Hp Hns.
  { exists st. split; [done|]. split; [done|apply grows_refl]. }
  assert (Hn : n ∈ involved) by by apply Hns, elem_of_cons; left.
  assert (Hone : exists st1, visit_root st n = Some st1 /\ dfs_ok adj involved st1 /\ grows st st1).
  { unfold visit_root. case_bool_decide as Hv; [exists st; split; [done|]; split; [done|apply grows_refl]|].
    destruct (dfs_spec adj involved involved_closed (S (size involved)) n st) as (st1 & ? & ? & ? & _); try done.
    - rewrite Hp. by intros [|] ? ?.
    - transitivity (size involved); [apply subseteq_size; set_solver|lia].
    - by exists st1. }
  destruct Hone as (st1 & He1 & Hok1 & Hg1). simpl. rewrite He1.
  destruct (IH st1) as (st2 & ? & ? & ?); try done.
  - by rewrite (grows_path _ _ Hg1).
  - intros m Hm. by apply Hns, elem_of_cons; right.
  - exists st2. split; [done|]. split; [done|]. by apply (grows_trans st st1 st2).
Qed.

Lemma dfs_start : dfs_ok adj involved (mkDfs ∅ ∅ [] []).
Proof. split; simpl; try set_solver. by intros [|] ? ?. Qed.

Lemma find_cycles_real :
  exists cs, find_cycles extensions involved = Some cs /\
    forall c, c ∈ cs -> is_cycle (arrow adj) c.
Proof.
  destruct (visit_roots_ok (sorted_nodes involved) (mkDfs ∅ ∅ [] [])) as (st & He & Hok & _).
  - apply dfs_start.
  - done.
  - intros n. by rewrite elem_of_sorted_nodes.
  - exists (cycles st). split; [|apply (dfs_real _ _ _ Hok)]. unfold find_cycles.
    unfold visit_root in He. fold adj. by rewrite He.
Qed.

Lemma find_cycles_found :
  involved <> ∅ -> (forall x, x ∈ involved -> default [] (adj !! x) <> []) ->
  forall cs, find_cycles extensions involved = Some cs -> cs <> [].
Proof.
  intros Hne Hall cs Hcs.
  assert (Hf : option_map cycles (try_fold visit_root (mkDfs ∅ ∅ [] []) (sorted_nodes involved)) = Some cs)
    by exact Hcs.
  clear Hcs. pose proof (elem_of_sorted_nodes) as Hsn.
  destruct (sorted_nodes involved) as [|n ns] eqn:Hns.
  { exfalso. apply Hne, set_eq. intros x. rewrite <- Hsn, Hns. set_solver. }
  assert (Hmem : forall x, x ∈ n :: ns -> x ∈ involved) by (intros x; by rewrite <- Hns, Hsn).
  assert (Hn : n ∈ involved) by by apply Hmem, elem_of_cons; left.
  assert (Hchain : chain (arrow adj) (path (mkDfs ∅ ∅ [] []) ++ [n])) by (by intros [|] ? ?).
  assert (Hsize : size (involved ∖ visited (mkDfs ∅ ∅ [] [])) <= S (size involved)).
  { transitivity (size involved); [apply subseteq_size; set_solver|lia]. }
  destruct (dfs_spec adj involved involved_closed (S (size involved)) n (mkDfs ∅ ∅ [] [])
    dfs_start Hchain Hn ltac:(set_solver) Hsize) as (st1 & He1 & Hok1 & Hg1 & _).
  pose proof (dfs_finds adj involved involved_closed Hall (S (size involved)) n (mkDfs ∅ ∅ [] [])
    dfs_start Hchain Hn ltac:(set_solver) Hsize eq_refl st1 He1) as Hc1.
  destruct (visit_roots_ok ns st1 Hok1) as (st2 & He2 & _ & Hg2).
  - by rewrite (grows_path _ _ Hg1).
  - intros m Hm. by apply Hmem, elem_of_cons; right.
  - cbn [try_fold] in Hf. unfold visit_root at 1 in Hf. rewrite He1 in Hf.
    rewrite bool_decide_eq_false_2 in Hf by (simpl; set_solver). rewrite He2 in Hf.
    injection Hf as <-. destruct (grows_cycles _ _ Hg2) as [new ->]. by intros [? _]%app_eq_nil.
Qed.
End FindCycles.

(** ** The order and the cycles *)

(** A cycle of dependencies is within reach of [x]. *)
Definition cycle_below (extensions : list LoadedExtension) (x : string) : Prop :=
  exists y, rtc (depends extensions) x y /\ tc (depends extensions) y y.

Definition acyclic (extensions : list LoadedExtension) : Prop :=
  forall x, ~ tc (depends extensions) x x.

(** [d] comes before [n] in [l]. *)
Definition before (l : list string) (d n : string) : Prop :=
  exists i j, l !! i = Some d /\ l !! j = Some n /\ i < j.

Lemma chain_rtc R l x y : chain R (x :: l) -> last (x :: l) = Some y -> rtc R x y.
Proof.
  revert x. induction l as [|z l IH]; intros x Hc Hl; [by injection Hl as ->|].
  apply (rtc_l _ x z); [by apply (Hc 0)|]. apply IH; [|done]. intros i u v. apply (Hc (S i)).
Qed.

Lemma cycle_tc R c : is_cycle R c -> exists x, tc R x x.
Proof.
  intros [(x & mid & ->) Hc]. exists x. destruct mid as [|z mid].
  - apply tc_once. by apply (Hc 0).
  - apply tc_rtc_r with z; [apply tc_once; by apply (Hc 0)|].
    apply (chain_rtc R (mid ++ [x])); [intros i u v; apply (Hc (S i))|].
    change (last ((z :: mid) ++ [x]) = Some x). apply last_snoc.
Qed.

(** From a name left over, the names left over lead into a cycle. *)
Lemma stuck_below extensions (order : list string) :
  (forall n, n ∈ known_names extensions -> ~ (n ∈ order) ->
     exists d, (d, n) ∈ edges extensions /\ ~ (d ∈ order)) ->
  forall n, n ∈ known_names extensions -> ~ (n ∈ order) -> cycle_below extensions n.
Proof.
  intros Hstuck.
  assert (Hwalk : forall k (seen : gset string) n,
    size (known_names extensions ∖ seen) <= k -> n ∈ known_names extensions -> ~ (n ∈ order) ->
    (forall x, x ∈ seen -> tc (depends extensions) x n) -> cycle_below extensions n).
  { intros k. induction k as [|k IH]; intros seen n Hk Hn Ho Hseen.
    - assert (Hin : n ∈ seen).
      { assert (Hz : size (known_names extensions ∖ seen) = 0) by lia. apply size_empty_iff in Hz.
        destruct (decide (n ∈ seen)); [done|]. set_solver. }
      exists n. split; [apply rtc_refl|by apply Hseen].
    - destruct (decide (n ∈ seen)) as [Hin|Hout]; [exists n; split; [apply rtc_refl|by apply Hseen]|].
      destruct (Hstuck n Hn Ho) as (d & Hd & Hdo).
      destruct (IH ({[n]} ∪ seen) d) as (y & Hy & Hc).
      + assert (Heq : known_names extensions ∖ seen ≡
          {[n]} ∪ (known_names extensions ∖ ({[n]} ∪ seen))).
        { intros x. destruct (decide (x = n)) as [->|]; set_solver. }
        rewrite Heq, size_union, size_singleton in Hk by set_solver. lia.
      + by apply (edges_known _ d n).
      + done.
      + intros x [->%elem_of_singleton|Hx]%elem_of_union; [by apply tc_once, depends_edge|].
        eapply tc_r; [by apply Hseen|by apply depends_edge].
      + exists y. split; [|done]. eapply rtc_l; [by apply depends_edge|done]. }
  intros n Hn Ho. apply (Hwalk (size (known_names extensions)) ∅); try done.
  apply subseteq_size. set_solver.
Qed.

(** What [compute_topological_order] returns, in terms of what Kahn's loop
    emitted and what it left over. *)
Lemma compute_topological_order_total extensions :
  exists emitted cs,
    let remaining := known_names extensions ∖ list_to_set emitted in
    compute_topological_order extensions = Some (emitted ++ sorted_nodes remaining, cs) /\
    NoDup emitted /\ (forall n, n ∈ emitted -> n ∈ known_names extensions) /\
    (forall i n d, emitted !! i = Some n -> (d, n) ∈ edges extensions -> d ∈ take i emitted) /\
    (forall n, n ∈ remaining -> exists d, (d, n) ∈ edges extensions /\ d ∈ remaining) /\
    (forall c, c ∈ cs -> is_cycle (arrow (involved_graph remaining extensions)) c) /\
    (remaining = ∅ -> cs = []) /\
    (remaining <> ∅ -> find_cycles extensions remaining = Some cs).
Proof.
  destruct (kahn_result extensions) as (emitted & Hk & Hnd & Hin & Hsorted & Hstuck).
  destruct (find_cycles_real extensions (known_names extensions ∖ list_to_set emitted)) as (found & Hf & Hreal).
  exists emitted.
  exists (if bool_decide (known_names extensions ∖ list_to_set emitted = ∅) then [] else found).
  cbv zeta. unfold compute_topological_order.
  destruct (build_graph extensions) as [adj deg]. simpl in Hk. rewrite Hk.
  split.
  { case_bool_decide; [done|]. by rewrite Hf. }
  split; [done|]. split; [done|]. split; [done|]. split; [|split; [|split]].
  - intros n [Hn Ho]%elem_of_difference. destruct (Hstuck n Hn) as (d & Hd & Hdo).
    { intros H. by apply Ho, elem_of_list_to_set. }
    exists d. split; [done|]. apply elem_of_difference. split; [by apply (edges_known _ d n)|].
    intros H. by apply Hdo, (elem_of_list_to_set (C := gset string)).
  - case_bool_decide; [by intros c ?%elem_of_nil|done].
  - intros ->. by rewrite bool_decide_eq_true_2.
  - intros Hne. by rewrite bool_decide_eq_false_2.
Qed.

(** C11. The load order is right.  [compute_topological_order] always returns
    (no panic, and its loops end): the order lists every extension name exactly
    once, and an extension from which no cycle of dependencies is within reach
    comes after every dependency of it that is present. *)
Theorem load_order_sorted extensions :
  exists order cs, compute_topological_order extensions = Some (order, cs) /\
    NoDup order /\ (forall n, n ∈ order <-> n ∈ known_names extensions) /\
    forall n d, depends extensions n d -> ~ cycle_below extensions n -> before order d n.
Proof.
  destruct (compute_topological_order_total extensions)
    as (emitted & cs & He & Hnd & Hin & Hsorted & Hstuck & _). cbv zeta in *.
  set (remaining := known_names extensions ∖ list_to_set emitted) in *.
  assert (Hrem : forall n, n ∈ remaining <-> n ∈ known_names extensions /\ ~ (n ∈ emitted)).
  { intros n. unfold remaining. by rewrite elem_of_difference, elem_of_list_to_set. }
  exists (emitted ++ sorted_nodes remaining), cs. split; [done|]. split; [|split].
  - apply list.NoDup_app. split; [done|]. split; [|apply NoDup_sorted_nodes].
    intros n Hn [_ Ho]%elem_of_sorted_nodes%Hrem. done.
  - intros n. rewrite elem_of_app, elem_of_sorted_nodes, Hrem. split.
    + intros [?|[? _]]; auto.
    + intros Hn. destruct (decide (n ∈ emitted)); auto.
  - intros n d Hd Hno. apply depends_edge in Hd.
    destruct (decide (n ∈ emitted)) as [Hn|Hn].
    + apply list_elem_of_lookup_1 in Hn as [j Hj]. pose proof (Hsorted j n d Hj Hd) as Ht.
      apply list_elem_of_lookup_1 in Ht as [i Hi]. apply lookup_take_Some in Hi as [Hi Hlt].
      exists i, j. split; [by apply lookup_app_l_Some|]. split; [by apply lookup_app_l_Some|done].
    + exfalso. apply Hno. apply (stuck_below extensions emitted); [|by apply (edges_known _ d n)|done].
      intros m Hm Ho. destruct (Hstuck m) as (d' & ? & [_ ?]%Hrem); [by apply Hrem|]. by exists d'.
Qed.

Lemma cycles_reported_iff extensions order cs :
  NoDup (map ext_name extensions) ->
  compute_topological_order extensions = Some (order, cs) ->
  (forall c, c ∈ cs -> is_cycle (depends extensions) c) /\ (cs = [] <-> acyclic extensions).
Proof.
  intros Hnames Hcompute.
  destruct (compute_topological_order_total extensions)
    as (emitted & cs' & He & _ & _ & Hsorted & Hstuck & Hreal & Hnone & Hsome). cbv zeta in *.
  rewrite Hcompute in He. injection He as _ <-.
  set (remaining := known_names extensions ∖ list_to_set emitted) in *.
  assert (Harrow : forall x y, arrow (involved_graph remaining extensions) x y -> depends extensions x y).
  { intros x y (_ & Hy & e & He & Hx & Hd)%involved_graph_arrow. exists e. split; [done|]. split; [done|].
    split; [done|]. by apply elem_of_difference in Hy as [Hy _]. }
  assert (Hcyc : forall c, c ∈ cs -> is_cycle (depends extensions) c).
  { intros c Hc. destruct (Hreal c Hc) as [Hsh Hch]. split; [done|]. intros i x y Hx Hy. apply Harrow. by eapply Hch. }
  split; [done|]. split.
  - intros ->. assert (Hemp : remaining = ∅).
    { destruct (decide (remaining = ∅)) as [|Hne]; [done|]. exfalso.
      apply (find_cycles_found extensions remaining Hne) with (cs := []); [|by apply Hsome|done].
      intros x Hx. destruct (Hstuck x Hx) as (d & (e & He & <- & Hd & _)%elem_of_edges & Hdr).
      rewrite (involved_graph_lookup remaining extensions e Hnames He Hx). simpl. intros E.
      assert (Hbad : d ∈ involved_deps remaining e) by by apply elem_of_involved_deps.
      rewrite E in Hbad. by apply elem_of_nil in Hbad. }
    assert (Hdec : forall x y, tc (depends extensions) x y ->
      forall i, emitted !! i = Some x -> exists j, j < i /\ emitted !! j = Some y).
    { intros x y Hxy. induction Hxy as [x y Hd|x y z Hd _ IH]; intros i Hi;
        apply depends_edge in Hd; pose proof (Hsorted i x y Hi Hd) as Ht;
        apply list_elem_of_lookup_1 in Ht as [j Hj]; apply lookup_take_Some in Hj as [Hj Hlt].
      - by exists j.
      - destruct (IH j Hj) as (k & ? & ?). exists k. split; [lia|done]. }
    intros x Hx. assert (Hin : x ∈ emitted).
    { destruct (decide (x ∈ emitted)) as [|Ho]; [done|].
      assert (Hbad : x ∈ remaining); [|by rewrite Hemp in Hbad].
      apply elem_of_difference. split; [|by rewrite elem_of_list_to_set].
      inversion Hx as [? ? Hd|? y ? Hd]; subst; by apply depends_edge, edges_known in Hd as [_ ?]. }
    assert (Hloop : forall i, emitted !! i = Some x -> False).
    { intros i. induction i as [i IHi] using lt_wf_ind. intros Hi.
      destruct (Hdec x x Hx i Hi) as (j & Hlt & Hj). by apply (IHi j). }
    apply list_elem_of_lookup_1 in Hin as [i Hi]. by apply (Hloop i).
  - intros Hac. destruct cs as [|c cs]; [done|]. exfalso.
    assert (Hc : c ∈ c :: cs) by (apply elem_of_cons; by left).
    destruct (cycle_tc _ c (Hcyc c Hc)) as [x Hx]. by apply (Hac x).
Qed.

(** C15. The cycles reported are right, for extensions of distinct names: each
    is a closed walk along the dependencies, and one is reported exactly when
    some extension depends on itself, directly or through others. *)
Theorem cycles_reported extensions order cs :
  NoDup (map ext_name extensions) ->
  compute_topological_order extensions = Some (order, cs) ->
  (forall c, c ∈ cs -> is_cycle (depends extensions) c) /\ (cs = [] <-> acyclic extensions).
Proof. apply cycles_reported_iff. Qed.

(** ** The issues *)

Lemma empty_iff {A : Type} (l : list A) : l = [] <-> forall x, ~ (x ∈ l).
Proof.
  split; [intros -> x; apply not_elem_of_nil|]. intros H. destruct l as [|x l]; [done|].
  exfalso. apply (H x). apply elem_of_cons. by left.
Qed.

Lemma is_empty_app_iff {A : Type} (l1 l2 : list A) : is_empty (l1 ++ l2) = true <-> l1 = [] /\ l2 = [].
Proof. destruct l1, l2; simpl; naive_solver. Qed.

Lemma map_empty_iff {A B : Type} (f : A -> B) l : map f l = [] <-> l = [].
Proof. by destruct l. Qed.
Section Issues.
Context {Version VersionReq : Type}.
Context (version_parse : string -> option Version) (req_parse : string -> option VersionReq)
  (req_matches : VersionReq -> Version -> bool).
Let matches := version_matches version_parse req_parse req_matches.
Let validate := validate_dependencies version_parse req_parse req_matches.

Lemma versions_of_spec extensions n v :
  NoDup (map ext_name extensions) ->
  versions_of extensions !! n = Some v <->
  exists e, e ∈ extensions /\ ext_name e = n /\ version (manifest e) = v.
Proof.
  induction extensions as [|e l IH] using rev_ind; intros Hnd.
  { unfold versions_of. simpl. rewrite lookup_empty. split; [done|by intros (e & ?%elem_of_nil & _)]. }
  rewrite map_app in Hnd. apply list.NoDup_app in Hnd as (Hnd & Hdis & _).
  unfold versions_of in *. rewrite run_list_app. cbn [run_list fold_left].
  destruct (decide (ext_name e = n)) as [<-|Hne].
  - rewrite lookup_insert_eq. split.
    + intros [= <-]. exists e. split; [apply elem_of_app; right; by apply list_elem_of_singleton|done].
    + intros (e' & [He'| ->%list_elem_of_singleton]%elem_of_app & Hn & <-); [|done]. exfalso.
      apply (Hdis (ext_name e')); [by apply list_elem_of_fmap_2|]. rewrite Hn.
      apply list_elem_of_fmap_2. by apply list_elem_of_singleton.
  - rewrite lookup_insert_ne, IH by done. split; intros (e' & He' & Hn & Hv).
    + exists e'. split; [by apply elem_of_app; left|done].
    + apply elem_of_app in He' as [He'| ->%list_elem_of_singleton]; [by exists e'|done].
Qed.

Lemma versions_of_none extensions n :
  NoDup (map ext_name extensions) -> versions_of extensions !! n = None <-> n ∉ known_names extensions.
Proof.
  intros Hnd. rewrite eq_None_not_Some, elem_of_known. split; intros Hno; contradict Hno.
  - destruct Hno as (e & He & Hn). exists (version (manifest e)). apply versions_of_spec; [done|]. by exists e.
  - destruct Hno as [v (e & He & Hn & _)%versions_of_spec]; [|done]. by exists e.
Qed.

(** The issues the first pass finds, as a membership. *)
Lemma found_spec extensions i :
  i ∈ concat (map (check_extension version_parse req_parse req_matches (versions_of extensions)) extensions) <->
  exists e d q, e ∈ extensions /\ (d, q) ∈ dependencies (manifest e) /\
    match versions_of extensions !! d with
    | None => i = DependencyIssue.Missing (ext_name e) d q
    | Some v => matches q v = false /\ i = DependencyIssue.VersionMismatch (ext_name e) d q v
    end.
Proof.
  rewrite list_elem_of_In, in_concat. split.
  - intros (l & (e & <- & He)%in_map_iff & Hi). unfold check_extension in Hi.
    apply in_concat in Hi as (l & ([d q] & <- & Hd)%in_map_iff & Hi). exists e, d, q.
    rewrite !list_elem_of_In. split; [done|]. split; [done|]. simpl in Hi.
    destruct (versions_of extensions !! d) as [v|]; [|by destruct Hi as [<-|[]]].
    unfold matches. destruct (version_matches _ _ _ q v); simpl in Hi; [done|by destruct Hi as [<-|[]]].
  - intros (e & d & q & He%list_elem_of_In & Hd%list_elem_of_In & Hi).
    exists (check_extension version_parse req_parse req_matches (versions_of extensions) e).
    split; [by apply in_map|]. apply in_concat.
    exists (check_dependency version_parse req_parse req_matches (versions_of extensions) (ext_name e) (d, q)).
    split; [by apply in_map|]. simpl.
    destruct (versions_of extensions !! d) as [v|]; [|by left].
    destruct Hi as [Hm ->]. unfold matches in Hm. rewrite Hm. by left.
Qed.

(** The verdict is right, for extensions of distinct names:
    [validate_dependencies] always returns, and finds the set valid exactly when
    every dependency of every extension is present in a version that matches
    the requirement and nothing depends on itself; a dependency is reported
    missing exactly when no extension has its name, and mismatched exactly when
    the one that has it does not match. *)
Theorem validation_verdict extensions :
  NoDup (map ext_name extensions) ->
  exists r, validate extensions = Some r /\
    (valid r = true <->
       acyclic extensions /\
       forall e d q, e ∈ extensions -> (d, q) ∈ dependencies (manifest e) ->
         exists e', e' ∈ extensions /\ ext_name e' = d /\ matches q (version (manifest e')) = true) /\
    (forall x d q, DependencyIssue.Missing x d q ∈ issues r <->
       exists e, e ∈ extensions /\ ext_name e = x /\ (d, q) ∈ dependencies (manifest e) /\
         d ∉ known_names extensions) /\
    (forall x d q v, DependencyIssue.VersionMismatch x d q v ∈ issues r <->
       exists e e', e ∈ extensions /\ ext_name e = x /\ (d, q) ∈ dependencies (manifest e) /\
         e' ∈ extensions /\ ext_name e' = d /\ version (manifest e') = v /\ matches q v = false).
Proof.
  intros Hnd. destruct (compute_topological_order_total extensions) as (em & cs & He & _). cbv zeta in He.
  destruct (cycles_reported_iff extensions _ _ Hnd He) as [_ Hac].
  pose proof (found_spec extensions) as Hfound.
  set (found := concat (map (check_extension version_parse req_parse req_matches (versions_of extensions)) extensions)) in *.
  exists (mkValidation (is_empty (found ++ map DependencyIssue.Circular cs))
    (found ++ map DependencyIssue.Circular cs) (em ++ sorted_nodes (known_names extensions ∖ list_to_set em))).
  split; [unfold validate, validate_dependencies; by rewrite He|]. cbn [valid issues].
  assert (Hissue : forall i, (forall c, i <> DependencyIssue.Circular c) ->
    i ∈ found ++ map DependencyIssue.Circular cs <-> i ∈ found).
  { intros i Hi. rewrite elem_of_app, list_elem_of_fmap. split; [|by left].
    by intros [?|(c & -> & _)]; [|destruct (Hi c)]. }
  split; [|split].
  - rewrite is_empty_app_iff, map_empty_iff, Hac, (empty_iff found). split.
    + intros [Hno Hcyc]. split; [done|]. intros e d q Hin Hd.
      destruct (versions_of extensions !! d) as [v|] eqn:Hv.
      * pose proof (proj1 (versions_of_spec extensions d v Hnd) Hv) as (e' & He' & Hn & <-).
        exists e'. split; [done|]. split; [done|].
        destruct (matches q (version (manifest e'))) eqn:Hm; [done|]. exfalso.
        eapply Hno, Hfound. exists e, d, q. rewrite Hv. by split_and!.
      * exfalso. eapply Hno, Hfound. exists e, d, q. rewrite Hv. by split_and!.
    + intros [Hcyc Hall]. split; [|done]. intros i (e & d & q & Hin & Hd & Hi)%Hfound.
      destruct (Hall e d q Hin Hd) as (e' & He' & Hn & Hm).
      rewrite (proj2 (versions_of_spec extensions d (version (manifest e')) Hnd)) in Hi by by exists e'.
      destruct Hi as [Hm' _]. congruence.
  - intros x d q. rewrite Hissue, Hfound by done. split.
    + intros (e & d' & q' & Hin & Hd & Hi).
      destruct (versions_of extensions !! d') as [v|] eqn:Hv; [by destruct Hi|]. injection Hi as -> -> ->.
      exists e. split_and!; try done. by apply versions_of_none.
    + intros (e & Hin & <- & Hd & Hno). exists e, d, q.
      by rewrite (proj2 (versions_of_none extensions d Hnd) Hno).
  - intros x d q v. rewrite Hissue, Hfound by done. split.
    + intros (e & d' & q' & Hin & Hd & Hi).
      destruct (versions_of extensions !! d') as [v'|] eqn:Hv; [|done]. destruct Hi as [Hm [= -> -> -> ->]].
      pose proof (proj1 (versions_of_spec extensions d' v' Hnd) Hv) as (e' & He' & Hn & Hv').
      exists e, e'. by split_and!.
    + intros (e & e' & Hin & <- & Hd & He' & Hn & Hv & Hm). exists e, d, q.
      rewrite (proj2 (versions_of_spec extensions d v Hnd)) by by exists e'. by split_and!.
Qed.
End Issues.

(** ** Witnesses *)

Definition demo_extension (n : string) (deps : list string) : LoadedExtension :=
  mkLoaded (mkManifest n "1.0.0" (map (fun d => (d, "1.0.0")) deps)).
Definition demo_line : list LoadedExtension :=
  [demo_extension "c" ["b"]; demo_extension "b" ["a"]; demo_extension "a" []].
Definition demo_loop : list LoadedExtension :=
  [demo_extension "x" ["y"]; demo_extension "y" ["x"]; demo_extension "z" ["x"]].

Lemma demo_line_acyclic : acyclic demo_line.
Proof.
  apply (proj2 (cycles_reported_iff demo_line ["a"; "b"; "c"] []
    ltac:(apply (bool_decide_unpack _); vm_compute; exact I) ltac:(vm_compute; reflexivity))).
  reflexivity.
Qed.

Lemma cycles_reported_witness : acyclic demo_line.
Proof.
  apply (proj2 (cycles_reported demo_line ["a"; "b"; "c"] []
    ltac:(apply (bool_decide_unpack _); vm_compute; exact I) ltac:(vm_compute; reflexivity))).
  reflexivity.
Defined.

Lemma load_order_sorted_witness : before ["a"; "b"; "c"] "a" "b".
Proof.
  destruct (load_order_sorted demo_line) as (order & cs & He & _ & _ & Hbefore).
  assert (Ho : order = ["a"; "b"; "c"]).
  { assert (He' : compute_topological_order demo_line = Some (["a"; "b"; "c"], []))
      by (vm_compute; reflexivity).
    rewrite He' in He. injection He as <- _. reflexivity. }
  rewrite <- Ho. apply Hbefore.
  - exists (demo_extension "b" ["a"]). split; [apply elem_of_cons; right; apply elem_of_cons; left; reflexivity|].
    split; [reflexivity|]. split; [apply elem_of_cons; left; reflexivity|].
    apply (bool_decide_unpack _). vm_compute. exact I.
  - intros (y & _ & Hy). exact (demo_line_acyclic y Hy).
Defined.

Lemma validation_verdict_witness :
  exists r, validate_dependencies (fun s => Some s) (fun s => Some s)
      (fun q v => bool_decide (q = "=" +:+ v)) demo_line = Some r /\ valid r = true.
Proof.
  destruct (validation_verdict (fun s => Some s) (fun s => Some s)
    (fun q v => bool_decide (q = "=" +:+ v)) demo_line
    ltac:(apply (bool_decide_unpack _); vm_compute; exact I)) as (r & He & _).
  exists r. split; [exact He|].
  assert (Hv : option_map valid (validate_dependencies (fun s => Some s) (fun s => Some s)
      (fun q v => bool_decide (q = "=" +:+ v)) demo_line) = Some true) by (vm_compute; reflexivity).
  rewrite He in Hv. injection Hv as ->. reflexivity.
Defined.

(** The comments call every name left over part of a cycle.  A name that only
    depends on one is left over too, and is then listed by name, not after its
    dependencies. *)
Theorem dependents_of_cycles_left_over :
  topological_sort [demo_extension "x" ["y"]; demo_extension "y" ["x"]; demo_extension "a" ["x"]]
    = Some ["a"; "x"; "y"].
Proof. vm_compute. reflexivity. Qed.
