(* ===== verification/Auth.v ===== *)
(** * Rate limits and QR login tokens
    ([crates/tjuaeui-auth/src/rate_limit.rs], [qr_token.rs])

    [RateLimiter] counts requests per key in fixed windows; [QrTokenStore]
    hands out login tokens that may be used once and only for five minutes.
    Both read the clock once per call, here an argument.  The clock of the
    limiter is [u64] milliseconds, that of the token store [i64]. *)

From S2P Require Import Prelude.

Module AuthError.
Inductive t : Type :=
| RateLimited
| TokenInvalid (reason : string).
End AuthError.

(** ** [rate_limit.rs] *)

Record RateLimitEntry : Type := mkEntry {
  entry_count : N;
  reset_time_ms : N;
}.

Record RateLimiter : Type := mkLimiter {
  limiter_entries : gmap string RateLimitEntry;
  max_requests : N;
  window_ms : N;
}.

Definition RateLimiter_new (max window : N) : RateLimiter := mkLimiter ∅ max window.
Definition RateLimiter_auth : RateLimiter := RateLimiter_new 5 (15 * 60 * 1000).
Definition RateLimiter_api : RateLimiter := RateLimiter_new 60 (60 * 1000).
Definition RateLimiter_authenticated_action : RateLimiter := RateLimiter_new 20 (60 * 1000).

(** Unchecked [u64] and [u32] additions wrap. *)
Definition u64_add (a b : N) : N := ((a + b) mod 2 ^ 64)%N.
Definition u32_succ (a : N) : N := ((a + 1) mod 2 ^ 32)%N.

Definition set_limit (key : string) (e : RateLimitEntry) (l : RateLimiter) : RateLimiter :=
  mkLimiter (<[key := e]> (limiter_entries l)) (max_requests l) (window_ms l).

Definition check (key : string) (now : N) (l : RateLimiter) : Result unit AuthError.t :=
  match limiter_entries l !! key with
  | Some e =>
      if (now <? reset_time_ms e)%N && (max_requests l <=? entry_count e)%N
      then Err AuthError.RateLimited else Ok tt
  | None => Ok tt
  end.

(** The entry of a key, made if absent and started again if its window is over. *)
Definition current_entry (key : string) (now : N) (l : RateLimiter) : RateLimitEntry :=
  let e := default (mkEntry 0 (u64_add now (window_ms l))) (limiter_entries l !! key) in
  if (reset_time_ms e <=? now)%N then mkEntry 0 (u64_add now (window_ms l)) else e.

Definition check_and_increment (key : string) (now : N) (l : RateLimiter)
    : Result unit AuthError.t * RateLimiter :=
  let e := current_entry key now l in
  if (max_requests l <=? entry_count e)%N then (Err AuthError.RateLimited, set_limit key e l)
  else (Ok tt, set_limit key (mkEntry (u32_succ (entry_count e)) (reset_time_ms e)) l).

Definition record_attempt (key : string) (now : N) (l : RateLimiter) : RateLimiter :=
  let e := current_entry key now l in
  set_limit key (mkEntry (u32_succ (entry_count e)) (reset_time_ms e)) l.

Definition cleanup (now : N) (l : RateLimiter) : RateLimiter :=
  mkLimiter (filter (fun x => (now < reset_time_ms (snd x))%N) (limiter_entries l))
    (max_requests l) (window_ms l).

Definition tracked (l : RateLimiter) : nat := size (limiter_entries l).

(** The middlewares.  [success] is the status class of the response of the
    rest of the stack, which runs only if the request is let through; [later]
    is the time it returns at. *)
Definition auth_rate_limit_middleware (ip : string) (now later : N) (success : bool) (l : RateLimiter)
    : Result bool AuthError.t * RateLimiter :=
  match check ip now l with
  | Err e => (Err e, l)
  | Ok _ => (Ok success, if negb success then record_attempt ip later l else l)
  end.

Definition api_rate_limit_middleware (ip : string) (now : N) (success : bool) (l : RateLimiter)
    : Result bool AuthError.t * RateLimiter :=
  match check_and_increment ip now l with
  | (Err e, l) => (Err e, l)
  | (Ok _, l) => (Ok success, l)
  end.

Definition action_key (user : option string) (ip : string) : string :=
  match user with Some id => "user:" +:+ id | None => "ip:" +:+ ip end.

Definition authenticated_action_rate_limit_middleware (user : option string) (ip : string) (now : N)
    (success : bool) (l : RateLimiter) : Result bool AuthError.t * RateLimiter :=
  match check_and_increment (action_key user ip) now l with
  | (Err e, l) => (Err e, l)
  | (Ok _, l) => (Ok success, l)
  end.

(** ** [qr_token.rs] *)

Definition QR_TOKEN_TTL_MS : Z := 5 * 60 * 1000.
Definition QR_TOKEN_BYTES : nat := 32.

Record QrTokenData : Type := mkTokenData {
  token_created_at_ms : Z;
  used : bool;
}.

Definition QrTokenStore : Type := gmap string QrTokenData.
Definition QrTokenStore_new : QrTokenStore := ∅.

(** [write!(token, "{byte:02x}")] *)
Definition hex_digit (n : N) : Ascii.ascii :=
  Ascii.ascii_of_N (if (n <? 10)%N then 48 + n else 87 + n)%N.
Definition hex_byte (b : Byte.byte) (s : string) : string :=
  let n := Byte.to_N b in
  String (hex_digit (n / 16)) (String (hex_digit (n mod 16)) s).
Definition hex (buf : list Byte.byte) : string := foldr hex_byte "" buf.

Definition i64_max : Z := 2 ^ 63 - 1.
Definition i64_min : Z := - 2 ^ 63.
Definition i64_saturating_sub (a b : Z) : Z := Z.max i64_min (Z.min i64_max (a - b)).

(** The unchecked [i64] addition wraps. *)
Definition i64_add (a b : Z) : Z := (a + b + 2 ^ 63) mod 2 ^ 64 - 2 ^ 63.

(** [buf] is what [getrandom] filled, [QR_TOKEN_BYTES] bytes. *)
Definition generate_with_expiry (buf : list Byte.byte) (now : Z) (s : QrTokenStore)
    : string * Z * QrTokenStore :=
  let token := hex buf in
  (token, i64_add now QR_TOKEN_TTL_MS, <[token := mkTokenData now false]> s).

Definition generate (buf : list Byte.byte) (now : Z) (s : QrTokenStore) : string * QrTokenStore :=
  let '(token, _, s) := generate_with_expiry buf now s in (token, s).

Definition validate_and_consume (token : string) (now : Z) (s : QrTokenStore)
    : Result unit AuthError.t * QrTokenStore :=
  match s !! token with
  | None => (Err (AuthError.TokenInvalid "Invalid QR token"), s)
  | Some e =>
      if used e then (Err (AuthError.TokenInvalid "QR token already used"), s)
      else if (QR_TOKEN_TTL_MS <? i64_saturating_sub now (token_created_at_ms e))%Z
      then (Err (AuthError.TokenInvalid "QR token expired"), s)
      else (Ok tt, <[token := mkTokenData (token_created_at_ms e) true]> s)
  end.

Definition cleanup_tokens (now : Z) (s : QrTokenStore) : QrTokenStore :=
  filter (fun x =>
    (i64_saturating_sub now (token_created_at_ms (snd x)) <= QR_TOKEN_TTL_MS)%Z) s.

Definition token_count (s : QrTokenStore) : nat := size s.

(** ** Runs of the limiter *)

Inductive LimiterCall : Type :=
| CallAdmit (key : string)
| CallRecord (key : string)
| CallCheck (key : string)
| CallCleanup.

(** The limiter with the admissions it granted, newest first. *)
Definition limiter_step (st : RateLimiter * list (string * N)) (x : N * LimiterCall)
    : RateLimiter * list (string * N) :=
  let '(l, admitted) := st in
  let '(now, c) := x in
  match c with
  | CallAdmit key =>
      let '(r, l) := check_and_increment key now l in
      (l, if is_ok r then (key, now) :: admitted else admitted)
  | CallRecord key => (record_attempt key now l, admitted)
  | CallCheck _ => (l, admitted)
  | CallCleanup => (cleanup now l, admitted)
  end.

Definition run_limiter (max window : N) (trace : list (N * LimiterCall))
    : RateLimiter * list (string * N) :=
  run_list limiter_step (RateLimiter_new max window, []) trace.

(** The admissions of a key in the span of one window from [t]. *)
Definition in_span (t window a : N) : bool := (t <=? a)%N && (a <? t + window)%N.
Definition times_of (key : string) (admitted : list (string * N)) : list N :=
  map snd (List.filter (fun x => bool_decide (fst x = key)) admitted).
Definition span_count (t window : N) (times : list N) : nat := length (List.filter (in_span t window) times).

(** *** Windows: a start, and the times admitted in it *)
Section Windows.
Context (max window : N).

Definition Window : Type := N * list N.

Definition window_ok (w : Window) : Prop :=
  (N.of_nat (length (snd w)) <= max)%N /\ forall a, a ∈ snd w -> (fst w <= a < fst w + window)%N.
Definition later (w w' : Window) : Prop := (fst w' + window <= fst w)%N.

Lemma span_count_app t a b : span_count t window (a ++ b) = span_count t window a + span_count t window b.
Proof. unfold span_count. by rewrite List.filter_app, length_app. Qed.

Lemma span_count_le t a : span_count t window a <= length a.
Proof. unfold span_count. induction a as [|x a IH]; simpl; [done|]. destruct (in_span t window x); simpl; lia. Qed.

Lemma span_count_zero t a : (forall x, x ∈ a -> in_span t window x = false) -> span_count t window a = 0.
Proof.
  intros H. unfold span_count. induction a as [|x a IH]; [done|]. simpl.
  rewrite H by (apply elem_of_cons; by left). apply IH. intros y Hy. apply H, elem_of_cons. by right.
Qed.

Lemma old_windows t ws :
  Forall window_ok ws -> Forall (fun w => (fst w + window <= t)%N) ws ->
  span_count t window (concat (map snd ws)) = 0.
Proof.
  intros Hok Hold. apply span_count_zero. intros x (a & (w & <- & Hw)%in_map_iff & Hx)%list_elem_of_In%in_concat.
  apply list_elem_of_In in Hw; apply list_elem_of_In in Hx. rewrite Forall_forall in Hok, Hold.
  pose proof (proj2 (Hok w Hw) x Hx).
  specialize (Hold w Hw). unfold in_span. apply andb_false_iff. left. apply N.leb_gt. simpl in *. lia.
Qed.

Lemma one_window t ws :
  Forall window_ok ws -> StronglySorted later ws ->
  match ws with w :: _ => (fst w < t)%N | [] => True end ->
  (N.of_nat (span_count t window (concat (map snd ws))) <= max)%N.
Proof.
  intros Hok Hs Ht. destruct ws as [|w ws]; [unfold span_count; simpl; lia|].
  inversion Hok as [|? ? [Hw _] Hws]. inversion Hs as [|? ? _ Hlater]. subst. simpl.
  rewrite span_count_app, (old_windows t ws); [pose proof (span_count_le t (snd w)); lia|done|].
  eapply Forall_impl; [exact Hlater|]. unfold later. intros w'. simpl. lia.
Qed.

(** A span meets at most two windows. *)
Lemma two_windows t ws :
  Forall window_ok ws -> StronglySorted later ws ->
  (N.of_nat (span_count t window (concat (map snd ws))) <= 2 * max)%N.
Proof.
  intros Hok Hs. induction ws as [|w ws IH]; [unfold span_count; simpl; lia|].
  inversion Hok as [|? ? [Hw Ha] Hws]. inversion Hs as [|? ? Hs' Hlater]. subst. simpl.
  rewrite span_count_app. pose proof (span_count_le t (snd w)) as Hle.
  destruct (decide (t + window <= fst w)%N) as [Hnew|Hmeets].
  - rewrite (span_count_zero t (snd w)); [by apply IH|]. intros x Hx. specialize (Ha x Hx).
    unfold in_span. apply andb_false_iff. right. apply N.ltb_ge. lia.
  - assert (Hone : (N.of_nat (span_count t window (concat (map snd ws))) <= max)%N); [|lia].
    apply one_window; [done..|]. destruct ws as [|w' ws]; [done|].
    inversion Hlater as [|? ? Hl _]. unfold later in Hl. simpl in *. lia.
Qed.

(** *** The invariant of one key *)

Record key_ok (key : string) (now calls : N) (l : RateLimiter) (admitted : list (string * N))
    (ws : list Window) : Prop := {
  key_times : concat (map snd ws) = times_of key admitted;
  key_windows : Forall window_ok ws;
  key_sorted : StronglySorted later ws;
  key_past : Forall (fun w => (fst w <= now)%N) ws;
  key_entry :
    match limiter_entries l !! key with
    | Some e => exists w ws', ws = w :: ws' /\ reset_time_ms e = (fst w + window)%N /\
        (N.of_nat (length (snd w)) <= entry_count e <= calls)%N
    | None => Forall (fun w => (fst w + window <= now)%N) ws
    end;
}.

Lemma key_ok_later key now now' calls calls' l admitted ws :
  (now <= now')%N -> (calls <= calls')%N ->
  key_ok key now calls l admitted ws -> key_ok key now' calls' l admitted ws.
Proof.
  intros Hn Hc [H1 H2 H3 H4 H5]. split; [done..| |].
  - eapply Forall_impl; [exact H4|]. simpl. lia.
  - destruct (limiter_entries l !! key).
    + destruct H5 as (w & ws' & ? & ? & ?). exists w, ws'. split; [done|]. split; [done|lia].
    + eapply Forall_impl; [exact H5|]. simpl. lia.
Qed.

(** The entry a call works on is that of the newest window. *)
Lemma current_entry_ok key now calls l admitted ws :
  window_ms l = window -> (now + window < 2 ^ 64)%N -> key_ok key now calls l admitted ws ->
  exists w ws', let e := current_entry key now l in
    reset_time_ms e = (fst w + window)%N /\ (N.of_nat (length (snd w)) <= entry_count e <= calls)%N /\
    (fst w <= now)%N /\ (window = 0 \/ now < fst w + window)%N /\
    (forall calls' e', key_ok key now calls' (set_limit key e' l) admitted (w :: ws') <->
       reset_time_ms e' = (fst w + window)%N /\ (N.of_nat (length (snd w)) <= entry_count e' <= calls')%N).
Proof.
  intros Hwin Hover [Htimes Hws Hsort Hpast Hentry].
  assert (Hadd : u64_add now window = (now + window)%N) by (unfold u64_add; by apply N.mod_small).
  assert (Hfresh : Forall (fun w => (fst w + window <= now)%N) ws ->
    (forall calls' e', key_ok key now calls' (set_limit key e' l) admitted ((now, []) :: ws) <->
       reset_time_ms e' = (now + window)%N /\ (N.of_nat 0 <= entry_count e' <= calls')%N)).
  { intros Hold calls' e'. split.
    - intros [_ _ _ _ He]. simpl in He. rewrite lookup_insert_eq in He. destruct He as (w & ws' & [= <- <-] & ?). done.
    - intros He'. split; simpl.
      + done.
      + constructor; [|done]. split; simpl; [lia|by intros a ?%elem_of_nil].
      + constructor; [done|]. eapply Forall_impl; [exact Hold|]. done.
      + constructor; [simpl; lia|done].
      + rewrite lookup_insert_eq. by exists (now, []), ws. }
  unfold current_entry. rewrite Hwin, Hadd. destruct (limiter_entries l !! key) as [e|]; simpl.
  - destruct Hentry as (w & ws' & -> & Hr & Hc). destruct (N.leb_spec (reset_time_ms e) now) as [Hexp|Hlive].
    + exists (now, []), (w :: ws'). simpl. split; [done|]. split; [lia|]. split; [lia|]. split; [lia|].
      apply Hfresh. inversion Hsort as [|? ? _ Hl]. inversion Hpast. subst. constructor; [lia|].
      eapply Forall_impl; [exact Hl|]. unfold later. simpl. intros w0. lia.
    + exists w, ws'. split; [done|]. split; [done|]. inversion Hpast; subst. split; [done|]. split; [lia|].
      intros calls' e'. split.
      * intros [_ _ _ _ He]. simpl in He. rewrite lookup_insert_eq in He. destruct He as (w0 & ws0 & [= <- <-] & ?). done.
      * intros He'. split; simpl; [done..|]. rewrite lookup_insert_eq. by exists w, ws'.
  - exists (now, []), ws. simpl. destruct (N.leb_spec (now + window) now); simpl;
      (split; [done|]; split; [lia|]; split; [lia|]; split; [lia|]; by apply Hfresh).
Qed.
End Windows.

(** *** The invariant holds along a run *)
Section Rate.
Context (max window : N) (key : string).

Lemma set_limit_other key' now calls e l admitted ws :
  key <> key' ->
  key_ok max window key now calls l admitted ws ->
  key_ok max window key now calls (set_limit key' e l) admitted ws.
Proof. intros Hne [H1 H2 H3 H4 H5]. split; try done. simpl. by rewrite lookup_insert_ne. Qed.

Lemma record_ok key' now calls l admitted ws :
  window_ms l = window -> (now + window < 2 ^ 64)%N -> (calls + 1 < 2 ^ 32)%N ->
  key_ok max window key now calls l admitted ws ->
  exists ws', key_ok max window key now (calls + 1) (record_attempt key' now l) admitted ws'.
Proof.
  intros Hwin Hover Hcalls Hok. unfold record_attempt.
  destruct (decide (key = key')) as [<-|Hne].
  - destruct (current_entry_ok max window key now calls l admitted ws Hwin Hover Hok)
      as (w & ws' & Hr & Hc & _ & _ & Hset).
    exists (w :: ws'). apply Hset. simpl. split; [done|].
    unfold u32_succ. rewrite N.mod_small by lia. lia.
  - exists ws. apply set_limit_other; [done|]. eapply key_ok_later; [..|exact Hok]; lia.
Qed.

Lemma admit_ok key' now calls l admitted ws :
  (0 < window)%N -> window_ms l = window -> max_requests l = max -> (now + window < 2 ^ 64)%N -> (calls + 1 < 2 ^ 32)%N ->
  key_ok max window key now calls l admitted ws ->
  exists ws', let st := limiter_step (l, admitted) (now, CallAdmit key') in
    key_ok max window key now (calls + 1) (fst st) (snd st) ws'.
Proof.
  intros Hpos Hwin Hmax Hover Hcalls Hok. simpl. unfold check_and_increment. rewrite Hmax.
  destruct (decide (key = key')) as [<-|Hne].
  - destruct (current_entry_ok max window key now calls l admitted ws Hwin Hover Hok)
      as (w & ws' & Hr & Hc & Hpast & Hwindow & Hset).
    destruct (N.leb_spec max (entry_count (current_entry key now l))) as [Hfull|Hroom]; simpl.
    + exists (w :: ws'). apply Hset. split; [done|lia].
    + exists ((fst w, now :: snd w) :: ws').
      assert (Hc' : key_ok max window key now (calls + 1) (set_limit key
        (mkEntry (u32_succ (entry_count (current_entry key now l))) (reset_time_ms (current_entry key now l))) l)
        admitted (w :: ws')).
      { apply Hset. simpl. unfold u32_succ. rewrite N.mod_small by lia. split; [done|lia]. }
      destruct Hc' as [Ht Hws Hs Hp He]. inversion Hws as [|? ? [Hlen Hin] Hws']. inversion Hs. inversion Hp. subst.
      split.
      * unfold times_of in *. simpl in *. rewrite bool_decide_eq_true_2 by done. simpl. by rewrite <- Ht.
      * constructor; [|done]. split; simpl; [lia|]. intros a [->|Ha]%elem_of_cons; [lia|by apply Hin].
      * constructor; [done|]. done.
      * constructor; [done|done].
      * simpl. rewrite lookup_insert_eq. exists (fst w, now :: snd w), ws'. simpl.
        unfold u32_succ. rewrite N.mod_small by lia. split; [done|]. split; [done|lia].
  - exists ws. destruct (max <=? _)%N; simpl.
    + apply set_limit_other; [done|]. eapply key_ok_later; [..|exact Hok]; lia.
    + apply set_limit_other; [done|].
      assert (Hok' : key_ok max window key now (calls + 1) l admitted ws) by (eapply key_ok_later; [..|exact Hok]; lia).
      destruct Hok' as [Ht Hws Hs Hp He]. split; try done. unfold times_of in *. simpl.
      by rewrite bool_decide_eq_false_2 by congruence.
Qed.

Lemma cleanup_ok now calls l admitted ws :
  key_ok max window key now calls l admitted ws -> key_ok max window key now calls (cleanup now l) admitted ws.
Proof.
  intros [Ht Hws Hs Hp He]. split; try done. simpl. rewrite map_lookup_filter.
  destruct (limiter_entries l !! key) as [e|]; simpl; [|done].
  destruct He as (w & ws' & -> & Hr & Hc). case_guard as Hg; simpl in *; [by exists w, ws'|].
  inversion Hs as [|? ? _ Hl]. inversion Hp. subst. constructor; [lia|].
  eapply Forall_impl; [exact Hl|]. unfold later. simpl. intros w0. lia.
Qed.

Lemma limiter_step_ok now c calls l admitted ws :
  (0 < window)%N -> window_ms l = window -> max_requests l = max -> (now + window < 2 ^ 64)%N -> (calls + 1 < 2 ^ 32)%N ->
  key_ok max window key now calls l admitted ws ->
  let st := limiter_step (l, admitted) (now, c) in
  window_ms (fst st) = window /\ max_requests (fst st) = max /\
  exists ws', key_ok max window key now (calls + 1) (fst st) (snd st) ws'.
Proof.
  intros Hpos Hwin Hmax Hover Hcalls Hok.
  assert (Hsame : key_ok max window key now (calls + 1) l admitted ws) by (eapply key_ok_later; [..|exact Hok]; lia).
  destruct c as [key'|key'|key'|].
  - split; [|split; [|by eapply admit_ok]].
    + simpl. unfold check_and_increment. by destruct (_ <=? _)%N.
    + simpl. unfold check_and_increment. by destruct (_ <=? _)%N.
  - split; [done|]. split; [done|]. by eapply record_ok.
  - split; [done|]. split; [done|]. by exists ws.
  - split; [done|]. split; [done|]. exists ws. by apply cleanup_ok.
Qed.

Lemma run_limiter_ok trace st now calls :
  (0 < window)%N -> window_ms (fst st) = window -> max_requests (fst st) = max ->
  Forall (fun x => (now <= fst x)%N) trace -> StronglySorted (fun x y => (fst x <= fst y)%N) trace ->
  Forall (fun x => (fst x + window < 2 ^ 64)%N) trace ->
  (calls + N.of_nat (length trace) < 2 ^ 32)%N ->
  (exists ws, key_ok max window key now calls (fst st) (snd st) ws) ->
  exists now' calls' ws,
    let st' := run_list limiter_step st trace in
    key_ok max window key now' calls' (fst st') (snd st') ws.
Proof.
  intros Hpos. revert st now calls. induction trace as [|[t c] trace IH]; intros [l admitted] now calls Hwin Hmax Hle Hs Ho Hc [ws Hok].
  { by exists now, calls, ws. }
  apply Forall_cons in Hle as [Ht Hle']. apply StronglySorted_inv in Hs as [Hs' Hall].
  apply Forall_cons in Ho as [Hot Ho']. simpl in *.
  destruct (limiter_step_ok t c calls l admitted ws Hpos Hwin Hmax Hot) as (Hw' & Hm' & Hok'); [lia| |].
  { eapply key_ok_later; [exact Ht|..|exact Hok]; lia. }
  apply (IH (limiter_step (l, admitted) (t, c)) t (calls + 1)%N); try done. lia.
Qed.
End Rate.

(** C18. The limit holds.  Over any calls of any keys at a clock that does not
    go back (fewer than 2^32 calls, at times whose window end fits in [u64]),
    the requests of one key that [check_and_increment] lets through in any span
    of one window's length are at most twice [max_requests]; the factor is that
    of fixed windows, and sweeping expired entries never adds to it. *)
Theorem request_rate_bounded max window trace key t :
  StronglySorted (fun x y => (fst x <= fst y)%N) trace ->
  Forall (fun x => (fst x + window < 2 ^ 64)%N) trace ->
  (N.of_nat (length trace) < 2 ^ 32)%N ->
  let admitted := snd (run_limiter max window trace) in
  (N.of_nat (span_count t window (times_of key admitted)) <= 2 * max)%N.
Proof.
  intros Hs Ho Hc admitted. destruct (decide (0 < window)%N) as [Hpos|Hzero].
  - destruct (run_limiter_ok max window key trace (RateLimiter_new max window, []) 0 0) as (now & calls & ws & Hok).
    + done.
    + done.
    + done.
    + apply Forall_forall. intros x _. lia.
    + done.
    + done.
    + lia.
    + exists []. split; simpl; try constructor.
    + destruct Hok as [Ht Hws Hsort _ _]. unfold admitted, run_limiter. simpl in Ht. rewrite <- Ht.
      by apply (two_windows max).
  - rewrite span_count_zero; [simpl; lia|]. intros a _. unfold in_span. apply andb_false_iff.
    destruct (N.leb_spec t a); [right; apply N.ltb_ge; lia|by left].
Qed.

Lemma request_rate_bounded_witness :
  let trace := [(0, CallAdmit "ip"); (9, CallAdmit "ip"); (9, CallAdmit "ip"); (9, CallAdmit "other");
                (10, CallCleanup); (10, CallAdmit "ip"); (10, CallRecord "ip"); (11, CallAdmit "ip")]%N in
  let admitted := snd (run_limiter 2 10 trace) in
  span_count 9 10 (times_of "ip" admitted) = 2 /\
  (N.of_nat (span_count 9 10 (times_of "ip" admitted)) <= 2 * 2)%N.
Proof.
  simpl. split; [by vm_compute|]. apply request_rate_bounded.
  - repeat first [apply SSorted_nil | apply SSorted_cons | apply List.Forall_cons | apply List.Forall_nil]; simpl; lia.
  - repeat first [apply List.Forall_cons | apply List.Forall_nil]; simpl; lia.
  - by vm_compute.
Defined.

(** ** Runs of the token store *)

Inductive TokenCall : Type :=
| CallGenerate (buf : list Byte.byte)
| CallValidate (token : string)
| CallTokenCleanup.

(** The store with the tokens it accepted, newest first. *)
Definition token_step (st : QrTokenStore * list string) (x : Z * TokenCall) : QrTokenStore * list string :=
  let '(s, accepted) := st in
  let '(now, c) := x in
  match c with
  | CallGenerate buf => (snd (generate buf now s), accepted)
  | CallValidate token =>
      let '(r, s) := validate_and_consume token now s in
      (s, if is_ok r then token :: accepted else accepted)
  | CallTokenCleanup => (cleanup_tokens now s, accepted)
  end.

Definition run_tokens (trace : list (Z * TokenCall)) : QrTokenStore * list string :=
  run_list token_step (QrTokenStore_new, []) trace.

Definition call_buffers (c : Z * TokenCall) : list (list Byte.byte) :=
  match snd c with CallGenerate buf => [buf] | _ => [] end.
Definition buffers (trace : list (Z * TokenCall)) : list (list Byte.byte) := concat (map call_buffers trace).

(** *** Tokens of distinct buffers are distinct *)

Definition hex_value (c : Ascii.ascii) : N :=
  let n := Ascii.N_of_ascii c in if (n <? 87)%N then n - 48 else n - 87.
Definition unhex_byte (c d : Ascii.ascii) : option Byte.byte :=
  Byte.of_N (16 * hex_value c + hex_value d).
Fixpoint unhex (s : string) : list Byte.byte :=
  match s with
  | String c (String d s') => match unhex_byte c d with Some b => b :: unhex s' | None => [] end
  | _ => []
  end.

Lemma unhex_hex buf : unhex (hex buf) = buf.
Proof.
  induction buf as [|b buf IH]; [done|]. change (hex (b :: buf)) with (hex_byte b (hex buf)).
  unfold hex_byte. simpl. rewrite IH. by destruct b.
Qed.

Lemma hex_inj buf buf' : hex buf = hex buf' -> buf = buf'.
Proof. intros H. by rewrite <- (unhex_hex buf), H, unhex_hex. Qed.

Lemma hex_length buf : String.length (hex buf) = 2 * length buf.
Proof. induction buf as [|b buf IH]; [done|]. simpl in *. rewrite IH. lia. Qed.

(** *** The invariant of the store *)

Lemma expired_iff now born : (QR_TOKEN_TTL_MS < i64_saturating_sub now born)%Z <-> (QR_TOKEN_TTL_MS < now - born)%Z.
Proof. unfold i64_saturating_sub, i64_min, i64_max, QR_TOKEN_TTL_MS. lia. Qed.

Definition born_in (trace : list (Z * TokenCall)) (token : string) (born : Z) : Prop :=
  exists buf, token = hex buf /\ In (born, CallGenerate buf) trace.

Record tokens_ok (now : Z) (trace : list (Z * TokenCall)) (s : QrTokenStore) (accepted : list string) : Prop := {
  token_stored : forall token e, s !! token = Some e ->
    born_in trace token (token_created_at_ms e) /\ (used e = true <-> In token accepted);
  token_gone : forall token born, s !! token = None -> born_in trace token born ->
    (QR_TOKEN_TTL_MS < now - born)%Z;
  token_accepted : forall token, In token accepted -> exists born, born_in trace token born;
  token_once : List.NoDup accepted;
}.

Lemma in_buffers trace buf : In buf (buffers trace) <-> exists t, In (t, CallGenerate buf) trace.
Proof.
  unfold buffers. rewrite in_concat. split.
  - intros (l & (x & <- & Hx)%in_map_iff & Hin). destruct x as [t [b|token|]]; simpl in Hin; try done.
    destruct Hin as [->|[]]. by exists t.
  - intros [t Ht]. exists [buf]. split; [|by left]. apply in_map_iff. by exists (t, CallGenerate buf).
Qed.

Lemma buffers_snoc trace x : buffers (trace ++ [x]) = buffers trace ++ call_buffers x.
Proof. unfold buffers. rewrite map_app, concat_app. simpl. by rewrite app_nil_r. Qed.

(** A token is born once. *)
Lemma born_unique trace token born born' :
  List.NoDup (buffers trace) -> born_in trace token born -> born_in trace token born' -> born = born'.
Proof.
  intros Hnd (buf & -> & Hin) (buf' & Hhex%hex_inj & Hin'). subst buf'.
  induction trace as [|x trace IH]; [done|]. unfold buffers in Hnd. simpl in Hnd.
  destruct Hin as [->|Hin], Hin' as [[=]|Hin']; try done.
  - simpl in Hnd. inversion Hnd as [|? ? Hnew _]. destruct Hnew. apply in_buffers. by exists born'.
  - subst x. simpl in Hnd. inversion Hnd as [|? ? Hnew _]. destruct Hnew. apply in_buffers. by exists born.
  - apply IH; try done. by eapply NoDup_app_remove_l.
Qed.

Lemma born_in_snoc trace x token born :
  born_in (trace ++ [x]) token born <->
  born_in trace token born \/ exists buf, token = hex buf /\ x = (born, CallGenerate buf).
Proof.
  unfold born_in. setoid_rewrite in_app_iff. simpl. split.
  - intros (buf & -> & [H|[->|[]]]); [left|right]; by exists buf.
  - intros [(buf & -> & H)|(buf & -> & ->)]; exists buf; auto.
Qed.

Lemma born_in_same trace t c token born :
  (forall buf, c <> CallGenerate buf) ->
  born_in (trace ++ [(t, c)]) token born <-> born_in trace token born.
Proof.
  intros Hc. rewrite born_in_snoc. split; [|by left]. intros [H|(buf & _ & [= _ H])]; [done|]. by destruct (Hc buf).
Qed.

Lemma tokens_generate now t trace s accepted buf :
  (now <= t)%Z -> ~ In buf (buffers trace) -> tokens_ok now trace s accepted ->
  tokens_ok t (trace ++ [(t, CallGenerate buf)]) (snd (generate buf t s)) accepted.
Proof.
  intros Hle Hnew [Hst Hgone Hacc Honce]. simpl.
  assert (Hfresh : forall born, ~ born_in trace (hex buf) born).
  { intros born (buf' & <-%hex_inj & Hin). destruct Hnew. apply in_buffers. by exists born. }
  split; try done.
  - intros token e He. rewrite born_in_snoc. apply lookup_insert_Some in He. revert He. intros [[<- <-]|[Hne He]]; simpl.
    + split; [right; by exists buf|]. split; [done|]. intros (born & Hb)%Hacc. by destruct (Hfresh born).
    + destruct (Hst token e He) as [Hb Hu]. split; [by left|done].
  - intros token born [Hn Hne]%lookup_insert_None. rewrite born_in_snoc. intros [Hb|(buf' & -> & [= <- <-])]; [|done].
    specialize (Hgone token born Hn Hb). lia.
  - intros token (born & Hb)%Hacc. exists born. rewrite born_in_snoc. by left.
Qed.

Lemma tokens_validate now t trace s accepted token :
  (now <= t)%Z -> tokens_ok now trace s accepted ->
  let st := token_step (s, accepted) (t, CallValidate token) in
  tokens_ok t (trace ++ [(t, CallValidate token)]) (fst st) (snd st).
Proof.
  intros Hle [Hst Hgone Hacc Honce].
  assert (Hsame : forall tk born, born_in (trace ++ [(t, CallValidate token)]) tk born <-> born_in trace tk born)
    by (intros; by apply born_in_same).
  assert (Hno : tokens_ok t (trace ++ [(t, CallValidate token)]) s accepted).
  { split; try done; setoid_rewrite Hsame; try done. intros tk born H1 H2. specialize (Hgone tk born H1 H2). lia. }
  simpl. unfold validate_and_consume. destruct (s !! token) as [e|] eqn:Htok; [|done].
  destruct (used e) eqn:Hused; [done|].
  destruct (_ <? _)%Z; [done|]. destruct (Hst token e Htok) as [Hborn Hu].
  destruct Hno as [_ Hgone' Hacc' _]. split; simpl.
  - intros tk e' He'. rewrite Hsame. apply lookup_insert_Some in He'. revert He'. intros [[<- <-]|[Hne He']]; simpl; [split; [done|]; split; auto|].
    destruct (Hst tk e' He') as [Hb' Hu']. split; [done|]. rewrite Hu'. simpl. split; [by right|]. by intros [<-|?].
  - intros tk born [Hn _]%lookup_insert_None. by apply Hgone'.
  - intros tk [<-|Hin]; [exists (token_created_at_ms e); by apply Hsame|by apply Hacc'].
  - constructor; [|done]. intros Hin%Hu. congruence.
Qed.

Lemma tokens_cleanup now t trace s accepted :
  (now <= t)%Z -> List.NoDup (buffers trace) -> tokens_ok now trace s accepted ->
  tokens_ok t (trace ++ [(t, CallTokenCleanup)]) (cleanup_tokens t s) accepted.
Proof.
  intros Hle Hnd [Hst Hgone Hacc Honce].
  assert (Hsame : forall tk born, born_in (trace ++ [(t, CallTokenCleanup)]) tk born <-> born_in trace tk born)
    by (intros; by apply born_in_same).
  split; try setoid_rewrite Hsame; try done.
  - intros token e He. unfold cleanup_tokens in He. apply map_lookup_filter_Some in He as [He _]. by apply Hst.
  - intros token born Hn Hb. unfold cleanup_tokens in Hn. apply map_lookup_filter_None in Hn as [Hn|Hn].
    + specialize (Hgone token born Hn Hb). lia.
    + destruct (s !! token) as [e|] eqn:He; [|specialize (Hgone token born He Hb); lia].
      destruct (Hst token e He) as [Hb' _]. rewrite (born_unique trace token born (token_created_at_ms e)) by done.
      specialize (Hn e He). simpl in Hn. apply expired_iff. lia.
Qed.

Lemma tokens_ok_later now now' trace s accepted :
  (now <= now')%Z -> tokens_ok now trace s accepted -> tokens_ok now' trace s accepted.
Proof. intros Hle [H1 H2 H3 H4]. split; try done. intros token born Hn Hb. specialize (H2 token born Hn Hb). lia. Qed.

Lemma run_tokens_ok trace now :
  StronglySorted (fun x y => (fst x <= fst y)%Z) trace -> Forall (fun x => (fst x <= now)%Z) trace ->
  List.NoDup (buffers trace) ->
  tokens_ok now trace (fst (run_tokens trace)) (snd (run_tokens trace)).
Proof.
  revert now. induction trace as [|[t c] trace IH] using rev_ind; intros now Hs Hnow Hnd.
  { split; try done; [by intros ? ? _ (? & _ & [])|constructor]. }
  apply StronglySorted_app in Hs as (Hcross & Hs & _). apply Forall_app in Hnow as [_ Ht].
  apply Forall_cons in Ht as [Ht _]. simpl in Ht. apply (tokens_ok_later t); [done|].
  rewrite buffers_snoc in Hnd. assert (Hnd' : List.NoDup (buffers trace)) by (by eapply NoDup_app_remove_r).
  assert (Hpast : Forall (fun x => (fst x <= t)%Z) trace).
  { apply list.Forall_forall. intros x Hx. apply (Hcross x (t, c)); [done|]. by apply list_elem_of_singleton. }
  specialize (IH t Hs Hpast Hnd'). unfold run_tokens in *. rewrite run_list_app.
  destruct (run_list token_step (QrTokenStore_new, []) trace) as [s accepted]. destruct c as [buf|token|].
  - apply (tokens_generate t); [done| |done]. apply NoDup_remove_2 in Hnd. by rewrite app_nil_r in Hnd.
  - by apply (tokens_validate t).
  - by apply (tokens_cleanup t).
Qed.

(** C14. A login token works once and only while it is young.  After any calls
    at a clock that does not go back, whatever expired tokens the sweeper
    removed in between, a token is accepted if and only if it was generated at
    most [QR_TOKEN_TTL_MS] ago and no call accepted it before; so the accepted
    tokens are all different. (The entropy source is assumed not to repeat
    itself.) *)
Theorem qr_token_used_once trace token now :
  StronglySorted (fun x y => (fst x <= fst y)%Z) trace -> Forall (fun x => (fst x <= now)%Z) trace ->
  List.NoDup (buffers trace) ->
  let '(s, accepted) := run_tokens trace in
  (is_ok (fst (validate_and_consume token now s)) = true <->
     (exists buf born, token = hex buf /\ In (born, CallGenerate buf) trace /\
        (now - born <= QR_TOKEN_TTL_MS)%Z) /\ ~ In token accepted) /\
  List.NoDup accepted.
Proof.
  intros Hs Hnow Hnd. pose proof (run_tokens_ok trace now Hs Hnow Hnd) as Hok.
  destruct (run_tokens trace) as [s accepted]. destruct Hok as [Hst Hgone Hacc Honce]. split; [|done].
  unfold validate_and_consume. destruct (s !! token) as [e|] eqn:He.
  - destruct (Hst token e He) as [Hb Hu]. destruct (used e) eqn:Hused; [simpl; split; [done|intros [_ []]; by apply Hu]|].
    assert (Hnot : ~ In token accepted) by (intros Hin%Hu; congruence).
    pose proof (expired_iff now (token_created_at_ms e)) as Hexp.
    destruct (Z.ltb_spec QR_TOKEN_TTL_MS (i64_saturating_sub now (token_created_at_ms e))) as [Hx|Hx]; simpl.
    + split; [done|]. intros [(buf & born & -> & Hin & Hage) _].
      assert (token_created_at_ms e = born) by (apply (born_unique trace (hex buf)); [done|done|by exists buf]).
      apply Hexp in Hx. lia.
    + split; [|done]. intros _. split; [|done]. destruct Hb as (buf & -> & Hin). exists buf, (token_created_at_ms e).
      split; [done|]. split; [done|]. lia.
  - simpl. split; [done|]. intros [(buf & born & -> & Hin & Hage) _].
    assert (Hlt : (QR_TOKEN_TTL_MS < now - born)%Z) by (apply (Hgone (hex buf)); [done|by exists buf]). lia.
Qed.

Definition sample_buffer : list Byte.byte := repeat Byte.xa7 QR_TOKEN_BYTES.
Definition sample_trace : list (Z * TokenCall) :=
  [(1000, CallGenerate sample_buffer); (2000, CallValidate (hex sample_buffer));
   (2000, CallValidate (hex sample_buffer)); (3000, CallGenerate (repeat Byte.x00 QR_TOKEN_BYTES));
   (400000, CallTokenCleanup)]%Z.

Lemma qr_token_used_once_witness :
  snd (run_tokens sample_trace) = [hex sample_buffer] /\
  let '(s, accepted) := run_tokens sample_trace in
  (is_ok (fst (validate_and_consume (hex sample_buffer) 400000 s)) = true <->
     (exists buf born, hex sample_buffer = hex buf /\ In (born, CallGenerate buf) sample_trace /\
        (400000 - born <= QR_TOKEN_TTL_MS)%Z) /\ ~ In (hex sample_buffer) accepted) /\
  List.NoDup accepted.
Proof.
  split; [by vm_compute|]. apply qr_token_used_once.
  - unfold sample_trace.
    repeat first [apply SSorted_nil | apply SSorted_cons | apply List.Forall_cons | apply List.Forall_nil]; simpl; lia.
  - unfold sample_trace. repeat first [apply List.Forall_cons | apply List.Forall_nil]; simpl; lia.
  - unfold sample_trace, buffers, sample_buffer. simpl. constructor; [by intros [[=]|[]]|].
    constructor; [by intros []|constructor].
Defined.
