(* ===== verification/AcpConfig.v ===== *)
(** * Configuration options of an ACP agent
    ([crates/tjuaeui-ai-agent/src/manager/acp/config_option_catalog.rs],
    [config_options.rs], [mode_normalize.rs])

    What an agent advertises (modes, models, configuration options) in the
    types of the [agent_client_protocol] crate, the merge of two sets of
    options, the catalogs derived from them, the snapshot shown to clients, the
    choice of the write path of a setting, and the rewriting of mode names.
    Of the types of the crate, the model has the fields the code reads or
    sets; their [#[non_exhaustive]] enums have one more constructor for
    whatever else the crate may send. *)

From S2P Require Import Prelude.

(** ** Types of the protocol crate *)

Module SessionConfigOptionCategory.
(** [Other] carries what identifies the category and its debug text in lower
    case, as [category_to_api] prints it. *)
Inductive t : Type :=
| Mode
| Model
| ThoughtLevel
| Other (value lowercase_debug : string).
#[export] Instance t_eq_dec : EqDecision t.
Proof. solve_decision. Defined.
End SessionConfigOptionCategory.
Export (hints) SessionConfigOptionCategory.

Record SessionMode : Type := mkMode {
  mode_id : string;
  mode_name : string;
  mode_description : option string;
}.

Record SessionModeState : Type := mkModeState {
  current_mode_id : string;
  available_modes : list SessionMode;
}.

Record ModelInfo : Type := mkModelInfo {
  model_id : string;
  model_name : string;
  model_description : option string;
}.

Record SessionModelState : Type := mkModelState {
  current_model_id : string;
  available_models : list ModelInfo;
}.

Record SessionConfigSelectOption : Type := mkSelectOption {
  option_value : string;
  option_name : string;
  option_description : option string;
}.

Inductive SessionConfigSelectOptions : Type :=
| Ungrouped (options : list SessionConfigSelectOption)
| Grouped (groups : list (list SessionConfigSelectOption))
| OtherOptions.

Record SessionConfigSelect : Type := mkSelect {
  select_current_value : string;
  select_options : SessionConfigSelectOptions;
}.

Inductive SessionConfigKind : Type :=
| Select (select : SessionConfigSelect)
| OtherKind.

Record SessionConfigOption : Type := mkConfigOption {
  config_id : string;
  config_name : string;
  config_description : option string;
  category : option SessionConfigOptionCategory.t;
  kind : SessionConfigKind;
}.

(** ** [config_option_catalog.rs] *)

Definition flatten_select_options (options : SessionConfigSelectOptions) : list SessionConfigSelectOption :=
  match options with
  | Ungrouped options => options
  | Grouped groups => concat groups
  | OtherOptions => []
  end.

Definition select_from_kind (kind : SessionConfigKind) : option SessionConfigSelect :=
  match kind with Select select => Some select | OtherKind => None end.

(** [Iterator::find_map] *)
Fixpoint find_map {A B : Type} (f : A -> option B) (l : list A) : option B :=
  match l with
  | [] => None
  | x :: l => match f x with Some b => Some b | None => find_map f l end
  end.

Definition has_category (category' : SessionConfigOptionCategory.t) (option : SessionConfigOption) : bool :=
  bool_decide (category option = Some category').

Definition find_select (options : list SessionConfigOption) (ids : list string)
    (category : SessionConfigOptionCategory.t) : option SessionConfigSelect :=
  match find_map (fun option =>
          if has_category category option then select_from_kind (kind option) else None) options with
  | Some select => Some select
  | None => find_map (fun option =>
      if bool_decide (config_id option ∈ ids) then select_from_kind (kind option) else None) options
  end.

Definition non_empty_or_first (current first : string) : string :=
  if bool_decide (current = "") then first else current.

Definition mode_of_option (o : SessionConfigSelectOption) : SessionMode :=
  mkMode (option_value o) (option_name o) (option_description o).
Definition model_of_option (o : SessionConfigSelectOption) : ModelInfo :=
  mkModelInfo (option_value o) (option_name o) (option_description o).

Definition derive_modes_from_config_options (options : list SessionConfigOption) : option SessionModeState :=
  match find_select options ["mode"; "modes"] SessionConfigOptionCategory.Mode with
  | None => None
  | Some select =>
      let available := map mode_of_option (flatten_select_options (select_options select)) in
      match available with
      | [] => None
      | first :: _ =>
          Some (mkModeState (non_empty_or_first (select_current_value select) (mode_id first)) available)
      end
  end.

Definition derive_models_from_config_options (options : list SessionConfigOption) : option SessionModelState :=
  match find_select options ["model"; "models"] SessionConfigOptionCategory.Model with
  | None => None
  | Some select =>
      let available := map model_of_option (flatten_select_options (select_options select)) in
      match available with
      | [] => None
      | first :: _ =>
          Some (mkModelState (non_empty_or_first (select_current_value select) (model_id first)) available)
      end
  end.

(** One incoming option: it takes the place of the first with its id. *)
Definition merge_option (merged : list SessionConfigOption) (option : SessionConfigOption)
    : list SessionConfigOption :=
  let same existing := bool_decide (config_id existing = config_id option) in
  if existsb same merged then update_first same (fun _ => option) merged else merged ++ [option].

Definition merge_config_options (existing : option (list SessionConfigOption))
    (incoming : list SessionConfigOption) : list SessionConfigOption :=
  match existing with
  | None => incoming
  | Some existing => run_list merge_option existing incoming
  end.

(** ** [config_options.rs] *)

Record AcpConfigSelectOptionDto : Type := mkSelectDto {
  select_value : string;
  select_name : option string;
  select_label : option string;
  select_description : option string;
}.

Record AcpConfigOptionDto : Type := mkDto {
  dto_id : string;
  dto_name : option string;
  dto_label : option string;
  dto_description : option string;
  dto_category : option string;
  dto_type : string;
  dto_current_value : option string;
  dto_options : list AcpConfigSelectOptionDto;
}.

Module ConfigOptionOrigin.
Inductive t : Type := Real | SyntheticLegacyMode | SyntheticLegacyModel.
End ConfigOptionOrigin.

Record ConfigSnapshot : Type := mkSnapshot {
  snapshot_options : list AcpConfigOptionDto;
  option_origins : list ConfigOptionOrigin.t;
}.

Record ConfigSupplementSummary : Type := mkSupplement {
  supplement_mode : bool;
  supplement_model : bool;
}.

Definition categories_csv (s : ConfigSupplementSummary) : option string :=
  match supplement_mode s, supplement_model s with
  | true, true => Some "mode,model"
  | true, false => Some "mode"
  | false, true => Some "model"
  | false, false => None
  end.

Definition category_to_api (category : SessionConfigOptionCategory.t) : string :=
  match category with
  | SessionConfigOptionCategory.Mode => "mode"
  | SessionConfigOptionCategory.Model => "model"
  | SessionConfigOptionCategory.ThoughtLevel => "thought_level"
  | SessionConfigOptionCategory.Other _ debug => debug
  end.

Definition dto_from_select_option (o : SessionConfigSelectOption) : AcpConfigSelectOptionDto :=
  mkSelectDto (option_value o) (Some (option_name o)) None (option_description o).

Definition dto_from_sdk_option (option : SessionConfigOption) : AcpConfigOptionDto :=
  let '(option_type, current_value, options) :=
    match kind option with
    | Select select =>
        ("select", Some (select_current_value select),
         map dto_from_select_option (flatten_select_options (select_options select)))
    | OtherKind => ("string", None, [])
    end in
  mkDto (config_id option) (Some (config_name option)) None (config_description option)
    (option_map category_to_api (category option)) option_type current_value options.

Definition dto_from_modes (modes : SessionModeState) : AcpConfigOptionDto :=
  mkDto "mode" (Some "Mode") None None (Some "mode") "select" (Some (current_mode_id modes))
    (map (fun m => mkSelectDto (mode_id m) (Some (mode_name m)) None (mode_description m))
       (available_modes modes)).

Definition dto_from_models (models : SessionModelState) : AcpConfigOptionDto :=
  mkDto "model" (Some "Model") None None (Some "model") "select" (Some (current_model_id models))
    (map (fun m => mkSelectDto (model_id m) (Some (model_name m)) None (model_description m))
       (available_models models)).

Definition from_real_options (options : list SessionConfigOption) : ConfigSnapshot :=
  mkSnapshot (map dto_from_sdk_option options) (repeat ConfigOptionOrigin.Real (length options)).

Definition push_synthetic (dto : AcpConfigOptionDto) (origin : ConfigOptionOrigin.t) (s : ConfigSnapshot)
    : ConfigSnapshot :=
  mkSnapshot (snapshot_options s ++ [dto]) (option_origins s ++ [origin]).

Definition push_modes (modes : option SessionModeState) (s : ConfigSnapshot) : ConfigSnapshot :=
  match modes with
  | Some modes => push_synthetic (dto_from_modes modes) ConfigOptionOrigin.SyntheticLegacyMode s
  | None => s
  end.
Definition push_models (models : option SessionModelState) (s : ConfigSnapshot) : ConfigSnapshot :=
  match models with
  | Some models => push_synthetic (dto_from_models models) ConfigOptionOrigin.SyntheticLegacyModel s
  | None => s
  end.

Definition from_legacy_catalogs (modes : option SessionModeState) (models : option SessionModelState)
    : ConfigSnapshot :=
  push_models models (push_modes modes (mkSnapshot [] [])).

Definition real_option_matches_category_or_id (option : SessionConfigOption)
    (category : SessionConfigOptionCategory.t) (option_id : string) : bool :=
  has_category category option || bool_decide (config_id option = option_id).

Definition supplement_summary_for_real_options (options : list SessionConfigOption)
    (modes : option SessionModeState) (models : option SessionModelState) : ConfigSupplementSummary :=
  let has_real_mode := existsb (fun o =>
    real_option_matches_category_or_id o SessionConfigOptionCategory.Mode "mode") options in
  let has_real_model := existsb (fun o =>
    real_option_matches_category_or_id o SessionConfigOptionCategory.Model "model") options in
  mkSupplement
    (negb has_real_mode && match modes with Some m => negb (is_empty (available_modes m)) | None => false end)
    (negb has_real_model && match models with Some m => negb (is_empty (available_models m)) | None => false end).

Definition from_real_options_with_runtime_supplements (options : list SessionConfigOption)
    (modes : option SessionModeState) (models : option SessionModelState) : ConfigSnapshot :=
  let summary := supplement_summary_for_real_options options modes models in
  let snapshot := from_real_options options in
  let snapshot := if supplement_mode summary then push_modes modes snapshot else snapshot in
  if supplement_model summary then push_models models snapshot else snapshot.

Definition option_at (option_id : string) (s : ConfigSnapshot) : option (nat * AcpConfigOptionDto) :=
  list_find (fun o => dto_id o = option_id) (snapshot_options s).

Definition option_current (s : ConfigSnapshot) (option_id : string) : option string :=
  match option_at option_id s with
  | Some (_, o) => dto_current_value o
  | None => None
  end.

Definition selectable_values (s : ConfigSnapshot) (option_id : string) : list string :=
  match option_at option_id s with
  | Some (_, o) => map select_value (dto_options o)
  | None => []
  end.

Definition observed_matches (s : ConfigSnapshot) (option_id requested : string) : bool :=
  bool_decide (option_current s option_id = Some requested).

Module ConfigSetPath.
Inductive t : Type :=
| ConfigOption (option_id : string)
| LegacyMode
| LegacyModel.
End ConfigSetPath.

Definition acp_method (p : ConfigSetPath.t) : string :=
  match p with
  | ConfigSetPath.ConfigOption _ => "session/set_config_option"
  | ConfigSetPath.LegacyMode => "session/set_mode"
  | ConfigSetPath.LegacyModel => "session/set_model"
  end.

Module ConfigSetPathError.
Inductive t : Type := OptionNotFound | ValueNotSelectable.
End ConfigSetPathError.

Definition resolve_set_path (snapshot : ConfigSnapshot) (option_id requested : string)
    : Result ConfigSetPath.t ConfigSetPathError.t :=
  match option_at option_id snapshot with
  | None => Err ConfigSetPathError.OptionNotFound
  | Some (index, option) =>
      if negb (is_empty (dto_options option))
         && negb (existsb (fun o => bool_decide (select_value o = requested)) (dto_options option))
      then Err ConfigSetPathError.ValueNotSelectable
      else
        match default ConfigOptionOrigin.Real (option_origins snapshot !! index) with
        | ConfigOptionOrigin.Real => Ok (ConfigSetPath.ConfigOption (dto_id option))
        | ConfigOptionOrigin.SyntheticLegacyMode => Ok ConfigSetPath.LegacyMode
        | ConfigOptionOrigin.SyntheticLegacyModel => Ok ConfigSetPath.LegacyModel
        end
  end.

(** ** [mode_normalize.rs] *)

(** Of the agent's catalog row, the columns read here. *)
Record AgentMetadata : Type := mkMetadata {
  backend : option string;
  yolo_id : option string;
  session_load_via_meta_field : bool;
}.

Definition CODEX_CANONICAL_FULL_ACCESS_MODE : string := "agent-full-access".
Definition CODEX_LEGACY_FULL_ACCESS_MODE : string := "full-access".

Definition is_codex (metadata : AgentMetadata) : bool := bool_decide (backend metadata = Some "codex").

Definition is_codex_full_access_semantic_value (mode : string) : bool :=
  bool_decide (mode ∈ [CODEX_CANONICAL_FULL_ACCESS_MODE; CODEX_LEGACY_FULL_ACCESS_MODE; "yolo"]).

Definition normalize_requested_mode (metadata : AgentMetadata) (mode : string) : string :=
  let trimmed := str_trim mode in
  if bool_decide (trimmed = "") then ""
  else if is_codex metadata && is_codex_full_access_semantic_value trimmed
  then default CODEX_CANONICAL_FULL_ACCESS_MODE (yolo_id metadata)
  else
    match bool_decide (trimmed = "yolo"), yolo_id metadata with
    | true, Some native => native
    | _, _ =>
        if is_codex metadata && bool_decide (trimmed ∈ ["default"; "autoEdit"]) then "auto" else trimmed
    end.

Definition normalize_requested_mode_for_available_values (metadata : AgentMetadata) (mode : string)
    (available_values : list string) : string :=
  let trimmed := str_trim mode in
  if is_codex metadata && is_codex_full_access_semantic_value trimmed then
    if bool_decide (CODEX_CANONICAL_FULL_ACCESS_MODE ∈ available_values) then CODEX_CANONICAL_FULL_ACCESS_MODE
    else if bool_decide (CODEX_LEGACY_FULL_ACCESS_MODE ∈ available_values) then CODEX_LEGACY_FULL_ACCESS_MODE
    else normalize_requested_mode metadata mode
  else normalize_requested_mode metadata mode.

Definition agent_metadata_uses_meta_resume (metadata : AgentMetadata) : bool :=
  session_load_via_meta_field metadata.

(** ** Snapshots as lists of entries

    Options and origins stay aligned: a snapshot is a list of pairs. *)

Definition snapshot_of (entries : list (AcpConfigOptionDto * ConfigOptionOrigin.t)) : ConfigSnapshot :=
  mkSnapshot (map fst entries) (map snd entries).

Definition real_entry (o : SessionConfigOption) : AcpConfigOptionDto * ConfigOptionOrigin.t :=
  (dto_from_sdk_option o, ConfigOptionOrigin.Real).
Definition mode_entry (m : option SessionModeState) : list (AcpConfigOptionDto * ConfigOptionOrigin.t) :=
  match m with Some m => [(dto_from_modes m, ConfigOptionOrigin.SyntheticLegacyMode)] | None => [] end.
Definition model_entry (m : option SessionModelState) : list (AcpConfigOptionDto * ConfigOptionOrigin.t) :=
  match m with Some m => [(dto_from_models m, ConfigOptionOrigin.SyntheticLegacyModel)] | None => [] end.

Lemma push_modes_entries m l : push_modes m (snapshot_of l) = snapshot_of (l ++ mode_entry m).
Proof. destruct m; [unfold snapshot_of; by rewrite !map_app|by rewrite app_nil_r]. Qed.
Lemma push_models_entries m l : push_models m (snapshot_of l) = snapshot_of (l ++ model_entry m).
Proof. destruct m; [unfold snapshot_of; by rewrite !map_app|by rewrite app_nil_r]. Qed.

Lemma legacy_entries modes models :
  from_legacy_catalogs modes models = snapshot_of (mode_entry modes ++ model_entry models).
Proof.
  unfold from_legacy_catalogs. change (mkSnapshot [] []) with (snapshot_of []).
  by rewrite push_modes_entries, push_models_entries.
Qed.

Definition supplement_entries (options : list SessionConfigOption) (modes : option SessionModeState)
    (models : option SessionModelState) : list (AcpConfigOptionDto * ConfigOptionOrigin.t) :=
  let summary := supplement_summary_for_real_options options modes models in
  (if supplement_mode summary then mode_entry modes else [])
  ++ (if supplement_model summary then model_entry models else []).

Lemma supplemented_entries options modes models :
  from_real_options_with_runtime_supplements options modes models =
    snapshot_of (map real_entry options ++ supplement_entries options modes models).
Proof.
  unfold from_real_options_with_runtime_supplements, supplement_entries.
  assert (Hreal : from_real_options options = snapshot_of (map real_entry options)).
  { unfold from_real_options, snapshot_of. f_equal; rewrite map_map; [done|]. simpl.
    induction options as [|o options IH]; [done|]. simpl. by rewrite IH. }
  rewrite Hreal. destruct (supplement_mode _), (supplement_model _);
    rewrite ?push_modes_entries, ?push_models_entries; simpl; by rewrite ?app_nil_r, <- ?app_assoc.
Qed.

(** The entry an option id stands for. *)
Definition entry_at (option_id : string) (entries : list (AcpConfigOptionDto * ConfigOptionOrigin.t)) :=
  List.find (fun e => bool_decide (dto_id (fst e) = option_id)) entries.

Definition selectable (dto : AcpConfigOptionDto) (requested : string) : bool :=
  is_empty (dto_options dto) || bool_decide (requested ∈ map select_value (dto_options dto)).

Lemma option_at_entries option_id entries :
  option_at option_id (snapshot_of entries) = None /\ entry_at option_id entries = None \/
  exists i e, option_at option_id (snapshot_of entries) = Some (i, fst e) /\
    option_origins (snapshot_of entries) !! i = Some (snd e) /\ entry_at option_id entries = Some e /\
    dto_id (fst e) = option_id.
Proof.
  unfold option_at. induction entries as [|e entries IH]; [by left|]. simpl. case_bool_decide as Hid.
  - right. exists 0, e. by rewrite decide_True.
  - rewrite decide_False by done. simpl in IH. destruct IH as [[-> ->]|(i & e' & -> & Hi & -> & He)]; [by left|].
    right. by exists (S i), e'.
Qed.

Lemma existsb_value requested (l : list AcpConfigSelectOptionDto) :
  existsb (fun o => bool_decide (select_value o = requested)) l = bool_decide (requested ∈ map select_value l).
Proof.
  apply eq_true_iff_eq. rewrite existsb_exists, bool_decide_eq_true, list_elem_of_In, in_map_iff.
  by setoid_rewrite bool_decide_eq_true; firstorder.
Qed.

Lemma resolve_entries entries option_id requested :
  resolve_set_path (snapshot_of entries) option_id requested =
    match entry_at option_id entries with
    | None => Err ConfigSetPathError.OptionNotFound
    | Some (dto, origin) =>
        if selectable dto requested then
          match origin with
          | ConfigOptionOrigin.Real => Ok (ConfigSetPath.ConfigOption option_id)
          | ConfigOptionOrigin.SyntheticLegacyMode => Ok ConfigSetPath.LegacyMode
          | ConfigOptionOrigin.SyntheticLegacyModel => Ok ConfigSetPath.LegacyModel
          end
        else Err ConfigSetPathError.ValueNotSelectable
    end.
Proof.
  unfold resolve_set_path. destruct (option_at_entries option_id entries) as [[-> ->]|(i & [dto origin] & -> & Hi & -> & Hid)];
    [done|]. simpl in *. rewrite Hi, existsb_value, <- negb_orb. fold (selectable dto requested).
  destruct (selectable dto requested); [|done]. simpl. subst. by destruct origin.
Qed.

(** The entry is the first with its id: one of the options, or a synthetic one. *)
Lemma entry_at_app option_id l l' :
  entry_at option_id (l ++ l') =
    match entry_at option_id l with Some e => Some e | None => entry_at option_id l' end.
Proof. unfold entry_at. induction l as [|e l IH]; [done|]. simpl. by case_bool_decide. Qed.

Lemma entry_at_real option_id options :
  entry_at option_id (map real_entry options) =
    option_map real_entry (List.find (fun o => bool_decide (config_id o = option_id)) options).
Proof.
  unfold entry_at. induction options as [|o options IH]; [done|]. simpl.
  assert (Hid : dto_id (dto_from_sdk_option o) = config_id o) by (unfold dto_from_sdk_option; by destruct (kind o)).
  rewrite Hid. by case_bool_decide.
Qed.
