(* ===== verification/AcpSession.v ===== *)
(** * The aggregate of an ACP session
    ([crates/tjuaeui-ai-agent/src/manager/acp/session.rs])

    [AcpSession] holds what the user wants of the agent (desired), what the
    agent last reported (observed) and what it offers (advertised), and emits
    domain events for the consumer that writes them to the database.  Methods
    become functions that return the changed session; the order in which a
    [HashMap] is iterated is an argument. *)

From S2P Require Import Prelude AcpConfig.

(** The types of the protocol crate the session only stores and hands out.
    [usage_eqb] is the [PartialEq] of [UsageUpdate], [usage_to_json] what
    [serde_json] makes of it. *)
Class AcpTypes : Type := {
  UsageUpdate : Type;
  usage_eqb : UsageUpdate -> UsageUpdate -> bool;
  usage_to_json : UsageUpdate -> string;
  AuthMethod : Type;
  AvailableCommand : Type;
}.

(** Of the capabilities, the one the code reads. *)
Record AgentCapabilities : Type := mkCapabilities { load_session : bool }.

Module AcpSessionEvent.
Inductive t : Type :=
| SessionOpened
| SessionAssigned (session_id : string)
| DesiredModeChanged (mode : string)
| DesiredModelChanged (model : string)
| DesiredConfigChanged (selections : gmap string string)
| ObservedModeSynced (mode : string)
| ObservedModelSynced (model : string)
| ObservedConfigSynced (selections : gmap string string)
| ObservedContextUsageChanged (usage_json : string).
End AcpSessionEvent.

Module ReconcileAction.
Inductive t : Type :=
| SetMode (mode : string)
| SetModel (model : string)
| SetConfigOption (key value : string).
#[export] Instance t_eq_dec : EqDecision t.
Proof. solve_decision. Defined.
End ReconcileAction.
Export (hints) ReconcileAction.

(** [CloseReason]; the kill reason is an opaque code of another module. *)
Module CloseReason.
Inductive t : Type :=
| UserCancel
| Killed (reason : option string)
| ProcessExited (exit_code : option Z) (signal : option string) (redacted_summary : string)
| Failed (display : string).
End CloseReason.

Record PendingStartupConfigSeed : Type := mkSeed {
  seed_category : SessionConfigOptionCategory.t;
  seed_value : string;
}.
#[export] Instance seed_eq_dec : EqDecision PendingStartupConfigSeed.
Proof. solve_decision. Defined.

Module SeedResult.
Inductive t : Type :=
| Applied (category : SessionConfigOptionCategory.t) (option_id : string)
| OptionNotAdvertised (category : SessionConfigOptionCategory.t)
| ValueNotSelectable (category : SessionConfigOptionCategory.t).
End SeedResult.

Record CatalogPreloadSummary : Type := mkPreload {
  mode_preloaded : bool;
  model_preloaded : bool;
  mode_catalog_count : nat;
  model_catalog_count : nat;
}.

Record Desired : Type := mkDesired {
  desired_mode_id : option string;
  desired_model_id : option string;
  config_selections : gmap string string;
  pending_startup_config : list PendingStartupConfigSeed;
}.

Record Observed : Type := mkObserved {
  observed_mode_id : option string;
  observed_model_id : option string;
  config_current : gmap string string;
}.

Section Session.
Context `{AcpTypes}.

Record Advertised : Type := mkAdvertised {
  modes : option SessionModeState;
  models : option SessionModelState;
  config_options : option (list SessionConfigOption);
  context_usage : option UsageUpdate;
  agent_capabilities : option AgentCapabilities;
  auth_methods : option (list AuthMethod);
  available_commands : option (list AvailableCommand);
}.

Record AcpSession : Type := mkAcpSession {
  session_id : option string;
  opened : bool;
  desired : Desired;
  observed : Observed;
  advertised : Advertised;
  config_set_in_flight : bool;
  pending_events : list AcpSessionEvent.t;
  pending_session_new_prelude : bool;
  last_close_reason : option CloseReason.t;
}.

Record PersistedSessionState : Type := mkPersisted {
  persisted_mode_id : option string;
  persisted_model_id : option string;
  persisted_config : gmap string string;
  persisted_usage : option UsageUpdate;
}.

Definition AcpSession_new (initial_mode initial_model : option string)
    (selections : gmap string string) : AcpSession :=
  mkAcpSession None false (mkDesired initial_mode initial_model selections [])
    (mkObserved None None ∅) (mkAdvertised None None None None None None None) false [] false None.

(** *** Field updates *)

Definition set_desired (d : Desired) (s : AcpSession) : AcpSession :=
  mkAcpSession (session_id s) (opened s) d (observed s) (advertised s) (config_set_in_flight s)
    (pending_events s) (pending_session_new_prelude s) (last_close_reason s).
Definition set_observed (o : Observed) (s : AcpSession) : AcpSession :=
  mkAcpSession (session_id s) (opened s) (desired s) o (advertised s) (config_set_in_flight s)
    (pending_events s) (pending_session_new_prelude s) (last_close_reason s).
Definition set_advertised (a : Advertised) (s : AcpSession) : AcpSession :=
  mkAcpSession (session_id s) (opened s) (desired s) (observed s) a (config_set_in_flight s)
    (pending_events s) (pending_session_new_prelude s) (last_close_reason s).
Definition set_in_flight (b : bool) (s : AcpSession) : AcpSession :=
  mkAcpSession (session_id s) (opened s) (desired s) (observed s) (advertised s) b
    (pending_events s) (pending_session_new_prelude s) (last_close_reason s).
Definition push_event (e : AcpSessionEvent.t) (s : AcpSession) : AcpSession :=
  mkAcpSession (session_id s) (opened s) (desired s) (observed s) (advertised s) (config_set_in_flight s)
    (pending_events s ++ [e]) (pending_session_new_prelude s) (last_close_reason s).
Definition push_if (changed : bool) (e : AcpSessionEvent.t) (s : AcpSession) : AcpSession :=
  if changed then push_event e s else s.
Definition set_prelude (b : bool) (s : AcpSession) : AcpSession :=
  mkAcpSession (session_id s) (opened s) (desired s) (observed s) (advertised s) (config_set_in_flight s)
    (pending_events s) b (last_close_reason s).
Definition set_ids (sid : option string) (o : bool) (s : AcpSession) : AcpSession :=
  mkAcpSession sid o (desired s) (observed s) (advertised s) (config_set_in_flight s)
    (pending_events s) (pending_session_new_prelude s) (last_close_reason s).
Definition set_close (r : option CloseReason.t) (s : AcpSession) : AcpSession :=
  mkAcpSession (session_id s) (opened s) (desired s) (observed s) (advertised s) (config_set_in_flight s)
    (pending_events s) (pending_session_new_prelude s) r.

Definition with_desired_mode (m : option string) (d : Desired) : Desired :=
  mkDesired m (desired_model_id d) (config_selections d) (pending_startup_config d).
Definition with_desired_model (m : option string) (d : Desired) : Desired :=
  mkDesired (desired_mode_id d) m (config_selections d) (pending_startup_config d).
Definition with_selections (c : gmap string string) (d : Desired) : Desired :=
  mkDesired (desired_mode_id d) (desired_model_id d) c (pending_startup_config d).
Definition with_seeds (l : list PendingStartupConfigSeed) (d : Desired) : Desired :=
  mkDesired (desired_mode_id d) (desired_model_id d) (config_selections d) l.
Definition with_observed_mode (m : string) (o : Observed) : Observed :=
  mkObserved (Some m) (observed_model_id o) (config_current o).
Definition with_observed_model (m : string) (o : Observed) : Observed :=
  mkObserved (observed_mode_id o) (Some m) (config_current o).
Definition with_current (c : gmap string string) (o : Observed) : Observed :=
  mkObserved (observed_mode_id o) (observed_model_id o) c.
Definition with_modes (m : option SessionModeState) (a : Advertised) : Advertised :=
  mkAdvertised m (models a) (config_options a) (context_usage a) (agent_capabilities a) (auth_methods a)
    (available_commands a).
Definition with_models (m : option SessionModelState) (a : Advertised) : Advertised :=
  mkAdvertised (modes a) m (config_options a) (context_usage a) (agent_capabilities a) (auth_methods a)
    (available_commands a).
Definition with_options (c : option (list SessionConfigOption)) (a : Advertised) : Advertised :=
  mkAdvertised (modes a) (models a) c (context_usage a) (agent_capabilities a) (auth_methods a)
    (available_commands a).
Definition with_usage (u : option UsageUpdate) (a : Advertised) : Advertised :=
  mkAdvertised (modes a) (models a) (config_options a) u (agent_capabilities a) (auth_methods a)
    (available_commands a).

(** *** The lease of a configuration update

    The guard token owns a clone of the flag; dropping it stores [false]. *)
Definition try_begin_config_set (s : AcpSession) : bool * AcpSession :=
  if config_set_in_flight s then (false, s) else (true, set_in_flight true s).
Definition drop_config_guard (s : AcpSession) : AcpSession := set_in_flight false s.

(** *** Session id and opening

    The [debug_assert] of [set_session_id] is compiled out of a release
    build, which then keeps the id it has. *)
Definition set_session_id (sid : string) (s : AcpSession) : AcpSession :=
  match session_id s with
  | Some _ => s
  | None => push_event (AcpSessionEvent.SessionAssigned sid) (set_ids (Some sid) (opened s) s)
  end.

Definition clear_session_id (s : AcpSession) : AcpSession := set_close None (set_ids None false s).

Definition record_close_reason (reason : option CloseReason.t) (s : AcpSession) : AcpSession := set_close reason s.
Definition take_close_reason (s : AcpSession) : option CloseReason.t * AcpSession :=
  (last_close_reason s, set_close None s).

Definition mark_opened (s : AcpSession) : AcpSession :=
  if opened s then s else push_event AcpSessionEvent.SessionOpened (set_ids (session_id s) true s).

Definition mark_pending_session_new_prelude (s : AcpSession) : AcpSession := set_prelude true s.
Definition take_pending_session_new_prelude (s : AcpSession) : bool * AcpSession :=
  (pending_session_new_prelude s, set_prelude false s).

(** *** Desired *)

Definition catalog_mode_ids (m : SessionModeState) : list string := map mode_id (available_modes m).
Definition catalog_model_ids (m : SessionModelState) : list string := map model_id (available_models m).

Definition is_mode_valid (s : AcpSession) (mode : string) : bool :=
  match modes (advertised s) with
  | None => true
  | Some m => is_empty (available_modes m) || bool_decide (mode ∈ catalog_mode_ids m)
  end.
Definition is_model_valid (s : AcpSession) (model : string) : bool :=
  match models (advertised s) with
  | None => true
  | Some m => is_empty (available_models m) || bool_decide (model ∈ catalog_model_ids m)
  end.

Definition can_select_model (s : AcpSession) (model : string) : bool :=
  negb (bool_decide (model = "")) && is_model_valid s model.
Definition can_select_mode (s : AcpSession) (mode : string) : bool :=
  negb (bool_decide (mode = "")) && is_mode_valid s mode.

Definition set_desired_mode (mode : string) (s : AcpSession) : bool * AcpSession :=
  if bool_decide (mode = "") then (false, s)
  else if negb (is_mode_valid s mode) then (false, s)
  else if bool_decide (desired_mode_id (desired s) = Some mode) then (false, s)
  else (true, push_event (AcpSessionEvent.DesiredModeChanged mode)
                (set_desired (with_desired_mode (Some mode) (desired s)) s)).

Definition set_desired_model (model : string) (s : AcpSession) : bool * AcpSession :=
  if bool_decide (model = "") then (false, s)
  else if negb (is_model_valid s model) then (false, s)
  else if bool_decide (desired_model_id (desired s) = Some model) then (false, s)
  else (true, push_event (AcpSessionEvent.DesiredModelChanged model)
                (set_desired (with_desired_model (Some model) (desired s)) s)).

Definition clear_invalid_desired_model (s : AcpSession) : option string * AcpSession :=
  match desired_model_id (desired s) with
  | None => (None, s)
  | Some model =>
      if is_model_valid s model then (None, s)
      else (Some model, set_desired (with_desired_model None (desired s)) s)
  end.

Definition clear_invalid_desired_mode (s : AcpSession) : option string * AcpSession :=
  match desired_mode_id (desired s) with
  | None => (None, s)
  | Some mode =>
      if is_mode_valid s mode then (None, s)
      else (Some mode, set_desired (with_desired_mode None (desired s)) s)
  end.

Definition set_desired_config (key value : string) (s : AcpSession) : AcpSession :=
  let changed := negb (bool_decide (config_selections (desired s) !! key = Some value)) in
  let selections := <[key := value]> (config_selections (desired s)) in
  push_if changed (AcpSessionEvent.DesiredConfigChanged selections)
    (set_desired (with_selections selections (desired s)) s).

(** *** Start-up seeds *)

Definition seed_pending_startup_config (category : SessionConfigOptionCategory.t) (value : string)
    (s : AcpSession) : AcpSession :=
  if bool_decide (value = "") then s
  else if bool_decide (mkSeed category value ∈ pending_startup_config (desired s)) then s
  else set_desired (with_seeds (pending_startup_config (desired s) ++ [mkSeed category value]) (desired s)) s.

Definition config_option_aliases_for_category (category : SessionConfigOptionCategory.t) : list string :=
  match category with
  | SessionConfigOptionCategory.Mode => ["mode"; "modes"]
  | SessionConfigOptionCategory.Model => ["model"; "models"]
  | SessionConfigOptionCategory.ThoughtLevel =>
      ["thought_level"; "reasoning_effort"; "effort"; "thinking_budget"; "thinking"]
  | _ => []
  end.

Definition select_option_for_startup_seed (options : list SessionConfigOption)
    (category : SessionConfigOptionCategory.t) : option SessionConfigOption :=
  match List.find (has_category category) options with
  | Some option => Some option
  | None => List.find (fun option =>
      bool_decide (config_id option ∈ config_option_aliases_for_category category)) options
  end.

Definition select_option_values (kind : SessionConfigKind) : list string :=
  match kind with
  | Select select => map option_value (flatten_select_options (select_options select))
  | OtherKind => []
  end.

Definition select_option_contains_value (kind : SessionConfigKind) (value : string) : bool :=
  bool_decide (value ∈ select_option_values kind).

Definition clear_legacy_desired_for_config_category (category : SessionConfigOptionCategory.t)
    (s : AcpSession) : AcpSession :=
  match category with
  | SessionConfigOptionCategory.Mode => set_desired (with_desired_mode None (desired s)) s
  | SessionConfigOptionCategory.Model => set_desired (with_desired_model None (desired s)) s
  | _ => s
  end.

Definition handle_unresolved_startup_config_seed (seed : PendingStartupConfigSeed)
    (option_was_advertised : bool) (s : AcpSession) : AcpSession :=
  match seed_category seed with
  | SessionConfigOptionCategory.Mode | SessionConfigOptionCategory.Model =>
      if option_was_advertised then clear_legacy_desired_for_config_category (seed_category seed) s else s
  | SessionConfigOptionCategory.ThoughtLevel =>
      if option_was_advertised then s
      else seed_pending_startup_config (seed_category seed) (seed_value seed) s
  | _ => s
  end.

(** One turn of the loop over the seeds. *)
Definition resolve_seed (mode_normalizer : string -> list string -> string)
    (acc : AcpSession * list SeedResult.t) (seed : PendingStartupConfigSeed)
    : AcpSession * list SeedResult.t :=
  let '(s, results) := acc in
  let category := seed_category seed in
  match
    match config_options (advertised s) with
    | Some options => select_option_for_startup_seed options category
    | None => None
    end
  with
  | None => (handle_unresolved_startup_config_seed seed false s,
             results ++ [SeedResult.OptionNotAdvertised category])
  | Some option =>
      let resolved_value :=
        if bool_decide (category = SessionConfigOptionCategory.Mode)
        then mode_normalizer (seed_value seed) (select_option_values (kind option))
        else seed_value seed in
      if negb (select_option_contains_value (kind option) resolved_value)
      then (handle_unresolved_startup_config_seed seed true s,
            results ++ [SeedResult.ValueNotSelectable category])
      else
        let option_id := config_id option in
        (set_desired_config option_id resolved_value (clear_legacy_desired_for_config_category category s),
         results ++ [SeedResult.Applied category option_id])
  end.

Definition resolve_pending_startup_config_seeds_with_mode_normalizer
    (mode_normalizer : string -> list string -> string) (s : AcpSession)
    : list SeedResult.t * AcpSession :=
  let seeds := pending_startup_config (desired s) in
  let s := set_desired (with_seeds [] (desired s)) s in
  let '(s, results) := run_list (resolve_seed mode_normalizer) (s, []) seeds in
  (results, s).

(** *** Observations *)

Definition catalog_of_modes (s : AcpSession) : list SessionMode :=
  match modes (advertised s) with Some m => available_modes m | None => [] end.
Definition catalog_of_models (s : AcpSession) : list ModelInfo :=
  match models (advertised s) with Some m => available_models m | None => [] end.

(** Both layers take the mode; nothing is emitted. *)
Definition put_mode (mode : string) (m : SessionModeState) (s : AcpSession) : AcpSession :=
  set_advertised (with_modes (Some m) (advertised s)) (set_observed (with_observed_mode mode (observed s)) s).
Definition put_model (model : string) (m : SessionModelState) (s : AcpSession) : AcpSession :=
  set_advertised (with_models (Some m) (advertised s)) (set_observed (with_observed_model model (observed s)) s).

Definition mode_changed (mode : string) (s : AcpSession) : bool :=
  negb (bool_decide (observed_mode_id (observed s) = Some mode)).
Definition model_changed (model : string) (s : AcpSession) : bool :=
  negb (bool_decide (observed_model_id (observed s) = Some model)).

Definition apply_observed_mode (mode : string) (s : AcpSession) : AcpSession :=
  push_if (mode_changed mode s) (AcpSessionEvent.ObservedModeSynced mode)
    (put_mode mode (mkModeState mode (catalog_of_modes s)) s).

Definition apply_observed_model (model : string) (s : AcpSession) : AcpSession :=
  push_if (model_changed model s) (AcpSessionEvent.ObservedModelSynced model)
    (put_model model (mkModelState model (catalog_of_models s)) s).

Definition confirm_mode (mode : string) (s : AcpSession) : AcpSession :=
  apply_observed_mode mode (set_desired (with_desired_mode (Some mode) (desired s)) s).
Definition confirm_model (model : string) (s : AcpSession) : AcpSession :=
  apply_observed_model model (set_desired (with_desired_model (Some model) (desired s)) s).

Definition apply_observed_config (key value : string) (s : AcpSession) : AcpSession :=
  let changed := negb (bool_decide (config_current (observed s) !! key = Some value)) in
  let current := <[key := value]> (config_current (observed s)) in
  push_if changed (AcpSessionEvent.ObservedConfigSynced current)
    (set_observed (with_current current (observed s)) s).

Definition preserve_existing_mode_catalog_if_empty (m : SessionModeState) (s : AcpSession) : SessionModeState :=
  if is_empty (available_modes m) && negb (is_empty (catalog_of_modes s))
  then mkModeState (current_mode_id m) (catalog_of_modes s) else m.
Definition preserve_existing_model_catalog_if_empty (m : SessionModelState) (s : AcpSession) : SessionModelState :=
  if is_empty (available_models m) && negb (is_empty (catalog_of_models s))
  then mkModelState (current_model_id m) (catalog_of_models s) else m.

Definition apply_advertised_modes (m : SessionModeState) (s : AcpSession) : AcpSession :=
  let m := preserve_existing_mode_catalog_if_empty m s in
  let new_id := current_mode_id m in
  push_if (mode_changed new_id s) (AcpSessionEvent.ObservedModeSynced new_id) (put_mode new_id m s).

Definition apply_advertised_models (m : SessionModelState) (s : AcpSession) : AcpSession :=
  let m := preserve_existing_model_catalog_if_empty m s in
  let new_id := current_model_id m in
  push_if (model_changed new_id s) (AcpSessionEvent.ObservedModelSynced new_id) (put_model new_id m s).

Definition preserve_desired_model_in_catalog (m : SessionModelState) (s : AcpSession) : SessionModelState :=
  match desired_model_id (desired s) with
  | None => m
  | Some model =>
      if bool_decide (current_model_id m = model) then m
      else if bool_decide (model ∈ catalog_model_ids m) then mkModelState model (available_models m)
      else m
  end.

Definition extract_config_current_value (kind : SessionConfigKind) : option string :=
  match kind with Select select => Some (select_current_value select) | OtherKind => None end.

(** One turn of the loop over the options: the current values, and whether
    one of them changed. *)
Definition observe_option (acc : gmap string string * bool) (option : SessionConfigOption)
    : gmap string string * bool :=
  match extract_config_current_value (kind option) with
  | Some value =>
      (<[config_id option := value]> (fst acc),
       snd acc || negb (bool_decide (fst acc !! config_id option = Some value)))
  | None => acc
  end.

Definition apply_advertised_config_options (incoming : list SessionConfigOption) (s : AcpSession) : AcpSession :=
  let options := merge_config_options (config_options (advertised s)) incoming in
  let s := match derive_modes_from_config_options options with
           | Some m => apply_advertised_modes m s
           | None => s
           end in
  let s := match derive_models_from_config_options options with
           | Some m => apply_advertised_models (preserve_desired_model_in_catalog m s) s
           | None => s
           end in
  let '(current, changed) := run_list observe_option (config_current (observed s), false) options in
  push_if changed (AcpSessionEvent.ObservedConfigSynced current)
    (set_advertised (with_options (Some options) (advertised s))
      (set_observed (with_current current (observed s)) s)).

Definition apply_advertised_capabilities (caps : AgentCapabilities) (s : AcpSession) : AcpSession :=
  set_advertised (mkAdvertised (modes (advertised s)) (models (advertised s)) (config_options (advertised s))
    (context_usage (advertised s)) (Some caps) (auth_methods (advertised s)) (available_commands (advertised s))) s.
Definition apply_advertised_auth_methods (methods : list AuthMethod) (s : AcpSession) : AcpSession :=
  set_advertised (mkAdvertised (modes (advertised s)) (models (advertised s)) (config_options (advertised s))
    (context_usage (advertised s)) (agent_capabilities (advertised s)) (Some methods)
    (available_commands (advertised s))) s.
Definition apply_advertised_commands (commands : list AvailableCommand) (s : AcpSession) : AcpSession :=
  set_advertised (mkAdvertised (modes (advertised s)) (models (advertised s)) (config_options (advertised s))
    (context_usage (advertised s)) (agent_capabilities (advertised s)) (auth_methods (advertised s))
    (Some commands)) s.

Definition apply_context_usage (usage : UsageUpdate) (s : AcpSession) : AcpSession :=
  let changed := negb match context_usage (advertised s) with
                      | Some u => usage_eqb u usage
                      | None => false
                      end in
  push_if changed (AcpSessionEvent.ObservedContextUsageChanged (usage_to_json usage))
    (set_advertised (with_usage (Some usage) (advertised s)) s).

(** *** Preloading *)

Definition preload_persisted (p : PersistedSessionState) (s : AcpSession) : AcpSession :=
  let s := match persisted_mode_id p with
           | Some mode => put_mode mode (mkModeState mode (catalog_of_modes s)) s
           | None => s
           end in
  let s := match persisted_model_id p with
           | Some model => put_model model (mkModelState model (catalog_of_models s)) s
           | None => s
           end in
  let s := if bool_decide (persisted_config p = ∅) then s
           else set_observed (with_current (persisted_config p) (observed s)) s in
  match persisted_usage p with
  | Some usage => set_advertised (with_usage (Some usage) (advertised s)) s
  | None => s
  end.

(** [Option::or] then [Option::filter]. *)
Definition or_filtered (p : string -> bool) (a b : option string) : option string :=
  match match a with Some x => Some x | None => b end with
  | Some x => if p x then Some x else None
  | None => None
  end.

Definition mode_catalog_with_session_current (m : SessionModeState) (s : AcpSession) : SessionModeState :=
  match or_filtered (fun x => bool_decide (x ∈ catalog_mode_ids m))
          (observed_mode_id (observed s)) (desired_mode_id (desired s)) with
  | Some current => mkModeState current (available_modes m)
  | None => m
  end.
Definition model_catalog_with_session_current (m : SessionModelState) (s : AcpSession) : SessionModelState :=
  match or_filtered (fun x => bool_decide (x ∈ catalog_model_ids m))
          (observed_model_id (observed s)) (desired_model_id (desired s)) with
  | Some current => mkModelState current (available_models m)
  | None => m
  end.

Definition preload_advertised_catalogs (mode_catalog : option SessionModeState)
    (model_catalog : option SessionModelState) (s : AcpSession) : CatalogPreloadSummary * AcpSession :=
  let '(mode_count, s) :=
    match mode_catalog with
    | Some m =>
        if negb (is_empty (available_modes m)) && is_empty (catalog_of_modes s)
        then (Some (length (available_modes m)),
              set_advertised (with_modes (Some (mode_catalog_with_session_current m s)) (advertised s)) s)
        else (None, s)
    | None => (None, s)
    end in
  let '(model_count, s) :=
    match model_catalog with
    | Some m =>
        if negb (is_empty (available_models m)) && is_empty (catalog_of_models s)
        then (Some (length (available_models m)),
              set_advertised (with_models (Some (model_catalog_with_session_current m s)) (advertised s)) s)
        else (None, s)
    | None => (None, s)
    end in
  (mkPreload (bool_decide (is_Some mode_count)) (bool_decide (is_Some model_count))
     (default 0 mode_count) (default 0 model_count), s).

(** *** Reconciling *)

Definition plan_mode (s : AcpSession) : list ReconcileAction.t :=
  match desired_mode_id (desired s) with
  | Some mode => if mode_changed mode s then [ReconcileAction.SetMode mode] else []
  | None => []
  end.
Definition plan_model (s : AcpSession) : list ReconcileAction.t :=
  match desired_model_id (desired s) with
  | Some model => if model_changed model s then [ReconcileAction.SetModel model] else []
  | None => []
  end.
Definition plan_option (s : AcpSession) (key : string) : list ReconcileAction.t :=
  match config_selections (desired s) !! key with
  | Some value =>
      if bool_decide (config_current (observed s) !! key = Some value) then []
      else [ReconcileAction.SetConfigOption key value]
  | None => []
  end.

(** [order] is the order in which the map of selections yields its keys. *)
Definition plan_reconcile (order : list string) (s : AcpSession) : list ReconcileAction.t :=
  plan_mode s ++ plan_model s ++ flat_map (plan_option s) order.

Definition drain_events (s : AcpSession) : list AcpSessionEvent.t * AcpSession :=
  (pending_events s,
   mkAcpSession (session_id s) (opened s) (desired s) (observed s) (advertised s) (config_set_in_flight s)
     [] (pending_session_new_prelude s) (last_close_reason s)).

Definition config_snapshot (s : AcpSession) : ConfigSnapshot :=
  match config_options (advertised s) with
  | Some options =>
      from_real_options_with_runtime_supplements options (modes (advertised s)) (models (advertised s))
  | None => from_legacy_catalogs (modes (advertised s)) (models (advertised s))
  end.

Definition session_current_mode_id (s : AcpSession) : option string :=
  option_map current_mode_id (modes (advertised s)).
Definition session_current_model_id (s : AcpSession) : option string :=
  option_map current_model_id (models (advertised s)).

(** ** The reconcile plan *)

(** The agent took an action: what it then reports is observed. *)
Definition apply_action (s : AcpSession) (a : ReconcileAction.t) : AcpSession :=
  match a with
  | ReconcileAction.SetMode mode => apply_observed_mode mode s
  | ReconcileAction.SetModel model => apply_observed_model model s
  | ReconcileAction.SetConfigOption key value => apply_observed_config key value s
  end.

Lemma push_if_observed b e s : observed (push_if b e s) = observed s.
Proof. by destruct b. Qed.
Lemma push_if_desired b e s : desired (push_if b e s) = desired s.
Proof. by destruct b. Qed.
Lemma push_if_advertised b e s : advertised (push_if b e s) = advertised s.
Proof. by destruct b. Qed.

Definition observe_action (o : Observed) (a : ReconcileAction.t) : Observed :=
  match a with
  | ReconcileAction.SetMode mode => with_observed_mode mode o
  | ReconcileAction.SetModel model => with_observed_model model o
  | ReconcileAction.SetConfigOption key value => with_current (<[key := value]> (config_current o)) o
  end.

Lemma apply_action_observed s a : observed (apply_action s a) = observe_action (observed s) a.
Proof.
  destruct a; simpl; unfold apply_observed_mode, apply_observed_model, apply_observed_config;
    by rewrite push_if_observed.
Qed.

Lemma apply_action_desired s a : desired (apply_action s a) = desired s.
Proof.
  destruct a; simpl; unfold apply_observed_mode, apply_observed_model, apply_observed_config;
    by rewrite push_if_desired.
Qed.

Lemma apply_actions s l :
  desired (run_list apply_action s l) = desired s /\
  observed (run_list apply_action s l) = run_list observe_action (observed s) l.
Proof.
  revert s. induction l as [|a l IH]; intros s; [done|]. rewrite !run_list_cons, <- apply_action_observed.
  destruct (IH (apply_action s a)) as [-> ->]. by rewrite apply_action_desired.
Qed.

(** The last write of each kind remains, and all writes of a kind are alike. *)
Lemma actions_mode mode l o :
  (forall m, ReconcileAction.SetMode m ∈ l -> mode = Some m) ->
  observed_mode_id (run_list observe_action o l) = mode /\ is_Some mode \/
  observed_mode_id (run_list observe_action o l) = observed_mode_id o /\ forall m, ReconcileAction.SetMode m ∉ l.
Proof.
  revert o. induction l as [|a l IH]; intros o Hl; [right; split; [done|intros m; by apply not_elem_of_nil]|].
  rewrite run_list_cons. destruct (IH (observe_action o a)) as [?|[Heq Hnot]]; [|by left|].
  { intros m Hm. apply Hl. apply elem_of_cons. by right. }
  rewrite Heq. destruct a as [m| |]; simpl.
  - left. rewrite (Hl m) by (apply elem_of_cons; by left). done.
  - right. split; [done|]. intros m' [?|?]%elem_of_cons; [done|by eapply Hnot].
  - right. split; [done|]. intros m' [?|?]%elem_of_cons; [done|by eapply Hnot].
Qed.

Lemma actions_model model l o :
  (forall m, ReconcileAction.SetModel m ∈ l -> model = Some m) ->
  observed_model_id (run_list observe_action o l) = model /\ is_Some model \/
  observed_model_id (run_list observe_action o l) = observed_model_id o /\ forall m, ReconcileAction.SetModel m ∉ l.
Proof.
  revert o. induction l as [|a l IH]; intros o Hl; [right; split; [done|intros m; by apply not_elem_of_nil]|].
  rewrite run_list_cons. destruct (IH (observe_action o a)) as [?|[Heq Hnot]]; [|by left|].
  { intros m Hm. apply Hl. apply elem_of_cons. by right. }
  rewrite Heq. destruct a as [|m|]; simpl.
  - right. split; [done|]. intros m' [?|?]%elem_of_cons; [done|by eapply Hnot].
  - left. rewrite (Hl m) by (apply elem_of_cons; by left). done.
  - right. split; [done|]. intros m' [?|?]%elem_of_cons; [done|by eapply Hnot].
Qed.

Lemma actions_config key value l o :
  (forall v, ReconcileAction.SetConfigOption key v ∈ l -> value = Some v) ->
  config_current (run_list observe_action o l) !! key = value /\ is_Some value \/
  config_current (run_list observe_action o l) !! key = config_current o !! key /\
    forall v, ReconcileAction.SetConfigOption key v ∉ l.
Proof.
  revert o. induction l as [|a l IH]; intros o Hl; [right; split; [done|intros m; by apply not_elem_of_nil]|].
  rewrite run_list_cons. destruct (IH (observe_action o a)) as [?|[Heq Hnot]]; [|by left|].
  { intros v Hv. apply Hl. apply elem_of_cons. by right. }
  rewrite Heq. destruct a as [| |k v]; simpl.
  - right. split; [done|]. intros v' [?|?]%elem_of_cons; [done|by eapply Hnot].
  - right. split; [done|]. intros v' [?|?]%elem_of_cons; [done|by eapply Hnot].
  - destruct (decide (k = key)) as [->|Hne].
    + left. rewrite lookup_insert_eq, (Hl v) by (apply elem_of_cons; by left). done.
    + right. split; [by rewrite lookup_insert_ne|]. intros v' [[= ]|?]%elem_of_cons; [congruence|by eapply Hnot].
Qed.

(** *** What is in the plan *)

Definition wanted (s : AcpSession) (a : ReconcileAction.t) : Prop :=
  match a with
  | ReconcileAction.SetMode m => desired_mode_id (desired s) = Some m /\ observed_mode_id (observed s) <> Some m
  | ReconcileAction.SetModel m => desired_model_id (desired s) = Some m /\ observed_model_id (observed s) <> Some m
  | ReconcileAction.SetConfigOption k v =>
      config_selections (desired s) !! k = Some v /\ config_current (observed s) !! k <> Some v
  end.

(** [order] yields the keys of the map of selections. *)
Definition key_order (order : list string) (s : AcpSession) : Prop :=
  NoDup order /\ forall k, k ∈ order <-> is_Some (config_selections (desired s) !! k).

(** Closes the membership goals of a plan of at most one action. *)
Ltac one_action Hd :=
  split; [by intros ?%elem_of_nil || (intros ->%list_elem_of_singleton; eexists; done)|];
  intros (x & -> & Hw); simpl in Hw; rewrite Hd in Hw; destruct Hw as [Hx Hw]; try done;
  injection Hx as <-; first [done|by apply list_elem_of_singleton].

Lemma in_plan_mode s a : a ∈ plan_mode s <-> exists m, a = ReconcileAction.SetMode m /\ wanted s a.
Proof.
  unfold plan_mode, mode_changed. destruct (desired_mode_id (desired s)) as [m|] eqn:Hd; [case_bool_decide|]; simpl;
    one_action Hd.
Qed.

Lemma in_plan_model s a : a ∈ plan_model s <-> exists m, a = ReconcileAction.SetModel m /\ wanted s a.
Proof.
  unfold plan_model, model_changed. destruct (desired_model_id (desired s)) as [m|] eqn:Hd; [case_bool_decide|]; simpl;
    one_action Hd.
Qed.

Lemma in_plan_option s k a : a ∈ plan_option s k <->
  exists v, a = ReconcileAction.SetConfigOption k v /\ wanted s a.
Proof.
  unfold plan_option. destruct (config_selections (desired s) !! k) as [v|] eqn:Hd; [case_bool_decide|]; simpl;
    one_action Hd.
Qed.

Lemma in_plan order s a : (forall k, k ∈ order <-> is_Some (config_selections (desired s) !! k)) ->
  a ∈ plan_reconcile order s <-> wanted s a.
Proof.
  intros Hord. unfold plan_reconcile.
  rewrite !elem_of_app, in_plan_mode, in_plan_model, (list_elem_of_In (flat_map _ _) a), in_flat_map. split.
  - intros [(? & _ & ?)|[(? & _ & ?)|(k & _ & Hk)]]; [done..|].
    by apply list_elem_of_In, in_plan_option in Hk as (? & _ & ?).
  - intros Hw. destruct a as [m|m|k v]; [left; by exists m|right; left; by exists m|right; right].
    exists k. split; [|apply list_elem_of_In, in_plan_option; by exists v].
    apply list_elem_of_In, Hord. exists v. apply Hw.
Qed.

Lemma NoDup_plan order s : NoDup order -> NoDup (plan_reconcile order s).
Proof.
  intros Hnd.
  assert (Hopt : NoDup (flat_map (plan_option s) order)).
  { induction order as [|k order IH]; [constructor|]. apply NoDup_cons in Hnd as [Hk Hnd]. simpl.
    apply list.NoDup_app. split; [|split; [|by apply IH]].
    - unfold plan_option. repeat case_match; try constructor; [by intros ?%elem_of_nil|constructor].
    - intros a Ha Hin. apply in_plan_option in Ha as (v & -> & _).
      apply list_elem_of_In, in_flat_map in Hin as (k' & Hk' & Hin).
      apply list_elem_of_In, in_plan_option in Hin as (v' & [= <- _] & _). by apply list_elem_of_In in Hk'. }
  unfold plan_reconcile. rewrite !list.NoDup_app. split; [|split; [|split; [|split; [|done]]]].
  - unfold plan_mode. repeat case_match; repeat constructor. by intros ?%elem_of_nil.
  - intros a (m & -> & _)%in_plan_mode Hin. apply elem_of_app in Hin as [(? & ? & _)%in_plan_model|Hin]; [done|].
    apply list_elem_of_In, in_flat_map in Hin as (k & _ & Hin).
    by apply list_elem_of_In, in_plan_option in Hin as (? & ? & _).
  - unfold plan_model. repeat case_match; repeat constructor. by intros ?%elem_of_nil.
  - intros a (m & -> & _)%in_plan_model Hin.
    apply list_elem_of_In, in_flat_map in Hin as (k & _ & Hin).
    by apply list_elem_of_In, in_plan_option in Hin as (? & ? & _).
Qed.

(** The plan is empty when nothing is wanted. *)
Lemma plan_nil order s : (forall a, ~ wanted s a) -> (forall k, k ∈ order <-> is_Some (config_selections (desired s) !! k)) ->
  plan_reconcile order s = [].
Proof.
  intros Hnone Hord. destruct (plan_reconcile order s) as [|a l] eqn:Hp; [done|].
  destruct (Hnone a). apply (in_plan order s a Hord). rewrite Hp. apply elem_of_cons. by left.
Qed.

(** Applying the plan in any order. *)
Definition aligned_observed (s : AcpSession) : Observed :=
  mkObserved (union (desired_mode_id (desired s)) (observed_mode_id (observed s)))
    (union (desired_model_id (desired s)) (observed_model_id (observed s)))
    (config_selections (desired s) ∪ config_current (observed s)).

Lemma plan_applied order s l : key_order order s -> l ≡ₚ plan_reconcile order s ->
  run_list observe_action (observed s) l = aligned_observed s.
Proof.
  intros [_ Hord] Hl. assert (Hin : forall a, a ∈ l <-> wanted s a) by (intros a; rewrite Hl; by apply in_plan).
  assert (Heq : forall o o', observed_mode_id o = observed_mode_id o' -> observed_model_id o = observed_model_id o' ->
    config_current o = config_current o' -> o = o') by (intros [] []; simpl; congruence).
  apply Heq; simpl.
  - destruct (actions_mode (desired_mode_id (desired s)) l (observed s)) as [[-> [m ->]]|[-> Hnot]].
    + intros m [Hw _]%Hin. done.
    + by destruct (observed_mode_id (observed s)).
    + destruct (desired_mode_id (desired s)) as [m|] eqn:Hd; [|by destruct (observed_mode_id (observed s))].
      destruct (decide (observed_mode_id (observed s) = Some m)) as [->|Hne]; [done|].
      destruct (Hnot m). by apply Hin.
  - destruct (actions_model (desired_model_id (desired s)) l (observed s)) as [[-> [m ->]]|[-> Hnot]].
    + intros m [Hw _]%Hin. done.
    + by destruct (observed_model_id (observed s)).
    + destruct (desired_model_id (desired s)) as [m|] eqn:Hd; [|by destruct (observed_model_id (observed s))].
      destruct (decide (observed_model_id (observed s) = Some m)) as [->|Hne]; [done|].
      destruct (Hnot m). by apply Hin.
  - apply map_eq. intros k. rewrite lookup_union.
    destruct (actions_config k (config_selections (desired s) !! k) l (observed s)) as [[-> [v ->]]|[-> Hnot]].
    + intros v [Hw _]%Hin. done.
    + by destruct (config_current (observed s) !! k).
    + destruct (config_selections (desired s) !! k) as [v|] eqn:Hd; [|by destruct (config_current (observed s) !! k)].
      destruct (decide (config_current (observed s) !! k = Some v)) as [->|Hne]; [done|].
      destruct (Hnot v). by apply Hin.
Qed.
End Session.

(** The plan does what it is for, in any order.  Whatever the order in
    which the map of selections is iterated, the plan names every difference
    between what the user wants and what the agent reported, each once, and
    nothing else; and once the agent has reported every action taken, in
    whatever order, the intent is unchanged, the observed layer is the intent
    laid over what was observed before, and a new plan is empty. *)
Theorem plan_settles `{AcpTypes} order s l :
  key_order order s -> l ≡ₚ plan_reconcile order s ->
  NoDup l /\ (forall a, a ∈ l <-> wanted s a) /\
  let s' := run_list apply_action s l in
  desired s' = desired s /\ observed s' = aligned_observed s /\
  forall order', key_order order' s' -> plan_reconcile order' s' = [].
Proof.
  intros Hord Hl. pose proof Hord as [Hnd Hkeys]. split; [rewrite Hl; by apply NoDup_plan|].
  split; [intros a; rewrite Hl; by apply in_plan|]. simpl.
  destruct (apply_actions s l) as [Hd Ho]. rewrite (plan_applied order s l Hord Hl) in Ho.
  split; [done|]. split; [done|]. intros order' [_ Hkeys']. apply plan_nil; [|done].
  intros a. destruct a as [m|m|k v]; simpl; rewrite Hd, Ho; simpl.
  - intros [-> Hne]. destruct Hne. by destruct (observed_mode_id (observed s)).
  - intros [-> Hne]. destruct Hne. by destruct (observed_model_id (observed s)).
  - intros [Hk Hne]. destruct Hne. by apply lookup_union_Some_l.
Qed.

(** ** The write path of a setting, as a reference *)

Section Routes.
Context `{AcpTypes}.

Definition option_with_id (s : AcpSession) (option_id : string) : option SessionConfigOption :=
  match config_options (advertised s) with
  | Some options => List.find (fun o => bool_decide (config_id o = option_id)) options
  | None => None
  end.

(** The agent has no option of its own for a category. *)
Definition lacks_option (s : AcpSession) (category' : SessionConfigOptionCategory.t) (option_id : string) : bool :=
  match config_options (advertised s) with
  | Some options => forallb (fun o =>
      negb (bool_decide (category o = Some category' \/ config_id o = option_id))) options
  | None => true
  end.

(** A catalog stands in for an option; beside real options only if it offers
    something. *)
Definition stands_in (s : AcpSession) (values : list string) : bool :=
  match config_options (advertised s) with Some _ => negb (is_empty values) | None => true end.

Definition legacy_offer (s : AcpSession) (category : SessionConfigOptionCategory.t) (option_id : string)
    (path : ConfigSetPath.t) (catalog : option (list string)) : option (ConfigSetPath.t * list string) :=
  match catalog with
  | Some values =>
      if lacks_option s category option_id && stands_in s values then Some (path, values) else None
  | None => None
  end.

Definition offer (s : AcpSession) (option_id : string) : option (ConfigSetPath.t * list string) :=
  match option_with_id s option_id with
  | Some o => Some (ConfigSetPath.ConfigOption option_id, select_option_values (kind o))
  | None =>
      if bool_decide (option_id = "mode") then
        legacy_offer s SessionConfigOptionCategory.Mode "mode" ConfigSetPath.LegacyMode
          (option_map catalog_mode_ids (modes (advertised s)))
      else if bool_decide (option_id = "model") then
        legacy_offer s SessionConfigOptionCategory.Model "model" ConfigSetPath.LegacyModel
          (option_map catalog_model_ids (models (advertised s)))
      else None
  end.

Definition route (s : AcpSession) (option_id requested : string)
    : Result ConfigSetPath.t ConfigSetPathError.t :=
  match offer s option_id with
  | None => Err ConfigSetPathError.OptionNotFound
  | Some (path, values) =>
      if is_empty values || bool_decide (requested ∈ values) then Ok path
      else Err ConfigSetPathError.ValueNotSelectable
  end.

Definition session_entries (s : AcpSession) : list (AcpConfigOptionDto * ConfigOptionOrigin.t) :=
  match config_options (advertised s) with
  | Some options =>
      map real_entry options ++ supplement_entries options (modes (advertised s)) (models (advertised s))
  | None => mode_entry (modes (advertised s)) ++ model_entry (models (advertised s))
  end.

Lemma config_snapshot_entries s : config_snapshot s = snapshot_of (session_entries s).
Proof.
  unfold config_snapshot, session_entries. destruct (config_options (advertised s)) as [options|];
    [apply supplemented_entries|apply legacy_entries].
Qed.

Lemma is_empty_map {A B : Type} (f : A -> B) l : is_empty (map f l) = is_empty l.
Proof. by destruct l. Qed.

Lemma selectable_values_of dto values requested :
  map select_value (dto_options dto) = values ->
  selectable dto requested = is_empty values || bool_decide (requested ∈ values).
Proof. intros <-. unfold selectable. by rewrite is_empty_map. Qed.

Lemma real_values o : map select_value (dto_options (dto_from_sdk_option o)) = select_option_values (kind o).
Proof. unfold dto_from_sdk_option, select_option_values. destruct (kind o); simpl; [by rewrite map_map|done]. Qed.
Lemma mode_values m : map select_value (dto_options (dto_from_modes m)) = catalog_mode_ids m.
Proof. simpl. by rewrite map_map. Qed.
Lemma model_values m : map select_value (dto_options (dto_from_models m)) = catalog_model_ids m.
Proof. simpl. by rewrite map_map. Qed.

Lemma lacks_summary options category' option_id :
  existsb (fun o => real_option_matches_category_or_id o category' option_id) options =
    negb (forallb (fun o => negb (bool_decide (category o = Some category' \/ config_id o = option_id))) options).
Proof.
  induction options as [|o options IH]; [done|]. simpl. rewrite IH, negb_andb, negb_involutive. f_equal.
  unfold real_option_matches_category_or_id, has_category. symmetry. apply bool_decide_or.
Qed.

Definition mode_offer (s : AcpSession) : option (ConfigSetPath.t * list string) :=
  legacy_offer s SessionConfigOptionCategory.Mode "mode" ConfigSetPath.LegacyMode
    (option_map catalog_mode_ids (modes (advertised s))).
Definition model_offer (s : AcpSession) : option (ConfigSetPath.t * list string) :=
  legacy_offer s SessionConfigOptionCategory.Model "model" ConfigSetPath.LegacyModel
    (option_map catalog_model_ids (models (advertised s))).

Definition real_entries (s : AcpSession) : list (AcpConfigOptionDto * ConfigOptionOrigin.t) :=
  match config_options (advertised s) with Some options => map real_entry options | None => [] end.

Definition offered {A B : Type} (o : option A) (l : list B) : list B :=
  match o with Some _ => l | None => [] end.

(** The real options, then each catalog that is offered. *)
Lemma session_entries_eq s :
  session_entries s = real_entries s
    ++ (offered (mode_offer s) (mode_entry (modes (advertised s))))
    ++ (offered (model_offer s) (model_entry (models (advertised s)))).
Proof.
  unfold session_entries, real_entries, mode_offer, model_offer, legacy_offer, lacks_option, stands_in.
  destruct (config_options (advertised s)) as [options|] eqn:Ho.
  - f_equal. unfold supplement_entries, supplement_summary_for_real_options. cbv zeta.
    rewrite !lacks_summary, !negb_involutive. cbn [supplement_mode supplement_model].
    unfold catalog_mode_ids, catalog_model_ids.
    destruct (modes (advertised s)) as [m|], (models (advertised s)) as [m'|]; cbn [option_map];
      rewrite ?is_empty_map, ?andb_false_r; repeat case_match; done.
  - destruct (modes (advertised s)), (models (advertised s)); done.
Qed.

Lemma mode_entry_at s option_id :
  entry_at option_id (offered (mode_offer s) (mode_entry (modes (advertised s)))) =
    if bool_decide (option_id = "mode") then
      match mode_offer s, modes (advertised s) with
      | Some _, Some m => Some (dto_from_modes m, ConfigOptionOrigin.SyntheticLegacyMode)
      | _, _ => None
      end
    else None.
Proof.
  destruct (mode_offer s), (modes (advertised s)); simpl; unfold entry_at; simpl; repeat case_bool_decide; congruence.
Qed.

Lemma model_entry_at s option_id :
  entry_at option_id (offered (model_offer s) (model_entry (models (advertised s)))) =
    if bool_decide (option_id = "model") then
      match model_offer s, models (advertised s) with
      | Some _, Some m => Some (dto_from_models m, ConfigOptionOrigin.SyntheticLegacyModel)
      | _, _ => None
      end
    else None.
Proof.
  destruct (model_offer s), (models (advertised s)); simpl; unfold entry_at; simpl; repeat case_bool_decide; congruence.
Qed.

Lemma legacy_offer_some s category option_id path catalog path' values :
  legacy_offer s category option_id path catalog = Some (path', values) -> path' = path /\ catalog = Some values.
Proof. unfold legacy_offer. destruct catalog; [|done]. case_match; [|done]. by intros [= <- <-]. Qed.

Lemma real_entries_at s option_id :
  entry_at option_id (real_entries s) = option_map real_entry (option_with_id s option_id).
Proof.
  unfold real_entries, option_with_id. destruct (config_options (advertised s)); [apply entry_at_real|done].
Qed.
End Routes.

(** A setting goes where the agent wants it.  The snapshot shown to
    clients and the search in it come to this: a setting is written through
    the agent's own option of that id if it advertises one; a mode or model
    only through [session/set_mode] or [session/set_model] if it does not,
    and no option of that category either, and a catalog is known (beside
    other options: one that is not empty); everything else is refused as
    unknown, and a value outside a list of values that is not empty as not
    selectable. *)
Theorem set_path_routes `{AcpTypes} s option_id requested :
  resolve_set_path (config_snapshot s) option_id requested = route s option_id requested.
Proof.
  rewrite config_snapshot_entries, resolve_entries, session_entries_eq, !entry_at_app, real_entries_at,
    mode_entry_at, model_entry_at. unfold route, offer. fold (mode_offer s) (model_offer s).
  destruct (option_with_id s option_id) as [o|]; simpl; [by rewrite (selectable_values_of _ _ _ (real_values o))|].
  case_bool_decide as Hmode.
  - subst option_id. rewrite (bool_decide_eq_false_2 ("mode" = "model")) by done.
    destruct (mode_offer s) as [[path values]|] eqn:Hoff; [|done].
    destruct (legacy_offer_some _ _ _ _ _ _ _ Hoff) as [-> Hc].
    destruct (modes (advertised s)) as [m|]; [|done]. simplify_eq/=.
    by rewrite (selectable_values_of _ _ _ (mode_values m)).
  - case_bool_decide as Hmodel; [|done].
    destruct (model_offer s) as [[path values]|] eqn:Hoff; [|done].
    destruct (legacy_offer_some _ _ _ _ _ _ _ Hoff) as [-> Hc].
    destruct (models (advertised s)) as [m|]; [|done]. simplify_eq/=.
    by rewrite (selectable_values_of _ _ _ (model_values m)).
Qed.

(** ** Start-up seeds *)

Section Seeds.
Context `{AcpTypes} (normalizer : string -> list string -> string).

(** What becomes of a seed, given the options advertised. *)
Inductive Verdict : Type :=
| NoOption
| Refused
| Taken (option_id value : string).

Definition verdict (options : option (list SessionConfigOption)) (seed : PendingStartupConfigSeed) : Verdict :=
  match
    match options with
    | Some options => select_option_for_startup_seed options (seed_category seed)
    | None => None
    end
  with
  | None => NoOption
  | Some o =>
      let values := select_option_values (kind o) in
      let value := if bool_decide (seed_category seed = SessionConfigOptionCategory.Mode)
                   then normalizer (seed_value seed) values else seed_value seed in
      if bool_decide (value ∈ values) then Taken (config_id o) value else Refused
  end.

Definition verdict_result (options : option (list SessionConfigOption)) (seed : PendingStartupConfigSeed)
    : SeedResult.t :=
  match verdict options seed with
  | NoOption => SeedResult.OptionNotAdvertised (seed_category seed)
  | Refused => SeedResult.ValueNotSelectable (seed_category seed)
  | Taken id _ => SeedResult.Applied (seed_category seed) id
  end.

Definition take_seed (options : option (list SessionConfigOption)) (m : gmap string string)
    (seed : PendingStartupConfigSeed) : gmap string string :=
  match verdict options seed with Taken id value => <[id := value]> m | _ => m end.

(** The old field for a category is given up once an option was found. *)
Definition gives_up (options : option (list SessionConfigOption)) (c : SessionConfigOptionCategory.t)
    (seed : PendingStartupConfigSeed) : bool :=
  bool_decide (seed_category seed = c) && match verdict options seed with NoOption => false | _ => true end.

(** Only a thought level waits for an option that may still come. *)
Definition waits (options : option (list SessionConfigOption)) (seed : PendingStartupConfigSeed) : Prop :=
  seed_category seed = SessionConfigOptionCategory.ThoughtLevel /\ seed_value seed <> "" /\
  verdict options seed = NoOption.

Definition drop_wish (b : bool) (o : option string) : option string := if b then None else o.

Record seeds_effect (s s' : AcpSession) (seeds : list PendingStartupConfigSeed) : Prop := {
  effect_advertised : advertised s' = advertised s;
  effect_selections : config_selections (desired s') =
    run_list (take_seed (config_options (advertised s))) (config_selections (desired s)) seeds;
  effect_mode : desired_mode_id (desired s') =
    drop_wish (existsb (gives_up (config_options (advertised s)) SessionConfigOptionCategory.Mode) seeds)
      (desired_mode_id (desired s));
  effect_model : desired_model_id (desired s') =
    drop_wish (existsb (gives_up (config_options (advertised s)) SessionConfigOptionCategory.Model) seeds)
      (desired_model_id (desired s));
  effect_pending : forall seed, seed ∈ pending_startup_config (desired s') <->
    seed ∈ pending_startup_config (desired s) \/
    seed ∈ seeds /\ waits (config_options (advertised s)) seed;
}.

Lemma set_desired_config_fields k v s :
  advertised (set_desired_config k v s) = advertised s /\
  desired (set_desired_config k v s) = with_selections (<[k := v]> (config_selections (desired s))) (desired s).
Proof. unfold set_desired_config. by rewrite push_if_advertised, push_if_desired. Qed.

Lemma seed_pending_fields c v s :
  advertised (seed_pending_startup_config c v s) = advertised s /\
  exists l, desired (seed_pending_startup_config c v s) = with_seeds l (desired s) /\
    forall seed, seed ∈ l <-> seed ∈ pending_startup_config (desired s) \/ v <> "" /\ seed = mkSeed c v.
Proof.
  unfold seed_pending_startup_config. repeat case_bool_decide.
  - split; [done|]. exists (pending_startup_config (desired s)). split; [by destruct (desired s)|].
    intros seed. split; [by left|]. by intros [?|[? _]].
  - split; [done|]. exists (pending_startup_config (desired s)). split; [by destruct (desired s)|].
    intros seed. split; [by left|]. by intros [?|[_ ->]].
  - split; [done|]. eexists. split; [done|]. intros seed. rewrite elem_of_app, list_elem_of_singleton. tauto.
Qed.

Lemma resolve_seed_eq s results seed :
  resolve_seed normalizer (s, results) seed =
    (match verdict (config_options (advertised s)) seed with
     | NoOption => handle_unresolved_startup_config_seed seed false s
     | Refused => handle_unresolved_startup_config_seed seed true s
     | Taken id value =>
         set_desired_config id value (clear_legacy_desired_for_config_category (seed_category seed) s)
     end, results ++ [verdict_result (config_options (advertised s)) seed]).
Proof.
  unfold resolve_seed, verdict_result, verdict, select_option_contains_value.
  destruct (match config_options (advertised s) with Some _ => _ | None => None end) as [o|]; [|done].
  by destruct (bool_decide ((if bool_decide _ then _ else _) ∈ _)).
Qed.

Lemma clear_legacy_fields c s :
  advertised (clear_legacy_desired_for_config_category c s) = advertised s /\
  desired (clear_legacy_desired_for_config_category c s) =
    mkDesired (drop_wish (bool_decide (c = SessionConfigOptionCategory.Mode)) (desired_mode_id (desired s)))
      (drop_wish (bool_decide (c = SessionConfigOptionCategory.Model)) (desired_model_id (desired s)))
      (config_selections (desired s)) (pending_startup_config (desired s)).
Proof. destruct c; simpl; by destruct (desired s). Qed.

(** The three outcomes of one seed. *)
Lemma seed_effect_intro s s' seed :
  advertised s' = advertised s ->
  config_selections (desired s') = take_seed (config_options (advertised s)) (config_selections (desired s)) seed ->
  desired_mode_id (desired s') =
    drop_wish (gives_up (config_options (advertised s)) SessionConfigOptionCategory.Mode seed) (desired_mode_id (desired s)) ->
  desired_model_id (desired s') =
    drop_wish (gives_up (config_options (advertised s)) SessionConfigOptionCategory.Model seed) (desired_model_id (desired s)) ->
  (forall x, x ∈ pending_startup_config (desired s') <->
    x ∈ pending_startup_config (desired s) \/ x = seed /\ waits (config_options (advertised s)) seed) ->
  seeds_effect s s' [seed].
Proof.
  intros H1 H2 H3 H4 H5. split; simpl; rewrite ?orb_false_r; try done.
  intros x. rewrite H5, list_elem_of_singleton. split; intros [?|[-> ?]]; auto.
Qed.

Lemma resolve_seed_effect s results seed :
  exists s', resolve_seed normalizer (s, results) seed =
      (s', results ++ [verdict_result (config_options (advertised s)) seed]) /\
    seeds_effect s s' [seed].
Proof.
  rewrite resolve_seed_eq. eexists. split; [done|].
  destruct seed as [c v]. destruct (verdict (config_options (advertised s)) (mkSeed c v)) as [| |id value] eqn:Hv.
  - destruct (seed_pending_fields c v s) as (Ha & l & Hd & Hl).
    unfold handle_unresolved_startup_config_seed.
    apply seed_effect_intro; unfold take_seed, gives_up, waits; rewrite ?Hv, ?andb_false_r;
      destruct c; simpl; rewrite ?Ha, ?Hd; try done; intros x; rewrite ?Hl; naive_solver.
  - unfold handle_unresolved_startup_config_seed. destruct (clear_legacy_fields c s) as [Ha Hd].
    apply seed_effect_intro; unfold take_seed, gives_up, waits; rewrite ?Hv, ?andb_true_r;
      destruct c; simpl; try done; naive_solver.
  - destruct (clear_legacy_fields c s) as [Ha Hd].
    destruct (set_desired_config_fields id value (clear_legacy_desired_for_config_category c s)) as [Ha' Hd'].
    apply seed_effect_intro; unfold take_seed, gives_up, waits; rewrite ?Hv, ?andb_true_r;
      simpl; rewrite ?Ha', ?Hd', ?Ha, ?Hd, ?andb_true_r; simpl; try done; naive_solver.
Qed.

Lemma give_up_or a b o : drop_wish (a || b) o = drop_wish b (drop_wish a o).
Proof. by destruct a, b. Qed.

Lemma seeds_effect_trans s s' s'' l l' :
  seeds_effect s s' l -> seeds_effect s' s'' l' -> seeds_effect s s'' (l ++ l').
Proof.
  intros [H1 H2 H3 H4 H5] [G1 G2 G3 G4 G5]. rewrite H1 in *. split.
  - by rewrite G1.
  - by rewrite G2, H2, run_list_app.
  - by rewrite G3, H3, existsb_app, give_up_or.
  - by rewrite G4, H4, existsb_app, give_up_or.
  - intros x. rewrite G5, H5, elem_of_app. tauto.
Qed.

Lemma resolve_loop s results seeds :
  exists s', run_list (resolve_seed normalizer) (s, results) seeds =
      (s', results ++ map (verdict_result (config_options (advertised s))) seeds) /\
    seeds_effect s s' seeds.
Proof.
  revert s results. induction seeds as [|seed seeds IH]; intros s results.
  - exists s. split; [by rewrite app_nil_r|]. split; try done. intros x. split; [by left|].
    intros [?|[?%elem_of_nil _]]; done.
  - rewrite run_list_cons. destruct (resolve_seed_effect s results seed) as (s1 & -> & Hone).
    destruct (IH s1 (results ++ [verdict_result (config_options (advertised s)) seed])) as (s2 & -> & Hrest).
    exists s2. rewrite (effect_advertised _ _ _ Hone), <- app_assoc. split; [done|].
    by apply (seeds_effect_trans s s1 s2 [seed]).
Qed.
End Seeds.

(** Start-up preferences are resolved against what the agent advertises.
    Each seed gets its verdict, in order and whatever the other seeds do:
    no option of its category (or alias), a value the option does not offer,
    or taken; a taken value is one the option offers.  Taken values become the
    desired selections, the later one of two for one option; the old mode or
    model field is given up exactly when an option for it was found; and only
    thought levels without an option keep waiting. *)
Theorem startup_seeds_resolved `{AcpTypes} normalizer s :
  let seeds := pending_startup_config (desired s) in
  let options := config_options (advertised s) in
  let '(results, s') := resolve_pending_startup_config_seeds_with_mode_normalizer normalizer s in
  results = map (verdict_result normalizer options) seeds /\
  (forall seed id value, verdict normalizer options seed = Taken id value ->
     exists o, In o (default [] options) /\ config_id o = id /\ value ∈ select_option_values (kind o) /\
       (category o = Some (seed_category seed) \/
        id ∈ config_option_aliases_for_category (seed_category seed))) /\
  config_selections (desired s') =
    run_list (take_seed normalizer options) (config_selections (desired s)) seeds /\
  desired_mode_id (desired s') =
    drop_wish (existsb (gives_up normalizer options SessionConfigOptionCategory.Mode) seeds) (desired_mode_id (desired s)) /\
  desired_model_id (desired s') =
    drop_wish (existsb (gives_up normalizer options SessionConfigOptionCategory.Model) seeds) (desired_model_id (desired s)) /\
  (forall seed, seed ∈ pending_startup_config (desired s') <-> seed ∈ seeds /\ waits normalizer options seed).
Proof.
  unfold resolve_pending_startup_config_seeds_with_mode_normalizer.
  destruct (resolve_loop normalizer (set_desired (with_seeds [] (desired s)) s) [] (pending_startup_config (desired s)))
    as (s' & -> & [H1 H2 H3 H4 H5]). simpl in *.
  split; [done|]. split; [|split; [done|split; [done|split; [done|]]]].
  - intros seed id value. unfold verdict.
    destruct (config_options (advertised s)) as [options|]; [|done]. simpl.
    destruct (select_option_for_startup_seed options (seed_category seed)) as [o|] eqn:Ho; [|done].
    case_bool_decide as Hin; [|done]. intros [= <- <-]. exists o.
    unfold select_option_for_startup_seed in Ho.
    destruct (List.find (has_category (seed_category seed)) options) as [o'|] eqn:Hcat; simplify_eq.
    + apply find_some in Hcat as [? Hc%bool_decide_eq_true]. auto.
    + apply find_some in Ho as [? Hc%bool_decide_eq_true]. auto.
  - intros seed. rewrite H5. split; [intros [?%elem_of_nil|?]; done|by right].
Qed.

(** ** Concrete sessions *)

Definition demo_types : AcpTypes := Build_AcpTypes string String.eqb (fun u => u) unit unit.
#[local] Existing Instance demo_types.

Definition drifted : AcpSession :=
  apply_observed_config "effort" "low" (AcpSession_new (Some "plan") (Some "opus") {[ "effort" := "high" ]}).

Lemma drifted_order : key_order ["effort"] drifted.
Proof.
  split; [by apply NoDup_singleton|]. intros k. rewrite list_elem_of_singleton.
  change (config_selections (desired drifted)) with ({[ "effort" := "high" ]} : gmap string string). split.
  - intros ->. by eexists.
  - intros [v Hv]. apply lookup_singleton_Some in Hv. by destruct Hv.
Qed.

Lemma plan_settles_witness :
  let l := rev (plan_reconcile ["effort"] drifted) in
  length l = 3 /\ NoDup l /\ (forall a, a ∈ l <-> wanted drifted a) /\
  let s' := run_list apply_action drifted l in
  desired s' = desired drifted /\ observed s' = aligned_observed drifted /\
  forall order', key_order order' s' -> plan_reconcile order' s' = [].
Proof.
  simpl. split; [by vm_compute|]. apply (plan_settles ["effort"] drifted).
  - exact drifted_order.
  - apply Permutation_sym, Permutation_rev.
Defined.

(** The desired mode was valid when it was set and is not among the advertised
    modes any more: nothing but the next reconcile drops it. *)
Theorem desired_mode_outlives_catalog :
  let m id := mkMode id id None in
  let s := AcpSession_new None None ∅ in
  let s := apply_advertised_modes (mkModeState "a" [m "a"; m "plan"]) s in
  let s := snd (set_desired_mode "plan" s) in
  let s := apply_advertised_modes (mkModeState "a" [m "a"]) s in
  desired_mode_id (desired s) = Some "plan" /\ is_mode_valid s "plan" = false.
Proof. by vm_compute. Qed.
