(* ===== verification/AcpSync.v ===== *)
(** * Persistence of an ACP session
    ([crates/tjuaeui-ai-agent/src/persistence/acp_session_sync.rs])

    The consumer of the aggregate's domain events: it writes an assigned
    session id at once, gathers the other updates and flushes them after a
    quiet interval or when the channel closes.  The repository is the row of
    the conversation; whether a save succeeds is decided by the environment.
    The second half relates the row to the aggregate. *)

From S2P Require Import Prelude AcpConfig AcpSession.

(** A row of [acp_session]: the session id and the columns of
    [session_config.runtime].  JSON values are their text. *)
Record AcpRow : Type := mkRow {
  row_session_id : option string;
  row_mode : option string;
  row_model : option string;
  row_config : option string;
  row_usage : option string;
}.

(** [None]: leave the column alone; [Some None]: remove it. *)
Record PendingUpdate : Type := mkUpdate {
  update_mode : option (option string);
  update_model : option (option string);
  update_config : option (option string);
  update_usage : option (option string);
}.

Definition PendingUpdate_default : PendingUpdate := mkUpdate None None None None.

Definition is_unset (u : option (option string)) : bool := match u with Some _ => false | None => true end.
Definition update_is_empty (p : PendingUpdate) : bool :=
  is_unset (update_mode p) && is_unset (update_model p)
  && is_unset (update_config p) && is_unset (update_usage p).

(** [save_runtime_state] on an existing row. *)
Definition save_runtime_state (p : PendingUpdate) (r : AcpRow) : AcpRow :=
  mkRow (row_session_id r) (default (row_mode r) (update_mode p)) (default (row_model r) (update_model p))
    (default (row_config r) (update_config p)) (default (row_usage r) (update_usage p)).

Definition update_session_id (sid : string) (r : AcpRow) : AcpRow :=
  mkRow (Some sid) (row_mode r) (row_model r) (row_config r) (row_usage r).

Definition DEBOUNCE_WINDOW : N := 500.

Section Sync.
Context `{AcpTypes}.

(** What [serde_json] prints for a map of selections. *)
Context (selections_json : gmap string string -> string).

Definition merge_from_domain_event (e : AcpSessionEvent.t) (p : PendingUpdate) : bool * PendingUpdate :=
  match e with
  | AcpSessionEvent.ObservedModeSynced mode =>
      (true, mkUpdate (Some (Some mode)) (update_model p) (update_config p) (update_usage p))
  | AcpSessionEvent.ObservedModelSynced model =>
      (true, mkUpdate (update_mode p) (Some (Some model)) (update_config p) (update_usage p))
  | AcpSessionEvent.ObservedConfigSynced selections =>
      (true, mkUpdate (update_mode p) (update_model p) (Some (Some (selections_json selections))) (update_usage p))
  | AcpSessionEvent.ObservedContextUsageChanged usage_json =>
      (true, mkUpdate (update_mode p) (update_model p) (update_config p) (Some (Some usage_json)))
  | _ => (false, p)
  end.

(** *** The consumer

    Its state is the row, the gathered update, the deadline, and whether it
    has returned. [saved] tells whether the repository call succeeds. *)
Record Consumer : Type := mkConsumer {
  row : AcpRow;
  pending : PendingUpdate;
  flush_at : option N;
  exited : bool;
}.

Definition Consumer_start (r : AcpRow) : Consumer := mkConsumer r PendingUpdate_default None false.

(** A failed save is logged and its update dropped. *)
Definition flush (saved : bool) (c : Consumer) : AcpRow * PendingUpdate :=
  if update_is_empty (pending c) then (row c, pending c)
  else (if saved then save_runtime_state (pending c) (row c) else row c, PendingUpdate_default).

Definition consume_event (now : N) (saved : bool) (e : AcpSessionEvent.t) (c : Consumer) : Consumer :=
  match e with
  | AcpSessionEvent.SessionAssigned sid =>
      mkConsumer (if saved then update_session_id sid (row c) else row c) (pending c) (flush_at c) (exited c)
  | _ =>
      let '(merged, p) := merge_from_domain_event e (pending c) in
      mkConsumer (row c) p (if merged then Some (now + DEBOUNCE_WINDOW)%N else flush_at c) (exited c)
  end.

Definition consume_timer (saved : bool) (c : Consumer) : Consumer :=
  let '(r, p) := flush saved c in mkConsumer r p None (exited c).

Definition consume_closed (saved : bool) (c : Consumer) : Consumer :=
  let '(r, p) := flush saved c in mkConsumer r p (flush_at c) true.

(** *** The session, the channel and the consumer

    [channel] holds the events sent and not yet received; [closed] is set when
    the manager, which owns the sender, is dropped. *)
Record Synced : Type := mkSynced {
  session : AcpSession;
  channel : list AcpSessionEvent.t;
  closed : bool;
  consumer : Consumer;
}.

(** The mutators of the aggregate, the preloading of a new one left out. *)
Inductive session_op : Type :=
| OpSetSessionId (sid : string)
| OpClearSessionId
| OpRecordCloseReason (r : option CloseReason.t)
| OpTakeCloseReason
| OpMarkOpened
| OpMarkPrelude
| OpTakePrelude
| OpSetDesiredMode (m : string)
| OpSetDesiredModel (m : string)
| OpClearInvalidMode
| OpClearInvalidModel
| OpSetDesiredConfig (k v : string)
| OpSeed (c : SessionConfigOptionCategory.t) (v : string)
| OpResolveSeeds (normalizer : string -> list string -> string)
| OpObservedMode (m : string)
| OpObservedModel (m : string)
| OpConfirmMode (m : string)
| OpConfirmModel (m : string)
| OpObservedConfig (k v : string)
| OpAdvertisedModes (m : SessionModeState)
| OpAdvertisedModels (m : SessionModelState)
| OpAdvertisedOptions (l : list SessionConfigOption)
| OpCapabilities (c : AgentCapabilities)
| OpAuthMethods (l : list AuthMethod)
| OpCommands (l : list AvailableCommand)
| OpContextUsage (u : UsageUpdate)
| OpTryBeginConfigSet
| OpDropConfigGuard.

Definition apply_op (op : session_op) (s : AcpSession) : AcpSession :=
  match op with
  | OpSetSessionId sid => set_session_id sid s
  | OpClearSessionId => clear_session_id s
  | OpRecordCloseReason r => record_close_reason r s
  | OpTakeCloseReason => snd (take_close_reason s)
  | OpMarkOpened => mark_opened s
  | OpMarkPrelude => mark_pending_session_new_prelude s
  | OpTakePrelude => snd (take_pending_session_new_prelude s)
  | OpSetDesiredMode m => snd (set_desired_mode m s)
  | OpSetDesiredModel m => snd (set_desired_model m s)
  | OpClearInvalidMode => snd (clear_invalid_desired_mode s)
  | OpClearInvalidModel => snd (clear_invalid_desired_model s)
  | OpSetDesiredConfig k v => set_desired_config k v s
  | OpSeed c v => seed_pending_startup_config c v s
  | OpResolveSeeds f => snd (resolve_pending_startup_config_seeds_with_mode_normalizer f s)
  | OpObservedMode m => apply_observed_mode m s
  | OpObservedModel m => apply_observed_model m s
  | OpConfirmMode m => confirm_mode m s
  | OpConfirmModel m => confirm_model m s
  | OpObservedConfig k v => apply_observed_config k v s
  | OpAdvertisedModes m => apply_advertised_modes m s
  | OpAdvertisedModels m => apply_advertised_models m s
  | OpAdvertisedOptions l => apply_advertised_config_options l s
  | OpCapabilities c => apply_advertised_capabilities c s
  | OpAuthMethods l => apply_advertised_auth_methods l s
  | OpCommands l => apply_advertised_commands l s
  | OpContextUsage u => apply_context_usage u s
  | OpTryBeginConfigSet => snd (try_begin_config_set s)
  | OpDropConfigGuard => drop_config_guard s
  end.

(** [commit_session_changes] *)
Definition commit_session_changes (x : Synced) : Synced :=
  let '(events, s) := drain_events (session x) in
  mkSynced s (channel x ++ events) (closed x) (consumer x).

(** [may_fail]: whether calls of the repository may fail.  Time is not compared
    with the deadline: a timer may fire late, or another event come first. *)
Inductive sync_step (may_fail : bool) : Synced -> Synced -> Prop :=
| step_op op x : closed x = false ->
    sync_step may_fail x (mkSynced (apply_op op (session x)) (channel x) (closed x) (consumer x))
| step_commit x : closed x = false -> sync_step may_fail x (commit_session_changes x)
| step_drop x : closed x = false ->
    sync_step may_fail x (mkSynced (session x) (channel x) true (consumer x))
| step_receive now saved e rest x : saved || may_fail = true -> exited (consumer x) = false -> channel x = e :: rest ->
    sync_step may_fail x (mkSynced (session x) rest (closed x) (consume_event now saved e (consumer x)))
| step_timer saved deadline x : saved || may_fail = true -> exited (consumer x) = false -> flush_at (consumer x) = Some deadline ->
    sync_step may_fail x (mkSynced (session x) (channel x) (closed x) (consume_timer saved (consumer x)))
| step_closed saved x : saved || may_fail = true -> exited (consumer x) = false -> channel x = [] -> closed x = true ->
    sync_step may_fail x (mkSynced (session x) [] true (consume_closed saved (consumer x))).

(** The row holds what the session has observed. *)
Definition config_agrees (c : option string) (current : gmap string string) : Prop :=
  c = Some (selections_json current) \/ c = None /\ current = ∅.

Record row_agrees (r : AcpRow) (s : AcpSession) : Prop := {
  agrees_id : session_id s = None \/ row_session_id r = session_id s;
  agrees_mode : row_mode r = observed_mode_id (observed s);
  agrees_model : row_model r = observed_model_id (observed s);
  agrees_config : config_agrees (row_config r) (config_current (observed s));
  agrees_usage : row_usage r = option_map usage_to_json (context_usage (advertised s));
}.

Definition synced_start (s : AcpSession) (r : AcpRow) : Synced := mkSynced s [] false (Consumer_start r).

(** ** Replaying events on a row *)

Definition apply_event (r : AcpRow) (e : AcpSessionEvent.t) : AcpRow :=
  match e with
  | AcpSessionEvent.SessionAssigned sid => update_session_id sid r
  | _ => save_runtime_state (snd (merge_from_domain_event e PendingUpdate_default)) r
  end.

Definition settled (c : Consumer) : AcpRow := save_runtime_state (pending c) (row c).

Lemma settled_consume now e c : settled (consume_event now true e c) = apply_event (settled c) e.
Proof. unfold settled. destruct c as [r p f x], e; done. Qed.

Lemma flushed c : flush true c = (settled c, PendingUpdate_default) \/ flush true c = (row c, pending c) /\ settled c = row c.
Proof.
  unfold flush, update_is_empty, settled. destruct c as [r [m1 m2 m3 m4] f x]. simpl.
  destruct m1, m2, m3, m4; simpl; try (by left). right. by destruct r.
Qed.

Lemma row_same r : save_runtime_state PendingUpdate_default r = r.
Proof. by destruct r. Qed.

Lemma settled_timer c : settled (consume_timer true c) = settled c.
Proof.
  unfold consume_timer. destruct (flushed c) as [->|[-> _]]; [|done]. unfold settled. simpl. by rewrite row_same.
Qed.

Lemma settled_closed c : settled (consume_closed true c) = settled c /\ row (consume_closed true c) = settled c.
Proof.
  unfold consume_closed. destruct (flushed c) as [->|[-> ?]]; [|done]. unfold settled. simpl. by rewrite row_same.
Qed.

(** ** What the operations emit

    [emits s s']: whatever row agrees with [s], replaying on it the events
    that [s'] has more than [s] gives one that agrees with [s']. *)
Definition emits (s s' : AcpSession) : Prop :=
  exists new, pending_events s' = pending_events s ++ new /\
    forall r, row_agrees r s -> row_agrees (run_list apply_event r new) s'.

Lemma emits_trans s s' s'' : emits s s' -> emits s' s'' -> emits s s''.
Proof.
  intros (n & Hp & Hr) (n' & Hp' & Hr'). exists (n ++ n'). split; [by rewrite Hp', Hp, app_assoc|].
  intros r Hrow. rewrite run_list_app. by apply Hr', Hr.
Qed.

Lemma emits_quiet s s' :
  pending_events s' = pending_events s -> session_id s' = session_id s \/ session_id s' = None ->
  observed s' = observed s -> context_usage (advertised s') = context_usage (advertised s) -> emits s s'.
Proof.
  intros Hp Hi Ho Hu. exists []. split; [by rewrite app_nil_r|]. intros r [H1 H2 H3 H4 H5].
  split; rewrite ?Ho, ?Hu; try done. destruct Hi as [->| ->]; [done|by left].
Qed.

Lemma emits_desired s s' e :
  pending_events s' = pending_events s ++ [e] -> (forall r, apply_event r e = r) ->
  session_id s' = session_id s -> observed s' = observed s ->
  context_usage (advertised s') = context_usage (advertised s) -> emits s s'.
Proof.
  intros Hp He Hi Ho Hu. exists [e]. split; [done|]. intros r [H1 H2 H3 H4 H5]. simpl. rewrite He.
  by split; rewrite ?Ho, ?Hu, ?Hi.
Qed.

Hint Resolve row_same : core.

Lemma emits_refl s : emits s s.
Proof. apply emits_quiet; auto. Qed.

(** A write of the mode to both layers, with its event if it is a change. *)
Lemma emits_mode mode m s :
  emits s (push_if (mode_changed mode s) (AcpSessionEvent.ObservedModeSynced mode) (put_mode mode m s)).
Proof.
  unfold mode_changed. case_bool_decide as Hm; simpl.
  - exists []. split; [by rewrite app_nil_r|]. intros r [H1 H2 H3 H4 H5]. split; simpl; try done. by rewrite <- Hm.
  - eexists [_]. split; [done|]. intros r [H1 H2 H3 H4 H5]. by split.
Qed.

Lemma emits_model model m s :
  emits s (push_if (model_changed model s) (AcpSessionEvent.ObservedModelSynced model) (put_model model m s)).
Proof.
  unfold model_changed. case_bool_decide as Hm; simpl.
  - exists []. split; [by rewrite app_nil_r|]. intros r [H1 H2 H3 H4 H5]. split; simpl; try done. by rewrite <- Hm.
  - eexists [_]. split; [done|]. intros r [H1 H2 H3 H4 H5]. by split.
Qed.

(** A write of the current values; [changed] is false only if they stay. *)
Lemma emits_current current changed a s :
  (changed = false -> current = config_current (observed s)) ->
  context_usage a = context_usage (advertised s) ->
  emits s (push_if changed (AcpSessionEvent.ObservedConfigSynced current)
    (set_advertised a (set_observed (with_current current (observed s)) s))).
Proof.
  intros Hc Ha. destruct changed; simpl.
  - eexists [_]. split; [done|]. intros r [H1 H2 H3 H4 H5]. split; simpl; rewrite ?Ha; try done. by left.
  - exists []. split; [by rewrite app_nil_r|]. rewrite (Hc eq_refl). intros r [H1 H2 H3 H4 H5].
    split; simpl; rewrite ?Ha; done.
Qed.

Lemma observe_unchanged options current current' :
  run_list observe_option (current, false) options = (current', false) -> current' = current.
Proof.
  assert (Hsnd : forall options c, snd (run_list observe_option (c, true) options) = true).
  { induction options0 as [|o options0 IH]; intros c; [done|]. rewrite run_list_cons. unfold observe_option at 2.
    destruct (extract_config_current_value (kind o)); simpl; apply IH. }
  revert current. induction options as [|o options IH]; intros current; [by intros [= ->]|].
  rewrite run_list_cons. unfold observe_option at 2.
  destruct (extract_config_current_value (kind o)) as [v|]; simpl; [|apply IH].
  case_bool_decide as Hv; simpl; [by rewrite insert_id; [apply IH|]|].
  intros Heq. pose proof (Hsnd options (<[config_id o := v]> current)) as Ht. by rewrite Heq in Ht.
Qed.

Lemma emits_options l s : emits s (apply_advertised_config_options l s).
Proof.
  unfold apply_advertised_config_options. set (options := merge_config_options _ l).
  set (s1 := match derive_modes_from_config_options options with Some m => _ | None => s end).
  set (s2 := match derive_models_from_config_options options with Some m => _ | None => s1 end).
  apply (emits_trans _ s1); [unfold s1; destruct (derive_modes_from_config_options options);
    [apply emits_mode|apply emits_refl]|].
  apply (emits_trans _ s2); [unfold s2; destruct (derive_models_from_config_options options);
    [apply emits_model|apply emits_refl]|].
  destruct (run_list observe_option (config_current (observed s2), false) options) as [current changed] eqn:Hobs.
  apply (emits_current current changed (with_options (Some options) (advertised s2)) s2); [|done].
  intros ->. by eapply observe_unchanged.
Qed.

Lemma emits_set_desired d s : emits s (set_desired d s).
Proof. apply emits_quiet; auto. Qed.

Ltac emit_desired e := apply (emits_desired _ _ e); try done; apply row_same.

Lemma emits_desired_config k v s : emits s (set_desired_config k v s).
Proof.
  unfold set_desired_config, push_if. destruct (negb _); [|apply emits_set_desired].
  emit_desired (AcpSessionEvent.DesiredConfigChanged (<[k := v]> (config_selections (desired s)))).
Qed.

Lemma emits_clear_legacy c s : emits s (clear_legacy_desired_for_config_category c s).
Proof. destruct c; simpl; try apply emits_set_desired; apply emits_refl. Qed.

Lemma emits_seed c v s : emits s (seed_pending_startup_config c v s).
Proof.
  unfold seed_pending_startup_config. repeat case_bool_decide; [apply emits_refl..|apply emits_set_desired].
Qed.

Lemma emits_unresolved seed b s : emits s (handle_unresolved_startup_config_seed seed b s).
Proof.
  unfold handle_unresolved_startup_config_seed. destruct (seed_category seed), b;
    first [apply emits_refl|apply emits_set_desired|apply emits_seed].
Qed.

Lemma emits_resolve_seed f s results seed : emits s (fst (resolve_seed f (s, results) seed)).
Proof.
  unfold resolve_seed. set (found := match config_options (advertised s) with Some _ => _ | None => _ end).
  destruct found as [o|]; [|apply emits_unresolved]. set (value := if bool_decide _ then _ else _).
  destruct (negb (select_option_contains_value (kind o) value)); [apply emits_unresolved|].
  eapply emits_trans; [apply emits_clear_legacy|apply emits_desired_config].
Qed.

Lemma emits_resolve_seeds f seeds s results :
  emits s (fst (run_list (resolve_seed f) (s, results) seeds)).
Proof.
  revert s results. induction seeds as [|seed seeds IH]; intros s results; [apply emits_refl|].
  rewrite run_list_cons. pose proof (emits_resolve_seed f s results seed) as Hone.
  destruct (resolve_seed f (s, results) seed) as [s' results']. eapply emits_trans; [exact Hone|apply IH].
Qed.

(** Usages that compare equal print the same. *)
Context (usage_print : forall u u', usage_eqb u u' = true -> usage_to_json u = usage_to_json u').

Lemma emits_usage u s : emits s (apply_context_usage u s).
Proof.
  unfold apply_context_usage. set (same := match context_usage (advertised s) with Some _ => _ | None => _ end).
  destruct same eqn:Hsame; simpl.
  - exists []. split; [by rewrite app_nil_r|]. intros r [H1 H2 H3 H4 H5]. split; simpl; try done.
    unfold same in Hsame. destruct (context_usage (advertised s)) as [u'|]; [|done].
    rewrite H5. simpl. by rewrite (usage_print u' u).
  - eexists [_]. split; [done|]. intros r [H1 H2 H3 H4 H5]. by split.
Qed.

Lemma op_emits op s : emits s (apply_op op s).
Proof.
  destruct op; simpl; try (by apply emits_quiet; auto); try apply emits_mode; try apply emits_model.
  - unfold set_session_id. destruct (session_id s) eqn:Hid; [apply emits_refl|].
    eexists [_]. split; [done|]. intros r [H1 H2 H3 H4 H5]. split; simpl; try done. by right.
  - unfold mark_opened. destruct (opened s); [apply emits_refl|].
    emit_desired AcpSessionEvent.SessionOpened.
  - unfold set_desired_mode. repeat case_match; try apply emits_refl.
    emit_desired (AcpSessionEvent.DesiredModeChanged m).
  - unfold set_desired_model. repeat case_match; try apply emits_refl.
    emit_desired (AcpSessionEvent.DesiredModelChanged m).
  - unfold clear_invalid_desired_mode. destruct (desired_mode_id (desired s)) as [m|]; [destruct (is_mode_valid s m)|]; first [apply emits_set_desired|apply emits_refl].
  - unfold clear_invalid_desired_model. destruct (desired_model_id (desired s)) as [m|]; [destruct (is_model_valid s m)|]; first [apply emits_set_desired|apply emits_refl].
  - apply emits_desired_config.
  - apply emits_seed.
  - unfold resolve_pending_startup_config_seeds_with_mode_normalizer.
    pose proof (emits_resolve_seeds normalizer (pending_startup_config (desired s))
      (set_desired (with_seeds [] (desired s)) s) []) as Hloop.
    destruct (run_list _ _ _) as [s' results]. eapply emits_trans; [apply emits_set_desired|exact Hloop].
  - eapply emits_trans; [apply emits_set_desired|apply emits_mode].
  - eapply emits_trans; [apply emits_set_desired|apply emits_model].
  - unfold apply_observed_config. apply emits_current; [|done].
    intros Heq. apply negb_false_iff, bool_decide_eq_true in Heq. by apply insert_id.
  - apply emits_options.
  - apply emits_usage.
  - unfold try_begin_config_set. destruct (config_set_in_flight s); apply emits_quiet; auto.
Qed.

(** ** The invariant *)

Definition in_flight (x : Synced) : list AcpSessionEvent.t := channel x ++ pending_events (session x).

Definition synced_ok (x : Synced) : Prop :=
  row_agrees (run_list apply_event (settled (consumer x)) (in_flight x)) (session x) /\
  (exited (consumer x) = true -> closed x = true /\ channel x = [] /\ row (consumer x) = settled (consumer x)).

Lemma row_agrees_commit r s : row_agrees r s -> row_agrees r (snd (drain_events s)).
Proof. intros [H1 H2 H3 H4 H5]. by split. Qed.

Lemma sync_step_ok x y : sync_step false x y -> synced_ok x -> synced_ok y.
Proof.
  intros Hstep [Hrow Hexit].
  destruct Hstep as [op x Hopen|x Hopen|x Hopen|now saved e rest x Hs Hrun Hch|saved d x Hs Hrun Hd|saved x Hs Hrun Hch Hcl].
  - split; [|done]. destruct (op_emits op (session x)) as (new & Hp & Hr). unfold in_flight in *. simpl.
    rewrite Hp, app_assoc, run_list_app. by apply Hr.
  - split; [|simpl; intros Hx; destruct (Hexit Hx); congruence].
    unfold in_flight in *. simpl. rewrite app_nil_r. by apply row_agrees_commit.
  - split; [done|]. simpl. intros Hx. destruct (Hexit Hx) as (? & ? & ?). done.
  - rewrite orb_false_r in Hs. subst saved. split; simpl.
    + unfold in_flight in *. rewrite Hch in Hrow. simpl in Hrow. by rewrite settled_consume.
    + unfold consume_event. destruct e; simpl; congruence.
  - rewrite orb_false_r in Hs. subst saved. split; simpl.
    + unfold in_flight in *. simpl. by rewrite settled_timer.
    + unfold consume_timer. destruct (flush true (consumer x)). simpl. congruence.
  - rewrite orb_false_r in Hs. subst saved. destruct (settled_closed (consumer x)) as [Hset Hr]. split; simpl.
    + unfold in_flight in *. rewrite Hch in Hrow. simpl in *. by rewrite Hset.
    + intros _. by rewrite Hset, Hr.
Qed.

Lemma sync_steps_ok x y : rtc (sync_step false) x y -> synced_ok x -> synced_ok y.
Proof. induction 1 as [|x z y Hstep _ IH]; [done|]. intros Hok. by apply IH, (sync_step_ok x z). Qed.

Lemma synced_start_ok s r : pending_events s = [] -> row_agrees r s -> synced_ok (synced_start s r).
Proof. intros Hp Hr. split; [|done]. unfold in_flight. simpl. rewrite Hp. unfold settled. simpl. by rewrite row_same. Qed.

(** What is in flight is delivered, one event at a time. *)
Lemma deliver x : exited (consumer x) = false ->
  exists c, exited c = false /\ rtc (sync_step false) x (mkSynced (session x) [] (closed x) c).
Proof.
  destruct x as [s ch cl c]. simpl. revert c. induction ch as [|e ch IH]; intros c Hrun; [by exists c|].
  destruct (IH (consume_event 0 true e c)) as (c' & Hrun' & Hsteps).
  { unfold consume_event. by destruct e. }
  exists c'. split; [done|]. eapply rtc_l; [|exact Hsteps]. by apply (step_receive false 0 true e ch).
Qed.
End Sync.

(** C32. The database follows the session.  A manager whose session agrees with
    its row runs any operations of the aggregate in any order with commits,
    deliveries, timers and at last the drop of the manager, all saves
    succeeding.  Then (1) once the consumer has exited and nothing was left
    uncommitted, the row holds the observed mode, model, configuration and
    usage of the session and its id; and (2) from every state before that, as
    long as nothing uncommitted was dropped, such an end can be reached
    without any further operation on the session. *)
Theorem row_follows_session `{AcpTypes} (selections_json : gmap string string -> string)
    (usage_print : forall u u', usage_eqb u u' = true -> usage_to_json u = usage_to_json u') s0 r0 x :
  pending_events s0 = [] -> row_agrees selections_json r0 s0 ->
  rtc (sync_step selections_json false) (synced_start s0 r0) x ->
  (exited (consumer x) = true -> pending_events (session x) = [] ->
     row_agrees selections_json (row (consumer x)) (session x)) /\
  (exited (consumer x) = false -> closed x = false \/ pending_events (session x) = [] ->
     exists y, rtc (sync_step selections_json false) x y /\ exited (consumer y) = true /\
       session y = snd (drain_events (session x)) /\
       row_agrees selections_json (row (consumer y)) (session y)).
Proof.
  intros Hp Hr Hrun.
  assert (Hend : forall y, rtc (sync_step selections_json false) (synced_start s0 r0) y ->
    exited (consumer y) = true -> pending_events (session y) = [] ->
    row_agrees selections_json (row (consumer y)) (session y)).
  { intros y Hy Hx Hnone. destruct (sync_steps_ok _ usage_print _ _ Hy) as [Hrow Hexit].
    { by apply synced_start_ok. }
    destruct (Hexit Hx) as (_ & Hch & Hset). rewrite Hset. unfold in_flight in Hrow. by rewrite Hch, Hnone in Hrow. }
  split; [by apply Hend|]. intros Hlive Hcan.
  assert (Hcommit : exists z, rtc (sync_step selections_json false) x z /\ closed z = true /\
    session z = snd (drain_events (session x)) /\ exited (consumer z) = false).
  { destruct (closed x) eqn:Hcl.
    - destruct Hcan as [?|Hnone]; [done|]. exists x. split; [done|]. split; [done|]. split; [|done].
      destruct (session x). simpl in *. by subst.
    - eexists. split; [eapply rtc_l; [by apply step_commit|apply rtc_once; by apply step_drop]|done]. }
  destruct Hcommit as (z & Hz & Hcl & Hsess & Hzlive).
  destruct (deliver selections_json z Hzlive) as (c & Hc & Hdel).
  set (y := mkSynced (session z) [] true (consume_closed true c)).
  assert (Hy : rtc (sync_step selections_json false) x y).
  { etrans; [exact Hz|]. etrans; [exact Hdel|]. apply rtc_once. rewrite Hcl.
    by apply (step_closed selections_json false true (mkSynced (session z) [] true c)). }
  assert (Hxy : exited (consumer y) = true).
  { unfold y, consume_closed. simpl. by destruct (flush true c). }
  exists y. split; [done|]. split; [done|]. split; [by simpl; rewrite Hsess|].
  apply Hend; [by etrans|done|]. simpl. by rewrite Hsess.
Qed.

(** *** A run *)

#[local] Existing Instance demo_types.

Definition demo_json (m : gmap string string) : string :=
  foldr (fun x acc => fst x +:+ ":" +:+ snd x +:+ ";" +:+ acc) "" (map_to_list m).
Definition demo_row : AcpRow := mkRow None None None None None.
Definition demo_session : AcpSession := AcpSession_new (Some "plan") None ∅.
Definition demo_changed : AcpSession := apply_op (OpObservedMode "plan") (apply_op (OpSetSessionId "s1") demo_session).
Definition demo_received : Consumer :=
  consume_event demo_json 7 true (AcpSessionEvent.ObservedModeSynced "plan")
    (consume_event demo_json 5 true (AcpSessionEvent.SessionAssigned "s1") (Consumer_start demo_row)).
Definition demo_end (saved : bool) : Synced :=
  mkSynced (snd (drain_events demo_changed)) [] true (consume_closed true (consume_timer saved demo_received)).

Lemma demo_run saved may_fail : saved || may_fail = true ->
  rtc (sync_step demo_json may_fail) (synced_start demo_session demo_row) (demo_end saved).
Proof.
  intros Hs.
  eapply rtc_l; [by apply (step_op _ _ (OpSetSessionId "s1"))|].
  eapply rtc_l; [by apply (step_op _ _ (OpObservedMode "plan"))|].
  eapply rtc_l; [by apply step_commit|].
  eapply rtc_l; [by apply (step_receive _ _ 5 true (AcpSessionEvent.SessionAssigned "s1")
    [AcpSessionEvent.ObservedModeSynced "plan"])|].
  eapply rtc_l; [by apply (step_receive _ _ 7 true (AcpSessionEvent.ObservedModeSynced "plan") [])|].
  eapply rtc_l; [by apply (step_timer _ _ saved 507)|].
  eapply rtc_l; [by apply step_drop|].
  apply rtc_once. by apply (step_closed _ _ true).
Qed.

Lemma row_follows_session_witness :
  row_mode (row (consumer (demo_end true))) = Some "plan" /\
  row_agrees demo_json (row (consumer (demo_end true))) (session (demo_end true)).
Proof.
  split; [by vm_compute|].
  apply (row_follows_session demo_json) with (s0 := demo_session) (r0 := demo_row).
  - simpl. intros u u' Hu. by apply String.eqb_eq.
  - reflexivity.
  - split; simpl; [by left|done|done|by right|done].
  - by apply demo_run.
  - reflexivity.
  - reflexivity.
Defined.

(** A failed save is not repeated: with a repository call that fails, the row
    never learns the mode, although the session observed it. *)
Theorem failed_save_is_lost :
  rtc (sync_step demo_json true) (synced_start demo_session demo_row) (demo_end false) /\
  exited (consumer (demo_end false)) = true /\
  observed_mode_id (observed (session (demo_end false))) = Some "plan" /\
  row_mode (row (consumer (demo_end false))) = None.
Proof. split; [by apply demo_run|]. by vm_compute. Qed.
