(* ===== verification/AcpFlow.v ===== *)
(** * Opening, reconciling and configuring an ACP session
    ([crates/tjuaeui-ai-agent/src/manager/acp/agent_session_flow.rs],
    [agent_reconcile.rs], [agent_event_tracker.rs], [agent.rs])

    The driver of the aggregate: it sends requests to the agent's CLI and
    feeds the replies to the session.  The CLI is the environment: its replies
    are operations of a class, and whenever the driver waits, notifications of
    the CLI may be applied to the session first.  Logging and the events for
    the user interface, other than the assignment of a session id, are left
    out. *)

From S2P Require Import Prelude AcpConfig AcpSession.

Module AcpError.
Inductive t : Type :=
| SpawnFailed (message : string)
| StartupCrash (exit_code : option Z) (signal : option string) (stderr : string)
| Disconnected (exit_code : option Z) (signal : option string) (stderr : string)
| AuthRequired
| ProtocolParseError (message : string)
| InvalidRequest (message : string)
| SessionNotFound (session_id : string)
| ResourceNotFound (resource : option string) (message : string)
| MethodNotFound (method : string)
| InvalidParams (message : string)
| AgentInternal (message : string) (code : Z) (data : option string)
| OtherProtocolError (code : Z) (message : string) (data : option string)
| NotConnected
| InitTimeout (timeout_secs : N)
| RequestTimeout (method : string) (timeout_secs : N).
End AcpError.

(** Of [AgentError], the variants built here. *)
Module AgentError.
Inductive t : Type :=
| BadRequest (message : string)
| Conflict (message : string)
| Timeout (message : string)
| Acp (e : AcpError.t).
End AgentError.

Definition is_acp_session_not_found (e : AcpError.t) : bool :=
  match e with AcpError.SessionNotFound _ => true | _ => false end.

Definition is_missing_resumed_session (e : AcpError.t) (resumed_session_id : string) : bool :=
  is_acp_session_not_found e ||
  match e with
  | AcpError.ResourceNotFound (Some resource) _ => bool_decide (resource = resumed_session_id)
  | _ => false
  end.

Definition MAX_RECONCILE_ACTIONS : nat := 8.

(** The reply to [session/new]; that to [session/load] has no id. *)
Record SessionResponse : Type := mkResponse {
  response_models : option SessionModelState;
  response_modes : option SessionModeState;
  response_config_options : option (list SessionConfigOption);
}.

(** A request, as sent. [NewSession] carries the id to resume through [_meta]. *)
Inductive Request : Type :=
| NewSession (resume : option string)
| LoadSession (session_id : string)
| SetModeRequest (session_id mode : string)
| SetModelRequest (session_id model : string)
| SetConfigRequest (session_id config_id value : string).

(** A decoded notification, as [apply_event_to_session] tells them apart: a
    mode may come as a whole state or as an id alone. *)
Inductive TrackerUpdate `{AcpTypes} : Type :=
| AcpModeInfo (update : SessionModeState)
| AcpModeId (current_id : string)
| AcpModelInfo (update : SessionModelState)
| AcpConfigOption (update : list SessionConfigOption)
| AcpContextUsage (update : UsageUpdate)
| AvailableCommands (commands : list AvailableCommand).

(** The CLI and the clock, in state [E].  [arrivals] are the notifications
    delivered while the driver waits; [hash_order] is the order in which a
    map is iterated at that moment. *)
Class AcpProtocol `{AcpTypes} (E : Type) : Type := {
  arrivals : E -> list TrackerUpdate * E;
  reply_new : option string -> E -> Result (string * SessionResponse) AcpError.t * E;
  reply_load : string -> E -> Result SessionResponse AcpError.t * E;
  reply_mode : string -> string -> E -> Result unit AcpError.t * E;
  reply_model : string -> string -> E -> Result unit AcpError.t * E;
  reply_config : string -> string -> string -> E -> Result (list SessionConfigOption) AcpError.t * E;
  is_connected : E -> bool;
  hash_order : E -> gmap string string -> list string;
}.

Section Flow.
Context `{AcpProtocol E} (metadata : AgentMetadata).

(** The manager: its session, the environment, the domain events sent to the
    consumer, the ids announced on the event stream, and the requests sent. *)
Record Manager : Type := mkManager {
  session : AcpSession;
  env : E;
  sent : list AcpSessionEvent.t;
  announced : list string;
  requests : list Request;
}.

Definition on_session (f : AcpSession -> AcpSession) (m : Manager) : Manager :=
  mkManager (f (session m)) (env m) (sent m) (announced m) (requests m).

(** *** [agent_event_tracker.rs] *)

Definition apply_event_to_session (u : TrackerUpdate) (s : AcpSession) : AcpSession :=
  match u with
  | AcpModeInfo update => apply_advertised_modes update s
  | AcpModeId current_id => apply_observed_mode current_id s
  | AcpModelInfo update => apply_advertised_models update s
  | AcpConfigOption update => apply_advertised_config_options update s
  | AcpContextUsage update => apply_context_usage update s
  | AvailableCommands commands => apply_advertised_commands commands s
  end.

Definition commit_session_changes (m : Manager) : Manager :=
  let '(events, s) := drain_events (session m) in
  mkManager s (env m) (sent m ++ events) (announced m) (requests m).

Definition track (m : Manager) (u : TrackerUpdate) : Manager :=
  commit_session_changes (on_session (apply_event_to_session u) m).

(** The driver waits: what has arrived is applied. *)
Definition await (m : Manager) : Manager :=
  let '(updates, e) := arrivals (env m) in
  run_list track (mkManager (session m) e (sent m) (announced m) (requests m)) updates.

(** A request is sent, and what arrives before its reply is applied. *)
Definition call {A : Type} (r : Request) (reply : E -> Result A AcpError.t * E) (m : Manager)
    : Result A AcpError.t * Manager :=
  let m := mkManager (session m) (env m) (sent m) (announced m) (requests m ++ [r]) in
  let '(res, e) := reply (env m) in
  (res, await (mkManager (session m) e (sent m) (announced m) (requests m))).

Definition announce (sid : string) (m : Manager) : Manager :=
  mkManager (session m) (env m) (sent m) (announced m ++ [sid]) (requests m).

(** *** [agent_reconcile.rs] *)

(** Seeds are resolved, invalid wishes dropped and a plan is made. *)
Definition plan_session (m : Manager) : list ReconcileAction.t * Manager :=
  let '(_, s) := resolve_pending_startup_config_seeds_with_mode_normalizer
                   (normalize_requested_mode_for_available_values metadata) (session m) in
  let '(_, s) := clear_invalid_desired_mode s in
  let '(_, s) := clear_invalid_desired_model s in
  (plan_reconcile (hash_order (env m) (config_selections (desired s))) s, on_session (fun _ => s) m).

Definition normalized_mode (mode : string) (s : AcpSession) : string :=
  normalize_requested_mode_for_available_values metadata mode (selectable_values (config_snapshot s) "mode").

(** The value sent for a config option; a rewritten mode becomes the wish. *)
Definition resolved_config (key value : string) (s : AcpSession) : string * AcpSession :=
  if bool_decide (key = "mode") then
    let resolved := normalized_mode value s in
    (resolved, if bool_decide (resolved = value) then s else set_desired_config key resolved s)
  else (str_trim value, s).

(** [budget] is what [MAX_RECONCILE_ACTIONS] leaves. *)
Fixpoint reconcile_loop (budget : nat) (sid : string) (actions : list ReconcileAction.t) (m : Manager)
    : Result unit AcpError.t * Manager :=
  match actions with
  | [] => (Ok tt, m)
  | action :: rest =>
      match budget with
      | 0 => (Ok tt, m)
      | S budget =>
          match action with
          | ReconcileAction.SetMode mode =>
              let m := await m in
              let normalized := normalized_mode mode (session m) in
              if bool_decide (normalized = "") then reconcile_loop budget sid rest m
              else
                let '(res, m) := call (SetModeRequest sid normalized) (reply_mode sid normalized) m in
                match res with
                | Err e => if is_acp_session_not_found e then (Err e, m) else reconcile_loop budget sid rest m
                | Ok _ => reconcile_loop budget sid rest m
                end
          | ReconcileAction.SetModel model =>
              let '(res, m) := call (SetModelRequest sid model) (reply_model sid model) m in
              match res with
              | Err e => if is_acp_session_not_found e then (Err e, m) else reconcile_loop budget sid rest m
              | Ok _ => reconcile_loop budget sid rest m
              end
          | ReconcileAction.SetConfigOption key value =>
              let m := await m in
              let '(resolved, s) := resolved_config key value (session m) in
              let m := on_session (fun _ => s) m in
              let '(res, m) := call (SetConfigRequest sid key resolved) (reply_config sid key resolved) m in
              match res with
              | Err e => if is_acp_session_not_found e then (Err e, m) else reconcile_loop budget sid rest m
              | Ok options =>
                  let m := on_session (apply_advertised_config_options options) m in
                  let '(followup, m) := plan_session m in
                  let m := commit_session_changes m in
                  reconcile_loop budget sid
                    (List.filter (fun c => negb (bool_decide (c = action))) followup) m
              end
          end
      end
  end.

Definition reconcile_session (sid : string) (m : Manager) : Result unit AcpError.t * Manager :=
  let '(actions, m) := plan_session (await m) in
  reconcile_loop MAX_RECONCILE_ACTIONS sid actions m.

(** *** [agent_session_flow.rs] *)

Definition apply_opt {A : Type} (f : A -> AcpSession -> AcpSession) (o : option A) (s : AcpSession) : AcpSession :=
  match o with Some a => f a s | None => s end.

Definition apply_response (r : SessionResponse) (s : AcpSession) : AcpSession :=
  apply_opt apply_advertised_config_options (response_config_options r)
    (apply_opt apply_advertised_modes (response_modes r)
      (apply_opt apply_advertised_models (response_models r) s)).

Definition open_session_new (m : Manager) : Result string AgentError.t * Manager :=
  let '(res, m) := call (NewSession None) (reply_new None) m in
  match res with
  | Err e => (Err (AgentError.Acp e), m)
  | Ok (sid, response) =>
      let m := commit_session_changes (on_session (fun s =>
        mark_pending_session_new_prelude (set_session_id sid (apply_response response s))) m) in
      let m := announce sid m in
      let '(res, m) := reconcile_session sid m in
      match res with
      | Err e => (Err (AgentError.Acp e), m)
      | Ok _ => (Ok sid, m)
      end
  end.

Definition rebuild_after_session_not_found (m : Manager) : Result string AgentError.t * Manager :=
  open_session_new (commit_session_changes (on_session clear_session_id (await m))).

(** The last step of every resume path. *)
Definition reconcile_or_rebuild (sid : string) (m : Manager) : Result string AgentError.t * Manager :=
  let '(res, m) := reconcile_session sid m in
  match res with
  | Ok _ => (Ok sid, m)
  | Err e =>
      if is_acp_session_not_found e then rebuild_after_session_not_found m else (Err (AgentError.Acp e), m)
  end.

(** A mode read from the database takes the place of the one in the reply. *)
Definition with_preloaded_mode (preloaded : option string) (r : SessionResponse) : SessionResponse :=
  match preloaded, response_modes r with
  | Some db_current, Some modes =>
      mkResponse (response_models r) (Some (mkModeState db_current (available_modes modes)))
        (response_config_options r)
  | _, _ => r
  end.

Definition resume_via_meta (sid : string) (m : Manager) : Result string AgentError.t * Manager :=
  let '(res, m) := call (NewSession (Some sid)) (reply_new (Some sid)) m in
  match res with
  | Err e =>
      if is_missing_resumed_session e sid then rebuild_after_session_not_found m
      else (Err (AgentError.Acp e), m)
  | Ok (new_sid, response) =>
      let m := commit_session_changes (on_session (fun s =>
        set_session_id new_sid (apply_response response s)) m) in
      let m := if bool_decide (new_sid = sid) then m else announce new_sid m in
      reconcile_or_rebuild new_sid m
  end.

Definition resume_via_load (sid : string) (preloaded : option string) (m : Manager)
    : Result string AgentError.t * Manager :=
  let '(res, m) := call (LoadSession sid) (reply_load sid) m in
  match res with
  | Err e =>
      if is_acp_session_not_found e then rebuild_after_session_not_found m else (Err (AgentError.Acp e), m)
  | Ok response =>
      reconcile_or_rebuild sid (commit_session_changes (on_session (fun s =>
        set_session_id sid (apply_response (with_preloaded_mode preloaded response) s)) m))
  end.

Definition supports_load (s : AcpSession) : bool :=
  match agent_capabilities (advertised s) with Some c => load_session c | None => false end.

Definition open_session_resume (sid : string) (m : Manager) : Result string AgentError.t * Manager :=
  if agent_metadata_uses_meta_resume metadata then resume_via_meta sid m
  else
    let m := await m in
    if supports_load (session m) then resume_via_load sid (session_current_mode_id (session m)) m
    else reconcile_or_rebuild sid (commit_session_changes (on_session (set_session_id sid) m)).

(** *** [agent.rs]: opening *)

Definition mark_session_opened_after_protocol_ready (sid : string) (m : Manager)
    : Result string AgentError.t * Manager :=
  if negb (is_connected (env m)) then (Err (AgentError.Acp AcpError.NotConnected), m)
  else (Ok sid, commit_session_changes (on_session mark_opened m)).

Definition ensure_session_opened (m : Manager) : Result string AgentError.t * Manager :=
  if negb (is_connected (env m)) then (Err (AgentError.Acp AcpError.NotConnected), m)
  else
    let m := await m in
    let '(res, m) :=
      match session_id (session m), opened (session m) with
      | None, _ => open_session_new m
      | Some sid, false => open_session_resume sid m
      | Some sid, true => (Ok sid, m)
      end in
    match res with
    | Err e => (Err e, m)
    | Ok sid => mark_session_opened_after_protocol_ready sid (await m)
    end.

(** *** [agent.rs]: configuration options *)

Definition normalize_config_option_request_value (snapshot : ConfigSnapshot) (option_id value : string) : string :=
  let trimmed := str_trim value in
  if bool_decide (option_id = "mode")
  then normalize_requested_mode_for_available_values metadata trimmed (selectable_values snapshot "mode")
  else trimmed.

Definition session_changed : AgentError.t :=
  AgentError.Conflict "Active ACP session changed while applying config option".

Definition apply_legacy_config_ack (sid : string) (confirm : AcpSession -> AcpSession) (m : Manager)
    : Result ConfigSnapshot AgentError.t * Manager :=
  if negb (bool_decide (session_id (session m) = Some sid)) then (Err session_changed, m)
  else
    let m := on_session confirm m in
    (Ok (config_snapshot (session m)), commit_session_changes m).

(** [polls] is how often the clock lets the loop sleep before its timeout. *)
Fixpoint wait_for_observed_config_option (polls : nat) (option_id requested : string) (m : Manager)
    : Result ConfigSnapshot AgentError.t * Manager :=
  let snapshot := config_snapshot (session m) in
  if observed_matches snapshot option_id requested then (Ok snapshot, m)
  else
    match polls with
    | 0 => (Err (AgentError.Timeout "ACP 配置选项确认超时"), m)
    | S polls => wait_for_observed_config_option polls option_id requested (await m)
    end.

Definition path_error (option_id resolved : string) (e : ConfigSetPathError.t) : AgentError.t :=
  match e with
  | ConfigSetPathError.OptionNotFound => AgentError.BadRequest ("配置选项“" +:+ option_id +:+ "”不可用")
  | ConfigSetPathError.ValueNotSelectable =>
      AgentError.BadRequest ("Value '" +:+ resolved +:+ "' is not selectable for config option '" +:+ option_id +:+ "'")
  end.

Definition set_config_option_confirmed_inner (polls : nat) (option_id value : string) (m : Manager)
    : Result ConfigSnapshot AgentError.t * Manager :=
  if negb (is_connected (env m)) then (Err (AgentError.Acp AcpError.NotConnected), m)
  else
    let m := await m in
    let snapshot := config_snapshot (session m) in
    let resolved := normalize_config_option_request_value snapshot option_id value in
    match resolve_set_path snapshot option_id resolved with
    | Err e => (Err (path_error option_id resolved e), m)
    | Ok set_path =>
        match session_id (session m) with
        | None => (Err (AgentError.BadRequest "没有活动会话"), m)
        | Some sid =>
            match set_path with
            | ConfigSetPath.ConfigOption config_id =>
                let '(res, m) := call (SetConfigRequest sid config_id resolved) (reply_config sid config_id resolved) m in
                match res with
                | Err e => (Err (AgentError.Acp e), m)
                | Ok options =>
                    if negb (bool_decide (session_id (session m) = Some sid)) then (Err session_changed, m)
                    else
                      let m := commit_session_changes (on_session (apply_advertised_config_options options) m) in
                      wait_for_observed_config_option polls config_id resolved m
                end
            | ConfigSetPath.LegacyMode =>
                let '(res, m) := call (SetModeRequest sid resolved) (reply_mode sid resolved) m in
                match res with
                | Err e => (Err (AgentError.Acp e), m)
                | Ok _ => apply_legacy_config_ack sid (confirm_mode resolved) m
                end
            | ConfigSetPath.LegacyModel =>
                let '(res, m) := call (SetModelRequest sid resolved) (reply_model sid resolved) m in
                match res with
                | Err e => (Err (AgentError.Acp e), m)
                | Ok _ => apply_legacy_config_ack sid (confirm_model resolved) m
                end
            end
        end
    end.

Definition set_config_option_confirmed (polls : nat) (option_id value : string) (m : Manager)
    : Result ConfigSnapshot AgentError.t * Manager :=
  let option_id := str_trim option_id in
  let value := str_trim value in
  if bool_decide (option_id = "") then (Err (AgentError.BadRequest "option_id 不能为空"), m)
  else if bool_decide (value = "") then (Err (AgentError.BadRequest "value 不能为空"), m)
  else
    let m := await m in
    let '(guard, s) := try_begin_config_set (session m) in
    if guard then
      let '(res, m) := set_config_option_confirmed_inner polls option_id value (on_session (fun _ => s) m) in
      (res, on_session drop_config_guard m)
    else (Err (AgentError.Conflict "ACP 配置更新正在进行"), m).

(** ** What the driver leaves alone *)

Record ids_kept (s s' : AcpSession) : Prop := {
  kept_id : session_id s' = session_id s;
  kept_opened : opened s' = opened s;
  kept_flight : config_set_in_flight s' = config_set_in_flight s;
  kept_prelude : pending_session_new_prelude s' = pending_session_new_prelude s;
}.

#[local] Instance ids_kept_preorder : PreOrder ids_kept.
Proof. split; [by split|]. intros s s' s'' [? ? ? ?] [? ? ? ?]. split; congruence. Qed.

Lemma kept_push b e s : ids_kept s (push_if b e s).
Proof. by destruct b. Qed.

Lemma kept_modes m s : ids_kept s (apply_advertised_modes m s).
Proof. unfold apply_advertised_modes. etrans; [|apply kept_push]. by split. Qed.
Lemma kept_models m s : ids_kept s (apply_advertised_models m s).
Proof. unfold apply_advertised_models. etrans; [|apply kept_push]. by split. Qed.

Lemma kept_options l s : ids_kept s (apply_advertised_config_options l s).
Proof.
  unfold apply_advertised_config_options. destruct (run_list _ _ _) as [current changed].
  etrans; [|apply kept_push]. set (options := merge_config_options _ l).
  set (s1 := match derive_modes_from_config_options options with Some m => _ | None => s end).
  assert (Hs1 : ids_kept s s1) by (unfold s1; destruct (derive_modes_from_config_options options); [apply kept_modes|done]).
  etrans; [exact Hs1|].
  destruct (derive_models_from_config_options options) as [m|]; [|by split].
  destruct (kept_models (preserve_desired_model_in_catalog m s1) s1). by split.
Qed.

Lemma kept_tracked u s : ids_kept s (apply_event_to_session u s).
Proof.
  destruct u; simpl; [apply kept_modes| |apply kept_models|apply kept_options| |by split].
  - unfold apply_observed_mode. etrans; [|apply kept_push]. by split.
  - unfold apply_context_usage. etrans; [|apply kept_push]. by split.
Qed.

Lemma kept_seed_config k v s : ids_kept s (set_desired_config k v s).
Proof. unfold set_desired_config. etrans; [|apply kept_push]. by split. Qed.

Lemma kept_resolve_seed f s results seed : ids_kept s (fst (resolve_seed f (s, results) seed)).
Proof.
  rewrite resolve_seed_eq. simpl.
  assert (Hl : forall c s, ids_kept s (clear_legacy_desired_for_config_category c s)) by (intros []; by split).
  assert (Hs : forall c v s, ids_kept s (seed_pending_startup_config c v s)).
  { intros c v s'. unfold seed_pending_startup_config. by repeat case_bool_decide. }
  destruct (verdict _ _ _).
  - unfold handle_unresolved_startup_config_seed. destruct (seed_category seed); simpl; done || apply Hs.
  - unfold handle_unresolved_startup_config_seed. destruct (seed_category seed); simpl; done || apply (Hl SessionConfigOptionCategory.Mode) || apply (Hl SessionConfigOptionCategory.Model).
  - etrans; [apply Hl|apply kept_seed_config].
Qed.

Lemma kept_resolve_seeds f s :
  ids_kept s (snd (resolve_pending_startup_config_seeds_with_mode_normalizer f s)).
Proof.
  unfold resolve_pending_startup_config_seeds_with_mode_normalizer.
  assert (Hloop : forall seeds s results, ids_kept s (fst (run_list (resolve_seed f) (s, results) seeds))).
  { intros seeds. induction seeds as [|seed seeds IH]; intros s' results; [done|]. rewrite run_list_cons.
    pose proof (kept_resolve_seed f s' results seed) as Hone.
    destruct (resolve_seed f (s', results) seed) as [s1 r1]. etrans; [exact Hone|apply IH]. }
  specialize (Hloop (pending_startup_config (desired s)) (set_desired (with_seeds [] (desired s)) s) []).
  destruct (run_list _ _ _) as [s' results]. simpl in *. by etrans; [|exact Hloop].
Qed.

(** ** Requests

    [sends sid n m m']: between the two states at most [n] requests were sent,
    all to session [sid], and the session's identity was left alone. *)
Definition for_session (sid : string) (r : Request) : Prop :=
  match r with
  | SetModeRequest sid' _ | SetModelRequest sid' _ | SetConfigRequest sid' _ _ => sid' = sid
  | _ => False
  end.

Definition sends (sid : string) (n : nat) (m m' : Manager) : Prop :=
  (exists new, requests m' = requests m ++ new /\ length new <= n /\ Forall (for_session sid) new) /\
  ids_kept (session m) (session m').

Lemma sends_trans sid n n' m m' m'' : sends sid n m m' -> sends sid n' m' m'' -> sends sid (n + n') m m''.
Proof.
  intros [(l & Hl & Hn & Hf) Hk] [(l' & Hl' & Hn' & Hf') Hk']. split; [|by etrans].
  exists (l ++ l'). split; [by rewrite Hl', Hl, app_assoc|]. rewrite length_app. split; [lia|by apply Forall_app].
Qed.

Lemma sends_quiet sid n m m' : requests m' = requests m -> ids_kept (session m) (session m') -> sends sid n m m'.
Proof. intros Hr Hk. split; [|done]. exists []. rewrite app_nil_r. split; [done|]. split; [simpl; lia|constructor]. Qed.

Lemma sends_le sid n n' m m' : n <= n' -> sends sid n m m' -> sends sid n' m m'.
Proof. intros Hle [(l & Hl & Hn & Hf) Hk]. split; [|done]. exists l. split; [done|]. split; [lia|done]. Qed.

Lemma commit_kept m : requests (commit_session_changes m) = requests m /\ ids_kept (session m) (session (commit_session_changes m)).
Proof. by split. Qed.

Lemma await_kept m : requests (await m) = requests m /\ ids_kept (session m) (session (await m)).
Proof.
  unfold await. destruct (arrivals (env m)) as [updates e].
  assert (Hrun : forall m', requests (run_list track m' updates) = requests m' /\
    ids_kept (session m') (session (run_list track m' updates))).
  { induction updates as [|u updates IH]; intros m'; [done|]. rewrite run_list_cons.
    destruct (IH (track m' u)) as [Hr Hk]. split; [by rewrite Hr|]. etrans; [|exact Hk].
    etrans; [apply (kept_tracked u)|done]. }
  apply (Hrun (mkManager (session m) e (sent m) (announced m) (requests m))).
Qed.

Lemma sends_await sid n m : sends sid n m (await m).
Proof. apply sends_quiet; apply await_kept. Qed.

Lemma sends_on_session sid n f m : ids_kept (session m) (f (session m)) -> sends sid n m (on_session f m).
Proof. intros Hk. apply sends_quiet; [done|exact Hk]. Qed.

Lemma sends_call {A : Type} sid r (reply : E -> Result A AcpError.t * E) m :
  for_session sid r -> sends sid 1 m (snd (call r reply m)).
Proof.
  intros Hr. unfold call. simpl. destruct (reply (env m)) as [res e]. simpl.
  set (m1 := mkManager (session m) e (sent m) (announced m) (requests m ++ [r])).
  destruct (await_kept m1) as [Hreq Hk]. split; [|done]. exists [r]. split; [done|].
  split; [done|]. by apply Forall_singleton.
Qed.

Lemma sends_plan sid n m : sends sid n m (snd (plan_session m)).
Proof.
  unfold plan_session.
  pose proof (kept_resolve_seeds (normalize_requested_mode_for_available_values metadata) (session m)) as H1.
  destruct (resolve_pending_startup_config_seeds_with_mode_normalizer _ (session m)) as [r s1]. simpl in H1.
  assert (H2 : ids_kept s1 (snd (clear_invalid_desired_mode s1))).
  { unfold clear_invalid_desired_mode. by repeat case_match. }
  destruct (clear_invalid_desired_mode s1) as [r2 s2]. simpl in H2.
  assert (H3 : ids_kept s2 (snd (clear_invalid_desired_model s2))).
  { unfold clear_invalid_desired_model. by repeat case_match. }
  destruct (clear_invalid_desired_model s2) as [r3 s3]. simpl in *.
  apply sends_on_session. etrans; [exact H1|]. by etrans.
Qed.

Lemma sends_resolved sid n key value m :
  sends sid n m (on_session (fun _ => snd (resolved_config key value (session m))) m).
Proof.
  apply sends_on_session. unfold resolved_config. repeat case_bool_decide; simpl; try done. apply kept_seed_config.
Qed.

(** *** The loop *)

Definition stops_not_found (res : Result unit AcpError.t) : Prop :=
  match res with Ok _ => True | Err e => is_acp_session_not_found e = true end.

Lemma reconcile_loop_sends budget sid actions m :
  let '(res, m') := reconcile_loop budget sid actions m in sends sid budget m m' /\ stops_not_found res.
Proof.
  revert actions m. induction budget as [|budget IH]; intros actions m.
  { destruct actions; simpl; split; try done; by apply sends_quiet. }
  destruct actions as [|action rest]; [simpl; split; [by apply sends_quiet|done]|].
  assert (Hgo : forall n m1 actions, sends sid n m m1 -> n <= 1 ->
    let '(res, m') := reconcile_loop budget sid actions m1 in sends sid (S budget) m m' /\ stops_not_found res).
  { intros n m1 actions Hm1 Hn. specialize (IH actions m1). destruct (reconcile_loop budget sid actions m1) as [res m'].
    destruct IH as [Hs Hr]. split; [|done]. apply (sends_le sid (n + budget)); [lia|]. by eapply sends_trans. }
  assert (Hone : forall m1, sends sid 1 m m1 -> sends sid (S budget) m m1) by (intros m1; apply sends_le; lia).
  destruct action as [mode|model|key value]; simpl.
  - set (normalized := normalized_mode mode (session (await m))).
    case_bool_decide; [by apply (Hgo 0); [apply sends_await|lia]|].
    pose proof (sends_call sid (SetModeRequest sid normalized) (reply_mode sid normalized) (await m) eq_refl) as Hc.
    destruct (call _ _ (await m)) as [res m1]. simpl in Hc.
    assert (Hm1 : sends sid 1 m m1) by (eapply (sends_trans sid 0 1); [apply sends_await|exact Hc]).
    destruct res as [u|e]; [by apply (Hgo 1)|]. destruct (is_acp_session_not_found e) eqn:He; [by auto|by apply (Hgo 1)].
  - pose proof (sends_call sid (SetModelRequest sid model) (reply_model sid model) m eq_refl) as Hm1.
    destruct (call _ _ m) as [res m1]. simpl in Hm1.
    destruct res as [u|e]; [by apply (Hgo 1)|]. destruct (is_acp_session_not_found e) eqn:He; [by auto|by apply (Hgo 1)].
  - pose proof (sends_resolved sid 0 key value (await m)) as Hres.
    destruct (resolved_config key value (session (await m))) as [resolved s]. simpl in Hres.
    pose proof (sends_call sid (SetConfigRequest sid key resolved) (reply_config sid key resolved)
      (on_session (fun _ => s) (await m)) eq_refl) as Hc.
    destruct (call _ _ (on_session _ _)) as [res m1]. simpl in Hc.
    assert (Hm1 : sends sid 1 m m1).
    { apply (sends_trans sid 0 1 m (await m)); [apply sends_await|]. by eapply (sends_trans sid 0 1). }
    destruct res as [options|e]; [|destruct (is_acp_session_not_found e) eqn:He; [by auto|by apply (Hgo 1)]].
    pose proof (sends_plan sid 0 (on_session (apply_advertised_config_options options) m1)) as Hp.
    destruct (plan_session _) as [followup m2]. simpl in Hp.
    apply (Hgo 1); [|lia]. apply (sends_trans sid 1 0 m m1); [done|].
    eapply (sends_trans sid 0 0); [apply sends_on_session, kept_options|].
    eapply (sends_trans sid 0 0); [exact Hp|]. apply sends_quiet; apply commit_kept.
Qed.

Lemma reconcile_session_sends sid m :
  let '(res, m') := reconcile_session sid m in sends sid MAX_RECONCILE_ACTIONS m m' /\ stops_not_found res.
Proof.
  unfold reconcile_session. pose proof (sends_plan sid 0 (await m)) as Hp.
  destruct (plan_session (await m)) as [actions m1]. simpl in Hp.
  pose proof (reconcile_loop_sends MAX_RECONCILE_ACTIONS sid actions m1) as Hl.
  destruct (reconcile_loop _ sid actions m1) as [res m']. destruct Hl as [Hs Hr]. split; [|done].
  apply (sends_trans sid 0 MAX_RECONCILE_ACTIONS m m1); [|done].
  by apply (sends_trans sid 0 0 m (await m)); [apply sends_await|].
Qed.

(** ** Opening *)

Lemma kept_response r s : ids_kept s (apply_response r s).
Proof.
  unfold apply_response, apply_opt.
  destruct (response_models r) as [ms|], (response_modes r) as [mo|], (response_config_options r) as [l|];
    repeat first [done | etrans; [|apply kept_options] | etrans; [|apply kept_modes] | apply kept_models].
Qed.

Lemma call_kept {A : Type} r (reply : E -> Result A AcpError.t * E) m : ids_kept (session m) (session (snd (call r reply m))).
Proof.
  unfold call. simpl. destruct (reply (env m)) as [res e]. simpl.
  apply (await_kept (mkManager (session m) e (sent m) (announced m) (requests m ++ [r]))).
Qed.

Lemma reconcile_kept sid m : ids_kept (session m) (session (snd (reconcile_session sid m))).
Proof. pose proof (reconcile_session_sends sid m) as Hr. destruct (reconcile_session sid m). apply Hr. Qed.

(** A fresh session: its id is known, and the prelude waits for the prompt. *)
Definition fresh_session (sid : string) (m : Manager) : Prop :=
  session_id (session m) = Some sid /\ pending_session_new_prelude (session m) = true.

Lemma open_session_new_fresh m :
  session_id (session m) = None ->
  let '(res, m') := open_session_new m in
  opened (session m') = opened (session m) /\ match res with Ok sid => fresh_session sid m' | Err _ => True end.
Proof.
  intros Hid. unfold open_session_new.
  pose proof (call_kept (NewSession None) (reply_new None) m) as Hc.
  destruct (call (NewSession None) (reply_new None) m) as [res m1]. simpl in Hc.
  destruct Hc as [H1 H2 _ _]. destruct res as [[sid response]|e]; [|split; [by rewrite H2|done]].
  set (m2 := announce sid _). pose proof (reconcile_kept sid m2) as Hr.
  assert (Hm2 : opened (session m2) = opened (session m) /\ fresh_session sid m2).
  { destruct (kept_response response (session m1)) as [G1 G2 _ _]. unfold m2, fresh_session. simpl.
    unfold set_session_id. rewrite G1, H1, Hid. simpl. by rewrite G2, H2. }
  destruct (reconcile_session sid m2) as [res m']. simpl in Hr. destruct Hr as [R1 R2 _ R4].
  destruct Hm2 as (F1 & F2 & F3).
  destruct res; (split; [by rewrite R2|]); [|done]. unfold fresh_session. by rewrite R1, R4.
Qed.

Lemma rebuild_fresh m :
  let '(res, m') := rebuild_after_session_not_found m in
  opened (session m') = false /\ match res with Ok sid => fresh_session sid m' | Err _ => True end.
Proof. by apply (open_session_new_fresh (commit_session_changes (on_session clear_session_id (await m)))). Qed.

(** A session that may have been rebuilt. *)
Definition kept_or_fresh (sid : string) (s : AcpSession) (x : Result string AgentError.t * Manager) : Prop :=
  let '(res, m') := x in
  opened (session m') = false /\
  match res with
  | Ok sid' => sid' = sid /\ session_id (session m') = session_id s \/ fresh_session sid' m'
  | Err _ => True
  end.

Lemma rebuild_kept_or_fresh sid s m : kept_or_fresh sid s (rebuild_after_session_not_found m).
Proof.
  pose proof (rebuild_fresh m) as Hb. unfold kept_or_fresh. destruct (rebuild_after_session_not_found m) as [[sid'|e] m'].
  - destruct Hb as [? ?]. split; [done|by right].
  - by destruct Hb.
Qed.

Lemma reconcile_or_rebuild_ok sid s m :
  opened (session m) = false -> session_id (session m) = session_id s ->
  kept_or_fresh sid s (reconcile_or_rebuild sid m).
Proof.
  intros Hop Hid. unfold reconcile_or_rebuild. pose proof (reconcile_kept sid m) as Hk.
  destruct (reconcile_session sid m) as [[u|e] m1]; simpl in Hk; destruct Hk as [K1 K2 _ _].
  - split; [by rewrite K2|]. left. by rewrite K1.
  - destruct (is_acp_session_not_found e); [apply rebuild_kept_or_fresh|]. split; [by rewrite K2|done].
Qed.

Lemma resume_via_load_ok sid preloaded m :
  session_id (session m) = Some sid -> opened (session m) = false ->
  kept_or_fresh sid (session m) (resume_via_load sid preloaded m).
Proof.
  intros Hid Hop. unfold resume_via_load. pose proof (call_kept (LoadSession sid) (reply_load sid) m) as Hc.
  destruct (call (LoadSession sid) (reply_load sid) m) as [[response|e] m1]; simpl in Hc; destruct Hc as [H1 H2 _ _].
  - destruct (kept_response (with_preloaded_mode preloaded response) (session m1)) as [G1 G2 _ _].
    apply reconcile_or_rebuild_ok; simpl; unfold set_session_id; rewrite G1, H1, Hid; [by rewrite G2, H2|].
    by rewrite G1, H1, Hid.
  - destruct (is_acp_session_not_found e); [apply rebuild_kept_or_fresh|]. split; [by rewrite H2|done].
Qed.

(** The reply's id is returned; the one the session has stays. *)
Lemma resume_via_meta_ok sid m :
  session_id (session m) = Some sid -> opened (session m) = false ->
  exists new, kept_or_fresh new (session m) (resume_via_meta sid m).
Proof.
  intros Hid Hop. unfold resume_via_meta. pose proof (call_kept (NewSession (Some sid)) (reply_new (Some sid)) m) as Hc.
  destruct (call _ _ m) as [[[new response]|e] m1]; simpl in Hc; destruct Hc as [H1 H2 _ _].
  - exists new. destruct (kept_response response (session m1)) as [G1 G2 _ _].
    set (m2 := commit_session_changes _).
    assert (Hm2 : opened (session m2) = false /\ session_id (session m2) = session_id (session m)).
    { unfold m2. simpl. unfold set_session_id. rewrite G1, H1, Hid. simpl. by rewrite G1, G2, H1, H2. }
    destruct Hm2 as [Ho Hi]. case_bool_decide; by apply reconcile_or_rebuild_ok.
  - exists sid. destruct (is_missing_resumed_session e sid); [apply rebuild_kept_or_fresh|]. split; [by rewrite H2|done].
Qed.

Lemma resume_ok sid m :
  session_id (session m) = Some sid -> opened (session m) = false ->
  exists new, kept_or_fresh new (session m) (open_session_resume sid m) /\
    (agent_metadata_uses_meta_resume metadata = false -> new = sid).
Proof.
  intros Hid Hop. unfold open_session_resume. destruct (agent_metadata_uses_meta_resume metadata).
  { destruct (resume_via_meta_ok sid m Hid Hop) as (new & Hn). by exists new. }
  exists sid. split; [|done]. destruct (await_kept m) as [_ [A1 A2 _ _]].
  assert (Hs : kept_or_fresh sid (session (await m)) (if supports_load (session (await m))
    then resume_via_load sid (session_current_mode_id (session (await m))) (await m)
    else reconcile_or_rebuild sid (commit_session_changes (on_session (set_session_id sid) (await m))))).
  { destruct (supports_load (session (await m))); [apply resume_via_load_ok; congruence|].
    apply reconcile_or_rebuild_ok; simpl; unfold set_session_id; rewrite A1, Hid; congruence. }
  unfold kept_or_fresh in *. rewrite A1 in Hs. exact Hs.
Qed.

Lemma mark_opened_ok sid m :
  let '(res, m') := mark_session_opened_after_protocol_ready sid m in
  session_id (session m') = session_id (session m) /\ requests m' = requests m /\
  match res with
  | Ok sid' => sid' = sid /\ opened (session m') = true /\ pending_events (session m') = []
  | Err _ => opened (session m') = opened (session m)
  end.
Proof.
  unfold mark_session_opened_after_protocol_ready. destruct (is_connected (env m)); simpl; [|done].
  unfold mark_opened. by destruct (opened (session m)) eqn:Ho.
Qed.

(** ** Setting an option *)

(** What a confirmed request has achieved. *)
Definition confirmed (r : Request) (snapshot : ConfigSnapshot) (m : Manager) : Prop :=
  match r with
  | SetConfigRequest sid config_id value =>
      session_id (session m) = Some sid /\ option_current snapshot config_id = Some value
  | SetModeRequest sid mode =>
      session_id (session m) = Some sid /\ desired_mode_id (desired (session m)) = Some mode /\
      observed_mode_id (observed (session m)) = Some mode
  | SetModelRequest sid model =>
      session_id (session m) = Some sid /\ desired_model_id (desired (session m)) = Some model /\
      observed_model_id (observed (session m)) = Some model
  | _ => False
  end.

(** At most one request, the lease as it was, and a confirmation if [Ok]. *)
Definition set_outcome (m : Manager) (x : Result ConfigSnapshot AgentError.t * Manager) : Prop :=
  let '(res, m') := x in
  config_set_in_flight (session m') = config_set_in_flight (session m) /\
  match res with
  | Ok snapshot => exists r, requests m' = requests m ++ [r] /\ confirmed r snapshot m'
  | Err _ => requests m' = requests m \/ exists r, requests m' = requests m ++ [r]
  end.

Lemma call_requests {A : Type} r (reply : E -> Result A AcpError.t * E) m :
  requests (snd (call r reply m)) = requests m ++ [r].
Proof.
  unfold call. simpl. destruct (reply (env m)) as [res e]. simpl.
  apply (await_kept (mkManager (session m) e (sent m) (announced m) (requests m ++ [r]))).
Qed.

Lemma wait_ok polls config_id value m :
  let '(res, m') := wait_for_observed_config_option polls config_id value m in
  requests m' = requests m /\ ids_kept (session m) (session m') /\
  match res with Ok snapshot => option_current snapshot config_id = Some value | Err _ => True end.
Proof.
  revert m. induction polls as [|polls IH]; intros m; simpl; unfold observed_matches; case_bool_decide as Ho; try done.
  specialize (IH (await m)). destruct (wait_for_observed_config_option polls config_id value (await m)) as [res m'].
  destruct IH as (Hr & Hk & Hs). destruct (await_kept m) as [Ar Ak]. split; [congruence|]. split; [by etrans|done].
Qed.

Lemma confirm_mode_kept mode s : ids_kept s (confirm_mode mode s) /\
  desired_mode_id (desired (confirm_mode mode s)) = Some mode /\
  observed_mode_id (observed (confirm_mode mode s)) = Some mode.
Proof. unfold confirm_mode, apply_observed_mode, push_if. by destruct (mode_changed _ _). Qed.

Lemma confirm_model_kept model s : ids_kept s (confirm_model model s) /\
  desired_model_id (desired (confirm_model model s)) = Some model /\
  observed_model_id (observed (confirm_model model s)) = Some model.
Proof. unfold confirm_model, apply_observed_model, push_if. by destruct (model_changed _ _). Qed.

Lemma inner_ok polls option_id value m :
  set_outcome m (set_config_option_confirmed_inner polls option_id value m).
Proof.
  unfold set_config_option_confirmed_inner. destruct (is_connected (env m)); [|by split; [|left]]. simpl.
  destruct (await_kept m) as [Areq [A1 A2 A3 A4]]. set (m0 := await m) in *.
  set (resolved := normalize_config_option_request_value _ _ _).
  destruct (resolve_set_path _ option_id resolved) as [path|e]; [|by split; [|left]].
  destruct (session_id (session m0)) as [sid|] eqn:Hid; [|by split; [|left]].
  destruct path as [config_id| |].
  - pose proof (call_requests (SetConfigRequest sid config_id resolved) (reply_config sid config_id resolved) m0) as Hreq.
    pose proof (call_kept (SetConfigRequest sid config_id resolved) (reply_config sid config_id resolved) m0) as Hk.
    destruct (call _ _ m0) as [[options|e] m1]; simpl in Hreq, Hk; destruct Hk as [K1 K2 K3 K4].
    + case_bool_decide as Hsid; simpl; [|split; [congruence|right; eexists; by rewrite Hreq, Areq]].
      set (m2 := commit_session_changes _). pose proof (wait_ok polls config_id resolved m2) as Hw.
      destruct (wait_for_observed_config_option polls config_id resolved m2) as [res m'].
      destruct Hw as (Wr & [W1 W2 W3 W4] & Ws).
      destruct (kept_options options (session m1)) as [O1 O2 O3 O4].
      assert (Hm2 : requests m2 = requests m1 /\ session_id (session m2) = session_id (session m1) /\
        config_set_in_flight (session m2) = config_set_in_flight (session m1)) by done.
      destruct Hm2 as (R2 & I2 & F2). split; [congruence|].
      destruct res; [|right]; exists (SetConfigRequest sid config_id resolved).
      * split; [congruence|]. split; [congruence|done].
      * congruence.
    + split; [congruence|right; eexists; by rewrite Hreq, Areq].
  - pose proof (call_requests (SetModeRequest sid resolved) (reply_mode sid resolved) m0) as Hreq.
    pose proof (call_kept (SetModeRequest sid resolved) (reply_mode sid resolved) m0) as Hk.
    destruct (call _ _ m0) as [[u|e] m1]; simpl in Hreq, Hk; destruct Hk as [K1 K2 K3 K4];
      [|split; [congruence|right; eexists; by rewrite Hreq, Areq]].
    unfold apply_legacy_config_ack. case_bool_decide as Hsid; simpl; [|split; [congruence|right; eexists; by rewrite Hreq, Areq]].
    destruct (confirm_mode_kept resolved (session m1)) as ([C1 C2 C3 C4] & Cd & Co).
    split; [congruence|]. exists (SetModeRequest sid resolved). split; [congruence|]. split; [simpl; congruence|done].
  - pose proof (call_requests (SetModelRequest sid resolved) (reply_model sid resolved) m0) as Hreq.
    pose proof (call_kept (SetModelRequest sid resolved) (reply_model sid resolved) m0) as Hk.
    destruct (call _ _ m0) as [[u|e] m1]; simpl in Hreq, Hk; destruct Hk as [K1 K2 K3 K4];
      [|split; [congruence|right; eexists; by rewrite Hreq, Areq]].
    unfold apply_legacy_config_ack. case_bool_decide as Hsid; simpl; [|split; [congruence|right; eexists; by rewrite Hreq, Areq]].
    destruct (confirm_model_kept resolved (session m1)) as ([C1 C2 C3 C4] & Cd & Co).
    split; [congruence|]. exists (SetModelRequest sid resolved). split; [congruence|]. split; [simpl; congruence|done].
Qed.
End Flow.

(** Opening a session.  An error never marks the session as opened.  A
    session that is open already is returned as it is and no request is sent
    for it.  Otherwise the id returned is the session's id and nothing is left
    uncommitted; the one exception is a backend that resumes through [_meta]:
    if its reply has a new id, that id is returned but the session keeps the
    old one. *)
Theorem opened_session `{AcpProtocol E} metadata m :
  let '(res, m') := ensure_session_opened metadata m in
  match res with
  | Err _ => opened (session m') = true -> opened (session m) = true
  | Ok sid =>
      opened (session m') = true /\ pending_events (session m') = [] /\
      (opened (session m) = true -> is_Some (session_id (session m)) ->
         session_id (session m) = Some sid /\ requests m' = requests m) /\
      (session_id (session m') = Some sid \/
       agent_metadata_uses_meta_resume metadata = true /\ opened (session m) = false /\
       exists old, session_id (session m) = Some old /\ session_id (session m') = Some old)
  end.
Proof.
  unfold ensure_session_opened. destruct (is_connected (env m)); simpl; [|tauto].
  destruct (await_kept m) as [Areq [A1 A2 _ _]].
  set (opening := match session_id (session (await m)) with Some _ => _ | None => _ end).
  assert (Hopening : let '(res, m1) := opening in
    (opened (session m1) = true -> opened (session m) = true) /\
    match res with
    | Err _ => True
    | Ok sid =>
        (opened (session m) = true -> is_Some (session_id (session m)) ->
           session_id (session m) = Some sid /\ requests m1 = requests m) /\
        (session_id (session m1) = Some sid \/
         agent_metadata_uses_meta_resume metadata = true /\ opened (session m) = false /\
         exists old, session_id (session m) = Some old /\ session_id (session m1) = Some old)
    end).
  { unfold opening. rewrite A1, A2. destruct (session_id (session m)) as [sid|] eqn:Hid.
    - destruct (opened (session m)) eqn:Hop.
      { split; [done|]. split; [by rewrite Areq|]. left. by rewrite A1. }
      destruct (resume_ok metadata sid (await m)) as (new & Hr & Hsame); [congruence..|].
      unfold kept_or_fresh in Hr. destruct (open_session_resume metadata sid (await m)) as [[sid'|e] m1];
        destruct Hr as [Ho Hr]; (split; [by rewrite Ho|]); [|done].
      split; [done|]. destruct Hr as [[-> Hk]|[Hf _]]; [|by left].
      destruct (agent_metadata_uses_meta_resume metadata); [right|left; rewrite Hk, A1; by rewrite Hsame].
      split; [done|]. split; [done|]. exists sid. by rewrite Hk, A1.
    - pose proof (open_session_new_fresh metadata (await m)) as Hn. rewrite A1, A2 in Hn. specialize (Hn eq_refl).
      destruct (open_session_new metadata (await m)) as [[sid|e] m1]; destruct Hn as [Ho Hf];
        (split; [by rewrite Ho|]); [|done].
      split; [by intros _ []|]. left. apply Hf. }
  destruct opening as [[sid|e] m1]; [|by destruct Hopening]. destruct Hopening as (Hwas & Hnoop & Hid).
  destruct (await_kept m1) as [Breq [B1 B2 _ _]].
  pose proof (mark_opened_ok sid (await m1)) as Hmark.
  destruct (mark_session_opened_after_protocol_ready sid (await m1)) as [[sid'|e] m']; destruct Hmark as (M1 & M2 & M3).
  - destruct M3 as (-> & Ho & Hp). split; [done|]. split; [done|]. by rewrite M1, M2, B1, Breq.
  - rewrite M3, B2. done.
Qed.

(** Setting an option is exclusive, and [Ok] means done.  While another
    update holds the lease the call is refused with a conflict and sends
    nothing; a call that takes the lease gives it back whatever the outcome.
    At most one request is sent; and a call that succeeds sent exactly one, to
    the session's current id, whose value the returned snapshot shows as
    current (an option of the agent's own), or the session holds as observed
    and desired (the two older requests). *)
Theorem option_set_exclusive `{AcpProtocol E} metadata polls option_id value m :
  let '(res, m') := set_config_option_confirmed metadata polls option_id value m in
  (config_set_in_flight (session m) = true ->
     exists e, res = Err e /\ requests m' = requests m /\ config_set_in_flight (session m') = true /\
       (str_trim option_id <> "" -> str_trim value <> "" -> exists s, e = AgentError.Conflict s)) /\
  (config_set_in_flight (session m) = false -> config_set_in_flight (session m') = false) /\
  match res with
  | Ok snapshot => exists r, requests m' = requests m ++ [r] /\ confirmed r snapshot m'
  | Err _ => requests m' = requests m \/ exists r, requests m' = requests m ++ [r]
  end.
Proof.
  unfold set_config_option_confirmed. case_bool_decide as Hid.
  { split; [intros Hf; by eexists|]. split; [done|by left]. }
  case_bool_decide as Hv; [split; [intros Hf; by eexists|]; split; [done|by left]|].
  destruct (await_kept m) as [Areq [A1 A2 A3 A4]]. set (m0 := await m) in *.
  unfold try_begin_config_set. destruct (config_set_in_flight (session m0)) eqn:Hflight; simpl.
  - rewrite <- A3, Hflight. split; [|split; [done|by left]]. intros _. eexists. split; [done|]. split; [done|].
    split; [done|]. intros _ _. by eexists.
  - set (m1 := on_session _ m0). pose proof (inner_ok metadata polls (str_trim option_id) (str_trim value) m1) as Hin.
    destruct (set_config_option_confirmed_inner _ _ _ _ m1) as [res m']. simpl in Hin.
    destruct Hin as [_ Hres]. split; [congruence|]. split; [done|].
    destruct res as [snapshot|e]; simpl in *; rewrite <- Areq; [|done].
    destruct Hres as (r & Hr & Hc). exists r. split; [done|]. by destruct r.
Qed.

(** Reconciling ends within its budget.  Every option that is set brings a
    new plan, made from the options of the reply, so nothing bounds the number
    of plans but the budget: whatever the agent answers, and whatever it sends
    in between, at most [MAX_RECONCILE_ACTIONS] requests are sent, all of them
    for the given session; the session keeps its id, its opened flag, its
    update lease and its prelude mark; and the only error handed to the caller
    is that the agent does not know the session. *)
Theorem reconcile_bounded `{AcpProtocol E} metadata sid m :
  let '(res, m') := reconcile_session metadata sid m in
  (exists new, requests m' = requests m ++ new /\ length new <= MAX_RECONCILE_ACTIONS /\
     Forall (for_session sid) new) /\
  ids_kept (session m) (session m') /\
  match res with Ok _ => True | Err e => exists unknown, e = AcpError.SessionNotFound unknown end.
Proof.
  pose proof (reconcile_session_sends metadata sid m) as Hr.
  destruct (reconcile_session metadata sid m) as [res m']. destruct Hr as [[Hnew Hkept] Hstop].
  split; [done|]. split; [done|]. destruct res as [u|e]; [done|]. destruct e; try done. by eexists.
Qed.

(** A client whose agent is connected, says nothing by itself, takes every
    request, and answers each [session/new] with the id ["new"]. *)
Definition renaming_agent : @AcpProtocol demo_types unit := {|
  arrivals := fun e => ([], e);
  reply_new := fun _ e => (Ok ("new", mkResponse None None None), e);
  reply_load := fun _ e => (Ok (mkResponse None None None), e);
  reply_mode := fun _ _ e => (Ok tt, e);
  reply_model := fun _ _ e => (Ok tt, e);
  reply_config := fun _ _ _ e => (Ok [], e);
  is_connected := fun _ => true;
  hash_order := fun _ _ => [];
|}.
#[local] Existing Instance demo_types.
#[local] Existing Instance renaming_agent.

Definition meta_backend : AgentMetadata := mkMetadata (Some "claude") None true.
Definition restored : Manager :=
  mkManager (set_session_id "old" (AcpSession_new None None ∅)) tt [] [] [].

(** A resume through [_meta] that the agent answers with a new id: the caller
    gets the new id and it is announced, but the session keeps the old one, so
    the next call hands out the old id and no domain event tells the database
    of the new one. *)
Lemma renamed_resume_goes_stale :
  let '(res, m) := ensure_session_opened meta_backend restored in
  res = Ok "new" /\ announced m = ["new"] /\ requests m = [NewSession (Some "old")] /\
  session_id (session m) = Some "old" /\
  (forall sid, sid <> "old" -> ~ In (AcpSessionEvent.SessionAssigned sid) (sent m)) /\
  fst (ensure_session_opened meta_backend m) = Ok "old".
Proof.
  vm_compute. repeat split; try done. intros sid Hne [Heq|Heq]; [by injection Heq as <-|].
  by repeat destruct Heq as [Heq|Heq].
Qed.
