(* ===== verification/TurnEvents.v ===== *)
(** * What an agent reports during a turn, and what is decided from it
    ([crates/tjuaeui-api-types/src/agent_error.rs],
    [crates/tjuaeui-ai-agent/src/protocol/events/],
    [crates/tjuaeui-conversation/src/stream_relay.rs], [turn_recovery_policy.rs],
    [turn_continuation_policy.rs], [agent_health_policy.rs])

    The events of an agent's stream, the summary a relay keeps of one attempt,
    and the three policies that read it: whether the turn is replayed, whether
    it goes on with system responses, whether the agent is thrown away. *)

From S2P Require Import Prelude TurnClaims.

(** ** Errors *)

Module AgentErrorOwnership.
Inductive t : Type := TjuaeUI | UserAgent | UserLlmProvider | UnknownUpstream.
#[export] Instance t_eq_dec : EqDecision t.
Proof. solve_decision. Defined.
End AgentErrorOwnership.
Export (hints) AgentErrorOwnership.

Module AgentErrorCode.
Inductive t : Type :=
| TjuaeUIConversationBusy
| TjuaeUIStreamBroken
| TjuaeUIStateInconsistent
| TjuaeUIPermissionError
| TjuaeUIInternalError
| WorkspacePathRuntimeUnavailable
| UserAgentHandshakeFailed
| UserAgentHandshakeTimeout
| UserAgentAcpInitFailed
| UserAgentProtocolMismatch
| UserAgentNotInstalled
| UserAgentStartupFailed
| UserAgentOpenClawGatewayUnreachable
| UserAgentDisconnected
| UserAgentAuthRequired
| UserAgentSessionNotFound
| UserAgentNoPreviousSession
| UserAgentProtocolParseError
| UserAgentInvalidRequest
| UserAgentResourceNotFound
| UserAgentProtocolError
| UserAgentCommandNotFound
| UserAgentMissingEnv
| UserAgentUnsupportedMethod
| UserAgentInvalidParams
| UserLlmProviderAuthFailed
| UserLlmProviderAwsSsoExpired
| UserLlmProviderPermissionDenied
| UserLlmProviderBillingRequired
| UserLlmProviderConfigError
| UserLlmProviderModelNotFound
| UserLlmProviderUnsupportedModel
| UserLlmProviderEndpointNotFound
| UserLlmProviderInvalidRequest
| UserLlmProviderInvalidToolSchema
| UserLlmProviderContextTooLarge
| UserLlmProviderRateLimited
| UserLlmProviderTimeout
| UserLlmProviderNetworkError
| UserLlmProviderEmptyResponse
| UserLlmProviderGatewayError
| UnknownUpstreamError.
#[export] Instance t_eq_dec : EqDecision t.
Proof. solve_decision. Defined.
End AgentErrorCode.
Export (hints) AgentErrorCode.

Module AgentErrorResolutionKind.
Inductive t : Type :=
| Retry | WaitForCurrentResponse | StartNewSession | ReconnectAgent | CheckAgentLogin
| CheckAgentInstallation | CheckAgentVersion | CheckLocalCommand | CheckProviderCredentials
| CheckProviderBilling | CheckProviderBaseUrl | ChangeModel | ReduceContext | SendFeedback.
End AgentErrorResolutionKind.

Module AgentErrorResolutionTarget.
Inductive t : Type := ProviderSettings | AgentSettings | NewConversation | Feedback.
End AgentErrorResolutionTarget.

Record AgentErrorResolution : Type := mkResolution {
  resolution_kind : AgentErrorResolutionKind.t;
  resolution_target : option AgentErrorResolutionTarget.t;
}.

(** [AgentStreamErrorData], which the stream calls [ErrorEventData]. *)
Record ErrorEventData : Type := mkErrorData {
  message : string;
  code : option AgentErrorCode.t;
  ownership : option AgentErrorOwnership.t;
  detail : option string;
  workspace_path : option string;
  retryable : option bool;
  feedback_recommended : option bool;
  resolution : option AgentErrorResolution;
}.

Definition error_classified (message : string) (code : AgentErrorCode.t) (ownership : AgentErrorOwnership.t)
    (detail : option string) (retryable feedback_recommended : bool)
    (resolution : option AgentErrorResolution) : ErrorEventData :=
  mkErrorData message (Some code) (Some ownership) detail None (Some retryable) (Some feedback_recommended)
    resolution.

(** ** Events *)

(** JSON values the code hands on without reading. *)
Class JsonValues : Type := { Json : Type }.

Module TipType.
Inductive t : Type := Error | Info | Success | Warning.
#[export] Instance t_eq_dec : EqDecision t.
Proof. solve_decision. Defined.
End TipType.
Export (hints) TipType.

Module ToolCallStatus.
Inductive t : Type := Running | Completed | Error | Canceled.
End ToolCallStatus.

Module AcpToolCallStatus.
Inductive t : Type := Pending | InProgress | Completed | Failed.
End AcpToolCallStatus.

Record TipsEventData `{JsonValues} : Type := mkTips {
  tip_content : string;
  tip_type : TipType.t;
  tip_code : option string;
  tip_params : option Json;
}.

Record ThinkingEventData : Type := mkThinking {
  thinking_content : string;
  thinking_subject : option string;
  thinking_duration : option N;
  thinking_status : option string;
}.

Record ToolCallEventData `{JsonValues} : Type := mkToolCall {
  call_id : string;
  call_name : string;
  call_args : Json;
  call_status : ToolCallStatus.t;
  call_input : option Json;
  call_output : option string;
  call_description : option string;
}.

(** Of the update of an ACP tool call, the fields read here; the others are in
    [acp_rest]. *)
Record AcpToolCallEventData `{JsonValues} : Type := mkAcpToolCall {
  acp_tool_call_id : string;
  acp_status : option AcpToolCallStatus.t;
  acp_rest : Json;
}.

Arguments mkTips {_}.
Arguments mkToolCall {_}.
Arguments mkAcpToolCall {_}.

Record ToolGroupEntry : Type := mkToolGroupEntry {
  entry_call_id : string;
  entry_name : string;
  entry_status : ToolCallStatus.t;
  entry_description : option string;
}.

Module AgentStreamEvent.
Inductive t `{JsonValues} : Type :=
| Start (session_id : option string)
| Text (content : string)
| Tips (data : TipsEventData)
| ToolCall (data : ToolCallEventData)
| AcpToolCall (data : AcpToolCallEventData)
| ToolGroup (entries : list ToolGroupEntry)
| AgentStatus (data : Json)
| Thinking (data : ThinkingEventData)
| Plan (data : Json)
| Permission (data : Json)
| AcpPermission (data : Json)
| SkillSuggest (data : Json)
| CronTrigger (data : Json)
| AcpModelInfo (data : Json)
| AcpModeInfo (data : Json)
| AcpConfigOption (data : Json)
| AcpSessionInfo (data : Json)
| AcpContextUsage (data : Json)
| AcpPromptHookWarning (data : Json)
| SlashCommandsUpdated (data : Json)
| AvailableCommands (data : Json)
| Finish (session_id : option string)
| Error (data : ErrorEventData)
| System (data : Json)
| RequestTrace (data : Json)
| SessionAssigned (session_id : string)
| SegmentBreak.
End AgentStreamEvent.

(** ** What a relay returns *)

Record TurnAttemptSummary : Type := mkAttempt {
  saw_visible_output : bool;
  saw_tool_or_side_effect : bool;
  persisted_assistant_output : bool;
  terminal_error : option ErrorEventData;
  terminal_error_deferred : bool;
  needs_auth : bool;
}.

Definition TurnAttemptSummary_default : TurnAttemptSummary := mkAttempt false false false None false false.

Definition safe_to_auto_replay (a : TurnAttemptSummary) : bool :=
  negb (saw_visible_output a) && negb (saw_tool_or_side_effect a) && negb (persisted_assistant_output a).

Definition attempt_merge (a other : TurnAttemptSummary) : TurnAttemptSummary :=
  mkAttempt (saw_visible_output a || saw_visible_output other)
    (saw_tool_or_side_effect a || saw_tool_or_side_effect other)
    (persisted_assistant_output a || persisted_assistant_output other)
    (match terminal_error other with Some e => Some e | None => terminal_error a end)
    (terminal_error_deferred a || terminal_error_deferred other)
    (needs_auth a || needs_auth other).

Definition saw_visible (b : bool) (a : TurnAttemptSummary) : TurnAttemptSummary :=
  mkAttempt (saw_visible_output a || b) (saw_tool_or_side_effect a) (persisted_assistant_output a)
    (terminal_error a) (terminal_error_deferred a) (needs_auth a).
Definition saw_side_effect (a : TurnAttemptSummary) : TurnAttemptSummary :=
  mkAttempt (saw_visible_output a) true (persisted_assistant_output a) (terminal_error a)
    (terminal_error_deferred a) (needs_auth a).
Definition saw_output_persisted (b : bool) (a : TurnAttemptSummary) : TurnAttemptSummary :=
  mkAttempt (saw_visible_output a) (saw_tool_or_side_effect a) (persisted_assistant_output a || b)
    (terminal_error a) (terminal_error_deferred a) (needs_auth a).
Definition saw_error (e : ErrorEventData) (deferred : bool) (a : TurnAttemptSummary) : TurnAttemptSummary :=
  mkAttempt (saw_visible_output a) (saw_tool_or_side_effect a) (persisted_assistant_output a) (Some e)
    (terminal_error_deferred a || deferred) (needs_auth a).
Definition saw_auth_needed (b : bool) (a : TurnAttemptSummary) : TurnAttemptSummary :=
  mkAttempt (saw_visible_output a) (saw_tool_or_side_effect a) (persisted_assistant_output a) (terminal_error a)
    (terminal_error_deferred a) (needs_auth a || b).

Module RelayTerminal.
Inductive t : Type :=
| Finish
| Error (code : option AgentErrorCode.t) (retryable : option bool)
| ChannelClosed.
End RelayTerminal.

Definition terminal_is_error (r : RelayTerminal.t) : bool :=
  match r with RelayTerminal.Error _ _ => true | _ => false end.
Definition terminal_code (r : RelayTerminal.t) : option AgentErrorCode.t :=
  match r with RelayTerminal.Error c _ => c | _ => None end.
Definition terminal_retryable (r : RelayTerminal.t) : option bool :=
  match r with RelayTerminal.Error _ r => r | _ => None end.

Record RelayOutcome : Type := mkOutcome {
  system_responses : list string;
  terminal : RelayTerminal.t;
  attempt : TurnAttemptSummary;
}.
Definition RelayOutcome_default : RelayOutcome := mkOutcome [] RelayTerminal.Finish TurnAttemptSummary_default.

(** ** Policies *)

Module AgentType.
Inductive t : Type := Acp | A2a | OpenclawGateway | Nanobot | Remote | TjuaeCli | Gemini | Codex.
#[export] Instance t_eq_dec : EqDecision t.
Proof. solve_decision. Defined.
End AgentType.
Export (hints) AgentType.

#[export] Instance lifecycle_eq_dec : EqDecision RuntimeLifecycleState.t.
Proof. solve_decision. Defined.

(** *** [turn_recovery_policy.rs] *)

Module SessionRecoverySignal.
Inductive t : Type := CompactFailed | ResumeFailed.
End SessionRecoverySignal.

(** Of [AgentKillReason] the one reason recovery gives is left implicit. *)
Module TurnRecoveryDecision.
Inductive t : Type :=
| None_
| AutoReplayOnce (safe_to_auto_replay : bool) (session_recovery_signal : option SessionRecoverySignal.t).
End TurnRecoveryDecision.

Definition is_provider_code (c : AgentErrorCode.t) : bool :=
  match c with
  | AgentErrorCode.UserLlmProviderAuthFailed
  | AgentErrorCode.UserLlmProviderAwsSsoExpired
  | AgentErrorCode.UserLlmProviderPermissionDenied
  | AgentErrorCode.UserLlmProviderBillingRequired
  | AgentErrorCode.UserLlmProviderConfigError
  | AgentErrorCode.UserLlmProviderModelNotFound
  | AgentErrorCode.UserLlmProviderUnsupportedModel
  | AgentErrorCode.UserLlmProviderEndpointNotFound
  | AgentErrorCode.UserLlmProviderInvalidRequest
  | AgentErrorCode.UserLlmProviderInvalidToolSchema
  | AgentErrorCode.UserLlmProviderContextTooLarge
  | AgentErrorCode.UserLlmProviderRateLimited
  | AgentErrorCode.UserLlmProviderTimeout
  | AgentErrorCode.UserLlmProviderNetworkError
  | AgentErrorCode.UserLlmProviderEmptyResponse
  | AgentErrorCode.UserLlmProviderGatewayError => true
  | _ => false
  end.

Definition is_provider_turn_error (error_code : option AgentErrorCode.t) (outcome : RelayOutcome) : bool :=
  bool_decide ((terminal_error (attempt outcome) ≫= ownership) = Some AgentErrorOwnership.UserLlmProvider) ||
  match error_code with Some c => is_provider_code c | None => false end.

(** [str::to_ascii_lowercase]. *)
Definition lower_byte (a : Ascii.ascii) : Ascii.ascii :=
  let n := Ascii.N_of_ascii a in
  if ((65 <=? n) && (n <=? 90))%N then Ascii.ascii_of_N (n + 32) else a.
Fixpoint to_ascii_lowercase (s : string) : string :=
  match s with
  | EmptyString => EmptyString
  | String a s => String (lower_byte a) (to_ascii_lowercase s)
  end.

Definition newline : string := String (Ascii.ascii_of_N 10) EmptyString.

Definition classify_session_recovery_signal (outcome : RelayOutcome) : option SessionRecoverySignal.t :=
  match terminal_error (attempt outcome) with
  | None => None
  | Some data =>
      let haystack := to_ascii_lowercase (message data +:+ newline +:+ default "" (detail data)) in
      if str_contains "/responses/compact" haystack || str_contains "remote compact failed" haystack
      then Some SessionRecoverySignal.CompactFailed
      else if str_contains "session/load" haystack || str_contains "resume" haystack
      then Some SessionRecoverySignal.ResumeFailed
      else None
  end.

Definition recovery_decide (agent_type : AgentType.t) (outcome : RelayOutcome)
    (lifecycle : RuntimeLifecycleState.t) (already_replayed : bool) : TurnRecoveryDecision.t :=
  let error_code := terminal_code (terminal outcome) in
  let safe := safe_to_auto_replay (attempt outcome) in
  let signal := classify_session_recovery_signal outcome in
  if bool_decide (lifecycle = RuntimeLifecycleState.Active) && bool_decide (agent_type = AgentType.Acp)
     && terminal_is_error (terminal outcome)
     && bool_decide (terminal_retryable (terminal outcome) = Some true)
     && negb (bool_decide (error_code = Some AgentErrorCode.UserLlmProviderModelNotFound))
     && (match signal with Some _ => true | None => false end || negb (is_provider_turn_error error_code outcome))
     && safe && negb already_replayed
  then TurnRecoveryDecision.AutoReplayOnce safe signal
  else TurnRecoveryDecision.None_.

(** *** [turn_continuation_policy.rs] *)

Module ContinuationStopReason.
Inductive t : Type := NoSystemResponses | TerminalNotFinish | LifecycleNotActive | LimitReached.
End ContinuationStopReason.

Module ContinuationDecision.
Inductive t : Type :=
| Continue (content : string) (next_count : nat)
| Stop (reason : ContinuationStopReason.t).
End ContinuationDecision.

Definition MAX_SYSTEM_RESPONSE_CONTINUATIONS_PER_TURN : nat := 4.

(** [slice::join]. *)
Fixpoint join (sep : string) (l : list string) : string :=
  match l with
  | [] => ""
  | [s] => s
  | s :: l' => s +:+ sep +:+ join sep l'
  end.

Definition continuation_decide (max_continuations continuation_count : nat) (outcome : RelayOutcome)
    (lifecycle : RuntimeLifecycleState.t) : ContinuationDecision.t :=
  if negb (bool_decide (lifecycle = RuntimeLifecycleState.Active))
  then ContinuationDecision.Stop ContinuationStopReason.LifecycleNotActive
  else if terminal_is_error (terminal outcome)
  then ContinuationDecision.Stop ContinuationStopReason.TerminalNotFinish
  else if is_empty (system_responses outcome)
  then ContinuationDecision.Stop ContinuationStopReason.NoSystemResponses
  else if (max_continuations <=? continuation_count)%nat
  then ContinuationDecision.Stop ContinuationStopReason.LimitReached
  else ContinuationDecision.Continue (join newline (system_responses outcome)) (continuation_count + 1).

(** *** [agent_health_policy.rs] *)

Module AgentHealthAction.
Inductive t : Type :=
| Keep
| EvictAcpTask (error_code : option AgentErrorCode.t) (retryable : option bool) (clear_model_seed : bool).
End AgentHealthAction.

Definition health_decide (agent_type : AgentType.t) (outcome : RelayOutcome)
    (lifecycle : RuntimeLifecycleState.t) : AgentHealthAction.t :=
  match lifecycle with
  | RuntimeLifecycleState.Deleting | RuntimeLifecycleState.ShuttingDown => AgentHealthAction.Keep
  | _ =>
      if negb (bool_decide (agent_type = AgentType.Acp)) || negb (terminal_is_error (terminal outcome))
      then AgentHealthAction.Keep
      else
        let error_code := terminal_code (terminal outcome) in
        AgentHealthAction.EvictAcpTask error_code (terminal_retryable (terminal outcome))
          (bool_decide (error_code = Some AgentErrorCode.UserLlmProviderModelNotFound))
  end.

(** *** [turn_orchestrator.rs] *)

Definition terminal_is_auth_failure (outcome : RelayOutcome) : bool :=
  needs_auth (attempt outcome) ||
  match terminal_code (terminal outcome) with
  | Some AgentErrorCode.UserAgentAuthRequired
  | Some AgentErrorCode.UserLlmProviderAuthFailed
  | Some AgentErrorCode.UserLlmProviderAwsSsoExpired => true
  | _ => false
  end.

Definition turn_attempt_error_message (summary : TurnAttemptSummary) : option string :=
  match terminal_error summary with
  | None => None
  | Some error =>
      Some (match detail error with
            | Some d => if bool_decide (str_trim d = "") then message error else d
            | None => message error
            end)
  end.

Definition send_error_display_message (error : ErrorEventData) : string :=
  default (message error) (detail error).
