(* ===== verification/TurnMessages.v ===== *)
(** * The messages of a turn
    ([crates/tjuaeui-conversation/src/runtime_persistence.rs],
    [stream_persistence.rs], [response_middleware.rs], [runtime_completion.rs],
    [message_persistence.rs])

    What a relay writes to the messages table and broadcasts to the clients.
    Every write first asks the runtime state whether it is still wanted.  The
    code runs in the state monad of the Prelude over a [World]: the table, the
    broadcasts, and an environment that answers for everything else. *)

From S2P Require Import Prelude TurnClaims TurnEvents.
Open Scope tjuae_scope.

(** ** [runtime_persistence.rs] *)

Module RuntimeWriteKind.
Inductive t : Type :=
| UserMessage | AssistantTextCreate | AssistantTextFlush | AssistantTextFinalize
| AssistantThinkingFinalize | ToolCallPersist | AcpToolCallPersist | ToolGroupPersist
| TerminalFinalize | ConversationFinished | SendFailureTip | SessionKey | AcpRecoveryCleanup
| ResolvedWorkspace | StartupRecovery.
End RuntimeWriteKind.

Definition allowed_in (lifecycle : RuntimeLifecycleState.t) (kind : RuntimeWriteKind.t) : bool :=
  match lifecycle with
  | RuntimeLifecycleState.Active => true
  | RuntimeLifecycleState.Deleting | RuntimeLifecycleState.ShuttingDown =>
      match kind with RuntimeWriteKind.UserMessage => true | _ => false end
  | RuntimeLifecycleState.Cancelling =>
      match kind with
      | RuntimeWriteKind.AssistantTextCreate | RuntimeWriteKind.AssistantTextFlush
      | RuntimeWriteKind.AssistantTextFinalize | RuntimeWriteKind.AssistantThinkingFinalize
      | RuntimeWriteKind.ToolCallPersist | RuntimeWriteKind.AcpToolCallPersist
      | RuntimeWriteKind.ToolGroupPersist | RuntimeWriteKind.TerminalFinalize
      | RuntimeWriteKind.ConversationFinished => true
      | _ => false
      end
  end.

(** ** [response_middleware.rs]

    The two regular expressions are matched by hand.  The first takes an
    opening tag, then as little as possible up to a closing one. *)

Fixpoint str_drop (n : nat) (s : string) : string :=
  match n, s with
  | S n, String _ s => str_drop n s
  | _, _ => s
  end.

(** The length of the tag at the front, 0 if there is none. *)
Definition open_tag (s : string) : nat :=
  if String.prefix "<think>" s then 7 else if String.prefix "<thinking>" s then 10 else 0.
Definition close_tag (s : string) : nat :=
  if String.prefix "</think>" s then 8 else if String.prefix "</thinking>" s then 11 else 0.

(** What follows the first closing tag. *)
Fixpoint after_close (s : string) : option string :=
  match close_tag s with
  | 0 => match s with EmptyString => None | String _ s => after_close s end
  | n => Some (str_drop n s)
  end.

(** [fuel] bounds the scan by the length of the text. *)
Fixpoint strip_think (fuel : nat) (s : string) : string :=
  match fuel with
  | 0 => s
  | S fuel =>
      match s with
      | EmptyString => EmptyString
      | String a rest =>
          match open_tag s with
          | 0 => String a (strip_think fuel rest)
          | n =>
              match after_close (str_drop n s) with
              | Some rest => strip_think fuel rest
              | None => String a (strip_think fuel rest)
              end
          end
      end
  end.
Definition strip_think_tags (text : string) : string := strip_think (String.length text) text.

(** [LOAD_SKILL_RE] ignores case, and in Unicode two more letters fold to
    letters of the keyword: the long s and the Kelvin sign. *)
Definition lower_char (l : list N) : nat * N :=
  match l with
  | a :: l' =>
      match l' with
      | b :: l'' =>
          if ((a =? 197) && (b =? 191))%N then (2, 115%N)
          else
            match l'' with
            | c :: _ =>
                if ((a =? 226) && (b =? 132) && (c =? 170))%N then (3, 107%N)
                else (1, if ((65 <=? a) && (a <=? 90))%N then (a + 32)%N else a)
            | [] => (1, if ((65 <=? a) && (a <=? 90))%N then (a + 32)%N else a)
            end
      | [] => (1, if ((65 <=? a) && (a <=? 90))%N then (a + 32)%N else a)
      end
  | [] => (0, 0%N)
  end.

(** The text after the keyword, which is given in lower case. *)
Fixpoint after_keyword (keyword l : list N) : option (list N) :=
  match keyword with
  | [] => Some l
  | k :: keyword =>
      match lower_char l with
      | (0, _) => None
      | (n, a) => if (a =? k)%N then after_keyword keyword (skipn n l) else None
      end
  end.

Fixpoint until_bracket (l : list N) : option (list N * list N) :=
  match l with
  | [] => None
  | a :: l =>
      if (a =? 93)%N then Some ([], l)
      else match until_bracket l with Some (name, rest) => Some (a :: name, rest) | None => None end
  end.

(** The name and what follows the request at the front. *)
Definition skill_request (l : list N) : option (string * list N) :=
  match after_keyword (bytes "[load_skill:") l with
  | None => None
  | Some l =>
      match until_bracket l with
      | Some (b :: name, rest) => Some (str_trim (of_bytes (b :: name)), rest)
      | _ => None
      end
  end.

Fixpoint detect_requests (fuel : nat) (names : list string) (l : list N) : list string :=
  match fuel, l with
  | S fuel, _ :: rest =>
      match skill_request l with
      | Some (name, rest) =>
          detect_requests fuel
            (if bool_decide (name = "") || bool_decide (name ∈ names) then names else names ++ [name]) rest
      | None => detect_requests fuel names rest
      end
  | _, _ => names
  end.
Definition detect_skill_load_requests (text : string) : list string :=
  detect_requests (String.length text) [] (bytes text).

Record LoadedAgentSkill : Type := mkSkill { skill_name : string; skill_body : string }.

(** ** The world *)

Record MessageRow : Type := mkMessage {
  row_id : string;
  row_conversation_id : string;
  row_msg_id : option string;
  row_type : string;
  row_content : string;
  row_position : option string;
  row_status : option string;
  row_hidden : bool;
  row_created_at : Z;
}.

Record MessageRowUpdate : Type := mkMessageUpdate {
  update_content : option string;
  update_status : option (option string);
  update_hidden : option bool;
}.

(** What is broadcast for the conversation.  Each payload also carries the ids
    of the conversation and the turn. *)
Module Frame.
Inductive t `{JsonValues} : Type :=
| Event (msg_id : string) (event : AgentStreamEvent.t)
| FinalText (msg_id text : string) (hidden : bool)
| SystemResponse (msg_id response : string)
| Row (row : MessageRow)
| TurnCompleted (runtime : option ConversationRuntimeSummary).
End Frame.

(** What [serde_json] prints, and what SQLite's JSON functions make of two
    contents of a message when it is upserted; [keep] tells that the status of
    the old one is kept. *)
Class Printed `{JsonValues} : Type := {
  print_text : string -> string;
  print_thinking : string -> N -> string;
  print_error : ErrorEventData -> string;
  print_tip : TipsEventData -> string;
  print_tool_call : ToolCallEventData -> string;
  print_acp_tool_call : AcpToolCallEventData -> string;
  print_tool_group : list ToolGroupEntry -> string;
  print_send_failure : ErrorEventData -> option string -> string;
  merge_content : bool -> string -> string -> string -> string;
}.

(** The rest of the program and the machine, in state [E]. *)
Class TurnEnv `{JsonValues} (E : Type) : Type := {
  generate_short_id : E -> string * E;
  now_ms : E -> Z * E;
  runtime_state : E -> ConversationRuntimeStateService * E;
  write_fails : E -> bool * E;
  read_fails : E -> bool * E;
  conversation_found : E -> bool * E;
  resolver_bodies : list string -> E -> list LoadedAgentSkill * E;
}.

Section Messages.
Context `{Printed} {E : Type} `{!TurnEnv E}.

Record World : Type := mkWorld {
  env : E;
  messages : gmap string MessageRow;
  frames : list Frame.t;
  conversation_status : option string;
}.
Definition set_env (e : E) (w : World) : World := mkWorld e (messages w) (frames w) (conversation_status w).
Definition set_messages (m : gmap string MessageRow) (w : World) : World :=
  mkWorld (env w) m (frames w) (conversation_status w).
Definition set_status (s : option string) (w : World) : World := mkWorld (env w) (messages w) (frames w) s.

Definition ask {A : Type} (f : E -> A * E) : St World A :=
  fun w => let '(a, e) := f (env w) in (a, set_env e w).
Definition broadcast (f : Frame.t) : St World unit :=
  st_modify (fun w => mkWorld (env w) (messages w) (frames w ++ [f]) (conversation_status w)).

(** *** The repository; errors are only logged, so the answer tells success. *)

Definition insert_message (row : MessageRow) : St World bool :=
  let* failed := ask write_fails in
  fun w =>
    if failed || bool_decide (is_Some (messages w !! row_id row)) then (false, w)
    else (true, set_messages (<[row_id row := row]> (messages w)) w).

Definition update_row (u : MessageRowUpdate) (r : MessageRow) : MessageRow :=
  mkMessage (row_id r) (row_conversation_id r) (row_msg_id r) (row_type r)
    (default (row_content r) (update_content u)) (row_position r)
    (default (row_status r) (update_status u)) (default (row_hidden r) (update_hidden u)) (row_created_at r).

Definition update_message (id : string) (u : MessageRowUpdate) : St World bool :=
  let* failed := ask write_fails in
  fun w =>
    match messages w !! id with
    | Some r => if failed then (false, w) else (true, set_messages (<[id := update_row u r]> (messages w)) w)
    | None => (false, w)
    end.

(** A row that is finished is not taken back to [work]. *)
Definition upsert_row (new r : MessageRow) : MessageRow :=
  let keep := (bool_decide (row_status r = Some "finish") || bool_decide (row_status r = Some "error"))
              && bool_decide (row_status new = Some "work") in
  mkMessage (row_id r) (row_conversation_id r) (row_msg_id r) (row_type r)
    (merge_content keep (row_type r) (row_content r) (row_content new))
    (match row_position r with Some p => Some p | None => row_position new end)
    (if keep then row_status r else row_status new) (row_hidden new)
    (Z.min (row_created_at r) (row_created_at new)).

Definition upsert_message (row : MessageRow) : St World bool :=
  let* failed := ask write_fails in
  fun w =>
    if failed then (false, w)
    else
      (true, set_messages
        (<[row_id row := match messages w !! row_id row with Some r => upsert_row row r | None => row end]>
           (messages w)) w).

(** [unwrap_or(None)]: a failed lookup finds nothing. *)
Definition get_message_by_msg_id (conversation id type_ : string) : St World bool :=
  let* failed := ask read_fails in
  st_gets (fun w => negb failed && existsb (fun r => bool_decide (row_conversation_id r = conversation)
    && bool_decide (row_msg_id r = Some id) && bool_decide (row_type r = type_)) (map_values (messages w))).

(** ** [stream_persistence.rs] *)

Record StreamPersistenceAdapter : Type := mkAdapter {
  adapter_conversation_id : string;
  adapter_msg_id : string;
  has_persistence : bool;
}.

Record TextSegmentState : Type := mkTextSegment {
  text_id : string;
  text_buffer : string;
  text_created_at : Z;
  record_created : bool;
  flush_counter : N;
}.

Record ThinkingSegmentState : Type := mkThinkingSegment {
  thinking_id : string;
  thinking_buffer : string;
  thinking_started_at : Z;
}.

Record FinalTextOverride : Type := mkOverride {
  override_msg_id : string;
  override_text : string;
  override_hidden : bool;
}.

(** [RuntimePersistenceCoordinator::allows]. *)
Definition coordinator_allows (conversation : string) (kind : RuntimeWriteKind.t) : St World bool :=
  let* rt := ask runtime_state in st_ret (allowed_in (lifecycle_for conversation rt) kind).

Definition allows_write (a : StreamPersistenceAdapter) (kind : RuntimeWriteKind.t) : St World bool :=
  if has_persistence a then coordinator_allows (adapter_conversation_id a) kind else st_ret true.

(** [if !allows_write(kind) { return }]. *)
Definition when_allowed (a : StreamPersistenceAdapter) (kind : RuntimeWriteKind.t) (m : St World unit)
    : St World unit :=
  let* ok := allows_write a kind in if ok then m else st_ret tt.

Definition assistant_row (a : StreamPersistenceAdapter) (id : string) (msg_id : option string)
    (type_ content status : string) (created_at : Z) : MessageRow :=
  mkMessage id (adapter_conversation_id a) msg_id type_ content (Some "left") (Some status) false created_at.

Definition text_row (a : StreamPersistenceAdapter) (s : TextSegmentState) (status : string) : MessageRow :=
  assistant_row a (text_id s) (Some (text_id s)) "text" (print_text (text_buffer s)) status (text_created_at s).

Definition with_record (s : TextSegmentState) : TextSegmentState :=
  mkTextSegment (text_id s) (text_buffer s) (text_created_at s) true (flush_counter s).

(** [record_created] is set whether or not the insert succeeded. *)
Definition flush_text_segment (a : StreamPersistenceAdapter) (s : TextSegmentState) : St World TextSegmentState :=
  let* ok := allows_write a RuntimeWriteKind.AssistantTextFlush in
  if negb ok || bool_decide (text_buffer s = "") then st_ret s
  else if record_created s then
    update_message (text_id s) (mkMessageUpdate (Some (print_text (text_buffer s))) (Some (Some "work")) None);;
    st_ret s
  else
    insert_message (text_row a s "work");;
    st_ret (with_record s).

(** The id of the segment, if its row was written. *)
Definition finalize_text_segment (a : StreamPersistenceAdapter) (s : TextSegmentState) (status : string)
    : St World (option string) :=
  let* ok := allows_write a RuntimeWriteKind.AssistantTextFinalize in
  if negb ok || bool_decide (text_buffer s = "") then st_ret None
  else
    let* written :=
      if record_created s
      then update_message (text_id s)
             (mkMessageUpdate (Some (print_text (text_buffer s))) (Some (Some status)) (Some false))
      else insert_message (text_row a s status) in
    st_ret (if written then Some (text_id s) else None).

Definition hide_superseded (status id : string) : St World unit :=
  update_message id (mkMessageUpdate None (Some (Some status)) (Some true));; st_ret tt.
Definition restate_segment (status id : string) : St World unit :=
  update_message id (mkMessageUpdate None (Some (Some status)) (Some false));; st_ret tt.

Definition persist_final_text (a : StreamPersistenceAdapter) (segments : list string)
    (status final_text : string) (hidden rewrite_segments : bool) : St World (list FinalTextOverride) :=
  let* ok := allows_write a RuntimeWriteKind.TerminalFinalize in
  if negb ok then st_ret []
  else
    match segments with
    | primary :: rest =>
        if rewrite_segments then
          update_message primary
            (mkMessageUpdate (Some (print_text final_text)) (Some (Some status)) (Some hidden));;
          st_each (hide_superseded status) rest;;
          st_ret (mkOverride primary final_text hidden :: map (fun id => mkOverride id "" true) rest)
        else
          st_each (restate_segment status) segments;;
          st_ret []
    | [] =>
        if hidden then st_ret []
        else
          let* now := ask now_ms in
          insert_message (assistant_row a (adapter_msg_id a) (Some (adapter_msg_id a)) "text"
            (print_text final_text) status now);;
          st_ret []
    end.

Definition persist_error_tip (a : StreamPersistenceAdapter) (data : ErrorEventData) : St World unit :=
  when_allowed a RuntimeWriteKind.TerminalFinalize
    (let* id := ask generate_short_id in
     let* now := ask now_ms in
     insert_message (assistant_row a id None "tips" (print_error data) "error" now);; st_ret tt).

Definition tip_status (t : TipType.t) : string :=
  match t with TipType.Error => "error" | _ => "finish" end.

Definition persist_tip (a : StreamPersistenceAdapter) (data : TipsEventData) : St World unit :=
  when_allowed a RuntimeWriteKind.TerminalFinalize
    (let* id := ask generate_short_id in
     let* now := ask now_ms in
     insert_message (assistant_row a id None "tips" (print_tip data) (tip_status (tip_type data)) now);; st_ret tt).

Definition persist_thinking_segment (a : StreamPersistenceAdapter) (s : ThinkingSegmentState) (duration_ms : N)
    : St World unit :=
  if bool_decide (thinking_buffer s = "") then st_ret tt
  else
    when_allowed a RuntimeWriteKind.AssistantThinkingFinalize
      (insert_message (assistant_row a (thinking_id s) (Some (thinking_id s)) "thinking"
         (print_thinking (thinking_buffer s) duration_ms) "finish" (thinking_started_at s));; st_ret tt).

Definition tool_call_row_status (s : ToolCallStatus.t) : string :=
  match s with
  | ToolCallStatus.Running => "work"
  | ToolCallStatus.Error => "error"
  | ToolCallStatus.Completed | ToolCallStatus.Canceled => "finish"
  end.

Definition persist_tool_call (a : StreamPersistenceAdapter) (data : ToolCallEventData) : St World unit :=
  when_allowed a RuntimeWriteKind.ToolCallPersist
    (if bool_decide (str_trim (call_id data) = "") then st_ret tt
     else
       let* now := ask now_ms in
       upsert_message (assistant_row a (call_id data) (Some (call_id data)) "tool_call"
         (print_tool_call data) (tool_call_row_status (call_status data)) now);; st_ret tt).

Definition acp_tool_call_row_status (s : option AcpToolCallStatus.t) : string :=
  match s with
  | Some AcpToolCallStatus.Completed => "finish"
  | Some AcpToolCallStatus.Failed => "error"
  | Some AcpToolCallStatus.Pending | Some AcpToolCallStatus.InProgress | None => "work"
  end.

Definition persist_acp_tool_call (a : StreamPersistenceAdapter) (data : AcpToolCallEventData) : St World unit :=
  when_allowed a RuntimeWriteKind.AcpToolCallPersist
    (let* now := ask now_ms in
     upsert_message (assistant_row a (acp_tool_call_id data) (Some (acp_tool_call_id data)) "acp_tool_call"
       (print_acp_tool_call data) (acp_tool_call_row_status (acp_status data)) now);; st_ret tt).

Definition entry_done (e : ToolGroupEntry) : bool :=
  match entry_status e with ToolCallStatus.Running => false | _ => true end.
Definition group_status (entries : list ToolGroupEntry) : string :=
  if forallb entry_done entries then "finish" else "work".

Definition persist_tool_group (a : StreamPersistenceAdapter) (entries : list ToolGroupEntry) : St World unit :=
  when_allowed a RuntimeWriteKind.ToolGroupPersist
    (let* group_id := match entries with e :: _ => st_ret (entry_call_id e) | [] => ask generate_short_id end in
     let* existing := get_message_by_msg_id (adapter_conversation_id a) group_id "tool_group" in
     if existing then
       update_message group_id
         (mkMessageUpdate (Some (print_tool_group entries)) (Some (Some (group_status entries))) None);;
       st_ret tt
     else
       let* now := ask now_ms in
       insert_message (assistant_row a group_id (Some group_id) "tool_group" (print_tool_group entries)
         (group_status entries) now);; st_ret tt).

(** ** [runtime_completion.rs] *)

(** The status of the conversation's row; [conversation_found] answers for a
    lookup that finds it. *)
Definition finish_conversation : St World bool :=
  let* failed := ask write_fails in
  fun w => if failed then (false, w) else (true, set_status (Some "finished") w).

Definition completion_publish (conversation : string) (runtime : option ConversationRuntimeSummary)
    : St World unit :=
  let* ok := coordinator_allows conversation RuntimeWriteKind.ConversationFinished in
  if negb ok then st_ret tt
  else
    let* found := ask conversation_found in
    if negb found then st_ret tt
    else
      let* updated := finish_conversation in
      if updated then broadcast (Frame.TurnCompleted runtime) else st_ret tt.

(** [StreamPersistenceAdapter::complete_conversation]: without a coordinator
    the turn is completed whether or not the row could be updated. *)
Definition complete_conversation (a : StreamPersistenceAdapter) (runtime : option ConversationRuntimeSummary)
    : St World unit :=
  if has_persistence a then completion_publish (adapter_conversation_id a) runtime
  else finish_conversation;; broadcast (Frame.TurnCompleted runtime).

(** ** [message_persistence.rs] *)

Definition persist_send_failure_tip (conversation : string) (err : ErrorEventData)
    (top_level_code : option string) : St World (option MessageRow) :=
  let* ok := coordinator_allows conversation RuntimeWriteKind.SendFailureTip in
  if negb ok then st_ret None
  else
    let* id := ask generate_short_id in
    let* now := ask now_ms in
    let row := mkMessage id conversation None "tips" (print_send_failure err top_level_code) (Some "center")
                 (Some "error") false now in
    let* written := insert_message row in
    st_ret (if written then Some row else None).

(** [service.rs] *)
Definition persist_and_broadcast_send_failure_tip (conversation : string) (err : ErrorEventData)
    (top_level_code : option string) : St World unit :=
  let* row := persist_send_failure_tip conversation err top_level_code in
  match row with Some row => broadcast (Frame.Row row) | None => st_ret tt end.
End Messages.
