(* ===== verification/StreamRelay.v ===== *)
(** * The stream relay
    ([crates/tjuaeui-conversation/src/stream_relay.rs])

    One relay follows the event stream of an agent for one message: it forwards
    the events to the clients, gathers text and thinking into segments that
    become messages, and returns when the stream ends, with a summary of the
    attempt.  Next to the stream it listens for the failure of the send itself.

    The loop is a function of what the stream delivers, [relay_loop]; how the
    next delivery is chosen between the stream and the send failure is
    [next_delivery].  Logging is left out. *)

From stdpp Require Import pretty.
From S2P Require Import Prelude TurnClaims TurnEvents TurnMessages.
Open Scope tjuae_scope.

Definition FLUSH_INTERVAL : N := 20.

Section StreamRelay.
Context `{Printed} {E : Type} `{!TurnEnv E}.
#[local] Abbreviation M := (St (World (E:=E))).

(** The relay's settings; the optional services are there or not.  The ids of
    conversation and message are those of its adapter. *)
Record StreamRelay : Type := mkRelay {
  adapter : StreamPersistenceAdapter;
  has_skill_resolver : bool;
  allowed_skill_names : list string;
  has_runtime_state : bool;
  complete_turn : bool;
  defer_clean_terminal_errors : bool;
}.

(** The variables of the loop. *)
Record RelayState : Type := mkRelayState {
  full_text_buffer : string;
  text_segments : list string;
  active_text : option TextSegmentState;
  active_thinking : option ThinkingSegmentState;
  used_primary : bool;
  summary : TurnAttemptSummary;
}.
Definition RelayState_start : RelayState := mkRelayState "" [] None None false TurnAttemptSummary_default.

Definition set_text (o : option TextSegmentState) (s : RelayState) : RelayState :=
  mkRelayState (full_text_buffer s) (text_segments s) o (active_thinking s) (used_primary s) (summary s).
Definition set_thinking (o : option ThinkingSegmentState) (s : RelayState) : RelayState :=
  mkRelayState (full_text_buffer s) (text_segments s) (active_text s) o (used_primary s) (summary s).
Definition set_primary (b : bool) (s : RelayState) : RelayState :=
  mkRelayState (full_text_buffer s) (text_segments s) (active_text s) (active_thinking s) b (summary s).
Definition add_segment (id : string) (s : RelayState) : RelayState :=
  mkRelayState (full_text_buffer s) (text_segments s ++ [id]) (active_text s) (active_thinking s)
    (used_primary s) (summary s).
Definition add_text (text : string) (s : RelayState) : RelayState :=
  mkRelayState (full_text_buffer s +:+ text) (text_segments s) (active_text s) (active_thinking s)
    (used_primary s) (summary s).
Definition on_summary (f : TurnAttemptSummary -> TurnAttemptSummary) (s : RelayState) : RelayState :=
  mkRelayState (full_text_buffer s) (text_segments s) (active_text s) (active_thinking s)
    (used_primary s) (f (summary s)).

Context (relay : StreamRelay).
Definition relay_msg_id : string := adapter_msg_id (adapter relay).
Definition relay_conversation : string := adapter_conversation_id (adapter relay).

Definition relay_is_deleting : M bool :=
  if has_runtime_state relay then
    let* rt := ask runtime_state in st_ret (is_deleting relay_conversation rt)
  else st_ret false.

Definition terminal_from_event (e : AgentStreamEvent.t) : RelayTerminal.t :=
  match e with
  | AgentStreamEvent.Error data => RelayTerminal.Error (code data) (retryable data)
  | AgentStreamEvent.Finish _ => RelayTerminal.Finish
  | _ => RelayTerminal.ChannelClosed
  end.

Definition is_terminal_event (e : AgentStreamEvent.t) : bool :=
  match e with AgentStreamEvent.Finish _ | AgentStreamEvent.Error _ => true | _ => false end.

Definition is_error_event (e : AgentStreamEvent.t) : bool :=
  match e with AgentStreamEvent.Error _ => true | _ => false end.

Definition forward_with_msg_id (id : string) (e : AgentStreamEvent.t) : M unit :=
  broadcast (Frame.Event id e).
Definition forward_to_websocket (e : AgentStreamEvent.t) : M unit :=
  forward_with_msg_id relay_msg_id e.

(** [mint_segment_msg_id]: the first segment takes the id of the message. *)
Definition mint_segment_msg_id (s : RelayState) : M (string * RelayState) :=
  if used_primary s then
    let* id := ask generate_short_id in st_ret (id, s)
  else st_ret (relay_msg_id, set_primary true s).

Definition thinking_done (duration : N) : AgentStreamEvent.t :=
  AgentStreamEvent.Thinking (mkThinking "" None (Some duration) (Some "done")).

Definition complete_active_thinking (s : RelayState) : M RelayState :=
  match active_thinking s with
  | None => st_ret s
  | Some segment =>
      let* now := ask now_ms in
      let duration := Z.to_N (Z.max 0 (now - thinking_started_at segment)) in
      forward_with_msg_id (thinking_id segment) (thinking_done duration);;
      persist_thinking_segment (adapter relay) segment duration;;
      st_ret (set_thinking None s)
  end.

Definition close_active_text_segment (status : string) (s : RelayState) : M RelayState :=
  match active_text s with
  | None => st_ret s
  | Some segment =>
      let* written := finalize_text_segment (adapter relay) segment status in
      st_ret (match written with
              | Some id => add_segment id (set_text None s)
              | None => set_text None s
              end)
  end.

(** A boundary: thinking and text are closed. *)
Definition close_segments (status : string) (s : RelayState) : M RelayState :=
  let* s := complete_active_thinking s in close_active_text_segment status s.

(** *** Text and thinking *)

Definition append_thinking (segment : ThinkingSegmentState) (text : string) : ThinkingSegmentState :=
  mkThinkingSegment (thinking_id segment) (thinking_buffer segment +:+ text) (thinking_started_at segment).

(** [active_thinking.get_or_insert_with]. *)
Definition thinking_segment (s : RelayState) : M (ThinkingSegmentState * RelayState) :=
  match active_thinking s with
  | Some segment => st_ret (segment, s)
  | None =>
      let* (id, s) := mint_segment_msg_id s in
      let* now := ask now_ms in
      st_ret (mkThinkingSegment id "" now, s)
  end.

Definition handle_thinking (data : ThinkingEventData) (s : RelayState) : M RelayState :=
  if bool_decide (thinking_status data = Some "done") then complete_active_thinking s
  else
    let* s := close_active_text_segment "finish" s in
    let s := on_summary (saw_visible (negb (bool_decide (thinking_content data = "")))) s in
    let* (segment, s) := thinking_segment s in
    let segment := append_thinking segment (thinking_content data) in
    forward_with_msg_id (thinking_id segment) (AgentStreamEvent.Thinking data);;
    st_ret (set_thinking (Some segment) s).

Definition append_text (segment : TextSegmentState) (text : string) : TextSegmentState :=
  mkTextSegment (text_id segment) (text_buffer segment +:+ text) (text_created_at segment)
    (record_created segment) (flush_counter segment + 1).
Definition reset_counter (segment : TextSegmentState) : TextSegmentState :=
  mkTextSegment (text_id segment) (text_buffer segment) (text_created_at segment) (record_created segment) 0.

(** [active_text.get_or_insert_with]. *)
Definition text_segment (s : RelayState) : M (TextSegmentState * RelayState) :=
  match active_text s with
  | Some segment => st_ret (segment, s)
  | None =>
      let* (id, s) := mint_segment_msg_id s in
      let* now := ask now_ms in
      st_ret (mkTextSegment id "" now false 0, s)
  end.

(** The segment with its text, flushed when its counter is full. *)
Definition store_text (segment : TextSegmentState) (s : RelayState) : M RelayState :=
  if (FLUSH_INTERVAL <=? flush_counter segment)%N then
    let* segment := flush_text_segment (adapter relay) segment in
    st_ret (set_text (Some (reset_counter segment)) s)
  else st_ret (set_text (Some segment) s).

Definition handle_text (content : string) (s : RelayState) : M RelayState :=
  let* s := complete_active_thinking s in
  let s := on_summary (saw_visible (negb (bool_decide (content = "")))) s in
  let* (segment, s) := text_segment s in
  forward_with_msg_id (text_id segment) (AgentStreamEvent.Text content);;
  store_text (append_text segment content) (add_text content s).

(** *** The end of the stream *)

(** [SharedSkillResolver]: of the names asked for, those allowed. *)
Definition load_skill_bodies (names : list string) : M (list LoadedAgentSkill) :=
  if is_empty (allowed_skill_names relay) then st_ret []
  else ask (resolver_bodies (List.filter (fun n => bool_decide (n ∈ allowed_skill_names relay)) names)).

Definition skill_response (sk : LoadedAgentSkill) : string :=
  "[Skill: " +:+ skill_name sk +:+ "]" +:+ newline +:+ skill_body sk.

(** [MessageMiddleware::process]: the cleaned text and the system responses. *)
Definition process_final_text (text : string) : M (string * list string) :=
  let cleaned := strip_think_tags text in
  let names := detect_skill_load_requests cleaned in
  if is_empty names || negb (has_skill_resolver relay) then st_ret (cleaned, [])
  else
    let* loaded := load_skill_bodies names in
    st_ret (cleaned, map skill_response loaded).

Definition send_final_text_override (o : FinalTextOverride) : M unit :=
  broadcast (Frame.FinalText (override_msg_id o) (override_text o) (override_hidden o)).

Definition send_system_response (response : string) : M unit :=
  let* id := ask generate_short_id in broadcast (Frame.SystemResponse id response).

(** The responses that [finalize] puts into the outcome. *)
Definition finalize (text : string) (segments : list string) (e : AgentStreamEvent.t) : M (list string) :=
  let status := if is_error_event e then "error" else "finish" in
  if negb (bool_decide (text = "")) then
    let* (processed, responses) := process_final_text text in
    let final_text := str_trim processed in
    let hidden := bool_decide (final_text = "") in
    let rewrite_segments := negb (bool_decide (processed = text)) || hidden in
    let* overrides := persist_final_text (adapter relay) segments status final_text hidden rewrite_segments in
    st_each send_final_text_override overrides;;
    st_each send_system_response responses;;
    st_ret responses
  else
    match e with
    | AgentStreamEvent.Error data => persist_error_tip (adapter relay) data;; st_ret []
    | _ => st_ret []
    end.

Definition final_summary (s : RelayState) : TurnAttemptSummary :=
  saw_output_persisted (negb (bool_decide (full_text_buffer s = ""))) (summary s).

Definition defers (terminal : RelayTerminal.t) (s : RelayState) : bool :=
  defer_clean_terminal_errors relay &&
  match terminal with RelayTerminal.Error _ (Some true) => true | _ => false end &&
  negb (bool_decide (terminal_code terminal = Some AgentErrorCode.UserLlmProviderModelNotFound)) &&
  safe_to_auto_replay (summary s).

Definition record_error (deferred : bool) (e : AgentStreamEvent.t) (s : RelayState) : RelayState :=
  match e with
  | AgentStreamEvent.Error data => on_summary (saw_error data deferred) s
  | _ => s
  end.

(** The common end of the two ways out. *)
Definition conclude (deleting : bool) (e : AgentStreamEvent.t) (terminal : RelayTerminal.t) (s : RelayState)
    : M RelayOutcome :=
  let* responses :=
    if deleting then st_ret [] else finalize (full_text_buffer s) (text_segments s) e in
  (if complete_turn relay && negb deleting then complete_conversation (adapter relay) None else st_ret tt);;
  st_ret (mkOutcome responses terminal (final_summary s)).

Definition handle_terminal (deleting : bool) (e : AgentStreamEvent.t) (s : RelayState) : M RelayOutcome :=
  let terminal := terminal_from_event e in
  if defers terminal s then st_ret (mkOutcome [] terminal (summary (record_error true e s)))
  else
    let* s := if deleting then st_ret s
              else close_segments (if is_error_event e then "error" else "finish") s in
    forward_to_websocket e;;
    conclude deleting e terminal (record_error false e s).

Definition handle_closed (s : RelayState) : M RelayOutcome :=
  let* deleting := relay_is_deleting in
  let* s := if deleting then st_ret s else close_segments "finish" s in
  conclude deleting (AgentStreamEvent.Finish None) RelayTerminal.ChannelClosed s.

(** *** The other events *)

Definition handle_tool (e : AgentStreamEvent.t) (persist : M unit) (s : RelayState) : M RelayState :=
  let* s := close_segments "finish" (on_summary saw_side_effect s) in
  forward_to_websocket e;;
  persist;;
  st_ret s.

Definition handle_tips (data : TipsEventData) (s : RelayState) : M RelayState :=
  let s := on_summary (saw_visible (bool_decide (tip_type data = TipType.Success))) s in
  let s := on_summary (saw_auth_needed (bool_decide (tip_code data = Some "ACP_EMPTY_TURN_NEEDS_AUTH"))) s in
  forward_to_websocket (AgentStreamEvent.Tips data);;
  (if bool_decide (tip_type data = TipType.Error) then st_ret tt else persist_tip (adapter relay) data);;
  st_ret s.

(** What is no terminal event. *)
Definition handle_progress (e : AgentStreamEvent.t) (s : RelayState) : M RelayState :=
  match e with
  | AgentStreamEvent.SegmentBreak => close_segments "finish" s
  | AgentStreamEvent.Thinking data => handle_thinking data s
  | AgentStreamEvent.Text content => handle_text content s
  | AgentStreamEvent.ToolCall data => handle_tool e (persist_tool_call (adapter relay) data) s
  | AgentStreamEvent.AcpToolCall data => handle_tool e (persist_acp_tool_call (adapter relay) data) s
  | AgentStreamEvent.ToolGroup entries => handle_tool e (persist_tool_group (adapter relay) entries) s
  | AgentStreamEvent.Tips data => handle_tips data s
  | AgentStreamEvent.CronTrigger _ | AgentStreamEvent.Permission _ | AgentStreamEvent.AcpPermission _ =>
      forward_to_websocket e;; st_ret (on_summary saw_side_effect s)
  | _ => forward_to_websocket e;; st_ret s
  end.

(** *** The loop *)

(** [RecvError::Lagged] or an event. *)
Inductive Delivery : Type :=
| Received (e : AgentStreamEvent.t)
| Lagged (missed : N)
| Closed.

(** One turn of the loop: it goes on, or the relay returns. *)
Definition handle_delivery (d : Delivery) (s : RelayState) : M (RelayState + RelayOutcome) :=
  match d with
  | Received e =>
      let* deleting := relay_is_deleting in
      if is_terminal_event e then let* o := handle_terminal deleting e s in st_ret (inr o)
      else if deleting then st_ret (inl s)
      else let* s := handle_progress e s in st_ret (inl s)
  | Lagged _ => st_ret (inl s)
  | Closed => let* o := handle_closed s in st_ret (inr o)
  end.

Fixpoint relay_loop (ds : list Delivery) (s : RelayState) : M (RelayState + RelayOutcome) :=
  match ds with
  | [] => st_ret (inl s)
  | d :: ds =>
      let* r := handle_delivery d s in
      match r with inl s => relay_loop ds s | inr o => st_ret (inr o) end
  end.

(** A stream that ends: its deliveries, then the closing of the channel. *)
Fixpoint consume (ds : list Delivery) (s : RelayState) : M RelayOutcome :=
  match ds with
  | [] => handle_closed s
  | d :: ds =>
      let* r := handle_delivery d s in
      match r with inl s => consume ds s | inr o => st_ret o end
  end.

(** *** Choosing the next delivery

    The receiver's queue, in which a gap is a [Lagged]; whether the senders are
    gone; and the send: running, over, or failed. *)
Inductive SendResult : Type :=
| Sending
| SendOver
| SendFailed (err : ErrorEventData).

Record Channel : Type := mkChannel {
  queue : list Delivery;
  closed : bool;
  send_result : SendResult;
}.

(** [send_error_done] and [pending_send_error]. *)
Record Poll : Type := mkPoll {
  send_error_done : bool;
  pending_send_error : option ErrorEventData;
}.

(** The select blocks, [continue]s, or delivers. *)
Inductive Selected : Type :=
| Blocked
| Again (p : Poll)
| Deliver (d : Delivery) (c : Channel) (p : Poll).

Definition recv (c : Channel) (p : Poll) : Selected :=
  match queue c with
  | d :: q => Deliver d (mkChannel q (closed c) (send_result c)) p
  | [] => if closed c then Deliver Closed c p else Blocked
  end.

(** With a failed send at hand, the queue is drained first; a lag loses it,
    because it was taken. *)
Definition recv_pending (err : ErrorEventData) (c : Channel) : Selected :=
  match queue c with
  | Received e :: q =>
      Deliver (Received e) (mkChannel q (closed c) (send_result c))
        (mkPoll true (if is_terminal_event e then None else Some err))
  | d :: q => Deliver d (mkChannel q (closed c) (send_result c)) (mkPoll true None)
  | [] => Deliver (Received (AgentStreamEvent.Error err)) c (mkPoll true None)
  end.

(** [select!]: if both are ready, either may be taken. *)
Definition next_delivery (prefer_stream : bool) (c : Channel) (p : Poll) : Selected :=
  if send_error_done p then
    match pending_send_error p with
    | Some err => recv_pending err c
    | None => recv c p
    end
  else
    match send_result c with
    | Sending => recv c p
    | _ =>
        match recv c p with
        | Deliver d c p => if prefer_stream then Deliver d c p else
            Again (mkPoll true (match send_result c with SendFailed err => Some err | _ => None end))
        | _ => Again (mkPoll true (match send_result c with SendFailed err => Some err | _ => None end))
        end
    end.

(** The relay with its channel, running or returned. *)
Inductive Live : Type :=
| Running (c : Channel) (p : Poll) (s : RelayState) (w : World (E:=E))
| Returned (o : RelayOutcome) (w : World (E:=E)).

Definition relay_turn (l : Live) (prefer_stream : bool) : Live :=
  match l with
  | Running c p s w =>
      match next_delivery prefer_stream c p with
      | Blocked => l
      | Again p => Running c p s w
      | Deliver d c p =>
          match handle_delivery d s w with
          | (inl s, w) => Running c p s w
          | (inr o, w) => Returned o w
          end
      end
  | Returned _ _ => l
  end.

(** The relay takes its turns; in between the agent sends, the receiver falls
    behind, the senders go away, the send ends. *)
Inductive live_step : Live -> Live -> Prop :=
| live_turn prefer_stream l : live_step l (relay_turn l prefer_stream)
| live_event e q b r p s w :
    live_step (Running (mkChannel q b r) p s w) (Running (mkChannel (q ++ [Received e]) b r) p s w)
| live_lag n q q' b r p s w :
    live_step (Running (mkChannel (q ++ q') b r) p s w) (Running (mkChannel (Lagged n :: q') b r) p s w)
| live_close q r p s w : live_step (Running (mkChannel q false r) p s w) (Running (mkChannel q true r) p s w)
| live_sent q b r p s w :
    live_step (Running (mkChannel q b Sending) p s w) (Running (mkChannel q b r) p s w).

Definition consume_start (q : list Delivery) (w : World (E:=E)) : Live :=
  Running (mkChannel q false Sending) (mkPoll false None) RelayState_start w.
End StreamRelay.

(** ** The loop and its channel *)
Section Loop.
Context `{Printed} {E : Type} `{!TurnEnv E} (relay : StreamRelay).

Lemma relay_loop_app ds d s (w : World (E:=E)) :
  relay_loop relay (ds ++ [d]) s w =
    match relay_loop relay ds s w with
    | (inl s', w') => handle_delivery relay d s' w'
    | r => r
    end.
Proof.
  revert s w. induction ds as [|d' ds IH]; intros s w; simpl.
  - unfold st_bind. destruct (handle_delivery relay d s w) as [[s'|o] w']; done.
  - unfold st_bind. destruct (handle_delivery relay d' s w) as [[s'|o] w']; [apply IH|done].
Qed.

Lemma consume_loop ds s (w w' : World (E:=E)) o :
  relay_loop relay ds s w = (inr o, w') -> consume relay ds s w = (o, w').
Proof.
  revert s w. induction ds as [|d ds IH]; intros s w; simpl; [done|].
  unfold st_bind. destruct (handle_delivery relay d s w) as [[s'|o'] w1]; [apply IH|]. by intros [= -> ->].
Qed.

Lemma handle_terminal_terminal deleting e s (w : World (E:=E)) :
  terminal (fst (handle_terminal relay deleting e s w)) = terminal_from_event e.
Proof.
  apply (fun m H => H : triple (fun _ => True) m (fun o _ => terminal o = terminal_from_event e)); [|done].
  unfold handle_terminal, conclude. destruct (defers _ _ _); [done|].
  repeat (apply (triple_bind _ _ _ (fun _ _ => True)); [done|intros ?]). done.
Qed.

Lemma handle_terminal_delivery e s (w : World (E:=E)) :
  is_terminal_event e = true ->
  exists o w', handle_delivery relay (Received e) s w = (inr o, w') /\ terminal o = terminal_from_event e.
Proof.
  intros He. simpl. unfold st_bind. destruct (relay_is_deleting relay w) as [deleting w1]. rewrite He.
  pose proof (handle_terminal_terminal deleting e s w1) as Ht.
  destruct (handle_terminal relay deleting e s w1) as [o w2]. by exists o, w2.
Qed.

Lemma handle_progress_delivery e s (w : World (E:=E)) :
  is_terminal_event e = false -> exists s' w', handle_delivery relay (Received e) s w = (inl s', w').
Proof.
  intros He. simpl. unfold st_bind. destruct (relay_is_deleting relay w) as [deleting w1]. rewrite He.
  destruct deleting; [by do 2 eexists|]. destruct (handle_progress relay e s w1) as [s' w2]. by do 2 eexists.
Qed.

(** *** Every live run is a run of the function *)

Definition followed (w0 : World (E:=E)) (l : Live) : Prop :=
  match l with
  | Running _ _ s w => exists ds, relay_loop relay ds RelayState_start w0 = (inl s, w)
  | Returned o w => exists ds, consume relay ds RelayState_start w0 = (o, w)
  end.

Lemma live_step_followed w0 l l' : followed w0 l -> live_step relay l l' -> followed w0 l'.
Proof.
  intros Hl Hstep. destruct Hstep as [prefer l| | | |]; try exact Hl.
  destruct l as [c p s w|o w]; [|exact Hl]. simpl. destruct (next_delivery prefer c p) as [|p'|d c' p']; [exact Hl..|].
  destruct Hl as [ds Hds]. pose proof (relay_loop_app ds d RelayState_start w0) as Happ. rewrite Hds in Happ.
  destruct (handle_delivery relay d s w) as [[s'|o] w']; exists (ds ++ [d]); [done|by apply consume_loop].
Qed.

Lemma live_followed q w0 l : rtc (live_step relay) (consume_start q w0) l -> followed w0 l.
Proof.
  intros Hrun. assert (Hstart : followed w0 (consume_start q w0)) by (by exists []).
  revert Hstart. induction Hrun as [|l1 l2 l3 Hstep _ IH]; [done|]. intros Hl. apply IH. by eapply live_step_followed.
Qed.

(** *** A failed send *)

Definition first_terminal (es : list AgentStreamEvent.t) (err : ErrorEventData) : RelayTerminal.t :=
  match List.find is_terminal_event es with
  | Some e => terminal_from_event e
  | None => terminal_from_event (AgentStreamEvent.Error err)
  end.

Lemma turns_returned (o : RelayOutcome) (w : World (E:=E)) prefs :
  run_list (relay_turn relay) (Returned o w) prefs = Returned o w.
Proof. by induction prefs. Qed.

Definition ends_with (l : Live) (terminal' : RelayTerminal.t) : Prop :=
  exists o (w : World (E:=E)), l = Returned o w /\ terminal o = terminal'.

(** The event at the head of the queue is handled. *)
Lemma head_turn e es err c p p' (s : RelayState) (w : World (E:=E)) prefer prefs :
  next_delivery prefer c p = Deliver (Received e) (mkChannel (map Received es) (closed c) (send_result c)) p' ->
  (is_terminal_event e = false -> forall s' w', ends_with
     (run_list (relay_turn relay) (Running (mkChannel (map Received es) (closed c) (send_result c)) p' s' w') prefs)
     (first_terminal es err)) ->
  ends_with (run_list (relay_turn relay) (Running c p s w) (prefer :: prefs)) (first_terminal (e :: es) err).
Proof.
  intros Hnext Hgo. rewrite run_list_cons. unfold relay_turn at 2. rewrite Hnext. unfold first_terminal. cbn [List.find].
  destruct (is_terminal_event e) eqn:He.
  - destruct (handle_terminal_delivery e s w He) as (o & w' & -> & Ht). exists o, w'. by rewrite turns_returned.
  - destruct (handle_progress_delivery e s w He) as (s' & w' & ->). by apply Hgo.
Qed.

Lemma pending_drains es b r err (s : RelayState) (w : World (E:=E)) prefs :
  length es < length prefs ->
  ends_with (run_list (relay_turn relay)
    (Running (mkChannel (map Received es) b r) (mkPoll true (Some err)) s w) prefs) (first_terminal es err).
Proof.
  revert s w prefs. induction es as [|e es IH]; intros s w [|prefer prefs]; cbn [length map]; try lia; intros Hlen.
  - rewrite run_list_cons. unfold relay_turn at 2. cbn [next_delivery send_error_done pending_send_error recv_pending queue map].
    destruct (handle_terminal_delivery (AgentStreamEvent.Error err) s w eq_refl) as (o & w' & -> & Ht). exists o, w'. by rewrite turns_returned.
  - eapply head_turn; [reflexivity|]. intros -> s' w'. apply IH. lia.
Qed.

Lemma failed_send_drains es err (s : RelayState) (w : World (E:=E)) prefs :
  length es + 2 <= length prefs ->
  ends_with (run_list (relay_turn relay)
    (Running (mkChannel (map Received es) false (SendFailed err)) (mkPoll false None) s w) prefs) (first_terminal es err).
Proof.
  revert s w prefs. induction es as [|e es IH]; intros s w [|prefer prefs]; cbn [length map]; try lia; intros Hlen.
  - rewrite run_list_cons. apply (pending_drains [] false (SendFailed err)). simpl. lia.
  - destruct prefer.
    + eapply head_turn; [reflexivity|]. intros _ s' w'. apply IH. lia.
    + rewrite run_list_cons. apply (pending_drains (e :: es) false (SendFailed err)). simpl. lia.
Qed.
End Loop.

(** ** What the summary tells *)
Section Summary.
Context `{Printed} {E : Type} `{!TurnEnv E} (relay : StreamRelay).
#[local] Abbreviation World := (World (E:=E)).

(** An event in the summary. *)
Definition note_event (e : AgentStreamEvent.t) (a : TurnAttemptSummary) : TurnAttemptSummary :=
  match e with
  | AgentStreamEvent.Text content => saw_visible (negb (bool_decide (content = ""))) a
  | AgentStreamEvent.Thinking data =>
      if bool_decide (thinking_status data = Some "done") then a
      else saw_visible (negb (bool_decide (thinking_content data = ""))) a
  | AgentStreamEvent.ToolCall _ | AgentStreamEvent.AcpToolCall _ | AgentStreamEvent.ToolGroup _
  | AgentStreamEvent.CronTrigger _ | AgentStreamEvent.Permission _ | AgentStreamEvent.AcpPermission _ =>
      saw_side_effect a
  | AgentStreamEvent.Tips data =>
      saw_auth_needed (bool_decide (tip_code data = Some "ACP_EMPTY_TURN_NEEDS_AUTH"))
        (saw_visible (bool_decide (tip_type data = TipType.Success)) a)
  | _ => a
  end.

Definition summary_is (a : TurnAttemptSummary) (s : RelayState) (_ : World) : Prop := summary s = a.

Lemma summary_complete_thinking s (P : World -> Prop) :
  triple P (complete_active_thinking relay s) (summary_is (summary s)).
Proof. unfold complete_active_thinking. destruct (active_thinking s); repeat (apply triple_skip; intros); done. Qed.

Lemma summary_close_text status s (P : World -> Prop) :
  triple P (close_active_text_segment relay status s) (summary_is (summary s)).
Proof.
  unfold close_active_text_segment. destruct (active_text s); [|done]. apply triple_skip. intros [id|]; done.
Qed.

Lemma summary_close status s (P : World -> Prop) :
  triple P (close_segments relay status s) (summary_is (summary s)).
Proof.
  eapply triple_bind; [apply summary_complete_thinking|]. intros s' w Hs. unfold summary_is in Hs. rewrite <- Hs.
  by apply (summary_close_text status s' (fun _ => True)).
Qed.

Lemma summary_mint s (P : World -> Prop) :
  triple P (mint_segment_msg_id relay s) (fun x _ => summary (snd x) = summary s).
Proof. unfold mint_segment_msg_id. destruct (used_primary s); [|done]. by apply triple_skip. Qed.

Lemma summary_segment {A} (o : option A) s (make : string -> Z -> A) :
  triple (fun _ : World => True)
    (match o with
     | Some segment => st_ret (segment, s)
     | None => let* (id, s) := mint_segment_msg_id relay s in let* now := ask now_ms in st_ret (make id now, s)
     end) (fun x _ => summary (snd x) = summary s).
Proof.
  destruct o; [done|]. eapply triple_bind; [apply summary_mint|].
  intros [id s'] w Hs. unfold st_bind. destruct (ask now_ms w). exact Hs.
Qed.

Lemma summary_store segment s (P : World -> Prop) :
  triple P (store_text relay segment s) (summary_is (summary s)).
Proof. unfold store_text. destruct (_ <=? _)%N; [|done]. by apply triple_skip. Qed.

Lemma summary_text content s (P : World -> Prop) :
  triple P (handle_text relay content s) (summary_is (note_event (AgentStreamEvent.Text content) (summary s))).
Proof.
  unfold handle_text. eapply triple_bind; [apply summary_complete_thinking|]. intros s1 w <-. revert w.
  set (s2 := on_summary _ s1). enough (Hgo : forall w, summary (fst ((let* (segment, s3) := text_segment relay s2 in
    forward_with_msg_id (text_id segment) (AgentStreamEvent.Text content);;
    store_text relay (append_text segment content) (add_text content s3)) w)) = summary s2) by (intros w; apply Hgo).
  intros w. apply triple_answer.
  eapply triple_bind; [apply (summary_segment (active_text s2) s2 (fun id now => mkTextSegment id "" now false 0))|].
  intros [segment s3] w' Hs. unfold st_bind. destruct (forward_with_msg_id _ _ w') as [u w1].
  pose proof (summary_store (append_text segment content) (add_text content s3) (fun _ => True) w1 I) as Hst.
  unfold summary_is in Hst. simpl in *. congruence.
Qed.

Lemma summary_thinking data s (P : World -> Prop) :
  triple P (handle_thinking relay data s) (summary_is (note_event (AgentStreamEvent.Thinking data) (summary s))).
Proof.
  unfold handle_thinking. simpl. case_bool_decide; [apply summary_complete_thinking|].
  eapply triple_bind; [apply summary_close_text|]. intros s1 w <-. revert w. set (s2 := on_summary _ s1).
  enough (Hgo : forall w, summary (fst ((let* (segment, s3) := thinking_segment relay s2 in
    forward_with_msg_id (thinking_id (append_thinking segment (thinking_content data))) (AgentStreamEvent.Thinking data);;
    st_ret (set_thinking (Some (append_thinking segment (thinking_content data))) s3)) w)) = summary s2)
    by (intros w; apply Hgo).
  intros w. apply triple_answer.
  eapply triple_bind; [apply (summary_segment (active_thinking s2) s2 (fun id now => mkThinkingSegment id "" now))|].
  intros [segment s3] w' Hs. unfold st_bind. by destruct (forward_with_msg_id _ _ w').
Qed.

Lemma summary_tool e persist s (P : World -> Prop) :
  triple P (handle_tool relay e persist s) (summary_is (saw_side_effect (summary s))).
Proof.
  unfold handle_tool. eapply triple_bind; [apply summary_close|]. intros s1 w Hs. unfold st_bind.
  destruct (forward_to_websocket relay e w) as [u w1]. destruct (persist w1). exact Hs.
Qed.

(** The summary is what the events seen make of it. *)
Lemma summary_progress e s (w : World) :
  summary (fst (handle_progress relay e s w)) = note_event e (summary s).
Proof.
  assert (Hgo : triple (fun _ => True) (handle_progress relay e s) (summary_is (note_event e (summary s)))); [|by apply (Hgo w)].
  destruct e; simpl; try (by apply triple_skip); try apply summary_tool;
    [apply summary_text| |apply summary_thinking|apply summary_close].
  unfold handle_tips. by repeat (apply triple_skip; intros).
Qed.
End Summary.

(** ** Replays are silent

    [quiet w0]: since [w0] only frames without output were sent, and only tips
    were written. *)
Section Silent.
Context `{Printed} {E : Type} `{!TurnEnv E} (relay : StreamRelay).
#[local] Abbreviation World := (World (E:=E)).

(** An event that shows no output and no effect of the agent's work. *)
Definition quiet_event (e : AgentStreamEvent.t) : bool :=
  match e with
  | AgentStreamEvent.Text content => bool_decide (content = "")
  | AgentStreamEvent.Thinking data => bool_decide (thinking_content data = "")
  | AgentStreamEvent.Tips data => negb (bool_decide (tip_type data = TipType.Success))
  | AgentStreamEvent.ToolCall _ | AgentStreamEvent.AcpToolCall _ | AgentStreamEvent.ToolGroup _
  | AgentStreamEvent.CronTrigger _ | AgentStreamEvent.Permission _ | AgentStreamEvent.AcpPermission _
  | AgentStreamEvent.Finish _ | AgentStreamEvent.Error _ => false
  | _ => true
  end.

Definition quiet_frame (f : Frame.t) : bool :=
  match f with Frame.Event _ e => quiet_event e | _ => false end.

Record quiet (w0 w : World) : Prop := {
  quiet_frames : exists fs, frames w = frames w0 ++ fs /\ forallb quiet_frame fs = true;
  quiet_kept : messages w0 ⊆ messages w;
  quiet_new : forall id r, messages w !! id = Some r -> messages w0 !! id = Some r \/ row_type r = "tips";
  quiet_status : conversation_status w = conversation_status w0;
}.

Lemma quiet_refl w : quiet w w.
Proof. split; [exists []; by rewrite app_nil_r|done|by left|done]. Qed.

Lemma quiet_trans w0 w1 w2 : quiet w0 w1 -> quiet w1 w2 -> quiet w0 w2.
Proof.
  intros [(fs & F1 & F2) K N S] [(fs' & F1' & F2') K' N' S']. split.
  - exists (fs ++ fs'). by rewrite F1', F1, app_assoc, forallb_app, F2, F2'.
  - by etrans.
  - intros id r Hr. destruct (N' id r Hr) as [Ho|]; [by apply N|by right].
  - by rewrite S'.
Qed.

Lemma quiet_ask {A} (f : E -> A * E) w0 : triple (quiet w0) (ask f) (fun _ => quiet w0).
Proof. intros w [F K N S]. unfold ask. destruct (f (env w)) as [a e]. by split. Qed.

Lemma quiet_broadcast f w0 : quiet_frame f = true -> triple (quiet w0) (broadcast f) (fun _ => quiet w0).
Proof.
  intros Hf w Hw. eapply quiet_trans; [exact Hw|]. split; [|done|by left|done].
  exists [f]. split; [done|]. simpl. by rewrite Hf.
Qed.

Lemma quiet_insert row w0 : row_type row = "tips" -> triple (quiet w0) (insert_message row) (fun _ => quiet w0).
Proof.
  intros Hr. unfold insert_message. eapply triple_bind; [apply quiet_ask|]. intros failed w Hw.
  destruct (failed || _) eqn:Hf; [done|]. apply orb_false_iff in Hf as [_ Hf]. case_bool_decide as Hnew; [done|].
  apply eq_None_not_Some in Hnew. eapply quiet_trans; [exact Hw|]. split; simpl.
  - exists []. by rewrite app_nil_r.
  - by apply insert_subseteq.
  - intros id r Hl. destruct (decide (row_id row = id)) as [<-|Hne].
    + rewrite lookup_insert_eq in Hl. injection Hl as <-. by right.
    + rewrite lookup_insert_ne in Hl by done. by left.
  - done.
Qed.

Lemma quiet_allowed a kind m w0 : triple (quiet w0) m (fun _ => quiet w0) ->
  triple (quiet w0) (when_allowed a kind m) (fun _ => quiet w0).
Proof.
  intros Hm. unfold when_allowed, allows_write, coordinator_allows.
  eapply (triple_bind _ _ _ (fun _ => quiet w0)); [|intros []; [exact Hm|by intros w]].
  destruct (has_persistence a); [|by intros w]. eapply triple_bind; [apply quiet_ask|]. by intros rt w.
Qed.

Lemma quiet_tip a data w0 : triple (quiet w0) (persist_tip a data) (fun _ => quiet w0).
Proof.
  apply quiet_allowed. eapply triple_bind; [apply quiet_ask|]. intros id.
  eapply triple_bind; [apply quiet_ask|]. intros now.
  eapply triple_bind; [by apply quiet_insert|]. intros b w Hw. exact Hw.
Qed.

(** Nothing has been gathered. *)
Definition blank (s : RelayState) : Prop :=
  full_text_buffer s = "" /\ match active_text s with Some t => text_buffer t = "" | None => True end /\
  match active_thinking s with Some t => thinking_buffer t = "" | None => True end.

Definition blank_then (w0 : World) (s : RelayState) (w : World) : Prop := blank s /\ quiet w0 w.

Lemma quiet_flush a seg w0 : text_buffer seg = "" ->
  triple (quiet w0) (flush_text_segment a seg) (fun seg' w => text_buffer seg' = "" /\ quiet w0 w).
Proof.
  intros Hb. unfold flush_text_segment, allows_write, coordinator_allows.
  eapply (triple_bind _ _ _ (fun _ => quiet w0)).
  - destruct (has_persistence a); [|by intros w]. eapply triple_bind; [apply quiet_ask|]. by intros rt w.
  - intros ok. rewrite bool_decide_true, orb_true_r by done. by intros w Hw.
Qed.

Lemma quiet_complete_thinking s w0 : blank s ->
  triple (quiet w0) (complete_active_thinking relay s) (blank_then w0).
Proof.
  intros (Hf & Ht & Hk). unfold complete_active_thinking. destruct (active_thinking s) as [seg|] eqn:Hs.
  - eapply triple_bind; [apply quiet_ask|]. intros now.
    eapply triple_bind; [by apply quiet_broadcast|]. intros [].
    eapply (triple_bind _ _ _ (fun _ => quiet w0)).
    + unfold persist_thinking_segment. rewrite bool_decide_true by done. by intros w.
    + intros [] w Hw. by split.
  - intros w Hw. split; [|done]. unfold blank. simpl. by rewrite Hs.
Qed.

Lemma quiet_close_text status s w0 : blank s ->
  triple (quiet w0) (close_active_text_segment relay status s) (blank_then w0).
Proof.
  intros (Hf & Ht & Hk). unfold close_active_text_segment. destruct (active_text s) as [seg|] eqn:Hs.
  - eapply (triple_bind _ _ _ (fun o w => o = None /\ quiet w0 w)).
    + unfold finalize_text_segment, allows_write, coordinator_allows.
      eapply (triple_bind _ _ _ (fun _ => quiet w0)).
      * destruct (has_persistence (adapter relay)); [|by intros w].
        eapply triple_bind; [apply quiet_ask|]. by intros rt w.
      * intros ok. rewrite bool_decide_true, orb_true_r by done. by intros w Hw.
    + intros o w [-> Hw]. by split.
  - intros w Hw. split; [|done]. unfold blank. simpl. by rewrite Hs.
Qed.

Lemma quiet_close status s w0 : blank s -> triple (quiet w0) (close_segments relay status s) (blank_then w0).
Proof.
  intros Hb. eapply triple_bind; [by apply quiet_complete_thinking|]. intros s1. apply triple_pure.
  apply quiet_close_text.
Qed.

Lemma quiet_mint s w0 :
  triple (quiet w0) (mint_segment_msg_id relay s) (fun x w => (blank s -> blank (snd x)) /\ quiet w0 w).
Proof.
  unfold mint_segment_msg_id. destruct (used_primary s); [|by intros w].
  eapply triple_bind; [apply quiet_ask|]. by intros id w Hw.
Qed.

(** The segment for more text or thinking, [make] when there is none. *)
Lemma quiet_segment {A} (o : option A) (blank_segment : A -> Prop) make s w0 :
  match o with Some seg => blank_segment seg | None => True end ->
  (forall id now, blank_segment (make id now)) ->
  triple (quiet w0)
    (match o with
     | Some segment => st_ret (segment, s)
     | None => let* (id, s) := mint_segment_msg_id relay s in let* now := ask now_ms in st_ret (make id now, s)
     end) (fun x w => (blank_segment (fst x) /\ (blank s -> blank (snd x))) /\ quiet w0 w).
Proof.
  intros Ho Hmake. destruct o as [seg|]; [by intros w|].
  eapply triple_bind; [apply quiet_mint|]. intros [id s1]. apply triple_pure. intros Hs.
  eapply triple_bind; [apply quiet_ask|]. intros now w Hw. split; [split; [apply Hmake|exact Hs]|exact Hw].
Qed.

Lemma quiet_text s w0 : blank s -> triple (quiet w0) (handle_text relay "" s) (blank_then w0).
Proof.
  intros Hb. unfold handle_text. eapply triple_bind; [by apply quiet_complete_thinking|].
  intros s1. apply triple_pure. intros Hb1. set (s2 := on_summary _ s1). assert (Hb2 : blank s2) by exact Hb1.
  eapply triple_bind.
  { apply (quiet_segment (active_text s2) (fun t => text_buffer t = "") (fun id now => mkTextSegment id "" now false 0));
      [apply Hb2|done]. }
  intros [seg s3]. apply triple_pure. intros [Hseg Hb3]. specialize (Hb3 Hb2). destruct Hb3 as (F3 & _ & K3). simpl in Hseg.
  eapply triple_bind; [by apply quiet_broadcast|]. intros [].
  assert (Happ : text_buffer (append_text seg "") = "") by (simpl; by rewrite Hseg).
  assert (Hfull : full_text_buffer (add_text "" s3) = "") by (simpl in *; by rewrite F3).
  unfold store_text. destruct (_ <=? _)%N; [|by intros w Hw].
  eapply triple_bind; [by apply quiet_flush|]. intros seg'. apply triple_pure. by intros Hseg' w Hw.
Qed.

Lemma quiet_thinking data s w0 : blank s -> thinking_content data = "" ->
  triple (quiet w0) (handle_thinking relay data s) (blank_then w0).
Proof.
  intros Hb Hd. unfold handle_thinking. case_bool_decide; [by apply quiet_complete_thinking|].
  eapply triple_bind; [by apply quiet_close_text|].
  intros s1. apply triple_pure. intros Hb1. set (s2 := on_summary _ s1). assert (Hb2 : blank s2) by exact Hb1.
  eapply triple_bind.
  { apply (quiet_segment (active_thinking s2) (fun t => thinking_buffer t = "") (fun id now => mkThinkingSegment id "" now));
      [apply Hb2|done]. }
  intros [seg s3]. apply triple_pure. intros [Hseg Hb3]. specialize (Hb3 Hb2). destruct Hb3 as (F3 & T3 & _). simpl in Hseg.
  eapply triple_bind; [apply quiet_broadcast; simpl; by rewrite Hd|]. intros [] w Hw.
  split; [|done]. split; [done|]. split; [done|]. simpl. by rewrite Hseg, Hd.
Qed.

(** ** The loop *)

Lemma note_unsafe e a : safe_to_auto_replay a = false -> safe_to_auto_replay (note_event e a) = false.
Proof.
  unfold safe_to_auto_replay. destruct a as [v t p err d n]. simpl. intros Ha.
  destruct e; simpl; repeat case_bool_decide; simpl; destruct v, t, p; done.
Qed.

Lemma quiet_progress e s w0 : blank s -> safe_to_auto_replay (note_event e (summary s)) = true ->
  is_terminal_event e = false -> triple (quiet w0) (handle_progress relay e s) (blank_then w0).
Proof.
  intros Hb Hsafe Ht. unfold safe_to_auto_replay in Hsafe.
  destruct e as [| |data|data|data|entries| |data| | | | | | | | | | | | | |sid|data| | | |]; simpl in *; try done;
    try (by rewrite ?andb_false_r in Hsafe);
    try (eapply triple_bind; [by apply quiet_broadcast|]; intros [] w Hw; by split).
  - case_bool_decide as Hc; [|by rewrite orb_true_r in Hsafe]. subst. by apply quiet_text.
  - unfold handle_tips. case_bool_decide as Hc; [by rewrite orb_true_r in Hsafe|].
    eapply triple_bind; [apply quiet_broadcast; simpl; by rewrite bool_decide_false|]. intros [].
    eapply (triple_bind _ _ _ (fun _ => quiet w0)); [case_bool_decide; [by intros w|apply quiet_tip]|].
    intros [] w Hw. by split.
  - case_bool_decide as Hd; [by unfold handle_thinking; rewrite bool_decide_true; [apply quiet_complete_thinking|]|].
    simpl in Hsafe. case_bool_decide as Hc; [by apply quiet_thinking|by rewrite orb_true_r in Hsafe].
  - by apply quiet_close.
Qed.

Lemma quiet_is_deleting w0 : triple (quiet w0) (relay_is_deleting relay) (fun _ => quiet w0).
Proof.
  unfold relay_is_deleting. destruct (has_runtime_state relay); [|by intros w].
  eapply triple_bind; [apply quiet_ask|]. by intros rt w.
Qed.

Lemma note_deferred e a : terminal_error_deferred (note_event e a) = terminal_error_deferred a.
Proof. destruct e; simpl; repeat case_bool_decide; done. Qed.

(** What holds as long as the loop goes on. *)
Definition silent (w0 : World) (s : RelayState) (w : World) : Prop :=
  terminal_error_deferred (summary s) = false /\
  (safe_to_auto_replay (summary s) = true -> blank s /\ quiet w0 w).

(** What holds of the outcome. *)
Record deferred_outcome (w0 : World) (o : RelayOutcome) (w : World) : Prop := {
  deferred_quiet : quiet w0 w;
  deferred_safe : safe_to_auto_replay (attempt o) = true;
  deferred_wanted : defer_clean_terminal_errors relay = true;
  deferred_no_responses : system_responses o = [];
  deferred_error : exists err, terminal_error (attempt o) = Some err /\
    terminal o = RelayTerminal.Error (code err) (Some true);
}.
Definition silent_end (w0 : World) (o : RelayOutcome) (w : World) : Prop :=
  terminal_error_deferred (attempt o) = true -> deferred_outcome w0 o w.

Lemma conclude_not_deferred deleting e terminal' s w0 (P : World -> Prop) :
  terminal_error_deferred (summary s) = false -> triple P (conclude relay deleting e terminal' s) (silent_end w0).
Proof.
  intros Hs. unfold conclude. do 2 (apply triple_skip; intros). intros w _ Hdef. simpl in Hdef. by rewrite Hs in Hdef.
Qed.

Lemma close_keeps_deferred (deleting : bool) status s (P : World -> Prop) :
  triple P (if deleting then st_ret s else close_segments relay status s)
    (fun s' _ => terminal_error_deferred (summary s') = terminal_error_deferred (summary s)).
Proof.
  destruct deleting; [done|]. eapply triple_post; [apply summary_close|]. by intros s' w ->.
Qed.

Lemma undeferred_end deleting e s w0 :
  terminal_error_deferred (summary s) = false -> defers relay (terminal_from_event e) s = false ->
  triple (fun _ : World => True) (handle_terminal relay deleting e s) (silent_end w0).
Proof.
  intros Hd Hdef. unfold handle_terminal. rewrite Hdef. eapply triple_bind; [apply close_keeps_deferred|].
  intros s' w Hs'. apply (triple_skip (fun _ => True) _ _ (silent_end w0)); [|done]. intros _.
  apply conclude_not_deferred. destruct e; simpl; rewrite ?orb_false_r; congruence.
Qed.

Lemma silent_terminal deleting e s w0 : triple (silent w0 s) (handle_terminal relay deleting e s) (silent_end w0).
Proof.
  intros w [Hd Hs]. destruct (defers relay (terminal_from_event e) s) eqn:Hdef; [|by apply undeferred_end].
  unfold handle_terminal. rewrite Hdef. intros _. unfold defers in Hdef.
  apply andb_true_iff in Hdef as [[[Hw Ht]%andb_true_iff _]%andb_true_iff Hsafe].
  destruct e as [| | | | | | | | | | | | | | | | | | | | | |data| | | |]; try done. simpl in *.
  destruct (retryable data) as [[]|] eqn:Hr; try done. split; simpl; try done.
  - apply Hs, Hsafe.
  - by exists data.
Qed.

Definition silent_next (w0 : World) (r : RelayState + RelayOutcome) (w : World) : Prop :=
  match r with inl s => silent w0 s w | inr o => silent_end w0 o w end.

Lemma silent_closed s w0 : triple (silent w0 s) (handle_closed relay s) (silent_end w0).
Proof.
  intros w [Hd _]. unfold handle_closed. apply (triple_skip (fun _ => True) _ _ (silent_end w0)); [|done]. intros deleting.
  eapply triple_bind; [apply close_keeps_deferred|]. intros s' w' Hs'.
  apply (conclude_not_deferred deleting (AgentStreamEvent.Finish None) _ s' w0 (fun _ => True)); [congruence|done].
Qed.

Lemma silent_progress e s w0 : is_terminal_event e = false ->
  triple (silent w0 s) (handle_progress relay e s) (silent w0).
Proof.
  intros He w [Hd Hs]. pose proof (summary_progress relay e s w) as Hsum. split; [by rewrite Hsum, note_deferred|].
  rewrite Hsum. intros Hsafe. destruct (safe_to_auto_replay (summary s)) eqn:Hold.
  - destruct (Hs eq_refl) as [Hb Hq]. by apply (quiet_progress e s w0).
  - by rewrite note_unsafe in Hsafe.
Qed.

Lemma silent_delivery d s w0 : triple (silent w0 s) (handle_delivery relay d s) (silent_next w0).
Proof.
  destruct d as [e|n|]; simpl; [|by intros w|].
  - eapply (triple_bind _ _ _ (fun _ => silent w0 s)).
    { intros w [Hd Hs]. split; [done|]. intros Hsafe. destruct (Hs Hsafe) as [Hb Hq]. split; [done|]. by apply quiet_is_deleting. }
    intros deleting. destruct (is_terminal_event e) eqn:He.
    { eapply triple_bind; [apply silent_terminal|]. by intros o w. }
    destruct deleting; [by intros w|]. eapply triple_bind; [by apply silent_progress|]. by intros s' w.
  - eapply triple_bind; [apply silent_closed|]. by intros o w.
Qed.

Lemma silent_consume ds s w0 : triple (silent w0 s) (consume relay ds s) (silent_end w0).
Proof.
  revert s. induction ds as [|d ds IH]; intros s; simpl; [apply silent_closed|].
  eapply triple_bind; [apply silent_delivery|]. intros [s'|o]; [apply IH|by intros w].
Qed.

Lemma silent_start w : silent w RelayState_start w.
Proof. split; [done|]. intros _. split; [done|apply quiet_refl]. Qed.
End Silent.

(** A failed send ends the turn.  If the send fails while the relay runs,
    the agent's stream stays open and nothing was lost by lagging, then
    whichever of the two the relay listens to first, it returns after at most
    two turns of the loop more than there are events waiting: with the terminal
    event of the agent if one is among them, and otherwise with the error of
    the send. *)
Theorem failed_send_ends_turn `{Printed} `{!TurnEnv E} relay (es : list AgentStreamEvent.t) err s
    (w : World (E:=E)) prefs :
  length es + 2 <= length prefs ->
  exists o w', run_list (relay_turn relay)
    (Running (mkChannel (map Received es) false (SendFailed err)) (mkPoll false None) s w) prefs = Returned o w' /\
    terminal o = match List.find is_terminal_event es with
                 | Some e => terminal_from_event e
                 | None => RelayTerminal.Error (code err) (retryable err)
                 end.
Proof. intros Hlen. apply (failed_send_drains relay es err s w prefs Hlen). Qed.

(** What is replayed was silent.  An outcome whose error is deferred, so
    that the turn may be replayed unseen, is only given by a relay that was
    asked to defer: the clients were shown no text, no thinking, no tool call,
    no permission request and no end of the turn, only diagnostics; no message
    was written or changed except new tips; the summary still says that a
    replay is safe; and the error to report if there is no replay is kept.
    This holds of every run of the loop, whatever the stream delivers. *)
Theorem deferred_error_is_silent `{Printed} `{!TurnEnv E} relay q (w w' : World (E:=E)) o :
  rtc (live_step relay) (consume_start q w) (Returned o w') ->
  terminal_error_deferred (attempt o) = true -> deferred_outcome relay w o w'.
Proof.
  intros Hrun. destruct (live_followed relay q w _ Hrun) as [ds Hds].
  pose proof (silent_consume relay ds RelayState_start w w (silent_start w)) as Hs. by rewrite Hds in Hs.
Qed.


(** ** Examples

    An environment that numbers its ids and whose writes fail as listed. *)
Record Demo : Type := mkDemo { demo_ids : nat; demo_failures : list bool }.

Definition demo_json : JsonValues := {| Json := unit |}.
#[local] Existing Instance demo_json.
Definition demo_printed : Printed := {|
  print_text := fun s => s;
  print_thinking := fun s _ => s;
  print_error := message;
  print_tip := tip_content;
  print_tool_call := call_name;
  print_acp_tool_call := acp_tool_call_id;
  print_tool_group := fun _ => "";
  print_send_failure := fun e _ => message e;
  merge_content := fun _ _ _ new => new;
|}.
#[local] Existing Instance demo_printed.
Definition demo_env : TurnEnv Demo := {|
  generate_short_id := fun e => ("id" +:+ pretty (demo_ids e), mkDemo (S (demo_ids e)) (demo_failures e));
  now_ms := fun e => (0%Z, e);
  runtime_state := fun e => (ConversationRuntimeStateService_default, e);
  write_fails := fun e =>
    match demo_failures e with [] => (false, e) | b :: l => (b, mkDemo (demo_ids e) l) end;
  read_fails := fun e => (false, e);
  conversation_found := fun e => (true, e);
  resolver_bodies := fun names e => (map (fun n => mkSkill n "body") names, e);
|}.
#[local] Existing Instance demo_env.

Definition demo_relay (defer : bool) : StreamRelay :=
  mkRelay (mkAdapter "conv" "msg" true) true ["cron"] true false defer.
Definition demo_world (failures : list bool) : World := mkWorld (mkDemo 0 failures) ∅ [] None.
Definition demo_error : ErrorEventData :=
  error_classified "connection lost" AgentErrorCode.UserAgentDisconnected AgentErrorOwnership.UserAgent None true false None.

Lemma failed_send_ends_turn_witness :
  let es := [AgentStreamEvent.Start None; AgentStreamEvent.Text "partial"] in
  let l := run_list (relay_turn (demo_relay false))
    (Running (mkChannel (map Received es) false (SendFailed demo_error)) (mkPoll false None) RelayState_start (demo_world []))
    [true; true; false; true] in
  exists o w', l = Returned o w' /\
    terminal o = RelayTerminal.Error (Some AgentErrorCode.UserAgentDisconnected) (Some true).
Proof. apply (failed_send_ends_turn (demo_relay false) [AgentStreamEvent.Start None; AgentStreamEvent.Text "partial"]
    demo_error RelayState_start (demo_world []) [true; true; false; true]). simpl. lia. Defined.

(** A run that ends in a deferred error. *)
Definition demo_deferred : Live :=
  run_list (relay_turn (demo_relay true))
    (consume_start [Received (AgentStreamEvent.Start None); Received (AgentStreamEvent.Tips (mkTips "slow" TipType.Warning None None));
                    Received (AgentStreamEvent.Error demo_error)] (demo_world []))
    [true; true; true].

Lemma turns_live `{Printed} `{!TurnEnv E} relay (l : Live (E:=E)) prefs :
  rtc (live_step relay) l (run_list (relay_turn relay) l prefs).
Proof.
  revert l. induction prefs as [|prefer prefs IH]; intros l; [done|].
  eapply rtc_l; [apply (live_turn relay prefer)|apply IH].
Qed.

Lemma deferred_error_is_silent_witness :
  exists o w', demo_deferred = Returned o w' /\ terminal_error_deferred (attempt o) = true /\
    deferred_outcome (demo_relay true) (demo_world []) o w'.
Proof.
  destruct demo_deferred as [|o w'] eqn:Hrun; [by vm_compute in Hrun|]. exists o, w'.
  assert (Hdef : terminal_error_deferred (attempt o) = true) by (vm_compute in Hrun; by injection Hrun as <- <-).
  split; [done|]. split; [done|].
  apply (deferred_error_is_silent (demo_relay true)
    [Received (AgentStreamEvent.Start None); Received (AgentStreamEvent.Tips (mkTips "slow" TipType.Warning None None));
     Received (AgentStreamEvent.Error demo_error)]); [|exact Hdef].
  rewrite <- Hrun. apply turns_live.
Defined.

Definition demo_call (id : string) : AgentStreamEvent.t :=
  AgentStreamEvent.ToolCall (mkToolCall id "read" tt ToolCallStatus.Completed None None None).
(** If the queue was overrun before a failed send is taken up, the failure is
    dropped with the [Lagged] result: the relay waits for an agent that will
    send nothing more. *)
Lemma lag_drops_send_error prefs :
  run_list (relay_turn (demo_relay false))
    (Running (mkChannel [Lagged 3] false (SendFailed demo_error)) (mkPoll true (Some demo_error)) RelayState_start (demo_world []))
    (true :: prefs) =
  Running (mkChannel [] false (SendFailed demo_error)) (mkPoll true None) RelayState_start (demo_world []).
Proof. rewrite run_list_cons. simpl. induction prefs as [|prefer prefs IH]; [done|]. rewrite run_list_cons. exact IH. Qed.

(** A flush that fails once marks the row as created; the text of that segment
    is then never stored, although every later write succeeds. *)
Lemma failed_flush_loses_text :
  let events := repeat (AgentStreamEvent.Text "a") 20 ++ [demo_call "t1"; AgentStreamEvent.Text "b"] in
  let '(o, w) := consume (demo_relay false) (map Received events ++ [Received (AgentStreamEvent.Finish None)])
                   RelayState_start (demo_world [true]) in
  terminal o = RelayTerminal.Finish /\
  map (fun r => (row_type r, row_content r)) (map_values (messages w)) = [("text", "b"); ("tool_call", "read")].
Proof. by vm_compute. Qed.
