(* ===== verification/RelayText.v ===== *)
(** * Text becomes messages
    ([crates/tjuaeui-conversation/src/stream_relay.rs], [stream_persistence.rs])

    The relay's text segments against a reference that cuts the list of events
    at its boundaries: what the table holds at the end of a turn, in an
    environment where ids are fresh and writes succeed. *)

From stdpp Require Import pretty.
From S2P Require Import Prelude TurnClaims TurnEvents TurnMessages StreamRelay.
Open Scope tjuae_scope.

(** ** Text becomes messages

    The reference: the text between two boundaries is one run; runs without
    text leave no message. *)
Section Text.
Context `{Printed} {E : Type} `{!TurnEnv E} (relay : StreamRelay).
#[local] Abbreviation World := (World (E:=E)).

Definition boundary (e : AgentStreamEvent.t) : bool :=
  match e with
  | AgentStreamEvent.SegmentBreak | AgentStreamEvent.ToolCall _ | AgentStreamEvent.AcpToolCall _
  | AgentStreamEvent.ToolGroup _ => true
  | AgentStreamEvent.Thinking data => negb (bool_decide (thinking_status data = Some "done"))
  | _ => false
  end.

Definition text_of (e : AgentStreamEvent.t) : string :=
  match e with AgentStreamEvent.Text content => content | _ => "" end.

(** The runs of a list of events, the first one being continued. *)
Fixpoint text_runs (es : list AgentStreamEvent.t) : list string :=
  match es with
  | [] => [""]
  | e :: es =>
      if boundary e then "" :: text_runs es
      else match text_runs es with
           | run :: runs => (text_of e +:+ run) :: runs
           | [] => [text_of e]
           end
  end.

Definition written_runs (es : list AgentStreamEvent.t) : list string :=
  List.filter (fun run => negb (bool_decide (run = ""))) (text_runs es).

Definition full_text (es : list AgentStreamEvent.t) : string := String.concat "" (map text_of es).

(** The same, run by run, as the relay goes. *)
Record Runs : Type := mkRuns { closed_runs : list string; open_run : string }.
Definition next_run (r : Runs) (e : AgentStreamEvent.t) : Runs :=
  if boundary e then mkRuns (closed_runs r ++ [open_run r]) "" else mkRuns (closed_runs r) (open_run r +:+ text_of e).

Lemma text_runs_nonempty es : exists run runs, text_runs es = run :: runs.
Proof.
  destruct es as [|e es]; simpl; [by do 2 eexists|]. destruct (boundary e); [by do 2 eexists|].
  destruct (text_runs es); by do 2 eexists.
Qed.

Lemma run_list_runs es r :
  let r' := run_list next_run r es in
  closed_runs r' ++ [open_run r'] =
    closed_runs r ++ match text_runs es with run :: runs => (open_run r +:+ run) :: runs | [] => [] end.
Proof.
  revert r. induction es as [|e es IH]; intros r; [simpl; by rewrite str_app_nil|].
  rewrite run_list_cons. cbn zeta. rewrite IH. destruct (text_runs_nonempty es) as (run & runs & Hruns).
  unfold next_run. simpl text_runs. rewrite Hruns. destruct (boundary e); simpl.
  - by rewrite <- app_assoc, str_app_nil.
  - by rewrite str_app_assoc.
Qed.

Lemma concat_cons s l : String.concat "" (s :: l) = s +:+ String.concat "" l.
Proof. destruct l; simpl; [by rewrite str_app_nil|done]. Qed.

Lemma concat_runs es : String.concat "" (text_runs es) = full_text es.
Proof.
  unfold full_text. induction es as [|e es IH]; [done|]. destruct (text_runs_nonempty es) as (run & runs & Hruns).
  cbn [map]. rewrite concat_cons, <- IH. simpl text_runs. rewrite Hruns. destruct (boundary e) eqn:He.
  - rewrite concat_cons. by destruct e.
  - by rewrite !concat_cons, str_app_assoc.
Qed.

Lemma concat_written l : String.concat "" (List.filter (fun run => negb (bool_decide (run = ""))) l) = String.concat "" l.
Proof.
  induction l as [|run l IH]; [done|]. rewrite concat_cons. cbn [List.filter].
  case_bool_decide as Hr; cbn [negb]; [by subst|by rewrite concat_cons, IH].
Qed.

(** *** A calm environment

    Ids are fresh, writes succeed, the conversation is neither deleted nor the
    program shut down.  [calm U e]: in state [e] the ids in [U] are taken. *)
Definition persisting (l : RuntimeLifecycleState.t) : bool :=
  match l with RuntimeLifecycleState.Active | RuntimeLifecycleState.Cancelling => true | _ => false end.

Record Calm (calm : gset string -> E -> Prop) : Prop := {
  calm_id : forall U e, calm U e ->
    (fst (generate_short_id e) ∉ U) /\ calm ({[fst (generate_short_id e)]} ∪ U) (snd (generate_short_id e));
  calm_now : forall U e, calm U e -> calm U (snd (now_ms e));
  calm_runtime : forall U e, calm U e -> calm U (snd (runtime_state e)) /\
    persisting (lifecycle_for (relay_conversation relay) (fst (runtime_state e))) = true;
  calm_writes : forall U e, calm U e -> calm U (snd (write_fails e)) /\ fst (write_fails e) = false;
  calm_reads : forall U e, calm U e -> calm U (snd (read_fails e));
  calm_found : forall U e, calm U e -> calm U (snd (conversation_found e));
  calm_bodies : forall names U e, calm U e -> calm U (snd (resolver_bodies names e));
}.

Context (calm : gset string -> E -> Prop) (Hcalm : Calm calm).

(** The ids the agent gives to its tool calls. *)
Context (tools : gset string) (Hmsg : relay_msg_id relay ∉ tools).

Definition nonempty_runs (l : list string) : list string :=
  List.filter (fun run => negb (bool_decide (run = ""))) l.

(** The row of a text segment. *)
Definition shows (m : gmap string MessageRow) (id run : string) : Prop :=
  exists r, m !! id = Some r /\ row_type r = "text" /\ row_content r = print_text run /\ row_hidden r = false.

(** No text segment has this id, and no tool call. *)
Definition free_id (s : RelayState) (U : gset string) (id : string) : Prop :=
  used_primary s = true /\ id ∈ U /\ (id ∉ tools) /\ id ∉ text_segments s.

Record text_ok (U : gset string) (r : Runs) (s : RelayState) (m : gmap string MessageRow) : Prop := {
  ok_dom : dom m ⊆ U;
  ok_tools : tools ⊆ U;
  ok_msg : relay_msg_id relay ∈ U;
  ok_primary : used_primary s = false -> m !! relay_msg_id relay = None /\ active_text s = None /\
    active_thinking s = None /\ text_segments s = [];
  ok_segments : Forall2 (shows m) (text_segments s) (nonempty_runs (closed_runs r));
  ok_full : full_text_buffer s = String.concat "" (closed_runs r) +:+ open_run r;
  ok_distinct : NoDup (text_segments s);
  ok_no_tool : Forall (fun id => id ∉ tools) (text_segments s);
  ok_active : match active_text s with
    | None => open_run r = ""
    | Some t => text_buffer t = open_run r /\ free_id s U (text_id t) /\
        (if record_created t then exists row, m !! text_id t = Some row /\ row_type row = "text"
         else m !! text_id t = None)
    end;
  ok_thinking : match active_thinking s with
    | None => True
    | Some k => active_text s = None /\ free_id s U (thinking_id k) /\ m !! thinking_id k = None
    end;
}.

(** [X]: ids known to be taken. *)
Definition text_inv (X : gset string) (r : Runs) (s : RelayState) (w : World) : Prop :=
  exists U, X ⊆ U /\ calm U (env w) /\ text_ok U r s (messages w).

Lemma ok_more U U' r s m : U ⊆ U' -> text_ok U r s m -> text_ok U' r s m.
Proof.
  intros HU [D T M P S L N F A K]. split; try done; [set_solver..| |].
  - destruct (active_text s); [|done]. destruct A as (A1 & (A2 & A3 & A4 & A5) & A6). split; [done|].
    split; [|done]. split; [done|]. set_solver.
  - destruct (active_thinking s); [|done]. destruct K as (K1 & (K2 & K3 & K4 & K5) & K6). split; [done|].
    split; [|done]. split; [done|]. set_solver.
Qed.

(** A write to an id that is not one of the relay's. *)
Definition elsewhere (s : RelayState) (id : string) : Prop :=
  (id ∉ text_segments s) /\ (used_primary s = false -> id <> relay_msg_id relay) /\
  (forall t, active_text s = Some t -> id <> text_id t) /\ (forall k, active_thinking s = Some k -> id <> thinking_id k).

Lemma shows_other m id row l runs : id ∉ l -> Forall2 (shows m) l runs -> Forall2 (shows (<[id := row]> m)) l runs.
Proof.
  intros Hid Hl. induction Hl as [|x run l runs Hx Hl IH]; constructor.
  - destruct Hx as (r & Hr & Hc). exists r. rewrite lookup_insert_ne; [done|set_solver].
  - apply IH. set_solver.
Qed.

Lemma ok_write U r s m id row :
  id ∈ U -> elsewhere s id -> text_ok U r s m -> text_ok U r s (<[id := row]> m).
Proof.
  intros HU (Hseg & Hprim & Htext & Hthink) [D T M P S L N F A K]. split; try done.
  - set_solver.
  - intros Hp. rewrite lookup_insert_ne by (by apply Hprim). by apply P.
  - by apply shows_other.
  - destruct (active_text s) as [t|]; [|done]. destruct A as (A1 & A2 & A3). split; [done|]. split; [done|].
    rewrite lookup_insert_ne by (by apply Htext). done.
  - destruct (active_thinking s) as [k|]; [|done]. destruct K as (K1 & K2 & K3). split; [done|]. split; [done|].
    rewrite lookup_insert_ne by (by apply Hthink). done.
Qed.

(** Ids of the agent and new ids are elsewhere. *)
Lemma elsewhere_tool U r s m id : text_ok U r s m -> id ∈ tools -> elsewhere s id.
Proof.
  intros [D T M P S L N F A K] Hid. split; [|split; [|split]].
  - intros Hin. rewrite Forall_forall in F. by apply (F id).
  - by intros _ ->.
  - intros t Ht ->. rewrite Ht in A. by destruct A as (_ & (_ & _ & A & _) & _).
  - intros k Hk ->. rewrite Hk in K. by destruct K as (_ & (_ & _ & K & _) & _).
Qed.

Lemma elsewhere_new U r s m id : text_ok U r s m -> id ∉ U -> elsewhere s id.
Proof.
  intros [D T M P S L N F A K] Hid. split; [|split; [|split]].
  - intros Hin. apply Hid, D. apply list_elem_of_lookup in Hin as [i Hi].
    destruct (Forall2_lookup_l _ _ _ _ _ S Hi) as (run & _ & row & Hrow & _). by eapply elem_of_dom_2.
  - by intros _ ->.
  - intros t Ht ->. rewrite Ht in A. by destruct A as (_ & (_ & A & _) & _).
  - intros k Hk ->. rewrite Hk in K. by destruct K as (_ & (_ & K & _) & _).
Qed.

(** *** The operations keep it *)

Lemma inv_ask {A} (f : E -> A * E) X r s :
  (forall U e, calm U e -> calm U (snd (f e))) -> triple (text_inv X r s) (ask f) (fun _ => text_inv X r s).
Proof.
  intros Hf w (U & HX & Hc & Hok). unfold ask. specialize (Hf U (env w) Hc). destruct (f (env w)) as [a e]. by exists U.
Qed.

Lemma inv_now X r s : triple (text_inv X r s) (ask now_ms) (fun _ => text_inv X r s).
Proof. apply inv_ask, Hcalm. Qed.

Lemma inv_broadcast f X r s : triple (text_inv X r s) (broadcast f) (fun _ => text_inv X r s).
Proof. by intros w Hw. Qed.

Lemma inv_new_id X r s :
  triple (text_inv X r s) (ask generate_short_id) (fun id w =>
    (elsewhere s id /\ id ∉ tools) /\ messages w !! id = None /\ text_inv ({[id]} ∪ X) r s w).
Proof.
  intros w (U & HX & Hc & Hok). unfold ask. destruct (calm_id _ Hcalm U (env w) Hc) as [Hnew Hc'].
  destruct (generate_short_id (env w)) as [id e]. simpl in *.
  pose proof (ok_tools _ _ _ _ Hok) as HT. pose proof (ok_dom _ _ _ _ Hok) as HD.
  split; [split; [by eapply elsewhere_new|set_solver]|]. split; [apply not_elem_of_dom; set_solver|].
  exists ({[id]} ∪ U). split; [set_solver|]. split; [done|]. by apply (ok_more U); [set_solver|].
Qed.

Lemma inv_some_id X r s :
  triple (text_inv X r s) (ask generate_short_id) (fun id w => elsewhere s id /\ text_inv ({[id]} ∪ X) r s w).
Proof. eapply triple_post; [apply inv_new_id|]. by intros id w ([He _] & _ & Hw). Qed.

(** What a relay writes is wanted. *)
Lemma inv_allows kind X r s : allowed_in RuntimeLifecycleState.Cancelling kind = true ->
  triple (text_inv X r s) (allows_write (adapter relay) kind) (fun ok w => ok = true /\ text_inv X r s w).
Proof.
  intros Hk. unfold allows_write, coordinator_allows. destruct (has_persistence (adapter relay)); [|by intros w].
  eapply (triple_bind _ _ _ (fun rt w => persisting (lifecycle_for (relay_conversation relay) rt) = true /\ text_inv X r s w)).
  - intros w (U & HX & Hc & Hok). unfold ask. destruct (calm_runtime _ Hcalm U (env w) Hc) as [Hc' Hp].
    destruct (runtime_state (env w)) as [rt e]. split; [done|]. by exists U.
  - intros rt w [Hp Hw]. split; [|done]. simpl.
    change (adapter_conversation_id (adapter relay)) with (relay_conversation relay).
    by destruct (lifecycle_for (relay_conversation relay) rt).
Qed.

Lemma inv_when kind m X r s : allowed_in RuntimeLifecycleState.Cancelling kind = true ->
  triple (text_inv X r s) m (fun _ => text_inv X r s) ->
  triple (text_inv X r s) (when_allowed (adapter relay) kind m) (fun _ => text_inv X r s).
Proof.
  intros Hk Hm. unfold when_allowed. eapply triple_bind; [by apply inv_allows|]. intros ok. apply triple_pure.
  by intros ->.
Qed.

Lemma inv_write_ok X r s :
  triple (text_inv X r s) (ask write_fails) (fun failed w => failed = false /\ text_inv X r s w).
Proof.
  intros w (U & HX & Hc & Hok). unfold ask. destruct (calm_writes _ Hcalm U (env w) Hc) as [Hc' Hf].
  destruct (write_fails (env w)) as [failed e]. split; [done|]. by exists U.
Qed.

Lemma inv_set id row X r s w : id ∈ X -> elsewhere s id -> text_inv X r s w ->
  text_inv X r s (set_messages (<[id := row]> (messages w)) w).
Proof.
  intros Hid He (U & HX & Hc & Hok). exists U. split; [done|]. split; [done|]. apply ok_write; [set_solver|done|done].
Qed.

Lemma inv_insert row X r s : row_id row ∈ X -> elsewhere s (row_id row) ->
  triple (text_inv X r s) (insert_message row) (fun _ => text_inv X r s).
Proof.
  intros HX He. unfold insert_message. eapply triple_bind; [apply inv_write_ok|]. intros failed w [-> Hw].
  simpl. case_bool_decide; [done|]. by apply inv_set.
Qed.

Lemma inv_update id u X r s : id ∈ X -> elsewhere s id ->
  triple (text_inv X r s) (update_message id u) (fun _ => text_inv X r s).
Proof.
  intros HX He. unfold update_message. eapply triple_bind; [apply inv_write_ok|]. intros failed w [-> Hw].
  destruct (messages w !! id); [|done]. by apply inv_set.
Qed.

Lemma inv_upsert row X r s : row_id row ∈ X -> elsewhere s (row_id row) ->
  triple (text_inv X r s) (upsert_message row) (fun _ => text_inv X r s).
Proof.
  intros HX He. unfold upsert_message. eapply triple_bind; [apply inv_write_ok|]. intros failed w [-> Hw].
  by apply inv_set.
Qed.

(** Knowing less, or more of what is taken anyway. *)
Lemma inv_forget X r s w : text_inv X r s w -> text_inv ∅ r s w.
Proof. intros (U & HX & Hw). exists U. split; [set_solver|done]. Qed.

Lemma inv_tool_ids X r s w : text_inv X r s w -> text_inv tools r s w.
Proof. intros (U & HX & Hc & Hok). exists U. split; [apply Hok|done]. Qed.

Lemma inv_elsewhere X r s id w : text_inv X r s w -> id ∈ tools -> elsewhere s id.
Proof. intros (U & _ & _ & Hok). by eapply elsewhere_tool. Qed.

(** *** Tools and tips *)

Lemma inv_at_tool {A} id (m : St World A) r s :
  id ∈ tools -> (elsewhere s id -> triple (text_inv tools r s) m (fun _ => text_inv tools r s)) ->
  triple (text_inv ∅ r s) m (fun _ => text_inv ∅ r s).
Proof.
  intros Hid Hm w Hw. eapply inv_forget. apply Hm; [by eapply inv_elsewhere|by eapply inv_tool_ids].
Qed.

Lemma inv_then {A} (m : St World A) (P Q : World -> Prop) :
  triple P m (fun _ => Q) -> triple P (m;; st_ret tt) (fun _ => Q).
Proof. intros Hm. eapply triple_bind; [exact Hm|]. by intros a w. Qed.

Lemma inv_new_row mk r s : (forall id now, row_id (mk id now) = id) ->
  triple (text_inv ∅ r s)
    (let* id := ask generate_short_id in let* now := ask now_ms in insert_message (mk id now);; st_ret tt)
    (fun _ => text_inv ∅ r s).
Proof.
  intros Hmk. eapply triple_bind; [apply inv_some_id|]. intros id. apply triple_pure. intros He.
  eapply triple_bind; [apply inv_now|]. intros now. apply inv_then.
  eapply triple_post; [apply inv_insert; rewrite Hmk; [set_solver|done]|]. intros b w. apply inv_forget.
Qed.

Lemma inv_tip data r s : triple (text_inv ∅ r s) (persist_tip (adapter relay) data) (fun _ => text_inv ∅ r s).
Proof. apply inv_when; [done|]. by apply inv_new_row. Qed.

Lemma inv_error_tip data r s : triple (text_inv ∅ r s) (persist_error_tip (adapter relay) data) (fun _ => text_inv ∅ r s).
Proof. apply inv_when; [done|]. by apply inv_new_row. Qed.

Lemma inv_tool_call data r s : call_id data ∈ tools ->
  triple (text_inv ∅ r s) (persist_tool_call (adapter relay) data) (fun _ => text_inv ∅ r s).
Proof.
  intros Hid. apply inv_when; [done|]. case_bool_decide; [by intros w|]. apply (inv_at_tool (call_id data)); [done|]. intros He.
  eapply triple_bind; [apply inv_now|]. intros now. apply inv_then. by apply inv_upsert.
Qed.

Lemma inv_acp_tool_call data r s : acp_tool_call_id data ∈ tools ->
  triple (text_inv ∅ r s) (persist_acp_tool_call (adapter relay) data) (fun _ => text_inv ∅ r s).
Proof.
  intros Hid. apply inv_when; [done|]. apply (inv_at_tool (acp_tool_call_id data)); [done|]. intros He.
  eapply triple_bind; [apply inv_now|]. intros now. apply inv_then. by apply inv_upsert.
Qed.

Lemma inv_tool_group entries r s : Forall (fun e => entry_call_id e ∈ tools) entries ->
  triple (text_inv ∅ r s) (persist_tool_group (adapter relay) entries) (fun _ => text_inv ∅ r s).
Proof.
  intros Hids. apply inv_when; [done|].
  apply (triple_bind _ _ _ (fun id w => elsewhere s id /\ text_inv {[id]} r s w)).
  - destruct Hids as [|e entries He _].
    + eapply triple_post; [apply inv_new_id|]. intros id w ([Hel _] & _ & Hw). by rewrite (right_id_L ∅ (∪)) in Hw.
    + intros w Hw. simpl. split; [by eapply inv_elsewhere|]. destruct Hw as (U & _ & Hc & Hok).
      exists U. split; [|done]. pose proof (ok_tools _ _ _ _ Hok). set_solver.
  - intros id. apply triple_pure. intros Hel. eapply triple_post with (Q := fun _ => text_inv {[id]} r s); [|intros u w; apply inv_forget].
    unfold get_message_by_msg_id. apply (triple_bind _ _ _ (fun _ => text_inv {[id]} r s)).
    { eapply triple_bind; [apply inv_ask; apply Hcalm|]. intros failed w Hw. exact Hw. }
    intros existing. destruct existing.
    + apply inv_then, inv_update; [set_solver|done].
    + eapply triple_bind; [apply inv_now|]. intros now. apply inv_then, inv_insert; [set_solver|done].
Qed.

(** *** Segments *)

Lemma ok_used U r s m : text_ok U r s m -> text_ok U r (set_primary true s) m.
Proof.
  intros [D T M P S L N F A K]. split; simpl; try done.
  - destruct (active_text s); [|done]. destruct A as (A1 & (_ & A2) & A3). split; [done|]. by split.
  - destruct (active_thinking s); [|done]. destruct K as (K1 & (_ & K2) & K3). split; [done|]. by split.
Qed.

(** A new id for a segment. *)
Lemma inv_mint r s :
  triple (text_inv ∅ r s) (mint_segment_msg_id relay s) (fun x w =>
    active_text (snd x) = active_text s /\ active_thinking (snd x) = active_thinking s /\
    exists U, calm U (env w) /\ text_ok U r (snd x) (messages w) /\ free_id (snd x) U (fst x) /\
      messages w !! fst x = None).
Proof.
  unfold mint_segment_msg_id. destruct (used_primary s) eqn:Hp.
  - eapply triple_bind; [apply inv_new_id|]. intros id w ([(He & _) Ht] & Hnew & U & HU & Hc & Hok).
    split; [done|]. split; [done|]. exists U. split; [done|]. split; [done|]. split; [|done].
    split; [done|]. split; [set_solver|done].
  - intros w (U & HU & Hc & Hok). split; [done|]. split; [done|]. exists U. split; [done|].
    split; [by apply ok_used|]. destruct (ok_primary _ _ _ _ Hok Hp) as (Hnone & _ & _ & Hseg). split; [|done].
    split; [done|]. split; [exact (ok_msg _ _ _ _ Hok)|]. split; [done|]. simpl. rewrite Hseg. apply not_elem_of_nil.
Qed.

(** Thinking is closed; no text was open. *)
Lemma ok_no_thinking U r s m : text_ok U r s m -> text_ok U r (set_thinking None s) m.
Proof.
  intros [D T M P S L N F A K]. split; simpl; try done. intros Hp. destruct (P Hp) as (P1 & P2 & P3 & P4). done.
Qed.

Lemma inv_complete_thinking r s :
  triple (text_inv ∅ r s) (complete_active_thinking relay s)
    (fun s' w => active_thinking s' = None /\ text_inv ∅ r s' w).
Proof.
  unfold complete_active_thinking. destruct (active_thinking s) as [k|] eqn:Hk; [|by intros w].
  eapply triple_bind; [apply inv_now|]. intros now. eapply triple_bind; [apply inv_broadcast|]. intros [].
  apply (triple_bind _ _ _ (fun _ => text_inv ∅ r (set_thinking None s))); [|by intros [] w].
  unfold persist_thinking_segment. case_bool_decide as Hb.
  { intros w (U & HU & Hc & Hok). exists U. split; [done|]. split; [done|]. by apply ok_no_thinking. }
  intros w (U & HU & Hc & Hok).
  assert (He : elsewhere (set_thinking None s) (thinking_id k) /\ thinking_id k ∈ U).
  { pose proof (ok_thinking _ _ _ _ Hok) as Ht. rewrite Hk in Ht. destruct Ht as (Ht1 & (Ht2 & Ht3 & Ht4 & Ht5) & Ht6).
    split; [|done]. split; [done|]. simpl. rewrite Ht1, Ht2. done. }
  destruct He as [He HinU].
  eapply inv_forget, (inv_when _ _ {[thinking_id k]}); [done| |].
  - by apply inv_then, inv_insert; [set_solver|].
  - exists U. split; [set_solver|]. split; [done|]. by apply ok_no_thinking.
Qed.

(** Closing a run: an open text segment becomes a message. *)
Definition close_run (r : Runs) : Runs := mkRuns (closed_runs r ++ [open_run r]) "".

Lemma nonempty_close r : nonempty_runs (closed_runs (close_run r)) =
  nonempty_runs (closed_runs r) ++ (if bool_decide (open_run r = "") then [] else [open_run r]).
Proof.
  unfold nonempty_runs. simpl. rewrite List.filter_app. f_equal. simpl. by case_bool_decide.
Qed.

Lemma concat_app l1 l2 : String.concat "" (l1 ++ l2) = String.concat "" l1 +:+ String.concat "" l2.
Proof.
  induction l1 as [|s l1 IH]; [done|]. cbn [app]. by rewrite !concat_cons, IH, str_app_assoc.
Qed.

Lemma close_full r : String.concat "" (closed_runs r) +:+ open_run r =
  String.concat "" (closed_runs (close_run r)) +:+ open_run (close_run r).
Proof. simpl. rewrite concat_app, concat_cons. by rewrite !str_app_nil. Qed.

(** Without text the run only ends. *)
Lemma ok_close_blank U r s m : open_run r = "" -> text_ok U r s m -> text_ok U (close_run r) (set_text None s) m.
Proof.
  intros Ho [D T M P S L N F A K]. split; simpl; try done.
  - intros Hp. by destruct (P Hp) as (P1 & P2 & P3 & P4).
  - pose proof (nonempty_close r) as Hn. simpl in Hn. rewrite Hn, Ho, app_nil_r. exact S.
  - pose proof (close_full r) as Hf. simpl in Hf. by rewrite <- Hf.
  - destruct (active_thinking s); [|done]. by destruct K as (_ & K).
Qed.

(** The written segment joins the others. *)
Lemma ok_close_written U r s m t row :
  active_text s = Some t -> text_buffer t <> "" -> row_type row = "text" ->
  row_content row = print_text (text_buffer t) -> row_hidden row = false ->
  text_ok U r s m -> text_ok U (close_run r) (add_segment (text_id t) (set_text None s)) (<[text_id t := row]> m).
Proof.
  intros Ht Hb Hr1 Hr2 Hr3 [D T M P S L N F A K]. rewrite Ht in A. destruct A as (A1 & (A2 & A3 & A4 & A5) & A6).
  split; simpl; try done.
  - set_solver.
  - congruence.
  - pose proof (nonempty_close r) as Hn. simpl in Hn. rewrite Hn, bool_decide_false by congruence.
    apply Forall2_app; [by apply shows_other|]. constructor; [|constructor]. exists row.
    rewrite lookup_insert_eq. rewrite A1 in Hr2. by rewrite Hr2.
  - pose proof (close_full r) as Hf. simpl in Hf. by rewrite <- Hf.
  - apply list.NoDup_app. split; [done|]. split; [|apply NoDup_singleton]. intros x Hx ->%list_elem_of_singleton. done.
  - apply Forall_app. split; [done|]. by apply Forall_singleton.
  - destruct (active_thinking s); [|done]. destruct K as (K & _). congruence.
Qed.

Lemma inv_close_text status r s :
  triple (text_inv ∅ r s) (close_active_text_segment relay status s)
    (fun s' w => active_text s' = None /\ active_thinking s' = active_thinking s /\ text_inv ∅ (close_run r) s' w).
Proof.
  unfold close_active_text_segment. destruct (active_text s) as [t|] eqn:Ht.
  - unfold finalize_text_segment.
    eapply (triple_bind _ _ _ (fun o w => text_inv ∅ (close_run r)
      (match o with Some id => add_segment id (set_text None s) | None => set_text None s end) w)); [|by intros [id|] w].
    eapply triple_bind; [by apply inv_allows|]. intros ok. apply triple_pure. intros ->. simpl.
    case_bool_decide as Hb.
    + intros w (U & HU & Hc & Hok). exists U. split; [done|]. split; [done|]. apply ok_close_blank; [|done].
      pose proof (ok_active _ _ _ _ Hok) as A. rewrite Ht in A. destruct A as [<- _]. done.
    + eapply (triple_bind _ _ _ (fun b w => b = true /\
        text_inv ∅ (close_run r) (add_segment (text_id t) (set_text None s)) w)); [|by intros b w [-> Hw]].
      intros w0 Hw0. pose proof Hw0 as (U0 & _ & _ & Hok0). pose proof (ok_active _ _ _ _ Hok0) as A. rewrite Ht in A.
      destruct A as (_ & _ & A). revert A. destruct (record_created t) eqn:Hrec; intros A; unfold update_message, insert_message, st_bind;
        pose proof (inv_write_ok ∅ r s w0 Hw0) as Hwr; unfold ask in *; destruct (write_fails (env w0)) as [failed e];
        simpl in Hwr; destruct Hwr as [-> (U & HU & Hc & Hok)]; simpl.
      * destruct A as (row & Hrow & Hty). rewrite Hrow. simpl. split; [done|]. exists U. split; [done|]. split; [done|].
        by apply ok_close_written.
      * rewrite A. simpl. split; [done|]. exists U. split; [done|]. split; [done|]. by apply ok_close_written.
  - intros w (U & HU & Hc & Hok). split; [done|]. split; [done|]. exists U. split; [done|]. split; [done|].
    pose proof (ok_active _ _ _ _ Hok) as A. rewrite Ht in A.
    pose proof (ok_close_blank U r s _ A Hok) as Hcl. simpl. destruct s; simpl in *. by subst.
Qed.

Lemma inv_close status r s :
  triple (text_inv ∅ r s) (close_segments relay status s)
    (fun s' w => active_text s' = None /\ active_thinking s' = None /\ text_inv ∅ (close_run r) s' w).
Proof.
  unfold close_segments. eapply triple_bind; [apply inv_complete_thinking|]. intros s1. apply triple_pure. intros H1'.
  eapply triple_post; [apply inv_close_text|]. intros s2 w (Ha & Hb & Hw). by rewrite Hb.
Qed.

(** An open text segment. *)
Lemma inv_text_segment r s : active_thinking s = None ->
  triple (text_inv ∅ r s) (text_segment relay s) (fun x w => text_inv ∅ r (set_text (Some (fst x)) (snd x)) w).
Proof.
  intros Hk. unfold text_segment. destruct (active_text s) as [t|] eqn:Ht.
  - intros w Hw. simpl. destruct s; simpl in *. by subst.
  - eapply triple_bind; [apply inv_mint|]. intros [id s1].
    intros w (Ha & Hb & U & Hc & Hok & Hfree & Hnone). simpl in *. unfold st_bind, ask. pose proof (calm_now _ Hcalm U (env w) Hc) as Hc'.
    destruct (now_ms (env w)) as [now e]. simpl in *. exists U. split; [set_solver|]. split; [done|].
    rewrite Ht in Ha. rewrite Hk in Hb. destruct Hok as [D T M P S L N F A K]. rewrite Ha in A. split; simpl; try done.
    + intros Hp. destruct Hfree as [Hf _]. congruence.
    + by rewrite Hb.
Qed.

Lemma inv_append r s t content w :
  active_thinking s = None -> text_inv ∅ r (set_text (Some t) s) w ->
  text_inv ∅ (mkRuns (closed_runs r) (open_run r +:+ content))
    (set_text (Some (append_text t content)) (add_text content s)) w.
Proof.
  intros Hk (U & HU & Hc & [D T M P S L N F A K]). exists U. split; [done|]. split; [done|]. simpl in *.
  split; simpl; try done.
  - intros Hp. destruct (P Hp) as (_ & P2 & _). done.
  - by rewrite L, str_app_assoc.
  - destruct A as (-> & A). done.
  - by rewrite Hk.
Qed.

(** A flush writes the row of the open segment. *)
Lemma ok_flush U r s m t t' row :
  active_text s = Some t -> text_id t' = text_id t -> text_buffer t' = text_buffer t -> record_created t' = true ->
  row_type row = "text" -> text_ok U r s m -> text_ok U r (set_text (Some t') s) (<[text_id t := row]> m).
Proof.
  intros Ht Hid Hbuf Hrec Hty [D T M P S L N F A K]. rewrite Ht in A. destruct A as (A1 & (A2 & A3 & A4 & A5) & A6).
  split; simpl; try done.
  - set_solver.
  - congruence.
  - by apply shows_other.
  - rewrite Hbuf, Hrec, Hid. split; [done|]. split; [by split|]. exists row. by rewrite lookup_insert_eq.
  - destruct (active_thinking s); [|done]. destruct K as (K & _). congruence.
Qed.

Lemma ok_reset U r s m t : active_text s = Some t -> text_ok U r s m -> text_ok U r (set_text (Some (reset_counter t)) s) m.
Proof.
  intros Ht [D T M P S L N F A K]. rewrite Ht in A. split; simpl; try done.
  - intros Hp. destruct (P Hp) as (_ & P2 & _). congruence.
  - destruct (active_thinking s); [|done]. destruct K as (K & _). congruence.
Qed.

Lemma set_text_eq t s : active_text s = Some t -> set_text (Some t) s = s.
Proof. destruct s; simpl. by intros ->. Qed.

Lemma inv_flush r s t : active_text s = Some t ->
  triple (text_inv ∅ r s) (flush_text_segment (adapter relay) t)
    (fun t' w => text_inv ∅ r (set_text (Some (reset_counter t')) s) w).
Proof.
  intros Ht. unfold flush_text_segment. eapply triple_bind; [by apply inv_allows|]. intros ok. apply triple_pure. intros ->. simpl.
  case_bool_decide as Hb.
  { intros w (U & HU & Hc & Hok). exists U. split; [done|]. split; [done|]. by apply ok_reset. }
  intros w0 Hw0. pose proof Hw0 as (U0 & _ & _ & Hok0). pose proof (ok_active _ _ _ _ Hok0) as A. rewrite Ht in A.
  destruct A as (_ & _ & A). revert A. destruct (record_created t) eqn:Hrec; intros A; unfold update_message, insert_message, st_bind;
    pose proof (inv_write_ok ∅ r s w0 Hw0) as Hwr; unfold ask in *; destruct (write_fails (env w0)) as [failed e];
    simpl in Hwr; destruct Hwr as [-> (U & HU & Hc & Hok)]; simpl.
  - destruct A as (row & Hrow & Hty). rewrite Hrow. simpl. exists U. split; [done|]. split; [done|]. by apply ok_flush.
  - rewrite A. simpl. exists U. split; [done|]. split; [done|]. by apply ok_flush.
Qed.

Lemma inv_store r s t :
  triple (text_inv ∅ r (set_text (Some t) s)) (store_text relay t s) (fun s' w => text_inv ∅ r s' w).
Proof.
  unfold store_text. destruct (_ <=? _)%N; [|by intros w].
  eapply triple_bind; [by apply inv_flush|]. intros t' w Hw. exact Hw.
Qed.

Definition next_inv (r : Runs) (e : AgentStreamEvent.t) (s : RelayState) (w : World) : Prop := text_inv ∅ (next_run r e) s w.

Lemma inv_text content r s :
  triple (text_inv ∅ r s) (handle_text relay content s) (next_inv r (AgentStreamEvent.Text content)).
Proof.
  unfold handle_text. eapply triple_bind; [apply inv_complete_thinking|]. intros s1. apply triple_pure. intros Hk1.
  set (s2 := on_summary _ s1). assert (Hk2 : active_thinking s2 = None) by exact Hk1.
  apply (triple_bind _ _ _ (fun x w => active_thinking (snd x) = None /\ text_inv ∅ r (set_text (Some (fst x)) (snd x)) w)).
  - intros w (U & HU & Hc & Hok). assert (Hin : text_inv ∅ r s2 w).
    { exists U. split; [done|]. split; [done|]. destruct Hok. by split. }
    split; [|by apply inv_text_segment]. unfold text_segment. destruct (active_text s2); [done|].
    unfold mint_segment_msg_id. destruct (used_primary s2).
    + unfold st_bind. destruct (ask generate_short_id w) as [id w1]. simpl. by destruct (ask now_ms w1).
    + unfold st_bind. simpl. by destruct (ask now_ms w).
  - intros [t s3]. apply triple_pure. intros Hk3. eapply triple_bind; [apply inv_broadcast|]. intros [] w Hw.
    unfold next_inv, next_run. simpl. apply inv_store. by apply inv_append.
Qed.

Lemma inv_on_summary f r s w : text_inv ∅ r s w -> text_inv ∅ r (on_summary f s) w.
Proof. intros (U & HU & Hc & Hok). exists U. split; [done|]. split; [done|]. destruct Hok. by split. Qed.

Lemma next_blank r e : boundary e = false -> text_of e = "" -> next_run r e = r.
Proof. intros Hb Ht. unfold next_run. rewrite Hb, Ht, str_app_nil. by destruct r. Qed.

Lemma inv_thinking_segment r s : active_text s = None ->
  triple (text_inv ∅ r s) (thinking_segment relay s)
    (fun x w => active_text (snd x) = None /\ text_inv ∅ r (set_thinking (Some (fst x)) (snd x)) w).
Proof.
  intros Ht. unfold thinking_segment. destruct (active_thinking s) as [k|] eqn:Hk.
  - intros w Hw. simpl. split; [done|]. destruct s; simpl in *. by subst.
  - eapply triple_bind; [apply inv_mint|]. intros [id s1].
    intros w (Ha & Hb & U & Hc & Hok & Hfree & Hnone). simpl in *. unfold st_bind, ask. pose proof (calm_now _ Hcalm U (env w) Hc) as Hc'.
    destruct (now_ms (env w)) as [now e]. simpl in *. rewrite Ht in Ha. split; [done|]. exists U. split; [set_solver|]. split; [done|].
    destruct Hok as [D T M P S L N F A K]. split; simpl; try done.
    intros Hp. destruct Hfree as [Hf _]. congruence.
Qed.

Lemma inv_thinking data r s :
  triple (text_inv ∅ r s) (handle_thinking relay data s) (next_inv r (AgentStreamEvent.Thinking data)).
Proof.
  unfold handle_thinking, next_inv, next_run. simpl. case_bool_decide as Hd; simpl.
  { eapply triple_post; [apply inv_complete_thinking|]. intros s' w [_ Hw]. rewrite str_app_nil. by destruct r. }
  eapply triple_bind; [apply inv_close_text|]. intros s1. apply triple_pure. intros Ht1. apply triple_pure. intros _.
  set (s2 := on_summary _ s1). apply (triple_bind _ _ _ (fun x w => active_text (snd x) = None /\
    text_inv ∅ (close_run r) (set_thinking (Some (fst x)) (snd x)) w)).
  { intros w Hw. apply inv_thinking_segment; [done|]. by apply inv_on_summary. }
  intros [k s3]. apply triple_pure. intros Ht3. eapply triple_bind; [apply inv_broadcast|]. intros [] w (U & HU & Hc & [D T M P S L N F A K]).
  exists U. split; [done|]. split; [done|]. simpl in *. split; simpl; try done. intros Hp. by destruct (P Hp) as (_ & _ & P3 & _).
Qed.

Lemma inv_tool e persist r s :
  (forall s', triple (text_inv ∅ (close_run r) s') persist (fun _ => text_inv ∅ (close_run r) s')) ->
  triple (text_inv ∅ r s) (handle_tool relay e persist s) (fun s' => text_inv ∅ (close_run r) s').
Proof.
  intros Hp. unfold handle_tool. apply (triple_bind _ _ _ (fun s' => text_inv ∅ (close_run r) s')).
  - intros w Hw. eapply (inv_close "finish"). by apply inv_on_summary.
  - intros s1. eapply triple_bind; [apply inv_broadcast|]. intros []. eapply triple_bind; [apply Hp|]. by intros [] w.
Qed.

(** The ids of the tool calls among the events. *)
Definition tools_known (e : AgentStreamEvent.t) : Prop :=
  match e with
  | AgentStreamEvent.ToolCall data => call_id data ∈ tools
  | AgentStreamEvent.AcpToolCall data => acp_tool_call_id data ∈ tools
  | AgentStreamEvent.ToolGroup entries => Forall (fun e => entry_call_id e ∈ tools) entries
  | _ => True
  end.

Lemma inv_progress e r s : tools_known e ->
  triple (text_inv ∅ r s) (handle_progress relay e s) (next_inv r e).
Proof.
  intros Ht. destruct e; simpl in Ht |- *; unfold next_inv; try (rewrite next_blank by done);
    try (eapply triple_bind; [apply inv_broadcast|]; intros [] w Hw; exact Hw);
    try (eapply triple_bind; [apply inv_broadcast|]; intros [] w Hw; by apply inv_on_summary).
  - apply inv_text.
  - unfold handle_tips. intros w Hw. apply (inv_on_summary (saw_visible (bool_decide (tip_type data = TipType.Success)))) in Hw.
    apply (inv_on_summary (saw_auth_needed (bool_decide (tip_code data = Some "ACP_EMPTY_TURN_NEEDS_AUTH")))) in Hw.
    revert w Hw. set (s2 := on_summary _ (on_summary _ s)). eapply triple_bind; [apply inv_broadcast|]. intros [].
    apply (triple_bind _ _ _ (fun _ => text_inv ∅ r s2)); [|by intros [] w].
    case_bool_decide; [by intros w|apply inv_tip].
  - apply inv_tool. intros s'. by apply inv_tool_call.
  - apply inv_tool. intros s'. by apply inv_acp_tool_call.
  - apply inv_tool. intros s'. by apply inv_tool_group.
  - apply inv_thinking.
  - eapply triple_post; [apply inv_close|]. by intros s' w (_ & _ & Hw).
Qed.

(** *** The end *)

Lemma inv_deleting X r s :
  triple (text_inv X r s) (relay_is_deleting relay) (fun deleting w => deleting = false /\ text_inv X r s w).
Proof.
  unfold relay_is_deleting. destruct (has_runtime_state relay); [|by intros w].
  apply (triple_bind _ _ _ (fun rt w => is_deleting (relay_conversation relay) rt = false /\ text_inv X r s w)).
  - intros w (U & HX & Hc & Hok). unfold ask. destruct (calm_runtime _ Hcalm U (env w) Hc) as [Hc' Hp].
    destruct (runtime_state (env w)) as [rt e]. split; [|by exists U]. simpl in *. revert Hp. unfold is_deleting, lifecycle_for.
    destruct (lock rt) as [st|]; [|done]. destruct (shutting_down st); [done|]. by case_bool_decide.
  - intros rt w [Hd Hw]. by rewrite Hd.
Qed.

Lemma inv_loop es r s rest : Forall tools_known es -> Forall (fun e => is_terminal_event e = false) es ->
  forall w, text_inv ∅ r s w -> exists s' w', consume relay (map Received es ++ rest) s w = consume relay rest s' w' /\
    text_inv ∅ (run_list next_run r es) s' w'.
Proof.
  revert r s. induction es as [|e es IH]; intros r s Hk Ht w Hw; [by exists s, w|].
  apply Forall_cons in Hk as [Hk Hks]. apply Forall_cons in Ht as [Ht Hts]. cbn [map app consume handle_delivery]. unfold st_bind at 1 2.
  pose proof (inv_deleting ∅ r s w Hw) as Hdel. destruct (relay_is_deleting relay w) as [deleting w1].
  destruct Hdel as [Hdel Hw1]. simpl in Hdel, Hw1. subst deleting. rewrite Ht. unfold st_bind.
  pose proof (inv_progress e r s Hk w1 Hw1) as Hp. destruct (handle_progress relay e s w1) as [s' w2].
  rewrite run_list_cons. by apply IH.
Qed.

(** What the clients read in the end: the rows of the segments, in order. *)
Definition final_rows (status text : string) (runs ids : list string) (m : gmap string MessageRow) : Prop :=
  let cleaned := strip_think_tags text in
  let final_text := str_trim cleaned in
  if bool_decide (cleaned = text) && negb (bool_decide (final_text = "")) then
    Forall2 (fun id run => exists r, m !! id = Some r /\ row_type r = "text" /\ row_content r = print_text run /\
      row_hidden r = false /\ row_status r = Some status) ids runs
  else
    match ids with
    | [] => True
    | id :: ids =>
        (exists r, m !! id = Some r /\ row_content r = print_text final_text /\
           row_hidden r = bool_decide (final_text = "") /\ row_status r = Some status) /\
        Forall (fun id => exists r, m !! id = Some r /\ row_hidden r = true /\ row_status r = Some status) ids
    end.

(** A calm world with messages [m]. *)
Definition table (m : gmap string MessageRow) (w : World) : Prop := (exists U, calm U (env w)) /\ messages w = m.

Lemma table_ask {A} (f : E -> A * E) m :
  (forall U e, calm U e -> calm U (snd (f e))) -> triple (table m) (ask f) (fun _ => table m).
Proof.
  intros Hf w [[U Hc] Hm]. unfold ask. specialize (Hf U (env w) Hc). destruct (f (env w)) as [a e]. split; [by exists U|done].
Qed.

Lemma table_new_id m : triple (table m) (ask generate_short_id) (fun _ => table m).
Proof.
  intros w [[U Hc] Hm]. unfold ask. destruct (calm_id _ Hcalm U (env w) Hc) as [_ Hc'].
  destruct (generate_short_id (env w)). split; [by eexists|done].
Qed.

Lemma table_broadcast f m : triple (table m) (broadcast f) (fun _ => table m).
Proof. by intros w Hw. Qed.

Lemma table_update id u m row : m !! id = Some row ->
  triple (table m) (update_message id u) (fun _ => table (<[id := update_row u row]> m)).
Proof.
  intros Hrow w [[U Hc] Hm]. unfold update_message, st_bind, ask.
  destruct (calm_writes _ Hcalm U (env w) Hc) as [Hc' Hf]. destruct (write_fails (env w)) as [failed e]. simpl in *. subst.
  rewrite Hrow. simpl. split; [by exists U|done].
Qed.

Definition updated (u : MessageRowUpdate) (ids : list string) (m m' : gmap string MessageRow) : Prop :=
  forall id, m' !! id = if decide (id ∈ ids) then update_row u <$> (m !! id) else m !! id.

Lemma table_each u ids m : NoDup ids -> Forall (fun id => is_Some (m !! id)) ids ->
  triple (table m) (st_each (fun id => update_message id u;; st_ret tt) ids)
    (fun _ w => exists m', updated u ids m m' /\ table m' w).
Proof.
  revert m. induction ids as [|id ids IH]; intros m Hn Hf; simpl.
  { intros w Hw. exists m. split; [|done]. intros id. by rewrite decide_False by apply not_elem_of_nil. }
  apply list.NoDup_cons in Hn as [Hid Hn]. apply Forall_cons in Hf as [[row Hrow] Hf].
  eapply triple_bind; [by apply inv_then, table_update|]. intros []. eapply triple_post; [apply IH; [done|]|].
  - eapply Forall_impl; [exact Hf|]. intros x Hx. by rewrite lookup_insert_is_Some'; right.
  - intros [] w (m' & Hm' & Hw). exists m'. split; [|done]. intros x. rewrite Hm'.
    destruct (decide (x = id)) as [->|Hne].
    + rewrite decide_False by done. rewrite decide_True by by left. by rewrite lookup_insert_eq, Hrow.
    + rewrite lookup_insert_ne by done. destruct (decide (x ∈ ids)).
      * by rewrite decide_True by by right.
      * by rewrite decide_False by (rewrite elem_of_cons; tauto).
Qed.

Lemma shows_row m ids runs : Forall2 (shows m) ids runs -> Forall (fun id => is_Some (m !! id)) ids.
Proof. intros Hs. induction Hs as [|id run ids runs (r & Hr & _) _ IH]; constructor; [by eexists|done]. Qed.

(** The stored segments after the final text. *)
Lemma final_text_rows status text runs ids m :
  Forall2 (shows m) ids runs -> NoDup ids -> ids <> [] ->
  let cleaned := strip_think_tags text in
  let hidden := bool_decide (str_trim cleaned = "") in
  triple (fun w => table m w /\ exists r s, text_inv ∅ r s w)
    (persist_final_text (adapter relay) ids status (str_trim cleaned) hidden
       (negb (bool_decide (cleaned = text)) || hidden))
    (fun _ w => exists m', final_rows status text runs ids m' /\ table m' w).
Proof.
  intros Hs Hn Hne cleaned hidden. unfold persist_final_text.
  apply (triple_bind _ _ _ (fun ok w => ok = true /\ table m w)).
  { intros w [[HU Hm] (r & s & Hw)]. destruct (inv_allows RuntimeWriteKind.TerminalFinalize ∅ r s eq_refl w Hw) as [Hok (U & _ & Hc & _)].
    split; [done|]. split; [by exists U|]. rewrite <- Hm. unfold allows_write, coordinator_allows, st_bind, ask, st_ret.
    destruct (has_persistence (adapter relay)); [|done]. by destruct (runtime_state (env w)). }
  intros ok. apply triple_pure. intros ->. cbn [negb].
  destruct ids as [|id ids]; [done|]. inversion Hs as [|? run ? runs' Hid Hids]; subst.
  destruct Hid as (row & Hrow & Hty & Hc & Hh). apply list.NoDup_cons in Hn as [Hnew Hn].
  unfold final_rows. fold cleaned. fold hidden. replace (negb (bool_decide (cleaned = text)) || hidden)
    with (negb (bool_decide (cleaned = text) && negb hidden)) by (by rewrite negb_andb, negb_involutive).
  destruct (bool_decide (cleaned = text) && negb hidden) eqn:Hcase; cbn [negb].
  - eapply triple_bind.
    { apply (table_each (mkMessageUpdate None (Some (Some status)) (Some false)) (id :: ids)); [by constructor|]. by eapply shows_row. }
    intros [] w (m' & Hm' & Hw). exists m'. split; [|done].
    assert (Hall : forall l rs, Forall2 (shows m) l rs -> (forall x, x ∈ l -> x ∈ id :: ids) ->
      Forall2 (fun id run => exists r, m' !! id = Some r /\ row_type r = "text" /\ row_content r = print_text run /\
        row_hidden r = false /\ row_status r = Some status) l rs).
    { intros l rs Hl. induction Hl as [|x run' l rs (r & Hr & Hr1 & Hr2 & Hr3) Hl IH]; intros Hin; constructor.
      - exists (update_row (mkMessageUpdate None (Some (Some status)) (Some false)) r). rewrite Hm'.
        rewrite decide_True by (apply Hin; by left). by rewrite Hr.
      - apply IH. intros y Hy. apply Hin. by right. }
    by apply Hall.
  - eapply triple_bind; [by apply table_update|]. intros b. eapply triple_bind.
    { apply (table_each (mkMessageUpdate None (Some (Some status)) (Some true)) ids); [done|].
      eapply Forall_impl; [by eapply shows_row|]. intros x Hx. rewrite lookup_insert_is_Some'. by right. }
    intros [] w (m' & Hm' & Hw). exists m'. split; [|done]. split.
    + eexists. rewrite Hm', decide_False by done. rewrite lookup_insert_eq. done.
    + rewrite Forall_forall. intros x Hx. assert (x <> id) by congruence.
      rewrite Hm', decide_True by done. rewrite lookup_insert_ne by done.
      pose proof (shows_row m ids runs' Hids) as Hall. rewrite Forall_forall in Hall. destruct (Hall x Hx) as [r Hr].
      exists (update_row (mkMessageUpdate None (Some (Some status)) (Some true)) r). by rewrite Hr.
Qed.

Lemma table_each_broadcast {A} (f : A -> St World unit) (l : list A) m :
  (forall a, triple (table m) (f a) (fun _ => table m)) -> triple (table m) (st_each f l) (fun _ => table m).
Proof. intros Hf. apply triple_each. intros a _. apply Hf. Qed.

Lemma table_complete runtime m :
  triple (table m) (complete_conversation (adapter relay) runtime) (fun _ => table m).
Proof.
  assert (Hfinish : triple (table m) finish_conversation (fun _ => table m)).
  { unfold finish_conversation. eapply (triple_bind _ _ _ (fun _ => table m)).
    - apply table_ask. intros U e Hc. apply (calm_writes _ Hcalm U e Hc).
    - intros [] w Hw; exact Hw. }
  unfold complete_conversation, completion_publish, coordinator_allows. destruct (has_persistence (adapter relay)).
  - eapply (triple_bind _ _ _ (fun _ => table m)).
    { eapply triple_bind; [apply table_ask; intros U e Hc; apply (calm_runtime _ Hcalm U e Hc)|]. intros rt w Hw. exact Hw. }
    intros ok. destruct ok; [|by intros w]. eapply triple_bind; [apply table_ask, Hcalm|]. intros [|]; [|by intros w].
    eapply triple_bind; [exact Hfinish|]. by intros [] w.
  - eapply triple_bind; [exact Hfinish|]. by intros b w.
Qed.

Lemma process_text text r s m :
  triple (fun w => table m w /\ text_inv ∅ r s w) (process_final_text relay text)
    (fun x w => fst x = strip_think_tags text /\ (table m w /\ text_inv ∅ r s w)).
Proof.
  unfold process_final_text. destruct (is_empty _ || _); [by intros w|].
  apply (triple_bind _ _ _ (fun _ w => table m w /\ text_inv ∅ r s w)); [|by intros l w].
  unfold load_skill_bodies. destruct (is_empty _); [by intros w|].
  intros w [Ht Hw]. split; [apply table_ask|apply inv_ask]; try done; apply Hcalm.
Qed.

(** The end of the relay, once the segments are closed. *)
Lemma conclude_rows e terminal' r s runs m :
  full_text_buffer s <> "" -> Forall2 (shows m) (text_segments s) runs -> NoDup (text_segments s) ->
  text_segments s <> [] ->
  triple (fun w => table m w /\ text_inv ∅ r s w) (conclude relay false e terminal' s)
    (fun _ w => final_rows (if is_error_event e then "error" else "finish") (full_text_buffer s)
       runs (text_segments s) (messages w)).
Proof.
  intros Hfull Hseg Hn Hne. unfold conclude.
  set (rows := final_rows _ _ _ _).
  eapply (triple_bind _ _ _ (fun _ w => exists m', rows m' /\ table m' w)).
  - unfold finalize. rewrite bool_decide_false by done. cbn [negb]. eapply triple_bind; [apply process_text|].
    intros [processed responses]. apply triple_pure. cbn [fst]. intros ->.
    eapply triple_bind.
    { eapply triple_conseq; [by apply final_text_rows| |intros o w Hrows; exact Hrows]. intros w [Ht Hw]. split; [done|]. by exists r, s. }
    intros overrides. apply triple_ex. intros m' Hrows.
    eapply triple_bind; [apply table_each_broadcast; intros o; apply table_broadcast|]. intros [].
    eapply triple_bind.
    { apply table_each_broadcast. intros resp. eapply triple_bind; [apply table_new_id|]. intros id. apply table_broadcast. }
    intros [] w Ht. by exists m'.
  - intros responses. apply triple_ex. intros m' Hrows. rewrite andb_true_r.
    eapply (triple_bind _ _ _ (fun _ => table m')); [destruct (complete_turn relay); [apply table_complete|by intros w]|].
    intros [] w [_ Hm]. simpl. by rewrite Hm.
Qed.


Lemma ending_rows e terminal' status r s w0 :
  text_inv ∅ r s w0 -> String.concat "" (closed_runs (close_run r)) <> "" -> forall fw,
  (fw = forward_to_websocket relay e \/ fw = st_ret tt) ->
  let '(_, w) := (let* s := close_segments relay status s in fw;; conclude relay false e terminal' (record_error false e s)) w0 in
  exists ids, NoDup ids /\ Forall (fun id => id ∉ tools) ids /\ length ids = length (nonempty_runs (closed_runs (close_run r))) /\
    final_rows (if is_error_event e then "error" else "finish") (String.concat "" (closed_runs (close_run r)))
      (nonempty_runs (closed_runs (close_run r))) ids (messages w).
Proof.
  intros Hw0 Hfull fw Hfw. unfold st_bind at 1. pose proof (inv_close status r s w0 Hw0) as Hcl.
  destruct (close_segments relay status s w0) as [s1 w1]. destruct Hcl as (Ht & Hk & Hw1). simpl in Ht, Hk, Hw1.
  assert (Hfw1 : exists w2, fw w1 = (tt, w2) /\ messages w2 = messages w1 /\ env w2 = env w1).
  { destruct Hfw as [->| ->]; by eexists. }
  destruct Hfw1 as (w2 & Hfwd & Hm2 & He2). unfold st_bind. rewrite Hfwd.
  set (s2 := record_error false e s1).
  assert (Hs2 : text_segments s2 = text_segments s1 /\ full_text_buffer s2 = full_text_buffer s1) by (unfold s2; by destruct e).
  destruct Hs2 as [Hseg2 Hfull2]. destruct Hw1 as (U & HU & Hc & Hok).
  assert (Hfull1 : full_text_buffer s1 = String.concat "" (closed_runs (close_run r))).
  { rewrite (ok_full _ _ _ _ Hok). simpl. by rewrite str_app_nil. }
  assert (Hw2 : text_inv ∅ (close_run r) s2 w2).
  { exists U. split; [done|]. rewrite He2, Hm2. split; [done|]. unfold s2. destruct e; try exact Hok. destruct Hok. by split. }
  pose proof (ok_segments _ _ _ _ Hok) as Hsegs. rewrite <- Hm2 in Hsegs.
  assert (Hne : text_segments s1 <> []).
  { intros Heq. rewrite Heq in Hsegs. apply Hfull. rewrite <- concat_written. apply Forall2_nil_inv_l in Hsegs. unfold nonempty_runs in Hsegs. by rewrite Hsegs. }
  pose proof (conclude_rows e terminal' (close_run r) s2 (nonempty_runs (closed_runs (close_run r))) (messages w2)) as Hcon.
  rewrite Hseg2, Hfull2, Hfull1 in Hcon.
  specialize (Hcon Hfull Hsegs (ok_distinct _ _ _ _ Hok) Hne w2).
  destruct (conclude relay false e terminal' s2 w2) as [o w]. exists (text_segments s1).
  split; [exact (ok_distinct _ _ _ _ Hok)|]. split; [exact (ok_no_tool _ _ _ _ Hok)|].
  split; [exact (Forall2_length _ _ _ Hsegs)|]. apply Hcon. split; [|exact Hw2]. split; [|done]. exists U. by rewrite He2.
Qed.
End Text.

(** The status that the end of the stream gives to the messages. *)
Definition ending_status `{JsonValues} (ending : list Delivery) : string :=
  match ending with [Received e] => if is_error_event e then "error" else "finish" | _ => "finish" end.

(** C28. Text becomes messages.  In a calm environment (fresh ids, writes that
    succeed, a conversation not deleted) the text of a turn is stored as one
    message per run of text between two boundaries, in order and under ids of
    their own, no run lost, split or doubled: joined they are the whole text.
    If the middleware left the text alone they stay visible with the final
    status; if it rewrote the text, or nothing but white space is left, the
    first message holds the rewritten text and the others are hidden. *)
Theorem text_becomes_messages `{Printed} `{!TurnEnv E} relay (calm : gset string -> E -> Prop) tools U
    (es : list AgentStreamEvent.t) ending (w : World (E:=E)) :
  Calm relay calm ->
  calm U (env w) /\ dom (messages w) ⊆ U /\ tools ⊆ U /\ relay_msg_id relay ∈ U ->
  (relay_msg_id relay ∉ tools) /\ messages w !! relay_msg_id relay = None ->
  Forall (tools_known tools) es -> Forall (fun e => is_terminal_event e = false) es ->
  ending = [] \/ (exists e, ending = [Received e] /\ is_terminal_event e = true /\
    (is_error_event e = true -> defer_clean_terminal_errors relay = false)) ->
  full_text es <> "" ->
  let '(_, w') := consume relay (map Received es ++ ending) RelayState_start w in
  let runs := nonempty_runs (text_runs es) in
  String.concat "" runs = full_text es /\
  exists ids, NoDup ids /\ Forall (fun id => id ∉ tools) ids /\ length ids = length runs /\
    final_rows (ending_status ending) (full_text es) runs ids (messages w').
Proof.
  intros Hcalm (Hc & Hdom & HT & HU) (Hmsg & Hnew) Hk Ht Hend Hfull.
  assert (Hstart : text_inv relay calm tools ∅ (mkRuns [] "") RelayState_start w).
  { exists U. split; [set_solver|]. split; [done|]. split; simpl; try done; constructor. }
  destruct (inv_loop relay calm Hcalm tools Hmsg es _ RelayState_start ending Hk Ht w Hstart) as (s & w1 & -> & Hinv).
  set (r := run_list next_run (mkRuns [] "") es) in *.
  assert (Hruns : closed_runs (close_run r) = text_runs es).
  { unfold close_run. simpl. pose proof (run_list_runs es (mkRuns [] "")) as Hr. cbn zeta in Hr. fold r in Hr. rewrite Hr. simpl.
    by destruct (text_runs_nonempty es) as (run & runs & ->). }
  assert (Hcat : String.concat "" (closed_runs (close_run r)) = full_text es) by (by rewrite Hruns, concat_runs).
  pose proof (fun e t st => ending_rows relay calm Hcalm tools Hmsg e t st r s) as Hrows.
  destruct (inv_deleting relay calm Hcalm tools ∅ r s w1 Hinv) as [Hdel Hw2].
  destruct Hend as [->|(e & -> & Hte & Hdefer)].
  - cbn [consume]. unfold handle_closed. unfold st_bind at 1.
    destruct (relay_is_deleting relay w1) as [deleting w2]. simpl in Hdel, Hw2. subst deleting.
    specialize (Hrows (AgentStreamEvent.Finish None) RelayTerminal.ChannelClosed "finish" w2 Hw2).
    rewrite Hcat, Hruns in Hrows. specialize (Hrows Hfull (st_ret tt) (or_intror eq_refl)). unfold st_bind, st_ret in *.
    destruct (close_segments relay "finish" s w2) as [s' w3]. simpl in Hrows.
    destruct (conclude relay false _ _ s' w3) as [o w']. split; [|exact Hrows].
    unfold nonempty_runs. by rewrite concat_written, concat_runs.
  - cbn [consume handle_delivery]. unfold st_bind at 1 2.
    destruct (relay_is_deleting relay w1) as [deleting w2]. simpl in Hdel, Hw2. subst deleting. rewrite Hte.
    unfold handle_terminal. replace (defers relay (terminal_from_event e) s) with false.
    2: { unfold defers. destruct e; simpl; rewrite ?andb_false_r; try done. by rewrite (Hdefer eq_refl). }
    specialize (Hrows e (terminal_from_event e) (if is_error_event e then "error" else "finish") w2 Hw2).
    rewrite Hcat, Hruns in Hrows. specialize (Hrows Hfull (forward_to_websocket relay e) (or_introl eq_refl)).
    unfold st_bind, st_ret in *. destruct (close_segments relay _ s w2) as [s' w3].
    destruct (forward_to_websocket relay e w3) as [u w4].
    destruct (conclude relay false e _ (record_error false e s') w4) as [o w']. split; [|exact Hrows].
    unfold nonempty_runs. by rewrite concat_written, concat_runs.
Qed.

#[local] Existing Instance demo_json.
#[local] Existing Instance demo_printed.
#[local] Existing Instance demo_env.

(** Ids numbered from the counter on are free. *)
Definition demo_calm (U : gset string) (e : Demo) : Prop :=
  demo_failures e = [] /\ forall n, demo_ids e <= n -> ("id" +:+ pretty n) ∉ U.

Lemma demo_calm_ok relay : Calm relay demo_calm.
Proof.
  split; try (by intros); simpl.
  - intros U [n l] [Hl Hn]. simpl in *. split; [by apply Hn|]. split; [done|]. simpl. intros k Hk.
    rewrite not_elem_of_union, not_elem_of_singleton. split; [|apply Hn; lia].
    intros Heq. assert (pretty k = pretty n) as Hp by (by injection Heq). apply (inj pretty) in Hp. lia.
  - intros U [n l] [Hl Hn]. simpl in *. by subst.
Qed.

Definition demo_events : list AgentStreamEvent.t :=
  [AgentStreamEvent.Text "Hello "; AgentStreamEvent.Text "there."; demo_call "t1"; AgentStreamEvent.Text "Done."].

Lemma text_becomes_messages_witness :
  let '(_, w') := consume (demo_relay false) (map Received demo_events ++ [Received (AgentStreamEvent.Finish None)])
                    RelayState_start (demo_world []) in
  String.concat "" ["Hello there."; "Done."] = "Hello there.Done." /\
  exists ids, NoDup ids /\ Forall (fun id => id ∉ ({["t1"]} : gset string)) ids /\ length ids = 2 /\
    final_rows "finish" "Hello there.Done." ["Hello there."; "Done."] ids (messages w').
Proof.
  apply (text_becomes_messages (demo_relay false) demo_calm {["t1"]} {["t1"; "msg"]} demo_events
    [Received (AgentStreamEvent.Finish None)] (demo_world [])).
  - apply demo_calm_ok.
  - split; [|split; [|split]]; [split; [done|]|set_solver|set_solver|set_solver].
    intros n _. rewrite not_elem_of_union, !not_elem_of_singleton. by split.
  - split; [|done]. rewrite not_elem_of_singleton. done.
  - repeat constructor; simpl; set_solver.
  - repeat constructor.
  - right. by eexists.
  - done.
Defined.
