(* ===== verification/RelayOutcome.v ===== *)
(** * What the outcome of a relay tells

    Lemmas on [StreamRelay.consume] for the orchestrator of the turn: frames are
    only ever added; system responses come with output; an error that ends the
    stream is in the summary and was shown to the clients, unless it is
    deferred; and a relay that may defer does defer every clean error. *)

From S2P Require Import Prelude TurnClaims TurnEvents TurnMessages StreamRelay.
Open Scope tjuae_scope.

(** ** Frames are only added *)
Section Growing.
Context `{Printed} {E : Type} `{!TurnEnv E}.
#[local] Abbreviation World := (World (E:=E)).

Definition growing {A : Type} (m : St World A) : Prop :=
  forall w, exists fs, frames (snd (m w)) = frames w ++ fs.

Lemma growing_ret {A} (a : A) : growing (st_ret a).
Proof. intros w. exists []. by rewrite app_nil_r. Qed.
Lemma growing_bind {A B} (m : St World A) (f : A -> St World B) :
  growing m -> (forall a, growing (f a)) -> growing (st_bind m f).
Proof.
  intros Hm Hf w. unfold st_bind. destruct (Hm w) as [fs Hfs]. destruct (m w) as [a w1].
  destruct (Hf a w1) as [fs' Hfs']. exists (fs ++ fs'). simpl in Hfs. by rewrite Hfs', Hfs, app_assoc.
Qed.
Lemma growing_same {A} (m : St World A) : (forall w, frames (snd (m w)) = frames w) -> growing m.
Proof. intros Hm w. exists []. by rewrite Hm, app_nil_r. Qed.
Lemma growing_ask {A} (f : E -> A * E) : growing (ask f).
Proof. apply growing_same. intros w. unfold ask. by destruct (f (env w)). Qed.
Lemma growing_broadcast f : growing (broadcast f).
Proof. intros w. by exists [f]. Qed.
Lemma growing_each {A} (f : A -> St World unit) (l : list A) : (forall a, growing (f a)) -> growing (st_each f l).
Proof.
  intros Hf. induction l as [|a l IH]; simpl; [apply growing_ret|]. by apply growing_bind.
Qed.
Lemma growing_gets {A} (f : World -> A) : growing (st_gets f).
Proof. by apply growing_same. Qed.

Lemma growing_insert row : growing (insert_message row).
Proof. apply growing_bind; [apply growing_ask|]. intros b. apply growing_same. intros w. by destruct (_ || _). Qed.
Lemma growing_update id u : growing (update_message id u).
Proof.
  apply growing_bind; [apply growing_ask|]. intros b. apply growing_same. intros w.
  destruct (messages w !! id); [by destruct b|done].
Qed.
Lemma growing_upsert row : growing (upsert_message row).
Proof. apply growing_bind; [apply growing_ask|]. intros b. apply growing_same. intros w. by destruct b. Qed.
Lemma growing_finish : growing finish_conversation.
Proof. apply growing_bind; [apply growing_ask|]. intros b. apply growing_same. intros w. by destruct b. Qed.
End Growing.

(** The components' operations are unfolded down to these. *)
Create HintDb growing.
#[export] Hint Resolve growing_ret growing_ask growing_broadcast growing_gets growing_insert growing_update
  growing_upsert growing_finish : growing.
Ltac grow :=
  repeat first
    [ solve [auto with growing]
    | apply growing_bind; [|intros ?]
    | apply growing_each; intros ?
    | match goal with
      | |- growing (match ?x with _ => _ end) => destruct x
      | |- growing (let _ := _ in _) => cbv zeta
      | |- growing ?m => let h := eval hnf in m in progress change (growing h)
      end ].

Section RelayGrowing.
Context `{Printed} {E : Type} `{!TurnEnv E}.
#[local] Abbreviation World := (World (E:=E)).

Lemma growing_allows a kind : growing (E:=E) (allows_write a kind).
Proof. unfold allows_write, coordinator_allows. grow. Qed.
Lemma growing_when a kind m : growing (E:=E) m -> growing (when_allowed a kind m).
Proof. intros Hm. apply growing_bind; [apply growing_allows|]. intros []; [done|apply growing_ret]. Qed.
Lemma growing_report conversation err top : growing (E:=E) (persist_and_broadcast_send_failure_tip conversation err top).
Proof. unfold persist_and_broadcast_send_failure_tip, persist_send_failure_tip, coordinator_allows. grow. Qed.
Lemma growing_publish conversation runtime : growing (E:=E) (completion_publish conversation runtime).
Proof. unfold completion_publish, coordinator_allows. grow. Qed.
#[local] Hint Resolve growing_allows growing_when growing_publish : growing.

Context (relay : StreamRelay).

Lemma growing_close status s : growing (E:=E) (close_segments relay status s).
Proof.
  unfold close_segments, complete_active_thinking, persist_thinking_segment, close_active_text_segment,
    finalize_text_segment, forward_with_msg_id. grow.
Qed.
Lemma growing_mint s : growing (E:=E) (mint_segment_msg_id relay s).
Proof. unfold mint_segment_msg_id. grow. Qed.
#[local] Hint Resolve growing_close growing_mint : growing.

Lemma growing_progress e s : growing (E:=E) (handle_progress relay e s).
Proof.
  destruct e; simpl; unfold handle_text, handle_thinking, handle_tool, handle_tips, thinking_segment, text_segment,
    store_text, flush_text_segment, complete_active_thinking, persist_thinking_segment, close_active_text_segment,
    finalize_text_segment, persist_tip, persist_tool_call, persist_acp_tool_call, persist_tool_group,
    get_message_by_msg_id, forward_to_websocket, forward_with_msg_id; grow.
Qed.
Lemma growing_conclude deleting e terminal' s : growing (E:=E) (conclude relay deleting e terminal' s).
Proof.
  unfold conclude, finalize, process_final_text, load_skill_bodies, persist_final_text, persist_error_tip, hide_superseded,
    restate_segment, send_final_text_override, send_system_response, complete_conversation. grow.
Qed.
Lemma growing_deleting : growing (E:=E) (relay_is_deleting relay).
Proof. unfold relay_is_deleting. grow. Qed.
#[local] Hint Resolve growing_progress growing_conclude growing_deleting : growing.

Lemma growing_consume ds s : growing (E:=E) (consume relay ds s).
Proof.
  revert s. induction ds as [|d ds IH]; intros s; simpl.
  - unfold handle_closed. grow.
  - apply growing_bind; [|intros [s'|o]; [apply IH|apply growing_ret]].
    destruct d; simpl; unfold handle_terminal, handle_closed, forward_to_websocket, forward_with_msg_id; grow.
Qed.
End RelayGrowing.
#[export] Hint Resolve growing_report growing_publish growing_consume : growing.

(** ** The outcome *)
Section Outcome.
Context `{Printed} {E : Type} `{!TurnEnv E} (relay : StreamRelay).
#[local] Abbreviation World := (World (E:=E)).

(** Among the frames sent since [w0] is the error. *)
Definition shown (data : ErrorEventData) (w0 w : World) : Prop :=
  exists fs, frames w = frames w0 ++ fs /\ Frame.Event (relay_msg_id relay) (AgentStreamEvent.Error data) ∈ fs.

Definition since (w0 w : World) : Prop := exists fs, frames w = frames w0 ++ fs.
Lemma shown_later data w0 w1 w2 : shown data w0 w1 -> since w1 w2 -> shown data w0 w2.
Proof. intros (fs & F & Hin) [fs' F']. exists (fs ++ fs'). rewrite F', F, app_assoc. split; [done|]. apply elem_of_app. by left. Qed.
Lemma shown_earlier data w0 w1 w2 : since w0 w1 -> shown data w1 w2 -> shown data w0 w2.
Proof. intros [fs F] (fs' & F' & Hin). exists (fs ++ fs'). rewrite F', F, app_assoc. split; [done|]. apply elem_of_app. by right. Qed.

Record outcome_ok (w0 : World) (o : RelayOutcome) (w : World) : Prop := {
  outcome_responses : system_responses o <> [] -> persisted_assistant_output (attempt o) = true;
  outcome_error : terminal_is_error (terminal o) = true -> exists data,
    terminal_error (attempt o) = Some data /\ terminal o = RelayTerminal.Error (code data) (retryable data) /\
    (terminal_error_deferred (attempt o) = true \/ shown data w0 w);
  outcome_deferred : terminal_retryable (terminal o) = Some true ->
    terminal_code (terminal o) <> Some AgentErrorCode.UserLlmProviderModelNotFound ->
    safe_to_auto_replay (attempt o) = true -> defer_clean_terminal_errors relay = true ->
    terminal_error_deferred (attempt o) = true;
  outcome_not_deferred : defer_clean_terminal_errors relay = false -> terminal_error_deferred (attempt o) = false;
}.

Lemma finalize_responses text segments e (w : World) :
  text = "" -> fst (finalize relay text segments e w) = [].
Proof.
  intros ->. unfold finalize. simpl. destruct e; try done. unfold st_bind. by destruct (persist_error_tip _ _ w).
Qed.

(** The outcome of [conclude], and what was in the frames before. *)
Lemma conclude_outcome deleting e terminal' s (w : World) :
  let '(o, w') := conclude relay deleting e terminal' s w in
  terminal o = terminal' /\ attempt o = final_summary s /\
  (system_responses o <> [] -> persisted_assistant_output (attempt o) = true) /\
  since w w'.
Proof.
  pose proof (growing_conclude relay deleting e terminal' s w) as Hfs.
  unfold conclude, st_bind in *. destruct deleting; simpl in *.
  - rewrite andb_false_r in *. simpl in *. split_and!; try done.
  - pose proof (finalize_responses (full_text_buffer s) (text_segments s) e w) as Hr.
    destruct (finalize relay _ _ e w) as [rs w1]. set (m := if complete_turn relay && true then _ else _) in *.
    destruct (m w1) as [[] w2].
    simpl in *. split_and!; try done. intros Hne. case_bool_decide as Ht; simpl; [|by rewrite orb_true_r]. destruct Hne. by apply Hr.
Qed.

Lemma safe_final s : safe_to_auto_replay (final_summary s) = true -> safe_to_auto_replay (summary s) = true.
Proof.
  unfold safe_to_auto_replay, final_summary. simpl.
  destruct (saw_visible_output _), (saw_tool_or_side_effect _), (persisted_assistant_output _); done.
Qed.

Lemma terminal_ok deleting e s (w : World) :
  terminal_error_deferred (summary s) = false -> is_terminal_event e = true ->
  let '(o, w') := handle_terminal relay deleting e s w in outcome_ok w o w'.
Proof.
  intros Hd He. unfold handle_terminal. destruct (defers relay (terminal_from_event e) s) eqn:Hdef.
  { unfold defers in Hdef. apply andb_true_iff in Hdef as [[[Hw Ht]%andb_true_iff _]%andb_true_iff Hs].
    destruct e as [| | | | | | | | | | | | | | | | | | | | | |data| | | |]; try done. simpl in *. split; simpl; try done.
    - intros _. exists data. split_and!; try done. left. by rewrite orb_true_r.
    - intros _ _ _ _. by rewrite orb_true_r.
    - by rewrite Hw. }
  unfold st_bind. pose proof (close_keeps_deferred relay deleting (if is_error_event e then "error" else "finish") s
    (fun _ => True) w I) as Hc1.
  assert (Hsum : triple (fun _ : World => True) (if deleting then st_ret s else close_segments relay
    (if is_error_event e then "error" else "finish") s) (summary_is (summary s)))
    by (destruct deleting; [done|apply summary_close]).
  specialize (Hsum w I). unfold summary_is in Hsum.
  assert (Hgrow : growing (if deleting then st_ret s else close_segments relay
    (if is_error_event e then "error" else "finish") s)) by (destruct deleting; [apply growing_ret|apply growing_close]).
  specialize (Hgrow w).
  set (m := if deleting then st_ret s else _) in *. destruct (m w) as [s1 w1]. cbn [fst snd] in *.
  unfold forward_to_websocket, forward_with_msg_id, broadcast, st_modify.
  set (w2 := mkWorld _ _ _ _). pose proof (conclude_outcome deleting e (terminal_from_event e) (record_error false e s1) w2) as Hc.
  destruct (conclude _ _ _ _ _ w2) as [o w3]. destruct Hc as (Ht & Ha & Hr & Hsh). split; [done| | |].
  - rewrite Ht, Ha. destruct e as [| | | | | | | | | | | | | | | | | | | | | |data| | | |]; try done. intros _. exists data.
    split_and!; try done. right. apply (shown_earlier data w w1 w3); [exact Hgrow|].
    eapply shown_later; [|exact Hsh]. exists [Frame.Event (relay_msg_id relay) (AgentStreamEvent.Error data)].
    split; [done|by left].
  - rewrite Ht, Ha. destruct e as [| | | | | | | | | | | | | | | | | | | | | |data| | | |]; try done. simpl.
    intros Hret Hmnf Hsafe%safe_final Hw. unfold defers in Hdef. simpl in *.
    rewrite Hw, Hret in Hdef. rewrite Hsum in Hsafe. rewrite bool_decide_false in Hdef by done.
    unfold safe_to_auto_replay in *. simpl in *. by rewrite Hsafe in Hdef.
  - intros _. rewrite Ha. destruct e; simpl; rewrite ?orb_false_r; congruence.
Qed.

Lemma closed_ok s (w : World) : terminal_error_deferred (summary s) = false ->
  let '(o, w') := handle_closed relay s w in outcome_ok w o w'.
Proof.
  intros Hd. unfold handle_closed, st_bind. destruct (relay_is_deleting relay w) as [deleting w1].
  pose proof (close_keeps_deferred relay deleting "finish" s (fun _ => True) w1 I) as Hc1.
  set (m := if deleting then st_ret s else _) in *. destruct (m w1) as [s1 w2]. cbn [fst snd] in *.
  pose proof (conclude_outcome deleting (AgentStreamEvent.Finish None) RelayTerminal.ChannelClosed s1 w2) as Hc.
  destruct (conclude _ _ _ _ _ w2) as [o w3]. destruct Hc as (Ht & Ha & Hr & _). split; rewrite ?Ht; try done.
  intros _. rewrite Ha. simpl. congruence.
Qed.

Lemma outcome_from w0 w1 o w : since w0 w1 -> outcome_ok w1 o w -> outcome_ok w0 o w.
Proof.
  intros Hs [Hr He Hd Hn]. split; try done. intros Ht. destruct (He Ht) as (data & Hte & Hto & [Hdef|Hsh]);
    exists data; (split; [done|split; [done|]]); [by left|right]. by eapply shown_earlier.
Qed.

Lemma since_refl w : since w w.
Proof. exists []. by rewrite app_nil_r. Qed.

Lemma consume_ok ds s (w : World) : terminal_error_deferred (summary s) = false ->
  let '(o, w') := consume relay ds s w in outcome_ok w o w'.
Proof.
  revert s w. induction ds as [|d ds IH]; intros s w Hd; simpl; [by apply closed_ok|].
  unfold st_bind at 1. destruct d as [e|n|]; simpl.
  - unfold st_bind at 1. pose proof (growing_deleting relay w) as G1.
    destruct (relay_is_deleting relay w) as [deleting w1]. cbn [snd] in G1. destruct (is_terminal_event e) eqn:He.
    + pose proof (terminal_ok deleting e s w1 Hd He) as Ht. unfold st_bind.
      destruct (handle_terminal _ _ _ _ w1). by eapply outcome_from.
    + destruct deleting.
      { specialize (IH s w1 Hd). simpl. destruct (consume relay ds s w1). by eapply outcome_from. }
      pose proof (summary_progress relay e s w1) as Hs. pose proof (growing_progress relay e s w1) as G2. unfold st_bind.
      destruct (handle_progress relay e s w1) as [s1 w2]. cbn [fst snd] in *. simpl.
      specialize (IH s1 w2). destruct (consume relay ds s1 w2). eapply outcome_from; [exact G1|].
      eapply outcome_from; [exact G2|]. apply IH. by rewrite Hs, note_deferred.
  - by apply IH.
  - pose proof (closed_ok s w Hd) as Ht. unfold st_bind. by destruct (handle_closed _ _ w).
Qed.
End Outcome.
