(* ===== verification/TurnFlow.v ===== *)
(** * A user turn
    ([crates/tjuaeui-conversation/src/turn_orchestrator.rs])

    The orchestrator of one turn: it gets an agent, sends the message, lets a
    relay follow the stream, goes on with the system responses the text asked
    for, replays the whole turn once after a failure nobody saw, reports what
    went wrong, and gives the conversation back.  It composes the relay, the
    policies and the turn claims.

    The agent, the other tables of the database and the availability service
    are the environment; what is asked of them is recorded in order.  The send
    runs beside the relay: its failure is one of the deliveries the relay sees. *)

From S2P Require Import Prelude TurnClaims TurnEvents TurnMessages StreamRelay.
Open Scope tjuae_scope.

Definition CODEX_CANONICAL_FULL_ACCESS_MODE : string := "agent-full-access".
Definition CODEX_LEGACY_FULL_ACCESS_MODE : string := "full-access".

Definition normalize_required_mode_for_catalog (backend : option string) (mode : string)
    (available_ids : list string) : string :=
  if negb (bool_decide (backend = Some "codex")) || negb (bool_decide (mode = CODEX_CANONICAL_FULL_ACCESS_MODE))
  then mode
  else if negb (bool_decide (CODEX_CANONICAL_FULL_ACCESS_MODE ∈ available_ids))
          && bool_decide (CODEX_LEGACY_FULL_ACCESS_MODE ∈ available_ids)
  then CODEX_LEGACY_FULL_ACCESS_MODE
  else mode.

(** A failure as it is reported: the error shown, its code and its message. *)
Record Failure : Type := mkFailure {
  failure_error : ErrorEventData;
  failure_code : string;
  failure_message : string;
}.

(** A send; of [SendMessageData] the files and skills go with the first. *)
Record SendMessageData : Type := mkSend { send_content : string; send_msg_id : string; send_first : bool }.

(** What the orchestrator asks of the rest of the program. *)
Module TurnCall.
Inductive t : Type :=
| Build
| SetMode (mode : string)
| Send (data : SendMessageData)
| Evict (error_code : option AgentErrorCode.t)
| RefreshAnchor
| Report (err : ErrorEventData) (top_level_code : option string)
| SessionFailure (code message : string)
| SessionSuccess.
End TurnCall.

(** [Options]: the options an agent is built from.  [deliveries] is what the
    relay of one send sees, [stored_session_key] the key in the conversation's
    row, if the row is found. *)
Class TurnDriver `{TurnEnv E} (Options : Type) : Type := {
  put_runtime : ConversationRuntimeStateService -> E -> E;
  get_or_build_task : Options -> E -> Result AgentType.t Failure * E;
  maybe_persist_workspace : E -> Result unit Failure * E;
  live_mode_catalog : E -> option (list string) * E;
  set_mode_option : string -> E -> Result unit Failure * E;
  deliveries : SendMessageData -> E -> list Delivery * E;
  get_session_key : E -> option string * E;
  stored_session_key : E -> option (option string) * E;
  update_session_key : string -> E -> bool * E;
  refresh_resume_anchor : Options -> E -> Options * E;
  task_view : E -> (option ConversationStatus.t * bool * nat) * E;
}.

Section TurnFlow.
Context `{Printed} {E : Type} `{!TurnEnv E} {Options : Type} `{!TurnDriver Options}.

(** [TurnStartInput], and what of the service's settings is used. *)
Record TurnStartInput : Type := mkTurnStart {
  conv_id : string;
  turn_id_of : string;
  content : string;
  required_runtime_mode : option string;
  backend : option string;
  skills : list string;
  has_availability : bool;
}.

Record Turn : Type := mkTurn {
  world : World (E:=E);
  calls : list TurnCall.t;
  claim : TurnClaim;
  options : Options;
}.

Definition lift {A : Type} (m : St (World (E:=E)) A) : St Turn A :=
  fun t => let '(a, w) := m (world t) in (a, mkTurn w (calls t) (claim t) (options t)).
Definition asks {A : Type} (f : E -> A * E) : St Turn A := lift (ask f).
Definition record_call (c : TurnCall.t) : St Turn unit :=
  st_modify (fun t => mkTurn (world t) (calls t ++ [c]) (claim t) (options t)).

Context (input : TurnStartInput).

Definition lifecycle_now : St Turn RuntimeLifecycleState.t :=
  let* rt := asks runtime_state in st_ret (lifecycle_for (conv_id input) rt).

(** [record_agent_session_failure], [record_agent_session_success]. *)
Definition record_session_failure (code message : string) : St Turn unit :=
  if has_availability input then record_call (TurnCall.SessionFailure code message) else st_ret tt.
Definition record_session_success : St Turn unit :=
  if has_availability input then record_call TurnCall.SessionSuccess else st_ret tt.

Definition report (err : ErrorEventData) (top_level_code : option string) : St Turn unit :=
  record_call (TurnCall.Report err top_level_code);;
  lift (persist_and_broadcast_send_failure_tip (conv_id input) err top_level_code).

(** *** The required mode *)

Definition resolve_required_runtime_mode (mode : string) : St Turn string :=
  if negb (bool_decide (backend input = Some "codex")) || negb (bool_decide (mode = CODEX_CANONICAL_FULL_ACCESS_MODE))
  then st_ret mode
  else
    let* ids := asks live_mode_catalog in
    st_ret (match ids with
            | Some ids => normalize_required_mode_for_catalog (backend input) mode ids
            | None => mode
            end).

Definition apply_required_runtime_mode (mode : string) : St Turn (Result unit Failure) :=
  let* effective := resolve_required_runtime_mode mode in
  record_call (TurnCall.SetMode effective);;
  asks (set_mode_option effective).

(** The mode to apply before each send, trimmed. *)
Definition wanted_mode : option string :=
  match required_runtime_mode input with
  | Some mode => if bool_decide (str_trim mode = "") then None else Some (str_trim mode)
  | None => None
  end.

Definition ensure_mode : St Turn (Result unit Failure) :=
  match wanted_mode with Some mode => apply_required_runtime_mode mode | None => st_ret (Ok tt) end.

(** *** One attempt *)

Record TurnAttemptResult : Type := mkAttemptResult {
  result_outcome : RelayOutcome;
  result_summary : TurnAttemptSummary;
  result_agent_type : AgentType.t;
}.

Definition turn_relay (msg_id : string) (defer : bool) : StreamRelay :=
  mkRelay (mkAdapter (conv_id input) msg_id true) true (skills input) true false defer.

(** [persist_session_key], if the agent has a key. *)
Definition persist_session_key (session_key : string) : St Turn unit :=
  let* ok := lift (coordinator_allows (conv_id input) RuntimeWriteKind.SessionKey) in
  if negb ok then st_ret tt
  else
    let* stored := asks stored_session_key in
    match stored with
    | None => st_ret tt
    | Some known =>
        if bool_decide (known = Some session_key) then st_ret tt
        else asks (update_session_key session_key);; st_ret tt
    end.
Definition persist_agent_key : St Turn unit :=
  let* key := asks get_session_key in
  match key with Some key => persist_session_key key | None => st_ret tt end.

(** One send and its relay; an [Err] if the mode could not be set. *)
Definition send_and_relay (defer : bool) (agent : AgentType.t) (aggregate : TurnAttemptSummary)
    (data : SendMessageData) : St Turn (Result (RelayOutcome * RuntimeLifecycleState.t) Failure) :=
  let* lifecycle := lifecycle_now in
  let defers := defer && bool_decide (agent = AgentType.Acp) &&
    bool_decide (lifecycle = RuntimeLifecycleState.Active) && safe_to_auto_replay aggregate in
  let* mode := ensure_mode in
  match mode with
  | Err failure => st_ret (Err failure)
  | Ok _ =>
      record_call (TurnCall.Send data);;
      let* ds := asks (deliveries data) in
      let* outcome := lift (consume (turn_relay (send_msg_id data) defers) ds RelayState_start) in
      st_ret (Ok (outcome, lifecycle))
  end.

(** The loop over sends: [fuel] bounds the continuations; [None] only if it
    runs out. *)
Fixpoint attempt_loop (fuel : nat) (defer : bool) (agent : AgentType.t) (aggregate : TurnAttemptSummary)
    (continuation_count : nat) (data : SendMessageData) : St Turn (option (Result TurnAttemptResult string)) :=
  match fuel with
  | 0 => st_ret None
  | S fuel =>
      let* sent := send_and_relay defer agent aggregate data in
      match sent with
      | Err failure =>
          report (failure_error failure) (Some (failure_code failure));;
          st_ret (Some (Err (failure_message failure)))
      | Ok (outcome, lifecycle) =>
          let aggregate := attempt_merge aggregate (attempt outcome) in
          persist_agent_key;;
          match continuation_decide MAX_SYSTEM_RESPONSE_CONTINUATIONS_PER_TURN continuation_count outcome lifecycle with
          | ContinuationDecision.Continue content next_count =>
              let* id := asks generate_short_id in
              attempt_loop fuel defer agent aggregate next_count (mkSend content id false)
          | ContinuationDecision.Stop _ => st_ret (Some (Ok (mkAttemptResult outcome aggregate agent)))
          end
      end
  end.

Definition ATTEMPT_FUEL : nat := S MAX_SYSTEM_RESPONSE_CONTINUATIONS_PER_TURN.

(** An [Err] is a failed turn with its message. *)
Definition run_attempt (defer : bool) (data : SendMessageData) : St Turn (option (Result TurnAttemptResult string)) :=
  record_call TurnCall.Build;;
  let* opts := st_gets options in
  let* built := asks (get_or_build_task opts) in
  match built with
  | Err failure =>
      record_session_failure "session_build_failed" (failure_message failure);;
      report (failure_error failure) (Some (failure_code failure));;
      st_ret (Some (Err (failure_message failure)))
  | Ok agent =>
      let* persisted := asks maybe_persist_workspace in
      match persisted with
      | Err failure =>
          report (failure_error failure) (Some (failure_code failure));;
          st_ret (Some (Err (failure_message failure)))
      | Ok _ => attempt_loop ATTEMPT_FUEL defer agent TurnAttemptSummary_default 0 data
      end
  end.

(** *** The turn *)

(** [evict_acp_task_after_terminal_error]. *)
Definition evict_acp_task (agent : AgentType.t) (outcome : RelayOutcome) : St Turn unit :=
  if negb (bool_decide (agent = AgentType.Acp)) || negb (terminal_is_error (terminal outcome)) then st_ret tt
  else record_call (TurnCall.Evict (terminal_code (terminal outcome))).

Definition refresh_anchor : St Turn unit :=
  record_call TurnCall.RefreshAnchor;;
  let* opts := st_gets options in
  let* opts := asks (refresh_resume_anchor opts) in
  st_modify (fun t => mkTurn (world t) (calls t) (claim t) opts).

(** How an iteration of the outer loop ends. *)
Inductive Iteration : Type :=
| Ended (failed : bool) (error_message : option string) (auth_failure : bool)
| Replayed (auth_failure : bool).

(** The error of the last attempt is final. *)
Definition give_in (r : TurnAttemptResult) (lifecycle : RuntimeLifecycleState.t) : St Turn unit :=
  (match terminal_error_deferred (attempt (result_outcome r)), terminal_error (attempt (result_outcome r)) with
   | true, Some data => report data None
   | _, _ => st_ret tt
   end);;
  match health_decide (result_agent_type r) (result_outcome r) lifecycle with
  | AgentHealthAction.Keep => st_ret tt
  | AgentHealthAction.EvictAcpTask _ _ _ => evict_acp_task (result_agent_type r) (result_outcome r)
  end.

Definition iteration (replayed auth_before : bool) (data : SendMessageData) : St Turn (option Iteration) :=
  let* result := run_attempt (negb replayed) data in
  match result with
  | None => st_ret None
  | Some (Err message) => st_ret (Some (Ended true (Some message) auth_before))
  | Some (Ok r) =>
      let auth := terminal_is_auth_failure (result_outcome r) in
      let* lifecycle := lifecycle_now in
      if negb (terminal_is_error (terminal (result_outcome r))) then st_ret (Some (Ended false None auth))
      else
        let message := turn_attempt_error_message (result_summary r) in
        let recovery_outcome := mkOutcome (system_responses (result_outcome r)) (terminal (result_outcome r))
                                  (result_summary r) in
        match recovery_decide (result_agent_type r) recovery_outcome lifecycle replayed with
        | TurnRecoveryDecision.AutoReplayOnce _ _ =>
            evict_acp_task (result_agent_type r) (result_outcome r);;
            refresh_anchor;;
            st_ret (Some (Replayed auth))
        | TurnRecoveryDecision.None_ =>
            give_in r lifecycle;;
            st_ret (Some (Ended true message auth))
        end
  end.

(** The outer loop: failed, the message, and the last sign of a missing login. *)
Fixpoint turn_loop (fuel : nat) (replayed auth : bool) (data : SendMessageData)
    : St Turn (option (bool * option string * bool)) :=
  match fuel with
  | 0 => st_ret None
  | S fuel =>
      let* it := iteration replayed auth data in
      match it with
      | None => st_ret None
      | Some (Ended failed message auth) => st_ret (Some (failed, message, auth))
      | Some (Replayed auth) => turn_loop fuel true auth data
      end
  end.

Definition TURN_FUEL : nat := 2.

(** [turn_claim.release_for_turn]: on the runtime state as it is then. *)
Definition release_claim : St Turn bool :=
  let* rt := asks runtime_state in
  fun t =>
    let '(was_deleting, c, rt) := release_for_turn true (turn_id_of input) (claim t) rt in
    (was_deleting, mkTurn (set_env (put_runtime rt (env (world t))) (world t)) (calls t) c (options t)).

(** [complete_released_turn], [complete_turn]. *)
Definition complete_released_turn (was_deleting : bool) : St Turn unit :=
  if was_deleting then st_ret tt
  else
    let* (status, has, pending) := asks task_view in
    let* rt := asks runtime_state in
    lift (completion_publish (conv_id input) (Some (summary_from_parts (conv_id input) status has pending rt))).

Record ConversationTurnResult : Type := mkTurnResult { turn_failed : bool; turn_error_message : option string }.

Definition feedback (failed auth : bool) (message : option string) : St Turn unit :=
  if auth then record_session_failure "auth_required" (default "Agent requires sign-in to run." message)
  else if failed then st_ret tt else record_session_success.

(** What follows the loop. *)
Definition finish_turn (failed auth : bool) (message : option string) : St Turn ConversationTurnResult :=
  feedback failed auth message;;
  let* was_deleting := release_claim in
  complete_released_turn was_deleting;;
  st_ret (mkTurnResult failed (if failed then message else None)).

Definition run_user_turn : St Turn (option ConversationTurnResult) :=
  let* id := asks generate_short_id in
  let* ended := turn_loop TURN_FUEL false false (mkSend (content input) id true) in
  match ended with
  | None => st_ret None
  | Some (failed, message, auth) => let* r := finish_turn failed auth message in st_ret (Some r)
  end.
End TurnFlow.
