(* ===== verification/TurnTheorems.v ===== *)
(** * Properties of a user turn

    Of [TurnFlow]: every turn ends, with a bounded number of builds and sends
    and its claim given back; a failure is told to the user; and a turn that is
    replayed was not seen. *)

From S2P Require Import Prelude TurnClaims TurnEvents TurnMessages StreamRelay RelayOutcome TurnFlow.
Open Scope tjuae_scope.

Section Counting.
Context `{Printed} {E : Type} `{!TurnEnv E} {Options : Type} `{!TurnDriver Options}.
#[local] Abbreviation T := (Turn (E:=E) (Options:=Options)).

(** ** What is asked *)

Definition is_build (c : TurnCall.t) : bool := match c with TurnCall.Build => true | _ => false end.
Definition is_send (c : TurnCall.t) : bool := match c with TurnCall.Send _ => true | _ => false end.
Definition is_refresh (c : TurnCall.t) : bool := match c with TurnCall.RefreshAnchor => true | _ => false end.
Definition count_calls (p : TurnCall.t -> bool) (l : list TurnCall.t) : nat := length (List.filter p l).

Lemma count_app p l1 l2 : count_calls p (l1 ++ l2) = count_calls p l1 + count_calls p l2.
Proof. unfold count_calls. by rewrite List.filter_app, length_app. Qed.

(** From [t] to [t']: at most so many builds, sends and refreshes; frames were
    only added, and the claim is the same. *)
Record does (b s r : nat) (t t' : T) : Prop := {
  does_calls : exists new, calls t' = calls t ++ new /\ count_calls is_build new <= b /\
    count_calls is_send new <= s /\ count_calls is_refresh new <= r;
  does_frames : since (world t) (world t');
  does_claim : claim t' = claim t;
}.
Definition doing {A : Type} (b s r : nat) (m : St T A) : Prop := forall t, does b s r t (snd (m t)).

Lemma does_refl b s r t : does b s r t t.
Proof. split; [|apply since_refl|done]. exists []. rewrite app_nil_r. split_and!; [done|apply Nat.le_0_l..]. Qed.

Lemma does_trans b s r b' s' r' t t1 t2 :
  does b s r t t1 -> does b' s' r' t1 t2 -> does (b + b') (s + s') (r + r') t t2.
Proof.
  intros [(n1 & C1 & B1 & S1 & R1) [f1 F1] E1] [(n2 & C2 & B2 & S2 & R2) [f2 F2] E2]. split.
  - exists (n1 ++ n2). rewrite C2, C1, app_assoc, !count_app. split_and!; [done|lia..].
  - exists (f1 ++ f2). by rewrite F2, F1, app_assoc.
  - congruence.
Qed.

Lemma does_weaken b s r b' s' r' t t' : b <= b' -> s <= s' -> r <= r' -> does b s r t t' -> does b' s' r' t t'.
Proof. intros Hb Hs Hr [(n & C & B & S & R) F K]. split; try done. exists n. split_and!; [done|lia..]. Qed.

Lemma doing_ret {A} (a : A) b s r : doing b s r (st_ret a).
Proof. intros t. apply does_refl. Qed.
Lemma doing_bind {A B} (m : St T A) (f : A -> St T B) b s r b' s' r' :
  doing b s r m -> (forall a, doing b' s' r' (f a)) -> doing (b + b') (s + s') (r + r') (st_bind m f).
Proof.
  intros Hm Hf t. unfold st_bind. specialize (Hm t). destruct (m t) as [a t1].
  eapply does_trans; [exact Hm|apply Hf].
Qed.
(** The first part asks for nothing. *)
Lemma doing_seq {A B} (m : St T A) (f : A -> St T B) b s r :
  doing 0 0 0 m -> (forall a, doing b s r (f a)) -> doing b s r (st_bind m f).
Proof. intros Hm Hf. by apply (doing_bind m f 0 0 0 b s r). Qed.

Lemma doing_call c : doing (if is_build c then 1 else 0) (if is_send c then 1 else 0) (if is_refresh c then 1 else 0)
  (record_call (E:=E) (Options:=Options) c).
Proof.
  intros t. split; [|exists []; by rewrite app_nil_r|done]. exists [c]. split; [done|].
  unfold count_calls. simpl. by destruct c.
Qed.
Lemma doing_lift {A} (m : St (World (E:=E)) A) : growing m -> doing 0 0 0 (lift (Options:=Options) m).
Proof.
  intros Hm t. unfold lift. specialize (Hm (world t)). destruct (m (world t)) as [a w]. split; [|done|done].
  exists []. rewrite app_nil_r. split_and!; simpl; done.
Qed.
Lemma doing_asks {A} (f : E -> A * E) : doing 0 0 0 (asks (Options:=Options) f).
Proof. apply doing_lift, growing_ask. Qed.
Lemma doing_gets {A} (f : T -> A) : doing 0 0 0 (st_gets f).
Proof. intros t. apply does_refl. Qed.
End Counting.

Create HintDb doing.
#[export] Hint Resolve doing_ret doing_asks doing_gets : doing.
#[export] Hint Extern 1 (doing _ _ _ (lift _)) => apply doing_lift; solve [grow] : doing.
#[export] Hint Extern 1 (doing _ _ _ (record_call ?c)) => apply (doing_call c) : doing.
(** For what asks for nothing that is counted. *)
Ltac ask_nothing :=
  repeat first
    [ solve [auto with doing]
    | apply doing_seq; [|intros ?]
    | match goal with |- doing _ _ _ (match ?x with _ => _ end) => destruct x end ].

Section Bounds.
Context `{Printed} {E : Type} `{!TurnEnv E} {Options : Type} `{!TurnDriver Options} (input : TurnStartInput).
#[local] Abbreviation T := (Turn (E:=E) (Options:=Options)).

Lemma doing_lifecycle : doing 0 0 0 (lifecycle_now (E:=E) (Options:=Options) input).
Proof. unfold lifecycle_now. ask_nothing. Qed.
Lemma doing_failure code message : doing 0 0 0 (record_session_failure (E:=E) (Options:=Options) input code message).
Proof. unfold record_session_failure. ask_nothing. Qed.
Lemma doing_success : doing 0 0 0 (record_session_success (E:=E) (Options:=Options) input).
Proof. unfold record_session_success. ask_nothing. Qed.
Lemma doing_report err top : doing 0 0 0 (report (E:=E) (Options:=Options) input err top).
Proof. unfold report. ask_nothing. Qed.
Lemma doing_mode : doing 0 0 0 (ensure_mode (E:=E) (Options:=Options) input).
Proof. unfold ensure_mode, apply_required_runtime_mode, resolve_required_runtime_mode. ask_nothing. Qed.
Lemma doing_key : doing 0 0 0 (persist_agent_key (E:=E) (Options:=Options) input).
Proof.
  unfold persist_agent_key, persist_session_key, coordinator_allows. ask_nothing.
Qed.
#[local] Hint Resolve doing_lifecycle doing_failure doing_success doing_report doing_mode doing_key : doing.

Lemma doing_send defer agent aggregate data :
  doing 0 1 0 (send_and_relay (E:=E) (Options:=Options) input defer agent aggregate data).
Proof.
  unfold send_and_relay. apply doing_seq; [ask_nothing|]. intros lifecycle. apply doing_seq; [ask_nothing|].
  intros [u|failure]; [|apply doing_ret].
  apply (doing_bind _ _ 0 1 0 0 0 0); [ask_nothing|]. intros _. ask_nothing.
Qed.

Lemma doing_attempt_loop fuel defer agent aggregate n data :
  doing 0 fuel 0 (attempt_loop (E:=E) (Options:=Options) input fuel defer agent aggregate n data).
Proof.
  revert aggregate n data. induction fuel as [|fuel IH]; intros aggregate n data; simpl; [apply doing_ret|].
  apply (doing_bind _ _ 0 1 0 0 fuel 0); [apply doing_send|]. intros [[outcome lifecycle]|failure].
  - apply doing_seq; [ask_nothing|]. intros _. destruct (continuation_decide _ _ _ _) as [content next|reason].
    + apply doing_seq; [ask_nothing|]. intros id. apply IH.
    + apply doing_ret.
  - apply doing_seq; [ask_nothing|]. intros _. apply doing_ret.
Qed.

Lemma doing_attempt defer data : doing 1 ATTEMPT_FUEL 0 (run_attempt (E:=E) (Options:=Options) input defer data).
Proof.
  unfold run_attempt. apply (doing_bind _ _ 1 0 0 0 ATTEMPT_FUEL 0); [ask_nothing|]. intros _.
  apply doing_seq; [ask_nothing|]. intros opts. apply doing_seq; [ask_nothing|].
  intros [agent|failure]; [|repeat (apply doing_seq; [ask_nothing|intros _]); apply doing_ret].
  apply doing_seq; [ask_nothing|]. intros [u|failure]; [apply doing_attempt_loop|].
  apply doing_seq; [ask_nothing|]. intros _. apply doing_ret.
Qed.
End Bounds.

(** ** The turn ends *)
Section Ends.
Context `{Printed} {E : Type} `{!TurnEnv E} {Options : Type} `{!TurnDriver Options} (input : TurnStartInput).
#[local] Abbreviation T := (Turn (E:=E) (Options:=Options)).
#[local] Hint Resolve doing_lifecycle doing_failure doing_success doing_report doing_mode doing_key : doing.

Lemma continue_below max n outcome lifecycle content next :
  continuation_decide max n outcome lifecycle = ContinuationDecision.Continue content next ->
  n < max /\ next = n + 1 /\ system_responses outcome <> [].
Proof.
  unfold continuation_decide. destruct (negb _); [done|]. destruct (terminal_is_error _); [done|].
  destruct (system_responses outcome) eqn:Hr; [done|]. simpl. destruct (max <=? n)%nat eqn:Hm; [done|].
  intros [= _ <-]. split; [by apply Nat.leb_gt|done].
Qed.

Lemma attempt_loop_returns fuel defer agent aggregate n data (t : T) :
  n <= MAX_SYSTEM_RESPONSE_CONTINUATIONS_PER_TURN -> MAX_SYSTEM_RESPONSE_CONTINUATIONS_PER_TURN < fuel + n ->
  is_Some (fst (attempt_loop input fuel defer agent aggregate n data t)).
Proof.
  revert aggregate n data t. induction fuel as [|fuel IH]; intros aggregate n data t Hn Hf; [lia|]. cbn [attempt_loop].
  unfold st_bind. destruct (send_and_relay input _ _ _ _ t) as [[[outcome lifecycle]|failure] t1].
  - destruct (persist_agent_key input t1) as [u t2]. destruct (continuation_decide _ _ _ _) as [content next|] eqn:Hc; [|by eexists].
    apply continue_below in Hc as (Hlt & -> & _). destruct (asks _ t2) as [id t3]. apply IH; lia.
  - destruct (report input _ _ t1). by eexists.
Qed.

Lemma attempt_returns defer data (t : T) : is_Some (fst (run_attempt input defer data t)).
Proof.
  unfold run_attempt, st_bind. destruct (record_call _ t) as [u t1]. destruct (st_gets _ t1) as [opts t2].
  destruct (asks _ t2) as [[agent|failure] t3].
  - destruct (asks _ t3) as [[u'|failure] t4].
    + apply attempt_loop_returns; unfold ATTEMPT_FUEL; lia.
    + destruct (report input _ _ t4). by eexists.
  - destruct (record_session_failure input _ _ t3) as [u1 t4]. destruct (report input _ _ t4). by eexists.
Qed.

Lemma replay_needs agent outcome lifecycle replayed safe signal :
  recovery_decide agent outcome lifecycle replayed = TurnRecoveryDecision.AutoReplayOnce safe signal ->
  replayed = false /\ agent = AgentType.Acp /\ terminal_retryable (terminal outcome) = Some true /\
  terminal_code (terminal outcome) <> Some AgentErrorCode.UserLlmProviderModelNotFound /\
  safe_to_auto_replay (attempt outcome) = true /\ terminal_is_error (terminal outcome) = true.
Proof.
  unfold recovery_decide. destruct (_ && _) eqn:Hd; [|done]. intros _.
  repeat (apply andb_true_iff in Hd as [Hd ?]). repeat case_bool_decide; try done.
  destruct replayed; try done.
Qed.

Lemma doing_evict agent outcome : doing 0 0 0 (evict_acp_task (E:=E) (Options:=Options) agent outcome).
Proof. unfold evict_acp_task. ask_nothing. Qed.
Lemma doing_give_in r lifecycle : doing 0 0 0 (give_in (E:=E) (Options:=Options) input r lifecycle).
Proof. unfold give_in. apply doing_seq; [ask_nothing|]. intros _. destruct (health_decide _ _ _); [apply doing_ret|apply doing_evict]. Qed.
Lemma doing_options opts : doing 0 0 0 (st_modify (fun t : T => mkTurn (world t) (calls t) (claim t) opts)).
Proof. intros t. split; [|apply since_refl|done]. exists []. rewrite app_nil_r. by split_and!. Qed.
Lemma doing_refresh : doing 0 0 1 (refresh_anchor (E:=E) (Options:=Options)).
Proof.
  unfold refresh_anchor. apply (doing_bind _ _ 0 0 1 0 0 0); [ask_nothing|]. intros _.
  apply doing_seq; [ask_nothing|]. intros opts. apply doing_seq; [ask_nothing|]. intros opts'. apply doing_options.
Qed.

(** One iteration, and that a turn is replayed only once. *)
Lemma iteration_returns (replayed auth : bool) data (t : T) :
  does 1 ATTEMPT_FUEL (if replayed then 0 else 1) t (snd (iteration input replayed auth data t)) /\
  exists it, fst (iteration input replayed auth data t) = Some it /\
    (replayed = true -> exists failed message auth, it = Ended failed message auth).
Proof.
  unfold iteration, st_bind. pose proof (doing_attempt input (negb replayed) data t) as Hd1.
  destruct (attempt_returns (negb replayed) data t) as [res Hres].
  destruct (run_attempt _ _ _ t) as [r t1]. cbn [fst snd] in *. subst r.
  assert (Hend : forall t2, does 0 0 0 t1 t2 -> does 1 ATTEMPT_FUEL (if replayed then 0 else 1) t t2).
  { intros t2 Hd2. pose proof (does_trans _ _ _ _ _ _ _ _ _ Hd1 Hd2) as Hd. eapply does_weaken; [..|exact Hd]; lia. }
  destruct res as [r|message]; [|simpl; split; [apply Hend, does_refl|naive_solver]].
  pose proof (doing_lifecycle input t1) as Hl. destruct (lifecycle_now input t1) as [lifecycle t2]. cbn [fst snd] in Hl.
  destruct (negb _); [simpl; split; [by apply Hend|naive_solver]|].
  destruct (recovery_decide _ _ _ _) as [|safe signal] eqn:Hrec.
  - pose proof (doing_give_in r lifecycle t2) as Hg. destruct (give_in _ _ _ t2) as [u t3]. cbn [fst snd] in *.
    split; [|naive_solver]. apply Hend. by apply (does_trans 0 0 0 0 0 0 _ t2).
  - apply replay_needs in Hrec as (-> & _). pose proof (doing_evict (result_agent_type r) (result_outcome r) t2) as He.
    destruct (evict_acp_task _ _ t2) as [u t3]. cbn [fst snd] in He. pose proof (doing_refresh t3) as Hf.
    destruct (refresh_anchor t3) as [u' t4]. cbn [fst snd] in *. split; [|naive_solver].
    pose proof (does_trans _ _ _ _ _ _ _ _ _ Hd1 (does_trans _ _ _ _ _ _ _ _ _ Hl (does_trans _ _ _ _ _ _ _ _ _ He Hf))) as Hd.
    eapply does_weaken; [..|exact Hd]; lia.
Qed.

Lemma turn_loop_returns data (t : T) :
  does 2 (2 * ATTEMPT_FUEL) 1 t (snd (turn_loop input TURN_FUEL false false data t)) /\
  is_Some (fst (turn_loop input TURN_FUEL false false data t)).
Proof.
  unfold TURN_FUEL. cbn [turn_loop]. unfold st_bind.
  destruct (iteration_returns false false data t) as [Hd1 (it & Hit & _)].
  destruct (iteration input false false data t) as [r t1]. cbn [fst snd] in *. subst r.
  destruct it as [failed message auth|auth].
  { split; [|by eexists]. by eapply (does_weaken 1 ATTEMPT_FUEL 1); [lia..|]. }
  unfold st_bind. destruct (iteration_returns true auth data t1) as [Hd2 (it & Hit & Hended)].
  destruct (iteration input true auth data t1) as [r t2]. cbn [fst snd] in *. subst r.
  destruct (Hended eq_refl) as (failed & message & auth' & ->). simpl. split; [|by eexists].
  exact (does_trans _ _ _ _ _ _ _ _ _ Hd1 Hd2).
Qed.
End Ends.

(** ** Failures are told *)
Section Failures.
Context `{Printed} {E : Type} `{!TurnEnv E} {Options : Type} `{!TurnDriver Options} (input : TurnStartInput).
#[local] Abbreviation T := (Turn (E:=E) (Options:=Options)).
#[local] Hint Resolve doing_lifecycle doing_failure doing_success doing_report doing_mode doing_key : doing.

(** Between [t] and [t'] an error was shown in the stream, or handed to the
    service to be stored and shown as a tip. *)
Definition told (t t' : T) : Prop :=
  exists new fs, calls t' = calls t ++ new /\ frames (world t') = frames (world t) ++ fs /\
    ((exists err top, TurnCall.Report err top ∈ new) \/ exists id data, Frame.Event id (AgentStreamEvent.Error data) ∈ fs).

Definition later (t t' : T) : Prop := (exists new, calls t' = calls t ++ new) /\ since (world t) (world t').
Lemma does_later b s r t t' : does b s r t t' -> later t t'.
Proof. intros [(new & C & _) F _]. split; [by exists new|done]. Qed.
Lemma later_trans t t1 t2 : later t t1 -> later t1 t2 -> later t t2.
Proof.
  intros [[n1 C1] [f1 F1]] [[n2 C2] [f2 F2]]. split; [exists (n1 ++ n2)|exists (f1 ++ f2)];
    [by rewrite C2, C1, app_assoc|by rewrite F2, F1, app_assoc].
Qed.

Lemma told_later t t1 t2 : told t t1 -> later t1 t2 -> told t t2.
Proof.
  intros (new & fs & C & F & Ht) [[new' C'] [fs' F']]. exists (new ++ new'), (fs ++ fs').
  rewrite C', C, F', F, !app_assoc. split_and!; try done.
  destruct Ht as [(err & top & Hin)|(id & data & Hin)]; [left|right]; do 2 eexists; apply elem_of_app; left; exact Hin.
Qed.
Lemma told_earlier t t1 t2 : later t t1 -> told t1 t2 -> told t t2.
Proof.
  intros [[new' C'] [fs' F']] (new & fs & C & F & Ht). exists (new' ++ new), (fs' ++ fs).
  rewrite C, C', F, F', !app_assoc. split_and!; try done.
  destruct Ht as [(err & top & Hin)|(id & data & Hin)]; [left|right]; do 2 eexists; apply elem_of_app; right; exact Hin.
Qed.

Lemma report_tells err top t : told t (snd (report input err top t)).
Proof.
  unfold report, st_bind, record_call, st_modify, lift. simpl.
  destruct (growing_report (conv_id input) err top (world t)) as [fs F].
  destruct (persist_and_broadcast_send_failure_tip _ _ _ (world t)) as [u w]. exists [TurnCall.Report err top], fs.
  split_and!; [done..|]. left. exists err, top. by left.
Qed.

(** What a send that got to its relay did. *)
Definition defers_for (defer : bool) (agent : AgentType.t) (aggregate : TurnAttemptSummary)
    (lifecycle : RuntimeLifecycleState.t) : bool :=
  defer && bool_decide (agent = AgentType.Acp) && bool_decide (lifecycle = RuntimeLifecycleState.Active) &&
  safe_to_auto_replay aggregate.

Record sent (relay : StreamRelay) (data : SendMessageData) (t : T) (o : RelayOutcome) (t' : T) : Prop := {
  sent_calls : exists modes, calls t' = calls t ++ modes ++ [TurnCall.Send data] /\
    Forall (fun c => exists m, c = TurnCall.SetMode m) modes;
  sent_relay : exists w0, quiet (world t) w0 /\ outcome_ok relay w0 o (world t') /\ silent_end relay w0 o (world t');
}.

Lemma asks_world {A} (f : E -> A * E) t :
  calls (snd (asks (Options:=Options) f t)) = calls t /\ quiet (world t) (world (snd (asks (Options:=Options) f t))).
Proof.
  unfold asks, lift. pose proof (quiet_ask f (world t) (world t) (quiet_refl _)) as Hq.
  destruct (ask f (world t)) as [a w]. by split.
Qed.

Lemma mode_calls t : let '(_, t') := ensure_mode input t in
  (exists modes, calls t' = calls t ++ modes /\ Forall (fun c => exists m, c = TurnCall.SetMode m) modes) /\
  quiet (world t) (world t').
Proof.
  unfold ensure_mode. destruct (wanted_mode input) as [mode|];
    [|split; [exists []; by rewrite app_nil_r|apply quiet_refl]].
  unfold apply_required_runtime_mode, st_bind.
  assert (Hr : let '(_, t1) := resolve_required_runtime_mode input mode t in calls t1 = calls t /\ quiet (world t) (world t1)).
  { unfold resolve_required_runtime_mode. destruct (_ || _); [split; [done|apply quiet_refl]|]. unfold st_bind.
    pose proof (asks_world live_mode_catalog t) as Ha. by destruct (asks live_mode_catalog t). }
  destruct (resolve_required_runtime_mode input mode t) as [m t1]. destruct Hr as [C1 Q1].
  unfold record_call, st_modify. set (t2 := mkTurn _ _ _ _). pose proof (asks_world (set_mode_option m) t2) as [C2 Q2].
  destruct (asks (set_mode_option m) t2) as [r t3]. cbn [snd] in *. split; [|by eapply quiet_trans].
  exists [TurnCall.SetMode m]. rewrite C2. unfold t2. simpl. rewrite C1. split; [done|].
  apply Forall_singleton. by exists m.
Qed.

Lemma send_spec defer agent aggregate data t o lifecycle t' :
  send_and_relay input defer agent aggregate data t = (Ok (o, lifecycle), t') ->
  (exists e, lifecycle = lifecycle_for (conv_id input) (fst (runtime_state e))) /\
  sent (turn_relay input (send_msg_id data) (defers_for defer agent aggregate lifecycle)) data t o t'.
Proof.
  unfold send_and_relay, st_bind, lifecycle_now, st_bind, asks at 1, lift at 1, ask at 1.
  destruct (runtime_state (env (world t))) as [rt e] eqn:Hrt.
  set (t1 := mkTurn _ _ _ _). change (st_ret ?x ?y) with (x, y). cbv beta iota zeta.
  assert (Q1 : quiet (world t) (world t1)) by (by apply (quiet_ask (fun _ => (tt, e)) (world t) (world t)), quiet_refl).
  pose proof (mode_calls t1) as Hm. destruct (ensure_mode input t1) as [[u|failure] t2]; [|done].
  destruct Hm as [(modes & C2 & Hmodes) Q2]. unfold record_call, st_modify. set (t3 := mkTurn _ _ _ _).
  pose proof (asks_world (deliveries data) t3) as [C4 Q4]. destruct (asks (deliveries data) t3) as [ds t4]. cbn [snd] in *.
  unfold lift. fold (defers_for defer agent aggregate (lifecycle_for (conv_id input) rt)).
  set (relay := turn_relay input (send_msg_id data) _).
  pose proof (consume_ok relay ds RelayState_start (world t4) eq_refl) as Hok.
  pose proof (silent_consume relay ds RelayState_start (world t4) (world t4) (silent_start _)) as Hsil.
  destruct (consume relay ds RelayState_start (world t4)) as [o' w]. intros [= -> <- <-].
  split; [exists (env (world t)); by rewrite Hrt|]. split; simpl.
  - exists modes. rewrite C4. unfold t3. simpl. rewrite C2, app_assoc. by split.
  - exists (world t4). split_and!; [|done..]. eapply quiet_trans; [exact Q1|]. by eapply quiet_trans.
Qed.

Definition attempt_told (t : T) (res : option (Result TurnAttemptResult string)) (t' : T) : Prop :=
  match res with
  | None => True
  | Some (Err message) => told t t'
  | Some (Ok r) => terminal_is_error (terminal (result_outcome r)) = true ->
      is_Some (terminal_error (result_summary r)) /\ is_Some (terminal_error (attempt (result_outcome r))) /\
      (terminal_error_deferred (attempt (result_outcome r)) = true \/ told t t')
  end.

Lemma attempt_told_earlier t t1 res t2 : later t t1 -> attempt_told t1 res t2 -> attempt_told t res t2.
Proof.
  intros Hl. destruct res as [[r|message]|]; [|by apply told_earlier|done]. intros Hr Ht.
  destruct (Hr Ht) as (? & ? & Hd). split_and!; try done. destruct Hd; [by left|right]. by eapply told_earlier.
Qed.

Lemma report_ends err top message t :
  attempt_told t (Some (Err message)) (snd (report input err top t)).
Proof. apply report_tells. Qed.

Lemma sent_told defer agent aggregate data t o lifecycle t' n :
  send_and_relay input defer agent aggregate data t = (Ok (o, lifecycle), t') ->
  attempt_told t (Some (Ok (mkAttemptResult o (attempt_merge aggregate (attempt o)) n))) t'.
Proof.
  intros Hsent. pose proof (send_spec _ _ _ _ _ _ _ _ Hsent) as [_ [(modes & C & _) (w0 & Q & Hok & _)]].
  simpl. intros Ht. destruct (outcome_error _ _ _ _ Hok Ht) as (err & He & _ & Hsh). rewrite He. split_and!; [by eexists..|].
  destruct Hsh as [|Hsh]; [by left|right]. destruct (quiet_frames _ _ Q) as (fs & F & _).
  destruct (shown_earlier _ err (world t) w0 (world t') (ex_intro _ fs F) Hsh) as (fs' & F' & Hin).
  exists (modes ++ [TurnCall.Send data]), fs'. split_and!; [done..|]. right. by do 2 eexists.
Qed.

Lemma attempt_loop_told fuel defer agent aggregate n data t :
  let '(res, t') := attempt_loop input fuel defer agent aggregate n data t in attempt_told t res t'.
Proof.
  revert aggregate n data t. induction fuel as [|fuel IH]; intros aggregate n data t; [done|]. cbn [attempt_loop].
  unfold st_bind. pose proof (doing_send input defer agent aggregate data t) as Hd.
  destruct (send_and_relay input defer agent aggregate data t) as [[[o lifecycle]|failure] t1] eqn:Hsent; cbn [snd] in Hd.
  - pose proof (doing_key input t1) as Hk. destruct (persist_agent_key input t1) as [u t2]. cbn [snd] in Hk.
    destruct (continuation_decide _ _ _ _) as [content next|reason].
    + pose proof (doing_asks generate_short_id t2) as Hi. destruct (asks generate_short_id t2) as [id t3]. cbn [snd] in Hi.
      specialize (IH (attempt_merge aggregate (attempt o)) next (mkSend content id false) t3).
      destruct (attempt_loop _ _ _ _ _ _ _ t3) as [res t4]. eapply attempt_told_earlier; [|exact IH].
      eapply later_trans; [eapply does_later, Hd|]. eapply later_trans; eapply does_later; eassumption.
    + pose proof (sent_told defer agent aggregate data t o lifecycle t1 agent Hsent) as Ht. simpl in *. intros Herr.
      destruct (Ht Herr) as (? & ? & Hx). split_and!; try done. destruct Hx; [by left|right].
      eapply told_later; [eassumption|]. by eapply does_later.
  - pose proof (report_tells (failure_error failure) (Some (failure_code failure)) t1) as Ht.
    destruct (report input _ _ t1) as [u t2]. simpl. eapply told_earlier; [by eapply does_later|done].
Qed.

Lemma attempt_is_told defer data t :
  let '(res, t') := run_attempt input defer data t in attempt_told t res t'.
Proof.
  unfold run_attempt, st_bind. pose proof (doing_call (Options:=Options) TurnCall.Build t) as H1.
  destruct (record_call TurnCall.Build t) as [u t1]. cbn [snd] in H1. unfold st_gets.
  pose proof (doing_asks (get_or_build_task (options t1)) t1) as H2.
  destruct (asks (get_or_build_task (options t1)) t1) as [[agent|failure] t2]; cbn [snd] in H2.
  - pose proof (doing_asks maybe_persist_workspace t2) as H3.
    destruct (asks maybe_persist_workspace t2) as [[u'|failure] t3]; cbn [snd] in H3.
    + pose proof (attempt_loop_told ATTEMPT_FUEL defer agent TurnAttemptSummary_default 0 data t3) as Hl.
      destruct (attempt_loop _ _ _ _ _ _ _ t3) as [res t4]. eapply attempt_told_earlier; [|exact Hl].
      eapply later_trans; [eapply does_later, H1|]. eapply later_trans; eapply does_later; eassumption.
    + pose proof (report_tells (failure_error failure) (Some (failure_code failure)) t3) as Ht.
      destruct (report input _ _ t3) as [u' t4]. simpl. eapply told_earlier; [|exact Ht].
      eapply later_trans; [eapply does_later, H1|]. eapply later_trans; eapply does_later; eassumption.
  - pose proof (doing_failure input "session_build_failed" (failure_message failure) t2) as H3.
    destruct (record_session_failure input _ _ t2) as [u' t3]. cbn [snd] in H3.
    pose proof (report_tells (failure_error failure) (Some (failure_code failure)) t3) as Ht.
    destruct (report input _ _ t3) as [u1 t4]. simpl. eapply told_earlier; [|exact Ht].
    eapply later_trans; [eapply does_later, H1|]. eapply later_trans; eapply does_later; eassumption.
Qed.

Lemma give_in_tells r lifecycle t err :
  terminal_error (attempt (result_outcome r)) = Some err ->
  terminal_error_deferred (attempt (result_outcome r)) = true -> told t (snd (give_in input r lifecycle t)).
Proof.
  intros He Hd. unfold give_in. rewrite He, Hd. unfold st_bind. pose proof (report_tells err None t) as Ht.
  destruct (report input err None t) as [u t1]. eapply told_later; [exact Ht|].
  eapply does_later. destruct (health_decide _ _ _); [apply doing_ret|apply doing_evict].
Qed.

Lemma error_message_some a : is_Some (terminal_error a) -> is_Some (turn_attempt_error_message a).
Proof. intros [err He]. unfold turn_attempt_error_message. rewrite He. by eexists. Qed.

Lemma iteration_told (replayed auth : bool) data t :
  let '(it, t') := iteration input replayed auth data t in
  forall message auth', it = Some (Ended true message auth') -> is_Some message /\ told t t'.
Proof.
  unfold iteration, st_bind. pose proof (attempt_is_told (negb replayed) data t) as Ha.
  pose proof (doing_attempt input (negb replayed) data t) as Hd.
  destruct (run_attempt input _ data t) as [res t1]. cbn [snd] in Hd. destruct res as [[r|message]|]; [| |done].
  - pose proof (doing_lifecycle input t1) as Hl. destruct (lifecycle_now input t1) as [lifecycle t2]. cbn [snd] in Hl.
    destruct (terminal_is_error (terminal (result_outcome r))) eqn:Ht; [|done]. cbn [negb].
    simpl in Ha. destruct (Ha Ht) as (Hs & [err He] & Hx). destruct (recovery_decide _ _ _ _) as [|safe signal].
    + pose proof (doing_give_in input r lifecycle t2) as Hg. pose proof (give_in_tells r lifecycle t2 err He) as Hgt.
      destruct (give_in input r lifecycle t2) as [u t3]. cbn [snd] in *.
      intros message auth' [= <- <-]. split; [by apply error_message_some|].
      destruct Hx as [Hdef|Htold]; [|eapply told_later; [exact Htold|eapply later_trans; eapply does_later; eassumption]].
      eapply told_earlier; [|by apply Hgt]. eapply later_trans; eapply does_later; eassumption.
    + destruct (evict_acp_task _ _ t2) as [u t3]. by destruct (refresh_anchor t3).
  - simpl. intros m a [= <- <-]. split; [by eexists|done].
Qed.

Lemma turn_loop_told data t :
  let '(r, t') := turn_loop input TURN_FUEL false false data t in
  forall message auth, r = Some (true, message, auth) -> is_Some message /\ told t t'.
Proof.
  unfold TURN_FUEL. cbn [turn_loop]. unfold st_bind. pose proof (iteration_told false false data t) as Hi.
  destruct (iteration_returns input false false data t) as [Hd _].
  destruct (iteration input false false data t) as [[[failed message auth|auth]|] t1]; cbn [snd] in Hd; [| |done].
  - intros m a [= -> -> ->]. by eapply Hi.
  - pose proof (iteration_told true auth data t1) as Hi2.
    destruct (iteration input true auth data t1) as [[[failed message auth'|auth']|] t2]; [|done..].
    intros m a [= -> -> ->]. destruct (Hi2 _ _ eq_refl) as [Hs Ht]. split; [done|].
    eapply told_earlier; [by eapply does_later|done].
Qed.

(** *** After the loop *)

Lemma later_refl t : later t t.
Proof. split; [exists []; by rewrite app_nil_r|apply since_refl]. Qed.

Definition given_back (c : TurnClaim) : TurnClaim :=
  if bool_decide (turn_id c = turn_id_of input) then mkTurnClaim (conversation_id c) (turn_id c) true else c.

Lemma release_gives_back t : let '(_, t') := release_claim input t in
  does 0 0 0 t (mkTurn (world t') (calls t') (claim t) (options t')) /\ claim t' = given_back (claim t).
Proof.
  unfold release_claim, st_bind. pose proof (doing_asks runtime_state t) as Ha.
  destruct (asks runtime_state t) as [rt t1]. cbn [snd] in Ha. pose proof (does_claim _ _ _ _ _ Ha) as Hc.
  destruct (release_for_turn true (turn_id_of input) (claim t1) rt) as [[b c] rt'] eqn:Hr. simpl. split.
  - destruct Ha as [C F _]. by split.
  - unfold release_for_turn in Hr. rewrite Hc in Hr. unfold given_back.
    case_bool_decide as Hid; simpl in Hr; [|by injection Hr].
    unfold release_inner in Hr. destruct (claim t) as [cv tn rel]. destruct rel; simpl in *; [by injection Hr as <- <- <-|].
    destruct (release_turn cv tn rt). by injection Hr as <- <- <-.
Qed.

Lemma doing_complete b : doing 0 0 0 (complete_released_turn (E:=E) (Options:=Options) input b).
Proof. unfold complete_released_turn. ask_nothing. Qed.
Lemma doing_feedback failed auth message : doing 0 0 0 (feedback (E:=E) (Options:=Options) input failed auth message).
Proof. unfold feedback. ask_nothing. Qed.

Lemma epilogue failed auth message t :
  let '(r, t') := finish_turn input failed auth message t in
  r = mkTurnResult failed (if failed then message else None) /\
  does 0 0 0 t (mkTurn (world t') (calls t') (claim t) (options t')) /\ claim t' = given_back (claim t).
Proof.
  unfold finish_turn, st_bind. pose proof (doing_feedback failed auth message t) as Hf.
  destruct (feedback input failed auth message t) as [u t1]. cbn [snd] in Hf.
  pose proof (release_gives_back t1) as Hr. destruct (release_claim input t1) as [b t2]. destruct Hr as [Hr Hc].
  pose proof (doing_complete b t2) as Hd. destruct (complete_released_turn input b t2) as [u' t3]. cbn [snd] in Hd.
  split; [done|]. rewrite (does_claim _ _ _ _ _ Hf) in Hc. rewrite <- Hc. split; [|by rewrite (does_claim _ _ _ _ _ Hd)].
  pose proof (does_trans _ _ _ _ _ _ _ _ _ Hf Hr) as [(n & C & B & S & R) F _].
  destruct Hd as [(n' & C' & B' & S' & R') F' _]. split; [|by destruct F as [f F], F' as [f' F']; exists (f ++ f'); simpl in *; rewrite F', F, app_assoc|done].
  exists (n ++ n'). simpl in *. rewrite C', C, app_assoc, !count_app. split_and!; [done|lia..].
Qed.
End Failures.

(** ** Replays are unseen *)
Section Replays.
Context `{Printed} {E : Type} `{!TurnEnv E} {Options : Type} `{!TurnDriver Options} (input : TurnStartInput).
#[local] Abbreviation T := (Turn (E:=E) (Options:=Options)).

Definition silently {A : Type} (m : St T A) : Prop :=
  forall t, calls (snd (m t)) = calls t /\ quiet (world t) (world (snd (m t))).

Lemma silent_asks {A} (f : E -> A * E) : silently (asks f).
Proof. intros t. apply asks_world. Qed.
Lemma silent_ret {A} (a : A) : silently (st_ret a).
Proof. intros t. split; [done|apply quiet_refl]. Qed.
Lemma silent_bind {A B} (m : St T A) (f : A -> St T B) :
  silently m -> (forall a, silently (f a)) -> silently (st_bind m f).
Proof.
  intros Hm Hf t. unfold st_bind. destruct (Hm t) as [C Q]. destruct (m t) as [a t1]. cbn [snd] in *.
  destruct (Hf a t1) as [C' Q']. split; [congruence|by eapply quiet_trans].
Qed.
Lemma silent_allows kind : silently (lift (coordinator_allows (conv_id input) kind)).
Proof.
  intros t. unfold lift. assert (Hq : triple (quiet (world t)) (coordinator_allows (conv_id input) kind) (fun _ => quiet (world t))).
  { eapply triple_bind; [apply quiet_ask|]. by intros rt w. }
  specialize (Hq (world t) (quiet_refl _)). by destruct (coordinator_allows _ _ (world t)).
Qed.
Lemma silent_key : silently (persist_agent_key input).
Proof.
  unfold persist_agent_key, persist_session_key. apply silent_bind; [apply silent_asks|]. intros [key|]; [|apply silent_ret].
  apply silent_bind; [apply silent_allows|]. intros []; [|apply silent_ret]. simpl.
  apply silent_bind; [apply silent_asks|]. intros [known|]; [|apply silent_ret].
  case_bool_decide; [apply silent_ret|]. apply silent_bind; [apply silent_asks|]. intros b. apply silent_ret.
Qed.
Lemma silent_lifecycle : silently (lifecycle_now input).
Proof. apply silent_bind; [apply silent_asks|]. intros rt. apply silent_ret. Qed.

(** The part of a merged summary that a replay looks at. *)
Lemma safe_merge a o : safe_to_auto_replay (attempt_merge a o) = true ->
  safe_to_auto_replay a = true /\ safe_to_auto_replay o = true.
Proof. unfold safe_to_auto_replay. destruct a as [[] [] [] ? ? ?], o as [[] [] [] ? ? ?]; done. Qed.

(** The calls of one attempt that sends once. *)
Definition one_send (data : SendMessageData) (t t' : T) : Prop :=
  quiet (world t) (world t') /\ exists modes, calls t' = calls t ++ modes ++ [TurnCall.Send data] /\
    Forall (fun c => exists m, c = TurnCall.SetMode m) modes.

Context (always_active : forall e : E, lifecycle_for (conv_id input) (fst (runtime_state e)) = RuntimeLifecycleState.Active).

(** What [replay_needs] gives about a result. *)
Record replayable (r : TurnAttemptResult) : Prop := {
  replay_acp : result_agent_type r = AgentType.Acp;
  replay_retryable : terminal_retryable (terminal (result_outcome r)) = Some true;
  replay_code : terminal_code (terminal (result_outcome r)) <> Some AgentErrorCode.UserLlmProviderModelNotFound;
  replay_safe : safe_to_auto_replay (result_summary r) = true;
}.

Lemma attempt_loop_unsafe fuel defer agent aggregate n data (t t' : T) r :
  attempt_loop input fuel defer agent aggregate n data t = (Some (Ok r), t') ->
  safe_to_auto_replay (result_summary r) = true -> safe_to_auto_replay aggregate = true.
Proof.
  revert aggregate n data t. induction fuel as [|fuel IH]; intros aggregate n data t; [done|]. cbn [attempt_loop].
  unfold st_bind. destruct (send_and_relay input defer agent aggregate data t) as [[[o lifecycle]|failure] t1];
    [|by destruct (report input _ _ t1)].
  destruct (persist_agent_key input t1) as [u t2]. destruct (continuation_decide _ _ _ _) as [content next|reason].
  - destruct (asks generate_short_id t2) as [id t3]. intros Hr Hs. pose proof (IH _ _ _ _ Hr Hs) as Hm. by apply safe_merge in Hm as [].
  - intros [= <- <-] Hs. by apply safe_merge in Hs as [].
Qed.

Lemma attempt_loop_once fuel agent n data (t t' : T) r :
  attempt_loop input fuel true agent TurnAttemptSummary_default n data t = (Some (Ok r), t') -> replayable r ->
  one_send data t t'.
Proof.
  destruct fuel as [|fuel]; [done|]. cbn [attempt_loop]. unfold st_bind.
  destruct (send_and_relay input true agent TurnAttemptSummary_default data t) as [[[o lifecycle]|failure] t1] eqn:Hsent;
    [|by destruct (report input _ _ t1)].
  apply send_spec in Hsent as [[e He] [(modes & C & Hmodes) (w0 & Q & Hok & Hsil)]]. rewrite always_active in He. subst.
  destruct (silent_key t1) as [Ck Qk]. destruct (persist_agent_key input t1) as [u t2]. cbn [snd] in *.
  destruct (continuation_decide _ _ _ _) as [content next|reason] eqn:Hc.
  - apply continue_below in Hc as (_ & _ & Hresp). destruct (asks generate_short_id t2) as [id t3]. intros Hr Hrep.
    apply attempt_loop_unsafe in Hr; [|apply Hrep]. apply safe_merge in Hr as [_ Hr].
    unfold safe_to_auto_replay in Hr. rewrite (outcome_responses _ _ _ _ Hok Hresp) in Hr. by rewrite andb_false_r in Hr.
  - intros [= <- <-] [Ha Hret Hcode Hsafe]. simpl in *. subst. apply safe_merge in Hsafe as [_ Hsafe].
    assert (Hdef : terminal_error_deferred (attempt o) = true) by by apply (outcome_deferred _ _ _ _ Hok).
    specialize (Hsil Hdef). apply deferred_quiet in Hsil. split.
    + eapply quiet_trans; [exact Q|]. by eapply quiet_trans.
    + exists modes. by rewrite Ck, C.
Qed.

Lemma attempt_once data (t t' : T) r :
  run_attempt input true data t = (Some (Ok r), t') -> replayable r ->
  quiet (world t) (world t') /\ exists modes, calls t' = calls t ++ TurnCall.Build :: modes ++ [TurnCall.Send data] /\
    Forall (fun c => exists m, c = TurnCall.SetMode m) modes.
Proof.
  unfold run_attempt, st_bind, record_call, st_modify, st_gets. set (t1 := mkTurn _ _ _ _).
  destruct (silent_asks (get_or_build_task (options t1)) t1) as [C2 Q2].
  destruct (asks (get_or_build_task (options t1)) t1) as [[agent|failure] t2]; cbn [snd] in *;
    [|destruct (record_session_failure input _ _ t2) as [u t3]; by destruct (report input _ _ t3)].
  destruct (silent_asks maybe_persist_workspace t2) as [C3 Q3].
  destruct (asks maybe_persist_workspace t2) as [[u'|failure] t3]; cbn [snd] in *; [|by destruct (report input _ _ t3)].
  intros Hl Hrep. destruct (attempt_loop_once _ _ _ _ _ _ _ Hl Hrep) as [Q4 (modes & C4 & Hmodes)]. split.
  - by do 2 (eapply quiet_trans; [eassumption|]).
  - exists modes. rewrite C4, C3, C2. unfold t1. simpl. by rewrite <- app_assoc.
Qed.

Lemma iteration_unseen (replayed auth : bool) data (t t' : T) auth' :
  iteration input replayed auth data t = (Some (Replayed auth'), t') ->
  replayed = false /\ quiet (world t) (world t') /\ exists modes code,
    calls t' = calls t ++ TurnCall.Build :: modes ++ [TurnCall.Send data; TurnCall.Evict code; TurnCall.RefreshAnchor] /\
    Forall (fun c => exists m, c = TurnCall.SetMode m) modes.
Proof.
  unfold iteration, st_bind. destruct (run_attempt input (negb replayed) data t) as [[[r|message]|] t1] eqn:Hrun; [|done..].
  destruct (silent_lifecycle t1) as [C1 Q1]. destruct (lifecycle_now input t1) as [lifecycle t2]. cbn [snd] in *.
  destruct (negb (terminal_is_error _)) eqn:Herr; [done|]. destruct (recovery_decide _ _ _ _) as [|safe signal] eqn:Hrec.
  { by destruct (give_in input r lifecycle t2). }
  apply replay_needs in Hrec as (-> & Ha & Hret & Hcode & Hsafe & _). simpl in *.
  destruct (attempt_once data t t1 r Hrun) as [Q (modes & C & Hmodes)]; [by split|].
  unfold evict_acp_task. rewrite Ha, Herr. simpl. unfold record_call, st_modify, refresh_anchor, st_bind, record_call, st_modify, st_gets.
  set (t3 := mkTurn _ _ _ _). destruct (silent_asks (refresh_resume_anchor (options t3)) t3) as [C4 Q4].
  destruct (asks (refresh_resume_anchor (options t3)) t3) as [opts t4]. cbn [snd] in *. intros [= <- <-].
  split; [done|]. simpl. split.
  - by do 2 (eapply quiet_trans; [eassumption|]).
  - exists modes, (terminal_code (terminal (result_outcome r))). rewrite C4. unfold t3. simpl. rewrite C1, C, <- !app_assoc. simpl.
    by rewrite <- !app_assoc.
Qed.
End Replays.

(** ** Properties *)


(** C25. A failure is told.  A turn that ends as failed carries a message, and
    on the way the clients were shown an error of the stream, or an error was
    handed to the service to be stored and shown as a tip: no failed turn is
    silent, not even one whose error was held back for a replay. *)
Theorem failure_is_told `{Printed} `{!TurnEnv E} `{!TurnDriver (E:=E) Options} input (t t' : Turn (E:=E) (Options:=Options)) r :
  run_user_turn input t = (Some r, t') -> turn_failed r = true -> is_Some (turn_error_message r) /\ told t t'.
Proof.
  unfold run_user_turn, st_bind. pose proof (doing_asks generate_short_id t) as Ha.
  destruct (asks generate_short_id t) as [id t1]. cbn [snd] in Ha.
  pose proof (turn_loop_told input (mkSend (content input) id true) t1) as Ht.
  destruct (turn_loop input TURN_FUEL false false _ t1) as [[[[failed message] auth]|] t2]; [|done].
  pose proof (epilogue input failed auth message t2) as He. destruct (finish_turn input failed auth message t2) as [r' t3].
  destruct He as (-> & Hd3 & Hc). intros [= <- <-] Hf. simpl in *. subst.
  destruct (Ht _ _ eq_refl) as [Hs Htold]. split; [done|]. eapply told_earlier; [by eapply does_later|].
  eapply told_later; [exact Htold|]. exact (does_later _ _ _ _ _ Hd3).
Qed.

(** C26. A replay is unseen.  While the conversation is neither deleted nor
    cancelled nor shut down, an attempt that is followed by a replay left no
    trace for the user: the clients got no text, thinking, tool call, question
    or end of the turn, and no message but new tips was written.  It built one
    agent, sent the user's message once, threw that agent away and read the
    resume anchor again; and it was not a replay itself. *)
Theorem replay_is_unseen `{Printed} `{!TurnEnv E} `{!TurnDriver (E:=E) Options} input
    (always_active : forall e : E, lifecycle_for (conv_id input) (fst (runtime_state e)) = RuntimeLifecycleState.Active)
    replayed auth data (t t' : Turn (E:=E) (Options:=Options)) auth' :
  iteration input replayed auth data t = (Some (Replayed auth'), t') ->
  replayed = false /\ quiet (world t) (world t') /\ exists modes code,
    calls t' = calls t ++ TurnCall.Build :: modes ++ [TurnCall.Send data; TurnCall.Evict code; TurnCall.RefreshAnchor] /\
    Forall (fun c => exists m, c = TurnCall.SetMode m) modes.
Proof. apply (iteration_unseen input always_active replayed auth data t t' auth'). Qed.

(** ** Examples

    An agent that fails the first sends of a turn, and then answers. *)
#[local] Existing Instance demo_json.
#[local] Existing Instance demo_printed.

Definition failing (sends : nat) (_ : SendMessageData) (e : Demo) : list Delivery * Demo :=
  (if (demo_ids e <=? sends)%nat then [Received (AgentStreamEvent.Error demo_error)]
   else [Received (AgentStreamEvent.Text "done"); Received (AgentStreamEvent.Finish None)],
   mkDemo (S (demo_ids e)) (demo_failures e)).

Definition demo_driver (env : TurnEnv Demo) (sends : nat) : TurnDriver unit := {|
  put_runtime := fun _ e => e;
  get_or_build_task := fun _ e => (Ok AgentType.Acp, e);
  maybe_persist_workspace := fun e => (Ok tt, e);
  live_mode_catalog := fun e => (None, e);
  set_mode_option := fun _ e => (Ok tt, e);
  deliveries := failing sends;
  get_session_key := fun e => (None, e);
  stored_session_key := fun e => (None, e);
  update_session_key := fun _ e => (true, e);
  refresh_resume_anchor := fun o e => (o, e);
  task_view := fun e => (None, true, 0, e);
|}.

Definition demo_input : TurnStartInput := mkTurnStart "conv" "turn" "hello" None None [] true.

(** The turn with a given runtime state. *)
Definition demo_turn (env : TurnEnv Demo) : Turn := mkTurn (demo_world []) [] (mkTurnClaim "conv" "turn" false) tt.
Definition demo_run (env : TurnEnv Demo) (sends : nat) :=
  @run_user_turn _ _ _ env unit (demo_driver env sends) demo_input (demo_turn env).

Lemma failure_is_told_witness :
  exists r t', demo_run demo_env 2 = (Some r, t') /\ is_Some (turn_error_message r) /\ told (demo_turn demo_env) t'.
Proof.
  destruct (demo_run demo_env 2) as [[r|] t'] eqn:Hrun; [|by vm_compute in Hrun]. exists r, t'. split; [done|].
  apply (failure_is_told (TurnDriver0 := demo_driver demo_env 2) demo_input _ _ _ Hrun).
  vm_compute in Hrun. by injection Hrun as <- <-.
Defined.

Definition demo_attempt (env : TurnEnv Demo) (sends : nat) :=
  @iteration _ _ _ env unit (demo_driver env sends) demo_input false false (mkSend "hello" "m" true) (demo_turn env).

Lemma replay_is_unseen_witness :
  exists auth t', demo_attempt demo_env 1 = (Some (Replayed auth), t') /\
    quiet (world (demo_turn demo_env)) (world t').
Proof.
  destruct (demo_attempt demo_env 1) as [[[|auth]|] t'] eqn:Hrun; [by vm_compute in Hrun| |by vm_compute in Hrun].
  exists auth, t'. split; [done|].
  refine (proj1 (proj2 (replay_is_unseen (TurnDriver0 := demo_driver demo_env 1) demo_input _ _ _ _ _ _ _ Hrun))).
  intros e. by vm_compute.
Defined.

(** The conversation is being cancelled while the message is sent, and the
    cancellation fails and is taken back before the turn decides. *)
Definition cancelling_env : TurnEnv Demo := {|
  generate_short_id := generate_short_id (TurnEnv := demo_env);
  now_ms := now_ms (TurnEnv := demo_env);
  runtime_state := fun e =>
    (if (demo_ids e <=? 1)%nat then mark_cancelling "conv" ConversationRuntimeStateService_default
     else ConversationRuntimeStateService_default, e);
  write_fails := write_fails (TurnEnv := demo_env);
  read_fails := read_fails (TurnEnv := demo_env);
  conversation_found := conversation_found (TurnEnv := demo_env);
  resolver_bodies := resolver_bodies (TurnEnv := demo_env);
|}.

(** The relay was not told to hold the error back, so it is shown; the policy
    reads the lifecycle again and replays all the same. *)
Lemma error_shown_then_replayed :
  let '(r, t') := demo_run cancelling_env 1 in
  r = Some (mkTurnResult false None) /\
  exists f, frames (world t') = Frame.Event "id0" (AgentStreamEvent.Error demo_error) :: f /\
    count_calls is_send (calls t') = 2.
Proof. vm_compute. split; [done|]. by eexists. Qed.
