(* ===== verification/WorkModel.v ===== *)
(** * The data of the team work coordinator
    ([crates/tjuaeui-team/src/work_coordinator/model.rs], [work_source.rs])

    The enums are Modules with their constructors; the structs are records
    with the source's fields.  The trait [RunCausalityPort] is the class of
    the same name at the end: what the coordinator asks of the team run
    manager. *)

From S2P Require Import Prelude.

(** ** [work_source.rs] and the enums of [model.rs] *)

Module WorkPriority.
Inductive t : Type := Foreground | Control | Background.
#[export] Instance t_eq_dec : EqDecision t.
Proof. solve_decision. Defined.
End WorkPriority.
Export (hints) WorkPriority.

Module WorkSource.
Inductive t : Type :=
| UserMessage
| UserIntervention
| McpSendMessage
| McpShutdownRequest
| SpawnWelcome
| TeamMembershipChanged
| SpawnAttachFailure
| IdleNotification
| InterruptedNotification
| ShutdownRejected
| RecoveryDrain.
#[export] Instance t_eq_dec : EqDecision t.
Proof. solve_decision. Defined.

Definition priority (self : t) : WorkPriority.t :=
  match self with
  | UserMessage | UserIntervention => WorkPriority.Foreground
  | McpShutdownRequest | ShutdownRejected => WorkPriority.Control
  | McpSendMessage | SpawnWelcome | TeamMembershipChanged | SpawnAttachFailure
  | IdleNotification | InterruptedNotification | RecoveryDrain => WorkPriority.Background
  end.

Definition resumes_paused_slot (self : t) : bool :=
  match self with UserMessage | UserIntervention => true | _ => false end.

Definition requires_mailbox_message (self : t) : bool :=
  match self with
  | UserMessage | UserIntervention | McpSendMessage | McpShutdownRequest | SpawnWelcome
  | SpawnAttachFailure | InterruptedNotification | ShutdownRejected | RecoveryDrain => true
  | _ => false
  end.

(** The derived [Debug] name of the variant. *)
Definition debug (self : t) : string :=
  match self with
  | UserMessage => "UserMessage"
  | UserIntervention => "UserIntervention"
  | McpSendMessage => "McpSendMessage"
  | McpShutdownRequest => "McpShutdownRequest"
  | SpawnWelcome => "SpawnWelcome"
  | TeamMembershipChanged => "TeamMembershipChanged"
  | SpawnAttachFailure => "SpawnAttachFailure"
  | IdleNotification => "IdleNotification"
  | InterruptedNotification => "InterruptedNotification"
  | ShutdownRejected => "ShutdownRejected"
  | RecoveryDrain => "RecoveryDrain"
  end.

(** [Display] *)
Definition fmt (self : t) : string :=
  match self with
  | UserMessage => "user_message"
  | UserIntervention => "user_intervention"
  | McpSendMessage => "mcp_send_message"
  | McpShutdownRequest => "mcp_shutdown_request"
  | SpawnWelcome => "spawn_welcome"
  | TeamMembershipChanged => "team_membership_changed"
  | SpawnAttachFailure => "spawn_attach_failure"
  | IdleNotification => "idle_notification"
  | InterruptedNotification => "interrupted_notification"
  | ShutdownRejected => "shutdown_rejected"
  | RecoveryDrain => "recovery_drain"
  end.
End WorkSource.
Export (hints) WorkSource.

Module TeamRunTargetRole.
Inductive t : Type := Lead | Teammate.
#[export] Instance t_eq_dec : EqDecision t.
Proof. solve_decision. Defined.
End TeamRunTargetRole.
Export (hints) TeamRunTargetRole.

Module RuntimeConstraint.
Inductive t : Type :=
| Ready
| Starting (operation_id : N)
| Failed (operation_id : N) (classification : string)
| Removing (operation_id : N)
| SessionStopped.
#[export] Instance t_eq_dec : EqDecision t.
Proof. solve_decision. Defined.

Definition is_ready (c : t) : bool := match c with Ready => true | _ => false end.
End RuntimeConstraint.
Export (hints) RuntimeConstraint.

Module SlotPhase.
Inductive t : Type := Idle | Queued | Starting | Running | Paused | Blocked.
End SlotPhase.

Module WorkIntentState.
Inductive t : Type :=
| Queued
| Starting (batch_id : string) (operation_id : N)
| Running (batch_id : string) (operation_id : N) (turn_id : string)
| Completed
| Failed (classification : string)
| Cancelled (classification : string).
#[export] Instance t_eq_dec : EqDecision t.
Proof. solve_decision. Defined.

Definition is_terminal (self : t) : bool :=
  match self with Completed | Failed _ | Cancelled _ => true | _ => false end.
End WorkIntentState.
Export (hints) WorkIntentState.

(** ** The structs *)

Record WorkIntent : Type := mkWorkIntent {
  intent_id : string;
  intent_generation : string;
  intent_slot_id : string;
  intent_role : TeamRunTargetRole.t;
  intent_source : WorkSource.t;
  intent_priority : WorkPriority.t;
  mailbox_message_id : option string;
  intent_run_id : option string;
  created_at_ms : Z;
  intent_state : WorkIntentState.t;
}.

(** A write to [intent.state]. *)
Definition set_intent_state (st : WorkIntentState.t) (i : WorkIntent) : WorkIntent :=
  mkWorkIntent (intent_id i) (intent_generation i) (intent_slot_id i) (intent_role i)
    (intent_source i) (intent_priority i) (mailbox_message_id i) (intent_run_id i)
    (created_at_ms i) st.

Module CausalBinding.
Inductive t : Type :=
| UserVisible
| InheritRunningBatch (caller_slot_id : string)
| ActiveRunOrBackground
| Background
| SystemInitiated (inherit_from : option string).
End CausalBinding.

Record EnqueueRequest : Type := mkEnqueueRequest {
  req_slot_id : string;
  req_role : TeamRunTargetRole.t;
  req_source : WorkSource.t;
  req_binding : CausalBinding.t;
}.

Record EnqueueLease : Type := mkEnqueueLease {
  lease_id : string;
  lease_generation : string;
  lease_slot_id : string;
  lease_role : TeamRunTargetRole.t;
  lease_source : WorkSource.t;
  lease_run_id : option string;
}.
#[export] Instance EnqueueLease_eq_dec : EqDecision EnqueueLease.
Proof. solve_decision. Defined.

Record WorkBatch : Type := mkWorkBatch {
  batch_id : string;
  batch_generation : string;
  batch_slot_id : string;
  intent_ids : list string;
  mailbox_message_ids : list string;
  highest_priority : WorkPriority.t;
  team_run_ids : list string;
  operation_id : N;
}.

Module ReconcileDecision.
Inductive t : Type :=
| Claim (batch : WorkBatch)
| WaitingForCompletion
| Blocked (constraint : RuntimeConstraint.t)
| SettleSignals (intent_ids : list string)
| Quiescent.
End ReconcileDecision.

Module CommitResult.
Inductive t : Type := Committed | StaleOwner | Rejected.
End CommitResult.

Module StartCommitResult.
Inductive t : Type := Accepted | CancelImmediately | StaleOwner.
End StartCommitResult.

Module EnqueueDisposition.
Inductive t : Type := Accepted | Queued | BlockedRuntimeStarting.
End EnqueueDisposition.

Record SlotWorkSnapshot : Type := mkSlotWorkSnapshot {
  sw_slot_id : string;
  sw_role : TeamRunTargetRole.t;
  sw_state : SlotPhase.t;
  queued_foreground_count : nat;
  queued_background_count : nat;
  active_batch : option WorkBatch;
  active_turn_id : option string;
  active_turn_started_at_ms : option Z;
  sw_runtime_constraint : RuntimeConstraint.t;
  sw_run_id : option string;
}.

Record EnqueueCommit : Type := mkEnqueueCommit {
  commit_intent_id : string;
  commit_run_id : option string;
  disposition : EnqueueDisposition.t;
  commit_slot : SlotWorkSnapshot;
}.

Record RunWorkSummary : Type := mkRunWorkSummary {
  summary_run_id : string;
  queued_intent_count : nat;
  starting_batch_count : nat;
  running_batch_count : nat;
  active_enqueue_lease_count : nat;
  paused_intent_count : nat;
  failed_intent_count : nat;
  summary_slots : list SlotWorkSnapshot;
}.

Record CoordinatorSnapshot : Type := mkCoordinatorSnapshot {
  snapshot_generation : string;
  snapshot_slots : list SlotWorkSnapshot;
  active_run_summary : option RunWorkSummary;
}.

Record ReconcileProjection : Type := mkReconcileProjection {
  created_recovery_intent_ids : list string;
  retained_intent_ids : list string;
  cleared_stale_intent_ids : list string;
}.

Record BatchCancelTarget : Type := mkBatchCancelTarget {
  target_batch : WorkBatch;
  target_turn_id : option string;
}.

Record PauseWorkResult : Type := mkPauseWorkResult {
  pause_cancel_target : option BatchCancelTarget;
  pause_slot_snapshot : SlotWorkSnapshot;
}.

Record RemoveWorkResult : Type := mkRemoveWorkResult {
  remove_cancel_target : option BatchCancelTarget;
  remove_terminal_message_ids : list string;
  remove_affected_run_summaries : list RunWorkSummary;
}.

Record CancelRunWorkResult : Type := mkCancelRunWorkResult {
  cancel_targets : list BatchCancelTarget;
  cancel_terminal_message_ids : list string;
  cancel_summary : RunWorkSummary;
}.

Record RuntimeConstraintUpdate : Type := mkRuntimeConstraintUpdate {
  update_slot : SlotWorkSnapshot;
  update_terminal_message_ids : list string;
  update_affected_run_summaries : list RunWorkSummary;
}.

Record RunBinding : Type := mkRunBinding {
  binding_run_id : option string;
  created_new_run : bool;
  user_intervention : bool;
}.

(** ** The port

    [RunCausalityPort]: [R] is the state behind the trait object; the string
    of the two [bind] methods is the id [generate_id] returns if they open a
    run, [now] what [now_ms] returns. *)
Class RunCausalityPort (R : Type) : Type := {
  bind_enqueue : EnqueueRequest -> string -> R -> RunBinding * R;
  bind_system_enqueue : EnqueueRequest -> string -> R -> RunBinding * R;
  abort_binding : RunBinding -> R -> R;
  apply_work_summary : Z -> RunWorkSummary -> R -> R;
  publish_slot_work : Z -> SlotWorkSnapshot -> R -> R;
}.

(** The calls the coordinator makes after it has released its lock. *)
Inductive PortCall : Type :=
| AbortBinding (binding : RunBinding)
| ApplyWorkSummary (summary : RunWorkSummary)
| PublishSlotWork (snapshot : SlotWorkSnapshot).

Definition perform {R : Type} `{RunCausalityPort R} (now : Z) (c : PortCall) (r : R) : R :=
  match c with
  | AbortBinding b => abort_binding b r
  | ApplyWorkSummary s => apply_work_summary now s r
  | PublishSlotWork s => publish_slot_work now s r
  end.

Definition perform_all {R : Type} `{RunCausalityPort R} (now : Z) (cs : list PortCall) (r : R) : R :=
  run_list (fun r c => perform now c r) r cs.

(** ** Errors

    [DbError] ([tjuaeui-db/src/error.rs]) and [TeamError]; an error of sqlx or
    serde_json is its text. *)
Module DbError.
Inductive t : Type :=
| Query (error : string)
| Migration (error : string)
| NotFound (what : string)
| Conflict (what : string)
| Init (what : string).
End DbError.

Module TeamError.
Inductive t : Type :=
| TeamNotFound (id : string)
| AgentNotFound (id : string)
| TaskNotFound (id : string)
| InvalidRequest (message : string)
| LeaderOnly (message : string)
| Forbidden (message : string)
| SessionNotFound (id : string)
| BlockedTaskNotFound (id : string)
| BackendNotAllowed (message : string)
| DuplicateAgentName (name : string)
| RuntimeNotReady (conversation_id : string)
| MemberRuntimeFailed (team_id slot_id conversation_id public_reason : string)
| WorkspacePathUnavailable (path : string)
| WorkspacePathRuntimeUnavailable (path : string)
| Database (error : DbError.t)
| Json (error : string).
End TeamError.
