(* ===== verification/WorkCoordinator.v ===== *)
(** * The slot work coordinator
    ([crates/tjuaeui-team/src/work_coordinator/coordinator.rs], [snapshot.rs])

    [CoordinatorState] is the struct behind the mutex of
    [SlotWorkCoordinator].  A method is a function of that state which returns
    its result, the new state and the calls it makes to the
    [RunCausalityPort] after it has released the lock, in order; the two [bind]
    calls are made under the lock, so [acquire_enqueue] threads the port's state.
    What [generate_id] and [now_ms] return are arguments, as is the order in
    which [HashMap::values] yields the intents where the result depends on it.
    [None] is the panic of an [expect]. *)

From S2P Require Import Prelude WorkModel.

Record EnqueueLeaseRecord : Type := mkEnqueueLeaseRecord {
  lease : EnqueueLease;
  binding : RunBinding;
}.

Record ActiveBatch : Type := mkActiveBatch {
  batch : WorkBatch;
  turn_id : option string;
  started_at_ms : option Z;
}.

Record SlotState : Type := mkSlotState {
  role : TeamRunTargetRole.t;
  foreground : list string;
  control : list string;
  background : list string;
  active : option ActiveBatch;
  paused : bool;
  runtime_constraint : RuntimeConstraint.t;
  known_unread_message_ids : gset string;
  removed : bool;
}.

Definition SlotState_new (r : TeamRunTargetRole.t) : SlotState :=
  mkSlotState r [] [] [] None false (RuntimeConstraint.Starting 0) ∅ false.

Definition queue (slot : SlotState) (priority : WorkPriority.t) : list string :=
  match priority with
  | WorkPriority.Foreground => foreground slot
  | WorkPriority.Control => control slot
  | WorkPriority.Background => background slot
  end.

(** [f] applied through [queue_mut(priority)]. *)
Definition queue_mut (priority : WorkPriority.t) (f : list string -> list string)
    (slot : SlotState) : SlotState :=
  match priority with
  | WorkPriority.Foreground =>
      mkSlotState (role slot) (f (foreground slot)) (control slot) (background slot) (active slot)
        (paused slot) (runtime_constraint slot) (known_unread_message_ids slot) (removed slot)
  | WorkPriority.Control =>
      mkSlotState (role slot) (foreground slot) (f (control slot)) (background slot) (active slot)
        (paused slot) (runtime_constraint slot) (known_unread_message_ids slot) (removed slot)
  | WorkPriority.Background =>
      mkSlotState (role slot) (foreground slot) (control slot) (f (background slot)) (active slot)
        (paused slot) (runtime_constraint slot) (known_unread_message_ids slot) (removed slot)
  end.

Definition queued_ids (slot : SlotState) : list string :=
  foreground slot ++ control slot ++ background slot.

Definition retain_ne (id : string) (q : list string) : list string :=
  List.filter (fun candidate => negb (bool_decide (candidate = id))) q.

Definition remove_queued (id : string) (slot : SlotState) : SlotState :=
  mkSlotState (role slot) (retain_ne id (foreground slot)) (retain_ne id (control slot))
    (retain_ne id (background slot)) (active slot) (paused slot) (runtime_constraint slot)
    (known_unread_message_ids slot) (removed slot).

(** Writes to one field of a slot. *)
Definition set_role (r : TeamRunTargetRole.t) (slot : SlotState) : SlotState :=
  mkSlotState r (foreground slot) (control slot) (background slot) (active slot) (paused slot)
    (runtime_constraint slot) (known_unread_message_ids slot) (removed slot).
Definition set_active (a : option ActiveBatch) (slot : SlotState) : SlotState :=
  mkSlotState (role slot) (foreground slot) (control slot) (background slot) a (paused slot)
    (runtime_constraint slot) (known_unread_message_ids slot) (removed slot).
Definition set_paused (b : bool) (slot : SlotState) : SlotState :=
  mkSlotState (role slot) (foreground slot) (control slot) (background slot) (active slot) b
    (runtime_constraint slot) (known_unread_message_ids slot) (removed slot).
Definition set_constraint (c : RuntimeConstraint.t) (slot : SlotState) : SlotState :=
  mkSlotState (role slot) (foreground slot) (control slot) (background slot) (active slot)
    (paused slot) c (known_unread_message_ids slot) (removed slot).
Definition set_known (k : gset string) (slot : SlotState) : SlotState :=
  mkSlotState (role slot) (foreground slot) (control slot) (background slot) (active slot)
    (paused slot) (runtime_constraint slot) k (removed slot).
Definition set_removed (b : bool) (slot : SlotState) : SlotState :=
  mkSlotState (role slot) (foreground slot) (control slot) (background slot) (active slot)
    (paused slot) (runtime_constraint slot) (known_unread_message_ids slot) b.
(** The three [clear()]s and [active = None]. *)
Definition clear_work (slot : SlotState) : SlotState :=
  mkSlotState (role slot) [] [] [] None (paused slot) (runtime_constraint slot)
    (known_unread_message_ids slot) (removed slot).

Record CoordinatorState : Type := mkCoordinatorState {
  slots : gmap string SlotState;
  intents : gmap string WorkIntent;
  enqueue_leases : gmap string EnqueueLeaseRecord;
  next_operation_id : N;
}.

Definition CoordinatorState_default : CoordinatorState := mkCoordinatorState ∅ ∅ ∅ 0.

Definition set_slots (m : gmap string SlotState) (s : CoordinatorState) : CoordinatorState :=
  mkCoordinatorState m (intents s) (enqueue_leases s) (next_operation_id s).
Definition set_intents (m : gmap string WorkIntent) (s : CoordinatorState) : CoordinatorState :=
  mkCoordinatorState (slots s) m (enqueue_leases s) (next_operation_id s).
Definition set_leases (m : gmap string EnqueueLeaseRecord) (s : CoordinatorState) : CoordinatorState :=
  mkCoordinatorState (slots s) (intents s) m (next_operation_id s).
Definition set_next_op (n : N) (s : CoordinatorState) : CoordinatorState :=
  mkCoordinatorState (slots s) (intents s) (enqueue_leases s) n.

(** [slots.get_mut(id)] and [intents.get_mut(id)] followed by a write. *)
Definition on_slot (id : string) (f : SlotState -> SlotState) (s : CoordinatorState) : CoordinatorState :=
  set_slots (alter f id (slots s)) s.
Definition on_intent (id : string) (f : WorkIntent -> WorkIntent) (s : CoordinatorState) : CoordinatorState :=
  set_intents (alter f id (intents s)) s.
Definition mark_all (ids : list string) (st : WorkIntentState.t) (s : CoordinatorState) : CoordinatorState :=
  run_list (fun s id => on_intent id (set_intent_state st) s) s ids.

(** [slots.entry(id).or_insert_with(|| SlotState::new(role))] *)
Definition entry_slot (id : string) (r : TeamRunTargetRole.t) (s : CoordinatorState)
    : SlotState * CoordinatorState :=
  match slots s !! id with
  | Some slot => (slot, s)
  | None => (SlotState_new r, set_slots (<[id := SlotState_new r]> (slots s)) s)
  end.

(** ** Snapshots ([snapshot.rs]) *)

Definition run_of (run_id : string) (i : WorkIntent) : bool :=
  bool_decide (intent_run_id i = Some run_id).
Definition is_queued (i : WorkIntent) : bool :=
  match intent_state i with WorkIntentState.Queued => true | _ => false end.
Definition is_failed (i : WorkIntent) : bool :=
  match intent_state i with WorkIntentState.Failed _ => true | _ => false end.
Definition starting_batch (i : WorkIntent) : option string :=
  match intent_state i with WorkIntentState.Starting b _ => Some b | _ => None end.
Definition running_batch (i : WorkIntent) : option string :=
  match intent_state i with WorkIntentState.Running b _ _ => Some b | _ => None end.

(** [iter().filter_map(f)] and [find_map] *)
Definition filter_map {A B : Type} (f : A -> option B) (l : list A) : list B := omap f l.
Definition find_map {A B : Type} (f : A -> option B) (l : list A) : option B := head (omap f l).

Definition intent_run (s : CoordinatorState) (id : string) : option string :=
  match intents s !! id with Some i => intent_run_id i | None => None end.

Definition slot_snapshot_locked (s : CoordinatorState) (slot_id : string) : option SlotWorkSnapshot :=
  match slots s !! slot_id with
  | None => None
  | Some slot =>
      let active_batch := option_map batch (active slot) in
      let active_turn_id :=
        match active slot with Some a => turn_id a | None => None end in
      let active_turn_started_at_ms :=
        match active slot with Some a => started_at_ms a | None => None end in
      let state_phase :=
        if paused slot then SlotPhase.Paused
        else if bool_decide (is_Some active_turn_id) then SlotPhase.Running
        else if match active_batch with Some _ => true | None => false end then SlotPhase.Starting
        else if negb (RuntimeConstraint.is_ready (runtime_constraint slot)) then SlotPhase.Blocked
        else if negb (is_empty (queued_ids slot)) then SlotPhase.Queued
        else SlotPhase.Idle in
      let team_run_id :=
        match match active_batch with Some b => head (team_run_ids b) | None => None end with
        | Some r => Some r
        | None => find_map (intent_run s) (queued_ids slot)
        end in
      Some (mkSlotWorkSnapshot slot_id (role slot) state_phase (length (foreground slot))
              (length (control slot) + length (background slot)) active_batch active_turn_id
              active_turn_started_at_ms (runtime_constraint slot) team_run_id)
  end.

Definition slot_paused (s : CoordinatorState) (slot_id : string) : bool :=
  match slots s !! slot_id with Some slot => paused slot | None => false end.

Definition count {A : Type} (p : A -> bool) (l : list A) : nat := length (List.filter p l).

Definition run_intents (s : CoordinatorState) (run_id : string) : list WorkIntent :=
  List.filter (run_of run_id) (map_values (intents s)).
Definition run_leases (s : CoordinatorState) (run_id : string) : list EnqueueLeaseRecord :=
  List.filter (fun r => bool_decide (lease_run_id (lease r) = Some run_id))
    (map_values (enqueue_leases s)).

Definition run_summary_locked (s : CoordinatorState) (run_id : string) : RunWorkSummary :=
  let associated := run_intents s run_id in
  let slot_ids := btree_set (map intent_slot_id associated ++
                             map (fun r => lease_slot_id (lease r)) (run_leases s run_id)) in
  mkRunWorkSummary run_id
    (count is_queued associated)
    (length (remove_dups (filter_map starting_batch associated)))
    (length (remove_dups (filter_map running_batch associated)))
    (length (run_leases s run_id))
    (count (fun i => is_queued i && slot_paused s (intent_slot_id i)) associated)
    (count is_failed associated)
    (filter_map (slot_snapshot_locked s) slot_ids).

Definition run_summaries_locked (s : CoordinatorState) (run_ids : list string) : list RunWorkSummary :=
  map (run_summary_locked s) (btree_set run_ids).

Definition all_run_ids (s : CoordinatorState) : list string :=
  btree_set (filter_map intent_run_id (map_values (intents s)) ++
             filter_map (fun r => lease_run_id (lease r)) (map_values (enqueue_leases s))).

Definition publish_run_summaries (l : list RunWorkSummary) : list PortCall := map ApplyWorkSummary l.
Definition publish_slot_work_snapshot (o : option SlotWorkSnapshot) : list PortCall :=
  match o with Some snap => [PublishSlotWork snap] | None => [] end.

Definition option_list {A : Type} (o : option A) : list A :=
  match o with Some a => [a] | None => [] end.

(** ** The methods ([coordinator.rs]) *)

Section Coordinator.
(** The coordinator's [session_generation]. *)
Context (session_generation : string).

Definition validate_enqueue_constraint (slot_id : string) (slot : SlotState)
    : Result unit TeamError.t :=
  if removed slot then Err (TeamError.InvalidRequest ("团队槽位已移除：" +:+ slot_id))
  else
    match runtime_constraint slot with
    | RuntimeConstraint.Ready | RuntimeConstraint.Starting _ => Ok tt
    | RuntimeConstraint.Failed _ classification =>
        Err (TeamError.InvalidRequest
          ("Team slot runtime failed (" +:+ classification +:+ "): " +:+ slot_id))
    | RuntimeConstraint.Removing _ =>
        Err (TeamError.InvalidRequest ("Team slot is being removed: " +:+ slot_id))
    | RuntimeConstraint.SessionStopped =>
        Err (TeamError.InvalidRequest ("Team session stopped for slot: " +:+ slot_id))
    end.

Definition is_current_batch (s : CoordinatorState) (b : WorkBatch) : bool :=
  bool_decide (batch_generation b = session_generation) &&
  match slots s !! batch_slot_id b with
  | Some slot =>
      match active slot with
      | Some a =>
          bool_decide (batch_id (batch a) = batch_id b) &&
          (operation_id (batch a) =? operation_id b)%N &&
          bool_decide (batch_generation (batch a) = batch_generation b)
      | None => false
      end
  | None => false
  end.

(** The run of the caller's running batch, if any. *)
Definition inherited_run (s : CoordinatorState) (caller_slot_id : string) : option string :=
  match slots s !! caller_slot_id with
  | Some caller =>
      match active caller with
      | Some a => head (team_run_ids (batch a))
      | None => None
      end
  | None => None
  end.

Definition acquire_enqueue {R : Type} `{RunCausalityPort R} (request : EnqueueRequest)
    (run_id new_lease_id : string) (s : CoordinatorState) (r : R)
    : Result EnqueueLease TeamError.t * CoordinatorState * R :=
  let '(slot, s) := entry_slot (req_slot_id request) (req_role request) s in
  let slot := set_role (req_role request) slot in
  let s := on_slot (req_slot_id request) (fun _ => slot) s in
  match validate_enqueue_constraint (req_slot_id request) slot with
  | Err e => (Err e, s, r)
  | Ok _ =>
      let '(bound, r) :=
        match req_binding request with
        | CausalBinding.Background => (mkRunBinding None false false, r)
        | CausalBinding.InheritRunningBatch caller =>
            (mkRunBinding (inherited_run s caller) false false, r)
        | CausalBinding.UserVisible | CausalBinding.ActiveRunOrBackground =>
            bind_enqueue request run_id r
        | CausalBinding.SystemInitiated inherit_from =>
            let inherited :=
              match inherit_from with Some caller => inherited_run s caller | None => None end in
            match inherited with
            | Some id => (mkRunBinding (Some id) false false, r)
            | None => bind_system_enqueue request run_id r
            end
        end in
      let l := mkEnqueueLease new_lease_id session_generation (req_slot_id request)
                 (req_role request) (req_source request) (binding_run_id bound) in
      (Ok l, set_leases (<[new_lease_id := mkEnqueueLeaseRecord l bound]> (enqueue_leases s)) s, r)
  end.

(** [commit_enqueue] after its checks have passed: the effect on the state. *)
Definition commit_intent (l : EnqueueLease) (message_id : option string) (new_intent_id : string)
    (now : Z) : WorkIntent :=
  mkWorkIntent new_intent_id session_generation (lease_slot_id l) (lease_role l) (lease_source l)
    (WorkSource.priority (lease_source l)) message_id (lease_run_id l) now WorkIntentState.Queued.

Definition commit_state (l : EnqueueLease) (message_id : option string) (new_intent_id : string)
    (now : Z) (s : CoordinatorState) : CoordinatorState :=
  let s := set_leases (delete (lease_id l) (enqueue_leases s)) s in
  let i := commit_intent l message_id new_intent_id now in
  let s := set_intents (<[new_intent_id := i]> (intents s)) s in
  on_slot (lease_slot_id l) (fun slot =>
    let slot := if WorkSource.resumes_paused_slot (lease_source l) then set_paused false slot else slot in
    let slot :=
      match message_id with
      | Some m => set_known ({[m]} ∪ known_unread_message_ids slot) slot
      | None => slot
      end in
    queue_mut (intent_priority i) (fun q => q ++ [new_intent_id]) slot) s.

Definition enqueue_disposition (slot : SlotState) : EnqueueDisposition.t :=
  match runtime_constraint slot with
  | RuntimeConstraint.Starting _ => EnqueueDisposition.BlockedRuntimeStarting
  | _ =>
      if match active slot with None => true | Some _ => false end && is_empty (queued_ids slot)
      then EnqueueDisposition.Accepted else EnqueueDisposition.Queued
  end.

Definition commit_enqueue (l : EnqueueLease) (message_id : option string) (new_intent_id : string)
    (now : Z) (s : CoordinatorState)
    : Result EnqueueCommit TeamError.t * CoordinatorState * list PortCall :=
  let checked :=
    (let? record := ok_or (enqueue_leases s !! lease_id l)
                      (TeamError.InvalidRequest "入队租约已不再活动") in
     if negb (bool_decide (lease record = l))
        || negb (bool_decide (lease_generation l = session_generation))
     then Err (TeamError.InvalidRequest "入队租约所有者已过期")
     else
       if WorkSource.requires_mailbox_message (lease_source l)
          && match message_id with None => true | Some _ => false end
       then Err (TeamError.InvalidRequest
                   (WorkSource.debug (lease_source l) +:+ " requires a mailbox message"))
       else
         let? slot := ok_or (slots s !! lease_slot_id l) (TeamError.AgentNotFound (lease_slot_id l)) in
         let? _ := validate_enqueue_constraint (lease_slot_id l) slot in
         Ok (enqueue_disposition slot))%tj in
  match checked with
  | Err e => (Err e, s, [])
  | Ok d =>
      let s := commit_state l message_id new_intent_id now s in
      match slot_snapshot_locked s (lease_slot_id l) with
      | Some snap =>
          (Ok (mkEnqueueCommit new_intent_id (lease_run_id l) d snap), s,
           publish_run_summaries (run_summaries_locked s (option_list (lease_run_id l)))
           ++ publish_slot_work_snapshot (Some snap))
      | None => (Err (TeamError.AgentNotFound (lease_slot_id l)), s, [])
      end
  end.

Definition abort_enqueue (l : EnqueueLease) (s : CoordinatorState)
    : CommitResult.t * CoordinatorState * list PortCall :=
  match enqueue_leases s !! lease_id l with
  | None => (CommitResult.StaleOwner, s, [])
  | Some record =>
      let s1 := set_leases (delete (lease_id l) (enqueue_leases s)) s in
      if negb (bool_decide (lease record = l))
         || negb (bool_decide (lease_generation l = session_generation))
      then (CommitResult.StaleOwner,
            set_leases (<[lease_id (lease record) := record]> (enqueue_leases s1)) s1, [])
      else
        let remove_empty_run :=
          match lease_run_id l with
          | Some run_id => is_empty (run_intents s1 run_id) && is_empty (run_leases s1 run_id)
          | None => false
          end in
        (CommitResult.Committed, s1,
         (if remove_empty_run then [AbortBinding (binding record)] else [])
         ++ publish_run_summaries (run_summaries_locked s1 (option_list (lease_run_id l)))
         ++ publish_slot_work_snapshot (slot_snapshot_locked s1 (lease_slot_id l)))
  end.

(** The loop of [reconcile_mailbox] over the queued candidates. *)
Definition reconcile_candidate (unread : gset string)
    (acc : CoordinatorState * list string * list string) (id : string)
    : CoordinatorState * list string * list string :=
  let '(s, retained, cleared) := acc in
  match intents s !! id with
  | None => acc
  | Some i =>
      match mailbox_message_id i with
      | None => (s, retained ++ [id], cleared)
      | Some m =>
          if bool_decide (m ∈ unread) then (s, retained ++ [id], cleared)
          else (on_intent id (set_intent_state WorkIntentState.Completed) s, retained, cleared ++ [id])
      end
  end.

Definition owns_message (slot_id m : string) (i : WorkIntent) : bool :=
  bool_decide (intent_slot_id i = slot_id) && bool_decide (mailbox_message_id i = Some m)
  && negb (WorkIntentState.is_terminal (intent_state i)).

Definition recovery_intent (slot_id : string) (r : TeamRunTargetRole.t) (m id : string) (now : Z)
    : WorkIntent :=
  mkWorkIntent id session_generation slot_id r WorkSource.RecoveryDrain WorkPriority.Background
    (Some m) None now WorkIntentState.Queued.

(** The loop over the unread messages; [fresh k] is the [k]-th id generated. *)
Definition reconcile_unread (slot_id : string) (r : TeamRunTargetRole.t) (fresh : nat -> string)
    (now : Z) (acc : CoordinatorState * list string) (m : string) : CoordinatorState * list string :=
  let '(s, created) := acc in
  if existsb (owns_message slot_id m) (map_values (intents s)) then acc
  else
    let id := fresh (length created) in
    let s := set_intents (<[id := recovery_intent slot_id r m id now]> (intents s)) s in
    (on_slot slot_id (queue_mut WorkPriority.Background (fun q => q ++ [id])) s, created ++ [id]).

(** The state after the first half: role, known ids, stale intents cleared. *)
Definition reconcile_clear (slot_id : string) (unread_message_ids : list string)
    (r : TeamRunTargetRole.t) (s : CoordinatorState)
    : CoordinatorState * list string * list string :=
  let unread : gset string := list_to_set unread_message_ids in
  let '(slot, s) := entry_slot slot_id r s in
  let slot := set_known unread (set_role r slot) in
  let s := on_slot slot_id (fun _ => slot) s in
  let '(s, retained, cleared) :=
    run_list (reconcile_candidate unread) (s, [], []) (queued_ids slot) in
  (run_list (fun s id => on_slot slot_id (remove_queued id) s) s cleared, retained, cleared).

Definition reconcile_mailbox (slot_id : string) (unread_message_ids : list string)
    (r : TeamRunTargetRole.t) (fresh : nat -> string) (now : Z) (s : CoordinatorState)
    : ReconcileProjection * CoordinatorState :=
  let '(s, retained, cleared) := reconcile_clear slot_id unread_message_ids r s in
  let '(s, created) :=
    run_list (reconcile_unread slot_id r fresh now) (s, []) unread_message_ids in
  (mkReconcileProjection created retained cleared, s).

Definition has_message (s : CoordinatorState) (id : string) : bool :=
  match intents s !! id with
  | Some i => match mailbox_message_id i with Some _ => true | None => false end
  | None => false
  end.

Definition intent_message (s : CoordinatorState) (id : string) : option string :=
  match intents s !! id with Some i => mailbox_message_id i | None => None end.

(** [if !v.contains(x) { v.push(x) }] over a list. *)
Definition push_new (v : list string) (x : string) : list string :=
  if bool_decide (x ∈ v) then v else v ++ [x].

Definition selected_priority (slot : SlotState) : option WorkPriority.t :=
  find (fun p => negb (is_empty (queue slot p)))
    [WorkPriority.Foreground; WorkPriority.Control; WorkPriority.Background].

Definition u64_succ_saturating (n : N) : N := u64_saturating_add n 1.

Definition make_batch (slot_id : string) (priority : WorkPriority.t) (ids : list string)
    (new_batch_id : string) (op : N) (s : CoordinatorState) : WorkBatch :=
  mkWorkBatch new_batch_id session_generation slot_id ids (filter_map (intent_message s) ids)
    priority (run_list push_new [] (filter_map (intent_run s) ids)) op.

Definition next (slot_id new_batch_id : string) (s : CoordinatorState)
    : ReconcileDecision.t * CoordinatorState * list PortCall :=
  match slots s !! slot_id with
  | None => (ReconcileDecision.Quiescent, s, [])
  | Some slot =>
      if match active slot with Some _ => true | None => false end
      then (ReconcileDecision.WaitingForCompletion, s, [])
      else if negb (RuntimeConstraint.is_ready (runtime_constraint slot))
      then (ReconcileDecision.Blocked (runtime_constraint slot), s, [])
      else if paused slot then (ReconcileDecision.Quiescent, s, [])
      else
        match selected_priority slot with
        | None => (ReconcileDecision.Quiescent, s, [])
        | Some priority =>
            let queued := queue slot priority in
            let ids := List.filter (has_message s) queued in
            if is_empty ids then (ReconcileDecision.SettleSignals queued, s, [])
            else
              let s := set_next_op (u64_succ_saturating (next_operation_id s)) s in
              let op := next_operation_id s in
              let b := make_batch slot_id priority ids new_batch_id op s in
              let s := mark_all ids (WorkIntentState.Starting new_batch_id op) s in
              let s := run_list (fun s id => on_slot slot_id (remove_queued id) s) s ids in
              let s := on_slot slot_id (set_active (Some (mkActiveBatch b None None))) s in
              (ReconcileDecision.Claim b, s,
               publish_run_summaries (run_summaries_locked s (team_run_ids b))
               ++ publish_slot_work_snapshot (slot_snapshot_locked s slot_id))
        end
  end.

Definition is_cancelled (s : CoordinatorState) (id : string) : bool :=
  match intents s !! id with
  | Some i => match intent_state i with WorkIntentState.Cancelled _ => true | _ => false end
  | None => false
  end.

Definition mark_started (b : WorkBatch) (turn : string) (now : Z) (s : CoordinatorState)
    : StartCommitResult.t * CoordinatorState * list PortCall :=
  if negb (is_current_batch s b) then
    if forallb (is_cancelled s) (intent_ids b)
    then (StartCommitResult.CancelImmediately, s, [])
    else (StartCommitResult.StaleOwner, s, [])
  else
    let cancel_immediately :=
      match slots s !! batch_slot_id b with
      | Some slot => paused slot || negb (RuntimeConstraint.is_ready (runtime_constraint slot))
      | None => false
      end in
    let s := mark_all (intent_ids b)
               (WorkIntentState.Running (batch_id b) (operation_id b) turn) s in
    let s := on_slot (batch_slot_id b) (fun slot =>
      set_active (option_map (fun a => mkActiveBatch (batch a) (Some turn) (Some now)) (active slot))
        slot) s in
    (if cancel_immediately then StartCommitResult.CancelImmediately else StartCommitResult.Accepted,
     s,
     publish_run_summaries (run_summaries_locked s (team_run_ids b))
     ++ publish_slot_work_snapshot (slot_snapshot_locked s (batch_slot_id b))).

Definition push_front (id : string) (q : list string) : list string := id :: q.

Definition retry_start (b : WorkBatch) (s : CoordinatorState)
    : CommitResult.t * CoordinatorState * list PortCall :=
  if negb (is_current_batch s b) then (CommitResult.StaleOwner, s, [])
  else
    let s := mark_all (intent_ids b) WorkIntentState.Queued s in
    let s := on_slot (batch_slot_id b) (set_active None) s in
    let s := run_list (fun s id =>
               on_slot (batch_slot_id b) (queue_mut (highest_priority b) (push_front id)) s)
               s (rev (intent_ids b)) in
    (CommitResult.Committed, s,
     publish_run_summaries (run_summaries_locked s (team_run_ids b))
     ++ publish_slot_work_snapshot (slot_snapshot_locked s (batch_slot_id b))).

Definition terminalize_batch (b : WorkBatch) (terminal_state : WorkIntentState.t)
    (s : CoordinatorState) : CommitResult.t * CoordinatorState * list PortCall :=
  if negb (is_current_batch s b) then (CommitResult.StaleOwner, s, [])
  else
    let s := mark_all (intent_ids b) terminal_state s in
    let s := on_slot (batch_slot_id b) (set_active None) s in
    (CommitResult.Committed, s,
     publish_run_summaries (run_summaries_locked s (team_run_ids b))
     ++ publish_slot_work_snapshot (slot_snapshot_locked s (batch_slot_id b))).

Definition complete_batch (b : WorkBatch) := terminalize_batch b WorkIntentState.Completed.
Definition fail_batch (b : WorkBatch) (classification : string) :=
  terminalize_batch b (WorkIntentState.Failed classification).
Definition cancel_batch (b : WorkBatch) (classification : string) :=
  terminalize_batch b (WorkIntentState.Cancelled classification).

(** *** [cancel_run] *)

Definition run_cancelled : WorkIntentState.t := WorkIntentState.Cancelled "run_cancelled".

Definition in_run (s : CoordinatorState) (run_id id : string) : bool :=
  bool_decide (intent_run s id = Some run_id).

(** The slots whose active batch holds an intent of the run, in key order. *)
Definition run_active_slots (run_id : string) (s : CoordinatorState) : list (string * ActiveBatch) :=
  filter_map (fun slot_id =>
    match slots s !! slot_id with
    | Some slot =>
        match active slot with
        | Some a => if existsb (in_run s run_id) (intent_ids (batch a)) then Some (slot_id, a) else None
        | None => None
        end
    | None => None
    end) (btree_keys (slots s)).

(** One intent of such a batch: cancelled, or queued again and retained. *)
Definition cancel_active_intent (run_id : string)
    (acc : CoordinatorState * list string * list (WorkPriority.t * string)) (id : string)
    : option (CoordinatorState * list string * list (WorkPriority.t * string)) :=
  let '(s, msgs, retained) := acc in
  match intents s !! id with
  | None => None
  | Some i =>
      Some (if run_of run_id i
            then (on_intent id (set_intent_state run_cancelled) s,
                  msgs ++ option_list (mailbox_message_id i), retained)
            else (on_intent id (set_intent_state WorkIntentState.Queued) s, msgs,
                  retained ++ [(intent_priority i, id)]))
  end.

Definition requeue_front (slot_id : string) (s : CoordinatorState) (x : WorkPriority.t * string)
    : CoordinatorState :=
  on_slot slot_id (queue_mut (fst x) (push_front (snd x))) s.

Definition cancel_active_slot (run_id : string)
    (acc : CoordinatorState * list BatchCancelTarget * list string) (x : string * ActiveBatch)
    : option (CoordinatorState * list BatchCancelTarget * list string) :=
  let '(s, targets, msgs) := acc in
  let '(slot_id, a) := x in
  match try_fold (cancel_active_intent run_id) (s, msgs, []) (intent_ids (batch a)) with
  | None => None
  | Some (s, msgs, retained) =>
      let s := on_slot slot_id (set_active None) s in
      Some (run_list (requeue_front slot_id) s (rev retained),
            targets ++ [mkBatchCancelTarget (batch a) (turn_id a)], msgs)
  end.

Definition cancel_queued_intent (acc : CoordinatorState * list string) (id : string)
    : CoordinatorState * list string :=
  let '(s, msgs) := acc in
  match intents s !! id with
  | None => acc
  | Some i =>
      (on_slot (intent_slot_id i) (remove_queued id) (on_intent id (set_intent_state run_cancelled) s),
       msgs ++ option_list (mailbox_message_id i))
  end.

(** [order] is the order of the keys of [intents]. *)
Definition cancel_run (run_id : string) (order : list string) (s : CoordinatorState)
    : option (CancelRunWorkResult * CoordinatorState * list PortCall) :=
  match try_fold (cancel_active_slot run_id) (s, [], []) (run_active_slots run_id s) with
  | None => None
  | Some (s, targets, msgs) =>
      let queued := List.filter (fun id =>
        match intents s !! id with Some i => run_of run_id i && is_queued i | None => false end) order in
      let '(s, msgs) := run_list cancel_queued_intent (s, msgs) queued in
      let lease_ids := map (fun r => lease_id (lease r)) (run_leases s run_id) in
      let s := run_list (fun s id => set_leases (delete id (enqueue_leases s)) s) s lease_ids in
      let summary := run_summary_locked s run_id in
      Some (mkCancelRunWorkResult targets msgs summary, s, [ApplyWorkSummary summary])
  end.

(** *** Signals, pause, runtime constraint, removal, stop *)

Definition valid_signal (slot_id : string) (s : CoordinatorState) (id : string) : bool :=
  match intents s !! id with
  | Some i => bool_decide (intent_slot_id i = slot_id)
              && bool_decide (mailbox_message_id i = None)
              && bool_decide (intent_state i = WorkIntentState.Queued)
  | None => false
  end.

Definition complete_signals (slot_id : string) (ids : list string) (s : CoordinatorState)
    : CommitResult.t * CoordinatorState * list PortCall :=
  if negb (forallb (valid_signal slot_id s) ids) then (CommitResult.Rejected, s, [])
  else
    let run_ids := filter_map (intent_run s) ids in
    let s := run_list (fun s id =>
               on_slot slot_id (remove_queued id)
                 (on_intent id (set_intent_state WorkIntentState.Completed) s)) s ids in
    (CommitResult.Committed, s, publish_run_summaries (run_summaries_locked s run_ids)).

Definition cancel_target_of (slot : SlotState) : option BatchCancelTarget :=
  option_map (fun a => mkBatchCancelTarget (batch a) (turn_id a)) (active slot).

Definition pause_slot (slot_id : string) (s : CoordinatorState)
    : option (PauseWorkResult * CoordinatorState) :=
  let '(slot, s) := entry_slot slot_id TeamRunTargetRole.Teammate s in
  let s := on_slot slot_id (set_paused true) s in
  match slot_snapshot_locked s slot_id with
  | Some snap => Some (mkPauseWorkResult (cancel_target_of slot) snap, s)
  | None => None
  end.

Definition live_intent_of (slot_id : string) (i : WorkIntent) : bool :=
  bool_decide (intent_slot_id i = slot_id) && negb (WorkIntentState.is_terminal (intent_state i)).

Definition live_ids (slot_id : string) (order : list string) (s : CoordinatorState) : list string :=
  List.filter (fun id =>
    match intents s !! id with Some i => live_intent_of slot_id i | None => false end) order.

(** One intent of a failed or stopped slot; [final] is its terminal state,
    [stopped] tells the two apart. *)
Definition constrain_intent (stopped : bool) (final : WorkIntentState.t)
    (acc : CoordinatorState * list (WorkPriority.t * string) * list string * list string) (id : string)
    : CoordinatorState * list (WorkPriority.t * string) * list string * list string :=
  let '(s, requeue, run_ids, msgs) := acc in
  match intents s !! id with
  | None => acc
  | Some i =>
      if bool_decide (intent_run_id i = None) && negb stopped
      then (on_intent id (set_intent_state WorkIntentState.Queued) s,
            requeue ++ [(intent_priority i, id)], run_ids, msgs)
      else (on_intent id (set_intent_state final) s, requeue,
            run_ids ++ option_list (intent_run_id i), msgs ++ option_list (mailbox_message_id i))
  end.

Definition requeue_back (slot_id : string) (s : CoordinatorState) (x : WorkPriority.t * string)
    : CoordinatorState :=
  on_slot slot_id (queue_mut (fst x) (fun q => q ++ [snd x])) s.

Definition set_runtime_constraint (slot_id : string) (constraint : RuntimeConstraint.t)
    (order : list string) (s : CoordinatorState)
    : option (RuntimeConstraintUpdate * CoordinatorState * list PortCall) :=
  let '(_, s) := entry_slot slot_id TeamRunTargetRole.Teammate s in
  let s := on_slot slot_id (set_constraint constraint) s in
  let settle (stopped : bool) (final : WorkIntentState.t) :=
    let '(s, requeue, run_ids, msgs) :=
      run_list (constrain_intent stopped final) (s, [], [], []) (live_ids slot_id order s) in
    let s := on_slot slot_id clear_work s in
    (run_list (requeue_back slot_id) s requeue, run_ids, msgs) in
  let '(s, run_ids, msgs) :=
    match constraint with
    | RuntimeConstraint.Failed _ classification => settle false (WorkIntentState.Failed classification)
    | RuntimeConstraint.SessionStopped => settle true (WorkIntentState.Cancelled "session_stopped")
    | _ => (s, [], [])
    end in
  let summaries := run_summaries_locked s run_ids in
  match slot_snapshot_locked s slot_id with
  | Some snap =>
      Some (mkRuntimeConstraintUpdate snap msgs summaries, s,
            publish_run_summaries summaries ++ publish_slot_work_snapshot (Some snap))
  | None => None
  end.

Definition slot_removed : WorkIntentState.t := WorkIntentState.Cancelled "slot_removed".

Definition remove_intent (acc : CoordinatorState * list string * list string) (id : string)
    : option (CoordinatorState * list string * list string) :=
  let '(s, msgs, run_ids) := acc in
  match intents s !! id with
  | None => None
  | Some i =>
      Some (on_intent id (set_intent_state slot_removed) s,
            msgs ++ option_list (mailbox_message_id i), run_ids ++ option_list (intent_run_id i))
  end.

(** [sort_by_key(|intent| (created_at_ms, intent_id))] *)
Definition intent_before (i j : WorkIntent) : Prop :=
  (created_at_ms i < created_at_ms j)%Z \/
  (created_at_ms i = created_at_ms j /\ String.le (intent_id i) (intent_id j)).
#[local] Instance intent_before_dec : RelDecision intent_before.
Proof. intros i j. unfold intent_before. apply _. Defined.

Definition remove_ids (slot_id : string) (s : CoordinatorState) : list string :=
  let ordered :=
    match slots s !! slot_id with
    | Some slot =>
        match active slot with Some a => intent_ids (batch a) | None => [] end ++ queued_ids slot
    | None => []
    end in
  let remaining := List.filter (fun i =>
    live_intent_of slot_id i && negb (bool_decide (intent_id i ∈ ordered))) (map_values (intents s)) in
  ordered ++ map intent_id (merge_sort intent_before remaining).

Definition remove_slot (slot_id : string) (s : CoordinatorState)
    : option (RemoveWorkResult * CoordinatorState * list PortCall) :=
  let target := match slots s !! slot_id with Some slot => cancel_target_of slot | None => None end in
  match try_fold remove_intent (s, [], []) (remove_ids slot_id s) with
  | None => None
  | Some (s, msgs, run_ids) =>
      let s := on_slot slot_id (fun slot => set_removed true (clear_work slot)) s in
      let summaries := run_summaries_locked s run_ids in
      Some (mkRemoveWorkResult target msgs summaries, s, publish_run_summaries summaries)
  end.

Definition stop_intent (i : WorkIntent) : WorkIntent :=
  if WorkIntentState.is_terminal (intent_state i) then i
  else set_intent_state (WorkIntentState.Cancelled "session_stopped") i.

Definition stop (s : CoordinatorState) : list RunWorkSummary * CoordinatorState * list PortCall :=
  let run_ids := all_run_ids s in
  let s := mkCoordinatorState
    ((fun slot => set_constraint RuntimeConstraint.SessionStopped (clear_work slot)) <$> slots s)
    (stop_intent <$> intents s) ∅ (next_operation_id s) in
  let summaries := map (run_summary_locked s) run_ids in
  (summaries, s, publish_run_summaries summaries).

(** *** Reads *)

Definition slot_snapshot (slot_id : string) (s : CoordinatorState) : option SlotWorkSnapshot :=
  slot_snapshot_locked s slot_id.

Definition has_work (m : RunWorkSummary) : bool :=
  negb (queued_intent_count m =? 0)%nat || negb (starting_batch_count m =? 0)%nat
  || negb (running_batch_count m =? 0)%nat || negb (active_enqueue_lease_count m =? 0)%nat
  || negb (paused_intent_count m =? 0)%nat.

Definition snapshot (s : CoordinatorState) : CoordinatorSnapshot :=
  mkCoordinatorSnapshot session_generation
    (filter_map (slot_snapshot_locked s) (btree_keys (slots s)))
    (find has_work (map (run_summary_locked s) (all_run_ids s))).
End Coordinator.
