(* ===== verification/WorkInvariant.v ===== *)
(** * Well-formedness of the work coordinator

    [wf] ties the two halves of [CoordinatorState] together: the queues and the
    active batch of a slot against the states of its intents.  The file proves
    that every method preserves it. *)

From S2P Require Import Prelude WorkModel WorkCoordinator.

(** ** Definition *)

Definition in_flight (i : WorkIntent) : bool :=
  match intent_state i with
  | WorkIntentState.Starting _ _ | WorkIntentState.Running _ _ _ => true
  | _ => false
  end.

(** The state of the intents of an active batch. *)
Definition flight_state (a : ActiveBatch) : WorkIntentState.t :=
  match turn_id a with
  | None => WorkIntentState.Starting (batch_id (batch a)) (operation_id (batch a))
  | Some t => WorkIntentState.Running (batch_id (batch a)) (operation_id (batch a)) t
  end.

Definition msg_in (m : gmap string WorkIntent) (id : string) : option string :=
  match m !! id with Some i => mailbox_message_id i | None => None end.
Definition run_in (m : gmap string WorkIntent) (id : string) : option string :=
  match m !! id with Some i => intent_run_id i | None => None end.

Section Invariant.
Context (gen : string).

Record batch_wf (m : gmap string WorkIntent) (sid : string) (a : ActiveBatch) : Prop := {
  bw_slot : batch_slot_id (batch a) = sid;
  bw_generation : batch_generation (batch a) = gen;
  bw_some : intent_ids (batch a) <> [];
  bw_nodup : NoDup (intent_ids (batch a));
  bw_messages : mailbox_message_ids (batch a) = omap (msg_in m) (intent_ids (batch a));
  bw_runs : team_run_ids (batch a) = run_list push_new [] (omap (run_in m) (intent_ids (batch a)));
  bw_intents : forall id, id ∈ intent_ids (batch a) -> exists i,
    m !! id = Some i /\ intent_state i = flight_state a /\ intent_slot_id i = sid /\
    intent_priority i = highest_priority (batch a) /\ is_Some (mailbox_message_id i);
}.

Definition queued_at (m : gmap string WorkIntent) (sid : string) (p : WorkPriority.t) (id : string) : Prop :=
  exists i, m !! id = Some i /\ intent_state i = WorkIntentState.Queued /\
    intent_slot_id i = sid /\ intent_priority i = p.

Record slot_wf (m : gmap string WorkIntent) (sid : string) (slot : SlotState) : Prop := {
  sw_nodup : forall p, NoDup (queue slot p);
  sw_queue : forall p id, id ∈ queue slot p <-> queued_at m sid p id;
  sw_flight : forall id i, m !! id = Some i -> intent_slot_id i = sid -> in_flight i = true ->
    exists a, active slot = Some a /\ id ∈ intent_ids (batch a);
  sw_active : forall a, active slot = Some a -> batch_wf m sid a;
}.

Record wf (s : CoordinatorState) : Prop := {
  wf_keys : forall id i, intents s !! id = Some i -> intent_id i = id /\ intent_generation i = gen;
  wf_home : forall id i, intents s !! id = Some i -> is_Some (slots s !! intent_slot_id i);
  wf_slots : forall sid slot, slots s !! sid = Some slot -> slot_wf (intents s) sid slot;
  wf_leases : forall k rec, enqueue_leases s !! k = Some rec ->
    lease_id (lease rec) = k /\ lease_generation (lease rec) = gen /\
    is_Some (slots s !! lease_slot_id (lease rec));
}.

(** ** Lookups after the elementary writes *)

Lemma mark_all_slots ids st s : slots (mark_all ids st s) = slots s.
Proof. revert s. induction ids as [|id ids IH]; intros s; [done|]. unfold mark_all in *. simpl. by rewrite IH. Qed.

Lemma mark_all_leases ids st s : enqueue_leases (mark_all ids st s) = enqueue_leases s.
Proof. revert s. induction ids as [|id ids IH]; intros s; [done|]. unfold mark_all in *. simpl. by rewrite IH. Qed.

Lemma mark_all_next ids st s : next_operation_id (mark_all ids st s) = next_operation_id s.
Proof. revert s. induction ids as [|id ids IH]; intros s; [done|]. unfold mark_all in *. simpl. by rewrite IH. Qed.

Lemma set_state_twice st st' i : set_intent_state st (set_intent_state st' i) = set_intent_state st i.
Proof. done. Qed.

Lemma mark_all_lookup ids st s id :
  intents (mark_all ids st s) !! id =
  (fun i => if bool_decide (id ∈ ids) then set_intent_state st i else i) <$> (intents s !! id).
Proof.
  revert s. induction ids as [|x ids IH]; intros s.
  - unfold mark_all. simpl. by destruct (intents s !! id).
  - unfold mark_all in *. simpl. rewrite IH. simpl.
    destruct (decide (x = id)) as [->|Hne].
    + rewrite lookup_alter_eq. rewrite (bool_decide_eq_true_2 (id ∈ id :: ids)) by apply list_elem_of_here.
      destruct (intents s !! id); simpl; [|done]. by case_bool_decide.
    + rewrite lookup_alter_ne by done. destruct (intents s !! id); simpl; [|done].
      f_equal. assert (id ∈ x :: ids <-> id ∈ ids) as Hiff by (rewrite elem_of_cons; intuition congruence).
      by rewrite (bool_decide_ext _ _ Hiff).
Qed.

Lemma on_slot_id sid s : on_slot sid (fun slot => slot) s = s.
Proof.
  unfold on_slot, set_slots. destruct s as [sl i l n]. simpl. f_equal.
  apply map_eq. intros k. destruct (decide (sid = k)) as [->|Hne].
  - rewrite lookup_alter_eq. by destruct (sl !! k).
  - by rewrite lookup_alter_ne.
Qed.

Lemma on_slot_twice sid f g s : on_slot sid g (on_slot sid f s) = on_slot sid (fun x => g (f x)) s.
Proof.
  unfold on_slot, set_slots. simpl. f_equal. apply map_eq. intros k.
  destruct (decide (sid = k)) as [->|Hne].
  - rewrite !lookup_alter_eq. by destruct (slots s !! k).
  - by rewrite !lookup_alter_ne.
Qed.

Lemma run_on_slot {X} sid (f : X -> SlotState -> SlotState) s l :
  run_list (fun s x => on_slot sid (f x) s) s l =
  on_slot sid (fun slot => run_list (fun sl x => f x sl) slot l) s.
Proof.
  revert s. induction l as [|x l IH]; intros s; simpl.
  - symmetry. apply on_slot_id.
  - rewrite IH, on_slot_twice. done.
Qed.

Lemma on_slot_lookup sid f s k :
  slots (on_slot sid f s) !! k =
  if bool_decide (k = sid) then f <$> (slots s !! k) else slots s !! k.
Proof.
  simpl. case_bool_decide as H; [subst k; apply lookup_alter_eq|by rewrite lookup_alter_ne].
Qed.

Lemma on_slot_some sid f s k : is_Some (slots s !! k) -> is_Some (slots (on_slot sid f s) !! k).
Proof. rewrite on_slot_lookup. intros [x ->]. case_bool_decide; by eexists. Qed.

(** ** Queues after the elementary writes *)

Definition not_in (ids : list string) (id : string) : bool := negb (bool_decide (id ∈ ids)).

Lemma queue_set_active a slot p : queue (set_active a slot) p = queue slot p.
Proof. by destruct p. Qed.

Lemma queue_mut_queue p f slot p' :
  queue (queue_mut p f slot) p' = if decide (p' = p) then f (queue slot p') else queue slot p'.
Proof. by destruct p, p'. Qed.

Lemma queue_mut_active p f slot : active (queue_mut p f slot) = active slot.
Proof. by destruct p. Qed.

Lemma queue_remove_queued id slot p : queue (remove_queued id slot) p = retain_ne id (queue slot p).
Proof. by destruct p. Qed.

Lemma run_remove_queue ids slot p :
  queue (run_list (fun sl id => remove_queued id sl) slot ids) p = List.filter (not_in ids) (queue slot p).
Proof.
  revert slot. induction ids as [|id ids IH]; intros slot; simpl.
  - induction (queue slot p) as [|x q IHq]; simpl; [done|]. by f_equal.
  - rewrite IH, queue_remove_queued. unfold retain_ne.
    induction (queue slot p) as [|x q IHq]; simpl; [done|].
    assert (not_in (id :: ids) x = negb (bool_decide (x = id)) && not_in ids x) as ->.
    { unfold not_in. rewrite (bool_decide_ext _ _ (elem_of_cons ids x id)).
      repeat case_bool_decide; simpl; tauto. }
    destruct (bool_decide (x = id)); simpl; [done|]. by destruct (not_in ids x); [f_equal|].
Qed.

Lemma run_remove_active ids slot :
  active (run_list (fun sl id => remove_queued id sl) slot ids) = active slot.
Proof. revert slot. induction ids as [|id ids IH]; intros slot; simpl; [done|]. by rewrite IH. Qed.

Lemma run_push_front_queue p ids slot p' :
  queue (run_list (fun sl id => queue_mut p (push_front id) sl) slot (rev ids)) p' =
  if decide (p' = p) then ids ++ queue slot p' else queue slot p'.
Proof.
  induction ids as [|id ids IH] in slot |- *; simpl; [by destruct (decide _)|].
  rewrite run_list_app. simpl. rewrite queue_mut_queue, IH. by destruct (decide _).
Qed.

Lemma run_push_front_active p ids slot :
  active (run_list (fun sl id => queue_mut p (push_front id) sl) slot ids) = active slot.
Proof.
  revert slot. induction ids as [|id ids IH]; intros slot; simpl; [done|].
  by rewrite IH, queue_mut_active.
Qed.

(** ** Frame lemmas *)

(** Two intent maps agree on a slot. *)
Definition agree_on (sid : string) (m m' : gmap string WorkIntent) : Prop :=
  forall id i, intent_slot_id i = sid -> (m !! id = Some i <-> m' !! id = Some i).

Lemma queued_at_agree sid m m' p id : agree_on sid m m' -> queued_at m sid p id <-> queued_at m' sid p id.
Proof.
  intros Hag. split; intros (i & Hl & Hst & Hsl & Hp); exists i; (split; [by apply (Hag id i Hsl)|done]).
Qed.

Lemma omap_ext_in {A B} (f g : A -> option B) (l : list A) :
  (forall x, x ∈ l -> f x = g x) -> omap f l = omap g l.
Proof.
  induction l as [|x l IH]; intros H; [done|].
  assert (Hl : omap f l = omap g l) by (apply IH; intros y Hy; apply H; by apply list_elem_of_further).
  pose proof (H x (list_elem_of_here _ _)) as Hx. csimpl. by rewrite Hx, Hl.
Qed.

Lemma batch_wf_agree sid m m' a : agree_on sid m m' -> batch_wf m sid a -> batch_wf m' sid a.
Proof.
  intros Hag [H1 H2 H3 H4 H5 H6 H7].
  assert (Hin : forall id, id ∈ intent_ids (batch a) -> m' !! id = m !! id).
  { intros id (i & Hl & _ & Hsl & _)%H7. rewrite Hl. by apply (Hag id i Hsl). }
  split; try done.
  - rewrite H5. apply omap_ext_in. intros id Hid. unfold msg_in. by rewrite (Hin id Hid).
  - rewrite H6. f_equal. apply omap_ext_in. intros id Hid. unfold run_in. by rewrite (Hin id Hid).
  - intros id Hid. rewrite (Hin id Hid). by apply H7.
Qed.

Lemma slot_wf_agree sid m m' slot : agree_on sid m m' -> slot_wf m sid slot -> slot_wf m' sid slot.
Proof.
  intros Hag [H1 H2 H3 H4]. split.
  - done.
  - intros p id. by rewrite H2, (queued_at_agree sid m m').
  - intros id i Hl Hsl. apply (H3 id i); [by apply (Hag id i Hsl)|done].
  - intros a Ha. by apply (batch_wf_agree sid m), H4.
Qed.

(** What a slot's well-formedness reads of the slot. *)
Lemma slot_wf_same m sid slot slot' :
  (forall p, queue slot' p = queue slot p) -> active slot' = active slot ->
  slot_wf m sid slot -> slot_wf m sid slot'.
Proof.
  intros Hq Ha [H1 H2 H3 H4]. split.
  - intros p. by rewrite Hq.
  - intros p id. by rewrite Hq.
  - intros id i. rewrite Ha. apply H3.
  - intros a. rewrite Ha. apply H4.
Qed.

(** ** Restating intents *)

(** [m'] is [m] with the state of each of [ids] replaced by [g] of it. *)
Definition marked (ids : list string) (g : WorkIntent -> WorkIntentState.t)
    (m m' : gmap string WorkIntent) : Prop :=
  forall id, m' !! id =
    (fun i => if bool_decide (id ∈ ids) then set_intent_state (g i) i else i) <$> (m !! id).

Lemma marked_in ids g m m' id i :
  marked ids g m m' -> id ∈ ids -> m !! id = Some i -> m' !! id = Some (set_intent_state (g i) i).
Proof. intros Hm Hid Hl. rewrite Hm, Hl. simpl. by rewrite bool_decide_eq_true_2. Qed.

Lemma marked_out ids g m m' id : marked ids g m m' -> id ∉ ids -> m' !! id = m !! id.
Proof. intros Hm Hid. rewrite Hm. destruct (m !! id); simpl; [|done]. by rewrite bool_decide_eq_false_2. Qed.

Lemma marked_some ids g m m' id i' :
  marked ids g m m' -> m' !! id = Some i' -> exists i, m !! id = Some i /\
    ((id ∈ ids /\ i' = set_intent_state (g i) i) \/ (~ (id ∈ ids) /\ i' = i)).
Proof.
  intros Hm. rewrite Hm. destruct (m !! id) as [i|]; simpl; [|done].
  case_bool_decide; intros [= <-]; eauto.
Qed.

Lemma marked_msg ids g m m' id : marked ids g m m' -> msg_in m' id = msg_in m id.
Proof. intros Hm. unfold msg_in. rewrite Hm. destruct (m !! id); simpl; [|done]. by case_bool_decide. Qed.

Lemma marked_run ids g m m' id : marked ids g m m' -> run_in m' id = run_in m id.
Proof. intros Hm. unfold run_in. rewrite Hm. destruct (m !! id); simpl; [|done]. by case_bool_decide. Qed.

Lemma mark_all_marked ids st s :
  marked ids (fun _ => st) (intents s) (intents (mark_all ids st s)).
Proof. intros id. apply mark_all_lookup. Qed.

(** [ids] name intents of slot [sid]. *)
Definition of_slot (m : gmap string WorkIntent) (sid : string) (ids : list string) : Prop :=
  forall id, id ∈ ids -> exists i, m !! id = Some i /\ intent_slot_id i = sid.

Lemma marked_agree ids g m m' sid k :
  marked ids g m m' -> of_slot m sid ids -> k <> sid -> agree_on k m m'.
Proof.
  intros Hm Hof Hk id i Hsl. destruct (decide (id ∈ ids)) as [Hid|Hid].
  - destruct (Hof id Hid) as (i0 & Hl & Hs0). rewrite (marked_in _ _ _ _ _ _ Hm Hid Hl), Hl.
    split; intros [= <-]; simpl in *; congruence.
  - by rewrite (marked_out _ _ _ _ _ Hm Hid).
Qed.

(** Two lists of ids with an injection of lookups: the queue statement for
    a restated map. *)
Lemma marked_queued ids g m m' sid p id :
  marked ids g m m' ->
  queued_at m' sid p id <->
  (~ (id ∈ ids) /\ queued_at m sid p id) \/
  (id ∈ ids /\ exists i, m !! id = Some i /\ g i = WorkIntentState.Queued /\
     intent_slot_id i = sid /\ intent_priority i = p).
Proof.
  intros Hm. unfold queued_at. split.
  - intros (i' & Hl & Hst & Hsl & Hp).
    destruct (marked_some _ _ _ _ _ _ Hm Hl) as (i & Hi & [[Hid ->]|[Hid ->]]); [right|left]; eauto 10.
  - intros [[Hid (i & Hl & H)]|[Hid (i & Hl & H)]].
    + exists i. by rewrite (marked_out _ _ _ _ _ Hm Hid).
    + exists (set_intent_state (g i) i). by rewrite (marked_in _ _ _ _ _ _ Hm Hid Hl).
Qed.

Lemma elem_of_filter_bool {A} (p : A -> bool) l x : x ∈ List.filter p l <-> x ∈ l /\ p x = true.
Proof. by rewrite !list_elem_of_In, filter_In. Qed.

Lemma NoDup_filter_bool {A} (p : A -> bool) l : NoDup l -> NoDup (List.filter p l).
Proof.
  induction 1 as [|x l Hx _ IH]; simpl; [constructor|]. destruct (p x); [|done].
  constructor; [|done]. by intros [? _]%elem_of_filter_bool.
Qed.

Lemma not_in_true ids id : not_in ids id = true <-> id ∉ ids.
Proof. unfold not_in. by rewrite negb_true_iff, bool_decide_eq_false. Qed.

Definition requeues (g : WorkIntent -> WorkIntentState.t) (m : gmap string WorkIntent)
    (p : WorkPriority.t) (id : string) : bool :=
  match m !! id with
  | Some i => bool_decide (g i = WorkIntentState.Queued) && bool_decide (intent_priority i = p)
  | None => false
  end.

Lemma requeues_true g m p id :
  requeues g m p id = true <->
  exists i, m !! id = Some i /\ g i = WorkIntentState.Queued /\ intent_priority i = p.
Proof.
  unfold requeues. destruct (m !! id) as [i|].
  - rewrite andb_true_iff, !bool_decide_eq_true. split; [intros [? ?]; eauto|].
    by intros (i' & [= <-] & ? & ?).
  - split; [done|]. by intros (? & ? & _).
Qed.

Definition not_flight (st : WorkIntentState.t) : Prop :=
  match st with
  | WorkIntentState.Starting _ _ | WorkIntentState.Running _ _ _ => False
  | _ => True
  end.

(** ** A slot after its active batch is settled *)
Lemma settle_active_wf m m' sid slot slot' a g :
  slot_wf m sid slot -> active slot = Some a ->
  marked (intent_ids (batch a)) g m m' -> (forall i, not_flight (g i)) ->
  active slot' = None ->
  (forall p, queue slot' p = List.filter (requeues g m p) (intent_ids (batch a)) ++ queue slot p) ->
  slot_wf m' sid slot'.
Proof.
  intros [H1 H2 H3 H4] Ha Hm Hg Ha' Hq. destruct (H4 a Ha) as [_ _ _ Hnd _ _ Hint].
  assert (Hout : forall p id, id ∈ queue slot p -> id ∉ intent_ids (batch a)).
  { intros p id (i & Hl & Hst & _)%H2 (i' & Hl' & Hst' & _)%Hint. unfold flight_state in Hst'.
    destruct (turn_id a); congruence. }
  split.
  - intros p. rewrite Hq. apply list.NoDup_app. split; [by apply NoDup_filter_bool|]. split; [|done].
    intros id [Hid _]%elem_of_filter_bool Hin. by eapply Hout.
  - intros p id. rewrite Hq, elem_of_app, elem_of_filter_bool, requeues_true, (marked_queued _ _ _ _ _ _ _ Hm), H2.
    split.
    + intros [[Hid (i & Hl & Hgi & Hp)]|Hqd].
      * right. split; [done|]. exists i. destruct (Hint id Hid) as (i' & Hl' & _ & Hsl & _). rewrite Hl in Hl'. by injection Hl' as <-.
      * left. split; [|done]. apply (Hout p). by apply H2.
    + intros [[_ Hqd]|[Hid (i & Hl & Hgi & _ & Hp)]]; [by right|left]. eauto.
  - intros id i' Hl' Hsl Hfl. exfalso.
    destruct (marked_some _ _ _ _ _ _ Hm Hl') as (i & Hi & [[Hid ->]|[Hid ->]]).
    + unfold in_flight in Hfl. simpl in Hfl. specialize (Hg i). by destruct (g i).
    + destruct (H3 id i Hi Hsl Hfl) as (a' & Ha2 & Hin). congruence.
  - intros a0. by rewrite Ha'.
Qed.

(** ** A slot after some of its queued intents are dropped *)
Lemma drop_queued_wf m m' sid slot slot' ids g :
  slot_wf m sid slot -> marked ids g m m' ->
  (forall id, id ∈ ids -> exists i, m !! id = Some i /\ intent_state i = WorkIntentState.Queued) ->
  (forall i, WorkIntentState.is_terminal (g i) = true) ->
  active slot' = active slot ->
  (forall p, queue slot' p = List.filter (not_in ids) (queue slot p)) ->
  slot_wf m' sid slot'.
Proof.
  intros [H1 H2 H3 H4] Hm Hids Hg Ha' Hq. split.
  - intros p. rewrite Hq. by apply NoDup_filter_bool.
  - intros p id. rewrite Hq, elem_of_filter_bool, not_in_true, (marked_queued _ _ _ _ _ _ _ Hm), H2.
    split; [by intros [? ?]; left|]. intros [[? ?]|[Hid (i & _ & Hgi & _)]]; [done|].
    specialize (Hg i). by rewrite Hgi in Hg.
  - intros id i' Hl' Hsl Hfl. rewrite Ha'.
    destruct (marked_some _ _ _ _ _ _ Hm Hl') as (i & Hi & [[Hid ->]|[Hid ->]]); [|by eapply H3].
    unfold in_flight in Hfl. simpl in Hfl. specialize (Hg i). by destruct (g i).
  - intros a. rewrite Ha'. intros Ha. destruct (H4 a Ha) as [B1 B2 B3 B4 B5 B6 B7].
    assert (Hin : forall id, id ∈ intent_ids (batch a) -> m' !! id = m !! id).
    { intros id (i & Hl & Hst & _)%B7. apply (marked_out _ _ _ _ _ Hm).
      intros (i0 & Hl0 & Hst0)%Hids. unfold flight_state in Hst. destruct (turn_id a); congruence. }
    split; try done.
    + rewrite B5. apply omap_ext_in. intros id Hid. symmetry. by apply (marked_msg _ _ _ _ _ Hm).
    + rewrite B6. f_equal. apply omap_ext_in. intros id Hid. symmetry. by apply (marked_run _ _ _ _ _ Hm).
    + intros id Hid. rewrite (Hin id Hid). by apply B7.
Qed.

(** ** A slot whose live intents are all settled *)
Lemma rebuild_wf m m' sid slot slot' ids g :
  slot_wf m sid slot -> marked ids g m m' -> of_slot m sid ids ->
  (forall p, NoDup (queue slot' p)) ->
  (forall id i, m !! id = Some i -> intent_slot_id i = sid ->
     WorkIntentState.is_terminal (intent_state i) = false -> id ∈ ids) ->
  (forall i, not_flight (g i)) ->
  active slot' = None ->
  (forall p, queue slot' p = List.filter (requeues g m p) ids) ->
  slot_wf m' sid slot'.
Proof.
  intros _ Hm Hof Hnd Hall Hg Ha' Hq. split.
  - done.
  - intros p id. rewrite Hq, elem_of_filter_bool, requeues_true, (marked_queued _ _ _ _ _ _ _ Hm). split.
    + intros [Hid (i & Hl & Hgi & Hp)]. right. split; [done|]. exists i.
      destruct (Hof id Hid) as (i' & Hl' & Hsl). rewrite Hl in Hl'. by injection Hl' as <-.
    + intros [[Hid (i & Hl & Hst & Hsl & _)]|[Hid (i & Hl & Hgi & _ & Hp)]]; [|by eauto].
      exfalso. apply Hid. apply (Hall id i Hl Hsl). by rewrite Hst.
  - intros id i' Hl' Hsl Hfl. exfalso.
    destruct (marked_some _ _ _ _ _ _ Hm Hl') as (i & Hi & [[Hid ->]|[Hid ->]]).
    + unfold in_flight in Hfl. simpl in Hfl. specialize (Hg i). by destruct (g i).
    + apply Hid. apply (Hall id i Hi Hsl). unfold in_flight in Hfl. by destruct (intent_state i).
  - intros a. by rewrite Ha'.
Qed.

(** ** A slot after a claim *)
Lemma claim_wf m m' sid slot slot' p ids a :
  slot_wf m sid slot -> active slot = None ->
  ids <> [] -> NoDup ids ->
  (forall id, id ∈ ids -> id ∈ queue slot p /\ is_Some (msg_in m id)) ->
  marked ids (fun _ => flight_state a) m m' ->
  turn_id a = None ->
  batch_slot_id (batch a) = sid -> batch_generation (batch a) = gen ->
  intent_ids (batch a) = ids -> highest_priority (batch a) = p ->
  mailbox_message_ids (batch a) = omap (msg_in m) ids ->
  team_run_ids (batch a) = run_list push_new [] (omap (run_in m) ids) ->
  active slot' = Some a ->
  (forall p', queue slot' p' = List.filter (not_in ids) (queue slot p')) ->
  slot_wf m' sid slot'.
Proof.
  intros [H1 H2 H3 H4] Hact Hne Hnd Hids Hm Hturn Hb1 Hb2 Hb3 Hb4 Hb5 Hb6 Hact' Hq.
  assert (Hfl : flight_state a <> WorkIntentState.Queued).
  { unfold flight_state. by rewrite Hturn. }
  split.
  - intros p'. rewrite Hq. by apply NoDup_filter_bool.
  - intros p' id. rewrite Hq, elem_of_filter_bool, not_in_true, (marked_queued _ _ _ _ _ _ _ Hm), H2.
    split; [by intros [? ?]; left|]. by intros [[? ?]|[Hid (i & _ & Hgi & _)]].
  - intros id i' Hl' Hsl Hflight. exists a. split; [done|]. rewrite Hb3.
    destruct (marked_some _ _ _ _ _ _ Hm Hl') as (i & Hi & [[Hid ->]|[Hid ->]]); [done|].
    destruct (H3 id i Hi Hsl Hflight) as (a' & Ha' & _). congruence.
  - intros a0. rewrite Hact'. intros [= <-]. split; try done; try congruence.
    + rewrite Hb3, Hb5. apply omap_ext_in. intros id Hid. symmetry. by apply (marked_msg _ _ _ _ _ Hm).
    + rewrite Hb3, Hb6. f_equal. apply omap_ext_in. intros id Hid. symmetry. by apply (marked_run _ _ _ _ _ Hm).
    + rewrite Hb3, Hb4. intros id Hid. destruct (Hids id Hid) as [(i & Hl & Hst & Hsl & Hp)%H2 Hmsg].
      exists (set_intent_state (flight_state a) i). rewrite (marked_in _ _ _ _ _ _ Hm Hid Hl).
      unfold msg_in in Hmsg. rewrite Hl in Hmsg. done.
Qed.

(** ** A slot after its batch has started *)
Lemma start_wf m m' sid slot slot' a t now :
  slot_wf m sid slot -> active slot = Some a ->
  marked (intent_ids (batch a)) (fun _ => flight_state (mkActiveBatch (batch a) (Some t) now)) m m' ->
  active slot' = Some (mkActiveBatch (batch a) (Some t) now) ->
  (forall p, queue slot' p = queue slot p) ->
  slot_wf m' sid slot'.
Proof.
  intros [H1 H2 H3 H4] Ha Hm Ha' Hq. destruct (H4 a Ha) as [B1 B2 B3 B4 B5 B6 B7]. split.
  - intros p. by rewrite Hq.
  - intros p id. rewrite Hq, (marked_queued _ _ _ _ _ _ _ Hm), H2. split.
    + intros Hqd. left. split; [|done]. intros (i & Hl & Hst & _)%B7.
      destruct Hqd as (i' & Hl' & Hst' & _). unfold flight_state in Hst. destruct (turn_id a); congruence.
    + by intros [[_ ?]|[_ (i & _ & Hgi & _)]].
  - intros id i' Hl' Hsl Hflight. eexists. split; [done|]. simpl.
    destruct (marked_some _ _ _ _ _ _ Hm Hl') as (i & Hi & [[Hid ->]|[Hid ->]]); [done|].
    destruct (H3 id i Hi Hsl Hflight) as (a' & Ha2 & Hin). congruence.
  - intros a0. rewrite Ha'. intros [= <-]. split; simpl; try done.
    + rewrite B5. apply omap_ext_in. intros id Hid. symmetry. by apply (marked_msg _ _ _ _ _ Hm).
    + rewrite B6. f_equal. apply omap_ext_in. intros id Hid. symmetry. by apply (marked_run _ _ _ _ _ Hm).
    + intros id Hid. destruct (B7 id Hid) as (i & Hl & Hst & Hsl & Hp & Hmsg).
      eexists. rewrite (marked_in _ _ _ _ _ _ Hm Hid Hl). done.
Qed.

(** ** A slot after a new intent is queued *)
Lemma insert_wf m sid slot slot' i :
  slot_wf m sid slot -> m !! intent_id i = None ->
  intent_slot_id i = sid -> intent_state i = WorkIntentState.Queued ->
  active slot' = active slot ->
  (forall p, queue slot' p =
     if decide (p = intent_priority i) then queue slot p ++ [intent_id i] else queue slot p) ->
  slot_wf (<[intent_id i := i]> m) sid slot'.
Proof.
  intros [H1 H2 H3 H4] Hnew Hsl Hst Ha' Hq.
  assert (Hold : forall id x, m !! id = Some x -> <[intent_id i := i]> m !! id = Some x).
  { intros id x Hl. rewrite lookup_insert_ne; [done|]. congruence. }
  assert (Hn : forall p, intent_id i ∉ queue slot p).
  { intros p (x & Hl & _)%H2. congruence. }
  split.
  - intros p. rewrite Hq. destruct (decide _); [|done]. apply list.NoDup_app.
    split; [done|]. split; [|apply NoDup_singleton]. intros id Hid ->%list_elem_of_singleton. by eapply Hn.
  - intros p id. transitivity (queued_at m sid p id \/ (id = intent_id i /\ p = intent_priority i)).
    + rewrite Hq. destruct (decide _) as [->|Hne]; [rewrite elem_of_app, list_elem_of_singleton|]; rewrite H2; tauto.
    + split.
      * intros [(x & Hl & H)|[-> ->]]; [exists x; by rewrite (Hold id x Hl)|].
        exists i. by rewrite lookup_insert_eq.
      * intros (x & Hl & H). destruct (decide (id = intent_id i)) as [->|Hne].
        -- rewrite lookup_insert_eq in Hl. injection Hl as <-. right. split; [done|]. symmetry. apply H.
        -- left. exists x. by rewrite lookup_insert_ne in Hl.
  - intros id x Hl Hx Hfl. rewrite Ha'. destruct (decide (id = intent_id i)) as [->|Hne].
    + rewrite lookup_insert_eq in Hl. injection Hl as <-. unfold in_flight in Hfl. by rewrite Hst in Hfl.
    + rewrite lookup_insert_ne in Hl by done. by eapply H3.
  - intros a. rewrite Ha'. intros Ha. destruct (H4 a Ha) as [B1 B2 B3 B4 B5 B6 B7].
    assert (Hin : forall id, id ∈ intent_ids (batch a) -> <[intent_id i := i]> m !! id = m !! id).
    { intros id (x & Hl & _)%B7. by rewrite Hl, (Hold id x Hl). }
    split; try done.
    + rewrite B5. apply omap_ext_in. intros id Hid. unfold msg_in. by rewrite Hin.
    + rewrite B6. f_equal. apply omap_ext_in. intros id Hid. unfold run_in. by rewrite Hin.
    + intros id Hid. rewrite Hin by done. by apply B7.
Qed.

(** ** From one slot to the state *)

(** [m'] differs from [m] only on intents of slot [sid]. *)
Definition touched (sid : string) (m m' : gmap string WorkIntent) : Prop :=
  forall id, m' !! id = m !! id \/
    exists i', m' !! id = Some i' /\ intent_id i' = id /\ intent_generation i' = gen /\
      intent_slot_id i' = sid /\ forall i, m !! id = Some i -> intent_slot_id i = sid.

Lemma touched_agree sid m m' k : touched sid m m' -> k <> sid -> agree_on k m m'.
Proof.
  intros Ht Hk id i Hsl. destruct (Ht id) as [->|(i' & Hl' & _ & _ & Hs' & Hold)]; [done|]. split.
  - intros Hl. specialize (Hold i Hl). congruence.
  - intros Hl. rewrite Hl' in Hl. injection Hl as <-. congruence.
Qed.

Lemma marked_touched sid ids g m m' :
  (forall id i, m !! id = Some i -> intent_id i = id /\ intent_generation i = gen) ->
  marked ids g m m' -> of_slot m sid ids -> touched sid m m'.
Proof.
  intros Hk Hm Hof id. destruct (decide (id ∈ ids)) as [Hid|Hid].
  - right. destruct (Hof id Hid) as (i & Hl & Hsl). exists (set_intent_state (g i) i).
    rewrite (marked_in _ _ _ _ _ _ Hm Hid Hl). destruct (Hk id i Hl). repeat split; try done.
    intros i0 Hl0. congruence.
  - left. by apply (marked_out _ _ _ _ _ Hm).
Qed.

Lemma wf_local s s' sid slot' :
  wf s -> touched sid (intents s) (intents s') ->
  slots s' = <[sid := slot']> (slots s) ->
  slot_wf (intents s') sid slot' ->
  (forall k rec, enqueue_leases s' !! k = Some rec -> enqueue_leases s !! k = Some rec) ->
  wf s'.
Proof.
  intros [H1 H2 H3 H4] Ht Hs' Hslot Hle.
  assert (Hsome : forall k, is_Some (slots s !! k) -> is_Some (slots s' !! k)).
  { intros k Hk. rewrite Hs'. destruct (decide (k = sid)) as [->|Hne].
    - rewrite lookup_insert_eq. by eexists.
    - by rewrite lookup_insert_ne. }
  split.
  - intros id i Hl. destruct (Ht id) as [Heq|(i' & Hl' & Hid & Hg & _)].
    + rewrite Heq in Hl. by apply H1.
    + rewrite Hl in Hl'. by injection Hl' as <-.
  - intros id i Hl. destruct (Ht id) as [Heq|(i' & Hl' & _ & _ & Hsl & _)].
    + rewrite Heq in Hl. by eapply Hsome, H2.
    + rewrite Hl in Hl'. injection Hl' as <-. rewrite Hsl, Hs', lookup_insert_eq. by eexists.
  - intros k slot. rewrite Hs'. destruct (decide (k = sid)) as [->|Hne].
    + rewrite lookup_insert_eq. by intros [= <-].
    + rewrite lookup_insert_ne by done. intros Hk.
      apply (slot_wf_agree k (intents s)); [by eapply touched_agree|by apply H3].
  - intros k rec Hk%Hle. destruct (H4 k rec Hk) as (? & ? & ?). auto.
Qed.

(** The same, when the slot was there. *)
Lemma on_slot_insert sid f s slot :
  slots s !! sid = Some slot -> slots (on_slot sid f s) = <[sid := f slot]> (slots s).
Proof.
  intros Hl. apply map_eq. intros k. rewrite on_slot_lookup. case_bool_decide as H.
  - subst k. by rewrite Hl, lookup_insert_eq.
  - by rewrite lookup_insert_ne.
Qed.
End Invariant.
