(* ===== verification/WorkPreserve.v ===== *)
(** * The methods of the work coordinator preserve its well-formedness

    One lemma per method of [WorkCoordinator], from the slot lemmas of
    [WorkInvariant]; the closed forms of the loops are proved here too and are
    reused by [WorkTheorems]. *)

From S2P Require Import Prelude WorkModel WorkCoordinator WorkInvariant.

Section Preserve.
Context (gen : string).

#[local] Abbreviation wf := (wf gen).
#[local] Abbreviation slot_wf := (slot_wf gen).

(** ** Slots are created empty *)

Lemma entry_slot_spec sid r s slot s' :
  wf s -> entry_slot sid r s = (slot, s') ->
  wf s' /\ slots s' = <[sid := slot]> (slots s) /\ slots s' !! sid = Some slot /\
  intents s' = intents s /\ enqueue_leases s' = enqueue_leases s /\
  next_operation_id s' = next_operation_id s.
Proof.
  intros Hwf. unfold entry_slot. destruct (slots s !! sid) as [slot0|] eqn:Hl; intros [= <- <-].
  - split; [done|]. by rewrite insert_id.
  - split; [|simpl; by rewrite lookup_insert_eq].
    assert (Hnone : forall id i, intents s !! id = Some i -> intent_slot_id i <> sid).
    { intros id i Hi Hs. destruct (wf_home _ _ Hwf id i Hi). congruence. }
    apply (wf_local gen s _ sid (SlotState_new r)); try done; [by left|].
    split.
    + intros p. destruct p; constructor.
    + intros p id. split; [by destruct p; intros ?%elem_of_nil|].
      by intros (i & Hi & _ & Hs & _)%(fun H => H); apply Hnone in Hi.
    + intros id i Hi Hs. by apply Hnone in Hi.
    + done.
Qed.

Lemma wf_on_slot_same sid f s :
  wf s -> (forall slot p, queue (f slot) p = queue slot p) ->
  (forall slot, active (f slot) = active slot) -> wf (on_slot sid f s).
Proof.
  intros Hwf Hq Ha. destruct (slots s !! sid) as [slot|] eqn:Hl.
  - apply (wf_local gen s _ sid (f slot)); try done; [by left|by apply on_slot_insert|].
    apply (slot_wf_same gen _ _ slot); try done. by apply (wf_slots _ _ Hwf).
  - replace (on_slot sid f s) with s; [done|]. unfold on_slot. destruct s as [sl m l n]. simpl in *.
    unfold set_slots. simpl. f_equal. symmetry. apply map_eq. intros k.
    destruct (decide (k = sid)) as [->|Hne]; [by rewrite lookup_alter_eq, Hl|by rewrite lookup_alter_ne].
Qed.

Lemma wf_set_leases m s :
  wf s ->
  (forall k rec, m !! k = Some rec -> lease_id (lease rec) = k /\ lease_generation (lease rec) = gen /\
     is_Some (slots s !! lease_slot_id (lease rec))) ->
  wf (set_leases m s).
Proof. intros [H1 H2 H3 H4] Hm. by split. Qed.

Lemma wf_delete_lease k s : wf s -> wf (set_leases (delete k (enqueue_leases s)) s).
Proof.
  intros Hwf. apply wf_set_leases; [done|]. intros k' rec [_ Hk]%lookup_delete_Some.
  by apply (wf_leases _ _ Hwf).
Qed.

Lemma acquire_wf {R} `{RunCausalityPort R} request run_id lid s r :
  wf s -> wf (snd (fst (acquire_enqueue gen request run_id lid s r))).
Proof.
  intros Hwf. unfold acquire_enqueue.
  destruct (entry_slot (req_slot_id request) (req_role request) s) as [slot s1] eqn:He.
  destruct (entry_slot_spec _ _ _ _ _ Hwf He) as (Hwf1 & _ & Hl & _).
  set (sid := req_slot_id request) in *. set (slot' := set_role (req_role request) slot).
  set (s2 := on_slot sid (fun _ => slot') s1).
  assert (Hl2 : slots s2 !! sid = Some slot').
  { unfold s2. rewrite on_slot_lookup, bool_decide_eq_true_2, Hl by done. done. }
  assert (Hwf2 : wf s2).
  { apply (wf_local gen s1 _ sid slot'); try done; [by left| |].
    - unfold s2. by rewrite (on_slot_insert sid (fun _ => slot') s1 slot).
    - apply (slot_wf_same gen _ _ slot); try done. by apply (wf_slots _ _ Hwf1). }
  destruct (validate_enqueue_constraint sid slot'); [|done].
  match goal with |- context [let '(_, _) := ?x in _] => destruct x as [bound r'] end. simpl.
  apply wf_set_leases; [done|]. intros k rec Hk.
  destruct (decide (k = lid)) as [->|Hne].
  - rewrite lookup_insert_eq in Hk. injection Hk as <-.
    split; [done|]. split; [done|]. eexists. exact Hl2.
  - rewrite lookup_insert_ne in Hk by done. by apply (wf_leases _ _ Hwf2).
Qed.

Lemma commit_state_wf l msg new now s slot :
  wf s -> intents s !! new = None -> slots s !! lease_slot_id l = Some slot ->
  wf (commit_state gen l msg new now s).
Proof.
  intros Hwf Hnew Hl. unfold commit_state.
  set (s1 := set_leases _ s). set (i := commit_intent gen l msg new now).
  set (f := fun slot => queue_mut _ _ _).
  apply (wf_local gen s1 _ (lease_slot_id l) (f slot)).
  - by apply wf_delete_lease.
  - intros id. simpl. destruct (decide (id = new)) as [->|Hne].
    + right. exists i. rewrite lookup_insert_eq. repeat split; try done. intros i0. by rewrite Hnew.
    + left. by rewrite lookup_insert_ne.
  - exact (on_slot_insert _ f (set_intents (<[new := i]> (intents s1)) s1) slot Hl).
  - apply (insert_wf gen (intents s) (lease_slot_id l) slot (f slot) i); try done.
    + by apply (wf_slots _ _ Hwf).
    + unfold f. rewrite queue_mut_active. by destruct msg, (WorkSource.resumes_paused_slot _).
    + intros p. unfold f. rewrite queue_mut_queue. simpl.
      assert (forall sl p, queue (match msg with Some m => set_known ({[m]} ∪ known_unread_message_ids sl) sl
        | None => sl end) p = queue sl p) as Hk by (by destruct msg, p0).
      rewrite !Hk. destruct (WorkSource.resumes_paused_slot _); [|done].
      assert (queue (set_paused false slot) p = queue slot p) as -> by (by destruct p). done.
  - done.
Qed.

Lemma commit_wf l msg new now s :
  wf s -> intents s !! new = None -> wf (snd (fst (commit_enqueue gen l msg new now s))).
Proof.
  intros Hwf Hnew. unfold commit_enqueue.
  destruct (enqueue_leases s !! lease_id l) as [rec|]; simpl; [|done].
  destruct (_ || _); simpl; [done|]. destruct (_ && _); simpl; [done|].
  destruct (slots s !! lease_slot_id l) as [slot|] eqn:Hl; simpl; [|done].
  destruct (validate_enqueue_constraint _ _); simpl; [|done].
  destruct (slot_snapshot_locked _ _); simpl; by eapply commit_state_wf.
Qed.

Lemma abort_wf l s : wf s -> wf (snd (fst (abort_enqueue gen l s))).
Proof.
  intros Hwf. unfold abort_enqueue. destruct (enqueue_leases s !! lease_id l) as [rec|] eqn:Hl; [|done].
  pose proof (wf_delete_lease (lease_id l) s Hwf) as Hd.
  destruct (_ || _); simpl; [|done].
  apply wf_set_leases; [done|]. intros k r Hk.
  destruct (wf_leases _ _ Hwf _ _ Hl) as (Hid & Hg & Hs).
  destruct (decide (k = lease_id (lease rec))) as [->|Hne].
  - rewrite lookup_insert_eq in Hk. by injection Hk as <-.
  - rewrite lookup_insert_ne in Hk by done. by apply (wf_leases _ _ Hd).
Qed.

(** ** [reconcile_mailbox] *)

Definition stale (unread : gset string) (m : gmap string WorkIntent) (id : string) : bool :=
  match msg_in m id with Some x => negb (bool_decide (x ∈ unread)) | None => false end.
Definition kept (unread : gset string) (m : gmap string WorkIntent) (id : string) : bool :=
  match m !! id with Some _ => negb (stale unread m id) | None => false end.

Lemma msg_in_on_intent st s id k :
  msg_in (intents (on_intent id (set_intent_state st) s)) k = msg_in (intents s) k.
Proof.
  unfold msg_in. simpl. destruct (decide (id = k)) as [->|Hne].
  - rewrite lookup_alter_eq. by destruct (intents s !! k).
  - by rewrite lookup_alter_ne.
Qed.

Lemma stale_on_intent unread st s id k :
  stale unread (intents (on_intent id (set_intent_state st) s)) k = stale unread (intents s) k.
Proof. unfold stale. by rewrite msg_in_on_intent. Qed.

Lemma kept_on_intent unread st s id k :
  kept unread (intents (on_intent id (set_intent_state st) s)) k = kept unread (intents s) k.
Proof.
  unfold kept, stale. rewrite msg_in_on_intent. simpl. destruct (decide (id = k)) as [->|Hne].
  - rewrite lookup_alter_eq. by destruct (intents s !! k).
  - by rewrite lookup_alter_ne.
Qed.

Lemma filter_ext_in {A} (p q : A -> bool) l :
  (forall x, x ∈ l -> p x = q x) -> List.filter p l = List.filter q l.
Proof.
  induction l as [|x l IH]; intros H; simpl; [done|].
  rewrite (H x) by apply list_elem_of_here.
  rewrite IH by (intros y Hy; apply H; by apply list_elem_of_further). done.
Qed.

Lemma candidates_closed unread s r c ids :
  run_list (reconcile_candidate unread) (s, r, c) ids =
  (mark_all (List.filter (stale unread (intents s)) ids) WorkIntentState.Completed s,
   r ++ List.filter (kept unread (intents s)) ids, c ++ List.filter (stale unread (intents s)) ids).
Proof.
  revert s r c. induction ids as [|id ids IH]; intros s r c; simpl; [by rewrite !app_nil_r|].
  assert (Hst : stale unread (intents s) id = match msg_in (intents s) id with
    | Some x => negb (bool_decide (x ∈ unread)) | None => false end) by done.
  assert (Hke : kept unread (intents s) id = match intents s !! id with
    | Some _ => negb (stale unread (intents s) id) | None => false end) by done.
  rewrite Hke, Hst. unfold msg_in in *. destruct (intents s !! id) as [i|] eqn:Hl; [|by rewrite IH].
  destruct (mailbox_message_id i) as [x|] eqn:Hx; simpl; [|by rewrite IH, <- !app_assoc].
  case_bool_decide; simpl; rewrite IH; simpl; [by rewrite <- !app_assoc|].
  rewrite (filter_ext_in (stale unread (alter _ _ _)) (stale unread (intents s)))
    by (intros k _; apply (stale_on_intent unread WorkIntentState.Completed s id k)).
  rewrite (filter_ext_in (kept unread (alter _ _ _)) (kept unread (intents s)))
    by (intros k _; apply (kept_on_intent unread WorkIntentState.Completed s id k)).
  by rewrite <- !app_assoc.
Qed.

Lemma clear_closed sid unread r s s' retained cleared :
  wf s -> reconcile_clear sid unread r s = (s', retained, cleared) ->
  exists slot slot', wf s' /\ slots s' !! sid = Some slot' /\
    (slots s !! sid = Some slot \/ (slots s !! sid = None /\ slot = SlotState_new r)) /\
    cleared = List.filter (stale (list_to_set unread) (intents s)) (queued_ids slot) /\
    retained = List.filter (kept (list_to_set unread) (intents s)) (queued_ids slot) /\
    marked cleared (fun _ => WorkIntentState.Completed) (intents s) (intents s') /\
    (forall p, queue slot' p = List.filter (not_in cleared) (queue slot p)) /\
    active slot' = active slot /\ slots s' = <[sid := slot']> (slots s) /\
    enqueue_leases s' = enqueue_leases s /\ next_operation_id s' = next_operation_id s.
Proof.
  intros Hwf. unfold reconcile_clear.
  destruct (entry_slot sid r s) as [slot s1] eqn:He.
  destruct (entry_slot_spec _ _ _ _ _ Hwf He) as (Hwf1 & Hs1 & Hl1 & Hi1 & Hle1 & Hn1).
  set (slot1 := set_known (list_to_set unread) (set_role r slot)).
  set (s2 := on_slot sid (fun _ => slot1) s1).
  assert (Hs2 : slots s2 = <[sid := slot1]> (slots s1))
    by exact (on_slot_insert sid (fun _ => slot1) s1 slot Hl1).
  assert (Hsw : slot_wf (intents s1) sid slot1).
  { apply (slot_wf_same gen _ _ slot); try done. by apply (wf_slots _ _ Hwf1). }
  assert (Hwf2 : wf s2).
  { by apply (wf_local gen s1 _ sid slot1); try done; left. }
  rewrite candidates_closed, run_on_slot. simpl.
  rewrite Hi1. set (c := List.filter (stale _ _) _). set (k := List.filter (kept _ _) _).
  intros [= <- <- <-].
  exists slot, (run_list (fun sl id => remove_queued id sl) slot1 c).
  assert (Hslots : slots (on_slot sid (fun slot => run_list (fun sl id => remove_queued id sl) slot c)
      (mark_all c WorkIntentState.Completed s2)) =
      <[sid := run_list (fun sl id => remove_queued id sl) slot1 c]> (slots s)).
  { rewrite (on_slot_insert _ _ _ slot1); rewrite mark_all_slots, Hs2; [|by rewrite lookup_insert_eq].
    rewrite Hs1. apply map_eq. intros j. destruct (decide (j = sid)) as [->|Hne];
      [by rewrite !lookup_insert_eq|by rewrite !lookup_insert_ne]. }
  assert (Hm : marked c (fun _ => WorkIntentState.Completed) (intents s)
    (intents (mark_all c WorkIntentState.Completed s2))).
  { rewrite <- Hi1. apply (mark_all_marked c WorkIntentState.Completed s2). }
  assert (Hq1 : forall p, queue slot1 p = queue slot p) by (by destruct p).
  assert (Hc : forall id, id ∈ c -> exists p, id ∈ queue slot p).
  { intros id [Hid _]%elem_of_filter_bool. unfold queued_ids in Hid. simpl in Hid.
    rewrite !elem_of_app in Hid. destruct Hid as [?|[?|?]];
      [by exists WorkPriority.Foreground|by exists WorkPriority.Control|by exists WorkPriority.Background]. }
  assert (Hqa : forall p id, id ∈ queue slot p -> exists i, intents s !! id = Some i /\
    intent_state i = WorkIntentState.Queued /\ intent_slot_id i = sid).
  { intros p id Hid. rewrite <- Hq1 in Hid. apply (sw_queue _ _ _ _ Hsw) in Hid as (i & Hi & Hst & Hsl & _).
    rewrite Hi1 in Hi. eauto. }
  assert (Hsw' : slot_wf (intents (mark_all c WorkIntentState.Completed s2)) sid
    (run_list (fun sl id => remove_queued id sl) slot1 c)).
  { apply (drop_queued_wf gen (intents s) _ sid slot1 _ c (fun _ => WorkIntentState.Completed)); try done.
    - by rewrite <- Hi1.
    - intros id (p & Hid)%Hc. destruct (Hqa p id Hid) as (i & Hi & Hst & _). eauto.
    - apply run_remove_active.
    - intros p. apply run_remove_queue. }
  split_and!; try done.
  - apply (wf_local gen s _ sid (run_list (fun sl id => remove_queued id sl) slot1 c)); try done.
    + apply (marked_touched gen sid c (fun _ => WorkIntentState.Completed)); [by apply (wf_keys _ _ Hwf)|done|].
      intros id (p & Hid)%Hc. destruct (Hqa p id Hid) as (i & Hi & _ & Hsl). eauto.
    + simpl. rewrite mark_all_leases. simpl. by rewrite Hle1.
  - rewrite Hslots. by rewrite lookup_insert_eq.
  - unfold entry_slot in He. destruct (slots s !! sid) as [x|]; injection He as <- _; auto.
  - intros p. rewrite run_remove_queue. by rewrite Hq1.
  - by rewrite run_remove_active.
  - simpl. rewrite mark_all_leases. simpl. by rewrite Hle1.
  - simpl. rewrite mark_all_next. simpl. by rewrite Hn1.
Qed.

(** The ids [generate_id] yields from here on are new to the state. *)
Definition fresh_ids (fresh : nat -> string) (n : nat) (s : CoordinatorState) : Prop :=
  forall k, n <= k -> intents s !! fresh k = None.

Definition owned (sid x : string) (s : CoordinatorState) : bool :=
  existsb (owns_message sid x) (map_values (intents s)).

Lemma owned_true sid x s :
  owned sid x s = true <->
  exists id i, intents s !! id = Some i /\ intent_slot_id i = sid /\
    mailbox_message_id i = Some x /\ WorkIntentState.is_terminal (intent_state i) = false.
Proof.
  unfold owned. rewrite existsb_exists. split.
  - intros (i & [id Hl]%list_elem_of_In%elem_of_map_values & Ho). exists id, i.
    unfold owns_message in Ho. rewrite !andb_true_iff, !bool_decide_eq_true, negb_true_iff in Ho. tauto.
  - intros (id & i & Hl & Hs & Hm & Ht). exists i. split.
    + apply list_elem_of_In, elem_of_map_values. by exists id.
    + unfold owns_message. by rewrite Ht, !bool_decide_eq_true_2.
Qed.

Lemma filter_const {A} (b : bool) (l : list A) :
  List.filter (fun _ => b) l = if b then l else [].
Proof. induction l as [|x l IH]; simpl; destruct b; by rewrite ?IH. Qed.

(** One unread message: what the step adds. *)
Lemma unread_step sid r fresh now s created x slot :
  wf s -> slots s !! sid = Some slot -> Inj eq eq fresh -> fresh_ids fresh (length created) s ->
  exists s' created', reconcile_unread gen sid r fresh now (s, created) x = (s', created') /\
    wf s' /\ (exists slot', slots s' !! sid = Some slot' /\ active slot' = active slot) /\
    fresh_ids fresh (length created') s' /\
    owned sid x s' = true /\ (forall y, owned sid y s = true -> owned sid y s' = true) /\
    (forall id i, intents s !! id = Some i -> intents s' !! id = Some i) /\
    (owned sid x s = true -> s' = s /\ created' = created) /\
    (owned sid x s = false -> created' = created ++ [fresh (length created)] /\
       intents s' = <[fresh (length created) :=
         recovery_intent gen sid r x (fresh (length created)) now]> (intents s)).
Proof.
  intros Hwf Hl Hinj Hf. unfold reconcile_unread. fold (owned sid x s).
  destruct (owned sid x s) eqn:Ho.
  { exists s, created. split_and!; try done. by exists slot. }
  set (new := fresh (length created)). set (i := recovery_intent gen sid r x new now).
  set (s1 := set_intents (<[new := i]> (intents s)) s).
  set (f := queue_mut WorkPriority.Background (fun q => q ++ [new])).
  exists (on_slot sid f s1), (created ++ [new]).
  assert (Hnew : intents s !! new = None) by (apply Hf; lia).
  assert (Hkeep : forall id j, intents s !! id = Some j -> intents (on_slot sid f s1) !! id = Some j).
  { intros id j Hj. simpl. rewrite lookup_insert_ne; [done|]. congruence. }
  split_and!; try done.
  - apply (wf_local gen s _ sid (f slot)); try done.
    + intros id. simpl. destruct (decide (id = new)) as [->|Hne].
      * right. exists i. rewrite lookup_insert_eq. split_and!; try done. intros j. by rewrite Hnew.
      * left. by rewrite lookup_insert_ne.
    + exact (on_slot_insert sid f s1 slot Hl).
    + apply (insert_wf gen (intents s) sid slot (f slot) i); try done.
      * by apply (wf_slots _ _ Hwf).
      * intros p. unfold f. by rewrite queue_mut_queue.
  - exists (f slot). split; [|done]. rewrite on_slot_lookup, bool_decide_eq_true_2 by done.
    simpl. by rewrite Hl.
  - intros k Hk. rewrite length_app in Hk. simpl in *. rewrite lookup_insert_ne; [apply Hf; lia|].
    intros Heq%Hinj. lia.
  - apply owned_true. exists new, i. simpl. by rewrite lookup_insert_eq.
  - intros y (id & j & Hj & H)%owned_true. apply owned_true. exists id, j. by rewrite (Hkeep id j Hj).
Qed.

Lemma unread_loop sid r fresh now s created l slot :
  wf s -> slots s !! sid = Some slot -> Inj eq eq fresh -> fresh_ids fresh (length created) s ->
  exists s' created', run_list (reconcile_unread gen sid r fresh now) (s, created) l = (s', created') /\
    wf s' /\ (exists slot', slots s' !! sid = Some slot' /\ active slot' = active slot) /\
    (forall y, y ∈ l -> owned sid y s' = true) /\
    (forall y, owned sid y s = true -> owned sid y s' = true) /\
    (forall id i, intents s !! id = Some i -> intents s' !! id = Some i) /\
    ((forall y, y ∈ l -> owned sid y s = true) -> s' = s /\ created' = created) /\
    (forall id i, intents s' !! id = Some i -> intents s !! id = Some i \/
       exists y, y ∈ l /\ owned sid y s = false /\ i = recovery_intent gen sid r y id now).
Proof.
  intros Hwf Hl Hinj Hf. revert s created slot Hwf Hl Hf.
  induction l as [|x l IH]; intros s created slot Hwf Hl Hf.
  { exists s, created. split_and!; try done; [by exists slot|by intros y ?%elem_of_nil|by left]. }
  destruct (unread_step sid r fresh now s created x slot Hwf Hl Hinj Hf)
    as (s1 & c1 & Hst & Hwf1 & (slot1 & Hl1 & Ha1) & Hf1 & Hox & Hmono & Hkeep & Hsame & Hnew).
  rewrite run_list_cons, Hst.
  destruct (IH s1 c1 slot1 Hwf1 Hl1 Hf1)
    as (s2 & c2 & Hrun & Hwf2 & (slot2 & Hl2 & Ha2) & Hall & Hmono2 & Hkeep2 & Hsame2 & Hback).
  exists s2, c2. split_and!; try done.
  - exists slot2. split; [done|congruence].
  - intros y [->|Hy]%elem_of_cons; auto.
  - auto.
  - auto.
  - intros Hown. destruct (Hsame (Hown x (list_elem_of_here _ _))) as [-> ->].
    apply Hsame2. intros y Hy. apply Hown. by apply list_elem_of_further.
  - intros id i [Hi|(y & Hy & Hoy & ->)]%Hback.
    + destruct (owned sid x s) eqn:Hos; [destruct (Hsame eq_refl) as [-> _]; by left|].
      destruct (Hnew eq_refl) as [_ Heq]. rewrite Heq in Hi.
      destruct (decide (id = fresh (length created))) as [->|Hne].
      * rewrite lookup_insert_eq in Hi. injection Hi as <-. right. exists x.
        split; [apply list_elem_of_here|done].
      * rewrite lookup_insert_ne in Hi by done. by left.
    + right. exists y. split; [by apply list_elem_of_further|]. split; [|done].
      apply not_true_iff_false. intros ?%Hmono. congruence.
Qed.

Lemma reconcile_wf sid unread r fresh now s :
  wf s -> Inj eq eq fresh -> fresh_ids fresh 0 s ->
  wf (snd (reconcile_mailbox gen sid unread r fresh now s)).
Proof.
  intros Hwf Hinj Hf. unfold reconcile_mailbox.
  destruct (reconcile_clear sid unread r s) as [[s1 retained] cleared] eqn:Hc.
  destruct (clear_closed _ _ _ _ _ _ _ Hwf Hc) as (slot & slot' & Hwf1 & Hl1 & _ & _ & _ & Hm & _).
  destruct (unread_loop sid r fresh now s1 [] unread slot' Hwf1 Hl1 Hinj)
    as (s2 & c2 & -> & Hwf2 & _); [|done].
  intros k Hk. rewrite Hm. by rewrite (Hf k Hk).
Qed.

(** ** [next] *)

(** What a claim does: the guards it passed and the state it leaves. *)
Record claim (sid new : string) (s : CoordinatorState) (b : WorkBatch) (s' : CoordinatorState)
    (slot slot' : SlotState) : Prop := {
  cl_slot : slots s !! sid = Some slot;
  cl_idle : active slot = None;
  cl_ready : runtime_constraint slot = RuntimeConstraint.Ready;
  cl_unpaused : paused slot = false;
  cl_priority : selected_priority slot = Some (highest_priority b);
  cl_ids : intent_ids b = List.filter (has_message s) (queue slot (highest_priority b));
  cl_some : intent_ids b <> [];
  cl_batch : b = make_batch gen sid (highest_priority b) (intent_ids b) new
    (u64_succ_saturating (next_operation_id s)) s;
  cl_slots : slots s' = <[sid := slot']> (slots s);
  cl_active : active slot' = Some (mkActiveBatch b None None);
  cl_queue : forall p, queue slot' p = List.filter (not_in (intent_ids b)) (queue slot p);
  cl_marked : marked (intent_ids b) (fun _ => WorkIntentState.Starting new (operation_id b))
    (intents s) (intents s');
  cl_leases : enqueue_leases s' = enqueue_leases s;
  cl_next : next_operation_id s' = u64_succ_saturating (next_operation_id s);
}.

Lemma make_batch_op sid p ids new op m s :
  make_batch gen sid p ids new op (set_next_op m s) = make_batch gen sid p ids new op s.
Proof. reflexivity. Qed.

Lemma next_cases sid new s :
  (exists d, next gen sid new s = (d, s, []) /\ match d with ReconcileDecision.Claim _ => False | _ => True end) \/
  (exists b s' calls slot slot', next gen sid new s = (ReconcileDecision.Claim b, s', calls) /\
     claim sid new s b s' slot slot').
Proof.
  unfold next. destruct (slots s !! sid) as [slot|] eqn:Hl; [|left; by eexists].
  destruct (active slot) eqn:Ha; [left; by eexists|].
  destruct (runtime_constraint slot) eqn:Hc; simpl; try (left; by eexists).
  destruct (paused slot) eqn:Hp; [left; by eexists|].
  destruct (selected_priority slot) as [p|] eqn:Hsel; [|left; by eexists].
  destruct (is_empty (List.filter (has_message s) (queue slot p))) eqn:He; [left; by eexists|].
  right. set (ids := List.filter (has_message s) (queue slot p)) in *.
  set (op := u64_succ_saturating (next_operation_id s)).
  rewrite make_batch_op. set (b := make_batch gen sid p ids new op s).
  eexists b, _, _, slot, (set_active (Some (mkActiveBatch b None None))
    (run_list (fun sl id => remove_queued id sl) slot ids)).
  split; [reflexivity|]. rewrite run_on_slot, on_slot_twice. split; try done.
  - intros ?. unfold b in *. simpl in *. fold ids in He. by destruct ids.
  - rewrite (on_slot_insert _ _ _ slot); by rewrite mark_all_slots.
  - intros p'. rewrite queue_set_active. apply run_remove_queue.
  - exact (mark_all_marked ids (WorkIntentState.Starting new op) (set_next_op op s)).
  - simpl. by rewrite mark_all_leases.
  - simpl. by rewrite mark_all_next.
Qed.

Lemma claim_ids_queued sid new s b s' slot slot' id :
  claim sid new s b s' slot slot' -> id ∈ intent_ids b ->
  id ∈ queue slot (highest_priority b) /\ is_Some (msg_in (intents s) id).
Proof.
  intros Hc. rewrite (cl_ids _ _ _ _ _ _ _ Hc). intros [Hid Hm]%elem_of_filter_bool.
  split; [done|]. unfold has_message in Hm. unfold msg_in.
  destruct (intents s !! id) as [i|]; [|done]. by destruct (mailbox_message_id i).
Qed.

Lemma claim_preserves sid new s b s' slot slot' :
  wf s -> claim sid new s b s' slot slot' -> wf s'.
Proof.
  intros Hwf Hc. pose proof (fun id => claim_ids_queued _ _ _ _ _ _ _ id Hc) as Hq.
  destruct Hc as [C1 C2 C3 C4 C5 C6 C7 C8 C9 C10 C11 C12 C13 C14].
  assert (Hsw : slot_wf (intents s) sid slot) by by apply (wf_slots _ _ Hwf).
  assert (Hb : b = make_batch gen sid (highest_priority b) (intent_ids b) new
    (u64_succ_saturating (next_operation_id s)) s) by done.
  assert (Hfields : batch_id b = new /\ batch_slot_id b = sid /\ batch_generation b = gen /\
    mailbox_message_ids b = omap (msg_in (intents s)) (intent_ids b) /\
    team_run_ids b = run_list push_new [] (omap (run_in (intents s)) (intent_ids b))).
  { rewrite Hb. split_and!; done. }
  destruct Hfields as (F1 & F2 & F3 & F4 & F5).
  apply (wf_local gen s s' sid slot'); try done.
  - eapply marked_touched; [by apply (wf_keys _ _ Hwf)|done|].
    intros id Hid. destruct (Hq id Hid) as [(i & Hi & _ & Hs & _)%(sw_queue _ _ _ _ Hsw) _].
    eauto.
  - apply (claim_wf gen (intents s) _ sid slot _ (highest_priority b) (intent_ids b) (mkActiveBatch b None None));
      try done.
    + rewrite C6. apply NoDup_filter_bool, (sw_nodup _ _ _ _ Hsw).
    + unfold flight_state. simpl. by rewrite F1.
  - by rewrite C13.
Qed.

Lemma next_wf sid new s : wf s -> wf (snd (fst (next gen sid new s))).
Proof.
  intros Hwf. destruct (next_cases sid new s) as [(d & -> & _)|(b & s' & calls & slot & slot' & -> & Hc)];
    [done|]. by eapply claim_preserves.
Qed.

(** ** The methods of a batch's owner *)

(** [b] is the batch its slot is running. *)
Definition owner (s : CoordinatorState) (b : WorkBatch) (slot : SlotState) (a : ActiveBatch) : Prop :=
  slots s !! batch_slot_id b = Some slot /\ active slot = Some a /\ batch a = b.

(** A handle obtained from the coordinator: the active batch that has its id
    is the batch itself. *)
Definition authentic (s : CoordinatorState) (b : WorkBatch) : Prop :=
  forall slot a, slots s !! batch_slot_id b = Some slot -> active slot = Some a ->
    batch_id (batch a) = batch_id b -> batch a = b.

Lemma current_owner s b :
  authentic s b -> is_current_batch gen s b = true -> exists slot a, owner s b slot a.
Proof.
  unfold is_current_batch, owner. intros Hau [_ Hc]%andb_true_iff.
  destruct (slots s !! batch_slot_id b) as [slot|] eqn:Hl; [|done].
  destruct (active slot) as [a|] eqn:Ha; [|done].
  apply andb_true_iff in Hc as [[Hid%bool_decide_eq_true _]%andb_true_iff _].
  exists slot, a. split_and!; try done. by eapply Hau.
Qed.

Lemma owner_current s b slot a :
  wf s -> owner s b slot a -> is_current_batch gen s b = true.
Proof.
  intros Hwf (Hl & Ha & <-). unfold is_current_batch. rewrite Hl, Ha.
  pose proof (sw_active _ _ _ _ (wf_slots _ _ Hwf _ _ Hl) a Ha) as Hb.
  rewrite (bw_generation _ _ _ _ Hb), N.eqb_refl. by rewrite !bool_decide_eq_true_2.
Qed.

Lemma owner_batch s b slot a :
  wf s -> owner s b slot a -> slot_wf (intents s) (batch_slot_id b) slot /\
    batch_wf gen (intents s) (batch_slot_id b) a.
Proof.
  intros Hwf (Hl & Ha & <-). pose proof (wf_slots _ _ Hwf _ _ Hl) as Hs.
  split; [done|]. by apply (sw_active _ _ _ _ Hs).
Qed.

Lemma owner_of_slot s b slot a :
  wf s -> owner s b slot a -> of_slot (intents s) (batch_slot_id b) (intent_ids b).
Proof.
  intros Hwf Ho id Hid. destruct (owner_batch _ _ _ _ Hwf Ho) as [_ Hb]. destruct Ho as (_ & _ & <-).
  destruct (bw_intents _ _ _ _ Hb id Hid) as (i & Hi & _ & Hs & _). eauto.
Qed.

(** Settling a batch: its intents restated, its slot rebuilt. *)
Lemma owner_settle_wf s s' b slot a slot' st :
  wf s -> owner s b slot a -> not_flight st ->
  marked (intent_ids b) (fun _ => st) (intents s) (intents s') ->
  slots s' = <[batch_slot_id b := slot']> (slots s) ->
  enqueue_leases s' = enqueue_leases s ->
  active slot' = None ->
  (forall p, queue slot' p =
     if bool_decide (st = WorkIntentState.Queued) && bool_decide (p = highest_priority b)
     then intent_ids b ++ queue slot p else queue slot p) ->
  wf s'.
Proof.
  intros Hwf Ho Hst Hm Hs Hle Ha' Hq. destruct (owner_batch _ _ _ _ Hwf Ho) as [Hsw Hb].
  pose proof (owner_of_slot _ _ _ _ Hwf Ho) as Hof. destruct Ho as (Hl & Ha & Hab).
  apply (wf_local gen s s' (batch_slot_id b) slot'); try done.
  - by eapply marked_touched; [apply (wf_keys _ _ Hwf)|..].
  - rewrite <- Hab in Hm at 1.
    apply (settle_active_wf gen (intents s) _ (batch_slot_id b) slot slot' a (fun _ => st)); try done.
    intros p. rewrite Hq, Hab.
    assert (Hr : forall id, id ∈ intent_ids b -> requeues (fun _ => st) (intents s) p id =
      bool_decide (st = WorkIntentState.Queued) && bool_decide (p = highest_priority b)).
    { intros id Hid. rewrite <- Hab in Hid. destruct (bw_intents _ _ _ _ Hb id Hid) as (i & Hi & _ & _ & Hp & _).
      unfold requeues. rewrite Hi, Hp, Hab. f_equal. by apply bool_decide_ext. }
    rewrite (filter_ext_in _ _ _ Hr), filter_const. by destruct (_ && _).
  - by rewrite Hle.
Qed.

Lemma terminalize_wf b st s :
  wf s -> authentic s b -> WorkIntentState.is_terminal st = true ->
  wf (snd (fst (terminalize_batch gen b st s))).
Proof.
  intros Hwf Hau Hst. unfold terminalize_batch.
  destruct (is_current_batch gen s b) eqn:Hc; simpl; [|done].
  destruct (current_owner _ _ Hau Hc) as (slot & a & Ho).
  apply (owner_settle_wf s _ b slot a (set_active None slot) st); try done.
  - by destruct st.
  - apply (mark_all_marked (intent_ids b) st s).
  - rewrite (on_slot_insert _ _ _ slot); rewrite mark_all_slots; [done|by apply Ho].
  - simpl. apply mark_all_leases.
  - intros p. rewrite queue_set_active, bool_decide_eq_false_2; [done|]. by destruct st.
Qed.

Lemma retry_wf b s : wf s -> authentic s b -> wf (snd (fst (retry_start gen b s))).
Proof.
  intros Hwf Hau. unfold retry_start. destruct (is_current_batch gen s b) eqn:Hc; simpl; [|done].
  destruct (current_owner _ _ Hau Hc) as (slot & a & Ho). rewrite run_on_slot, on_slot_twice.
  apply (owner_settle_wf s _ b slot a (run_list (fun sl id =>
    queue_mut (highest_priority b) (push_front id) sl) (set_active None slot) (rev (intent_ids b)))
    WorkIntentState.Queued); try done.
  - apply (mark_all_marked (intent_ids b) WorkIntentState.Queued s).
  - rewrite (on_slot_insert _ _ _ slot); rewrite mark_all_slots; [done|by apply Ho].
  - simpl. apply mark_all_leases.
  - by rewrite run_push_front_active.
  - intros p. rewrite run_push_front_queue, queue_set_active. simpl.
    destruct (decide _) as [->|Hne]; [by rewrite bool_decide_eq_true_2|by rewrite bool_decide_eq_false_2].
Qed.

Lemma mark_started_wf b t now s :
  wf s -> authentic s b -> wf (snd (fst (mark_started gen b t now s))).
Proof.
  intros Hwf Hau. unfold mark_started. destruct (is_current_batch gen s b) eqn:Hc; simpl.
  2:{ by destruct (forallb _ _). }
  destruct (current_owner _ _ Hau Hc) as (slot & a & Ho).
  destruct (owner_batch _ _ _ _ Hwf Ho) as [Hsw Hb].
  pose proof (owner_of_slot _ _ _ _ Hwf Ho) as Hof. destruct Ho as (Hl & Ha & Hab).
  set (st := WorkIntentState.Running (batch_id b) (operation_id b) t).
  set (slot' := set_active (Some (mkActiveBatch b (Some t) (Some now))) slot).
  apply (wf_local gen s _ (batch_slot_id b) slot'); try done.
  - eapply marked_touched; [apply (wf_keys _ _ Hwf)|apply (mark_all_marked (intent_ids b) st s)|done].
  - rewrite (on_slot_insert _ _ _ slot); rewrite mark_all_slots; [|done]. by rewrite Ha; simpl; rewrite Hab.
  - apply (start_wf gen (intents s) _ (batch_slot_id b) slot slot' a t (Some now)); try done.
    + rewrite Hab. apply (mark_all_marked (intent_ids b) st s).
    + by rewrite Hab.
  - simpl. by rewrite mark_all_leases.
Qed.

(** ** Loops that restate intents one by one *)

(** [g] does not look at the state it replaces. *)
Definition stateless (g : WorkIntent -> WorkIntentState.t) : Prop :=
  forall st i, g (set_intent_state st i) = g i.

Definition mark_each (g : WorkIntent -> WorkIntentState.t) (ids : list string)
    (s : CoordinatorState) : CoordinatorState :=
  run_list (fun s id => on_intent id (fun i => set_intent_state (g i) i) s) s ids.

Lemma mark_each_lookup g ids s :
  stateless g -> marked ids g (intents s) (intents (mark_each g ids s)).
Proof.
  intros Hg. revert s. induction ids as [|x ids IH]; intros s id.
  - unfold mark_each. simpl. by destruct (intents s !! id).
  - unfold mark_each in *. rewrite run_list_cons, (IH _ id). simpl.
    destruct (decide (x = id)) as [->|Hne].
    + rewrite lookup_alter_eq. destruct (intents s !! id) as [i|]; simpl; [|done].
      rewrite (bool_decide_eq_true_2 (id ∈ id :: ids)) by apply list_elem_of_here.
      rewrite Hg. by case_bool_decide.
    + rewrite lookup_alter_ne by done. destruct (intents s !! id); simpl; [|done].
      f_equal. assert (id ∈ x :: ids <-> id ∈ ids) as Hiff by (rewrite elem_of_cons; intuition congruence).
      by rewrite (bool_decide_ext _ _ Hiff).
Qed.

Lemma mark_each_frame g ids s :
  slots (mark_each g ids s) = slots s /\ enqueue_leases (mark_each g ids s) = enqueue_leases s /\
  next_operation_id (mark_each g ids s) = next_operation_id s.
Proof.
  revert s. induction ids as [|x ids IH]; intros s; [done|].
  unfold mark_each in *. rewrite run_list_cons. destruct (IH (on_intent x (fun i => set_intent_state (g i) i) s))
    as (-> & -> & ->). done.
Qed.

Lemma on_intent_on_slot id f sid h s :
  on_intent id f (on_slot sid h s) = on_slot sid h (on_intent id f s).
Proof. reflexivity. Qed.

Lemma mark_each_on_slot g ids sid h s :
  mark_each g ids (on_slot sid h s) = on_slot sid h (mark_each g ids s).
Proof.
  revert s. induction ids as [|x ids IH]; intros s; [done|].
  unfold mark_each in *. by rewrite !run_list_cons, on_intent_on_slot, IH.
Qed.

(** The intents a loop queues again, with their priorities. *)
Definition requeued (g : WorkIntent -> WorkIntentState.t) (m : gmap string WorkIntent)
    (ids : list string) : list (WorkPriority.t * string) :=
  omap (fun id => match m !! id with
    | Some i => if bool_decide (g i = WorkIntentState.Queued) then Some (intent_priority i, id) else None
    | None => None
    end) ids.

Definition at_priority (p : WorkPriority.t) (l : list (WorkPriority.t * string)) : list string :=
  map snd (List.filter (fun x => bool_decide (fst x = p)) l).

Lemma requeued_at g m ids p : at_priority p (requeued g m ids) = List.filter (requeues g m p) ids.
Proof.
  unfold at_priority, requeued. induction ids as [|id ids IH]; [done|]. csimpl.
  assert (Hr : requeues g m p id = match m !! id with
    | Some i => bool_decide (g i = WorkIntentState.Queued) && bool_decide (intent_priority i = p)
    | None => false end) by done.
  rewrite Hr. destruct (m !! id) as [i|]; simpl; [|done].
  destruct (bool_decide (g i = _)); simpl; [|done]. destruct (bool_decide (_ = p)); simpl; [|done].
  by f_equal.
Qed.

Lemma requeue_back_queue l slot p :
  queue (run_list (fun sl x => queue_mut (fst x) (fun q => q ++ [snd x]) sl) slot l) p =
  queue slot p ++ at_priority p l.
Proof.
  revert slot. induction l as [|[p' id] l IH]; intros slot; [by rewrite app_nil_r|].
  rewrite run_list_cons, IH, queue_mut_queue. unfold at_priority. simpl.
  destruct (decide (p = p')) as [->|Hne].
  - rewrite bool_decide_eq_true_2 by done. simpl. by rewrite <- app_assoc.
  - by rewrite bool_decide_eq_false_2.
Qed.

Lemma requeue_back_active l slot :
  active (run_list (fun sl (x : WorkPriority.t * string) => queue_mut (fst x) (fun q => q ++ [snd x]) sl) slot l)
  = active slot.
Proof.
  revert slot. induction l as [|x l IH]; intros slot; [done|].
  by rewrite run_list_cons, IH, queue_mut_active.
Qed.

Lemma requeue_front_queue l slot p :
  queue (run_list (fun sl x => queue_mut (fst x) (push_front (snd x)) sl) slot (rev l)) p =
  at_priority p l ++ queue slot p.
Proof.
  induction l as [|[p' id] l IH]; [done|]. simpl rev. rewrite run_list_app. simpl.
  rewrite queue_mut_queue, IH. unfold at_priority. simpl.
  destruct (decide (p = p')) as [->|Hne];
    [by rewrite bool_decide_eq_true_2|by rewrite bool_decide_eq_false_2].
Qed.

Lemma requeue_front_active l slot :
  active (run_list (fun sl (x : WorkPriority.t * string) => queue_mut (fst x) (push_front (snd x)) sl) slot l)
  = active slot.
Proof.
  revert slot. induction l as [|x l IH]; intros slot; [done|].
  by rewrite run_list_cons, IH, queue_mut_active.
Qed.

(** ** Signals and pause *)

Lemma signals_closed sid ids s :
  run_list (fun s id => on_slot sid (remove_queued id)
    (on_intent id (set_intent_state WorkIntentState.Completed) s)) s ids =
  on_slot sid (fun slot => run_list (fun sl id => remove_queued id sl) slot ids)
    (mark_each (fun _ => WorkIntentState.Completed) ids s).
Proof.
  revert s. induction ids as [|id ids IH]; intros s.
  - simpl. symmetry. apply on_slot_id.
  - rewrite run_list_cons, IH, mark_each_on_slot, on_slot_twice. reflexivity.
Qed.

Lemma valid_signal_spec sid s id :
  valid_signal sid s id = true <-> exists i, intents s !! id = Some i /\ intent_slot_id i = sid /\
    mailbox_message_id i = None /\ intent_state i = WorkIntentState.Queued.
Proof.
  unfold valid_signal. destruct (intents s !! id) as [i|].
  - rewrite !andb_true_iff, !bool_decide_eq_true. split; [intros [[? ?] ?]; eauto 10|].
    by intros (? & [= <-] & ? & ? & ?).
  - split; [done|]. by intros (? & ? & _).
Qed.

Lemma complete_signals_wf sid ids s : wf s -> wf (snd (fst (complete_signals sid ids s))).
Proof.
  intros Hwf. unfold complete_signals. destruct (forallb (valid_signal sid s) ids) eqn:Hv; simpl; [|done].
  rewrite signals_closed. rewrite forallb_forall in Hv.
  assert (Hq : forall id, id ∈ ids -> exists i, intents s !! id = Some i /\ intent_slot_id i = sid /\
    intent_state i = WorkIntentState.Queued).
  { intros id Hid%list_elem_of_In%Hv%valid_signal_spec. destruct Hid as (i & ? & ? & _ & ?). eauto. }
  destruct ids as [|id0 ids0] eqn:Hids.
  { apply wf_on_slot_same; by try intros ? []. }
  rewrite <- Hids in *. clear Hv.
  destruct (slots s !! sid) as [slot|] eqn:Hl.
  2:{ destruct (Hq id0) as (i & Hi & Hs & _); [rewrite Hids; apply list_elem_of_here|].
      destruct (wf_home _ _ Hwf _ _ Hi). congruence. }
  destruct (mark_each_frame (fun _ => WorkIntentState.Completed) ids s) as (F1 & F2 & _).
  pose proof (mark_each_lookup (fun _ => WorkIntentState.Completed) ids s ltac:(done)) as Hm.
  apply (wf_local gen s _ sid (run_list (fun sl id => remove_queued id sl) slot ids)); try done.
  - eapply marked_touched; [apply (wf_keys _ _ Hwf)|exact Hm|].
    intros id (i & Hi & Hs & _)%Hq. eauto.
  - rewrite (on_slot_insert _ _ _ slot); by rewrite F1.
  - eapply (drop_queued_wf gen (intents s) _ sid slot _ ids (fun _ => WorkIntentState.Completed)); try done.
    + by apply (wf_slots _ _ Hwf).
    + intros id (i & Hi & _ & Hst)%Hq. eauto.
    + apply run_remove_active.
    + intros p. apply run_remove_queue.
  - simpl. by rewrite F2.
Qed.

Lemma pause_spec sid s :
  wf s -> exists res s', pause_slot sid s = Some (res, s') /\ wf s' /\ intents s' = intents s.
Proof.
  intros Hwf. unfold pause_slot.
  destruct (entry_slot sid TeamRunTargetRole.Teammate s) as [slot s1] eqn:He.
  destruct (entry_slot_spec _ _ _ _ _ Hwf He) as (Hwf1 & _ & Hl & Hi & _).
  assert (Hl' : slots (on_slot sid (set_paused true) s1) !! sid = Some (set_paused true slot))
    by (by rewrite on_slot_lookup, bool_decide_eq_true_2, Hl).
  unfold slot_snapshot_locked. rewrite Hl'. eexists _, _. split; [reflexivity|]. split; [|done].
  apply wf_on_slot_same; [done|by intros ? []|done].
Qed.
End Preserve.
