(* ===== verification/WorkSettle.v ===== *)
(** * The methods of the work coordinator that settle many intents

    [set_runtime_constraint], [remove_slot], [stop] and [cancel_run]: the
    closed forms of their loops, and that they preserve well-formedness and
    never panic on a well-formed state. *)

From S2P Require Import Prelude WorkModel WorkCoordinator WorkInvariant WorkPreserve.

Section Settle.
Context (gen : string).

#[local] Abbreviation wf := (wf gen).
#[local] Abbreviation slot_wf := (slot_wf gen).

(** An order of the keys of the intents, as [HashMap::values] may take it. *)
Definition key_order (order : list string) (s : CoordinatorState) : Prop :=
  NoDup order /\ forall id, id ∈ order <-> is_Some (intents s !! id).

Lemma key_order_ext order s s' :
  (forall id, is_Some (intents s !! id) <-> is_Some (intents s' !! id)) ->
  key_order order s -> key_order order s'.
Proof. intros He [Hn Ho]. split; [done|]. intros id. by rewrite Ho, He. Qed.

(** ** Live intents of a slot *)

Lemma live_ids_spec sid order s :
  key_order order s ->
  NoDup (live_ids sid order s) /\
  forall id, id ∈ live_ids sid order s <-> exists i, intents s !! id = Some i /\
    intent_slot_id i = sid /\ WorkIntentState.is_terminal (intent_state i) = false.
Proof.
  intros [Hnd Ho]. unfold live_ids. split; [by apply NoDup_filter_bool|].
  intros id. rewrite elem_of_filter_bool, Ho. unfold live_intent_of.
  destruct (intents s !! id) as [i|]; [|split; [by intros [_ ?]|by intros (? & ? & _)]].
  rewrite andb_true_iff, bool_decide_eq_true, negb_true_iff. split; [intros [_ [? ?]]; eauto|].
  intros (i' & [= <-] & ? & ?). split; [by eexists|done].
Qed.

(** ** [set_runtime_constraint] *)

(** What the loop makes of an intent. *)
Definition constrained (stopped : bool) (final : WorkIntentState.t) (i : WorkIntent)
    : WorkIntentState.t :=
  if bool_decide (intent_run_id i = None) && negb stopped then WorkIntentState.Queued else final.

Definition runs_of (g : WorkIntent -> WorkIntentState.t) (m : gmap string WorkIntent)
    (ids : list string) : list string :=
  omap (fun id => match m !! id with
    | Some i => if bool_decide (g i = WorkIntentState.Queued) then None else intent_run_id i
    | None => None
    end) ids.

Definition msgs_of (g : WorkIntent -> WorkIntentState.t) (m : gmap string WorkIntent)
    (ids : list string) : list string :=
  omap (fun id => match m !! id with
    | Some i => if bool_decide (g i = WorkIntentState.Queued) then None else mailbox_message_id i
    | None => None
    end) ids.

Lemma on_intent_fields (g : WorkIntent -> WorkIntentState.t) (x id : string) s :
  match intents (on_intent x (fun i => set_intent_state (g i) i) s) !! id, intents s !! id with
  | Some i', Some i => i' = i \/ i' = set_intent_state (g i) i
  | None, None => True
  | _, _ => False
  end.
Proof.
  simpl. destruct (decide (x = id)) as [->|Hne].
  - rewrite lookup_alter_eq. destruct (intents s !! id); simpl; auto.
  - rewrite lookup_alter_ne by done. destruct (intents s !! id); auto.
Qed.

(** A projection of intents that does not see the state is the same after a
    restatement. *)
Lemma omap_on_intent {B} (g : WorkIntent -> WorkIntentState.t)
    (Fid : string -> WorkIntent -> option B) x s (ids : list string) :
  (forall id st i, Fid id (set_intent_state st i) = Fid id i) ->
  omap (fun id => match intents (on_intent x (fun i => set_intent_state (g i) i) s) !! id with
                  | Some i => Fid id i | None => None end) ids =
  omap (fun id => match intents s !! id with Some i => Fid id i | None => None end) ids.
Proof.
  intros HF. apply omap_ext_in. intros id _. pose proof (on_intent_fields g x id s) as Hf.
  destruct (intents (on_intent _ _ s) !! id) as [i'|], (intents s !! id) as [i|]; try done.
  destruct Hf as [->| ->]; [done|apply HF].
Qed.

Lemma loop_lists g x s ids :
  stateless g ->
  requeued g (intents (on_intent x (fun i => set_intent_state (g i) i) s)) ids
    = requeued g (intents s) ids /\
  runs_of g (intents (on_intent x (fun i => set_intent_state (g i) i) s)) ids
    = runs_of g (intents s) ids /\
  msgs_of g (intents (on_intent x (fun i => set_intent_state (g i) i) s)) ids
    = msgs_of g (intents s) ids.
Proof.
  intros Hg. split_and!.
  - apply (omap_on_intent g (fun id i => if bool_decide (g i = WorkIntentState.Queued)
      then Some (intent_priority i, id) else None)). intros. by rewrite Hg.
  - apply (omap_on_intent g (fun _ i => if bool_decide (g i = WorkIntentState.Queued)
      then None else intent_run_id i)). intros. by rewrite Hg.
  - apply (omap_on_intent g (fun _ i => if bool_decide (g i = WorkIntentState.Queued)
      then None else mailbox_message_id i)). intros. by rewrite Hg.
Qed.

Lemma on_intent_missing id f s : intents s !! id = None -> on_intent id f s = s.
Proof.
  intros Hl. unfold on_intent, set_intents. destruct s as [sl m le n]. simpl in *. f_equal.
  apply map_eq. intros k. destruct (decide (k = id)) as [->|Hne];
    [by rewrite lookup_alter_eq, Hl|by rewrite lookup_alter_ne].
Qed.

Lemma on_intent_present (g : WorkIntent -> WorkIntentState.t) id s i :
  intents s !! id = Some i ->
  on_intent id (set_intent_state (g i)) s = on_intent id (fun i => set_intent_state (g i) i) s.
Proof.
  intros Hl. unfold on_intent, set_intents. f_equal. apply map_eq. intros k.
  destruct (decide (k = id)) as [->|Hne]; [by rewrite !lookup_alter_eq, Hl|by rewrite !lookup_alter_ne].
Qed.

Lemma constrain_closed stopped final s requeue runs msgs ids :
  final <> WorkIntentState.Queued ->
  let g := constrained stopped final in
  run_list (constrain_intent stopped final) (s, requeue, runs, msgs) ids =
  (mark_each g ids s, requeue ++ requeued g (intents s) ids, runs ++ runs_of g (intents s) ids,
   msgs ++ msgs_of g (intents s) ids).
Proof.
  intros Hfin g. assert (Hg : stateless g) by done.
  revert s requeue runs msgs. induction ids as [|id ids IH]; intros s requeue runs msgs.
  { simpl. by rewrite !app_nil_r. }
  rewrite run_list_cons. unfold mark_each in *. rewrite run_list_cons.
  destruct (loop_lists g id s ids Hg) as (L1 & L2 & L3).
  change (requeued g (intents s) (id :: ids)) with (requeued g (intents s) ([id] ++ ids)).
  change (runs_of g (intents s) (id :: ids)) with (runs_of g (intents s) ([id] ++ ids)).
  change (msgs_of g (intents s) (id :: ids)) with (msgs_of g (intents s) ([id] ++ ids)).
  unfold requeued at 1, runs_of at 1, msgs_of at 1. rewrite !omap_app.
  fold (requeued g (intents s) ids) (runs_of g (intents s) ids) (msgs_of g (intents s) ids).
  csimpl. destruct (intents s !! id) as [i|] eqn:Hl.
  2:{ rewrite (on_intent_missing _ _ _ Hl). apply IH. }
  destruct (bool_decide (intent_run_id i = None) && negb stopped) eqn:Hb.
  - assert (Hgi : g i = WorkIntentState.Queued) by (unfold g, constrained; by rewrite Hb).
    pose proof (on_intent_present g _ _ _ Hl) as Hp. rewrite Hgi in Hp.
    rewrite Hp, IH, L1, L2, L3, Hgi. rewrite bool_decide_eq_true_2 by done. by rewrite <- app_assoc.
  - assert (Hgi : g i = final) by (unfold g, constrained; by rewrite Hb).
    pose proof (on_intent_present g _ _ _ Hl) as Hp. rewrite Hgi in Hp.
    rewrite Hp, IH, L1, L2, L3, Hgi. rewrite bool_decide_eq_false_2 by done. rewrite <- !app_assoc.
    by destruct (intent_run_id i), (mailbox_message_id i).
Qed.

(** [ids] are the live intents of a slot. *)
Definition all_live (s : CoordinatorState) (sid : string) (ids : list string) : Prop :=
  forall id, id ∈ ids <-> exists i, intents s !! id = Some i /\ intent_slot_id i = sid /\
    WorkIntentState.is_terminal (intent_state i) = false.

Lemma rebuild_state_wf s s' sid slot slot' ids g :
  wf s -> slots s !! sid = Some slot -> all_live s sid ids ->
  (forall i, not_flight (g i)) ->
  marked ids g (intents s) (intents s') -> slots s' = <[sid := slot']> (slots s) ->
  enqueue_leases s' = enqueue_leases s \/ enqueue_leases s' = ∅ ->
  active slot' = None ->
  (forall p, queue slot' p = List.filter (requeues g (intents s) p) ids) ->
  (forall p, NoDup (queue slot' p)) ->
  wf s'.
Proof.
  intros Hwf Hl Hall Hg Hm Hs Hle Ha Hq Hnd.
  assert (Hof : of_slot (intents s) sid ids) by (intros id (i & ? & ? & _)%Hall; eauto).
  apply (wf_local gen s s' sid slot'); try done.
  - by eapply marked_touched; [apply (wf_keys _ _ Hwf)|..].
  - apply (rebuild_wf gen (intents s) _ sid slot slot' ids g); try done.
    + by apply (wf_slots _ _ Hwf).
    + intros id i Hi Hsl Ht. apply Hall. eauto.
  - by destruct Hle as [-> | ->].
Qed.

Lemma set_constraint_spec sid c order s :
  wf s -> key_order order s ->
  exists res s' calls, set_runtime_constraint sid c order s = Some (res, s', calls) /\ wf s' /\
    match c with
    | RuntimeConstraint.Failed _ _ | RuntimeConstraint.SessionStopped =>
        let g := match c with
                 | RuntimeConstraint.Failed _ cl => constrained false (WorkIntentState.Failed cl)
                 | _ => constrained true (WorkIntentState.Cancelled "session_stopped")
                 end in
        marked (live_ids sid order s) g (intents s) (intents s') /\
        update_terminal_message_ids res = msgs_of g (intents s) (live_ids sid order s) /\
        exists slot', slots s' !! sid = Some slot' /\ active slot' = None /\
          runtime_constraint slot' = c /\
          forall p, queue slot' p = List.filter (requeues g (intents s) p) (live_ids sid order s)
    | _ => intents s' = intents s
    end.
Proof.
  intros Hwf Hord. unfold set_runtime_constraint.
  destruct (entry_slot sid TeamRunTargetRole.Teammate s) as [slot s1] eqn:He.
  destruct (entry_slot_spec gen _ _ _ _ _ Hwf He) as (Hwf1 & Hs1 & Hl1 & Hi1 & Hle1 & _).
  set (s2 := on_slot sid (set_constraint c) s1).
  assert (Hwf2 : wf s2) by (apply wf_on_slot_same; [done|by intros ? []|done]).
  assert (Hl2 : slots s2 !! sid = Some (set_constraint c slot))
    by (unfold s2; by rewrite on_slot_lookup, bool_decide_eq_true_2, Hl1).
  assert (Hi2 : intents s2 = intents s) by (unfold s2; simpl; done).
  assert (Hlive : live_ids sid order s2 = live_ids sid order s) by (unfold live_ids; by rewrite Hi2).
  assert (Hsettle : forall stopped final, not_flight final -> final <> WorkIntentState.Queued ->
    let g := constrained stopped final in
    let ids := live_ids sid order s in
    let slot' := run_list (fun sl x => queue_mut (fst x) (fun q => q ++ [snd x]) sl)
                   (clear_work (set_constraint c slot)) (requeued g (intents s) ids) in
    let s' := run_list (requeue_back sid) (on_slot sid clear_work (mark_each g ids s2))
                (requeued g (intents s) ids) in
    wf s' /\ marked ids g (intents s) (intents s') /\ slots s' !! sid = Some slot' /\
    active slot' = None /\ runtime_constraint slot' = c /\
    forall p, queue slot' p = List.filter (requeues g (intents s) p) ids).
  { intros stopped final Hf1 Hf2 g ids slot' s'.
    assert (Hs' : s' = on_slot sid (fun sl => run_list (fun sl x => queue_mut (fst x) (fun q => q ++ [snd x]) sl)
      (clear_work sl) (requeued g (intents s) ids)) (mark_each g ids s2)).
    { unfold s', requeue_back. by rewrite (run_on_slot sid (fun x => queue_mut (fst x) _)), on_slot_twice. }
    destruct (mark_each_frame g ids s2) as (F1 & F2 & _).
    destruct (live_ids_spec sid order s Hord) as [Hnd Hall].
    assert (Hm : marked ids g (intents s) (intents (mark_each g ids s2)))
      by (rewrite <- Hi2; by apply mark_each_lookup).
    assert (Hq : forall p, queue slot' p = List.filter (requeues g (intents s) p) ids).
    { intros p. unfold slot'. rewrite requeue_back_queue, requeued_at. by destruct p. }
    assert (Hrc : forall l sl, runtime_constraint (run_list (fun sl (x : WorkPriority.t * string) =>
      queue_mut (fst x) (fun q => q ++ [snd x]) sl) sl l) = runtime_constraint sl).
    { induction l as [|[[] ?] l IH]; intros sl; [done|rewrite run_list_cons, IH; done..]. }
    rewrite Hs'. split_and!.
    - apply (rebuild_state_wf s2 _ sid (set_constraint c slot) slot' ids g); try done.
      + intros id. rewrite Hi2. apply Hall.
      + intros i. unfold g, constrained. by destruct (_ && _).
      + by rewrite Hi2.
      + rewrite (on_slot_insert _ _ _ (set_constraint c slot)); by rewrite F1.
      + left. simpl. by rewrite F2.
      + unfold slot'. by rewrite requeue_back_active.
      + intros p. by rewrite Hi2.
      + intros p. rewrite Hq. by apply NoDup_filter_bool.
    - done.
    - rewrite on_slot_lookup, bool_decide_eq_true_2, F1, Hl2 by done. done.
    - unfold slot'. by rewrite requeue_back_active.
    - unfold slot'. by rewrite Hrc.
    - done. }
  assert (Hsnap : forall s' slot', slots s' !! sid = Some slot' ->
    exists snap, slot_snapshot_locked s' sid = Some snap)
    by (intros s' slot' Hsl; unfold slot_snapshot_locked; rewrite Hsl; by eexists).
  destruct c as [|op|op cl|op|].
  1, 2, 4: destruct (Hsnap s2 _ Hl2) as [snap Hsn]; rewrite Hsn; eexists _, _, _; split; [reflexivity|done].
  - rewrite constrain_closed, Hlive, Hi2 by done. cbn zeta.
    destruct (Hsettle false (WorkIntentState.Failed cl) I ltac:(done)) as (W1 & W2 & W3 & W4 & W5 & W6).
    simpl app. destruct (Hsnap _ _ W3) as [snap Hsn]. rewrite Hsn.
    eexists _, _, _. split; [reflexivity|]. split; [done|]. split; [done|]. split; [done|]. by eexists.
  - rewrite constrain_closed, Hlive, Hi2 by done. cbn zeta.
    destruct (Hsettle true (WorkIntentState.Cancelled "session_stopped") I ltac:(done))
      as (W1 & W2 & W3 & W4 & W5 & W6).
    simpl app. destruct (Hsnap _ _ W3) as [snap Hsn]. rewrite Hsn.
    eexists _, _, _. split; [reflexivity|]. split; [done|]. split; [done|]. split; [done|]. by eexists.
Qed.

(** ** [remove_slot] *)

Lemma remove_closed s msgs runs ids :
  (forall id, id ∈ ids -> is_Some (intents s !! id)) ->
  let g := fun _ : WorkIntent => slot_removed in
  try_fold remove_intent (s, msgs, runs) ids =
  Some (mark_each g ids s, msgs ++ msgs_of g (intents s) ids, runs ++ runs_of g (intents s) ids).
Proof.
  intros Hids g. revert s msgs runs Hids. induction ids as [|id ids IH]; intros s msgs runs Hids.
  { simpl. by rewrite !app_nil_r. }
  destruct (Hids id (list_elem_of_here _ _)) as [i Hl]. cbn [try_fold].
  unfold remove_intent at 1. rewrite Hl.
  destruct (loop_lists g id s ids ltac:(done)) as (_ & L2 & L3).
  change (on_intent id (set_intent_state slot_removed) s)
    with (on_intent id (fun i => set_intent_state (g i) i) s).
  rewrite IH; [rewrite L2, L3|].
  - unfold mark_each, msgs_of, runs_of. csimpl. rewrite Hl, <- !app_assoc.
    by destruct (mailbox_message_id i), (intent_run_id i).
  - intros k Hk. pose proof (on_intent_fields g id k s) as Hf.
    destruct (Hids k ltac:(by apply list_elem_of_further)) as [j Hj]. rewrite Hj in Hf.
    destruct (intents (on_intent _ _ s) !! k); [by eexists|done].
Qed.

Lemma in_flight_live i : in_flight i = true -> WorkIntentState.is_terminal (intent_state i) = false.
Proof. unfold in_flight. by destruct (intent_state i). Qed.

Lemma live_cases i :
  WorkIntentState.is_terminal (intent_state i) = false ->
  intent_state i = WorkIntentState.Queued \/ in_flight i = true.
Proof. unfold in_flight. destruct (intent_state i); auto. Qed.

Lemma queued_ids_elem slot id : id ∈ queued_ids slot <-> exists p, id ∈ queue slot p.
Proof.
  unfold queued_ids. rewrite !elem_of_app. split.
  - intros [?|[?|?]]; [by exists WorkPriority.Foreground|by exists WorkPriority.Control|by exists WorkPriority.Background].
  - intros [[] ?]; auto.
Qed.

(** The active batch and the queues of a slot hold its live intents, no
    others: the rest of [remove_ids] is empty. *)
Lemma ordered_live s sid slot :
  wf s -> slots s !! sid = Some slot ->
  all_live s sid (match active slot with Some a => intent_ids (batch a) | None => [] end ++ queued_ids slot).
Proof.
  intros Hwf Hl id. pose proof (wf_slots _ _ Hwf _ _ Hl) as Hsw.
  rewrite elem_of_app, queued_ids_elem. split.
  - intros [Hin|[p Hin]].
    + destruct (active slot) as [a|] eqn:Ha; [|by apply elem_of_nil in Hin].
      pose proof (sw_active _ _ _ _ Hsw a Ha) as Hb.
      destruct (bw_intents _ _ _ _ Hb id Hin) as (i & Hi & Hst & Hs & _). exists i.
      split_and!; try done. rewrite Hst. unfold flight_state. by destruct (turn_id a).
    + apply (sw_queue _ _ _ _ Hsw) in Hin as (i & Hi & Hst & Hs & _). exists i. by rewrite Hst.
  - intros (i & Hi & Hs & [Hq|Hf]%live_cases).
    + right. exists (intent_priority i). apply (sw_queue _ _ _ _ Hsw). by exists i.
    + left. destruct (sw_flight _ _ _ _ Hsw id i Hi Hs Hf) as (a & -> & Hin). done.
Qed.

Lemma remove_ids_live s sid : wf s -> all_live s sid (remove_ids sid s).
Proof.
  intros Hwf id. unfold remove_ids. rewrite elem_of_app, list_elem_of_fmap.
  setoid_rewrite merge_sort_Permutation. setoid_rewrite elem_of_filter_bool.
  setoid_rewrite elem_of_map_values. unfold live_intent_of.
  setoid_rewrite andb_true_iff. setoid_rewrite andb_true_iff.
  setoid_rewrite bool_decide_eq_true. setoid_rewrite negb_true_iff. setoid_rewrite bool_decide_eq_false.
  split.
  - intros [Hin|(i & -> & [k Hk] & (Hs & Ht) & _)].
    + destruct (slots s !! sid) as [slot|] eqn:Hl; [|by apply elem_of_nil in Hin].
      by apply (ordered_live _ _ _ Hwf Hl).
    + destruct (wf_keys _ _ Hwf _ _ Hk) as [-> _]. eauto.
  - intros (i & Hi & Hs & Ht). left. destruct (wf_home _ _ Hwf _ _ Hi) as [slot Hl]. rewrite Hs in Hl.
    rewrite Hl. apply (ordered_live _ _ _ Hwf Hl). eauto.
Qed.

Lemma remove_slot_spec sid s :
  wf s -> exists res s' calls, remove_slot sid s = Some (res, s', calls) /\ wf s' /\
    marked (remove_ids sid s) (fun _ => slot_removed) (intents s) (intents s') /\
    remove_terminal_message_ids res = msgs_of (fun _ => slot_removed) (intents s) (remove_ids sid s) /\
    (forall slot, slots s !! sid = Some slot ->
       slots s' !! sid = Some (set_removed true (clear_work slot))) /\
    (forall k, k <> sid -> slots s' !! k = slots s !! k).
Proof.
  intros Hwf. unfold remove_slot. pose proof (remove_ids_live s sid Hwf) as Hall.
  set (g := fun _ : WorkIntent => slot_removed). set (ids := remove_ids sid s) in *.
  rewrite (remove_closed s [] [] ids) by (intros id (i & Hi & _)%Hall; by eexists).
  destruct (mark_each_frame g ids s) as (F1 & F2 & _).
  pose proof (mark_each_lookup g ids s ltac:(done)) as Hm.
  eexists _, _, _. split; [reflexivity|]. fold g. split_and!; try done.
  - destruct (slots s !! sid) as [slot|] eqn:Hl.
    + apply (rebuild_state_wf s _ sid slot (set_removed true (clear_work slot)) ids g); try done.
      * rewrite (on_slot_insert _ _ _ slot); by rewrite F1.
      * left. simpl. by rewrite F2.
      * intros p. rewrite (filter_ext_in _ (fun _ => false)); [by rewrite filter_const; destruct p|].
        intros id _. unfold requeues. by destruct (intents s !! id).
      * intros p. destruct p; constructor.
    + assert (Hnil : ids = []).
      { destruct ids as [|id l]; [done|]. destruct (proj1 (Hall id) (list_elem_of_here _ _)) as (i & Hi & Hs & _).
        destruct (wf_home _ _ Hwf _ _ Hi). congruence. }
      rewrite Hnil. unfold mark_each. simpl. replace (on_slot _ _ s) with s; [done|].
      unfold on_slot. destruct s as [sl m l n]. simpl in *.
      unfold set_slots. simpl. f_equal. symmetry. apply map_eq. intros k.
      destruct (decide (k = sid)) as [->|Hne]; [by rewrite lookup_alter_eq, Hl|by rewrite lookup_alter_ne].
  - intros slot Hl. rewrite on_slot_lookup, bool_decide_eq_true_2, F1, Hl by done. done.
  - intros k Hk. rewrite on_slot_lookup, bool_decide_eq_false_2, F1 by done. done.
Qed.

(** ** [stop] *)

Lemma stop_intents s id :
  intents (snd (fst (stop s))) !! id = stop_intent <$> (intents s !! id).
Proof. unfold stop. simpl. apply lookup_fmap. Qed.

Lemma stop_intent_terminal i : WorkIntentState.is_terminal (intent_state (stop_intent i)) = true.
Proof. unfold stop_intent. by destruct (WorkIntentState.is_terminal (intent_state i)) eqn:E. Qed.

Lemma stop_wf s : wf s -> wf (snd (fst (stop s))).
Proof.
  intros Hwf.
  assert (Hi : forall id i', intents (snd (fst (stop s))) !! id = Some i' ->
    exists i, intents s !! id = Some i /\ i' = stop_intent i).
  { intros id i'. rewrite stop_intents. destruct (intents s !! id) as [i|]; [|done].
    intros [= <-]. eauto. }
  assert (Hf : forall i, intent_id (stop_intent i) = intent_id i /\
    intent_generation (stop_intent i) = intent_generation i /\
    intent_slot_id (stop_intent i) = intent_slot_id i)
    by (intros i; unfold stop_intent; by destruct (WorkIntentState.is_terminal _)).
  split.
  - intros id i' (i & Hl & ->)%Hi. destruct (Hf i) as (-> & -> & _). by apply (wf_keys _ _ Hwf).
  - intros id i' (i & Hl & ->)%Hi. destruct (Hf i) as (_ & _ & ->). simpl. rewrite lookup_fmap.
    destruct (wf_home _ _ Hwf _ _ Hl) as [slot ->]. by eexists.
  - intros sid slot'. simpl. rewrite lookup_fmap. destruct (slots s !! sid) as [slot|]; [|done].
    intros [= <-]. change (stop_intent <$> intents s) with (intents (snd (fst (stop s)))). split.
    + intros p. destruct p; constructor.
    + intros p id. split; [by destruct p; intros ?%elem_of_nil|].
      intros (i' & (i & _ & ->)%Hi & Hst & _). pose proof (stop_intent_terminal i) as Ht. by rewrite Hst in Ht.
    + intros id i' (i & _ & ->)%Hi _ Hfl%in_flight_live. by rewrite stop_intent_terminal in Hfl.
    + done.
  - intros k rec. simpl. by rewrite lookup_empty.
Qed.

(** ** [cancel_run] *)

(** What it makes of an intent of an active batch of the run. *)
Definition run_settled (run_id : string) (i : WorkIntent) : WorkIntentState.t :=
  if run_of run_id i then run_cancelled else WorkIntentState.Queued.

Lemma cancel_active_closed run_id s msgs retained ids :
  (forall id, id ∈ ids -> is_Some (intents s !! id)) ->
  let g := run_settled run_id in
  try_fold (cancel_active_intent run_id) (s, msgs, retained) ids =
  Some (mark_each g ids s, msgs ++ msgs_of g (intents s) ids, retained ++ requeued g (intents s) ids).
Proof.
  intros Hids g. revert s msgs retained Hids. induction ids as [|id ids IH]; intros s msgs retained Hids.
  { simpl. by rewrite !app_nil_r. }
  destruct (Hids id (list_elem_of_here _ _)) as [i Hl]. cbn [try_fold].
  unfold cancel_active_intent at 1. rewrite Hl.
  destruct (loop_lists g id s ids ltac:(done)) as (L1 & _ & L3).
  assert (Hrest : forall k, k ∈ ids ->
    is_Some (intents (on_intent id (fun i => set_intent_state (g i) i) s) !! k)).
  { intros k Hk. pose proof (on_intent_fields g id k s) as Hf.
    destruct (Hids k ltac:(by apply list_elem_of_further)) as [j Hj]. rewrite Hj in Hf.
    destruct (intents (on_intent _ _ s) !! k); [by eexists|done]. }
  pose proof (on_intent_present g _ _ _ Hl) as Hp.
  unfold mark_each, msgs_of, requeued. csimpl. rewrite Hl.
  fold (msgs_of g (intents s) ids) (requeued g (intents s) ids).
  destruct (run_of run_id i) eqn:Hr.
  - assert (Hgi : g i = run_cancelled) by (unfold g, run_settled; by rewrite Hr). rewrite Hgi in Hp.
    rewrite Hp, IH, L1, L3, Hgi by done. rewrite <- !app_assoc. by destruct (mailbox_message_id i).
  - assert (Hgi : g i = WorkIntentState.Queued) by (unfold g, run_settled; by rewrite Hr).
    rewrite Hgi in Hp. rewrite Hp, IH, L1, L3, Hgi by done. by rewrite <- !app_assoc.
Qed.

(** One active slot of the run. *)
Lemma cancel_slot_step run_id s targets msgs sid a slot :
  wf s -> slots s !! sid = Some slot -> active slot = Some a ->
  exists s' slot', cancel_active_slot run_id (s, targets, msgs) (sid, a) =
      Some (s', targets ++ [mkBatchCancelTarget (batch a) (turn_id a)],
            msgs ++ msgs_of (run_settled run_id) (intents s) (intent_ids (batch a))) /\
    wf s' /\ slots s' = <[sid := slot']> (slots s) /\ active slot' = None /\
    marked (intent_ids (batch a)) (run_settled run_id) (intents s) (intents s') /\
    enqueue_leases s' = enqueue_leases s.
Proof.
  intros Hwf Hl Ha. pose proof (wf_slots _ _ Hwf _ _ Hl) as Hsw.
  pose proof (sw_active _ _ _ _ Hsw a Ha) as Hb. unfold cancel_active_slot.
  set (g := run_settled run_id). set (ids := intent_ids (batch a)).
  rewrite (cancel_active_closed run_id s msgs [] ids)
    by (intros id (i & -> & _)%(bw_intents _ _ _ _ Hb); by eexists).
  destruct (mark_each_frame g ids s) as (F1 & F2 & _).
  pose proof (mark_each_lookup g ids s ltac:(done)) as Hm.
  set (f := fun slot => run_list (fun sl (x : WorkPriority.t * string) =>
    queue_mut (fst x) (push_front (snd x)) sl) (set_active None slot) (rev (requeued g (intents s) ids))).
  assert (Hs : run_list (requeue_front sid) (on_slot sid (set_active None) (mark_each g ids s))
    (rev (requeued g (intents s) ids)) = on_slot sid f (mark_each g ids s)).
  { unfold requeue_front. by rewrite (run_on_slot sid (fun x => queue_mut (fst x) _)), on_slot_twice. }
  fold g. simpl app. rewrite Hs. exists (on_slot sid f (mark_each g ids s)), (f slot). split; [done|].
  assert (Hslots : slots (on_slot sid f (mark_each g ids s)) = <[sid := f slot]> (slots s))
    by (rewrite (on_slot_insert _ _ _ slot); by rewrite F1).
  assert (Hact : active (f slot) = None) by (unfold f; by rewrite requeue_front_active).
  split_and!; try done.
  apply (wf_local gen s _ sid (f slot)); try done.
  - eapply marked_touched; [apply (wf_keys _ _ Hwf)|exact Hm|].
    intros id (i & Hi & _ & Hs' & _)%(bw_intents _ _ _ _ Hb). eauto.
  - apply (settle_active_wf gen (intents s) _ sid slot (f slot) a g); try done.
    + intros i. unfold g, run_settled. by destruct (run_of run_id i).
    + intros p. unfold f. by rewrite requeue_front_queue, requeued_at, queue_set_active.
  - simpl. by rewrite F2.
Qed.

(** How the intents stand after some steps of [cancel_run]: the same intents,
    each with its old state, or, if it was live, cancelled when it is of the
    run, and otherwise queued again when it was in flight. *)
Definition run_restated (run_id : string) (m m' : gmap string WorkIntent) : Prop :=
  forall id, match m !! id with
  | Some i => exists st, m' !! id = Some (set_intent_state st i) /\
      (st = intent_state i \/
       (WorkIntentState.is_terminal (intent_state i) = false /\
        (run_of run_id i = true /\ st = run_cancelled \/
         run_of run_id i = false /\ in_flight i = true /\ st = WorkIntentState.Queued)))
  | None => m' !! id = None
  end.

Lemma set_own_state i : set_intent_state (intent_state i) i = i.
Proof. by destruct i. Qed.

Lemma run_restated_refl run_id m : run_restated run_id m m.
Proof.
  intros id. destruct (m !! id) as [i|]; [|done]. exists (intent_state i).
  rewrite set_own_state. auto.
Qed.

Lemma run_restated_trans run_id m1 m2 m3 :
  run_restated run_id m1 m2 -> run_restated run_id m2 m3 -> run_restated run_id m1 m3.
Proof.
  intros H1 H2 id. specialize (H1 id). specialize (H2 id).
  destruct (m1 !! id) as [i|]; [|by rewrite H1 in H2].
  destruct H1 as (st & Hl & H1). rewrite Hl in H2. destruct H2 as (st' & -> & H2).
  exists st'. split; [done|]. unfold run_of, in_flight in *. simpl in H2.
  destruct H2 as [->|(Ht & H2)]; [done|]. destruct H1 as [->|(Ht1 & [[Hr ->]|(Hr & Hf & ->)])]; [auto|done|].
  destruct H2 as [[Hr' _]|(_ & Hf' & _)]; [congruence|done].
Qed.

Lemma marked_run_restated run_id ids m m' :
  marked ids (run_settled run_id) m m' ->
  (forall id, id ∈ ids -> exists i, m !! id = Some i /\ in_flight i = true) ->
  run_restated run_id m m'.
Proof.
  intros Hm Hids id. rewrite (Hm id). destruct (m !! id) as [i|] eqn:Hl; [|done]. simpl.
  case_bool_decide as Hin.
  - eexists. split; [reflexivity|]. right. destruct (Hids id Hin) as (i' & Hi' & Hf).
    rewrite Hl in Hi'. injection Hi' as <-. split; [by apply in_flight_live|].
    unfold run_settled. destruct (run_of run_id i); auto.
  - exists (intent_state i). rewrite set_own_state. auto.
Qed.

Lemma active_in_flight s sid slot a :
  wf s -> slots s !! sid = Some slot -> active slot = Some a ->
  forall id, id ∈ intent_ids (batch a) -> exists i, intents s !! id = Some i /\ in_flight i = true.
Proof.
  intros Hwf Hl Ha id Hid.
  pose proof (sw_active _ _ _ _ (wf_slots _ _ Hwf _ _ Hl) a Ha) as Hb.
  destruct (bw_intents _ _ _ _ Hb id Hid) as (i & Hi & Hst & _). exists i. split; [done|].
  unfold in_flight. rewrite Hst. unfold flight_state. by destruct (turn_id a).
Qed.

(** The messages gathered on the way are those of the intents cancelled on the
    way. *)
Definition accounted (run_id : string) (m m' : gmap string WorkIntent) (msgs msgs' : list string) : Prop :=
  run_restated run_id m m' /\
  forall x, x ∈ msgs' <-> x ∈ msgs \/
    exists id i i', m !! id = Some i /\ WorkIntentState.is_terminal (intent_state i) = false /\
      mailbox_message_id i = Some x /\ m' !! id = Some i' /\ intent_state i' = run_cancelled.

Lemma accounted_refl run_id m msgs : accounted run_id m m msgs msgs.
Proof.
  split; [apply run_restated_refl|]. intros x. split; [by left|].
  intros [?|(id & i & i' & Hi & Ht & _ & Hi' & Hc)]; [done|].
  rewrite Hi in Hi'. injection Hi' as <-. by rewrite Hc in Ht.
Qed.

Lemma accounted_trans run_id m1 m2 m3 a b c :
  accounted run_id m1 m2 a b -> accounted run_id m2 m3 b c -> accounted run_id m1 m3 a c.
Proof.
  intros [R1 A1] [R2 A2]. split; [by eapply run_restated_trans|]. intros x. rewrite A2, A1.
  split.
  - intros [[?|(id & i & i' & Hi & Ht & Hx & Hi' & Hc)]|(id & i & i' & Hi & Ht & Hx & Hi' & Hc)]; [by left| |]; right.
    + specialize (R2 id). rewrite Hi' in R2. destruct R2 as (st & Hl & [->|(Ht' & _)]).
      * exists id, i, (set_intent_state (intent_state i') i'). by rewrite Hl.
      * by rewrite Hc in Ht'.
    + specialize (R1 id). destruct (m1 !! id) as [i0|] eqn:H0; [|congruence].
      destruct R1 as (st & Hl & Hst). rewrite Hi in Hl. injection Hl as ->.
      exists id, i0, i'. split_and!; try done. destruct Hst as [->|(? & _)]; done.
  - intros [?|(id & i & i' & Hi & Ht & Hx & Hi' & Hc)]; [by left; left|].
    pose proof (R1 id) as R1'. rewrite Hi in R1'. destruct R1' as (st & Hl & _).
    destruct (WorkIntentState.is_terminal st) eqn:Hst.
    + left. right. eexists id, i, _. split_and!; try done.
      specialize (R2 id). rewrite Hl in R2. destruct R2 as (st' & Hl' & [->|(Ht' & _)]).
      * rewrite Hi' in Hl'. by injection Hl' as ->.
      * simpl in Ht'. congruence.
    + right. by eexists id, _, i'.
Qed.

Lemma marked_accounted run_id ids m m' msgs :
  marked ids (run_settled run_id) m m' ->
  (forall id, id ∈ ids -> exists i, m !! id = Some i /\ in_flight i = true) ->
  accounted run_id m m' msgs (msgs ++ msgs_of (run_settled run_id) m ids).
Proof.
  intros Hm Hids. split; [by eapply marked_run_restated|]. intros x. rewrite elem_of_app.
  apply or_iff_compat_l. unfold msgs_of. rewrite list_elem_of_omap. split.
  - intros (id & Hid & Hx). destruct (Hids id Hid) as (i & Hi & Hf). rewrite Hi in Hx.
    exists id, i, (set_intent_state (run_settled run_id i) i).
    rewrite (marked_in _ _ _ _ _ _ Hm Hid Hi). unfold run_settled in *.
    destruct (run_of run_id i); [|done]. split_and!; try done. by apply in_flight_live.
  - intros (id & i & i' & Hi & Ht & Hx & Hi' & Hc).
    destruct (decide (id ∈ ids)) as [Hid|Hid].
    + exists id. split; [done|]. rewrite Hi.
      rewrite (marked_in _ _ _ _ _ _ Hm Hid Hi) in Hi'. injection Hi' as <-. simpl in Hc. by rewrite Hc.
    + rewrite (marked_out _ _ _ _ _ Hm Hid), Hi in Hi'. injection Hi' as <-. by rewrite Hc in Ht.
Qed.

(** The first loop: every listed slot is idle afterwards, the others are
    untouched. *)
Lemma cancel_slots_loop run_id l s targets msgs :
  wf s -> NoDup (map fst l) ->
  (forall sid a, (sid, a) ∈ l -> exists slot, slots s !! sid = Some slot /\ active slot = Some a) ->
  exists s' msgs', try_fold (cancel_active_slot run_id) (s, targets, msgs) l =
      Some (s', targets ++ map (fun x => mkBatchCancelTarget (batch (snd x)) (turn_id (snd x))) l, msgs') /\
    wf s' /\ accounted run_id (intents s) (intents s') msgs msgs' /\
    enqueue_leases s' = enqueue_leases s /\
    (forall sid, sid ∉ map fst l -> slots s' !! sid = slots s !! sid) /\
    (forall sid, sid ∈ map fst l -> exists slot, slots s' !! sid = Some slot /\ active slot = None).
Proof.
  revert s targets msgs. induction l as [|[sid a] l IH]; intros s targets msgs Hwf Hnd Hl.
  { exists s, msgs. simpl. rewrite app_nil_r. split_and!; try done; [apply accounted_refl|by intros ? ?%elem_of_nil]. }
  apply list.NoDup_cons in Hnd as [Hnin Hnd].
  destruct (Hl sid a (list_elem_of_here _ _)) as (slot & Hs & Ha).
  destruct (cancel_slot_step run_id s targets msgs sid a slot Hwf Hs Ha)
    as (s1 & slot1 & Hstep & Hwf1 & Hs1 & Ha1 & Hm1 & Hle1).
  cbn [try_fold]. rewrite Hstep.
  destruct (IH s1 (targets ++ [mkBatchCancelTarget (batch a) (turn_id a)])
    (msgs ++ msgs_of (run_settled run_id) (intents s) (intent_ids (batch a))) Hwf1 Hnd)
    as (s2 & msgs2 & Hrun & Hwf2 & Hr2 & Hle2 & Hout & Hin).
  { intros sid' a' Hin. destruct (Hl sid' a' ltac:(by apply list_elem_of_further)) as (slot' & Hs' & Ha').
    exists slot'. split; [|done]. rewrite Hs1, lookup_insert_ne; [done|]. intros ->. apply Hnin.
    apply list_elem_of_fmap. by exists (sid', a'). }
  exists s2, msgs2. rewrite Hrun. split_and!; try done.
  - simpl. by rewrite <- app_assoc.
  - eapply accounted_trans; [|exact Hr2].
    apply (marked_accounted _ _ _ _ _ Hm1). by eapply active_in_flight.
  - by rewrite Hle2.
  - intros k Hk. simpl in Hk. apply not_elem_of_cons in Hk as [Hk1 Hk2].
    rewrite Hout, Hs1, lookup_insert_ne; done.
  - intros k Hk. simpl in Hk. apply elem_of_cons in Hk as [->|Hk]; [|by apply Hin].
    exists slot1. rewrite Hout, Hs1, lookup_insert_eq by done. done.
Qed.

(** ** The second loop: the queued intents of the run *)

Definition queued_of_run (run_id : string) (s : CoordinatorState) (id : string) : bool :=
  match intents s !! id with Some i => run_of run_id i && is_queued i | None => false end.

Lemma is_queued_true i : is_queued i = true <-> intent_state i = WorkIntentState.Queued.
Proof. unfold is_queued. by destruct (intent_state i). Qed.

Lemma queued_of_run_true run_id s id :
  queued_of_run run_id s id = true <-> exists i, intents s !! id = Some i /\ run_of run_id i = true /\
    intent_state i = WorkIntentState.Queued.
Proof.
  unfold queued_of_run. destruct (intents s !! id) as [i|].
  - rewrite andb_true_iff, is_queued_true. split; [intros [? ?]; eauto|]. by intros (? & [= <-] & ? & ?).
  - split; [done|]. by intros (? & ? & _).
Qed.

Lemma cancel_queued_step run_id s msgs id :
  wf s -> queued_of_run run_id s id = true ->
  exists s' msgs', cancel_queued_intent (s, msgs) id = (s', msgs') /\ wf s' /\
    accounted run_id (intents s) (intents s') msgs msgs' /\
    (forall k, k <> id -> intents s' !! k = intents s !! k) /\
    (exists i', intents s' !! id = Some i' /\ intent_state i' = run_cancelled) /\
    enqueue_leases s' = enqueue_leases s.
Proof.
  intros Hwf (i & Hi & Hr & Hq)%queued_of_run_true. unfold cancel_queued_intent. rewrite Hi.
  set (s1 := on_intent id (set_intent_state run_cancelled) s).
  assert (Hm : marked [id] (fun _ => run_cancelled) (intents s) (intents s1)).
  { apply (mark_each_lookup (fun _ => run_cancelled) [id] s). done. }
  destruct (wf_home _ _ Hwf _ _ Hi) as [slot Hl].
  eexists _, _. split; [reflexivity|]. split_and!; try done.
  - apply (wf_local gen s _ (intent_slot_id i) (remove_queued id slot)); try done.
    + eapply marked_touched; [apply (wf_keys _ _ Hwf)|exact Hm|].
      intros k ->%list_elem_of_singleton. eauto.
    + exact (on_slot_insert (intent_slot_id i) (remove_queued id) s1 slot Hl).
    + apply (drop_queued_wf gen (intents s) _ _ slot _ [id] (fun _ => run_cancelled)); try done.
      * by apply (wf_slots _ _ Hwf).
      * intros k ->%list_elem_of_singleton. eauto.
      * intros p. apply (run_remove_queue [id] slot p).
  - split.
    + intros k. destruct (decide (k = id)) as [->|Hne].
      * rewrite Hi. exists run_cancelled. simpl. rewrite lookup_alter_eq, Hi. split; [done|].
        right. rewrite Hq. auto.
      * simpl. rewrite lookup_alter_ne by done. destruct (intents s !! k) as [j|]; [|done].
        exists (intent_state j). rewrite set_own_state. auto.
    + intros x. rewrite elem_of_app. apply or_iff_compat_l. split.
      * intros Hx. exists id, i, (set_intent_state run_cancelled i). simpl.
        rewrite lookup_alter_eq, Hi, Hq. destruct (mailbox_message_id i); simpl in Hx;
          [|by apply elem_of_nil in Hx]. apply list_elem_of_singleton in Hx as ->. done.
      * intros (k & j & j' & Hj & Ht & Hx & Hj' & Hc). simpl in Hj'.
        destruct (decide (k = id)) as [->|Hne].
        -- rewrite Hi in Hj. injection Hj as ->. rewrite Hx. simpl. apply list_elem_of_here.
        -- rewrite lookup_alter_ne, Hj in Hj' by done. injection Hj' as <-. by rewrite Hc in Ht.
  - intros k Hk. simpl. by rewrite lookup_alter_ne.
  - eexists. simpl. by rewrite lookup_alter_eq, Hi.
Qed.

Lemma cancel_queued_loop run_id ids s msgs :
  wf s -> NoDup ids -> (forall id, id ∈ ids -> queued_of_run run_id s id = true) ->
  exists s' msgs', run_list cancel_queued_intent (s, msgs) ids = (s', msgs') /\ wf s' /\
    accounted run_id (intents s) (intents s') msgs msgs' /\
    (forall k, k ∉ ids -> intents s' !! k = intents s !! k) /\
    (forall k, k ∈ ids -> exists i', intents s' !! k = Some i' /\ intent_state i' = run_cancelled) /\
    enqueue_leases s' = enqueue_leases s.
Proof.
  revert s msgs. induction ids as [|id ids IH]; intros s msgs Hwf Hnd Hq.
  { exists s, msgs. split_and!; try done; [apply accounted_refl|by intros ? ?%elem_of_nil]. }
  apply list.NoDup_cons in Hnd as [Hnin Hnd].
  destruct (cancel_queued_step run_id s msgs id Hwf (Hq id (list_elem_of_here _ _)))
    as (s1 & m1 & Hst & Hwf1 & Hacc1 & Hout1 & Hin1 & Hle1).
  destruct (IH s1 m1 Hwf1 Hnd) as (s2 & m2 & Hrun & Hwf2 & Hacc2 & Hout2 & Hin2 & Hle2).
  { intros k Hk. unfold queued_of_run. rewrite Hout1 by (intros ->; done).
    apply (Hq k). by apply list_elem_of_further. }
  exists s2, m2. rewrite run_list_cons, Hst, Hrun. split_and!; try done.
  - by eapply accounted_trans.
  - intros k Hk. apply not_elem_of_cons in Hk as [? ?]. by rewrite Hout2, Hout1.
  - intros k [->|Hk]%elem_of_cons; [by rewrite Hout2|by apply Hin2].
  - by rewrite Hle2.
Qed.

(** ** The whole of [cancel_run] *)

Lemma drop_leases_loop ids s :
  run_list (fun s id => set_leases (delete id (enqueue_leases s)) s) s ids =
  set_leases (run_list (fun m id => delete id m) (enqueue_leases s) ids) s.
Proof.
  revert s. induction ids as [|id ids IH]; intros s; [by destruct s|].
  by rewrite !run_list_cons, IH.
Qed.

Lemma delete_all_lookup {A} ids (m : gmap string A) k :
  run_list (fun m id => delete id m) m ids !! k = if bool_decide (k ∈ ids) then None else m !! k.
Proof.
  revert m. induction ids as [|id ids IH]; intros m; [done|].
  rewrite run_list_cons, IH. destruct (decide (k = id)) as [->|Hne].
  - rewrite (bool_decide_eq_true_2 (id ∈ id :: ids)) by apply list_elem_of_here.
    rewrite lookup_delete_eq. by case_bool_decide.
  - rewrite lookup_delete_ne by done.
    assert (k ∈ id :: ids <-> k ∈ ids) as Hiff by (rewrite elem_of_cons; intuition congruence).
    by rewrite (bool_decide_ext _ _ Hiff).
Qed.

Lemma in_run_spec s run_id id :
  in_run s run_id id = true <-> exists i, intents s !! id = Some i /\ run_of run_id i = true.
Proof.
  unfold in_run, intent_run, run_of. rewrite bool_decide_eq_true.
  destruct (intents s !! id) as [i|]; [|split; [done|by intros (? & ? & _)]].
  split; [intros Hr; exists i; by rewrite bool_decide_eq_true|].
  intros (? & [= <-] & Hr). by apply bool_decide_eq_true in Hr.
Qed.

Lemma run_active_slots_spec run_id s :
  NoDup (map fst (run_active_slots run_id s)) /\
  forall sid a, (sid, a) ∈ run_active_slots run_id s <->
    exists slot, slots s !! sid = Some slot /\ active slot = Some a /\
      existsb (in_run s run_id) (intent_ids (batch a)) = true.
Proof.
  unfold run_active_slots, filter_map. split.
  - pose proof (NoDup_btree_keys (slots s)) as Hnd. induction Hnd as [|k l Hk _ IH]; [constructor|].
    csimpl. destruct (slots s !! k) as [slot|]; [|done]. destruct (active slot) as [a|]; [|done].
    destruct (existsb _ _); [|done]. simpl. constructor; [|done].
    intros Hin. apply Hk. apply list_elem_of_fmap in Hin as ([k' a'] & -> & Hin).
    apply list_elem_of_omap in Hin as (k0 & Hk0 & Heq). simpl.
    destruct (slots s !! k0) as [slot0|]; [|done]. destruct (active slot0) as [a0|]; [|done].
    destruct (existsb _ _); [|done]. by injection Heq as -> ->.
  - intros sid a. rewrite list_elem_of_omap. split.
    + intros (k & Hk & Heq). destruct (slots s !! k) as [slot|] eqn:Hl; [|done].
      destruct (active slot) as [a'|] eqn:Ha; [|done]. destruct (existsb _ _) eqn:He; [|done].
      injection Heq as -> ->. eauto.
    + intros (slot & Hl & Ha & He). exists sid. rewrite elem_of_btree_keys, Hl, Ha, He. eauto.
Qed.

Lemma run_leases_spec s run_id rec :
  rec ∈ run_leases s run_id <-> exists k, enqueue_leases s !! k = Some rec /\
    lease_run_id (lease rec) = Some run_id.
Proof.
  unfold run_leases. rewrite elem_of_filter_bool, elem_of_map_values, bool_decide_eq_true.
  split; [intros [[k ?] ?]; eauto|intros (k & ? & ?); eauto].
Qed.

Lemma restated_some run_id m m' id i' :
  run_restated run_id m m' -> m' !! id = Some i' ->
  exists i, m !! id = Some i /\ i' = set_intent_state (intent_state i') i.
Proof.
  intros Hr Hl. specialize (Hr id). destruct (m !! id) as [i|]; [|congruence].
  destruct Hr as (st & Hl' & _). rewrite Hl in Hl'. injection Hl' as ->. eauto.
Qed.

Lemma restated_domain run_id m m' id :
  run_restated run_id m m' -> is_Some (m !! id) <-> is_Some (m' !! id).
Proof.
  intros Hr. specialize (Hr id). destruct (m !! id) as [i|].
  - destruct Hr as (st & -> & _). by split; eexists.
  - rewrite Hr. by split; intros [].
Qed.

(** After the first loop no intent of the run is in flight. *)
Lemma no_flight_left run_id s s1 id i :
  wf s -> wf s1 -> run_restated run_id (intents s) (intents s1) ->
  (forall sid, sid ∉ map fst (run_active_slots run_id s) -> slots s1 !! sid = slots s !! sid) ->
  (forall sid, sid ∈ map fst (run_active_slots run_id s) ->
     exists slot, slots s1 !! sid = Some slot /\ active slot = None) ->
  intents s1 !! id = Some i -> run_of run_id i = true -> in_flight i = false.
Proof.
  intros Hwf Hwf1 Hr Hout Hin Hi Hrun. apply not_true_iff_false. intros Hf.
  destruct (wf_home _ _ Hwf1 _ _ Hi) as [slot1 Hl1].
  destruct (sw_flight _ _ _ _ (wf_slots _ _ Hwf1 _ _ Hl1) id i Hi eq_refl Hf) as (a & Ha & Hid).
  destruct (decide (intent_slot_id i ∈ map fst (run_active_slots run_id s))) as [Hmem|Hmem].
  - destruct (Hin _ Hmem) as (slot & Hl & Hnone). congruence.
  - apply Hmem. rewrite (Hout _ Hmem) in Hl1. apply list_elem_of_fmap.
    exists (intent_slot_id i, a). split; [done|]. apply run_active_slots_spec.
    exists slot1. split_and!; try done. apply existsb_exists. exists id.
    split; [by apply list_elem_of_In|]. apply in_run_spec.
    destruct (restated_some _ _ _ _ _ Hr Hi) as (i0 & Hi0 & Heq). exists i0. split; [done|].
    by rewrite Heq in Hrun.
Qed.

Lemma cancel_run_spec run_id order s :
  wf s -> key_order order s ->
  exists res s', cancel_run run_id order s =
      Some (res, s', [ApplyWorkSummary (run_summary_locked s' run_id)]) /\ wf s' /\
    cancel_summary res = run_summary_locked s' run_id /\
    accounted run_id (intents s) (intents s') [] (cancel_terminal_message_ids res) /\
    (forall id i, intents s' !! id = Some i -> run_of run_id i = true ->
       WorkIntentState.is_terminal (intent_state i) = true) /\
    (forall k rec, enqueue_leases s' !! k = Some rec <->
       enqueue_leases s !! k = Some rec /\ lease_run_id (lease rec) <> Some run_id) /\
    cancel_targets res =
      map (fun x => mkBatchCancelTarget (batch (snd x)) (turn_id (snd x))) (run_active_slots run_id s).
Proof.
  intros Hwf Hord. unfold cancel_run.
  destruct (run_active_slots_spec run_id s) as [Hnd Hsl].
  destruct (cancel_slots_loop run_id (run_active_slots run_id s) s [] [] Hwf Hnd)
    as (s1 & m1 & -> & Hwf1 & Hacc1 & Hle1 & Hout1 & Hin1).
  { intros sid a (slot & Hl & Ha & _)%Hsl. eauto. }
  pose proof (proj1 Hacc1) as Hr1.
  assert (Hord1 : key_order order s1).
  { apply (key_order_ext order s); [|done]. intros id. by eapply restated_domain. }
  set (q := List.filter _ order).
  assert (Hq : forall id, id ∈ q <-> queued_of_run run_id s1 id = true).
  { intros id. unfold q. rewrite elem_of_filter_bool. fold (queued_of_run run_id s1 id).
    split; [by intros [_ ?]|]. intros Hqd. split; [|done]. apply Hord1.
    apply queued_of_run_true in Hqd as (i & -> & _). by eexists. }
  destruct (cancel_queued_loop run_id q s1 m1 Hwf1) as (s2 & m2 & -> & Hwf2 & Hacc2 & Hout2 & Hin2 & Hle2).
  { apply NoDup_filter_bool, Hord1. }
  { intros id. apply Hq. }
  rewrite drop_leases_loop. eexists _, _. split; [reflexivity|].
  assert (Hdel : forall k rec, run_list (fun m id => delete id m) (enqueue_leases s2)
      (map (fun r => lease_id (lease r)) (run_leases s2 run_id)) !! k = Some rec <->
      enqueue_leases s !! k = Some rec /\ lease_run_id (lease rec) <> Some run_id).
  { intros k rec. rewrite delete_all_lookup, Hle2, Hle1. case_bool_decide as Hk.
    - split; [done|]. intros [Hl Hne]. exfalso. apply Hne.
      apply list_elem_of_fmap in Hk as (r & -> & (k' & Hk' & Hr)%run_leases_spec).
      rewrite Hle2, Hle1 in Hk'. destruct (wf_leases _ _ Hwf _ _ Hk') as [Hid _].
      rewrite Hid in Hl. congruence.
    - split; [|tauto]. intros Hl. split; [done|]. intros Hr. apply Hk. apply list_elem_of_fmap.
      exists rec. destruct (wf_leases _ _ Hwf _ _ Hl) as [-> _]. split; [done|].
      apply run_leases_spec. exists k. by rewrite Hle2, Hle1. }
  split_and!; try done.
  - apply wf_set_leases; [done|]. intros k rec [Hl _]%Hdel. apply (wf_leases _ _ Hwf2).
    by rewrite Hle2, Hle1.
  - by eapply accounted_trans.
  - intros id i. cbn [intents set_leases]. intros Hi Hrun. apply not_false_iff_true. intros Ht.
    destruct (decide (id ∈ q)) as [Hid|Hid].
    + destruct (Hin2 id Hid) as (i' & Hi' & Hc). rewrite Hi in Hi'. injection Hi' as <-. by rewrite Hc in Ht.
    + rewrite (Hout2 id Hid) in Hi. apply Hid, Hq, queued_of_run_true. exists i. split_and!; try done.
      destruct (live_cases i Ht) as [?|Hf]; [done|].
      by rewrite (no_flight_left run_id s s1 id i Hwf Hwf1 Hr1 Hout1 Hin1 Hi Hrun) in Hf.
Qed.
End Settle.
