(* ===== verification/WorkTheorems.v ===== *)
(** * Properties of the work coordinator

    [coord_step] is one call of a method by any client of the coordinator; a
    client holds the batches it was given ([claimed]).  The theorems are about
    every state such calls reach from the empty one. *)

From stdpp Require Import pretty.
From S2P Require Import Prelude WorkModel WorkCoordinator WorkInvariant WorkPreserve WorkSettle.

Section Work.
Context (gen : string).

#[local] Abbreviation wf := (wf gen).

(** ** Calls *)

(** A call of any method but [acquire_enqueue], with the port calls it makes. *)
Inductive coord_call : CoordinatorState * list WorkBatch -> list PortCall ->
    CoordinatorState * list WorkBatch -> Prop :=
| call_commit l msg new now s cl :
    intents s !! new = None ->
    coord_call (s, cl) (snd (commit_enqueue gen l msg new now s))
      (snd (fst (commit_enqueue gen l msg new now s)), cl)
| call_abort l s cl :
    coord_call (s, cl) (snd (abort_enqueue gen l s)) (snd (fst (abort_enqueue gen l s)), cl)
| call_reconcile sid unread r fresh now s cl :
    Inj eq eq fresh -> fresh_ids fresh 0 s ->
    coord_call (s, cl) [] (snd (reconcile_mailbox gen sid unread r fresh now s), cl)
| call_next sid new s cl d s' calls :
    new ∉ map batch_id cl -> next gen sid new s = (d, s', calls) ->
    coord_call (s, cl) calls (s', match d with ReconcileDecision.Claim b => b :: cl | _ => cl end)
| call_start b t now s cl :
    b ∈ cl -> coord_call (s, cl) (snd (mark_started gen b t now s))
      (snd (fst (mark_started gen b t now s)), cl)
| call_retry b s cl :
    b ∈ cl -> coord_call (s, cl) (snd (retry_start gen b s)) (snd (fst (retry_start gen b s)), cl)
| call_complete b s cl :
    b ∈ cl -> coord_call (s, cl) (snd (complete_batch gen b s)) (snd (fst (complete_batch gen b s)), cl)
| call_fail b c s cl :
    b ∈ cl -> coord_call (s, cl) (snd (fail_batch gen b c s)) (snd (fst (fail_batch gen b c s)), cl)
| call_cancel_batch b c s cl :
    b ∈ cl -> coord_call (s, cl) (snd (cancel_batch gen b c s)) (snd (fst (cancel_batch gen b c s)), cl)
| call_cancel_run run_id order s cl res s' calls :
    key_order order s -> cancel_run run_id order s = Some (res, s', calls) ->
    coord_call (s, cl) calls (s', cl)
| call_signals sid ids s cl :
    coord_call (s, cl) (snd (complete_signals sid ids s)) (snd (fst (complete_signals sid ids s)), cl)
| call_pause sid s cl res s' :
    pause_slot sid s = Some (res, s') -> coord_call (s, cl) [] (s', cl)
| call_constraint sid c order s cl res s' calls :
    key_order order s -> set_runtime_constraint sid c order s = Some (res, s', calls) ->
    coord_call (s, cl) calls (s', cl)
| call_remove sid s cl res s' calls :
    remove_slot sid s = Some (res, s', calls) -> coord_call (s, cl) calls (s', cl)
| call_stop s cl :
    coord_call (s, cl) (snd (stop s)) (snd (fst (stop s)), cl).

Inductive coord_step : CoordinatorState * list WorkBatch -> CoordinatorState * list WorkBatch -> Prop :=
| step_acquire R (port : RunCausalityPort R) request run_id lid s cl r :
    coord_step (s, cl) (snd (fst (acquire_enqueue gen request run_id lid s r)), cl)
| step_call st calls st' :
    coord_call st calls st' -> coord_step st st'.

Definition reachable (st : CoordinatorState * list WorkBatch) : Prop :=
  rtc coord_step (CoordinatorState_default, []) st.

(** ** What no call but [next] does: give a slot another batch *)

(** Every batch active in [s'] was active in [s], in the same slot. *)
Definition keeps (s s' : CoordinatorState) : Prop :=
  (forall sid slot' a', slots s' !! sid = Some slot' -> active slot' = Some a' ->
     exists slot a, slots s !! sid = Some slot /\ active slot = Some a /\ batch a = batch a') /\
  next_operation_id s' = next_operation_id s.

Lemma keeps_refl s : keeps s s.
Proof. split; [eauto|done]. Qed.

Lemma keeps_trans s1 s2 s3 : keeps s1 s2 -> keeps s2 s3 -> keeps s1 s3.
Proof.
  intros [H1 N1] [H2 N2]. split; [|congruence]. intros sid slot3 a3 Hl3 Ha3.
  destruct (H2 _ _ _ Hl3 Ha3) as (slot2 & a2 & Hl2 & Ha2 & <-).
  destruct (H1 _ _ _ Hl2 Ha2) as (slot & a & ? & ? & <-). eauto.
Qed.

Lemma keeps_same s s' : slots s' = slots s -> next_operation_id s' = next_operation_id s -> keeps s s'.
Proof. intros Hs Hn. split; [|done]. rewrite Hs. eauto. Qed.

Lemma keeps_on_slot sid f s :
  (forall slot a', active (f slot) = Some a' -> exists a, active slot = Some a /\ batch a = batch a') ->
  keeps s (on_slot sid f s).
Proof.
  intros Hf. split; [|done]. intros k slot' a'. rewrite on_slot_lookup. case_bool_decide as Hk.
  - destruct (slots s !! k) as [slot|] eqn:Hl; [|done]. intros [= <-] Ha.
    destruct (Hf slot a' Ha) as (a & ? & ?). eauto.
  - eauto.
Qed.

Lemma keeps_entry sid r s slot s' : entry_slot sid r s = (slot, s') -> keeps s s'.
Proof.
  unfold entry_slot. destruct (slots s !! sid) as [slot0|] eqn:Hl; intros [= <- <-]; [apply keeps_refl|].
  split; [|done]. intros k slot' a'. simpl. destruct (decide (k = sid)) as [->|Hne].
  - rewrite lookup_insert_eq. by intros [= <-].
  - rewrite lookup_insert_ne by done. eauto.
Qed.

(** A write that overwrites the slot with an update of its present value. *)
Lemma keeps_entry_write sid r s slot s' f :
  entry_slot sid r s = (slot, s') -> active (f slot) = active slot ->
  keeps s (on_slot sid (fun _ => f slot) s').
Proof.
  intros He Hf. apply (keeps_trans _ s'); [by eapply keeps_entry|].
  assert (Hl : slots s' !! sid = Some slot).
  { unfold entry_slot in He. destruct (slots s !! sid) as [slot0|] eqn:Hl; injection He as <- <-; [done|].
    simpl. by rewrite lookup_insert_eq. }
  split; [|done]. intros k slot' a'. rewrite on_slot_lookup. case_bool_decide as Hk; [|eauto].
  subst k. rewrite Hl. intros [= <-]. rewrite Hf. eauto.
Qed.

Lemma keeps_run {X} (f : CoordinatorState -> X -> CoordinatorState) s l :
  (forall s x, keeps s (f s x)) -> keeps s (run_list f s l).
Proof.
  intros Hf. apply (run_list_invariant f (keeps s)); [apply keeps_refl|].
  intros s' x Hk _. by eapply keeps_trans.
Qed.

Lemma keeps_remove_queued sid id s : keeps s (on_slot sid (remove_queued id) s).
Proof. apply keeps_on_slot. eauto. Qed.

Lemma keeps_queue_mut sid p f s : keeps s (on_slot sid (queue_mut p f) s).
Proof. apply keeps_on_slot. intros slot a'. rewrite queue_mut_active. eauto. Qed.

Lemma keeps_mark_all ids st s : keeps s (mark_all ids st s).
Proof. apply keeps_same; [apply mark_all_slots|apply mark_all_next]. Qed.

Lemma keeps_set_active_none sid s : keeps s (on_slot sid (set_active None) s).
Proof. by apply keeps_on_slot. Qed.

Lemma acquire_keeps {R} `{RunCausalityPort R} request run_id lid s r :
  keeps s (snd (fst (acquire_enqueue gen request run_id lid s r))).
Proof.
  unfold acquire_enqueue. destruct (entry_slot _ _ s) as [slot s1] eqn:He.
  pose proof (keeps_entry_write _ _ _ _ _ (set_role (req_role request)) He eq_refl) as Hk.
  destruct (validate_enqueue_constraint _ _); [|done].
  match goal with |- context [let '(_, _) := ?x in _] => destruct x as [bound r'] end.
  eapply keeps_trans; [exact Hk|]. by apply keeps_same.
Qed.

Lemma commit_state_keeps l msg new now s : keeps s (commit_state gen l msg new now s).
Proof.
  unfold commit_state. eapply (keeps_trans _ (set_intents _ (set_leases _ s))); [by apply keeps_same|].
  apply keeps_on_slot. intros slot a'. rewrite queue_mut_active.
  destruct msg, (WorkSource.resumes_paused_slot _); eauto.
Qed.

Lemma commit_keeps l msg new now s : keeps s (snd (fst (commit_enqueue gen l msg new now s))).
Proof.
  unfold commit_enqueue. destruct (result_bind _ _); [|apply keeps_refl].
  destruct (slot_snapshot_locked _ _); apply commit_state_keeps.
Qed.

Lemma abort_keeps l s : keeps s (snd (fst (abort_enqueue gen l s))).
Proof.
  unfold abort_enqueue. destruct (enqueue_leases s !! lease_id l); [|apply keeps_refl].
  destruct (_ || _); by apply keeps_same.
Qed.

Lemma candidate_keeps unread acc id : keeps (fst (fst acc)) (fst (fst (reconcile_candidate unread acc id))).
Proof.
  destruct acc as [[s r] c]. unfold reconcile_candidate.
  destruct (intents s !! id) as [i|]; [|apply keeps_refl].
  destruct (mailbox_message_id i); [|apply keeps_refl].
  case_bool_decide; [apply keeps_refl|by apply keeps_same].
Qed.

Lemma unread_keeps sid r fresh now acc x :
  keeps (fst acc) (fst (reconcile_unread gen sid r fresh now acc x)).
Proof.
  destruct acc as [s c]. unfold reconcile_unread. destruct (existsb _ _); [apply keeps_refl|].
  eapply (keeps_trans _ (set_intents _ s)); [by apply keeps_same|]. apply keeps_queue_mut.
Qed.

Lemma reconcile_keeps sid unread r fresh now s :
  keeps s (snd (reconcile_mailbox gen sid unread r fresh now s)).
Proof.
  unfold reconcile_mailbox, reconcile_clear. destruct (entry_slot sid r s) as [slot s1] eqn:He.
  pose proof (keeps_entry_write _ _ _ _ _ (fun sl => set_known (list_to_set unread) (set_role r sl)) He eq_refl) as Hk.
  match goal with |- context [run_list (reconcile_candidate ?u) (?s2, [], []) ?ids] =>
    pose proof (run_list_invariant (reconcile_candidate u) (fun acc => keeps s (fst (fst acc))) (s2, [], []) ids Hk
      ltac:(intros acc id Ha _; by eapply keeps_trans, candidate_keeps)) as Hc;
    destruct (run_list (reconcile_candidate u) (s2, [], []) ids) as [[s3 retained] cleared] end.
  simpl in Hc.
  assert (Hr : keeps s (run_list (fun s id => on_slot sid (remove_queued id) s) s3 cleared))
    by (eapply keeps_trans; [exact Hc|apply keeps_run; intros; apply keeps_remove_queued]).
  match goal with |- context [run_list (reconcile_unread ?g ?a ?b ?f ?n) (?s4, []) ?l] =>
    pose proof (run_list_invariant (reconcile_unread g a b f n) (fun acc => keeps s (fst acc)) (s4, []) l Hr
      ltac:(intros acc x Ha _; by eapply keeps_trans, unread_keeps)) as Hu;
    destruct (run_list (reconcile_unread g a b f n) (s4, []) l) as [s5 created] end.
  exact Hu.
Qed.

Lemma start_keeps b t now s : keeps s (snd (fst (mark_started gen b t now s))).
Proof.
  unfold mark_started. destruct (negb _); [by destruct (forallb _ _); apply keeps_refl|].
  eapply keeps_trans; [apply keeps_mark_all|]. apply keeps_on_slot. intros slot a'. simpl.
  destruct (active slot) as [a|]; simpl; [intros [= <-]; eauto|done].
Qed.

Lemma retry_keeps b s : keeps s (snd (fst (retry_start gen b s))).
Proof.
  unfold retry_start. destruct (negb _); [apply keeps_refl|].
  eapply keeps_trans; [apply keeps_mark_all|]. eapply keeps_trans; [apply keeps_set_active_none|].
  apply keeps_run. intros. apply keeps_queue_mut.
Qed.

Lemma terminalize_keeps b st s : keeps s (snd (fst (terminalize_batch gen b st s))).
Proof.
  unfold terminalize_batch. destruct (negb _); [apply keeps_refl|].
  eapply keeps_trans; [apply keeps_mark_all|]. apply keeps_set_active_none.
Qed.

Lemma cancel_active_intent_keeps run_id acc id acc' :
  cancel_active_intent run_id acc id = Some acc' -> keeps (fst (fst acc)) (fst (fst acc')).
Proof.
  destruct acc as [[s m] r]. unfold cancel_active_intent. destruct (intents s !! id); [|done].
  intros [= <-]. destruct (run_of _ _); by apply keeps_same.
Qed.

Lemma cancel_active_slot_keeps run_id acc x acc' :
  cancel_active_slot run_id acc x = Some acc' -> keeps (fst (fst acc)) (fst (fst acc')).
Proof.
  destruct acc as [[s t] m], x as [sid a]. unfold cancel_active_slot.
  destruct (try_fold _ _ _) as [[[s1 m1] ret]|] eqn:Hf; [|done]. intros [= <-]. simpl.
  assert (Hk : keeps s s1).
  { apply (try_fold_invariant (cancel_active_intent run_id) (fun acc => keeps s (fst (fst acc)))
      (s, m, []) (intent_ids (batch a)) (s1, m1, ret)); [apply keeps_refl| |done].
    intros acc i acc' Hk Hst. eapply keeps_trans; [exact Hk|by eapply cancel_active_intent_keeps]. }
  eapply keeps_trans; [exact Hk|]. eapply keeps_trans; [apply keeps_set_active_none|].
  apply keeps_run. intros. apply keeps_queue_mut.
Qed.

Lemma cancel_run_keeps run_id order s res s' calls :
  cancel_run run_id order s = Some (res, s', calls) -> keeps s s'.
Proof.
  unfold cancel_run. destruct (try_fold _ _ _) as [[[s1 t1] m1]|] eqn:Hf; [|done].
  assert (Hk : keeps s s1).
  { apply (try_fold_invariant (cancel_active_slot run_id) (fun acc => keeps s (fst (fst acc)))
      (s, [], []) (run_active_slots run_id s) (s1, t1, m1)); [apply keeps_refl| |done].
    intros acc i acc' Hk Hst. eapply keeps_trans; [exact Hk|by eapply cancel_active_slot_keeps]. }
  match goal with |- context [run_list cancel_queued_intent (s1, m1) ?l] =>
    pose proof (run_list_invariant cancel_queued_intent (fun acc => keeps s (fst acc)) (s1, m1) l Hk
      ltac:(intros [s2 m2] id Ha _; unfold cancel_queued_intent;
        destruct (intents s2 !! id); [|done]; eapply keeps_trans; [exact Ha|];
        eapply keeps_trans; [|apply keeps_remove_queued]; by apply keeps_same)) as Hc;
    destruct (run_list cancel_queued_intent (s1, m1) l) as [s3 m3] end.
  rewrite drop_leases_loop. intros [= _ <- _]. eapply keeps_trans; [exact Hc|]. by apply keeps_same.
Qed.

Lemma signals_keeps sid ids s : keeps s (snd (fst (complete_signals sid ids s))).
Proof.
  unfold complete_signals. destruct (negb _); [apply keeps_refl|].
  apply keeps_run. intros t id. eapply (keeps_trans _ (on_intent _ _ t)); [by apply keeps_same|].
  apply keeps_remove_queued.
Qed.

Lemma pause_keeps sid s res s' : pause_slot sid s = Some (res, s') -> keeps s s'.
Proof.
  unfold pause_slot. destruct (entry_slot _ _ s) as [slot s1] eqn:He.
  destruct (slot_snapshot_locked _ _); [|done]. intros [= _ <-].
  eapply keeps_trans; [by eapply keeps_entry|]. apply keeps_on_slot. eauto.
Qed.

Lemma constraint_keeps sid c order s res s' calls :
  set_runtime_constraint sid c order s = Some (res, s', calls) -> keeps s s'.
Proof.
  unfold set_runtime_constraint. destruct (entry_slot _ _ s) as [slot s1] eqn:He.
  assert (Hk : keeps s (on_slot sid (set_constraint c) s1)).
  { eapply keeps_trans; [by eapply keeps_entry|]. apply keeps_on_slot. eauto. }
  set (s2 := on_slot sid (set_constraint c) s1) in *.
  assert (Hset : forall stopped final, final <> WorkIntentState.Queued ->
    keeps s (fst (fst (let '(s, requeue, run_ids, msgs) :=
       run_list (constrain_intent stopped final) (s2, [], [], []) (live_ids sid order s2) in
     (run_list (requeue_back sid) (on_slot sid clear_work s) requeue, run_ids, msgs))))).
  { intros stopped final Hf. rewrite constrain_closed by done. simpl.
    destruct (mark_each_frame (constrained stopped final) (live_ids sid order s2) s2) as (F1 & _ & F3).
    eapply keeps_trans; [exact Hk|]. eapply keeps_trans; [by apply (keeps_same _ _ F1 F3)|].
    eapply keeps_trans; [apply (keeps_on_slot sid clear_work); done|].
    apply keeps_run. intros. apply keeps_queue_mut. }
  pose proof (Hset true (WorkIntentState.Cancelled "session_stopped") ltac:(done)) as H1.
  destruct c as [|op|op cl|op|].
  1, 2, 4: destruct (slot_snapshot_locked _ _); [|done]; by intros [= _ <- _].
  - pose proof (Hset false (WorkIntentState.Failed cl) ltac:(done)) as H2.
    destruct (run_list (constrain_intent false _) _ _) as [[[t1 t2] t3] t4]. simpl in H2.
    destruct (slot_snapshot_locked _ _); [|done]. by intros [= _ <- _].
  - destruct (run_list (constrain_intent true _) _ _) as [[[t1 t2] t3] t4]. simpl in H1.
    destruct (slot_snapshot_locked _ _); [|done]. by intros [= _ <- _].
Qed.

Lemma remove_keeps sid s res s' calls : remove_slot sid s = Some (res, s', calls) -> keeps s s'.
Proof.
  unfold remove_slot. destruct (try_fold _ _ _) as [[[s1 m1] r1]|] eqn:Hf; [|done].
  intros [= _ <- _]. eapply (keeps_trans _ s1); [|by apply keeps_on_slot].
  apply (try_fold_invariant remove_intent (fun acc => keeps s (fst (fst acc)))
    (s, [], []) (remove_ids sid s) (s1, m1, r1)); [apply keeps_refl| |done].
  intros [[t m] r] id acc' Hk. unfold remove_intent. destruct (intents t !! id); [|done].
  intros [= <-]. eapply keeps_trans; [exact Hk|]. by apply keeps_same.
Qed.

Lemma stop_keeps s : keeps s (snd (fst (stop s))).
Proof.
  split; [|done]. intros sid slot' a'. simpl. rewrite lookup_fmap.
  destruct (slots s !! sid); [|done]. by intros [= <-].
Qed.

(** ** The invariant of the reachable states *)

Record system_ok (st : CoordinatorState * list WorkBatch) : Prop := {
  so_wf : wf (fst st);
  so_claimed : forall sid slot a, slots (fst st) !! sid = Some slot -> active slot = Some a ->
    batch a ∈ snd st;
  so_unique : NoDup (map batch_id (snd st));
  so_ops : forall b, b ∈ snd st -> (operation_id b <= next_operation_id (fst st))%N;
}.

Lemma unique_batch (cl : list WorkBatch) b b' :
  NoDup (map batch_id cl) -> b ∈ cl -> b' ∈ cl -> batch_id b = batch_id b' -> b = b'.
Proof.
  induction cl as [|x cl IH]; intros Hnd Hb Hb' Heq; [by apply elem_of_nil in Hb|].
  apply list.NoDup_cons in Hnd as [Hx Hnd].
  apply elem_of_cons in Hb as [->|Hb]; apply elem_of_cons in Hb' as [->|Hb']; try done.
  - exfalso. apply Hx. apply list_elem_of_fmap. eauto.
  - exfalso. apply Hx. rewrite <- Heq. apply list_elem_of_fmap. eauto.
  - by apply IH.
Qed.

Lemma claimed_authentic st b : system_ok st -> b ∈ snd st -> authentic (fst st) b.
Proof.
  intros Hok Hb slot a Hl Ha Hid. apply (unique_batch (snd st)); [apply Hok| |done|done].
  by eapply so_claimed.
Qed.

Lemma keeps_ok s s' cl : system_ok (s, cl) -> keeps s s' -> wf s' -> system_ok (s', cl).
Proof.
  intros [_ H2 H3 H4] [K1 K2] Hwf. split; simpl in *; try done.
  - intros sid slot' a' Hl' Ha'. destruct (K1 _ _ _ Hl' Ha') as (slot & a & Hl & Ha & <-). eauto.
  - by rewrite K2.
Qed.

Lemma succ_saturating_le n : (n <= u64_max -> n <= u64_succ_saturating n)%N.
Proof. unfold u64_succ_saturating, u64_saturating_add. lia. Qed.

Lemma succ_saturating_bound n : (u64_succ_saturating n <= u64_max)%N.
Proof. unfold u64_succ_saturating, u64_saturating_add. lia. Qed.

Lemma coord_step_ok st st' :
  (next_operation_id (fst st) <= u64_max)%N -> system_ok st -> coord_step st st' ->
  system_ok st' /\ (next_operation_id (fst st') <= u64_max)%N.
Proof.
  intros Hn Hok Hst.
  assert (Hkeep : forall s', keeps (fst st) s' -> wf s' ->
    system_ok (s', snd st) /\ (next_operation_id s' <= u64_max)%N).
  { intros s' Hk Hwf. split; [destruct st; by eapply keeps_ok|]. destruct Hk as [_ ->]. done. }
  pose proof (so_wf _ Hok) as Hwf. pose proof (fun b => claimed_authentic st b Hok) as Hau.
  destruct Hst as [R port request run_id lid s cl r|st calls st' Hst]; [|destruct Hst]; simpl in *.
  - apply Hkeep; [apply acquire_keeps|by apply acquire_wf].
  - apply Hkeep; [apply commit_keeps|by apply commit_wf].
  - apply Hkeep; [apply abort_keeps|by apply abort_wf].
  - apply Hkeep; [apply reconcile_keeps|by apply reconcile_wf].
  - destruct (next_cases gen sid new s) as [(d' & Heq & Hd)|(b & s1 & calls1 & slot & slot' & Heq & Hc)].
    + rewrite Heq in H0. injection H0 as <- <- _. by destruct d'.
    + rewrite Heq in H0. injection H0 as <- <- _.
      pose proof (claim_preserves _ _ _ _ _ _ _ _ Hwf Hc) as Hwf'.
      destruct Hc as [C1 C2 C3 C4 C5 C6 C7 C8 C9 C10 C11 C12 C13 C14].
      assert (Hbid : batch_id b = new /\ operation_id b = u64_succ_saturating (next_operation_id s))
        by (rewrite C8; done).
      destruct Hbid as [Hbid Hop]. destruct Hok as [O1 O2 O3 O4]. split; [split|]; simpl in *.
      * done.
      * intros k slot0 a0. rewrite C9. destruct (decide (k = sid)) as [->|Hne].
        -- rewrite lookup_insert_eq. intros [= <-]. rewrite C10. intros [= <-]. apply list_elem_of_here.
        -- rewrite lookup_insert_ne by done. intros Hl Ha. apply list_elem_of_further. eauto.
      * constructor; [by rewrite Hbid|done].
      * rewrite C14. intros b' [->|Hb']%elem_of_cons; [by rewrite Hop|].
        pose proof (O4 b' Hb'). pose proof (succ_saturating_le _ Hn). lia.
      * rewrite C14. apply succ_saturating_bound.
  - apply Hkeep; [apply start_keeps|apply mark_started_wf; auto].
  - apply Hkeep; [apply retry_keeps|apply retry_wf; auto].
  - apply Hkeep; [apply terminalize_keeps|apply terminalize_wf; auto].
  - apply Hkeep; [apply terminalize_keeps|apply terminalize_wf; auto].
  - apply Hkeep; [apply terminalize_keeps|apply terminalize_wf; auto].
  - destruct (cancel_run_spec gen run_id order s Hwf H) as (res' & s1 & Heq & Hwf' & _).
    rewrite Heq in H0. pose proof (cancel_run_keeps _ _ _ _ _ _ Heq). injection H0 as <- <- _. auto.
  - apply Hkeep; [apply signals_keeps|by apply complete_signals_wf].
  - destruct (pause_spec gen sid s Hwf) as (res' & s1 & Heq & Hwf' & _).
    rewrite Heq in H. pose proof (pause_keeps _ _ _ _ Heq). injection H as <- <-. auto.
  - destruct (set_constraint_spec gen sid c order s Hwf H) as (res' & s1 & calls' & Heq & Hwf' & _).
    rewrite Heq in H0. pose proof (constraint_keeps _ _ _ _ _ _ _ Heq). injection H0 as <- <- _. auto.
  - destruct (remove_slot_spec gen sid s Hwf) as (res' & s1 & calls' & Heq & Hwf' & _).
    rewrite Heq in H. pose proof (remove_keeps _ _ _ _ _ Heq). injection H as <- <- _. auto.
  - exact (Hkeep _ (stop_keeps s) (stop_wf gen s Hwf)).
Qed.

Lemma initial_ok : system_ok (CoordinatorState_default, []).
Proof.
  split; simpl.
  - split; intros *; simpl; rewrite lookup_empty; done.
  - intros *. by rewrite lookup_empty.
  - constructor.
  - by intros b ?%elem_of_nil.
Qed.

Lemma reachable_ok st : reachable st -> system_ok st /\ (next_operation_id (fst st) <= u64_max)%N.
Proof.
  unfold reachable. intros Hr.
  assert (Hinit : system_ok (CoordinatorState_default, []) /\
    (next_operation_id (fst (CoordinatorState_default, @nil WorkBatch)) <= u64_max)%N)
    by (split; [apply initial_ok|done]).
  induction Hr as [|x y z Hxy _ IH]; [done|]. apply IH. destruct Hinit. by eapply coord_step_ok.
Qed.

(** ** Settled intents stay settled *)

(** Every intent of [m] is in [m'] with at most its state changed, and with
    its state if that was terminal. *)
Definition evolves (m m' : gmap string WorkIntent) : Prop :=
  forall id i, m !! id = Some i -> exists st, m' !! id = Some (set_intent_state st i) /\
    (WorkIntentState.is_terminal (intent_state i) = true -> st = intent_state i).

Lemma evolves_refl m : evolves m m.
Proof. intros id i Hl. exists (intent_state i). by rewrite set_own_state. Qed.

Lemma evolves_trans m1 m2 m3 : evolves m1 m2 -> evolves m2 m3 -> evolves m1 m3.
Proof.
  intros H1 H2 id i Hl. destruct (H1 id i Hl) as (st & Hl2 & Hst).
  destruct (H2 id _ Hl2) as (st' & Hl3 & Hst'). exists st'. split; [done|].
  intros Ht. specialize (Hst Ht). subst st. apply Hst'. done.
Qed.

Lemma evolves_keep m m' : (forall id i, m !! id = Some i -> m' !! id = Some i) -> evolves m m'.
Proof. intros H id i Hl%H. exists (intent_state i). by rewrite set_own_state. Qed.

Lemma marked_evolves ids g m m' :
  marked ids g m m' ->
  (forall id i, id ∈ ids -> m !! id = Some i -> WorkIntentState.is_terminal (intent_state i) = false) ->
  evolves m m'.
Proof.
  intros Hm Hids id i Hl. destruct (decide (id ∈ ids)) as [Hin|Hout].
  - rewrite (marked_in _ _ _ _ _ _ Hm Hin Hl). eexists. split; [done|].
    by rewrite (Hids id i Hin Hl).
  - rewrite (marked_out _ _ _ _ _ Hm Hout). exists (intent_state i). by rewrite set_own_state.
Qed.

Lemma owner_evolves s b st :
  wf s -> authentic s b -> is_current_batch gen s b = true ->
  evolves (intents s) (intents (mark_all (intent_ids b) st s)).
Proof.
  intros Hwf Hau Hc. destruct (current_owner gen _ _ Hau Hc) as (slot & a & Hl & Ha & Hab).
  eapply marked_evolves; [apply mark_all_marked|]. rewrite <- Hab. intros id i Hid Hi.
  destruct (active_in_flight gen s _ slot a Hwf Hl Ha id Hid) as (i' & Hi' & Hf).
  rewrite Hi in Hi'. injection Hi' as <-. by apply in_flight_live.
Qed.

Lemma run_on_slot_intents {X} sid (f : X -> SlotState -> SlotState) s l :
  intents (run_list (fun s x => on_slot sid (f x) s) s l) = intents s.
Proof. by rewrite run_on_slot. Qed.

Lemma reconcile_evolves sid unread r fresh now s :
  wf s -> Inj eq eq fresh -> fresh_ids fresh 0 s ->
  evolves (intents s) (intents (snd (reconcile_mailbox gen sid unread r fresh now s))).
Proof.
  intros Hwf Hinj Hf. unfold reconcile_mailbox.
  destruct (reconcile_clear sid unread r s) as [[s1 retained] cleared] eqn:Hc.
  destruct (clear_closed gen _ _ _ _ _ _ _ Hwf Hc) as
    (slot & slot' & Hwf1 & Hl1 & Hold & Hcl & _ & Hm & _).
  destruct (unread_loop gen sid r fresh now s1 [] unread slot' Hwf1 Hl1 Hinj)
    as (s2 & c2 & -> & _ & _ & _ & _ & Hkeep & _).
  { intros k Hk. rewrite Hm. by rewrite (Hf k Hk). }
  eapply evolves_trans; [|by apply evolves_keep].
  eapply marked_evolves; [exact Hm|]. intros id i Hid Hi. rewrite Hcl in Hid.
  apply elem_of_filter_bool in Hid as [[p Hid]%queued_ids_elem _].
  destruct Hold as [Hl|[_ ->]]; [|by destruct p; apply elem_of_nil in Hid].
  apply (sw_queue _ _ _ _ (wf_slots _ _ Hwf _ _ Hl)) in Hid as (i' & Hi' & Hst & _).
  rewrite Hi in Hi'. injection Hi' as <-. by rewrite Hst.
Qed.

Lemma entry_intents sid r s slot s' : entry_slot sid r s = (slot, s') -> intents s' = intents s.
Proof. unfold entry_slot. by destruct (slots s !! sid); intros [= _ <-]. Qed.

Lemma coord_step_evolves st st' :
  system_ok st -> coord_step st st' -> evolves (intents (fst st)) (intents (fst st')).
Proof.
  intros Hok Hst. pose proof (so_wf _ Hok) as Hwf.
  pose proof (fun b => claimed_authentic st b Hok) as Hau.
  destruct Hst as [R port request run_id lid s cl r|st calls st' Hst]; [|destruct Hst]; simpl in *.
  - unfold acquire_enqueue. destruct (entry_slot _ _ s) as [slot s1] eqn:He.
    pose proof (entry_intents _ _ _ _ _ He) as Hi.
    destruct (validate_enqueue_constraint _ _); simpl; [|rewrite Hi; apply evolves_refl].
    match goal with |- context [let '(_, _) := ?x in _] => destruct x as [bound r'] end.
    simpl. rewrite Hi. apply evolves_refl.
  - unfold commit_enqueue. destruct (result_bind _ _); [|apply evolves_refl].
    assert (evolves (intents s) (intents (commit_state gen l msg new now s))).
    { apply evolves_keep. intros id i Hl. simpl. rewrite lookup_insert_ne; [done|]. congruence. }
    by destruct (slot_snapshot_locked _ _).
  - unfold abort_enqueue. destruct (enqueue_leases s !! lease_id l); [|apply evolves_refl].
    destruct (_ || _); apply evolves_refl.
  - by apply reconcile_evolves.
  - destruct (next_cases gen sid new s) as [(d' & Heq & Hd)|(b & s1 & calls1 & slot & slot' & Heq & Hc)];
      rewrite Heq in H0; injection H0 as <- <- _; [apply evolves_refl|].
    eapply marked_evolves; [apply (cl_marked _ _ _ _ _ _ _ _ Hc)|]. intros id i Hid Hi.
    destruct (claim_ids_queued _ _ _ _ _ _ _ _ _ Hc Hid) as [Hq _].
    apply (sw_queue _ _ _ _ (wf_slots _ _ Hwf _ _ (cl_slot _ _ _ _ _ _ _ _ Hc))) in Hq
      as (i' & Hi' & Hst & _). rewrite Hi in Hi'. injection Hi' as <-. by rewrite Hst.
  - unfold mark_started. destruct (is_current_batch gen s b) eqn:Hc; simpl.
    2:{ destruct (forallb _ _); apply evolves_refl. } by apply owner_evolves; auto.
  - unfold retry_start. destruct (is_current_batch gen s b) eqn:Hc; simpl; [|apply evolves_refl].
    rewrite run_on_slot_intents. by apply owner_evolves; auto.
  - unfold complete_batch, terminalize_batch. destruct (is_current_batch gen s b) eqn:Hc; simpl;
      [by apply owner_evolves; auto|apply evolves_refl].
  - unfold fail_batch, terminalize_batch. destruct (is_current_batch gen s b) eqn:Hc; simpl;
      [by apply owner_evolves; auto|apply evolves_refl].
  - unfold cancel_batch, terminalize_batch. destruct (is_current_batch gen s b) eqn:Hc; simpl;
      [by apply owner_evolves; auto|apply evolves_refl].
  - destruct (cancel_run_spec gen run_id order s Hwf H) as (res' & s1 & Heq & _ & _ & [Hr _] & _).
    rewrite Heq in H0. injection H0 as <- <- _. intros id i Hi. specialize (Hr id). rewrite Hi in Hr.
    destruct Hr as (st & Hl & Hcase). exists st. split; [done|]. intros Ht.
    destruct Hcase as [?|[Ht' _]]; [done|congruence].
  - unfold complete_signals. destruct (forallb (valid_signal sid s) ids) eqn:Hv; simpl; [|apply evolves_refl].
    rewrite signals_closed. simpl. eapply marked_evolves; [by apply mark_each_lookup|].
    intros id i Hid Hi. rewrite forallb_forall in Hv.
    apply list_elem_of_In, Hv, valid_signal_spec in Hid as (i' & Hi' & _ & _ & Hst).
    rewrite Hi in Hi'. injection Hi' as <-. by rewrite Hst.
  - destruct (pause_spec gen sid s Hwf) as (res' & s1 & Heq & _ & Hi).
    rewrite Heq in H. injection H as <- <-. rewrite Hi. apply evolves_refl.
  - destruct (set_constraint_spec gen sid c order s Hwf H) as (res' & s1 & calls' & Heq & _ & Hm).
    rewrite Heq in H0. injection H0 as <- <- _.
    assert (Hlive : forall id i, id ∈ live_ids sid order s -> intents s !! id = Some i ->
      WorkIntentState.is_terminal (intent_state i) = false).
    { intros id i Hid Hi. apply (live_ids_spec sid order s H) in Hid as (i' & Hi' & _ & Ht). congruence. }
    destruct c; try (rewrite Hm; apply evolves_refl); destruct Hm as [Hm _]; by eapply marked_evolves.
  - destruct (remove_slot_spec gen sid s Hwf) as (res' & s1 & calls' & Heq & _ & Hm & _).
    rewrite Heq in H. injection H as <- <- _. eapply marked_evolves; [exact Hm|].
    intros id i Hid Hi. apply (remove_ids_live gen s sid Hwf) in Hid as (i' & Hi' & _ & Ht). congruence.
  - intros id i Hi. exists (intent_state (stop_intent i)).
    change (stop_intent <$> intents s) with (intents (snd (fst (stop s)))). rewrite stop_intents, Hi.
    unfold stop_intent. simpl.
    destruct (WorkIntentState.is_terminal (intent_state i)) eqn:Ht; simpl; [by rewrite set_own_state|done].
Qed.

Lemma coord_step_keeps st st' :
  system_ok st -> coord_step st st' ->
  (keeps (fst st) (fst st') /\ snd st' = snd st) \/
  exists sid b slot', snd st' = b :: snd st /\ slots (fst st') = <[sid := slot']> (slots (fst st)) /\
    active slot' = Some (mkActiveBatch b None None) /\ ~ (batch_id b ∈ map batch_id (snd st)) /\
    operation_id b = u64_succ_saturating (next_operation_id (fst st)).
Proof.
  intros Hok Hst. destruct Hst as [R port request run_id lid s cl r|st calls st' Hst]; [|destruct Hst]; simpl.
  - left. split; [apply acquire_keeps|done].
  - left. split; [apply commit_keeps|done].
  - left. split; [apply abort_keeps|done].
  - left. split; [apply reconcile_keeps|done].
  - destruct (next_cases gen sid new s) as [(d' & Heq & Hd)|(b & s1 & calls1 & slot & slot' & Heq & Hc)];
      rewrite Heq in H0; injection H0 as <- <- _.
    + left. split; [apply keeps_refl|by destruct d'].
    + right. exists sid, b, slot'. destruct Hc as [C1 C2 C3 C4 C5 C6 C7 C8 C9 C10 C11 C12 C13 C14].
      assert (Hb : batch_id b = new) by (by rewrite C8). split_and!; try done; [by rewrite Hb|by rewrite C8].
  - left. split; [apply start_keeps|done].
  - left. split; [apply retry_keeps|done].
  - left. split; [apply terminalize_keeps|done].
  - left. split; [apply terminalize_keeps|done].
  - left. split; [apply terminalize_keeps|done].
  - left. split; [by eapply cancel_run_keeps|done].
  - left. split; [apply signals_keeps|done].
  - left. split; [by eapply pause_keeps|done].
  - left. split; [by eapply constraint_keeps|done].
  - left. split; [by eapply remove_keeps|done].
  - left. split; [apply stop_keeps|done].
Qed.

Lemma current_stays_away st st' b :
  system_ok st -> system_ok st' -> coord_step st st' -> b ∈ snd st ->
  is_current_batch gen (fst st) b = false -> is_current_batch gen (fst st') b = false.
Proof.
  intros Hok Hok' Hst Hb Hnc. apply not_true_iff_false. intros Hc.
  assert (Hb' : b ∈ snd st').
  { destruct (coord_step_keeps _ _ Hok Hst) as [[_ ->]|(sid & b1 & slot' & -> & _)]; [done|].
    by apply list_elem_of_further. }
  destruct (current_owner gen _ b (claimed_authentic st' b Hok' Hb') Hc) as (slot' & a' & Hl' & Ha' & Hab).
  apply not_true_iff_false in Hnc. apply Hnc.
  destruct (coord_step_keeps _ _ Hok Hst) as [[[K _] _]|(sid & b1 & slot1 & _ & Hs & Ha1 & Hnew & _)].
  - destruct (K _ _ _ Hl' Ha') as (slot & a & Hl & Ha & Heq). rewrite Hab in Heq.
    apply (owner_current gen _ b slot a); [apply Hok|done].
  - rewrite Hs in Hl'. destruct (decide (batch_slot_id b = sid)) as [<-|Hne].
    + rewrite lookup_insert_eq in Hl'. injection Hl' as ->. rewrite Ha1 in Ha'. injection Ha' as <-.
      simpl in Hab. subst b1. exfalso. apply Hnew. apply list_elem_of_fmap. eauto.
    + rewrite lookup_insert_ne in Hl' by done.
      apply (owner_current gen _ b slot' a'); [apply Hok|done].
Qed.

Lemma claimed_grows st st' b : system_ok st -> coord_step st st' -> b ∈ snd st -> b ∈ snd st'.
Proof.
  intros Hok Hst Hb. destruct (coord_step_keeps _ _ Hok Hst) as [[_ ->]|(sid & b1 & slot' & -> & _)]; [done|].
  by apply list_elem_of_further.
Qed.

(** ** Where the intents of a well-formed state are *)

Lemma queue_mem s sid slot p id :
  wf s -> slots s !! sid = Some slot ->
  id ∈ queue slot p <-> queued_at (intents s) sid p id.
Proof. intros Hwf Hl. apply (sw_queue gen _ _ _ (wf_slots _ _ Hwf _ _ Hl)). Qed.

Lemma NoDup_queued_ids s sid slot : wf s -> slots s !! sid = Some slot -> NoDup (queued_ids slot).
Proof.
  intros Hwf Hl. pose proof (wf_slots _ _ Hwf _ _ Hl) as Hsw. pose proof (sw_nodup _ _ _ _ Hsw) as Hnd.
  assert (Hdis : forall p q id, p <> q -> id ∈ queue slot p -> id ∉ queue slot q).
  { intros p q id Hne (i & Hi & _ & _ & Hp)%(queue_mem _ _ _ _ _ Hwf Hl) (i' & Hi' & _ & _ & Hp')%(queue_mem _ _ _ _ _ Hwf Hl).
    congruence. }
  unfold queued_ids. apply list.NoDup_app. split; [apply (Hnd WorkPriority.Foreground)|]. split.
  - intros id Hid [?|?]%elem_of_app; [by eapply (Hdis WorkPriority.Foreground WorkPriority.Control)|
      by eapply (Hdis WorkPriority.Foreground WorkPriority.Background)].
  - apply list.NoDup_app. split; [apply (Hnd WorkPriority.Control)|]. split; [|apply (Hnd WorkPriority.Background)].
    intros id Hid ?. by eapply (Hdis WorkPriority.Control WorkPriority.Background).
Qed.

Lemma not_queued s sid slot id i :
  wf s -> slots s !! sid = Some slot -> intents s !! id = Some i ->
  intent_state i <> WorkIntentState.Queued -> id ∉ queued_ids slot.
Proof.
  intros Hwf Hl Hi Hst [p (i' & Hi' & Hst' & _)%(queue_mem _ _ _ _ _ Hwf Hl)]%queued_ids_elem. congruence.
Qed.

(** ** Counts *)

Lemma omap_none {A B} (f : A -> option B) (l : list A) :
  omap f l = [] <-> forall x, x ∈ l -> f x = None.
Proof.
  induction l as [|y l IH]; [by split; [intros _ x ?%elem_of_nil|]|]. csimpl. split.
  - destruct (f y) eqn:Hy; [done|]. intros Hl x [->|Hx]%elem_of_cons; [done|]. by apply IH.
  - intros H. rewrite (H y (list_elem_of_here _ _)). apply IH. intros x Hx. apply H. by apply list_elem_of_further.
Qed.

Lemma count_zero {A} (p : A -> bool) l : count p l = 0 <-> forall x, x ∈ l -> p x = false.
Proof.
  unfold count. induction l as [|y l IH]; simpl; [by split; [intros _ x ?%elem_of_nil|]|]. split.
  - destruct (p y) eqn:Hy; [done|]. intros Hl x [->|Hx]%elem_of_cons; [done|]. by apply IH.
  - intros H. rewrite (H y (list_elem_of_here _ _)). apply IH. intros x Hx. apply H. by apply list_elem_of_further.
Qed.

Lemma distinct_zero (l : list string) : length (remove_dups l) = 0 <-> l = [].
Proof.
  split; [|by intros ->]. intros H%length_zero_iff_nil. destruct l as [|x l]; [done|].
  assert (x ∈ remove_dups (x :: l)) as Hin by (apply elem_of_remove_dups, list_elem_of_here).
  rewrite H in Hin. by apply elem_of_nil in Hin.
Qed.

Lemma elem_of_run_intents s run_id i :
  i ∈ run_intents s run_id <-> exists id, intents s !! id = Some i /\ intent_run_id i = Some run_id.
Proof.
  unfold run_intents, run_of. rewrite elem_of_filter_bool, elem_of_map_values, bool_decide_eq_true.
  split; [intros [[k ?] ?]; eauto|intros (k & ? & ?); eauto].
Qed.

(** A summary shows work exactly while some intent of the run is live or some
    lease of it is out. *)
Lemma has_work_false s run_id :
  has_work (run_summary_locked s run_id) = false <->
  (forall id i, intents s !! id = Some i -> intent_run_id i = Some run_id ->
     WorkIntentState.is_terminal (intent_state i) = true) /\
  (forall k rec, enqueue_leases s !! k = Some rec -> lease_run_id (lease rec) <> Some run_id).
Proof.
  unfold has_work, run_summary_locked, filter_map. cbn -[run_intents run_leases].
  rewrite !orb_false_iff, !negb_false_iff, !Nat.eqb_eq, !count_zero, !distinct_zero, !omap_none.
  rewrite length_zero_iff_nil. split.
  - intros [[[[Hq Hs] Hr] Hl] _]. split.
    + intros id i Hi Hrun. assert (Hin : i ∈ run_intents s run_id) by (apply elem_of_run_intents; eauto).
      specialize (Hq i Hin). specialize (Hs i Hin). specialize (Hr i Hin).
      unfold is_queued, starting_batch, running_batch in *. by destruct (intent_state i).
    + intros k rec Hk Hrun. assert (Hin : rec ∈ run_leases s run_id) by (apply run_leases_spec; eauto).
      rewrite Hl in Hin. by apply elem_of_nil in Hin.
  - intros [Hi Hl].
    assert (Ht : forall i, i ∈ run_intents s run_id -> WorkIntentState.is_terminal (intent_state i) = true)
      by (intros i (id & Hid & Hrun)%elem_of_run_intents; eauto).
    split_and!.
    1, 2, 3, 5: intros i Hin%Ht; unfold is_queued, starting_batch, running_batch; by destruct (intent_state i).
    destruct (run_leases s run_id) as [|rec l] eqn:E; [done|].
    destruct (proj1 (run_leases_spec s run_id rec)) as (k & Hk & Hrun); [rewrite E; apply list_elem_of_here|].
    by apply Hl in Hk.
Qed.

(** ** Properties *)

(** C1. Conservation: in every state reachable by any calls of any clients,
    each intent is exactly where its state says and nowhere else.  A queued one
    is in the queue of its slot and priority and in no active batch; one that is
    starting or running is in the active batch of its slot, under that batch's
    id and operation, and in no queue; a settled one is in neither; and no
    queue of a slot lists an intent twice. *)
Theorem every_intent_in_its_place s cl id i :
  reachable (s, cl) -> intents s !! id = Some i ->
  exists slot, slots s !! intent_slot_id i = Some slot /\ NoDup (queued_ids slot) /\
  let in_batch := exists a, active slot = Some a /\ id ∈ intent_ids (batch a) in
  match intent_state i with
  | WorkIntentState.Queued => id ∈ queue slot (intent_priority i) /\ ~ in_batch
  | WorkIntentState.Starting b op | WorkIntentState.Running b op _ =>
      ~ (id ∈ queued_ids slot) /\
      exists a, active slot = Some a /\ id ∈ intent_ids (batch a) /\ batch_id (batch a) = b /\
        operation_id (batch a) = op
  | _ => ~ (id ∈ queued_ids slot) /\ ~ in_batch
  end.
Proof.
  intros [Hok _]%reachable_ok Hi. pose proof (so_wf _ Hok) as Hwf. simpl in Hwf.
  destruct (wf_home _ _ Hwf _ _ Hi) as [slot Hl]. exists slot. split; [done|].
  split; [by eapply NoDup_queued_ids|].
  pose proof (wf_slots _ _ Hwf _ _ Hl) as Hsw.
  assert (Hb : forall a, active slot = Some a -> id ∈ intent_ids (batch a) -> intent_state i = flight_state a).
  { intros a Ha Hid. destruct (bw_intents _ _ _ _ (sw_active _ _ _ _ Hsw a Ha) id Hid) as (i' & Hi' & Hst & _).
    congruence. }
  assert (Hfl : in_flight i = true -> exists a, active slot = Some a /\ id ∈ intent_ids (batch a))
    by (intros Hf; by apply (sw_flight _ _ _ _ Hsw id i)).
  assert (Hnq : intent_state i <> WorkIntentState.Queued -> id ∉ queued_ids slot)
    by (by eapply not_queued).
  destruct (intent_state i) eqn:Hst; simpl.
  - split; [apply (queue_mem _ _ _ _ _ Hwf Hl); by exists i|].
    intros (a & Ha & Hid). pose proof (Hb a Ha Hid) as Hx. unfold flight_state in Hx. by case_match.
  - split; [by apply Hnq|]. destruct Hfl as (a & Ha & Hid); [unfold in_flight; by rewrite Hst|].
    exists a. pose proof (Hb a Ha Hid) as Hx. unfold flight_state in Hx. case_match; [done|].
    by injection Hx as -> ->.
  - split; [by apply Hnq|]. destruct Hfl as (a & Ha & Hid); [unfold in_flight; by rewrite Hst|].
    exists a. pose proof (Hb a Ha Hid) as Hx. unfold flight_state in Hx. case_match; [|done].
    by injection Hx as -> -> _.
  - split; [by apply Hnq|]. intros (a & Ha & Hid). pose proof (Hb a Ha Hid) as Hx. unfold flight_state in Hx. by case_match.
  - split; [by apply Hnq|]. intros (a & Ha & Hid). pose proof (Hb a Ha Hid) as Hx. unfold flight_state in Hx. by case_match.
  - split; [by apply Hnq|]. intros (a & Ha & Hid). pose proof (Hb a Ha Hid) as Hx. unfold flight_state in Hx. by case_match.
Qed.

(** Settled work stays settled: whatever calls follow, an intent that is
    completed, failed or cancelled is never changed, run again or dropped. *)
Theorem settled_forever st st' id i :
  reachable st -> rtc coord_step st st' ->
  intents (fst st) !! id = Some i -> WorkIntentState.is_terminal (intent_state i) = true ->
  intents (fst st') !! id = Some i.
Proof.
  intros [Hok Hn]%reachable_ok Hr. induction Hr as [|x y z Hxy _ IH]; [done|]. intros Hi Ht.
  destruct (coord_step_ok _ _ Hn Hok Hxy) as [Hok' Hn']. apply IH; try done.
  destruct (coord_step_evolves _ _ Hok Hxy id i Hi) as (st0 & Hl & Hst).
  by rewrite Hl, (Hst Ht), set_own_state.
Qed.

(** C5. A batch is settled at most once.  The batch that [complete_batch],
    [fail_batch], [cancel_batch] or [retry_start] settles is no longer the
    current batch of its slot; and once a claimed batch is not current, it
    never is again, whatever calls follow, so that every later call with it is
    a stale owner's: it changes nothing and publishes nothing. *)
Theorem batch_settled_once st b :
  reachable st -> b ∈ snd st ->
  (is_current_batch gen (fst st) b = true ->
     forall s', (exists st0, s' = snd (fst (terminalize_batch gen b st0 (fst st)))) \/
                s' = snd (fst (retry_start gen b (fst st))) -> is_current_batch gen s' b = false) /\
  (is_current_batch gen (fst st) b = false -> forall st', rtc coord_step st st' ->
     is_current_batch gen (fst st') b = false /\
     complete_batch gen b (fst st') = (CommitResult.StaleOwner, fst st', []) /\
     (forall c, fail_batch gen b c (fst st') = (CommitResult.StaleOwner, fst st', [])) /\
     (forall c, cancel_batch gen b c (fst st') = (CommitResult.StaleOwner, fst st', [])) /\
     retry_start gen b (fst st') = (CommitResult.StaleOwner, fst st', []) /\
     (forall t now, snd (fst (mark_started gen b t now (fst st'))) = fst st' /\
        snd (mark_started gen b t now (fst st')) = [])).
Proof.
  intros [Hok Hn]%reachable_ok Hb. split.
  - intros Hc s' Hs'. destruct (current_owner gen _ b (claimed_authentic st b Hok Hb) Hc) as (slot & a & Hl & Ha & Hab).
    assert (Hidle : exists slot', slots s' !! batch_slot_id b = Some slot' /\ active slot' = None).
    { destruct Hs' as [[st0 ->]| ->]; [unfold terminalize_batch|unfold retry_start]; rewrite Hc; simpl negb; cbv iota; cbn [fst snd].
      - exists (set_active None slot). by rewrite on_slot_lookup, bool_decide_eq_true_2, mark_all_slots, Hl.
      - rewrite run_on_slot, on_slot_twice, on_slot_lookup, bool_decide_eq_true_2, mark_all_slots, Hl by done.
        simpl. eexists. split; [done|]. by rewrite run_push_front_active. }
    destruct Hidle as (slot' & Hl' & Ha'). unfold is_current_batch. rewrite Hl', Ha'. apply andb_false_r.
  - intros Hnc st' Hr. assert (Hfalse : is_current_batch gen (fst st') b = false).
    { induction Hr as [|x y z Hxy _ IH]; [done|].
      destruct (coord_step_ok _ _ Hn Hok Hxy) as [Hok' Hn'].
      apply IH; try done; [by apply (claimed_grows x)|by apply (current_stays_away x)]. }
    unfold complete_batch, fail_batch, cancel_batch, terminalize_batch, retry_start, mark_started.
    rewrite Hfalse. split_and!; try done. intros t now. simpl. by destruct (forallb _ _).
Qed.

(** A stopped session: [stop] cancels every live intent as
    "session_stopped" and leaves every settled one, drops all leases and
    empties every slot; and no run has work left in the summaries it returns. *)
Theorem stop_settles_all s :
  let s' := snd (fst (stop s)) in
  (forall id, intents s' !! id = (fun i =>
     if WorkIntentState.is_terminal (intent_state i) then i
     else set_intent_state (WorkIntentState.Cancelled "session_stopped") i) <$> (intents s !! id)) /\
  enqueue_leases s' = ∅ /\
  (forall sid slot, slots s' !! sid = Some slot -> queued_ids slot = [] /\ active slot = None /\
     runtime_constraint slot = RuntimeConstraint.SessionStopped) /\
  forall m, m ∈ fst (fst (stop s)) -> has_work m = false.
Proof.
  intros s'. split; [apply stop_intents|]. split; [done|]. split.
  - intros sid slot. unfold s'. simpl. rewrite lookup_fmap. destruct (slots s !! sid); [|done].
    by intros [= <-].
  - intros m (run_id & -> & _)%list_elem_of_fmap.
    change (mkCoordinatorState _ _ _ _) with s'.
    apply has_work_false. split; [|intros k rec; unfold s'; simpl; by rewrite lookup_empty].
    intros id i. unfold s'. rewrite stop_intents. destruct (intents s !! id); [|done].
    intros [= <-] _. apply stop_intent_terminal.
Qed.

(** A run's summary shows work exactly while work is left: a summary has
    all its work counts zero precisely when every intent of the run is settled
    and no enqueue lease of the run is out. *)
Theorem summary_shows_work s run_id :
  has_work (run_summary_locked s run_id) = false <->
  (forall id i, intents s !! id = Some i -> intent_run_id i = Some run_id ->
     WorkIntentState.is_terminal (intent_state i) = true) /\
  (forall k rec, enqueue_leases s !! k = Some rec -> lease_run_id (lease rec) <> Some run_id).
Proof. apply has_work_false. Qed.

Lemma selected_priority_spec slot p :
  selected_priority slot = Some p <->
  queue slot p <> [] /\
  (p = WorkPriority.Control -> foreground slot = []) /\
  (p = WorkPriority.Background -> foreground slot = [] /\ control slot = []).
Proof.
  unfold selected_priority. destruct slot as [r fg ct bg a pd rc kn rm]. simpl.
  destruct fg as [|f1 f], ct as [|c1 c], bg as [|b1 b], p; simpl; intuition congruence.
Qed.

(** Claims are by priority and in order: a batch that [next] hands out, on
    any reachable state, takes all the mailbox intents of the first non-empty
    queue (foreground, then control, then background) in the order they were
    queued, only for a slot that was ready, not paused and idle; and a slot in
    that condition with anything queued is never left idle: [next] returns a
    claim or the signals to settle. *)
Theorem next_by_priority s cl sid new slot :
  reachable (s, cl) -> slots s !! sid = Some slot ->
  match fst (fst (next gen sid new s)) with
  | ReconcileDecision.Claim b =>
      runtime_constraint slot = RuntimeConstraint.Ready /\ paused slot = false /\ active slot = None /\
      intent_ids b = List.filter (has_message s) (queue slot (highest_priority b)) /\
      intent_ids b <> [] /\ NoDup (intent_ids b) /\
      (highest_priority b = WorkPriority.Control -> foreground slot = []) /\
      (highest_priority b = WorkPriority.Background -> foreground slot = [] /\ control slot = []) /\
      forall id, id ∈ intent_ids b -> exists i, intents s !! id = Some i /\
        intent_state i = WorkIntentState.Queued /\
        intents (snd (fst (next gen sid new s))) !! id =
          Some (set_intent_state (WorkIntentState.Starting new (operation_id b)) i)
  | ReconcileDecision.SettleSignals ids =>
      ids <> [] /\ (exists p, ids = queue slot p) /\ forall id, id ∈ ids -> has_message s id = false
  | _ => active slot <> None \/ runtime_constraint slot <> RuntimeConstraint.Ready \/
         paused slot = true \/ queued_ids slot = []
  end.
Proof.
  intros [Hok _]%reachable_ok Hl. pose proof (so_wf _ Hok) as Hwf. simpl in Hwf.
  pose proof (wf_slots _ _ Hwf _ _ Hl) as Hsw.
  destruct (next_cases gen sid new s) as [(d & Heq & Hd)|(b & s' & calls & slot0 & slot' & Heq & Hc)].
  - rewrite Heq. simpl. unfold next in Heq. rewrite Hl in Heq.
    destruct (active slot) eqn:Ha; [injection Heq as <-; by left|].
    destruct (runtime_constraint slot) eqn:Hr; simpl in Heq; try (injection Heq as <-; by right; left).
    destruct (paused slot) eqn:Hp; [injection Heq as <-; by right; right; left|].
    destruct (selected_priority slot) as [p|] eqn:Hsel.
    + destruct (is_empty _) eqn:He; [|by injection Heq as <- _]. injection Heq as <-.
      destruct (proj1 (selected_priority_spec slot p) Hsel) as [Hne _]. split; [done|]. split; [by exists p|].
      intros id Hid. apply not_true_iff_false. intros Hm.
      assert (Hin : id ∈ List.filter (has_message s) (queue slot p)) by (by apply elem_of_filter_bool).
      destruct (List.filter _ _); [by apply elem_of_nil in Hin|done].
    + injection Heq as <-. do 3 right. unfold selected_priority in Hsel. simpl in Hsel. unfold queued_ids.
      destruct (foreground slot), (control slot), (background slot); done.
  - rewrite Heq. simpl. pose proof (fun id => claim_ids_queued gen _ _ _ _ _ _ _ id Hc) as Hq.
    destruct Hc as [C1 C2 C3 C4 C5 C6 C7 C8 C9 C10 C11 C12 C13 C14].
    rewrite Hl in C1. injection C1 as <-.
    destruct (proj1 (selected_priority_spec slot _) C5) as (_ & H1 & H2).
    split_and!; try done.
    + rewrite C6. apply NoDup_filter_bool, (sw_nodup _ _ _ _ Hsw).
    + intros id Hid. destruct (Hq id Hid) as [(i & Hi & Hst & _)%(sw_queue _ _ _ _ Hsw) _].
      exists i. split_and!; try done. by rewrite (marked_in _ _ _ _ _ _ C12 Hid Hi).
Qed.

Lemma filter_all {A} (p : A -> bool) l : (forall x, x ∈ l -> p x = true) -> List.filter p l = l.
Proof. intros H. rewrite (filter_ext_in p (fun _ => true)); [by rewrite filter_const|done]. Qed.

Lemma filter_none {A} (p : A -> bool) l : (forall x, x ∈ l -> p x = false) -> List.filter p l = [].
Proof. intros H. rewrite (filter_ext_in p (fun _ => false)); [by rewrite filter_const|done]. Qed.

Lemma slot_ext sl sl' :
  (forall p, queue sl p = queue sl' p) -> active sl = active sl' -> role sl = role sl' ->
  paused sl = paused sl' -> runtime_constraint sl = runtime_constraint sl' ->
  known_unread_message_ids sl = known_unread_message_ids sl' -> removed sl = removed sl' -> sl = sl'.
Proof.
  intros Hq. pose proof (Hq WorkPriority.Foreground). pose proof (Hq WorkPriority.Control).
  pose proof (Hq WorkPriority.Background). destruct sl, sl'. simpl in *. congruence.
Qed.

(** The fields of a slot that claiming and retrying do not touch. *)
Definition frame_fields (sl sl' : SlotState) : Prop :=
  role sl = role sl' /\ paused sl = paused sl' /\ runtime_constraint sl = runtime_constraint sl' /\
  known_unread_message_ids sl = known_unread_message_ids sl' /\ removed sl = removed sl'.

Lemma frame_run {X} (f : SlotState -> X -> SlotState) sl l :
  (forall sl x, frame_fields (f sl x) sl) -> frame_fields (run_list f sl l) sl.
Proof.
  intros Hf. apply (run_list_invariant f (fun x => frame_fields x sl)); [done|].
  intros sl' x (H1 & H2 & H3 & H4 & H5) _. destruct (Hf sl' x) as (? & ? & ? & ? & ?).
  unfold frame_fields. split_and!; congruence.
Qed.

(** Claiming is undone by retrying: if every intent of the claimed queue
    carries a message, [retry_start] of the batch just claimed restores every
    intent and every slot (the queues in their order) to what they were before
    the claim, so a failed start loses, duplicates and reorders nothing. *)
Theorem claim_retry_roundtrip s cl sid new b s1 calls slot :
  reachable (s, cl) -> slots s !! sid = Some slot ->
  next gen sid new s = (ReconcileDecision.Claim b, s1, calls) ->
  (forall id, id ∈ queue slot (highest_priority b) -> has_message s id = true) ->
  exists s2 calls2, retry_start gen b s1 = (CommitResult.Committed, s2, calls2) /\
    slots s2 = slots s /\ intents s2 = intents s /\ enqueue_leases s2 = enqueue_leases s.
Proof.
  intros [Hok _]%reachable_ok Hl Hnext Hall. pose proof (so_wf _ Hok) as Hwf. simpl in Hwf.
  pose proof (wf_slots _ _ Hwf _ _ Hl) as Hsw.
  assert (Hframe : exists slot1, slots s1 = <[sid := slot1]> (slots s) /\ frame_fields slot1 slot).
  { unfold next in Hnext. rewrite Hl in Hnext.
    destruct (active slot); [done|]. destruct (negb _); [done|]. destruct (paused slot) eqn:Hp; [done|].
    destruct (selected_priority slot); [|done]. destruct (is_empty _); [done|].
    injection Hnext as _ <- _. rewrite run_on_slot, on_slot_twice.
    eexists. split; [rewrite (on_slot_insert _ _ _ slot) by (by rewrite mark_all_slots);
      rewrite mark_all_slots; reflexivity|].
    apply (frame_run (fun sl id => remove_queued id sl)). done. }
  destruct Hframe as (slot1 & Hs1 & Hfr).
  destruct (next_cases gen sid new s) as [(d & Heq & Hd)|(b' & s' & calls' & slot0 & slot' & Heq & Hc)].
  { rewrite Heq in Hnext. injection Hnext as -> _ _. done. }
  rewrite Heq in Hnext. injection Hnext as -> -> _.
  pose proof (claim_preserves gen _ _ _ _ _ _ _ Hwf Hc) as Hwf1.
  destruct Hc as [C1 C2 C3 C4 C5 C6 C7 C8 C9 C10 C11 C12 C13 C14].
  rewrite Hl in C1. injection C1 as <-.
  assert (slot' = slot1) as ->.
  { assert (Hx : slots s1 !! sid = Some slot') by (by rewrite C9, lookup_insert_eq).
    rewrite Hs1, lookup_insert_eq in Hx. congruence. }
  rewrite (filter_all _ _ Hall) in C6.
  assert (Hsid : batch_slot_id b = sid) by (by rewrite C8).
  assert (Hown : owner s1 b slot1 (mkActiveBatch b None None))
    by (unfold owner; rewrite Hsid, C9, lookup_insert_eq; done).
  unfold retry_start. rewrite (owner_current gen _ _ _ _ Hwf1 Hown). simpl negb. cbv iota.
  eexists _, _. split; [reflexivity|]. rewrite run_on_slot, on_slot_twice. split_and!.
  - rewrite (on_slot_insert _ _ _ slot1); rewrite mark_all_slots, Hsid;
      [|by rewrite C9, lookup_insert_eq].
    rewrite C9. apply map_eq. intros k. destruct (decide (k = sid)) as [->|Hne];
      [rewrite lookup_insert_eq, Hl|by rewrite !lookup_insert_ne].
    f_equal. assert (Hf2 : forall sl, frame_fields (run_list (fun sl id =>
      queue_mut (highest_priority b) (push_front id) sl) sl (rev (intent_ids b))) sl)
      by (intros sl; apply frame_run; by intros ? ?; destruct (highest_priority b)).
    destruct (Hf2 (set_active None slot1)) as (F1 & F2 & F3 & F4 & F5).
    destruct Hfr as (G1 & G2 & G3 & G4 & G5). simpl in *.
    apply slot_ext; try congruence; [|by rewrite run_push_front_active, C2].
    intros p. rewrite run_push_front_queue, queue_set_active, C11.
    destruct (decide _) as [->|Hne].
    + rewrite filter_none, app_nil_r; [done|]. intros id Hid. unfold not_in.
      by rewrite bool_decide_eq_true_2 by (by rewrite C6).
    + apply filter_all. intros id Hid. apply not_in_true. rewrite C6.
      intros (i & Hi & _ & _ & Hp)%(sw_queue _ _ _ _ Hsw).
      apply (sw_queue _ _ _ _ Hsw) in Hid as (i' & Hi' & _ & _ & Hp'). congruence.
  - apply map_eq. intros id. simpl. rewrite mark_all_lookup, (C12 id).
    destruct (intents s !! id) as [i|] eqn:Hi; [|done]. simpl. f_equal.
    case_bool_decide as Hid; [|done]. rewrite set_state_twice. rewrite C6 in Hid.
    apply (sw_queue _ _ _ _ Hsw) in Hid as (i' & Hi' & Hst & _). rewrite Hi in Hi'. injection Hi' as <-.
    rewrite <- Hst. apply set_own_state.
  - simpl. by rewrite mark_all_leases.
Qed.

(** Cancelling a run: on every reachable state [cancel_run] does not
    panic; afterwards every intent of the run is settled and no lease of it is
    out, so the summary it publishes shows no work; every intent of another run
    keeps its state, unless it was in flight in a batch of the run, when it is
    queued again; the leases of other runs stay; and the messages it hands
    back are exactly those of the intents it cancelled. *)
Theorem cancel_run_settles s cl run_id order :
  reachable (s, cl) -> key_order order s ->
  exists res s', cancel_run run_id order s =
      Some (res, s', [ApplyWorkSummary (cancel_summary res)]) /\
    has_work (cancel_summary res) = false /\
    (forall id i, intents s !! id = Some i -> exists st,
       intents s' !! id = Some (set_intent_state st i) /\
       if WorkIntentState.is_terminal (intent_state i) then st = intent_state i
       else if run_of run_id i then st = run_cancelled
       else st = intent_state i \/ (in_flight i = true /\ st = WorkIntentState.Queued)) /\
    (forall k rec, enqueue_leases s' !! k = Some rec <->
       enqueue_leases s !! k = Some rec /\ lease_run_id (lease rec) <> Some run_id) /\
    (forall x, x ∈ cancel_terminal_message_ids res <->
       exists id i, intents s !! id = Some i /\ run_of run_id i = true /\
         WorkIntentState.is_terminal (intent_state i) = false /\ mailbox_message_id i = Some x).
Proof.
  intros [Hok _]%reachable_ok Hord. pose proof (so_wf _ Hok) as Hwf. simpl in Hwf.
  destruct (cancel_run_spec gen run_id order s Hwf Hord)
    as (res & s' & Heq & Hwf' & Hsum & [Hr Hmsg] & Hterm & Hle & _).
  assert (Hst : forall id i, intents s !! id = Some i -> exists st,
       intents s' !! id = Some (set_intent_state st i) /\
       if WorkIntentState.is_terminal (intent_state i) then st = intent_state i
       else if run_of run_id i then st = run_cancelled
       else st = intent_state i \/ (in_flight i = true /\ st = WorkIntentState.Queued)).
  { intros id i Hi. specialize (Hr id). rewrite Hi in Hr. destruct Hr as (st & Hl & Hc).
    exists st. split; [done|]. specialize (Hterm id _ Hl).
    destruct (WorkIntentState.is_terminal (intent_state i)) eqn:Ht.
    - destruct Hc as [?|[? _]]; [done|congruence].
    - destruct (run_of run_id i) eqn:Hrun.
      + destruct Hc as [->|(_ & [[_ ?]|(? & _)])]; [|done|congruence].
        rewrite set_own_state in Hterm. by rewrite (Hterm Hrun) in Ht.
      + destruct Hc as [?|(_ & [[? _]|(_ & ? & ?)])]; [by left|congruence|by right]. }
  exists res, s'. rewrite Hsum. split_and!; try done.
  - apply has_work_false. split.
    + intros id i Hi Hrun. apply (Hterm id i Hi). by apply bool_decide_eq_true.
    + intros k rec [_ Hne]%Hle. done.
  - intros x. rewrite Hmsg. split.
    + intros [?%elem_of_nil|(id & i & i' & Hi & Ht & Hx & Hi' & Hc)]; [done|].
      exists id, i. split_and!; try done. destruct (Hst id i Hi) as (st & Hl & Hcase).
      rewrite Hi' in Hl. injection Hl as ->. simpl in Hc. subst st. rewrite Ht in Hcase.
      destruct (run_of run_id i); [done|]. destruct Hcase as [Heq'|[_ ?]]; [|done].
      rewrite <- Heq' in Ht. done.
    + intros (id & i & Hi & Hrun & Ht & Hx). right.
      destruct (Hst id i Hi) as (st & Hl & Hcase). rewrite Ht, Hrun in Hcase. subst st.
      by exists id, i, (set_intent_state run_cancelled i).
Qed.

(** Reconciling a mailbox: on every reachable state and for fresh ids,
    afterwards every unread message is owned by some live intent of the slot, and
    no intent queued on the slot carries a message that is not unread; no
    other live intent is lost; and doing it again with the same unread messages
    creates nothing and clears nothing. *)
Theorem reconcile_covers s cl sid unread r fresh now fresh' now' :
  reachable (s, cl) -> Inj eq eq fresh -> fresh_ids fresh 0 s ->
  let s' := snd (reconcile_mailbox gen sid unread r fresh now s) in
  Inj eq eq fresh' -> fresh_ids fresh' 0 s' ->
  (forall x, x ∈ unread -> exists id i, intents s' !! id = Some i /\ intent_slot_id i = sid /\
     mailbox_message_id i = Some x /\ WorkIntentState.is_terminal (intent_state i) = false) /\
  (forall id i x, intents s' !! id = Some i -> intent_slot_id i = sid ->
     intent_state i = WorkIntentState.Queued -> mailbox_message_id i = Some x -> x ∈ unread) /\
  (forall id i, intents s !! id = Some i -> WorkIntentState.is_terminal (intent_state i) = false ->
     intents s' !! id = Some i \/
     (intent_slot_id i = sid /\ intent_state i = WorkIntentState.Queued /\
      exists x, mailbox_message_id i = Some x /\ x ∉ unread)) /\
  created_recovery_intent_ids (fst (reconcile_mailbox gen sid unread r fresh' now' s')) = [] /\
  cleared_stale_intent_ids (fst (reconcile_mailbox gen sid unread r fresh' now' s')) = [].
Proof.
  intros [Hok _]%reachable_ok Hinj Hf s' Hinj' Hf'. pose proof (so_wf _ Hok) as Hwf. simpl in Hwf.
  unfold s' in *. clear s'. unfold reconcile_mailbox in *.
  destruct (reconcile_clear sid unread r s) as [[s1 retained] cleared] eqn:Hc.
  destruct (clear_closed gen _ _ _ _ _ _ _ Hwf Hc) as
    (slot & slot1 & Hwf1 & Hl1 & Hold & Hcl & _ & Hm & Hq1 & _).
  destruct (unread_loop gen sid r fresh now s1 [] unread slot1 Hwf1 Hl1 Hinj)
    as (s2 & c2 & Hrun & Hwf2 & (slot2 & Hl2 & _) & Hall & _ & Hkeep & _ & Hback).
  { intros k Hk. rewrite Hm. by rewrite (Hf k Hk). }
  rewrite Hrun in *. cbn [fst snd] in *.
  assert (Hcleared : forall id, id ∈ cleared -> exists i, intents s !! id = Some i /\
    intent_state i = WorkIntentState.Queued /\ intent_slot_id i = sid /\
    exists x, mailbox_message_id i = Some x /\ x ∉ unread).
  { intros id Hid. rewrite Hcl in Hid. apply elem_of_filter_bool in Hid as [[p Hid]%queued_ids_elem Hst].
    destruct Hold as [Hl|[_ ->]]; [|by destruct p; apply elem_of_nil in Hid].
    apply (queue_mem _ _ _ _ _ Hwf Hl) in Hid as (i & Hi & Hq & Hs & _). exists i. split_and!; try done.
    unfold stale, msg_in in Hst. rewrite Hi in Hst. destruct (mailbox_message_id i) as [x|]; [|done].
    exists x. split; [done|]. apply negb_true_iff, bool_decide_eq_false in Hst.
    by rewrite elem_of_list_to_set in Hst. }
  assert (Hqueued1 : forall id i x, intents s1 !! id = Some i -> intent_slot_id i = sid ->
    intent_state i = WorkIntentState.Queued -> mailbox_message_id i = Some x -> x ∈ unread).
  { intros id i x Hi Hs Hst Hx.
    destruct (marked_some _ _ _ _ _ _ Hm Hi) as (i0 & Hi0 & [[Hid ->]|[Hid ->]]); [done|].
    apply dec_stable. intros Hnx. apply Hid. rewrite Hcl. apply elem_of_filter_bool. split.
    - apply queued_ids_elem. exists (intent_priority i0).
      destruct (wf_home _ _ Hwf _ _ Hi0) as [slot0 Hl0]. rewrite Hs in Hl0.
      destruct Hold as [Hl|[Hl _]]; [|congruence]. apply (queue_mem _ _ _ _ _ Hwf Hl). by exists i0.
    - unfold stale, msg_in. rewrite Hi0, Hx. apply negb_true_iff, bool_decide_eq_false.
      by rewrite elem_of_list_to_set. }
  assert (Hqueued2 : forall id i x, intents s2 !! id = Some i -> intent_slot_id i = sid ->
    intent_state i = WorkIntentState.Queued -> mailbox_message_id i = Some x -> x ∈ unread).
  { intros id i x Hi Hs Hst Hx. destruct (Hback id i Hi) as [Hi1|(y & Hy & _ & ->)]; [eauto|].
    simpl in Hx. by injection Hx as <-. }
  split; [intros x Hx; by apply owned_true, Hall|]. split; [done|]. split.
  { intros id i Hi Ht. destruct (decide (id ∈ cleared)) as [Hid|Hid].
    - right. destruct (Hcleared id Hid) as (i0 & Hi0 & ? & ? & ?). rewrite Hi in Hi0. by injection Hi0 as <-.
    - left. apply Hkeep. by rewrite (marked_out _ _ _ _ _ Hm Hid). }
  destruct (reconcile_clear sid unread r s2) as [[s3 retained3] cleared3] eqn:Hc3.
  destruct (clear_closed gen _ _ _ _ _ _ _ Hwf2 Hc3) as
    (slot2' & slot3 & Hwf3 & Hl3 & Hold3 & Hcl3 & _ & Hm3 & _).
  assert (Hempty : cleared3 = []).
  { rewrite Hcl3. apply filter_none. intros id [p Hid]%queued_ids_elem. destruct Hold3 as [Hl|[Hl _]]; [|congruence].
    apply (queue_mem _ _ _ _ _ Hwf2 Hl) in Hid as (i & Hi & Hst & Hs & _). unfold stale, msg_in. rewrite Hi.
    destruct (mailbox_message_id i) as [x|] eqn:Hx; [|done]. apply negb_false_iff, bool_decide_eq_true.
    rewrite elem_of_list_to_set. by eapply Hqueued2. }
  destruct (unread_loop gen sid r fresh' now' s3 [] unread slot3 Hwf3 Hl3 Hinj')
    as (s4 & c4 & Hrun4 & _ & _ & _ & _ & _ & Hsame & _).
  { intros k Hk. rewrite Hm3. by rewrite (Hf' k Hk). }
  rewrite Hrun4. simpl. split; [|done]. apply Hsame. intros y Hy. apply owned_true.
  destruct (proj1 (owned_true _ _ _) (Hall y Hy)) as (id & i & Hi & H). exists id, i.
  rewrite (marked_out _ _ _ _ _ Hm3); [done|]. rewrite Hempty. by apply not_elem_of_nil.
Qed.

(** Removing a slot: on every reachable state [remove_slot] does not
    panic; it cancels every live intent of the slot and no other, empties it,
    hands back exactly the messages of the intents it cancelled, and from then
    on the slot refuses leases. *)
Theorem remove_slot_settles s cl sid slot :
  reachable (s, cl) -> slots s !! sid = Some slot ->
  exists res s' calls, remove_slot sid s = Some (res, s', calls) /\
    (forall id i, intents s !! id = Some i -> intents s' !! id = Some
       (if live_intent_of sid i then set_intent_state slot_removed i else i)) /\
    (forall x, x ∈ remove_terminal_message_ids res <-> exists id i, intents s !! id = Some i /\
       live_intent_of sid i = true /\ mailbox_message_id i = Some x) /\
    (exists slot', slots s' !! sid = Some slot' /\ queued_ids slot' = [] /\ active slot' = None) /\
    forall R (port : RunCausalityPort R) request run_id lid (r : R),
      req_slot_id request = sid ->
      fst (fst (acquire_enqueue gen request run_id lid s' r)) =
        Err (TeamError.InvalidRequest ("团队槽位已移除：" +:+ sid)).
Proof.
  intros [Hok _]%reachable_ok Hl. pose proof (so_wf _ Hok) as Hwf. simpl in Hwf.
  destruct (remove_slot_spec gen sid s Hwf) as (res & s' & calls & Heq & Hwf' & Hm & Hmsg & Hsl & _).
  pose proof (remove_ids_live gen s sid Hwf) as Hlive. specialize (Hsl slot Hl).
  assert (Hid : forall id i, intents s !! id = Some i -> id ∈ remove_ids sid s <-> live_intent_of sid i = true).
  { intros id i Hi. rewrite (Hlive id). unfold live_intent_of.
    rewrite andb_true_iff, bool_decide_eq_true, negb_true_iff. split; [|eauto].
    intros (i' & Hi' & ?). rewrite Hi in Hi'. by injection Hi' as <-. }
  exists res, s', calls. split_and!; try done.
  - intros id i Hi. rewrite (Hm id), Hi. simpl. f_equal. specialize (Hid id i Hi).
    destruct (live_intent_of sid i).
    + rewrite bool_decide_eq_true_2; [done|]. by apply Hid.
    + rewrite bool_decide_eq_false_2; [done|]. by intros ?%Hid.
  - intros x. rewrite Hmsg. unfold msgs_of. rewrite list_elem_of_omap. split.
    + intros (id & Hin & Hx). destruct (intents s !! id) as [i|] eqn:Hi; [|done].
      exists id, i. split_and!; try done. by apply (Hid id i Hi).
    + intros (id & i & Hi & Ht & Hx). exists id. rewrite Hi. split; [by apply (Hid id i Hi)|done].
  - eexists. split; [exact Hsl|]. done.
  - intros R port request run_id lid r0 Hreq. unfold acquire_enqueue, entry_slot. rewrite Hreq, Hsl.
    simpl. done.
Qed.

(** Operation ids: while fewer than [u64::MAX] claims were made, every
    claimed batch has an id of its own, larger than those of all the batches
    claimed before it. *)
Theorem operation_ids_increase s cl :
  reachable (s, cl) ->
  (next_operation_id s <= u64_max)%N /\
  ((next_operation_id s < u64_max)%N ->
   StronglySorted (fun b older => (operation_id older < operation_id b)%N) cl).
Proof.
  intros Hr. split; [by apply (reachable_ok (s, cl))|]. unfold reachable in Hr.
  assert (Hgen : forall st, rtc coord_step (CoordinatorState_default, []) st ->
    (next_operation_id (fst st) < u64_max)%N ->
    StronglySorted (fun b older => (operation_id older < operation_id b)%N) (snd st)).
  { clear. apply (rtc_ind_r (fun st => (next_operation_id (fst st) < u64_max)%N ->
      StronglySorted (fun b older => (operation_id older < operation_id b)%N) (snd st))); [constructor|].
    intros x y Hx Hxy IH Hlt. destruct (reachable_ok x Hx) as [Hok Hn].
    destruct (reachable_ok y) as [Hok' _]; [by eapply rtc_r|].
    destruct (coord_step_keeps _ _ Hok Hxy) as [[[_ Hnext] Hcl]|(sid & b & slot' & Hcl & _ & _ & _ & Hop)].
    - rewrite Hcl. apply IH. by rewrite <- Hnext.
    - assert (Hb : (operation_id b <= next_operation_id (fst y))%N).
      { apply (so_ops _ Hok'). rewrite Hcl. apply list_elem_of_here. }
      assert (Hlt' : (next_operation_id (fst x) < operation_id b)%N)
        by (rewrite Hop in *; unfold u64_succ_saturating, u64_saturating_add in *; lia).
      rewrite Hcl. constructor; [apply IH; lia|]. apply List.Forall_forall. intros b' Hb'%list_elem_of_In.
      pose proof (so_ops _ Hok b' Hb'). lia. }
  by apply (Hgen (s, cl)).
Qed.
End Work.

(** ** A concrete run

    One slot made ready, one user message of run ["run-1"] enqueued on it and
    claimed. *)
#[local] Instance no_port : RunCausalityPort unit := {|
  bind_enqueue := fun _ _ r => (mkRunBinding (Some "run-1") false false, r);
  bind_system_enqueue := fun _ _ r => (mkRunBinding None false false, r);
  abort_binding := fun _ r => r;
  apply_work_summary := fun _ _ r => r;
  publish_slot_work := fun _ _ r => r;
|}.

Definition demo_request : EnqueueRequest :=
  mkEnqueueRequest "lead" TeamRunTargetRole.Lead WorkSource.UserMessage CausalBinding.UserVisible.
Definition demo_lease : EnqueueLease :=
  mkEnqueueLease "L1" "g" "lead" TeamRunTargetRole.Lead WorkSource.UserMessage (Some "run-1").

Definition demo_ready : CoordinatorState :=
  match set_runtime_constraint "lead" RuntimeConstraint.Ready [] CoordinatorState_default with
  | Some (_, s, _) => s
  | None => CoordinatorState_default
  end.
Definition demo_leased : CoordinatorState :=
  snd (fst (acquire_enqueue "g" demo_request "" "L1" demo_ready tt)).
Definition demo_queued : CoordinatorState :=
  snd (fst (commit_enqueue "g" demo_lease (Some "m1") "i1" 5 demo_leased)).
Definition demo_batch : WorkBatch := make_batch "g" "lead" WorkPriority.Foreground ["i1"] "b1" 1 demo_queued.
Definition demo_claimed : CoordinatorState := snd (fst (next "g" "lead" "b1" demo_queued)).
Definition demo_done : CoordinatorState := snd (fst (complete_batch "g" demo_batch demo_claimed)).

Definition demo_slot : SlotState :=
  mkSlotState TeamRunTargetRole.Lead ["i1"] [] [] None false RuntimeConstraint.Ready {["m1"]} false.

Lemma demo_queued_reachable : reachable "g" (demo_queued, []).
Proof.
  eapply rtc_l; [|eapply rtc_l; [|eapply rtc_l; [|apply rtc_refl]]].
  - eapply step_call, (call_constraint "g" "lead" RuntimeConstraint.Ready []); [|vm_compute; reflexivity].
    split; [constructor|]. intros id. split; [by intros ?%elem_of_nil|by intros []].
  - exact (step_acquire "g" unit no_port demo_request "" "L1" demo_ready [] tt).
  - eapply step_call. by apply (call_commit "g" demo_lease (Some "m1") "i1" 5 demo_leased []).
Qed.

Lemma demo_next :
  next "g" "lead" "b1" demo_queued =
  (ReconcileDecision.Claim demo_batch, demo_claimed, snd (next "g" "lead" "b1" demo_queued)).
Proof. vm_compute. reflexivity. Qed.

Lemma demo_claimed_reachable : reachable "g" (demo_claimed, [demo_batch]).
Proof.
  eapply rtc_r; [apply demo_queued_reachable|].
  eapply step_call, (call_next "g" "lead" "b1" demo_queued [] (ReconcileDecision.Claim demo_batch) demo_claimed
    (snd (next "g" "lead" "b1" demo_queued)));
    [by intros ?%elem_of_nil|apply demo_next].
Qed.

Lemma demo_done_reachable : reachable "g" (demo_done, [demo_batch]).
Proof.
  eapply rtc_r; [apply demo_claimed_reachable|]. eapply step_call, call_complete, list_elem_of_here.
Qed.

Lemma demo_order : key_order ["i1"] demo_queued.
Proof.
  split; [apply NoDup_singleton|]. intros id. rewrite list_elem_of_singleton.
  assert (Hi : intents demo_queued = {["i1" := commit_intent "g" demo_lease (Some "m1") "i1" 5]})
    by (vm_compute; reflexivity).
  rewrite Hi. split.
  - intros ->. rewrite lookup_singleton_eq. by eexists.
  - intros [x [<- _]%lookup_singleton_Some]. done.
Qed.

Lemma every_intent_in_its_place_witness :
  exists slot, slots demo_claimed !! "lead" = Some slot /\ NoDup (queued_ids slot) /\
    ~ ("i1" ∈ queued_ids slot) /\
    exists a, active slot = Some a /\ "i1" ∈ intent_ids (batch a) /\ batch_id (batch a) = "b1" /\
      operation_id (batch a) = 1%N.
Proof.
  exact (every_intent_in_its_place "g" demo_claimed [demo_batch] "i1"
    (set_intent_state (WorkIntentState.Starting "b1" 1) (commit_intent "g" demo_lease (Some "m1") "i1" 5))
    demo_claimed_reachable eq_refl).
Defined.

Lemma settled_forever_witness :
  intents demo_done !! "i1" =
  Some (set_intent_state WorkIntentState.Completed (commit_intent "g" demo_lease (Some "m1") "i1" 5)).
Proof.
  apply (settled_forever "g" (demo_done, [demo_batch]) (demo_done, [demo_batch]) "i1");
    [apply demo_done_reachable|apply rtc_refl|vm_compute; reflexivity|reflexivity].
Defined.

Lemma batch_settled_once_witness : is_current_batch "g" demo_done demo_batch = false.
Proof.
  apply (proj1 (batch_settled_once "g" (demo_claimed, [demo_batch]) demo_batch demo_claimed_reachable
    (list_elem_of_here _ _))); [vm_compute; reflexivity|].
  left. exists WorkIntentState.Completed. reflexivity.
Defined.

Lemma next_by_priority_witness :
  intent_ids demo_batch = List.filter (has_message demo_queued) ["i1"].
Proof.
  pose proof (next_by_priority "g" demo_queued [] "lead" "b1"
    demo_slot
    demo_queued_reachable ltac:(vm_compute; reflexivity)) as H.
  rewrite demo_next in H. destruct H as (_ & _ & _ & H & _). exact H.
Defined.

Lemma claim_retry_roundtrip_witness :
  exists s2 calls2, retry_start "g" demo_batch demo_claimed = (CommitResult.Committed, s2, calls2) /\
    slots s2 = slots demo_queued /\ intents s2 = intents demo_queued /\
    enqueue_leases s2 = enqueue_leases demo_queued.
Proof.
  apply (claim_retry_roundtrip "g" demo_queued [] "lead" "b1" demo_batch demo_claimed
    (snd (next "g" "lead" "b1" demo_queued))
    demo_slot
    demo_queued_reachable).
  - vm_compute. reflexivity.
  - apply demo_next.
  - intros id ->%list_elem_of_singleton. vm_compute. reflexivity.
Defined.

Lemma cancel_run_settles_witness :
  exists res s', cancel_run "run-1" ["i1"] demo_queued =
    Some (res, s', [ApplyWorkSummary (cancel_summary res)]) /\ has_work (cancel_summary res) = false.
Proof.
  destruct (cancel_run_settles "g" demo_queued [] "run-1" ["i1"] demo_queued_reachable demo_order)
    as (res & s' & H1 & H2 & _).
  exists res, s'. split; assumption.
Defined.

(** Two supplies of ids. *)
Definition r_ids (k : nat) : string := "r" +:+ pretty k.
Definition t_ids (k : nat) : string := "t" +:+ pretty k.

Definition demo_reconciled : CoordinatorState :=
  snd (reconcile_mailbox "g" "lead" ["m2"] TeamRunTargetRole.Lead r_ids 9 demo_queued).

Lemma r_ids_fresh : fresh_ids r_ids 0 demo_queued.
Proof.
  intros k _. assert (Hi : intents demo_queued = {["i1" := commit_intent "g" demo_lease (Some "m1") "i1" 5]})
    by (vm_compute; reflexivity).
  rewrite Hi. by apply lookup_singleton_ne.
Qed.

Lemma t_ids_fresh : fresh_ids t_ids 0 demo_reconciled.
Proof.
  intros k _.
  assert (Hi : intents demo_reconciled = <["r0" := recovery_intent "g" "lead" TeamRunTargetRole.Lead "m2" "r0" 9]>
    {["i1" := set_intent_state WorkIntentState.Completed (commit_intent "g" demo_lease (Some "m1") "i1" 5)]})
    by (vm_compute; reflexivity).
  rewrite Hi, lookup_insert_ne by done. by apply lookup_singleton_ne.
Qed.

Lemma reconcile_covers_witness :
  exists id i, intents demo_reconciled !! id = Some i /\
    intent_slot_id i = "lead" /\ mailbox_message_id i = Some "m2" /\
    WorkIntentState.is_terminal (intent_state i) = false.
Proof.
  apply (proj1 (reconcile_covers "g" demo_queued [] "lead" ["m2"] TeamRunTargetRole.Lead r_ids 9 t_ids 10
    demo_queued_reachable ltac:(unfold r_ids; apply _) r_ids_fresh ltac:(unfold t_ids; apply _) t_ids_fresh)).
  apply list_elem_of_here.
Defined.

Lemma remove_slot_settles_witness :
  exists res s' calls, remove_slot "lead" demo_claimed = Some (res, s', calls) /\
    intents s' !! "i1" = Some (set_intent_state slot_removed (commit_intent "g" demo_lease (Some "m1") "i1" 5)).
Proof.
  destruct (slots demo_claimed !! "lead") as [slot|] eqn:Hl; [|discriminate Hl].
  destruct (remove_slot_settles "g" demo_claimed [demo_batch] "lead" slot demo_claimed_reachable Hl)
    as (res & s' & calls & Heq & Hi & _).
  exists res, s', calls. split; [exact Heq|].
  exact (Hi "i1" (set_intent_state (WorkIntentState.Starting "b1" 1)
    (commit_intent "g" demo_lease (Some "m1") "i1" 5)) eq_refl).
Defined.

Lemma operation_ids_increase_witness : (next_operation_id demo_claimed <= u64_max)%N.
Proof. exact (proj1 (operation_ids_increase "g" demo_claimed [demo_batch] demo_claimed_reachable)). Defined.

(** ** What the code does not promise

    A failed slot queues its background work again in the order the hash map
    yields it: the order in which the messages were enqueued is not kept. *)
Definition background_intent (id m : string) (now : Z) : WorkIntent :=
  mkWorkIntent id "g" "lead" TeamRunTargetRole.Lead WorkSource.McpSendMessage WorkPriority.Background
    (Some m) None now WorkIntentState.Queued.

Definition two_queued : CoordinatorState :=
  mkCoordinatorState
    {["lead" := mkSlotState TeamRunTargetRole.Lead [] [] ["i1"; "i2"] None false RuntimeConstraint.Ready ∅ false]}
    (<["i1" := background_intent "i1" "m1" 1]> {["i2" := background_intent "i2" "m2" 2]}) ∅ 0.

Definition background_after (order : list string) : option (list string) :=
  match set_runtime_constraint "lead" (RuntimeConstraint.Failed 1 "crash") order two_queued with
  | Some (_, s, _) => option_map background (slots s !! "lead")
  | None => None
  end.

Theorem requeue_order_depends_on_map :
  background_after ["i1"; "i2"] = Some ["i1"; "i2"] /\
  background_after ["i2"; "i1"] = Some ["i2"; "i1"].
Proof. vm_compute. split; reflexivity. Qed.

(** A stopped coordinator still hands out leases, on a slot it has not seen. *)
Theorem stopped_session_leases :
  is_ok (fst (fst (acquire_enqueue "g" demo_request "" "L9"
    (snd (fst (stop CoordinatorState_default))) tt))) = true.
Proof. vm_compute. reflexivity. Qed.
