(* ===== verification/TeamRun.v ===== *)
(** * The team run manager ([crates/tjuaeui-team/src/team_run/manager.rs])

    [TeamRunManager] holds the current run record behind the mutex and what the
    emitter has broadcast, in order.  [TeamRunManager_port] is the
    [impl RunCausalityPort for TeamRunManager]: with it the coordinator's
    methods run against the real manager, and the last section is about the
    two together. *)

From S2P Require Import Prelude WorkModel WorkCoordinator WorkInvariant WorkPreserve WorkSettle WorkTheorems.

(** ** Data *)

Module TeamRunStatus.
Inductive t : Type := Accepted | Running | Cancelling | Completed | Cancelled | Failed.
#[export] Instance t_eq_dec : EqDecision t.
Proof. solve_decision. Defined.
End TeamRunStatus.
Export (hints) TeamRunStatus.

Module TeamRunSource.
Inductive t : Type := UserMessage | SystemLifecycle.
End TeamRunSource.

Module TeamSlotBlockedReason.
Inductive t : Type := RuntimeStarting | RuntimeFailed | Removing | SessionStopped.
End TeamSlotBlockedReason.

Record TeamSlotWorkPayload : Type := mkTeamSlotWorkPayload {
  sp_slot_id : string;
  sp_role : TeamRunTargetRole.t;
  sp_state : SlotPhase.t;
  sp_queued_foreground_count : nat;
  sp_queued_background_count : nat;
  sp_active_turn_id : option string;
  sp_active_turn_started_at_ms : option Z;
  sp_active_turn_elapsed_ms : option Z;
  sp_active_turn_slow : option bool;
  sp_active_turn_slow_threshold_ms : option Z;
  sp_blocked_reason : option TeamSlotBlockedReason.t;
  sp_run_id : option string;
}.

Record TeamRunPayload : Type := mkTeamRunPayload {
  rp_team_id : string;
  rp_run_id : string;
  rp_source : TeamRunSource.t;
  rp_has_user_intervention : bool;
  rp_target_slot_id : string;
  rp_target_role : TeamRunTargetRole.t;
  rp_status : TeamRunStatus.t;
  rp_queued_intent_count : nat;
  rp_starting_batch_count : nat;
  rp_running_batch_count : nat;
  rp_active_enqueue_lease_count : nat;
  rp_slot_work : list TeamSlotWorkPayload;
}.

Record TeamRunRecord : Type := mkTeamRunRecord {
  team_run_id : string;
  source : TeamRunSource.t;
  has_user_intervention : bool;
  target_slot_id : string;
  target_role : TeamRunTargetRole.t;
  status : TeamRunStatus.t;
  run_started_at_ms : option Z;
  completed_at_ms : option Z;
  cancel_reason : option string;
  summary : option RunWorkSummary;
  accepted_emitted : bool;
}.

Definition is_active (r : TeamRunRecord) : bool :=
  match status r with
  | TeamRunStatus.Accepted | TeamRunStatus.Running | TeamRunStatus.Cancelling => true
  | _ => false
  end.

(** What the emitter has been asked to broadcast. *)
Inductive TeamEvent : Type :=
| TeamRunEvent (event_name : string) (payload : TeamRunPayload)
| SlotWorkEvent (payload : TeamSlotWorkPayload).

Record TeamRunManager : Type := mkTeamRunManager {
  team_id : string;
  run : option TeamRunRecord;
  emitted : list TeamEvent;
}.

Definition TeamRunManager_new (id : string) : TeamRunManager := mkTeamRunManager id None [].

Definition set_run (r : option TeamRunRecord) (m : TeamRunManager) : TeamRunManager :=
  mkTeamRunManager (team_id m) r (emitted m).
Definition emit (e : TeamEvent) (m : TeamRunManager) : TeamRunManager :=
  mkTeamRunManager (team_id m) (run m) (emitted m ++ [e]).

Definition TEAM_RUN_ACCEPTED_EVENT : string := "team.runAccepted".
Definition TEAM_RUN_STARTED_EVENT : string := "team.runStarted".
Definition TEAM_RUN_UPDATED_EVENT : string := "team.runUpdated".
Definition TEAM_RUN_COMPLETED_EVENT : string := "team.runCompleted".
Definition TEAM_RUN_CANCELLED_EVENT : string := "team.runCancelled".
Definition TEAM_RUN_FAILED_EVENT : string := "team.runFailed".

Definition ACTIVE_TURN_SLOW_THRESHOLD_MS : Z := 10 * 60 * 1000.

(** ** Payloads *)

Definition i64_max : Z := 2 ^ 63 - 1.
Definition i64_min : Z := - 2 ^ 63.
Definition i64_saturating_sub (a b : Z) : Z := Z.max i64_min (Z.min i64_max (a - b)).

Definition slot_payload (now : Z) (slot : SlotWorkSnapshot) : TeamSlotWorkPayload :=
  let elapsed :=
    option_map (fun started_at => Z.max (i64_saturating_sub now started_at) 0)
      (active_turn_started_at_ms slot) in
  mkTeamSlotWorkPayload (sw_slot_id slot) (sw_role slot) (sw_state slot)
    (queued_foreground_count slot) (queued_background_count slot) (active_turn_id slot)
    (active_turn_started_at_ms slot) elapsed
    (option_map (fun e => (ACTIVE_TURN_SLOW_THRESHOLD_MS <=? e)%Z) elapsed)
    (option_map (fun _ => ACTIVE_TURN_SLOW_THRESHOLD_MS) (active_turn_id slot))
    (match sw_runtime_constraint slot with
     | RuntimeConstraint.Ready => None
     | RuntimeConstraint.Starting _ => Some TeamSlotBlockedReason.RuntimeStarting
     | RuntimeConstraint.Failed _ _ => Some TeamSlotBlockedReason.RuntimeFailed
     | RuntimeConstraint.Removing _ => Some TeamSlotBlockedReason.Removing
     | RuntimeConstraint.SessionStopped => Some TeamSlotBlockedReason.SessionStopped
     end)
    (sw_run_id slot).

Definition payload_locked (team : string) (now : Z) (r : TeamRunRecord) (s : RunWorkSummary)
    : TeamRunPayload :=
  mkTeamRunPayload team (team_run_id r) (source r) (has_user_intervention r) (target_slot_id r)
    (target_role r) (status r) (queued_intent_count s) (starting_batch_count s)
    (running_batch_count s) (active_enqueue_lease_count s) (map (slot_payload now) (summary_slots s)).

(** ** Methods *)

Definition new_record (id : string) (src : TeamRunSource.t) (slot : string)
    (role : TeamRunTargetRole.t) : TeamRunRecord :=
  mkTeamRunRecord id src false slot role TeamRunStatus.Accepted None None None None false.

Definition active_run (m : TeamRunManager) : option TeamRunRecord :=
  match run m with Some r => if is_active r then Some r else None | None => None end.

Definition mark_intervention (r : TeamRunRecord) : TeamRunRecord :=
  mkTeamRunRecord (team_run_id r) (source r) true (target_slot_id r) (target_role r) (status r)
    (run_started_at_ms r) (completed_at_ms r) (cancel_reason r) (summary r) (accepted_emitted r).

(** [new_id] is what [generate_id] returns if a run is opened. *)
Definition bind_user_enqueue (slot : string) (role : TeamRunTargetRole.t) (new_id : string)
    (m : TeamRunManager) : RunBinding * TeamRunManager :=
  match active_run m with
  | Some r =>
      (mkRunBinding (Some (team_run_id r)) false true, set_run (Some (mark_intervention r)) m)
  | None =>
      (mkRunBinding (Some new_id) true false,
       set_run (Some (new_record new_id TeamRunSource.UserMessage slot role)) m)
  end.

Definition bind_system (slot : string) (role : TeamRunTargetRole.t) (new_id : string)
    (m : TeamRunManager) : RunBinding * TeamRunManager :=
  match active_run m with
  | Some r => (mkRunBinding (Some (team_run_id r)) false false, m)
  | None =>
      (mkRunBinding (Some new_id) true false,
       set_run (Some (new_record new_id TeamRunSource.SystemLifecycle slot role)) m)
  end.

Definition current_active_run_id (m : TeamRunManager) : option string :=
  option_map team_run_id (active_run m).

(** [RunWorkSummary] with no work left. *)
Definition no_work (s : RunWorkSummary) : bool :=
  (queued_intent_count s =? 0)%nat && (starting_batch_count s =? 0)%nat
  && (running_batch_count s =? 0)%nat && (active_enqueue_lease_count s =? 0)%nat
  && (paused_intent_count s =? 0)%nat.

(** The status a summary gives the run, and the two time stamps. *)
Definition summary_status (previous : TeamRunStatus.t) (s : RunWorkSummary) : TeamRunStatus.t :=
  if (0 <? failed_intent_count s)%nat then TeamRunStatus.Failed
  else if no_work s then
    (if decide (previous = TeamRunStatus.Cancelling) then TeamRunStatus.Cancelled
     else TeamRunStatus.Completed)
  else if (0 <? running_batch_count s)%nat then TeamRunStatus.Running
  else previous.

Definition summary_record (now : Z) (r : TeamRunRecord) (s : RunWorkSummary) : TeamRunRecord :=
  let failed := (0 <? failed_intent_count s)%nat in
  mkTeamRunRecord (team_run_id r) (source r) (has_user_intervention r) (target_slot_id r)
    (target_role r) (summary_status (status r) s)
    (if negb failed && negb (no_work s) && (0 <? running_batch_count s)%nat
     then match run_started_at_ms r with Some t => Some t | None => Some now end
     else run_started_at_ms r)
    (if failed || no_work s then Some now else completed_at_ms r)
    (cancel_reason r) (Some s) true.

Definition summary_event (r : TeamRunRecord) (next : TeamRunStatus.t) : string :=
  if negb (accepted_emitted r) then TEAM_RUN_ACCEPTED_EVENT
  else if decide (next = status r) then TEAM_RUN_UPDATED_EVENT
  else
    match next with
    | TeamRunStatus.Failed => TEAM_RUN_FAILED_EVENT
    | TeamRunStatus.Cancelled => TEAM_RUN_CANCELLED_EVENT
    | TeamRunStatus.Completed => TEAM_RUN_COMPLETED_EVENT
    | TeamRunStatus.Running => TEAM_RUN_STARTED_EVENT
    | _ => TEAM_RUN_UPDATED_EVENT
    end.

Definition manager_apply_work_summary (now : Z) (s : RunWorkSummary) (m : TeamRunManager)
    : TeamRunManager :=
  match run m with
  | Some r =>
      if bool_decide (team_run_id r = summary_run_id s) then
        let r' := summary_record now r s in
        emit (TeamRunEvent (summary_event r (status r')) (payload_locked (team_id m) now r' s))
          (set_run (Some r') m)
      else m
  | None => m
  end.

Definition begin_cancel (id : string) (reason : option string) (now : Z) (m : TeamRunManager)
    : Result unit TeamError.t * TeamRunManager :=
  match run m with
  | Some r =>
      if bool_decide (team_run_id r = id) && is_active r then
        let r' := mkTeamRunRecord (team_run_id r) (source r) (has_user_intervention r)
          (target_slot_id r) (target_role r) TeamRunStatus.Cancelling (run_started_at_ms r)
          (completed_at_ms r) reason (summary r) (accepted_emitted r) in
        let m' := set_run (Some r') m in
        (Ok tt,
         match summary r' with
         | Some s => emit (TeamRunEvent TEAM_RUN_UPDATED_EVENT (payload_locked (team_id m) now r' s)) m'
         | None => m'
         end)
      else (Err (TeamError.InvalidRequest ("团队运行未处于活动状态：" +:+ id)), m)
  | None => (Err (TeamError.InvalidRequest ("团队运行未处于活动状态：" +:+ id)), m)
  end.

Definition empty_summary (id : string) : RunWorkSummary := mkRunWorkSummary id 0 0 0 0 0 0 [].

Definition current_payload (c : CoordinatorSnapshot) (now : Z) (m : TeamRunManager)
    : option TeamRunPayload :=
  match run m with
  | None => None
  | Some r =>
      let s :=
        match summary r with
        | Some s => Some s
        | None =>
            match active_run_summary c with
            | Some s => if bool_decide (summary_run_id s = team_run_id r) then Some s else None
            | None => None
            end
        end in
      Some (payload_locked (team_id m) now r (default (empty_summary (team_run_id r)) s))
  end.

Definition publish_snapshot_update (c : CoordinatorSnapshot) (now : Z) (m : TeamRunManager)
    : TeamRunManager :=
  match current_payload c now m with
  | Some p =>
      match rp_status p with
      | TeamRunStatus.Accepted | TeamRunStatus.Running =>
          emit (TeamRunEvent TEAM_RUN_UPDATED_EVENT p) m
      | _ => m
      end
  | None => m
  end.

(** ** [impl RunCausalityPort for TeamRunManager] *)

Definition manager_bind_enqueue (request : EnqueueRequest) (new_id : string) (m : TeamRunManager)
    : RunBinding * TeamRunManager :=
  match req_binding request with
  | CausalBinding.UserVisible => bind_user_enqueue (req_slot_id request) (req_role request) new_id m
  | CausalBinding.ActiveRunOrBackground => (mkRunBinding (current_active_run_id m) false false, m)
  | CausalBinding.InheritRunningBatch _ | CausalBinding.Background => (mkRunBinding None false false, m)
  | CausalBinding.SystemInitiated _ => bind_system (req_slot_id request) (req_role request) new_id m
  end.

Definition manager_abort_binding (b : RunBinding) (m : TeamRunManager) : TeamRunManager :=
  match run m with
  | Some r => if bool_decide (Some (team_run_id r) = binding_run_id b) then set_run None m else m
  | None => m
  end.

#[export] Instance TeamRunManager_port : RunCausalityPort TeamRunManager := {|
  bind_enqueue := manager_bind_enqueue;
  bind_system_enqueue := fun request => bind_system (req_slot_id request) (req_role request);
  abort_binding := manager_abort_binding;
  apply_work_summary := manager_apply_work_summary;
  publish_slot_work := fun now snap m => emit (SlotWorkEvent (slot_payload now snap)) m;
|}.

(** ** Coordinator and manager together

    One step is one call of a coordinator method, with the port calls it makes
    performed before the next step, or one call of [begin_cancel] or
    [publish_snapshot_update] on the manager. *)
Section Team.
Context (gen : string).

Record Team : Type := mkTeam {
  coord : CoordinatorState;
  claimed : list WorkBatch;
  manager : TeamRunManager;
}.

Inductive team_step : Team -> Team -> Prop :=
| team_acquire request run_id lid s cl m :
    team_step (mkTeam s cl m)
      (mkTeam (snd (fst (acquire_enqueue gen request run_id lid s m))) cl
         (snd (acquire_enqueue gen request run_id lid s m)))
| team_call s cl m calls s' cl' now :
    coord_call gen (s, cl) calls (s', cl') ->
    team_step (mkTeam s cl m) (mkTeam s' cl' (perform_all now calls m))
| team_begin_cancel s cl m id reason now :
    team_step (mkTeam s cl m) (mkTeam s cl (snd (begin_cancel id reason now m)))
| team_snapshot s cl m now :
    team_step (mkTeam s cl m) (mkTeam s cl (publish_snapshot_update (snapshot gen s) now m)).

Definition team_reachable (t : Team) : Prop :=
  exists id, rtc team_step (mkTeam CoordinatorState_default [] (TeamRunManager_new id)) t.

(** No intent of the run is live and no lease of it is out. *)
Definition idle_run (s : CoordinatorState) (x : string) : Prop :=
  (forall id i, intents s !! id = Some i -> intent_run_id i = Some x ->
     WorkIntentState.is_terminal (intent_state i) = true) /\
  (forall k rec, enqueue_leases s !! k = Some rec -> lease_run_id (lease rec) <> Some x).

Definition run_done (r : TeamRunRecord) : bool :=
  match status r with TeamRunStatus.Completed | TeamRunStatus.Cancelled => true | _ => false end.

(** ** The port calls carry summaries of the state just left *)

Definition current_calls (s : CoordinatorState) (calls : list PortCall) : Prop :=
  forall m, ApplyWorkSummary m ∈ calls -> m = run_summary_locked s (summary_run_id m).

Lemma current_nil s : current_calls s [].
Proof. by intros m ?%elem_of_nil. Qed.

Lemma current_app s l1 l2 : current_calls s l1 -> current_calls s l2 -> current_calls s (l1 ++ l2).
Proof. intros H1 H2 m [?|?]%elem_of_app; auto. Qed.

Lemma current_summaries s ids : current_calls s (publish_run_summaries (run_summaries_locked s ids)).
Proof.
  intros m (x & [= ->] & Hx)%list_elem_of_fmap. by apply list_elem_of_fmap in Hx as (y & -> & _).
Qed.

Lemma current_slot s o : current_calls s (publish_slot_work_snapshot o).
Proof. destruct o; intros m Hm; [|by apply elem_of_nil in Hm]. by apply list_elem_of_singleton in Hm. Qed.

#[local] Hint Resolve current_nil current_app current_summaries current_slot : tjuae.

Lemma current_call st calls st' : coord_call gen st calls st' -> current_calls (fst st') calls.
Proof.
  intros Hst. destruct Hst; simpl; auto with tjuae.
  - unfold commit_enqueue. destruct (result_bind _ _); simpl; auto with tjuae.
    destruct (slot_snapshot_locked _ _) eqn:E; simpl; auto with tjuae. apply current_app; [auto with tjuae|].
    intros m Hm. by apply list_elem_of_singleton in Hm.
  - unfold abort_enqueue. destruct (enqueue_leases s !! lease_id l); simpl; auto with tjuae.
    destruct (_ || _); simpl; auto with tjuae. apply current_app; [|auto with tjuae].
    destruct (match lease_run_id l with Some _ => _ | None => _ end); [|auto with tjuae].
    intros m Hm. by apply list_elem_of_singleton in Hm.
  - destruct (next_cases gen sid new s) as [(d' & Heq & _)|(b & s1 & c1 & slot & slot' & Heq & _)].
    + rewrite Heq in H0. injection H0 as _ <- <-. auto with tjuae.
    + unfold next in H0. destruct (slots s !! sid); [|by injection H0 as _ <- <-; auto with tjuae].
      destruct (match active s0 with Some _ => _ | None => _ end); [injection H0 as _ <- <-; auto with tjuae|].
      destruct (negb _); [injection H0 as _ <- <-; auto with tjuae|].
      destruct (paused s0); [injection H0 as _ <- <-; auto with tjuae|].
      destruct (selected_priority s0); [|injection H0 as _ <- <-; auto with tjuae].
      destruct (is_empty _); injection H0 as _ <- <-; auto with tjuae.
  - unfold mark_started. destruct (negb _); simpl; [destruct (forallb _ _)|]; simpl; auto with tjuae.
  - unfold retry_start. destruct (negb _); simpl; auto with tjuae.
  - unfold complete_batch, terminalize_batch. destruct (negb _); simpl; auto with tjuae.
  - unfold fail_batch, terminalize_batch. destruct (negb _); simpl; auto with tjuae.
  - unfold cancel_batch, terminalize_batch. destruct (negb _); simpl; auto with tjuae.
  - unfold cancel_run in H0. destruct (try_fold _ _ _) as [[[? ?] ?]|]; [|done].
    destruct (run_list cancel_queued_intent _ _). injection H0 as _ <- <-.
    intros m Hm. by apply list_elem_of_singleton in Hm as [= ->].
  - unfold complete_signals. destruct (negb _); simpl; auto with tjuae.
  - unfold set_runtime_constraint in H0. destruct (entry_slot _ _ _).
    match type of H0 with (let '(_, _) := ?x in _) = _ => destruct x as [[? ?] ?] end.
    destruct (slot_snapshot_locked _ _); [|done]. injection H0 as _ <- <-.
    apply current_app; [auto with tjuae|]. intros m Hm. by apply list_elem_of_singleton in Hm.
  - unfold remove_slot in H. destruct (try_fold _ _ _) as [[[? ?] ?]|]; [|done].
    injection H as _ <- <-. auto with tjuae.
  - intros m (x & [= ->] & Hx)%list_elem_of_fmap. by apply list_elem_of_fmap in Hx as (y & -> & _).
Qed.

(** ** A call gives no new work to an idle run *)

(** Intents that appear belong to no run, or to the run of a lease that was
    out; no lease appears. *)
Definition no_new_work (s s' : CoordinatorState) : Prop :=
  (forall id i, intents s !! id = None -> intents s' !! id = Some i ->
     intent_run_id i = None \/
     exists k rec, enqueue_leases s !! k = Some rec /\ lease_run_id (lease rec) = intent_run_id i) /\
  (forall k rec, enqueue_leases s' !! k = Some rec -> enqueue_leases s !! k = Some rec).

Lemma same_domain_no_new s s' :
  (forall id, intents s !! id = None -> intents s' !! id = None) ->
  (forall k rec, enqueue_leases s' !! k = Some rec -> enqueue_leases s !! k = Some rec) ->
  no_new_work s s'.
Proof. intros H1 H2. split; [|done]. intros id i Hn Hi. by rewrite (H1 id Hn) in Hi. Qed.

Lemma marked_none ids g m m' id : marked ids g m m' -> m !! id = None -> m' !! id = None.
Proof. intros Hm Hn. by rewrite (Hm id), Hn. Qed.

Lemma on_slot_leases sid f s : enqueue_leases (on_slot sid f s) = enqueue_leases s.
Proof. done. Qed.

Lemma run_on_slot_leases {X} sid (f : X -> SlotState -> SlotState) s l :
  enqueue_leases (run_list (fun s x => on_slot sid (f x) s) s l) = enqueue_leases s.
Proof. by rewrite run_on_slot. Qed.

Lemma constraint_leases sid c order s res s' calls :
  set_runtime_constraint sid c order s = Some (res, s', calls) -> enqueue_leases s' = enqueue_leases s.
Proof.
  unfold set_runtime_constraint. destruct (entry_slot _ _ s) as [slot s1] eqn:He.
  assert (Hle : enqueue_leases s1 = enqueue_leases s)
    by (unfold entry_slot in He; by destruct (slots s !! sid); injection He as _ <-).
  set (s2 := on_slot sid (set_constraint c) s1).
  assert (Hset : forall stopped final requeue runs msgs s3,
    run_list (constrain_intent stopped final) (s2, [], [], []) (live_ids sid order s2)
      = (s3, requeue, runs, msgs) -> final <> WorkIntentState.Queued ->
    enqueue_leases (run_list (requeue_back sid) (on_slot sid clear_work s3) requeue) = enqueue_leases s).
  { intros stopped final requeue runs msgs s3 Hrun Hf. rewrite constrain_closed in Hrun by done.
    injection Hrun as <- _ _ _.
    destruct (mark_each_frame (constrained stopped final) (live_ids sid order s2) s2) as (_ & F2 & _).
    unfold requeue_back. rewrite (run_on_slot_leases sid (fun x => queue_mut (fst x) _)), on_slot_leases, F2.
    exact Hle. }
  destruct c as [|op|op cl|op|].
  1, 2, 4: destruct (slot_snapshot_locked _ _); [|done]; by intros [= _ <- _].
  - destruct (run_list (constrain_intent false _) _ _) as [[[t1 t2] t3] t4] eqn:Hrun.
    destruct (slot_snapshot_locked _ _); [|done]. intros [= _ <- _]. by eapply Hset.
  - destruct (run_list (constrain_intent true _) _ _) as [[[t1 t2] t3] t4] eqn:Hrun.
    destruct (slot_snapshot_locked _ _); [|done]. intros [= _ <- _]. by eapply Hset.
Qed.

Lemma remove_leases sid s res s' calls :
  remove_slot sid s = Some (res, s', calls) -> enqueue_leases s' = enqueue_leases s.
Proof.
  unfold remove_slot. destruct (try_fold _ _ _) as [[[s1 m1] r1]|] eqn:Hf; [|done].
  intros [= _ <- _]. simpl.
  apply (try_fold_invariant remove_intent (fun acc => enqueue_leases (fst (fst acc)) = enqueue_leases s)
    (s, [], []) (remove_ids sid s) (s1, m1, r1)); [done| |done].
  intros [[t m] r] id acc' Hk. unfold remove_intent. destruct (intents t !! id); [|done].
  by intros [= <-].
Qed.

Lemma idle_preserved s s' x :
  evolves (intents s) (intents s') -> no_new_work s s' -> idle_run s x -> idle_run s' x.
Proof.
  intros Hev [Hnew Hle] [Hi Hl]. split.
  - intros id i Hi' Hx. destruct (intents s !! id) as [i0|] eqn:H0.
    + destruct (Hev id i0 H0) as (st & Hst & Hkeep). rewrite Hi' in Hst. injection Hst as ->.
      simpl in *. specialize (Hi id i0 H0 Hx). by rewrite (Hkeep Hi).
    + destruct (Hnew id i H0 Hi') as [Hn|(k & rec & Hk & Hrun)]; [congruence|].
      exfalso. apply (Hl k rec Hk). congruence.
  - intros k rec Hk. apply (Hl k). by apply Hle.
Qed.

Lemma terminalize_no_new b st s : no_new_work s (snd (fst (terminalize_batch gen b st s))).
Proof.
  unfold terminalize_batch. destruct (negb _); [by apply same_domain_no_new|].
  apply same_domain_no_new; simpl.
  - intros id. by apply (marked_none (intent_ids b) (fun _ => st)), mark_all_marked.
  - intros k rec. by rewrite mark_all_leases.
Qed.

Lemma commit_no_new l msg new now s : no_new_work s (snd (fst (commit_enqueue gen l msg new now s))).
Proof.
  assert (Hid : no_new_work s s) by (by apply same_domain_no_new).
  unfold commit_enqueue. destruct (enqueue_leases s !! lease_id l) as [rec|] eqn:Hl; simpl; [|done].
  destruct (bool_decide (lease rec = l)) eqn:Heq; simpl; [|done]. apply bool_decide_eq_true in Heq.
  destruct (negb _); simpl; [done|]. destruct (_ && _); simpl; [done|].
  destruct (slots s !! lease_slot_id l); simpl; [|done].
  destruct (validate_enqueue_constraint _ _); simpl; [|done].
  assert (no_new_work s (commit_state gen l msg new now s)); [|by destruct (slot_snapshot_locked _ _)].
  split; simpl.
  - intros id i Hn Hi. right. exists (lease_id l), rec. split; [done|]. rewrite Heq.
    destruct (decide (id = new)) as [->|Hne].
    + rewrite lookup_insert_eq in Hi. by injection Hi as <-.
    + rewrite lookup_insert_ne in Hi by done. congruence.
  - by intros k r [_ Hk]%lookup_delete_Some.
Qed.

Lemma reconcile_no_new sid unread r fresh now s :
  wf gen s -> Inj eq eq fresh -> fresh_ids fresh 0 s ->
  no_new_work s (snd (reconcile_mailbox gen sid unread r fresh now s)).
Proof.
  intros Hwf Hinj Hf. unfold reconcile_mailbox.
  destruct (reconcile_clear sid unread r s) as [[s1 retained] cleared] eqn:Hc.
  destruct (clear_closed gen _ _ _ _ _ _ _ Hwf Hc) as
    (slot & slot' & Hwf1 & Hl1 & _ & _ & _ & Hm & _ & _ & _ & Hle & _).
  assert (Hloop : forall l acc, enqueue_leases (fst (run_list (reconcile_unread gen sid r fresh now) acc l))
    = enqueue_leases (fst acc)).
  { induction l as [|x l IH]; intros [s0 c0]; [done|]. rewrite run_list_cons, IH.
    unfold reconcile_unread. by destruct (existsb _ _). }
  specialize (Hloop unread (s1, [])).
  destruct (unread_loop gen sid r fresh now s1 [] unread slot' Hwf1 Hl1 Hinj)
    as (s2 & c2 & Hrun & _ & _ & _ & _ & _ & _ & Hback).
  { intros k Hk. rewrite Hm. by rewrite (Hf k Hk). }
  rewrite Hrun in *. simpl in *. split.
  - intros id i Hn Hi. destruct (Hback id i Hi) as [Hi1|(y & _ & _ & ->)]; [|by left].
    by rewrite (marked_none _ _ _ _ _ Hm Hn) in Hi1.
  - intros k rec. by rewrite Hloop, Hle.
Qed.

Lemma call_no_new st calls st' :
  system_ok gen st -> coord_call gen st calls st' -> no_new_work (fst st) (fst st').
Proof.
  intros Hok Hst. pose proof (so_wf _ _ Hok) as Hwf.
  assert (Hid : no_new_work (fst st) (fst st)) by (by apply same_domain_no_new).
  destruct Hst; simpl in *.
  - apply commit_no_new.
  - unfold abort_enqueue. destruct (enqueue_leases s !! lease_id l) as [rec|] eqn:Hl; [|done].
    destruct (_ || _) eqn:E; apply same_domain_no_new; try done; simpl.
    + intros k r Hk. destruct (wf_leases _ _ Hwf _ _ Hl) as [Hid' _].
      destruct (decide (k = lease_id (lease rec))) as [->|Hne].
      * rewrite lookup_insert_eq in Hk. injection Hk as <-. by rewrite Hid'.
      * rewrite lookup_insert_ne in Hk by done. by apply lookup_delete_Some in Hk as [_ ?].
    + by intros k r [_ Hk]%lookup_delete_Some.
  - by apply reconcile_no_new.
  - destruct (next_cases gen sid new s) as [(d' & Heq & _)|(b & s1 & c1 & slot & slot' & Heq & Hc)];
      rewrite Heq in H0; injection H0 as _ <- _; [done|].
    apply same_domain_no_new.
    + intros id. apply (marked_none _ _ _ _ _ (cl_marked _ _ _ _ _ _ _ _ Hc)).
    + by rewrite (cl_leases _ _ _ _ _ _ _ _ Hc).
  - unfold mark_started. destruct (negb _); [by destruct (forallb _ _)|].
    apply same_domain_no_new; simpl.
    + intros id. by eapply marked_none, mark_all_marked.
    + intros k rec. by rewrite mark_all_leases.
  - unfold retry_start. destruct (negb _); [done|]. apply same_domain_no_new; simpl.
    + intros id. rewrite run_on_slot. simpl. by eapply marked_none, mark_all_marked.
    + intros k rec. rewrite run_on_slot. simpl. by rewrite mark_all_leases.
  - apply terminalize_no_new.
  - apply terminalize_no_new.
  - apply terminalize_no_new.
  - destruct (cancel_run_spec gen run_id order s Hwf H) as (res' & s1 & Heq & _ & _ & [Hr _] & _ & Hle & _).
    rewrite Heq in H0. injection H0 as _ <- _. apply same_domain_no_new.
    + intros id Hn. specialize (Hr id). by rewrite Hn in Hr.
    + by intros k rec [? _]%Hle.
  - unfold complete_signals. destruct (negb _); [done|]. simpl. rewrite signals_closed.
    destruct (mark_each_frame (fun _ => WorkIntentState.Completed) ids s) as (_ & F2 & _).
    apply same_domain_no_new; simpl; [|by rewrite F2].
    intros id. by eapply marked_none, mark_each_lookup.
  - unfold pause_slot in H. destruct (entry_slot _ _ s) as [slot s1] eqn:He.
    destruct (entry_slot_spec gen _ _ _ _ _ Hwf He) as (_ & _ & _ & Hi & Hle & _).
    destruct (slot_snapshot_locked _ _); [|done]. injection H as _ <-.
    apply same_domain_no_new; simpl; [by rewrite Hi|by rewrite Hle].
  - destruct (set_constraint_spec gen sid c order s Hwf H) as (res' & s1 & calls' & Heq & _ & Hm).
    rewrite Heq in H0. injection H0 as _ <- _. apply same_domain_no_new.
    + intros id. destruct c; try (by rewrite Hm); destruct Hm as [Hm _]; by eapply marked_none.
    + intros k rec. by rewrite (constraint_leases _ _ _ _ _ _ _ Heq).
  - destruct (remove_slot_spec gen sid s Hwf) as (res' & s1 & calls' & Heq & _ & Hm & _).
    rewrite Heq in H. injection H as _ <- _. apply same_domain_no_new.
    + intros id. by eapply marked_none.
    + intros k rec. by rewrite (remove_leases _ _ _ _ _ Heq).
  - apply same_domain_no_new; simpl.
    + intros id Hn. by rewrite lookup_fmap, Hn.
    + intros k rec. by rewrite lookup_empty.
Qed.

(** ** The manager under the coordinator's calls *)

Definition done_is_idle (s : CoordinatorState) (m : TeamRunManager) : Prop :=
  forall r, run m = Some r -> run_done r = true -> idle_run s (team_run_id r).

Lemma no_work_has_work s : no_work s = negb (has_work s).
Proof. unfold no_work, has_work. by rewrite !negb_orb, !negb_involutive. Qed.

Lemma summary_done previous s :
  (match summary_status previous s with
   | TeamRunStatus.Completed | TeamRunStatus.Cancelled => true | _ => false end) = true ->
  has_work s = false \/
  (match previous with TeamRunStatus.Completed | TeamRunStatus.Cancelled => true | _ => false end) = true.
Proof.
  unfold summary_status. destruct (0 <? failed_intent_count s)%nat; [done|].
  destruct (no_work s) eqn:Hn; [left; rewrite no_work_has_work in Hn; by apply negb_true_iff|].
  destruct (0 <? running_batch_count s)%nat; [done|by right].
Qed.

Lemma perform_done s c now m :
  (forall x, c = ApplyWorkSummary x -> x = run_summary_locked s (summary_run_id x)) ->
  done_is_idle s m -> done_is_idle s (perform now c m).
Proof.
  intros Hc Hm. destruct c as [b|x|snap]; simpl.
  - unfold manager_abort_binding. destruct (run m) as [r|] eqn:Hr; [|done].
    case_bool_decide; [by intros r' Hr'|done].
  - unfold manager_apply_work_summary. destruct (run m) as [r|] eqn:Hr; [|done].
    case_bool_decide as Hid; [|done]. intros r' [= <-] Hd. simpl in *.
    destruct (summary_done _ _ Hd) as [Hw|Hp]; [|by apply (Hm r)].
    rewrite (Hc x eq_refl) in Hw. rewrite Hid. by apply has_work_false in Hw.
  - done.
Qed.

Lemma perform_all_done s calls now m :
  current_calls s calls -> done_is_idle s m -> done_is_idle s (perform_all now calls m).
Proof.
  intros Hc Hm. unfold perform_all. apply (run_list_invariant _ (done_is_idle s)); [done|].
  intros m' c Hm' Hin. apply perform_done; [|done]. intros x ->. by apply Hc, list_elem_of_In.
Qed.

(** The run of a caller's batch is one with live work. *)
Lemma push_new_head acc l x :
  head (run_list push_new acc l) = Some x -> x ∈ acc ++ l.
Proof.
  revert acc. induction l as [|y l IH]; intros acc; simpl.
  - rewrite app_nil_r. destruct acc; [done|]. intros [= ->]. apply list_elem_of_here.
  - intros Hx%IH. unfold push_new in Hx. case_bool_decide; [|by rewrite <- app_assoc in Hx].
    rewrite elem_of_app in Hx |- *. rewrite elem_of_cons. tauto.
Qed.

Lemma inherited_not_idle s caller x :
  wf gen s -> inherited_run s caller = Some x -> ~ idle_run s x.
Proof.
  intros Hwf Hx [Hi _]. unfold inherited_run in Hx.
  destruct (slots s !! caller) as [slot|] eqn:Hl; [|done]. destruct (active slot) as [a|] eqn:Ha; [|done].
  pose proof (sw_active _ _ _ _ (wf_slots _ _ Hwf _ _ Hl) a Ha) as Hb.
  rewrite (bw_runs _ _ _ _ Hb) in Hx. apply push_new_head in Hx. simpl in Hx.
  apply list_elem_of_omap in Hx as (id & Hid & Hrun).
  destruct (active_in_flight gen s caller slot a Hwf Hl Ha id Hid) as (i & Hint & Hf).
  unfold run_in in Hrun. rewrite Hint in Hrun.
  pose proof (Hi id i Hint Hrun) as Ht. by rewrite (in_flight_live i Hf) in Ht.
Qed.

Lemma bind_user_active slot role x m b m' :
  bind_user_enqueue slot role x m = (b, m') ->
  exists r, active_run m' = Some r /\ binding_run_id b = Some (team_run_id r).
Proof.
  unfold bind_user_enqueue. destruct (active_run m) as [r|] eqn:Ha; intros [= <- <-]; simpl.
  - exists (mark_intervention r). split; [|done]. unfold active_run in *. simpl.
    destruct (run m) as [r0|]; [|done]. destruct (is_active r0) eqn:E; [|done]. injection Ha as ->.
    unfold is_active in *. simpl. by rewrite E.
  - by eexists.
Qed.

Lemma bind_system_active slot role x m b m' :
  bind_system slot role x m = (b, m') ->
  exists r, active_run m' = Some r /\ binding_run_id b = Some (team_run_id r).
Proof.
  unfold bind_system. destruct (active_run m) as [r|] eqn:Ha; intros [= <- <-]; simpl; by eexists.
Qed.

Lemma active_not_done m r r' : active_run m = Some r -> run m = Some r' -> run_done r' = false.
Proof.
  unfold active_run, is_active, run_done. intros Ha Hr. rewrite Hr in Ha. by destruct (status r').
Qed.

(** Adding a lease of a run that is not done keeps the invariant. *)
Lemma lease_done s m k rec :
  done_is_idle s m ->
  (forall r, run m = Some r -> run_done r = true -> lease_run_id (lease rec) <> Some (team_run_id r)) ->
  done_is_idle (set_leases (<[k := rec]> (enqueue_leases s)) s) m.
Proof.
  intros Hm Hne r Hr Hd. destruct (Hm r Hr Hd) as [Hi Hl]. split; [exact Hi|].
  intros k' rec' Hk'. simpl in Hk'. destruct (decide (k' = k)) as [->|Hk].
  - rewrite lookup_insert_eq in Hk'. injection Hk' as <-. by apply Hne.
  - rewrite lookup_insert_ne in Hk' by done. by apply (Hl k').
Qed.

Lemma done_active s m r : active_run m = Some r -> done_is_idle s m.
Proof. intros Ha r' Hr Hd. by rewrite (active_not_done _ _ _ Ha Hr) in Hd. Qed.

Lemma acquire_done request run_id lid s m :
  wf gen s -> done_is_idle s m ->
  done_is_idle (snd (fst (acquire_enqueue gen request run_id lid s m)))
    (snd (acquire_enqueue gen request run_id lid s m)).
Proof.
  intros Hwf Hm. unfold acquire_enqueue.
  destruct (entry_slot (req_slot_id request) (req_role request) s) as [slot s1] eqn:He.
  destruct (entry_slot_spec gen _ _ _ _ _ Hwf He) as (Hwf1 & _ & Hl & Hi1 & Hle1 & _).
  set (sid := req_slot_id request) in *. set (slot' := set_role (req_role request) slot).
  set (s2 := on_slot sid (fun _ => slot') s1).
  assert (Hwf2 : wf gen s2).
  { apply (wf_local gen s1 _ sid slot'); try done; [by left|exact (on_slot_insert sid (fun _ => slot') s1 slot Hl)|].
    apply (slot_wf_same gen _ _ slot); try done. by apply (wf_slots _ _ Hwf1). }
  assert (Hm2 : done_is_idle s2 m).
  { intros r Hr Hd. destruct (Hm r Hr Hd) as [H1 H2]. split; simpl; [by rewrite Hi1|by rewrite Hle1]. }
  destruct (validate_enqueue_constraint sid slot'); [|done].
  assert (Hinh : forall caller x, inherited_run s2 caller = Some x ->
    forall r, run m = Some r -> run_done r = true -> Some x <> Some (team_run_id r)).
  { intros caller x Hx r Hr Hd [= ->]. by apply (inherited_not_idle _ _ _ Hwf2 Hx), Hm2. }
  assert (Hbind : forall b m', (exists r, active_run m' = Some r /\ binding_run_id b = Some (team_run_id r)) ->
    forall L, done_is_idle (set_leases L s2) m').
  { intros b m' (r & Ha & _) L. by eapply done_active. }
  destruct (req_binding request) as [|caller| | |inherit_from] eqn:Hreq;
    cbn [fst snd bind_enqueue bind_system_enqueue TeamRunManager_port].
  - unfold manager_bind_enqueue. rewrite Hreq. fold sid.
    destruct (bind_user_enqueue sid (req_role request) run_id m) as [b m'] eqn:Hb.
    cbn [fst snd]. by eapply Hbind, bind_user_active.
  - apply lease_done; [done|]. simpl. intros r Hr Hd Hx. by eapply (Hinh caller).
  - unfold manager_bind_enqueue. rewrite Hreq. cbn [fst snd]. apply lease_done; [done|]. simpl.
    intros r Hr Hd Hx. unfold current_active_run_id in Hx. destruct (active_run m) as [r0|] eqn:Ha; [|done].
    by rewrite (active_not_done _ _ _ Ha Hr) in Hd.
  - apply lease_done; [done|]. by intros r _ _.
  - destruct (match inherit_from with Some caller => inherited_run s2 caller | None => None end) as [x|] eqn:Hx.
    + cbn [fst snd]. apply lease_done; [done|]. simpl. intros r Hr Hd Heq.
      destruct inherit_from as [caller|]; [|done]. by eapply (Hinh caller).
    + fold sid. destruct (bind_system sid (req_role request) run_id m) as [b m'] eqn:Hb.
      cbn [fst snd]. by eapply Hbind, bind_system_active.
Qed.

Definition team_ok (t : Team) : Prop :=
  system_ok gen (coord t, claimed t) /\ (next_operation_id (coord t) <= u64_max)%N /\
  done_is_idle (coord t) (manager t).

Lemma team_step_ok t t' : team_ok t -> team_step t t' -> team_ok t'.
Proof.
  intros (Hok & Hn & Hd) Hst. destruct Hst as [request run_id lid s cl m|s cl m calls s' cl' now Hc|s cl m id reason now|s cl m now];
    simpl in *.
  - destruct (coord_step_ok gen (s, cl) _ Hn Hok (step_acquire gen _ _ request run_id lid s cl m)) as [Hok' Hn'].
    split_and!; [exact Hok'|exact Hn'|]. apply acquire_done; [apply Hok|done].
  - destruct (coord_step_ok gen (s, cl) (s', cl') Hn Hok (step_call gen _ _ _ Hc)) as [Hok' Hn'].
    split_and!; [done|done|]. simpl. apply perform_all_done; [apply (current_call _ _ _ Hc)|].
    intros r Hr Hdone. apply (idle_preserved s).
    + apply (coord_step_evolves gen (s, cl) (s', cl') Hok (step_call gen _ _ _ Hc)).
    + apply (call_no_new (s, cl) calls (s', cl') Hok Hc).
    + by apply (Hd r).
  - split_and!; [done|done|]. unfold begin_cancel. simpl. destruct (run m) as [r|] eqn:Hr; [|done].
    destruct (_ && _); [|done]. simpl. intros r' Hr'.
    destruct (summary r); simpl in Hr'; injection Hr' as <-; done.
  - split_and!; [done|done|]. simpl. unfold publish_snapshot_update.
    destruct (current_payload _ now m) as [p|]; [|done]. by destruct (rp_status p).
Qed.

Lemma team_reachable_ok t : team_reachable t -> team_ok t.
Proof.
  intros [id Hr].
  assert (Hinit : team_ok (mkTeam CoordinatorState_default [] (TeamRunManager_new id)))
    by (split_and!; [apply initial_ok|done|by intros r]).
  induction Hr as [|x y z Hxy _ IH]; [done|]. apply IH. by eapply team_step_ok.
Qed.

Lemma begin_cancel_active m r reason now :
  active_run m = Some r -> exists m1 r1, begin_cancel (team_run_id r) reason now m = (Ok tt, m1) /\
    run m1 = Some r1 /\ team_run_id r1 = team_run_id r /\ status r1 = TeamRunStatus.Cancelling /\
    cancel_reason r1 = reason.
Proof.
  unfold active_run, begin_cancel. destruct (run m) as [r0|]; [|done].
  destruct (is_active r0) eqn:E; [|done]. intros [= ->]. rewrite bool_decide_eq_true_2 by done.
  simpl. destruct (summary r); eexists _, _; split; [done| |done|]; split_and!; done.
Qed.

(** ** Properties *)


(** A visible or system enqueue is never without a run, and never takes
    over a running one: bound through the port it gets the id of the active
    run, of which only the user-intervention flag may change, if there is one
    (only a user's enqueue reports and records an intervention), and otherwise
    opens a run of its own, accepted and with the fresh id. *)
Theorem bound_to_active_run request new_id m :
  match req_binding request with
  | CausalBinding.UserVisible | CausalBinding.SystemInitiated _ => True
  | _ => False
  end ->
  let '(b, m') := bind_enqueue request new_id m in
  let user := match req_binding request with CausalBinding.UserVisible => true | _ => false end in
  (exists r', active_run m' = Some r' /\ binding_run_id b = Some (team_run_id r')) /\
  match active_run m with
  | Some r =>
      binding_run_id b = Some (team_run_id r) /\ created_new_run b = false /\
      user_intervention b = user /\
      active_run m' = Some (if user then mark_intervention r else r)
  | None =>
      binding_run_id b = Some new_id /\ created_new_run b = true /\ user_intervention b = false /\
      exists src, active_run m' = Some (new_record new_id src (req_slot_id request) (req_role request))
  end.
Proof.
  intros Hreq. cbn [bind_enqueue TeamRunManager_port]. unfold manager_bind_enqueue.
  destruct (req_binding request) eqn:Hb; try done.
  - destruct (bind_user_enqueue _ _ new_id m) as [b m'] eqn:He. split; [by eapply bind_user_active|].
    unfold bind_user_enqueue in He. destruct (active_run m) as [r|] eqn:Ha; injection He as <- <-; simpl.
    + split_and!; try done. unfold active_run in *. simpl. destruct (run m) as [r0|]; [|done].
      destruct (is_active r0) eqn:E; [|done]. injection Ha as ->. unfold is_active in *. simpl. by rewrite E.
    + split_and!; try done. by eexists.
  - destruct (bind_system _ _ new_id m) as [b m'] eqn:He. split; [by eapply bind_system_active|].
    unfold bind_system in He. destruct (active_run m) as [r|] eqn:Ha; injection He as <- <-; simpl.
    + by split_and!.
    + split_and!; try done. by eexists.
Qed.

(** Cancelling the active run ends it: [begin_cancel] is accepted, and
    once the coordinator's [cancel_run] and the calls it makes are through, the
    manager has no active run, the run is cancelled (failed, if an intent of it
    had failed), and the coordinator has no work left for it. *)
Theorem cancel_ends_run t r order reason now1 now2 :
  team_reachable t -> active_run (manager t) = Some r -> key_order order (coord t) ->
  exists res s' calls,
    cancel_run (team_run_id r) order (coord t) = Some (res, s', calls) /\
    fst (begin_cancel (team_run_id r) reason now1 (manager t)) = Ok tt /\
    let m' := perform_all now2 calls (snd (begin_cancel (team_run_id r) reason now1 (manager t))) in
    active_run m' = None /\
    (exists r', run m' = Some r' /\ team_run_id r' = team_run_id r /\ cancel_reason r' = reason /\
       status r' = if (0 <? failed_intent_count (cancel_summary res))%nat
                   then TeamRunStatus.Failed else TeamRunStatus.Cancelled) /\
    has_work (run_summary_locked s' (team_run_id r)) = false.
Proof.
  intros (Hok & _ & _)%team_reachable_ok Ha Hord. pose proof (so_wf _ _ Hok) as Hwf. simpl in Hwf.
  destruct (cancel_run_spec gen (team_run_id r) order (coord t) Hwf Hord)
    as (res & s' & Heq & _ & Hsum & _ & Hterm & Hle & _).
  assert (Hw : has_work (run_summary_locked s' (team_run_id r)) = false).
  { apply has_work_false. split; [|by intros k rec [_ ?]%Hle].
    intros id i Hi Hrun. apply (Hterm id i Hi). by apply bool_decide_eq_true. }
  destruct (begin_cancel_active (manager t) r reason now1 Ha)
    as (m1 & r1 & Hbc & Hrun1 & Hid & Hst & Hre).
  exists res, s', [ApplyWorkSummary (run_summary_locked s' (team_run_id r))].
  rewrite Hbc. split; [done|]. split; [done|]. cbv zeta. unfold perform_all, run_list.
  simpl. unfold manager_apply_work_summary. rewrite Hrun1.
  rewrite bool_decide_eq_true_2 by (by rewrite Hid).
  assert (Hstat : summary_status (status r1) (run_summary_locked s' (team_run_id r)) =
    if (0 <? failed_intent_count (cancel_summary res))%nat
    then TeamRunStatus.Failed else TeamRunStatus.Cancelled).
  { unfold summary_status. rewrite <- Hsum in *. destruct (0 <? failed_intent_count _)%nat; [done|].
    rewrite no_work_has_work, Hw. simpl. by rewrite decide_True. }
  split_and!.
  - unfold active_run, is_active. simpl. rewrite Hstat. by destruct (0 <? _)%nat.
  - eexists. split_and!; [done|done|done|done].
  - done.
Qed.
End Team.

(** ** Witnesses *)

Definition team_request : EnqueueRequest :=
  mkEnqueueRequest "lead" TeamRunTargetRole.Lead WorkSource.UserMessage CausalBinding.UserVisible.

Definition team_m0 : TeamRunManager := TeamRunManager_new "team".
Definition team_s1 : CoordinatorState := demo_ready.
Definition team_m1 : TeamRunManager :=
  perform_all 1 (match set_runtime_constraint "lead" RuntimeConstraint.Ready [] CoordinatorState_default with
                 | Some (_, _, calls) => calls | None => [] end) team_m0.
Definition team_s2 : CoordinatorState :=
  snd (fst (acquire_enqueue "g" team_request "run-1" "L1" team_s1 team_m1)).
Definition team_m2 : TeamRunManager :=
  snd (acquire_enqueue "g" team_request "run-1" "L1" team_s1 team_m1).
Definition team_s3 : CoordinatorState :=
  snd (fst (commit_enqueue "g" demo_lease (Some "m1") "i1" 5 team_s2)).
Definition team_m3 : TeamRunManager :=
  perform_all 2 (snd (commit_enqueue "g" demo_lease (Some "m1") "i1" 5 team_s2)) team_m2.

Lemma team3_reachable : team_reachable "g" (mkTeam team_s3 [] team_m3).
Proof.
  exists "team". eapply rtc_l; [|eapply rtc_l; [|eapply rtc_l; [|apply rtc_refl]]].
  - apply (team_call "g" CoordinatorState_default [] team_m0
      (match set_runtime_constraint "lead" RuntimeConstraint.Ready [] CoordinatorState_default with
       | Some (_, _, calls) => calls | None => [] end) team_s1 [] 1).
    eapply (call_constraint "g" "lead" RuntimeConstraint.Ready []); [|vm_compute; reflexivity].
    split; [constructor|]. intros id. split; [by intros ?%elem_of_nil|by intros []].
  - exact (team_acquire "g" team_request "run-1" "L1" team_s1 [] team_m1).
  - apply (team_call "g" team_s2 [] team_m2 _ team_s3 [] 2).
    by apply (call_commit "g" demo_lease (Some "m1") "i1" 5 team_s2 []).
Qed.

Lemma team3_order : key_order ["i1"] team_s3.
Proof.
  split; [apply NoDup_singleton|]. intros id. rewrite list_elem_of_singleton.
  assert (Hi : intents team_s3 = {["i1" := commit_intent "g" demo_lease (Some "m1") "i1" 5]})
    by (vm_compute; reflexivity).
  rewrite Hi. split.
  - intros ->. rewrite lookup_singleton_eq. by eexists.
  - intros [x [<- _]%lookup_singleton_Some]. done.
Qed.

Definition team_run3 : TeamRunRecord :=
  default (new_record "" TeamRunSource.UserMessage "" TeamRunTargetRole.Lead) (active_run team_m3).

Lemma cancel_ends_run_witness :
  exists res s' calls, cancel_run "run-1" ["i1"] team_s3 = Some (res, s', calls) /\
    active_run (perform_all 4 calls (snd (begin_cancel "run-1" (Some "user") 3 team_m3))) = None.
Proof.
  destruct (cancel_ends_run "g" (mkTeam team_s3 [] team_m3) team_run3 ["i1"] (Some "user") 3 4
    team3_reachable eq_refl team3_order) as (res & s' & calls & H1 & _ & H2 & _).
  exists res, s', calls. split; [exact H1|exact H2].
Defined.

Lemma bound_to_active_run_witness :
  binding_run_id (fst (bind_enqueue team_request "run-9" team_m3)) = Some "run-1".
Proof.
  pose proof (bound_to_active_run team_request "run-9" team_m3 I) as H.
  destruct (bind_enqueue team_request "run-9" team_m3) as [b m'] eqn:He.
  destruct H as [_ H]. assert (Ha : active_run team_m3 = Some team_run3) by (vm_compute; reflexivity).
  rewrite Ha in H. exact (proj1 H).
Defined.

Definition team_m4 : TeamRunManager := snd (begin_cancel "run-1" None 3 team_m3).
Definition team_cancel5 : CancelRunWorkResult * CoordinatorState * list PortCall :=
  default (mkCancelRunWorkResult [] [] (run_summary_locked team_s3 ""), team_s3, [])
    (cancel_run "run-1" ["i1"] team_s3).
Definition team_s5 : CoordinatorState := snd (fst team_cancel5).
Definition team_calls5 : list PortCall := snd team_cancel5.
Definition team_m5 : TeamRunManager := perform_all 4 team_calls5 team_m4.
Definition team_run5 : TeamRunRecord := default team_run3 (run team_m5).

Lemma team_cancel5_eq :
  cancel_run "run-1" ["i1"] team_s3 = Some (fst (fst team_cancel5), team_s5, team_calls5).
Proof. vm_compute. reflexivity. Qed.

Lemma team5_reachable : team_reachable "g" (mkTeam team_s5 [] team_m5).
Proof.
  destruct team3_reachable as [id Hr]. exists id. eapply rtc_r; [eapply rtc_r; [exact Hr|]|].
  - apply (team_begin_cancel "g" team_s3 [] team_m3 "run-1" None 3).
  - apply (team_call "g" team_s3 [] team_m4 team_calls5 team_s5 [] 4).
    exact (call_cancel_run "g" "run-1" ["i1"] team_s3 [] _ _ _ team3_order team_cancel5_eq).
Qed.


(** ** What the two do not promise

    [reconcile_mailbox] settles the queued intents whose messages are gone but
    publishes no run summary: the manager goes on reporting the run as active,
    with no work left in the coordinator, until some other call names the run. *)
Theorem reconcile_leaves_run_active :
  exists t r, team_reachable "g" t /\ active_run (manager t) = Some r /\
    has_work (run_summary_locked (coord t) (team_run_id r)) = false.
Proof.
  exists (mkTeam (snd (reconcile_mailbox "g" "lead" [] TeamRunTargetRole.Lead r_ids 6 team_s3)) []
            (perform_all 6 [] team_m3)), team_run3.
  split_and!; [|vm_compute; reflexivity|vm_compute; reflexivity].
  destruct team3_reachable as [id Hr]. exists id. eapply rtc_r; [exact Hr|].
  apply (team_call "g" team_s3 [] team_m3 [] _ [] 6). apply call_reconcile; [unfold r_ids; apply _|].
  intros k _. assert (Hi : intents team_s3 = {["i1" := commit_intent "g" demo_lease (Some "m1") "i1" 5]})
    by (vm_compute; reflexivity).
  rewrite Hi. by apply lookup_singleton_ne.
Qed.

(** The summaries are computed under the coordinator's lock and applied after
    it is released. If another caller leases the run in between, the delayed
    summary completes it while the lease is out: the run the caller was bound to
    is no longer active. *)
Definition team_b1 : WorkBatch := make_batch "g" "lead" WorkPriority.Foreground ["i1"] "b1" 1 team_s3.
Definition race_next := next "g" "lead" "b1" team_s3.
Definition race_start := mark_started "g" team_b1 "turn-1" 7 (snd (fst race_next)).
Definition race_done := complete_batch "g" team_b1 (snd (fst race_start)).
Definition race_manager : TeamRunManager :=
  perform_all 8 (snd race_start) (perform_all 7 (snd race_next) team_m3).
Definition race_lease :=
  acquire_enqueue "g" team_request "run-2" "L2" (snd (fst race_done)) race_manager.

Theorem delayed_summary_ends_live_run :
  option_map team_run_id (active_run (snd race_lease)) = Some "run-1" /\
  option_map status (run (perform_all 9 (snd race_done) (snd race_lease)))
    = Some TeamRunStatus.Completed /\
  has_work (run_summary_locked (snd (fst race_lease)) "run-1") = true.
Proof. vm_compute. repeat split. Qed.

(** A run being cancelled forgets it when a summary with a running batch comes
    in before the last one: it ends completed, not cancelled. *)
Theorem cancelling_is_forgotten :
  let running := mkRunWorkSummary "run-1" 0 0 1 0 0 0 [] in
  let last := mkRunWorkSummary "run-1" 0 0 0 0 0 0 [] in
  option_map status (run (manager_apply_work_summary 5 last
    (manager_apply_work_summary 4 running (snd (begin_cancel "run-1" None 3 team_m3)))))
  = Some TeamRunStatus.Completed.
Proof. vm_compute. reflexivity. Qed.
