(* ===== verification/RuntimeTokens.v ===== *)
(** * Runtime tokens
    ([crates/tjuaeui-ai-agent/src/runtime_token.rs])

    [RuntimeTokenService] gives the programs of an agent a token with which
    they may call back into the server, for one user and conversation.  The
    store keeps a hash of each token; SHA-256 is a parameter.  The random bytes
    and the clock are arguments of [issue]. *)

From S2P Require Import Prelude.

Module RuntimeTokenScope.
Inductive t : Type := TeamContext | TeamCall.
#[export] Instance t_eq_dec : EqDecision t.
Proof. solve_decision. Defined.
End RuntimeTokenScope.
Export (hints) RuntimeTokenScope.

Module RuntimeTokenError.
Inductive t : Type := Missing | Unknown | UserMismatch | ConversationMismatch | ScopeMissing | GenerationMismatch.
End RuntimeTokenError.

Definition TEAM_RUNTIME_TOKEN_SESSION_GENERATION : string := "default".

(** A [HashSet] of scopes is a list, read as a set. *)
Record RuntimeTokenClaims : Type := mkClaims {
  claim_user : string;
  claim_conversation : string;
  claim_scopes : list RuntimeTokenScope.t;
  claim_issued_at : Z;
  claim_generation : string;
}.

Record RuntimeTokenEntry : Type := mkTokenEntry { entry_token : string; entry_claims : RuntimeTokenClaims }.

(** [RuntimeTokenService]: the tokens by hash. *)
Definition RuntimeTokenService : Type := gmap string RuntimeTokenEntry.

(** [hex::encode]. *)
Definition hex_digit (n : N) : N := (if n <? 10 then 48 + n else 87 + n)%N.
Fixpoint hex_encode (l : list N) : list N :=
  match l with
  | [] => []
  | b :: l => hex_digit (b / 16) :: hex_digit (b mod 16) :: hex_encode l
  end.
Definition generate_token (random : list N) : string := of_bytes (hex_encode random).

Section Tokens.
Context (token_hash : string -> string).

(** The context a token is for. *)
Definition same_context (user conversation : string) (c : RuntimeTokenClaims) : bool :=
  bool_decide (claim_user c = user) && bool_decide (claim_conversation c = conversation).

Definition covers (user conversation generation : string) (scopes : list RuntimeTokenScope.t)
    (c : RuntimeTokenClaims) : bool :=
  same_context user conversation c && bool_decide (claim_generation c = generation) &&
  forallb (fun sc => bool_decide (sc ∈ claim_scopes c)) scopes.

Definition existing_token (user conversation generation : string) (scopes : list RuntimeTokenScope.t)
    (s : RuntimeTokenService) : option RuntimeTokenEntry :=
  List.find (fun e => covers user conversation generation scopes (entry_claims e)) (map_values s).

Definition keep_tokens (p : RuntimeTokenClaims -> bool) (s : RuntimeTokenService) : RuntimeTokenService :=
  filter (fun kv => p (entry_claims kv.2) = true) s.

Definition invalidate_conversation (user conversation : string) (s : RuntimeTokenService) : RuntimeTokenService :=
  keep_tokens (fun c => negb (same_context user conversation c)) s.
Definition invalidate_conversation_id (conversation : string) (s : RuntimeTokenService) : RuntimeTokenService :=
  keep_tokens (fun c => negb (bool_decide (claim_conversation c = conversation))) s.
Definition invalidate_generation (conversation generation : string) (s : RuntimeTokenService) : RuntimeTokenService :=
  keep_tokens (fun c => negb (bool_decide (claim_conversation c = conversation) && bool_decide (claim_generation c = generation))) s.

(** The token with its claims, and the store. *)
Definition issue (user conversation generation : string) (scopes : list RuntimeTokenScope.t)
    (random : list N) (now : Z) (s : RuntimeTokenService) : RuntimeTokenEntry * RuntimeTokenService :=
  match existing_token user conversation generation scopes s with
  | Some existing => (existing, s)
  | None =>
      let entry := mkTokenEntry (generate_token random) (mkClaims user conversation scopes now generation) in
      (entry, <[token_hash (entry_token entry) := entry]> (invalidate_conversation user conversation s))
  end.

Definition validate (raw_token : option string) (user conversation : string) (scope : RuntimeTokenScope.t)
    (generation : string) (s : RuntimeTokenService) : Result RuntimeTokenClaims RuntimeTokenError.t :=
  match raw_token with
  | None => Err RuntimeTokenError.Missing
  | Some raw =>
      if bool_decide (str_trim raw = "") then Err RuntimeTokenError.Missing
      else
        match s !! token_hash (str_trim raw) with
        | None => Err RuntimeTokenError.Unknown
        | Some e =>
            let c := entry_claims e in
            if negb (bool_decide (claim_user c = user)) then Err RuntimeTokenError.UserMismatch
            else if negb (bool_decide (claim_conversation c = conversation)) then Err RuntimeTokenError.ConversationMismatch
            else if negb (bool_decide (scope ∈ claim_scopes c)) then Err RuntimeTokenError.ScopeMissing
            else if negb (bool_decide (claim_generation c = generation)) then Err RuntimeTokenError.GenerationMismatch
            else Ok c
        end
  end.

(** ** Runs *)

Inductive TokenOp : Type :=
| Issue (user conversation generation : string) (scopes : list RuntimeTokenScope.t) (random : list N) (now : Z)
| InvalidateConversation (user conversation : string)
| InvalidateConversationId (conversation : string)
| InvalidateGeneration (conversation generation : string).

Definition token_op (s : RuntimeTokenService) (op : TokenOp) : RuntimeTokenService :=
  match op with
  | Issue user conversation generation scopes random now => snd (issue user conversation generation scopes random now s)
  | InvalidateConversation user conversation => invalidate_conversation user conversation s
  | InvalidateConversationId conversation => invalidate_conversation_id conversation s
  | InvalidateGeneration conversation generation => invalidate_generation conversation generation s
  end.

(** ** The store

    A token is stored under its hash, and a context has at most one. *)
Record tokens_ok (s : RuntimeTokenService) : Prop := {
  token_key : forall k e, s !! k = Some e -> k = token_hash (entry_token e);
  token_single : forall k1 k2 e1 e2, s !! k1 = Some e1 -> s !! k2 = Some e2 ->
    claim_user (entry_claims e1) = claim_user (entry_claims e2) ->
    claim_conversation (entry_claims e1) = claim_conversation (entry_claims e2) -> k1 = k2;
}.

Lemma kept_lookup p s k e : keep_tokens p s !! k = Some e <-> s !! k = Some e /\ p (entry_claims e) = true.
Proof. apply (map_lookup_filter_Some (fun kv => p (entry_claims kv.2) = true) s k e). Qed.

Lemma keep_ok p s : tokens_ok s -> tokens_ok (keep_tokens p s).
Proof.
  intros [Hk Hs]. split.
  - intros k e [He _]%kept_lookup. by apply Hk.
  - intros k1 k2 e1 e2 [He1 _]%kept_lookup [He2 _]%kept_lookup. by apply Hs with (e1 := e1).
Qed.

Lemma same_context_iff user conversation c :
  same_context user conversation c = true <-> claim_user c = user /\ claim_conversation c = conversation.
Proof. unfold same_context. by rewrite andb_true_iff, !bool_decide_eq_true. Qed.

Lemma existing_spec user conversation generation scopes s e :
  existing_token user conversation generation scopes s = Some e ->
  (exists k, s !! k = Some e) /\ covers user conversation generation scopes (entry_claims e) = true.
Proof.
  unfold existing_token. intros [Hin Hc]%find_some. split; [|done]. by apply elem_of_map_values, list_elem_of_In.
Qed.

Lemma existing_none user conversation generation scopes s k e :
  existing_token user conversation generation scopes s = None -> s !! k = Some e ->
  covers user conversation generation scopes (entry_claims e) = false.
Proof.
  unfold existing_token. intros Hnone Hk. apply (find_none _ _ Hnone). apply list_elem_of_In, elem_of_map_values. by exists k.
Qed.

Lemma op_ok s op : tokens_ok s -> tokens_ok (token_op s op).
Proof.
  intros Hok. destruct op as [user conversation generation scopes random now| | |]; simpl; try by apply keep_ok.
  unfold issue. destruct (existing_token _ _ _ _ s); [done|]. simpl.
  pose proof (keep_ok (fun c => negb (same_context user conversation c)) s Hok) as [Hk Hs].
  assert (Hother : forall k e, invalidate_conversation user conversation s !! k = Some e ->
    same_context user conversation (entry_claims e) = false).
  { intros k e [_ Hc]%kept_lookup. by apply negb_true_iff in Hc. }
  split.
  - intros k e [[<- <-]|[_ He]]%lookup_insert_Some; [done|by apply Hk].
  - intros k1 k2 e1 e2 [[<- <-]|[_ He1]]%lookup_insert_Some [[<- <-]|[_ He2]]%lookup_insert_Some Hu Hc; try done.
    + apply Hother in He2. simpl in *. rewrite (proj2 (same_context_iff user conversation _)) in He2; done.
    + apply Hother in He1. simpl in *. rewrite (proj2 (same_context_iff user conversation _)) in He1; done.
    + by apply Hs with (e1 := e1) (e2 := e2).
Qed.

Lemma run_ok ops : tokens_ok (run_list token_op ∅ ops).
Proof. apply run_list_invariant; [by split|]. intros s op Hs _. by apply op_ok. Qed.
End Tokens.

(** ** Tokens are plain text *)
Definition plain (l : list N) : Prop := Forall (fun a => 33 <= a < 128)%N l.

Lemma hex_digit_plain n : (n < 16)%N -> (33 <= hex_digit n < 128)%N.
Proof. unfold hex_digit. destruct (n <? 10)%N eqn:E; lia. Qed.

Lemma hex_plain l : Forall (fun b => b < 256)%N l -> plain (hex_encode l).
Proof.
  induction 1 as [|b l Hb _ IH]; [constructor|]. simpl. constructor; [|constructor; [|done]]; apply hex_digit_plain.
  - apply N.Div0.div_lt_upper_bound. lia.
  - by apply N.mod_lt.
Qed.

Lemma space_front_plain a l : (33 <= a < 128)%N -> space_front (a :: l) = 0.
Proof.
  intros Ha. unfold space_front. replace ((9 <=? a) && (a <=? 13) || (a =? 32))%N with false by lia.
  destruct l as [|b l]; [done|]. replace ((a =? 194) && ((b =? 133) || (b =? 160)))%N with false by lia.
  destruct l as [|c l]; [done|].
  replace (a =? 225)%N with false by lia. replace (a =? 226)%N with false by lia. by replace (a =? 227)%N with false by lia.
Qed.

Lemma space_back_plain l : plain l -> space_back l = 0.
Proof.
  intros Hl. destruct l as [|c [|b [|a l]]]; inversion_clear Hl as [|? ? Hc Hl']; [done|by apply space_front_plain| |];
    inversion_clear Hl' as [|? ? Hb Hl'']; unfold space_back; rewrite (space_front_plain c), (space_front_plain b) by done; [done|].
  inversion_clear Hl'' as [|? ? Ha _]. by rewrite (space_front_plain a).
Qed.

Lemma drop_none space l : (forall a l', l = a :: l' -> space l = 0) -> drop_spaces space 0 l = l.
Proof. intros Hs. destruct l as [|a l']; [done|]. simpl. by rewrite (Hs a l' eq_refl). Qed.

Lemma bytes_of_bytes l : plain l -> bytes (of_bytes l) = l.
Proof.
  unfold bytes, of_bytes. rewrite String.list_ascii_of_string_of_list_ascii. intros Hl.
  induction Hl as [|a l Ha _ IH]; [done|]. simpl. rewrite Ascii.N_ascii_embedding by lia. by rewrite IH.
Qed.

Lemma trim_plain l : plain l -> str_trim (of_bytes l) = of_bytes l.
Proof.
  intros Hl. unfold str_trim. rewrite bytes_of_bytes by done.
  rewrite (drop_none space_front) by (intros a l' ->; apply space_front_plain; by inversion Hl).
  rewrite (drop_none space_back); [by rewrite rev_involutive|].
  intros a l' _. apply space_back_plain. by apply List.Forall_rev.
Qed.

(** Random bytes: at least one, each a byte. *)
Definition random_bytes (random : list N) : Prop := random <> [] /\ Forall (fun b => b < 256)%N random.

Lemma token_plain random : random_bytes random ->
  str_trim (generate_token random) = generate_token random /\ generate_token random <> "".
Proof.
  intros [Hne Hb]. split; [by apply trim_plain, hex_plain|]. by destruct random.
Qed.

(** ** Properties *)
Section Properties.
Context (token_hash : string -> string).

(** What ends the tokens of a context: invalidating it, or asking for a token
    that the one it has does not cover. *)
Definition revokes (user conversation generation : string) (scopes : list RuntimeTokenScope.t) (op : TokenOp) : bool :=
  match op with
  | Issue u c g sc _ _ =>
      bool_decide (u = user) && bool_decide (c = conversation) &&
      negb (bool_decide (g = generation) && forallb (fun x => bool_decide (x ∈ scopes)) sc)
  | InvalidateConversation u c => bool_decide (u = user) && bool_decide (c = conversation)
  | InvalidateConversationId c => bool_decide (c = conversation)
  | InvalidateGeneration c g => bool_decide (c = conversation) && bool_decide (g = generation)
  end.
Definition revokes_claims (c : RuntimeTokenClaims) : TokenOp -> bool :=
  revokes (claim_user c) (claim_conversation c) (claim_generation c) (claim_scopes c).

(** Where an entry comes from. *)
Definition issued_by (e : RuntimeTokenEntry) (op : TokenOp) : Prop :=
  exists random now, op = Issue (claim_user (entry_claims e)) (claim_conversation (entry_claims e))
    (claim_generation (entry_claims e)) (claim_scopes (entry_claims e)) random now /\
    entry_token e = generate_token random.

Lemma op_lookup s op k e : tokens_ok token_hash s -> token_op token_hash s op !! k = Some e ->
  issued_by e op \/ (s !! k = Some e /\ revokes_claims (entry_claims e) op = false).
Proof.
  intros Hok. destruct op as [u c g sc random now|u c|c|c g]; simpl.
  - unfold issue. destruct (existing_token u c g sc s) as [old|] eqn:Hex; simpl.
    + intros Hk. right. split; [done|]. apply existing_spec in Hex as [[k' Hk'] Hcov].
      unfold revokes_claims. simpl. case_bool_decide as Hu; [|done]. case_bool_decide as Hc; [|done]. simpl.
      unfold covers in Hcov. apply andb_true_iff in Hcov as [[Hctx Hg]%andb_true_iff Hsc].
      apply same_context_iff in Hctx as [Hu' Hc'].
      assert (k = k') as <- by (apply (token_single _ _ Hok _ _ _ _ Hk Hk'); congruence).
      rewrite Hk in Hk'. injection Hk' as <-. rewrite Hsc. apply bool_decide_eq_true in Hg. by rewrite bool_decide_true.
    + intros [[<- <-]|[_ [He Hp]%kept_lookup]]%lookup_insert_Some; [left; by exists random, now|right].
      split; [done|]. apply negb_true_iff in Hp. unfold revokes_claims. simpl. unfold same_context in Hp.
      rewrite <- (bool_decide_ext (claim_user (entry_claims e) = u) (u = claim_user (entry_claims e))) by naive_solver.
      rewrite <- (bool_decide_ext (claim_conversation (entry_claims e) = c) (c = claim_conversation (entry_claims e))) by naive_solver.
      by rewrite Hp.
  - intros [He Hp]%kept_lookup. right. split; [done|]. apply negb_true_iff in Hp. unfold revokes_claims. simpl.
    unfold same_context in Hp. repeat case_bool_decide; simplify_eq; done.
  - intros [He Hp]%kept_lookup. right. split; [done|]. apply negb_true_iff in Hp. unfold revokes_claims. simpl.
    repeat case_bool_decide; simplify_eq; done.
  - intros [He Hp]%kept_lookup. right. split; [done|]. apply negb_true_iff in Hp. unfold revokes_claims. simpl.
    repeat case_bool_decide; simplify_eq; done.
Qed.

Lemma run_issued ops k e : run_list (token_op token_hash) ∅ ops !! k = Some e ->
  exists pre op post, ops = pre ++ op :: post /\ issued_by e op /\ Forall (fun op => revokes_claims (entry_claims e) op = false) post.
Proof.
  revert k. induction ops as [|op ops IH] using rev_ind; intros k; [done|]. rewrite run_list_app, run_list_cons. simpl.
  intros [Hi|[Hk Hr]]%op_lookup; [|destruct (IH k Hk) as (pre & op' & post & -> & Hi & Hpost)|apply run_ok].
  - exists ops, op, []. by split.
  - exists pre, op', (post ++ [op]). rewrite <- app_assoc. split; [done|]. split; [done|]. by apply Forall_app_2; [|constructor].
Qed.

Lemma validate_ok raw user conversation scope generation s c :
  validate token_hash raw user conversation scope generation s = Ok c <->
  exists r e, raw = Some r /\ str_trim r <> "" /\ s !! token_hash (str_trim r) = Some e /\ c = entry_claims e /\
    claim_user c = user /\ claim_conversation c = conversation /\ claim_generation c = generation /\ scope ∈ claim_scopes c.
Proof.
  unfold validate. destruct raw as [r|]; [|naive_solver]. case_bool_decide as Hne; [naive_solver|].
  destruct (s !! token_hash (str_trim r)) as [e|] eqn:He; [|naive_solver].
  repeat (case_bool_decide; simpl; [|naive_solver]). split; [|naive_solver].
  intros [= <-]. exists r, e. naive_solver.
Qed.

Lemma kept_unless_revoked s op k e : tokens_ok token_hash s -> s !! k = Some e -> revokes_claims (entry_claims e) op = false ->
  (forall u c g sc random now, op = Issue u c g sc random now -> token_hash (generate_token random) <> k) ->
  token_op token_hash s op !! k = Some e.
Proof.
  intros Hok Hk Hr Hfresh. unfold revokes_claims in Hr. destruct op as [u c g sc random now|u c|c|c g]; simpl in *.
  - unfold issue. destruct (existing_token u c g sc s) as [old|] eqn:Hex; [done|]. simpl.
    apply lookup_insert_Some. right. split; [by eapply Hfresh|]. apply kept_lookup. split; [done|]. apply negb_true_iff.
    pose proof (existing_none _ _ _ _ _ _ _ Hex Hk) as Hcov. unfold covers, same_context in *.
    repeat case_bool_decide; simplify_eq; try done. simpl in *. by rewrite Hcov in Hr.
  - apply kept_lookup. split; [done|]. unfold same_context. repeat case_bool_decide; simplify_eq; done.
  - apply kept_lookup. split; [done|]. repeat case_bool_decide; simplify_eq; done.
  - apply kept_lookup. split; [done|]. repeat case_bool_decide; simplify_eq; done.
Qed.

Lemma kept_by_run s ops k e : tokens_ok token_hash s -> s !! k = Some e ->
  Forall (fun op => revokes_claims (entry_claims e) op = false) ops ->
  (forall u c g sc random now, Issue u c g sc random now ∈ ops -> token_hash (generate_token random) <> k) ->
  run_list (token_op token_hash) s ops !! k = Some e.
Proof.
  intros Hok Hk Hr. revert s Hok Hk. induction Hr as [|op ops Hop _ IH]; intros s Hok Hk Hfresh; [done|]. simpl.
  apply IH; [by apply op_ok| |].
  - apply kept_unless_revoked; try done. intros u c g sc random now ->. eapply Hfresh. by left.
  - intros u c g sc random now Hin. eapply Hfresh. by right.
Qed.

(** What [issue] hands out is stored, for that context and at least those scopes. *)
Lemma issue_stored s u c g sc random now : tokens_ok token_hash s ->
  let '(e, s') := issue token_hash u c g sc random now s in
  s' !! token_hash (entry_token e) = Some e /\ claim_user (entry_claims e) = u /\ claim_conversation (entry_claims e) = c /\
  claim_generation (entry_claims e) = g /\ forall x, x ∈ sc -> x ∈ claim_scopes (entry_claims e).
Proof.
  intros Hok. unfold issue. destruct (existing_token u c g sc s) as [e|] eqn:Hex.
  - apply existing_spec in Hex as [[k Hk] Hcov]. unfold covers in Hcov.
    apply andb_true_iff in Hcov as [[Hctx Hg%bool_decide_eq_true]%andb_true_iff Hsc]. apply same_context_iff in Hctx as [Hu Hc].
    rewrite <- (token_key _ _ Hok k e Hk). split_and!; try done. intros x Hx. rewrite forallb_forall in Hsc.
    apply list_elem_of_In, Hsc in Hx. by apply bool_decide_eq_true in Hx.
  - simpl. split_and!; try done. apply lookup_insert_eq.
Qed.
End Properties.

(** A token is good only for what it was issued for.  Whatever the callers
    did before, a token that is accepted for a user, conversation, scope and
    generation has the hash of one that [issue] generated for just that user,
    conversation and generation, with that scope among those asked for; and
    since then neither was the conversation or generation invalidated nor a
    token issued that replaces it. *)
Theorem token_scoped token_hash ops raw user conversation scope generation c :
  validate token_hash raw user conversation scope generation (run_list (token_op token_hash) ∅ ops) = Ok c ->
  exists r pre post scopes random now,
    raw = Some r /\ ops = pre ++ Issue user conversation generation scopes random now :: post /\
    scope ∈ scopes /\ token_hash (generate_token random) = token_hash (str_trim r) /\
    Forall (fun op => revokes user conversation generation scopes op = false) post.
Proof.
  intros (r & e & -> & _ & He & -> & <- & <- & <- & Hsc)%validate_ok.
  pose proof (token_key _ _ (run_ok token_hash ops) _ _ He) as Hkey.
  destruct (run_issued token_hash ops _ e He) as (pre & op & post & -> & (random & now & -> & Htok) & Hpost).
  exists r, pre, post, (claim_scopes (entry_claims e)), random, now. split_and!; try done. congruence.
Qed.

(** An issued token works.  What [issue] hands out, after any history, is
    accepted for its context and every scope asked for, also when sent with
    white space around it, as long as nothing revokes it and no token issued
    later has the same hash. *)
Theorem issued_token_accepted token_hash ops user conversation generation scopes random now later scope :
  Forall (fun op => match op with Issue _ _ _ _ random _ => random_bytes random | _ => True end) ops ->
  random_bytes random -> scope ∈ scopes ->
  let '(e, s) := issue token_hash user conversation generation scopes random now (run_list (token_op token_hash) ∅ ops) in
  Forall (fun op => revokes_claims (entry_claims e) op = false) later ->
  (forall u c g sc random' now', Issue u c g sc random' now' ∈ later ->
     token_hash (generate_token random') <> token_hash (entry_token e)) ->
  forall raw, str_trim raw = entry_token e ->
  validate token_hash (Some raw) user conversation scope generation (run_list (token_op token_hash) s later) = Ok (entry_claims e).
Proof.
  intros Hops Hrandom Hscope. pose proof (run_ok token_hash ops) as Hok.
  pose proof (issue_stored token_hash _ user conversation generation scopes random now Hok) as Hst.
  assert (Hne : entry_token (fst (issue token_hash user conversation generation scopes random now
    (run_list (token_op token_hash) ∅ ops))) <> "").
  { unfold issue. destruct (existing_token _ _ _ _ _) as [e|] eqn:Hex; [|by apply token_plain].
    apply existing_spec in Hex as [[k Hk] _]. destruct (run_issued token_hash ops k e Hk) as (pre & op & post & -> & (rd & now' & -> & Htok) & _).
    simpl. rewrite Htok. apply token_plain. apply Forall_app in Hops as [_ Hops]. by inversion_clear Hops. }
  pose proof (op_ok token_hash _ (Issue user conversation generation scopes random now) Hok) as Hok'. simpl in Hok'.
  destruct (issue token_hash user conversation generation scopes random now _) as [e s]. cbn [fst snd] in *.
  destruct Hst as (Hk & Hu & Hc & Hg & Hsc). intros Hlater Hfresh raw Hraw.
  apply validate_ok. exists raw, e. rewrite Hraw. split_and!; try done; [|by apply Hsc].
  by apply kept_by_run.
Qed.

(** ** Examples *)
Definition demo_tokens : list TokenOp :=
  [Issue "u" "c" "default" [RuntimeTokenScope.TeamCall] [1; 2]%N 0; Issue "u" "d" "default" [RuntimeTokenScope.TeamCall] [3]%N 0].

Lemma token_scoped_witness :
  exists pre post scopes random now,
    demo_tokens = pre ++ Issue "u" "c" "default" scopes random now :: post /\ RuntimeTokenScope.TeamCall ∈ scopes.
Proof.
  destruct (token_scoped (fun t => t) demo_tokens (Some " 0102") "u" "c" RuntimeTokenScope.TeamCall "default"
    (mkClaims "u" "c" [RuntimeTokenScope.TeamCall] 0 "default") ltac:(by vm_compute))
    as (r & pre & post & scopes & random & now & _ & Hops & Hsc & _). by exists pre, post, scopes, random, now.
Defined.

Lemma issued_token_accepted_witness :
  let '(e, s) := issue (fun t => t) "u" "c" "default" [RuntimeTokenScope.TeamContext] [9]%N 5
                   (run_list (token_op (fun t => t)) ∅ demo_tokens) in
  validate (fun t => t) (Some "09") "u" "c" RuntimeTokenScope.TeamContext "default"
    (run_list (token_op (fun t => t)) s [InvalidateConversationId "d"]) = Ok (entry_claims e).
Proof.
  assert (Hops : Forall (fun op => match op with Issue _ _ _ _ random _ => random_bytes random | _ => True end) demo_tokens).
  { repeat constructor; done. }
  pose proof (issued_token_accepted (fun t => t) demo_tokens "u" "c" "default" [RuntimeTokenScope.TeamContext] [9]%N 5
    [InvalidateConversationId "d"] RuntimeTokenScope.TeamContext Hops ltac:(by repeat constructor)
    ltac:(by left)) as Hacc.
  destruct (issue _ _ _ _ _ _ _ _) as [e s] eqn:He. vm_compute in He. injection He as <- <-.
  apply Hacc; [by repeat constructor| |by vm_compute].
  intros u c g sc random' now' Hin. by apply list_elem_of_singleton in Hin.
Defined.
