(* ===== verification/AgentTasks.v ===== *)
(** * The agents of the conversations
    ([crates/tjuaeui-ai-agent/src/task_manager.rs], [active_lease.rs],
    [idle_scanner.rs])

    [WorkerTaskManagerImpl] keeps at most one agent per conversation.  The
    table maps a conversation to a slot, a [OnceCell] that the first caller
    fills by running the factory while the others wait for it.  A slot and an
    agent outlive their place in the table, as callers hold on to them, so they
    live in stores of their own and are named by their index.

    The operations on the table are atomic; [get_or_build_task] takes several
    and waits in between, so it is a small program of its own, [Caller], and the
    manager with its callers is a step relation.  Callers waiting for a cell are
    served in any order.  The factory, the clock and the random bytes are the
    environment. *)

From S2P Require Import Prelude TurnClaims TurnEvents RuntimeTokens.

(** ** [active_lease.rs] *)

Definition ACTIVE_LEASE_TTL_MS : Z := 90000.

Record ActiveLeaseRegistry : Type := mkLeases { lease_table : gmap string Z; lease_ttl_ms : Z }.
Definition ActiveLeaseRegistry_new : ActiveLeaseRegistry := mkLeases ∅ ACTIVE_LEASE_TTL_MS.

Definition renew (conversation : string) (now : Z) (r : ActiveLeaseRegistry) : Z * ActiveLeaseRegistry :=
  let expires_at := i64_saturating_add now (lease_ttl_ms r) in
  (expires_at, mkLeases (<[conversation := expires_at]> (lease_table r)) (lease_ttl_ms r)).

Definition renew_many (conversations : list string) (now : Z) (r : ActiveLeaseRegistry)
    : nat * Z * ActiveLeaseRegistry :=
  let expires_at := i64_saturating_add now (lease_ttl_ms r) in
  (length conversations, expires_at,
   mkLeases (fold_left (fun t c => <[c := expires_at]> t) conversations (lease_table r)) (lease_ttl_ms r)).

(** A lease that has run out is removed when it is looked at. *)
Definition active_until (conversation : string) (now : Z) (r : ActiveLeaseRegistry) : option Z * ActiveLeaseRegistry :=
  match lease_table r !! conversation with
  | None => (None, r)
  | Some expires_at =>
      if (now <? expires_at)%Z then (Some expires_at, r)
      else (None, mkLeases (delete conversation (lease_table r)) (lease_ttl_ms r))
  end.

Definition is_active (conversation : string) (now : Z) (r : ActiveLeaseRegistry) : bool :=
  match fst (active_until conversation now r) with Some _ => true | None => false end.

(** ** Options and capabilities *)

Record RuntimeCapabilities : Type := mkCapabilities { conversation_runtime_context_version : option N }.

Definition satisfies (actual requested : RuntimeCapabilities) : bool :=
  match conversation_runtime_context_version requested with
  | Some version =>
      match conversation_runtime_context_version actual with
      | Some have => (version <=? have)%N
      | None => false
      end
  | None => true
  end.

Definition TJUAE_RUNTIME_TOKEN_ENV : string := "TJUAE_RUNTIME_TOKEN".

(** [BuildTaskOptions]: of the context, what the manager reads or sets. *)
Record BuildTaskOptions : Type := mkBuildOptions {
  options_user : string;
  options_conversation : string;
  options_team : bool;
  runtime_env : list (string * string);
  runtime_capabilities : RuntimeCapabilities;
}.

(** ** The manager *)

(** An agent: what the manager asks of it, the environment it was started
    with, and whether [kill] was called on it. *)
Record Agent : Type := mkAgent {
  agent_conversation : string;
  agent_type : AgentType.t;
  agent_status : option ConversationStatus.t;
  last_activity_at : Z;
  agent_env : list (string * string);
  asked_to_stop : bool;
}.

Inductive SlotState : Type :=
| Vacant
| Initialising
| Ready (agent : nat) (capabilities : RuntimeCapabilities).

Record Slot : Type := mkSlot { slot_conversation : string; slot_state : SlotState }.

Record TaskManager : Type := mkManager {
  tasks : gmap string nat;
  slots : list Slot;
  agents : list Agent;
  active_leases : ActiveLeaseRegistry;
  runtime_tokens : option RuntimeTokenService;
}.

Definition set_tasks (t : gmap string nat) (m : TaskManager) : TaskManager :=
  mkManager t (slots m) (agents m) (active_leases m) (runtime_tokens m).
Definition set_slots (l : list Slot) (m : TaskManager) : TaskManager :=
  mkManager (tasks m) l (agents m) (active_leases m) (runtime_tokens m).
Definition set_agents (l : list Agent) (m : TaskManager) : TaskManager :=
  mkManager (tasks m) (slots m) l (active_leases m) (runtime_tokens m).
Definition set_leases (r : ActiveLeaseRegistry) (m : TaskManager) : TaskManager :=
  mkManager (tasks m) (slots m) (agents m) r (runtime_tokens m).
Definition set_tokens (t : option RuntimeTokenService) (m : TaskManager) : TaskManager :=
  mkManager (tasks m) (slots m) (agents m) (active_leases m) t.

Definition WorkerTaskManager_new (tokens : option RuntimeTokenService) : TaskManager :=
  mkManager ∅ [] [] ActiveLeaseRegistry_new tokens.

(** [OnceCell::get] on the slot in the table. *)
Definition state_at (s : nat) (m : TaskManager) : SlotState :=
  match slots m !! s with Some sl => slot_state sl | None => Vacant end.
Definition set_state (s : nat) (st : SlotState) (m : TaskManager) : TaskManager :=
  match slots m !! s with
  | Some sl => set_slots (<[s := mkSlot (slot_conversation sl) st]> (slots m)) m
  | None => m
  end.

Definition initialised_managed_task (conversation : string) (m : TaskManager) : option (nat * RuntimeCapabilities) :=
  match tasks m !! conversation with
  | Some s => match state_at s m with Ready a caps => Some (a, caps) | _ => None end
  | None => None
  end.

Definition get_task (conversation : string) (m : TaskManager) : option nat :=
  option_map fst (initialised_managed_task conversation m).

Definition invalidate_runtime_tokens (conversation : string) (m : TaskManager) : TaskManager :=
  set_tokens (option_map (invalidate_conversation_id conversation) (runtime_tokens m)) m.

(** [agent.kill]; its result is the environment's. *)
Definition stop_agent (a : nat) (m : TaskManager) : TaskManager :=
  match agents m !! a with
  | Some g => set_agents (<[a := mkAgent (agent_conversation g) (agent_type g) (agent_status g) (last_activity_at g)
                                   (agent_env g) true]> (agents m)) m
  | None => m
  end.
Definition stop_ready (st : SlotState) (m : TaskManager) : TaskManager :=
  match st with Ready a _ => stop_agent a m | _ => m end.

(** [tasks.remove], with the tokens of the conversation. *)
Definition take_slot (conversation : string) (m : TaskManager) : option nat * TaskManager :=
  match tasks m !! conversation with
  | Some s => (Some s, invalidate_runtime_tokens conversation (set_tasks (delete conversation (tasks m)) m))
  | None => (None, m)
  end.

(** [stopped]: whether the agent's [kill] succeeds. *)
Definition kill (stopped : bool) (conversation : string) (m : TaskManager) : bool * TaskManager :=
  match take_slot conversation m with
  | (None, m) => (true, m)
  | (Some s, m) =>
      match state_at s m with
      | Ready a _ => (stopped, stop_agent a m)
      | _ => (true, m)
      end
  end.

(** The slot to wait for, if it was not filled. *)
Definition kill_and_wait (conversation : string) (m : TaskManager) : option nat * TaskManager :=
  match take_slot conversation m with
  | (None, m) => (None, m)
  | (Some s, m) =>
      match state_at s m with
      | Ready a _ => (None, stop_agent a m)
      | _ => (Some s, m)
      end
  end.

(** One key of [clear]. *)
Definition clear_key (conversation : string) (m : TaskManager) : TaskManager :=
  match take_slot conversation m with
  | (None, m) => m
  | (Some s, m) => stop_ready (state_at s m) m
  end.
Definition clear (m : TaskManager) : TaskManager :=
  fold_left (fun m conversation => clear_key conversation m) (map fst (map_to_list (tasks m))) m.

Definition active_count (m : TaskManager) : nat :=
  length (List.filter (fun s => match state_at s m with Ready _ _ => true | _ => false end) (map_values (tasks m))).

(** *** [collect_idle]; the leases read the clock again, here [lease_now]. *)

Definition idle_agent (now idle_threshold_ms : Z) (g : Agent) : bool :=
  bool_decide (agent_type g = AgentType.Acp) &&
  (match agent_status g with None | Some ConversationStatus.Finished => true | _ => false end) &&
  (idle_threshold_ms <? i64_saturating_sub now (last_activity_at g))%Z.

(** One entry of the table. *)
Definition collect_entry (now idle_threshold_ms : Z) (lease_now : string -> Z) (m : TaskManager)
    (acc : list string * ActiveLeaseRegistry) (entry : string * nat) : list string * ActiveLeaseRegistry :=
  let '(found, leases) := acc in
  let '(conversation, s) := entry in
  match state_at s m with
  | Ready a _ =>
      match agents m !! a with
      | Some g =>
          if idle_agent now idle_threshold_ms g then
            match active_until conversation (lease_now conversation) leases with
            | (Some _, leases) => (found, leases)
            | (None, leases) => (found ++ [conversation], leases)
            end
          else acc
      | None => acc
      end
  | _ => acc
  end.

Definition collect_idle (now idle_threshold_ms : Z) (lease_now : string -> Z) (m : TaskManager)
    : list string * TaskManager :=
  let '(found, leases) :=
    fold_left (collect_entry now idle_threshold_ms lease_now m) (map_to_list (tasks m)) ([], active_leases m) in
  (found, set_leases leases m).

(** [scan_and_cleanup]: a coordinator takes the conversations of teams on
    itself; the slots still to wait for are returned. *)
Definition scan_and_cleanup (now solo_threshold_ms team_threshold_ms : Z) (lease_now : string -> Z)
    (coordinator : option (list string -> Z -> list string)) (m : TaskManager) : list nat * TaskManager :=
  let '(idle, m) := collect_idle now solo_threshold_ms lease_now m in
  let idle := match coordinator with Some handle => if is_empty idle then idle else handle idle team_threshold_ms | None => idle end in
  fold_left (fun '(waits, m) conversation =>
    let '(w, m) := kill_and_wait conversation m in (match w with Some s => waits ++ [s] | None => waits end, m)) idle ([], m).

(** *** [get_or_build_task] *)

Section Tasks.
Context (token_hash : string -> string).

Definition refresh_runtime_token_for_new_task (random : list N) (now : Z) (o : BuildTaskOptions) (m : TaskManager)
    : BuildTaskOptions * TaskManager :=
  if negb (options_team o) then (o, m)
  else
    match runtime_tokens m with
    | None => (o, m)
    | Some service =>
        let '(entry, service) := issue token_hash (options_user o) (options_conversation o)
          TEAM_RUNTIME_TOKEN_SESSION_GENERATION [RuntimeTokenScope.TeamContext; RuntimeTokenScope.TeamCall]
          random now service in
        (mkBuildOptions (options_user o) (options_conversation o) (options_team o)
           (List.filter (fun kv => negb (bool_decide (fst kv = TJUAE_RUNTIME_TOKEN_ENV))) (runtime_env o)
              ++ [(TJUAE_RUNTIME_TOKEN_ENV, entry_token entry)]) (runtime_capabilities o),
         set_tokens (Some service) m)
    end.

(** [tasks.entry(..).or_insert_with(..)]. *)
Definition slot_for (conversation : string) (m : TaskManager) : nat * TaskManager :=
  match tasks m !! conversation with
  | Some s => (s, m)
  | None =>
      let s := length (slots m) in
      (s, set_tasks (<[conversation := s]> (tasks m)) (set_slots (slots m ++ [mkSlot conversation Vacant]) m))
  end.

(** A call of [get_or_build_task], by what it does next, and the rest of a
    [kill_and_wait] that waits for a slot. *)
Inductive Caller : Type :=
| Looking (conversation : string) (o : BuildTaskOptions)
| Rebuilding (conversation : string) (o : BuildTaskOptions)
| Refreshing (conversation : string) (o : BuildTaskOptions)
| Entering (conversation : string) (o : BuildTaskOptions)
| AtCell (conversation : string) (s : nat) (o : BuildTaskOptions)
| Building (conversation : string) (s : nat) (o : BuildTaskOptions)
| Got (conversation : string) (s a : nat)
| Failed
| Dropped
| AwaitingKill (s : nat)
| KillDone (s : nat).

Definition look (conversation : string) (o : BuildTaskOptions) (m : TaskManager) : Caller :=
  match initialised_managed_task conversation m with
  | Some (_, caps) =>
      if negb (satisfies caps (runtime_capabilities o)) then Rebuilding conversation o else Entering conversation o
  | None => Entering conversation o
  end.

(** [OnceCell::get_or_try_init] once it is the caller's turn; [None]: it waits. *)
Definition enter_cell (conversation : string) (s : nat) (o : BuildTaskOptions) (m : TaskManager)
    : option (Caller * TaskManager) :=
  match state_at s m with
  | Ready a _ => Some (Got conversation s a, m)
  | Vacant => Some (Building conversation s o, set_state s Initialising m)
  | Initialising => None
  end.

(** The factory is done: [None] if it failed. *)
Definition built (conversation : string) (s : nat) (o : BuildTaskOptions) (g : option Agent) (m : TaskManager)
    : Caller * TaskManager :=
  match g with
  | Some g =>
      (Got conversation s (length (agents m)),
       set_agents (agents m ++ [g]) (set_state s (Ready (length (agents m)) (runtime_capabilities o)) m))
  | None => (Failed, set_state s Vacant m)
  end.

(** The rest of [kill_and_wait]: its initialiser fails, so an empty cell stays
    empty. *)
Definition await_kill (s : nat) (m : TaskManager) : option TaskManager :=
  match state_at s m with
  | Ready a _ => Some (stop_agent a m)
  | Vacant => Some m
  | Initialising => None
  end.

(** What the factory returns for these options. *)
Definition made_for (conversation : string) (o : BuildTaskOptions) (g : Agent) : Prop :=
  agent_conversation g = conversation /\ agent_env g = runtime_env o /\ asked_to_stop g = false.

Inductive caller_step : Caller -> TaskManager -> Caller -> TaskManager -> Prop :=
| caller_looks conversation o m : caller_step (Looking conversation o) m (look conversation o m) m
| caller_kills conversation o m stopped :
    caller_step (Rebuilding conversation o) m
      (if fst (kill stopped conversation m) then Refreshing conversation o else Failed) (snd (kill stopped conversation m))
| caller_refreshes conversation o m random now :
    caller_step (Refreshing conversation o) m
      (Entering conversation (fst (refresh_runtime_token_for_new_task random now o m)))
      (snd (refresh_runtime_token_for_new_task random now o m))
| caller_enters conversation o m :
    caller_step (Entering conversation o) m (AtCell conversation (fst (slot_for conversation m)) o) (snd (slot_for conversation m))
| caller_at_cell conversation s o m c m' :
    enter_cell conversation s o m = Some (c, m') -> caller_step (AtCell conversation s o) m c m'
| caller_built conversation s o m g :
    made_for conversation o g ->
    caller_step (Building conversation s o) m (fst (built conversation s o (Some g) m)) (snd (built conversation s o (Some g) m))
| caller_failed conversation s o m :
    caller_step (Building conversation s o) m (fst (built conversation s o None m)) (snd (built conversation s o None m))
| caller_dropped_waiting conversation s o m : caller_step (AtCell conversation s o) m Dropped m
| caller_dropped_building conversation s o m : caller_step (Building conversation s o) m Dropped (set_state s Vacant m)
| caller_awaits_kill s m m' : await_kill s m = Some m' -> caller_step (AwaitingKill s) m (KillDone s) m'.

Record System : Type := mkSystem { manager : TaskManager; callers : list Caller }.

(** What an agent does by itself. *)
Definition agent_moves (g g' : Agent) : Prop :=
  agent_conversation g' = agent_conversation g /\ agent_type g' = agent_type g /\ agent_env g' = agent_env g /\
  asked_to_stop g' = asked_to_stop g.

Inductive system_step : System -> System -> Prop :=
| step_call conversation o m l :
    system_step (mkSystem m l) (mkSystem m (l ++ [Looking conversation o]))
| step_caller i c c' m m' l :
    l !! i = Some c -> caller_step c m c' m' -> system_step (mkSystem m l) (mkSystem m' (<[i := c']> l))
| step_kill stopped conversation m l :
    system_step (mkSystem m l) (mkSystem (snd (kill stopped conversation m)) l)
| step_kill_and_wait conversation m l :
    system_step (mkSystem m l)
      (mkSystem (snd (kill_and_wait conversation m))
         (match fst (kill_and_wait conversation m) with Some s => l ++ [AwaitingKill s] | None => l end))
| step_clear_key conversation m l : system_step (mkSystem m l) (mkSystem (clear_key conversation m) l)
| step_scan now threshold lease_now m l :
    system_step (mkSystem m l) (mkSystem (snd (collect_idle now threshold lease_now m)) l)
| step_renew conversation now m l :
    system_step (mkSystem m l) (mkSystem (set_leases (snd (renew conversation now (active_leases m))) m) l)
| step_tokens t m l : system_step (mkSystem m l) (mkSystem (set_tokens t m) l)
| step_agent a g g' m l :
    agents m !! a = Some g -> agent_moves g g' ->
    system_step (mkSystem m l) (mkSystem (set_agents (<[a := g']> (agents m)) m) l).

Definition system_start (tokens : option RuntimeTokenService) : System := mkSystem (WorkerTaskManager_new tokens) [].
Definition reachable (y : System) : Prop := exists tokens, rtc system_step (system_start tokens) y.
End Tasks.

(** ** What is always the case *)

Definition conversations (m : TaskManager) : list string := map agent_conversation (agents m).

Definition caller_ok (sl : list Slot) (c : Caller) : Prop :=
  match c with
  | AtCell conversation s _ => exists st, sl !! s = Some (mkSlot conversation st)
  | Building conversation s _ => sl !! s = Some (mkSlot conversation Initialising)
  | Got conversation s a => exists caps, sl !! s = Some (mkSlot conversation (Ready a caps))
  | AwaitingKill s | KillDone s => is_Some (sl !! s)
  | _ => True
  end.
Definition is_building (s : nat) (c : Caller) : bool :=
  match c with Building _ s' _ => bool_decide (s' = s) | _ => false end.

(** [t] the table, [sl] the slots, [al] the conversations of the agents, [l]
    the callers. *)
Record shape_ok (t : gmap string nat) (sl : list Slot) (al : list string) (l : list Caller) : Prop := {
  ok_tasks : forall c s, t !! c = Some s -> exists st, sl !! s = Some (mkSlot c st);
  ok_ready : forall s c a caps, sl !! s = Some (mkSlot c (Ready a caps)) -> al !! a = Some c;
  ok_unique : forall s s' c c' a caps caps', sl !! s = Some (mkSlot c (Ready a caps)) ->
    sl !! s' = Some (mkSlot c' (Ready a caps')) -> s = s';
  ok_placed : forall a c, al !! a = Some c -> exists s caps, sl !! s = Some (mkSlot c (Ready a caps));
  ok_callers : Forall (caller_ok sl) l;
  ok_builder : forall s c, sl !! s = Some (mkSlot c Initialising) -> exists i o, l !! i = Some (Building c s o);
  ok_builders : forall i j s c c' o o', l !! i = Some (Building c s o) -> l !! j = Some (Building c' s o') -> i = j;
}.
Definition system_ok (y : System) : Prop :=
  shape_ok (tasks (manager y)) (slots (manager y)) (conversations (manager y)) (callers y).

Lemma ok_delete t sl al l c : shape_ok t sl al l -> shape_ok (delete c t) sl al l.
Proof. intros [T R U P C B BB]. split; try done. intros c' s [_ Hs]%lookup_delete_Some. by apply T. Qed.

(** A caller that is not building goes on to something else. *)
Lemma ok_caller_moves t sl al l i c c' : shape_ok t sl al l -> l !! i = Some c ->
  (forall conversation s o, c <> Building conversation s o) -> (forall conversation s o, c' <> Building conversation s o) ->
  caller_ok sl c' -> shape_ok t sl al (<[i := c']> l).
Proof.
  intros [T R U P C B BB] Hi Hc Hc' Hok. split; try done.
  - by apply Forall_insert.
  - intros s cv Hs. destruct (B s cv Hs) as (j & o & Hj). exists j, o. rewrite list_lookup_insert_ne; [done|].
    intros ->. rewrite Hi in Hj. injection Hj as ->. by eapply Hc.
  - intros j k s cv cv' o o' Hj Hk. apply list_lookup_insert_Some in Hj as [(_ & -> & _)|[_ Hj]]; [by destruct (Hc' cv s o)|].
    apply list_lookup_insert_Some in Hk as [(_ & -> & _)|[_ Hk]]; [by destruct (Hc' cv' s o')|]. by eapply BB.
Qed.

Lemma ok_new_caller t sl al l c : shape_ok t sl al l -> (forall conversation s o, c <> Building conversation s o) ->
  caller_ok sl c -> shape_ok t sl al (l ++ [c]).
Proof.
  intros [T R U P C B BB] Hc Hok. split; try done.
  - apply Forall_app_2; [done|by constructor].
  - intros s cv Hs. destruct (B s cv Hs) as (j & o & Hj). exists j, o. by apply lookup_app_l_Some.
  - assert (Hin : forall j cv s o, (l ++ [c]) !! j = Some (Building cv s o) -> l !! j = Some (Building cv s o)).
    { intros j cv s o [Hj|[_ Hj]]%lookup_app_Some; [done|]. apply list_lookup_singleton_Some in Hj as [_ Hj].
      by destruct (Hc cv s o). }
    intros i j s cv cv' o o' Hi Hj. by apply (BB i j s cv cv' o o'); apply Hin.
Qed.

(** The table gets a new, vacant slot. *)
Lemma ok_new_slot t sl al l c : shape_ok t sl al l -> t !! c = None ->
  shape_ok (<[c := length sl]> t) (sl ++ [mkSlot c Vacant]) al l.
Proof.
  intros [T R U P C B BB] Hc.
  assert (Hold : forall s c' st, (sl ++ [mkSlot c Vacant]) !! s = Some (mkSlot c' st) -> st <> Vacant -> sl !! s = Some (mkSlot c' st)).
  { intros s c' st [Hs|[_ Hs]]%lookup_app_Some Hst; [done|]. apply list_lookup_singleton_Some in Hs as [_ [= _ <-]]. done. }
  split; try done.
  - intros c' s [[<- <-]|[Hne Hs]]%lookup_insert_Some.
    + exists Vacant. by rewrite lookup_app_r, Nat.sub_diag by lia.
    + destruct (T c' s Hs) as [st Hst]. exists st. by apply lookup_app_l_Some.
  - intros s c' a caps Hs%Hold; [|done]. by eapply R.
  - intros s s' c1 c2 a caps caps' Hs%Hold Hs'%Hold; [|done..]. by eapply U.
  - intros a c' Ha. destruct (P a c' Ha) as (s & caps & Hs). exists s, caps. by apply lookup_app_l_Some.
  - eapply Forall_impl; [exact C|]. intros x Hx. destruct x; simpl in *; try done;
      [destruct Hx as [st Hst]; exists st|idtac|destruct Hx as [caps Hst]; exists caps|destruct Hx as [sl' Hst]; exists sl'..];
      by apply lookup_app_l_Some.
  - intros s c' Hs%Hold; [|done]. by apply B.
Qed.

(** A waiting caller's turn has come: it fills the cell. *)
Lemma ok_starts t sl al l i c s o : shape_ok t sl al l -> l !! i = Some (AtCell c s o) ->
  sl !! s = Some (mkSlot c Vacant) ->
  shape_ok t (<[s := mkSlot c Initialising]> sl) al (<[i := Building c s o]> l).
Proof.
  intros [T R U P C B BB] Hi Hs. pose proof (lookup_lt_Some _ _ _ Hs) as Hlt. pose proof (lookup_lt_Some _ _ _ Hi) as Hlti.
  assert (Hready : forall s' c' a caps, <[s := mkSlot c Initialising]> sl !! s' = Some (mkSlot c' (Ready a caps)) ->
    sl !! s' = Some (mkSlot c' (Ready a caps))).
  { intros s' c' a caps [(_ & Hx & _)|[_ Hx]]%list_lookup_insert_Some; done. }
  assert (Hnone : forall j cv o', l !! j = Some (Building cv s o') -> False).
  { intros j cv o' Hj. pose proof (Forall_lookup_1 _ _ _ _ C Hj) as Hb. simpl in Hb. by rewrite Hs in Hb. }
  split.
  - intros c' s' Hs'. destruct (T c' s' Hs') as [st Hst]. destruct (decide (s' = s)) as [->|Hne].
    + rewrite Hs in Hst. injection Hst as <- <-. exists Initialising. by apply list_lookup_insert_eq.
    + exists st. by rewrite list_lookup_insert_ne.
  - intros s' c' a caps Hs'%Hready. by eapply R.
  - intros s1 s2 c1 c2 a caps caps' Hs1%Hready Hs2%Hready. by eapply U.
  - intros a c' Ha. destruct (P a c' Ha) as (s' & caps & Hs'). exists s', caps. rewrite list_lookup_insert_ne; [done|].
    intros ->. by rewrite Hs in Hs'.
  - apply Forall_insert; [|by apply list_lookup_insert_eq]. eapply Forall_impl; [exact C|]. intros x Hx.
    assert (Hkeep : forall s' c' st, sl !! s' = Some (mkSlot c' st) -> exists st', <[s := mkSlot c Initialising]> sl !! s' = Some (mkSlot c' st')).
    { intros s' c' st Hst. destruct (decide (s' = s)) as [->|Hne].
      - rewrite Hs in Hst. injection Hst as <- <-. exists Initialising. by apply list_lookup_insert_eq.
      - exists st. by rewrite list_lookup_insert_ne. }
    assert (Hother : forall s' c' st, sl !! s' = Some (mkSlot c' st) -> st <> Vacant ->
      <[s := mkSlot c Initialising]> sl !! s' = Some (mkSlot c' st)).
    { intros s' c' st Hst Hv. rewrite list_lookup_insert_ne; [done|]. intros ->. rewrite Hs in Hst. by injection Hst as <- <-. }
    destruct x; simpl in *; try done.
    + destruct Hx as [st Hst]. by eapply Hkeep.
    + by apply Hother.
    + destruct Hx as [caps Hst]. exists caps. by apply Hother.
    + destruct Hx as [[c' st] Hst]. destruct (Hkeep _ _ _ Hst) as [st' Hst']. by eexists.
    + destruct Hx as [[c' st] Hst]. destruct (Hkeep _ _ _ Hst) as [st' Hst']. by eexists.
  - intros s' c' [(-> & [= <-] & _)|[Hne Hs']]%list_lookup_insert_Some.
    + exists i, o. by apply list_lookup_insert_eq.
    + destruct (B s' c' Hs') as (j & o' & Hj). exists j, o'. rewrite list_lookup_insert_ne; [done|].
      intros ->. by rewrite Hi in Hj.
  - intros j k s' c1 c2 o1 o2 Hj Hk.
    apply list_lookup_insert_Some in Hj as [(<- & Ej & _)|[Hne Hj]];
      apply list_lookup_insert_Some in Hk as [(<- & Ek & _)|[Hne' Hk]]; [done|injection Ej as <- <- <-|injection Ek as <- <- <-|].
    + by destruct (Hnone k c2 o2).
    + by destruct (Hnone j c1 o1).
    + by eapply BB.
Qed.

(** The caller who fills a cell is done with it: [st] is vacant, or holds the
    new agent, whose conversation is the last of [al']. *)
Lemma ok_leaves t sl al al' l i c s o st c' : shape_ok t sl al l -> l !! i = Some (Building c s o) ->
  (st = Vacant /\ al' = al \/ exists caps, st = Ready (length al) caps /\ al' = al ++ [c]) ->
  (forall conversation s o, c' <> Building conversation s o) -> caller_ok (<[s := mkSlot c st]> sl) c' ->
  shape_ok t (<[s := mkSlot c st]> sl) al' (<[i := c']> l).
Proof.
  intros [T R U P C B BB] Hi Hst Hnb Hc'. pose proof (Forall_lookup_1 _ _ _ _ C Hi) as Hs. simpl in Hs.
  pose proof (lookup_lt_Some _ _ _ Hs) as Hlt.
  assert (Hlook : forall s' c1 st1, <[s := mkSlot c st]> sl !! s' = Some (mkSlot c1 st1) ->
    s' = s /\ c1 = c /\ st1 = st \/ s' <> s /\ sl !! s' = Some (mkSlot c1 st1)).
  { intros s' c1 st1 [(<- & [= <- <-] & _)|[Hne Hx]]%list_lookup_insert_Some; [by left|right; by split]. }
  assert (Hother : forall s' c1 st1, sl !! s' = Some (mkSlot c1 st1) -> st1 <> Initialising ->
    <[s := mkSlot c st]> sl !! s' = Some (mkSlot c1 st1)).
  { intros s' c1 st1 Hx Hv. rewrite list_lookup_insert_ne; [done|]. intros ->. rewrite Hs in Hx. by injection Hx as <- <-. }
  assert (Hkeep : forall s' c1 st1, sl !! s' = Some (mkSlot c1 st1) -> exists st2, <[s := mkSlot c st]> sl !! s' = Some (mkSlot c1 st2)).
  { intros s' c1 st1 Hx. destruct (decide (s' = s)) as [->|Hne].
    - rewrite Hs in Hx. injection Hx as <- <-. exists st. by apply list_lookup_insert_eq.
    - exists st1. by rewrite list_lookup_insert_ne. }
  assert (Hal : forall a c1, al !! a = Some c1 -> al' !! a = Some c1).
  { intros a c1 Ha. destruct Hst as [[_ ->]|(caps & _ & ->)]; [done|]. by apply lookup_app_l_Some. }
  split.
  - intros c1 s1 Hs1. destruct (T c1 s1 Hs1) as [st1 Hst1]. by eapply Hkeep.
  - intros s1 c1 a caps [(-> & -> & <-)|[Hne Hs1]]%Hlook; [|by eapply Hal, R].
    destruct Hst as [[? _]|(caps' & [= -> ->] & ->)]; [done|]. by rewrite lookup_app_r, Nat.sub_diag by lia.
  - intros s1 s2 c1 c2 a caps caps' [(-> & -> & <-)|[Hne1 Hs1]]%Hlook [(-> & -> & E)|[Hne2 Hs2]]%Hlook; try done.
    + destruct Hst as [[? _]|(k & [= -> ->] & ->)]; [done|]. pose proof (lookup_lt_Some _ _ _ (R _ _ _ _ Hs2)). lia.
    + destruct Hst as [[? _]|(k & -> & ->)]; [congruence|]. injection E as -> ->. pose proof (lookup_lt_Some _ _ _ (R _ _ _ _ Hs1)). lia.
    + by eapply U.
  - intros a c1 Ha. assert (Ha' : al !! a = Some c1 \/ exists caps, st = Ready a caps /\ c1 = c).
    { destruct Hst as [[_ ->]|(caps & -> & ->)]; [by left|]. apply lookup_app_Some in Ha as [Ha|[Hle Ha]]; [by left|].
      apply list_lookup_singleton_Some in Ha as [Hz <-]. right. exists caps. split; [|done]. f_equal. lia. }
    destruct Ha' as [Ha'|(caps & -> & ->)].
    + destruct (P a c1 Ha') as (s1 & caps & Hs1). exists s1, caps. by apply Hother.
    + exists s, caps. by apply list_lookup_insert_eq.
  - apply Forall_lookup. intros j x [(<- & <- & _)|[Hne Hj]]%list_lookup_insert_Some; [done|].
    pose proof (Forall_lookup_1 _ _ _ _ C Hj) as Hx. destruct x; simpl in *; try done.
    + destruct Hx as [st1 Hst1]. by eapply Hkeep.
    + rewrite list_lookup_insert_ne; [done|]. intros ->. by pose proof (BB _ _ _ _ _ _ _ Hi Hj).
    + destruct Hx as [caps Hst1]. exists caps. by apply Hother.
    + destruct Hx as [[c1 st1] Hst1]. destruct (Hkeep _ _ _ Hst1) as [st2 Hst2]. by eexists.
    + destruct Hx as [[c1 st1] Hst1]. destruct (Hkeep _ _ _ Hst1) as [st2 Hst2]. by eexists.
  - intros s1 c1 [(-> & -> & <-)|[Hne Hs1]]%Hlook; [destruct Hst as [[? _]|(caps & ? & _)]; done|].
    destruct (B s1 c1 Hs1) as (j & o1 & Hj). exists j, o1. rewrite list_lookup_insert_ne; [done|].
    intros ->. rewrite Hi in Hj. by injection Hj as -> -> ->.
  - assert (Hin : forall j cv s' o', <[i := c']> l !! j = Some (Building cv s' o') -> l !! j = Some (Building cv s' o')).
    { intros j cv s' o' [(_ & -> & _)|[_ Hj]]%list_lookup_insert_Some; [by destruct (Hnb cv s' o')|done]. }
    intros j k s' c1 c2 o1 o2 Hj%Hin Hk%Hin. by eapply BB.
Qed.

(** *** Which operations leave what alone *)

Definition same_shape (m m' : TaskManager) : Prop :=
  slots m' = slots m /\ conversations m' = conversations m.

Lemma stop_shape a m : same_shape m (stop_agent a m) /\ tasks (stop_agent a m) = tasks m.
Proof.
  unfold stop_agent. destruct (agents m !! a) as [g|] eqn:Hg; [|done]. split; [|done]. split; [done|].
  unfold conversations. simpl. rewrite list_fmap_insert. simpl. rewrite list_insert_id; [done|]. by rewrite list_lookup_fmap, Hg.
Qed.

(** The table loses at most [c]. *)
Definition table_loses (c : string) (m m' : TaskManager) : Prop :=
  same_shape m m' /\ (tasks m' = tasks m \/ tasks m' = delete c (tasks m)).

Lemma take_shape c m : let '(o, m') := take_slot c m in
  slots m' = slots m /\ agents m' = agents m /\ o = tasks m !! c /\ tasks m' = delete c (tasks m).
Proof.
  unfold take_slot. destruct (tasks m !! c) as [s|] eqn:Hs; [done|]. split_and!; try done. by rewrite delete_id.
Qed.

Lemma kill_loses stopped c m : table_loses c m (snd (kill stopped c m)).
Proof.
  unfold kill. pose proof (take_shape c m) as Ht. destruct (take_slot c m) as [[s|] m1]; destruct Ht as (S & A & _ & D).
  - assert (Hv : conversations m1 = conversations m) by (unfold conversations; by rewrite A).
    destruct (state_at s m1) as [| |a caps]; simpl; try (split; [by split|by right]).
    destruct (stop_shape a m1) as [[S' A'] T']. split; [split; congruence|right; congruence].
  - simpl. split; [split; [done|unfold conversations; by rewrite A]|by right].
Qed.
Lemma clear_key_loses c m : table_loses c m (clear_key c m).
Proof.
  replace (clear_key c m) with (snd (kill true c m)); [apply kill_loses|]. unfold kill, clear_key, stop_ready.
  destruct (take_slot c m) as [[s|] m1]; [|done]. by destruct (state_at s m1).
Qed.
Lemma kill_and_wait_loses c m : table_loses c m (snd (kill_and_wait c m)) /\
  forall s, fst (kill_and_wait c m) = Some s -> tasks m !! c = Some s.
Proof.
  split.
  - replace (snd (kill_and_wait c m)) with (snd (kill true c m)); [apply kill_loses|]. unfold kill, kill_and_wait.
    destruct (take_slot c m) as [[s|] m1]; [|done]. by destruct (state_at s m1).
  - unfold kill_and_wait. pose proof (take_shape c m) as Ht. destruct (take_slot c m) as [[s|] m1]; [|done].
    destruct Ht as (_ & _ & <- & _). destruct (state_at s m1); naive_solver.
Qed.

Lemma collect_shape now threshold lease_now m :
  tasks (snd (collect_idle now threshold lease_now m)) = tasks m /\ slots (snd (collect_idle now threshold lease_now m)) = slots m /\
  agents (snd (collect_idle now threshold lease_now m)) = agents m.
Proof. unfold collect_idle. by destruct (fold_left _ _ _). Qed.

Lemma ok_loses c m m' l : table_loses c m m' ->
  shape_ok (tasks m) (slots m) (conversations m) l -> shape_ok (tasks m') (slots m') (conversations m') l.
Proof. intros [[-> ->] [->| ->]] Hok; [done|]. by apply ok_delete. Qed.

Lemma ok_slot t sl al l c s : shape_ok t sl al l -> t !! c = Some s -> is_Some (sl !! s).
Proof. intros Hok Hs. destruct (ok_tasks _ _ _ _ Hok c s Hs) as [st ->]. by eexists. Qed.

Lemma set_state_shape s st m c : (exists st0, slots m !! s = Some (mkSlot c st0)) ->
  slots (set_state s st m) = <[s := mkSlot c st]> (slots m) /\ tasks (set_state s st m) = tasks m /\
  agents (set_state s st m) = agents m.
Proof. intros [st0 Hs]. unfold set_state. by rewrite Hs. Qed.

Section Steps.
Context (token_hash : string -> string).

Lemma refresh_shape random now o m :
  let m' := snd (refresh_runtime_token_for_new_task token_hash random now o m) in
  tasks m' = tasks m /\ slots m' = slots m /\ agents m' = agents m.
Proof.
  unfold refresh_runtime_token_for_new_task. destruct (negb _); [done|]. destruct (runtime_tokens m); [|done].
  by destruct (issue _ _ _ _ _ _ _ _).
Qed.

Lemma caller_step_ok m l i c c' m' :
  shape_ok (tasks m) (slots m) (conversations m) l -> l !! i = Some c -> caller_step token_hash c m c' m' ->
  shape_ok (tasks m') (slots m') (conversations m') (<[i := c']> l).
Proof.
  intros Hok Hi Hstep. pose proof (Forall_lookup_1 _ _ _ _ (ok_callers _ _ _ _ Hok) Hi) as Hc.
  destruct Hstep as [cv o m|cv o m stopped|cv o m random now|cv o m|cv s o m c1 m1 Hcell|cv s o m g Hg|cv s o m|cv s o m|cv s o m|s m m1 Haw].
  - eapply ok_caller_moves; try done; unfold look; destruct (initialised_managed_task cv m) as [[a caps]|]; try done; by destruct (negb _).
  - eapply ok_loses; [apply kill_loses|]. eapply ok_caller_moves; try done; by destruct (kill stopped cv m) as [[] ?].
  - destruct (refresh_shape random now o m) as (-> & -> & HA). unfold conversations. rewrite HA.
    by eapply ok_caller_moves.
  - unfold slot_for. destruct (tasks m !! cv) as [s|] eqn:Hs.
    + eapply ok_caller_moves; try done. by apply (ok_tasks _ _ _ _ Hok).
    + simpl. eapply ok_caller_moves; [by apply ok_new_slot|done..|]. simpl. exists Vacant. by rewrite lookup_app_r, Nat.sub_diag by lia.
  - simpl in Hc. destruct Hc as [st Hs]. unfold enter_cell, state_at in Hcell. rewrite Hs in Hcell. simpl in Hcell.
    destruct st as [| |a caps]; try done; injection Hcell as <- <-.
    + destruct (set_state_shape s Initialising m cv) as (-> & -> & HA); [by eexists|]. unfold conversations. rewrite HA.
      by apply ok_starts.
    + eapply ok_caller_moves; try done. by exists caps.
  - destruct Hg as (Hcv & _ & _). simpl in *.
    destruct (set_state_shape s (Ready (length (agents m)) (runtime_capabilities o)) m cv) as (-> & -> & HA); [by eexists|].
    apply (ok_leaves _ _ (conversations m) _ _ _ _ _ o); try done.
    + right. exists (runtime_capabilities o). unfold conversations. simpl. by rewrite length_map, map_app, <- Hcv.
    + exists (runtime_capabilities o). apply list_lookup_insert_eq. by eapply lookup_lt_Some.
  - simpl in *. destruct (set_state_shape s Vacant m cv) as (-> & -> & HA); [by eexists|]. unfold conversations. rewrite HA.
    eapply ok_leaves; try done. by left.
  - by eapply ok_caller_moves.
  - simpl in *. destruct (set_state_shape s Vacant m cv) as (-> & -> & HA); [by eexists|]. unfold conversations. rewrite HA.
    eapply ok_leaves; try done. by left.
  - unfold await_kill in Haw. simpl in Hc. destruct (state_at s m) as [| |a caps]; try done; injection Haw as <-.
    + by eapply ok_caller_moves.
    + destruct (stop_shape a m) as [[-> ->] ->]. by eapply ok_caller_moves.
Qed.

Lemma system_step_ok y y' : system_ok y -> system_step token_hash y y' -> system_ok y'.
Proof.
  unfold system_ok. intros Hok Hstep. destruct Hstep as [cv o m l|i c c' m m' l Hi Hc|stopped cv m l|cv m l|cv m l|now th ln m l|cv now m l|tk m l|a g g' m l Ha Hg];
    cbn [manager callers] in *.
  - by apply ok_new_caller.
  - by eapply caller_step_ok.
  - eapply ok_loses; [apply kill_loses|done].
  - destruct (kill_and_wait_loses cv m) as [Hl Hs]. destruct (fst (kill_and_wait cv m)) as [s|].
    + eapply ok_new_caller; [by eapply ok_loses|done|]. simpl. destruct Hl as [[-> _] _]. eapply ok_slot; [done|by apply Hs].
    + by eapply ok_loses.
  - eapply ok_loses; [apply clear_key_loses|done].
  - destruct (collect_shape now th ln m) as (-> & -> & HA). unfold conversations. by rewrite HA.
  - done.
  - done.
  - unfold conversations. simpl. rewrite list_fmap_insert, list_insert_id; [done|].
    rewrite list_lookup_fmap, Ha. simpl. by destruct Hg as (-> & _).
Qed.

Lemma agents_reachable_ok y : reachable token_hash y -> system_ok y.
Proof.
  intros [tokens Hr]. revert Hr. apply (rtc_ind_r system_ok); [|intros y1 y2 _ Hs Hok; by eapply system_step_ok].
  unfold system_ok. simpl. split; try done; intros; by apply elem_of_nil || done.
Qed.
End Steps.

(** ** What becomes of an agent *)

Definition listed (a : nat) (m : TaskManager) : Prop :=
  exists c s caps, tasks m !! c = Some s /\ slots m !! s = Some (mkSlot c (Ready a caps)).
Definition asked (a : nat) (m : TaskManager) : Prop :=
  exists g, agents m !! a = Some g /\ asked_to_stop g = true.

Lemma stop_asks a m : is_Some (agents m !! a) -> asked a (stop_agent a m).
Proof.
  intros [g Hg]. unfold stop_agent. rewrite Hg. eexists. split; [|shelve]. simpl.
  apply list_lookup_insert_eq. by eapply lookup_lt_Some.
  Unshelve. done.
Qed.

Lemma stop_keeps_asked a b m : asked a m -> asked a (stop_agent b m).
Proof.
  intros (g & Hg & Ha). unfold stop_agent. destruct (agents m !! b) as [g'|] eqn:Hb; [|by exists g].
  destruct (decide (a = b)) as [->|Hne].
  - eexists. split; [simpl; apply list_lookup_insert_eq; by eapply lookup_lt_Some|done].
  - exists g. simpl. by rewrite list_lookup_insert_ne.
Qed.

(** Taking the slot of [c] out of the table and stopping what is in it. *)
Lemma kill_accounts stopped c a m l : shape_ok (tasks m) (slots m) (conversations m) l ->
  listed a m \/ asked a m -> listed a (snd (kill stopped c m)) \/ asked a (snd (kill stopped c m)).
Proof.
  intros Hok Ha. unfold kill. pose proof (take_shape c m) as Ht.
  destruct (take_slot c m) as [[s|] m1]; destruct Ht as (S & A & Hs & D).
  - assert (Hkept : asked a m -> asked a m1) by (unfold asked; by rewrite A).
    destruct Ha as [(c' & s' & caps & Hc' & Hs')|Ha].
    + destruct (decide (c = c')) as [<-|Hne].
      * right. unfold state_at. rewrite Hc' in Hs. injection Hs as ->. rewrite S, Hs'. simpl. apply stop_asks. rewrite A.
        pose proof (ok_ready _ _ _ _ Hok _ _ _ _ Hs') as Hr. unfold conversations in Hr. rewrite list_lookup_fmap in Hr.
        destruct (agents m !! a); [by eexists|done].
      * left. assert (Hl : listed a m1) by (exists c', s', caps; rewrite D, S, lookup_delete_ne; done).
        destruct (state_at s m1) as [| |b caps']; try exact Hl. simpl. destruct (stop_shape b m1) as [[S' A'] T'].
        destruct Hl as (c1 & s1 & caps1 & Hc1 & Hs1). exists c1, s1, caps1. by rewrite T', S'.
    + right. destruct (state_at s m1); try by apply Hkept. by apply stop_keeps_asked, Hkept.
  - simpl. destruct Ha as [(c' & s' & caps & Hc' & Hs')|Ha]; [left|right; unfold asked; by rewrite A].
    exists c', s', caps. rewrite D, S, lookup_delete_ne; [done|]. congruence.
Qed.

Lemma clear_key_kill c m : clear_key c m = snd (kill true c m).
Proof.
  unfold kill, clear_key, stop_ready. destruct (take_slot c m) as [[s|] m1]; [|done]. by destruct (state_at s m1).
Qed.
Lemma kill_and_wait_kill c m : snd (kill_and_wait c m) = snd (kill true c m).
Proof.
  unfold kill, kill_and_wait. destruct (take_slot c m) as [[s|] m1]; [|done]. by destruct (state_at s m1).
Qed.

Lemma accounted_same a m m' : tasks m' = tasks m -> slots m' = slots m -> agents m' = agents m ->
  listed a m \/ asked a m -> listed a m' \/ asked a m'.
Proof. unfold listed, asked. by intros -> -> ->. Qed.

Section Accounted.
Context (token_hash : string -> string).

(** A state of a cell that holds no agent changes. *)
Lemma accounted_state a m c s st0 st : slots m !! s = Some (mkSlot c st0) ->
  (forall b caps, st0 <> Ready b caps) -> listed a m \/ asked a m -> listed a (set_state s st m) \/ asked a (set_state s st m).
Proof.
  intros Hs Hst. destruct (set_state_shape s st m c) as (S & T & A); [by eexists|]. unfold listed, asked. rewrite S, T, A.
  intros [(c' & s' & caps & Hc' & Hs')|Ha]; [left|by right]. exists c', s', caps. split; [done|].
  rewrite list_lookup_insert_ne; [done|]. intros <-. rewrite Hs in Hs'. injection Hs' as <- ->. by destruct (Hst a caps).
Qed.

Lemma caller_accounts a m l i c c' m' : shape_ok (tasks m) (slots m) (conversations m) l -> l !! i = Some c ->
  caller_step token_hash c m c' m' -> listed a m \/ asked a m -> listed a m' \/ asked a m'.
Proof.
  intros Hok Hi Hstep Ha. pose proof (Forall_lookup_1 _ _ _ _ (ok_callers _ _ _ _ Hok) Hi) as Hc.
  destruct Hstep as [cv o m|cv o m stopped|cv o m random now|cv o m|cv s o m c1 m1 Hcell|cv s o m g Hg|cv s o m|cv s o m|cv s o m|s m m1 Haw]; try exact Ha.
  - by eapply kill_accounts.
  - destruct (refresh_shape token_hash random now o m) as (T & S & A). by eapply accounted_same.
  - unfold slot_for. destruct (tasks m !! cv) as [s|] eqn:Hs; [exact Ha|]. simpl.
    destruct Ha as [(c' & s' & caps & Hc' & Hs')|Ha]; [left|by right]. exists c', s', caps. simpl.
    rewrite lookup_insert_ne by congruence. split; [done|]. by apply lookup_app_l_Some.
  - simpl in Hc. destruct Hc as [st Hs]. unfold enter_cell, state_at in Hcell. rewrite Hs in Hcell.
    destruct st as [| |b caps]; try done; injection Hcell as <- <-; [|done]. by eapply accounted_state.
  - simpl in *. assert (Hst : listed a (set_state s (Ready (length (agents m)) (runtime_capabilities o)) m) \/
      asked a (set_state s (Ready (length (agents m)) (runtime_capabilities o)) m)) by (by eapply accounted_state).
    destruct Hst as [Hl|(g' & Hg' & Hask)]; [left; exact Hl|right]. exists g'. split; [|done]. simpl.
    destruct (set_state_shape s (Ready (length (agents m)) (runtime_capabilities o)) m cv) as (_ & _ & A); [by eexists|].
    rewrite A in Hg'. by apply lookup_app_l_Some.
  - by eapply accounted_state.
  - by eapply accounted_state.
  - unfold await_kill in Haw. destruct (state_at s m) as [| |b caps]; try done; injection Haw as <-; [exact Ha|].
    destruct (stop_shape b m) as [[S _] T]. destruct Ha as [Hl|Hask]; [left|right; by apply stop_keeps_asked].
    unfold listed. by rewrite S, T.
Qed.

Lemma step_accounts a y y' : system_ok y -> system_step token_hash y y' ->
  listed a (manager y) \/ asked a (manager y) -> listed a (manager y') \/ asked a (manager y').
Proof.
  intros Hok Hstep Ha. destruct Hstep as [cv o m l|i c c' m m' l Hi Hc|stopped cv m l|cv m l|cv m l|now th ln m l|cv now m l|tk m l|b g g' m l Hb Hg];
    cbn [manager callers] in *; try exact Ha.
  - by eapply caller_accounts.
  - by eapply kill_accounts.
  - rewrite kill_and_wait_kill. by eapply kill_accounts.
  - rewrite clear_key_kill. by eapply kill_accounts.
  - destruct (collect_shape now th ln m) as (T & S & A). by eapply accounted_same.
  - destruct Ha as [Hl|(g0 & Hg0 & Hask)]; [by left|right]. destruct (decide (a = b)) as [->|Hne].
    + exists g'. split; [simpl; apply list_lookup_insert_eq; by eapply lookup_lt_Some|].
      destruct Hg as (_ & _ & _ & ->). congruence.
    + exists g0. simpl. by rewrite list_lookup_insert_ne.
Qed.
End Accounted.

(** ** The idle scan *)

Definition idle_entry (now threshold : Z) (lease_now : string -> Z) (m : TaskManager) (c : string) (s : nat) : Prop :=
  exists a caps g, state_at s m = Ready a caps /\ agents m !! a = Some g /\ idle_agent now threshold g = true /\
    is_active c (lease_now c) (active_leases m) = false.

Lemma is_active_lookup c now r : is_active c now r =
  match lease_table r !! c with Some e => (now <? e)%Z | None => false end.
Proof. unfold is_active, active_until. destruct (lease_table r !! c) as [e|]; [|done]. by destruct (now <? e)%Z. Qed.

Lemma active_until_others c now r c' : c' <> c -> lease_table (snd (active_until c now r)) !! c' = lease_table r !! c'.
Proof.
  intros Hne. unfold active_until. destruct (lease_table r !! c) as [e|]; [|done]. destruct (now <? e)%Z; [done|].
  simpl. by rewrite lookup_delete_ne.
Qed.

Lemma collect_entry_spec now threshold lease_now m found r c s :
  let '(found', r') := collect_entry now threshold lease_now m (found, r) (c, s) in
  (forall c', c' <> c -> lease_table r' !! c' = lease_table r !! c') /\
  forall c', c' ∈ found' <-> c' ∈ found \/ c' = c /\ idle_entry now threshold lease_now (set_leases r m) c s.
Proof.
  unfold collect_entry, idle_entry. cbn [active_leases set_leases agents]. change (state_at s (set_leases r m)) with (state_at s m).
  destruct (state_at s m) as [| |a caps]; [naive_solver..|]. destruct (agents m !! a) as [g|] eqn:Hg; [|naive_solver].
  destruct (idle_agent now threshold g) eqn:Hidle;
    [|split; [done|]; intros c'; split; [by left|intros [|(_ & a' & caps' & g' & [= <- <-] & Hg' & Hi & _)]; congruence]].
  pose proof (active_until_others c (lease_now c) r) as Hothers. unfold is_active.
  destruct (active_until c (lease_now c) r) as [[e|] r'] eqn:Hact; (split; [done|]); [naive_solver|].
  intros c'. rewrite elem_of_app, list_elem_of_singleton. naive_solver.
Qed.

Lemma collect_fold now threshold lease_now m l found r : NoDup (map fst l) ->
  let '(found', _) := fold_left (collect_entry now threshold lease_now m) l (found, r) in
  forall c, c ∈ found' <-> c ∈ found \/ exists s, (c, s) ∈ l /\ idle_entry now threshold lease_now (set_leases r m) c s.
Proof.
  revert found r. induction l as [|[c s] l IH]; intros found r Hnd; simpl.
  - intros c. split; [by left|]. intros [|(s & Hs & _)]; [done|by apply elem_of_nil in Hs].
  - apply list.NoDup_cons in Hnd as [Hc Hnd]. pose proof (collect_entry_spec now threshold lease_now m found r c s) as Hone.
    destruct (collect_entry now threshold lease_now m (found, r) (c, s)) as [found1 r1] eqn:He. unfold collect_entry in He. rewrite He.
    specialize (IH found1 r1 Hnd). destruct (fold_left _ l (found1, r1)) as [found2 r2]. destruct Hone as [Hr1 Hin1].
    assert (Hsame : forall c' s', (c', s') ∈ l -> idle_entry now threshold lease_now (set_leases r1 m) c' s' <->
      idle_entry now threshold lease_now (set_leases r m) c' s').
    { intros c' s' Hin. unfold idle_entry. simpl. rewrite !is_active_lookup, Hr1; [done|].
      intros ->. apply Hc. change (c ∈ map fst l). apply list_elem_of_In, in_map_iff. exists (c, s').
      split; [done|by apply list_elem_of_In]. }
    intros c'. rewrite IH, Hin1. split.
    + intros [[|[-> Hi]]|(s' & Hin & Hi)]; [by left|right; exists s; split; [by left|done]|right; exists s'].
      split; [by right|by apply Hsame].
    + intros [|(s' & [[= -> ->]|Hin]%elem_of_cons & Hi)]; [by left; left|by left; right; split|right; exists s'].
      split; [done|by apply Hsame].
Qed.

(** ** Properties *)


(** No agent is forgotten once it is listed.  An agent that is in the table
    at some time is, ever after, still in it or was asked to stop: whatever
    takes it out of the table (a kill, a clear, a rebuild for other
    capabilities, the idle scan) stops it. *)
Theorem listed_agents_accounted token_hash y y' a :
  reachable token_hash y -> rtc (system_step token_hash) y y' -> listed a (manager y) ->
  listed a (manager y') \/ asked a (manager y').
Proof.
  intros Hr Hrun Hl. apply agents_reachable_ok in Hr. assert (Ha : listed a (manager y) \/ asked a (manager y)) by by left.
  clear Hl. induction Hrun as [y|y1 y2 y3 Hstep _ IH]; [done|]. apply IH.
  - by eapply system_step_ok.
  - by eapply step_accounts.
Qed.

(** The idle scan selects what is idle, and nothing else: the conversations
    in the table with a finished build of an ACP agent that has no turn running
    and was last active longer ago than the threshold, and on which no lease
    is held that has yet to run out. *)
Theorem idle_scan_exact now threshold lease_now m c :
  c ∈ fst (collect_idle now threshold lease_now m) <->
  exists s a caps g, tasks m !! c = Some s /\ state_at s m = Ready a caps /\ agents m !! a = Some g /\
    agent_type g = AgentType.Acp /\ agent_status g <> Some ConversationStatus.Running /\
    agent_status g <> Some ConversationStatus.Pending /\
    (threshold < i64_saturating_sub now (last_activity_at g))%Z /\
    forall expires, lease_table (active_leases m) !! c = Some expires -> (expires <= lease_now c)%Z.
Proof.
  assert (Hidle : forall g, idle_agent now threshold g = true <->
    agent_type g = AgentType.Acp /\ agent_status g <> Some ConversationStatus.Running /\
    agent_status g <> Some ConversationStatus.Pending /\ (threshold < i64_saturating_sub now (last_activity_at g))%Z).
  { intros g. unfold idle_agent. rewrite !andb_true_iff, bool_decide_eq_true, Z.ltb_lt.
    destruct (agent_status g) as [[]|]; naive_solver. }
  assert (Hlease : is_active c (lease_now c) (active_leases m) = false <->
    forall expires, lease_table (active_leases m) !! c = Some expires -> (expires <= lease_now c)%Z).
  { rewrite is_active_lookup. destruct (lease_table (active_leases m) !! c) as [e|]; [|naive_solver].
    rewrite Z.ltb_ge. naive_solver. }
  unfold collect_idle. pose proof (collect_fold now threshold lease_now m (map_to_list (tasks m)) [] (active_leases m)
    (NoDup_fst_map_to_list _)) as Hfold.
  destruct (fold_left _ _ _) as [found r]. simpl. rewrite Hfold. split.
  - intros [Hbad|(s & Hs%elem_of_map_to_list & a & caps & g & Hst & Hg & Hi%Hidle & Hl)]; [by apply elem_of_nil in Hbad|].
    pose proof (proj1 Hlease Hl) as Hl2.
    destruct Hi as (? & ? & ? & ?). by exists s, a, caps, g.
  - intros (s & a & caps & g & Hs & Hst & Hg & Ht & Hr & Hp & Hth & Hl). right. exists s.
    split; [by apply elem_of_map_to_list|]. exists a, caps, g. split_and!; try done; [by apply Hidle|by apply Hlease].
Qed.

(** ** Examples *)

Definition demo_options : BuildTaskOptions := mkBuildOptions "u" "c" true [] (mkCapabilities None).
Definition demo_agent : Agent := mkAgent "c" AgentType.Acp None 0 [] false.

(** A call on its own, until its agent is there. *)
Definition system_building : System :=
  mkSystem (mkManager {["c" := 0]} [mkSlot "c" Initialising] [] ActiveLeaseRegistry_new None) [Building "c" 0 demo_options].

Lemma building_reachable token_hash : reachable token_hash system_building.
Proof.
  exists None. eapply rtc_l; [apply (step_call _ "c" demo_options)|]. simpl.
  eapply rtc_l; [eapply (step_caller _ 0 (Looking "c" demo_options) _ _ _ [Looking "c" demo_options]); [done|apply caller_looks]|].
  eapply rtc_l; [eapply (step_caller _ 0 (Entering "c" demo_options) _ _ _ [Entering "c" demo_options]); [done|apply caller_enters]|].
  eapply rtc_l; [eapply (step_caller _ 0 (AtCell "c" 0 demo_options) _ _ _ [AtCell "c" 0 demo_options]); [done|apply caller_at_cell; reflexivity]|].
  apply rtc_refl.
Qed.


(** The build ends. *)
Definition system_built : System :=
  mkSystem (mkManager {["c" := 0]} [mkSlot "c" (Ready 0 (mkCapabilities None))] [demo_agent] ActiveLeaseRegistry_new None)
    [Got "c" 0 0].

Lemma built_reachable token_hash : reachable token_hash system_built.
Proof.
  destruct (building_reachable token_hash) as [tk Hr]. exists tk. eapply rtc_r; [exact Hr|].
  eapply (step_caller _ 0 (Building "c" 0 demo_options) _ _ _ [Building "c" 0 demo_options]); [done|].
  exact (caller_built token_hash "c" 0 demo_options (manager system_building) demo_agent (conj eq_refl (conj eq_refl eq_refl))).
Qed.

Lemma listed_agents_accounted_witness :
  let m := clear_key "c" (manager system_built) in listed 0 m \/ asked 0 m.
Proof.
  apply (listed_agents_accounted (fun t => t) system_built (mkSystem (clear_key "c" (manager system_built)) [Got "c" 0 0]) 0
    (built_reachable _)).
  - apply rtc_once. apply step_clear_key.
  - by exists "c", 0, (mkCapabilities None).
Defined.

(** A conversation is deleted ([kill]) while its agent is being built: the
    agent comes up in a slot that is no longer in the table, so nothing will
    stop it, and the next call builds a second one beside it. *)
Lemma killed_build_leaks token_hash : exists y, reachable token_hash y /\
  get_task "c" (manager y) = None /\
  exists g, agents (manager y) !! 0 = Some g /\ agent_conversation g = "c" /\ asked_to_stop g = false.
Proof.
  exists (mkSystem (mkManager ∅ [mkSlot "c" (Ready 0 (mkCapabilities None))] [demo_agent] ActiveLeaseRegistry_new None) [Got "c" 0 0]).
  split; [|split; [done|by exists demo_agent]].
  destruct (building_reachable token_hash) as [tk Hr]. exists tk. eapply rtc_r; [eapply rtc_r; [exact Hr|]|].
  - apply (step_kill _ true "c").
  - eapply (step_caller _ 0 (Building "c" 0 demo_options) _ _ _ [Building "c" 0 demo_options]); [done|].
    exact (caller_built token_hash "c" 0 demo_options (snd (kill true "c" (manager system_building))) demo_agent (conj eq_refl (conj eq_refl eq_refl))).
Qed.

(** An agent that goes to work between the scan and the kill is killed all the
    same: [kill_and_wait] does not look at it again. *)
Lemma idle_kill_hits_running_agent :
  let now := 1000000%Z in
  let '(idle, m) := collect_idle now 600000 (fun _ => now) (manager system_built) in
  let running := set_agents [mkAgent "c" AgentType.Acp (Some ConversationStatus.Running) now [] false] m in
  idle = ["c"] /\ map asked_to_stop (agents (snd (kill_and_wait "c" running))) = [true].
Proof. by vm_compute. Qed.

(** The options of a turn carry the token issued for it.  When the agent is
    thrown away for a replay, the tokens of the conversation go with it; the
    replay starts the next agent with the same options, and its token is
    unknown. *)
Lemma replayed_agent_has_revoked_token :
  let '(e, service) := issue (fun t => t) "u" "c" TEAM_RUNTIME_TOKEN_SESSION_GENERATION
    [RuntimeTokenScope.TeamContext; RuntimeTokenScope.TeamCall] [1; 2]%N 0 ∅ in
  let o := mkBuildOptions "u" "c" true [(TJUAE_RUNTIME_TOKEN_ENV, entry_token e)] (mkCapabilities None) in
  let m := set_tokens (Some service) (manager system_built) in
  let check m := option_map (validate (fun t => t) (Some (entry_token e)) "u" "c" RuntimeTokenScope.TeamCall
    TEAM_RUNTIME_TOKEN_SESSION_GENERATION) (runtime_tokens m) in
  let m1 := snd (kill_and_wait "c" m) in
  option_map is_ok (check m) = Some true /\
  look "c" o m1 = Entering "c" o /\
  check m1 = Some (Err RuntimeTokenError.Unknown).
Proof. by vm_compute. Qed.
