(* ===== verification/Interleave.v ===== *)
(** * Programs of atomic steps

    Async code of the server runs concurrently with itself: between two awaits
    of one caller the others move.  A [Prog] is such code as a tree of steps,
    each of which is atomic on a shared state (a statement or transaction of
    the database, a critical section of a mutex).  [run] executes a program
    alone, [pool_step] interleaves any number of them.

    [ensures R p Q s] is the specification of a program among others: from
    [s], with anything that [R] allows happening between its steps, each of
    its steps is itself one that [R] allows, and it ends with [Q].  [R] is
    what the programs of a pool rely on of each other. *)

From S2P Require Import Prelude.

Inductive Prog (S A : Type) : Type :=
| Ret (a : A)
| Step (B : Type) (f : S -> B * S) (k : B -> Prog S A).
Arguments Ret {S A} a.
Arguments Step {S A} B f k.

Fixpoint prog_bind {S A B : Type} (p : Prog S A) (f : A -> Prog S B) : Prog S B :=
  match p with
  | Ret a => f a
  | Step C g k => Step C g (fun c => prog_bind (k c) f)
  end.

Definition atomic {S A : Type} (f : S -> A * S) : Prog S A := Step A f Ret.

(** The [?] operator between steps. *)
Definition try_bind {S A B E : Type} (p : Prog S (Result A E)) (f : A -> Prog S (Result B E)) : Prog S (Result B E) :=
  prog_bind p (fun r => match r with Ok a => f a | Err e => Ret (Err e) end).

Definition map_err {S A E F : Type} (f : E -> F) (p : Prog S (Result A E)) : Prog S (Result A F) :=
  prog_bind p (fun r => Ret (match r with Ok a => Ok a | Err e => Err (f e) end)).

Notation "'do' x := m 'in' k" := (prog_bind m (fun x => k))
  (at level 10, x pattern, m at level 100, k at level 200) : tjuae_scope.
Notation "'let!' x := m 'in' k" := (try_bind m (fun x => k))
  (at level 10, x pattern, m at level 100, k at level 200) : tjuae_scope.

(** [for a in l { f(a)?; }]. *)
Fixpoint try_each {S A E : Type} (f : A -> Prog S (Result unit E)) (l : list A) : Prog S (Result unit E) :=
  match l with
  | [] => Ret (Ok tt)
  | a :: l' => try_bind (f a) (fun _ => try_each f l')
  end.

(** [for a in l { f(a) }]. *)
Fixpoint each {S A : Type} (f : A -> Prog S unit) (l : list A) : Prog S unit :=
  match l with
  | [] => Ret tt
  | a :: l' => prog_bind (f a) (fun _ => each f l')
  end.

(** A program on a part of the state. *)
Fixpoint zoom {S T A : Type} (get : S -> T) (set : T -> S -> S) (p : Prog T A) : Prog S A :=
  match p with
  | Ret a => Ret a
  | Step B f k => Step B (fun s => let '(b, t) := f (get s) in (b, set t s)) (fun b => zoom get set (k b))
  end.

Fixpoint run {S A : Type} (p : Prog S A) (s : S) : A * S :=
  match p with
  | Ret a => (a, s)
  | Step B f k => let '(b, s') := f s in run (k b) s'
  end.

(** The first [n] steps, and what is left to do. *)
Fixpoint steps {S A : Type} (n : nat) (p : Prog S A) (s : S) : Prog S A * S :=
  match n, p with
  | Datatypes.S n, Step B f k => let '(b, s') := f s in steps n (k b) s'
  | _, _ => (p, s)
  end.

(** ** Pools

    Programs among which any may take the next step, and to which any program
    of [Op] may be added at any time.  A program that stops for good (a future
    that is dropped) is one that takes no further turn. *)
Inductive pool_step {S A : Type} (Op : Prog S A -> Prop) : S * list (Prog S A) -> S * list (Prog S A) -> Prop :=
| pool_call p s ts : Op p -> pool_step Op (s, ts) (s, ts ++ [p])
| pool_turn i B f k s ts :
    ts !! i = Some (Step B f k) ->
    pool_step Op (s, ts) (snd (f s), <[i := k (fst (f s))]> ts).

(** A call that runs without interruption. *)
Lemma pool_run {S A} (Op : Prog S A -> Prop) p s ts :
  Op p -> rtc (pool_step Op) (s, ts) (snd (run p s), ts ++ [Ret (fst (run p s))]).
Proof.
  intros Hp. eapply rtc_l; [by apply pool_call|]. clear Hp. revert s.
  induction p as [a|B f k IH]; intros s; simpl; [done|].
  eapply rtc_l.
  - apply (pool_turn Op (length ts) B f k). by apply list_lookup_middle.
  - rewrite insert_app_r_alt, Nat.sub_diag by done. simpl. destruct (f s) as [b s'] eqn:E. apply IH.
Qed.

Section Ensures.
Context {S : Type} (R : relation S).

Fixpoint ensures {A : Type} (p : Prog S A) (Q : A -> S -> Prop) (s : S) : Prop :=
  match p with
  | Ret a => forall s', R s s' -> Q a s'
  | Step B f k => forall s', R s s' -> R s' (snd (f s')) /\ ensures (k (fst (f s'))) Q (snd (f s'))
  end.

Context `{!PreOrder R}.

Lemma ensures_stable {A} (p : Prog S A) Q s s' : ensures p Q s -> R s s' -> ensures p Q s'.
Proof.
  destruct p as [a|B f k]; simpl; intros Hp Hs s'' Hs'.
  - apply Hp. by transitivity s'.
  - apply Hp. by transitivity s'.
Qed.

Lemma ensures_ret {A} (a : A) (Q : A -> S -> Prop) s :
  (forall s', R s s' -> Q a s') -> ensures (Ret a) Q s.
Proof. done. Qed.

Lemma ensures_step {A} B f (k : B -> Prog S A) Q s :
  (forall s', R s s' -> R s' (snd (f s')) /\ ensures (k (fst (f s'))) Q (snd (f s'))) -> ensures (Step B f k) Q s.
Proof. done. Qed.

Lemma ensures_atomic {A} (f : S -> A * S) (Q : A -> S -> Prop) s :
  (forall s', R s s' -> R s' (snd (f s')) /\ forall s'', R (snd (f s')) s'' -> Q (fst (f s')) s'') ->
  ensures (atomic f) Q s.
Proof. done. Qed.

Lemma ensures_conseq {A} (p : Prog S A) (Q Q' : A -> S -> Prop) s :
  ensures p Q s -> (forall a s', R s s' -> Q a s' -> Q' a s') -> ensures p Q' s.
Proof.
  revert s. induction p as [a|B f k IH]; simpl; intros s Hp HQ s' Hs.
  - apply HQ, Hp; done.
  - destruct (Hp s' Hs) as [Hf Hk]. split; [done|]. apply IH; [done|].
    intros a s'' Hs' Ha. apply HQ; [|done]. transitivity s'; [done|]. by transitivity (snd (f s')).
Qed.

Lemma ensures_bind {A B} (p : Prog S A) (f : A -> Prog S B) Q s :
  ensures p (fun a s' => ensures (f a) Q s') s -> ensures (prog_bind p f) Q s.
Proof.
  revert s. induction p as [a|C g k IH]; simpl; intros s Hp.
  - apply Hp. reflexivity.
  - intros s' Hs. destruct (Hp s' Hs) as [Hg Hk]. split; [done|]. by apply IH.
Qed.

Lemma ensures_try {A B E} (p : Prog S (Result A E)) (f : A -> Prog S (Result B E)) Q s :
  ensures p (fun r s' => match r with
                         | Ok a => ensures (f a) Q s'
                         | Err e => forall s'', R s' s'' -> Q (Err e) s''
                         end) s ->
  ensures (try_bind p f) Q s.
Proof.
  intros Hp. apply ensures_bind. eapply ensures_conseq; [exact Hp|]. by intros [a|e] s' Hs Ha.
Qed.

Lemma ensures_map_err {A E F} (g : E -> F) (p : Prog S (Result A E)) Q s :
  ensures p (fun r s' => forall s'', R s' s'' -> Q (match r with Ok a => Ok a | Err e => Err (g e) end) s'') s ->
  ensures (map_err g p) Q s.
Proof. intros Hp. by apply ensures_bind. Qed.

(** A loop keeps an invariant that the others keep. *)
Lemma ensures_each {A E} (f : A -> Prog S (Result unit E)) (l : list A) (I : S -> Prop) s :
  (forall s s', R s s' -> I s -> I s') -> I s ->
  (forall a s, In a l -> I s -> ensures (f a) (fun _ _ => True) s) ->
  ensures (try_each f l) (fun _ s' => I s') s.
Proof.
  intros Hst. revert s. induction l as [|a l IH]; intros s Hs Hf; simpl.
  - intros s' Hs'. by apply (Hst s).
  - apply ensures_try. eapply ensures_conseq; [apply Hf; [by left|done]|].
    intros [[]|e] s' Hs' _; [|intros s'' Hs''; apply (Hst s); [by transitivity s'|done]].
    apply IH; [by apply (Hst s)|]. intros b s1 Hb. apply Hf. by right.
Qed.

(** After a loop that was not cut short, what each round establishes for good
    holds for all of its elements. *)
Lemma ensures_each_all {A E} (f : A -> Prog S (Result unit E)) (l : list A) (I : S -> Prop) (P : A -> S -> Prop) s :
  (forall s s', R s s' -> I s -> I s') ->
  (forall a s s', R s s' -> I s -> P a s -> P a s') ->
  I s ->
  (forall a s, In a l -> I s -> ensures (f a) (fun r s' => r = Ok tt -> P a s') s) ->
  ensures (try_each f l) (fun r s' => r = Ok tt -> forall a, In a l -> P a s') s.
Proof.
  intros HI HP. revert s. induction l as [|a l IH]; intros s Hs Hf; simpl; [by intros|].
  apply ensures_try. eapply ensures_conseq; [apply Hf; [by left|done]|].
  intros [[]|e] s' Hs' Ha; [|by intros s'' _]. specialize (Ha eq_refl).
  assert (I s') as Hs1 by by apply (HI s).
  eapply ensures_conseq; [apply IH; [done|]; intros b s1 Hb; apply Hf; by right|].
  intros r s'' Hs'' Hr Hok b [<-|Hb]; [by apply (HP _ s')|by apply Hr].
Qed.

(** A program on a part of the state on which [R] does not depend. *)
Lemma ensures_zoom {T A} (get : S -> T) (set : T -> S -> S) (p : Prog T A) s :
  (forall t s, R s (set t s)) -> ensures (zoom get set p) (fun _ _ => True) s.
Proof.
  intros HR. revert s. induction p as [a|B f k IH]; intros s; simpl; [done|].
  intros s' Hs. destruct (f (get s')) as [b t]. split; [apply HR|apply IH].
Qed.

(** Alone, a program does what it ensures. *)
Lemma run_ensures {A} (p : Prog S A) Q s : ensures p Q s -> Q (fst (run p s)) (snd (run p s)) /\ R s (snd (run p s)).
Proof.
  revert s. induction p as [a|B f k IH]; simpl; intros s Hp.
  - split; [apply Hp|]; reflexivity.
  - destruct (Hp s) as [Hf Hk]; [reflexivity|]. destruct (f s) as [b s'] eqn:E. simpl in *.
    destruct (IH b s' Hk) as [HQ HR]. split; [done|]. by transitivity s'.
Qed.

(** Programs that rely on [R] and guarantee it keep to it together. *)
Lemma pool_ensures {A} (Op : Prog S A -> Prop) (I : S -> Prop) (Q : A -> S -> Prop) s s' ts :
  (forall s s', R s s' -> I s -> I s') ->
  (forall p s, Op p -> I s -> ensures p Q s) -> I s ->
  rtc (pool_step Op) (s, []) (s', ts) ->
  R s s' /\ I s' /\ Forall (fun p => ensures p Q s') ts.
Proof.
  intros HI HOp Hs Hrun.
  assert (forall x y, rtc (pool_step Op) x y -> I x.1 -> Forall (fun p => ensures p Q x.1) x.2 ->
            R x.1 y.1 /\ I y.1 /\ Forall (fun p => ensures p Q y.1) y.2) as Hall.
  { clear s s' ts Hs Hrun. induction 1 as [[s ts]|x y z Hstep _ IH]; intros Hx Hts; simpl in *.
    - by split; [reflexivity|].
    - assert (R x.1 y.1 /\ Forall (fun p => ensures p Q y.1) y.2) as [HR Hy].
      { destruct Hstep as [p s ts Hp|i B f k s ts Hi]; simpl in *.
        - split; [reflexivity|]. apply Forall_app. split; [done|]. repeat constructor. by apply HOp.
        - pose proof (proj1 (Forall_lookup _ _) Hts _ _ Hi) as Hp. simpl in Hp.
          destruct (Hp s) as [Hf Hk]; [reflexivity|]. split; [done|].
          apply Forall_insert; [|done]. eapply Forall_impl; [exact Hts|].
          intros p Hp'. exact (ensures_stable p Q s _ Hp' Hf). }
      destruct (IH (HI _ _ HR Hx) Hy) as (HR' & Hz & Hts'). split; [|done]. by transitivity (y.1). }
  by apply (Hall (s, []) (s', ts)).
Qed.
End Ensures.

(** ** What every step of a program respects

    [quiet R p]: each step of [p] is one that [R] allows, whatever else that
    [R] allows happens between them. *)
Definition quiet {S A : Type} (R : relation S) (p : Prog S A) : Prop :=
  forall s, ensures R p (fun _ _ => True) s.

Section Quiet.
Context {S : Type} (R : relation S) `{!PreOrder R}.

Lemma quiet_ret {A} (a : A) : quiet R (Ret a).
Proof. done. Qed.

(** A program that is so where it stands, and quiet from then on. *)
Lemma ensures_then {A B} (p : Prog S A) (f : A -> Prog S B) s :
  ensures R p (fun _ _ => True) s -> (forall a, quiet R (f a)) -> ensures R (prog_bind p f) (fun _ _ => True) s.
Proof. intros Hp Hf. apply (ensures_bind R). eapply (ensures_conseq R); [exact Hp|]. intros a s' _ _. apply Hf. Qed.

Lemma quiet_bind {A B} (p : Prog S A) (f : A -> Prog S B) :
  quiet R p -> (forall a, quiet R (f a)) -> quiet R (prog_bind p f).
Proof. intros Hp Hf s. by apply ensures_then. Qed.

Lemma quiet_try {A B E} (p : Prog S (Result A E)) (f : A -> Prog S (Result B E)) :
  quiet R p -> (forall a, quiet R (f a)) -> quiet R (try_bind p f).
Proof. intros Hp Hf. apply quiet_bind; [done|]. by intros [a|e]. Qed.

Lemma quiet_map_err {A E F} (g : E -> F) (p : Prog S (Result A E)) : quiet R p -> quiet R (map_err g p).
Proof. intros Hp. by apply quiet_bind. Qed.

Lemma quiet_each {A} (f : A -> Prog S unit) l : (forall a, quiet R (f a)) -> quiet R (each f l).
Proof. intros Hf. induction l as [|a l IH]; [done|]. by apply quiet_bind. Qed.

Lemma quiet_try_each {A E} (f : A -> Prog S (Result unit E)) l : (forall a, quiet R (f a)) -> quiet R (try_each f l).
Proof. intros Hf. induction l as [|a l IH]; [done|]. by apply quiet_try. Qed.

Lemma quiet_atomic {A} (f : S -> A * S) : (forall s, R s (snd (f s))) -> quiet R (atomic f).
Proof. intros Hf s. apply (ensures_atomic R). by intros s' _. Qed.
End Quiet.

(** The steps of a component are hints; [quietly] follows a program: its steps
    are known to be quiet, its branches are taken in turn. *)
Create HintDb quiet.
#[export] Hint Resolve quiet_ret : quiet.
#[export] Hint Extern 1 (PreOrder _) => typeclasses eauto : quiet.

Ltac head_of t := match t with ?f _ => head_of f | _ => t end.

Ltac quietly :=
  repeat first
    [ solve [auto with quiet nocore]
    | progress intros
    | match goal with
      | |- quiet ?R _ =>
          first [apply (quiet_bind R) | apply (quiet_try R) | apply (quiet_map_err R) | apply (quiet_each R)
                | apply (quiet_try_each R)]
      | |- quiet _ (match ?x with _ => _ end) => destruct x
      | |- quiet _ (if ?x then _ else _) => destruct x
      | |- quiet _ ?p => let h := head_of p in unfold h
      end
    | progress cbv beta zeta ].

(** ** Running alone *)
Lemma run_bind {S A B} (p : Prog S A) (f : A -> Prog S B) s :
  run (prog_bind p f) s = let '(a, s') := run p s in run (f a) s'.
Proof.
  revert s. induction p as [a|C g k IH]; intros s; simpl; [done|]. destruct (g s) as [c s']. apply IH.
Qed.

Lemma run_try {S A B E} (p : Prog S (Result A E)) (f : A -> Prog S (Result B E)) s :
  run (try_bind p f) s =
    match run p s with
    | (Ok a, s') => run (f a) s'
    | (Err e, s') => (Err e, s')
    end.
Proof. unfold try_bind. rewrite run_bind. by destruct (run p s) as [[a|e] s']. Qed.

Lemma run_try_ok {S A B E} (p : Prog S (Result A E)) (f : A -> Prog S (Result B E)) s b s' :
  run (try_bind p f) s = (Ok b, s') -> exists a s1, run p s = (Ok a, s1) /\ run (f a) s1 = (Ok b, s').
Proof. rewrite run_try. destruct (run p s) as [[a|e] s1]; [|done]. intros Hf. by exists a, s1. Qed.

Lemma run_map_err {S A E F} (g : E -> F) (p : Prog S (Result A E)) s :
  run (map_err g p) s =
    match run p s with
    | (Ok a, s') => (Ok a, s')
    | (Err e, s') => (Err (g e), s')
    end.
Proof. unfold map_err. rewrite run_bind. by destruct (run p s) as [[a|e] s']. Qed.

(** ** Programs on a part of the state *)
Lemma run_zoom {S T A} (get : S -> T) (set : T -> S -> S) (p : Prog T A) s :
  (forall t s, get (set t s) = t) -> (forall s, set (get s) s = s) -> (forall t u s, set t (set u s) = set t s) ->
  run (zoom get set p) s = (fst (run p (get s)), set (snd (run p (get s))) s).
Proof.
  intros Hgs Hsg Hss. revert s. induction p as [a|B f k IH]; intros s; simpl; [by rewrite Hsg|].
  destruct (f (get s)) as [b t] eqn:E. by rewrite IH, Hgs, Hss.
Qed.
