(* ===== verification/TeamTables.v ===== *)
(** * The tables of a team: mailbox and task board
    ([crates/tjuaeui-team/src/types.rs],
    [crates/tjuaeui-db/src/repository/sqlite_team.rs])

    The domain types with their conversions, and the repository's methods as
    programs of statements on [TeamDb].  A table is its rows in the order in
    which they were inserted; columns that hold JSON hold its text.  A
    transaction is one step: it happens whole or not at all. *)

From S2P Require Import Prelude WorkModel Interleave.
From stdpp Require Import pretty.

(** ** What comes from outside

    The [n]-th call to the environment finds the clock at [now_ms n], draws
    the id [generate_id n], and fails if [statement_fails n].  [order_by] is
    SQLite's [ORDER BY .. ASC] on an integer column, the rest is serde_json on
    [Vec<String>] and on [Value]. *)
Class TeamEnv : Type := {
  Value : Type;
  generate_id : N -> string;
  now_ms : N -> Z;
  statement_fails : N -> bool;
  order_by : forall {A : Type}, (A -> Z) -> list A -> list A;
  strings_to_string : list string -> string;
  strings_from_str : string -> Result (list string) string;
  value_to_string : Value -> string;
  value_from_str : string -> Result Value string;
}.

Class TeamEnvOk `{TeamEnv} : Prop := {
  order_by_permutation : forall {A : Type} (key : A -> Z) l, order_by key l ≡ₚ l;
  order_by_sorted : forall {A : Type} (key : A -> Z) l, StronglySorted (fun a b => (key a <= key b)%Z) (order_by key l);
  strings_empty : strings_from_str "[]" = Ok [];
  strings_roundtrip : forall l, strings_from_str (strings_to_string l) = Ok l;
  value_roundtrip : forall v, value_from_str (value_to_string v) = Ok v;
}.

(** ** Enums *)
Module TeammateRole.
Inductive t : Type := Lead | Teammate.
#[export] Instance t_eq_dec : EqDecision t.
Proof. solve_decision. Defined.
Definition to_string (r : t) : string := match r with Lead => "lead" | Teammate => "teammate" end.
Definition parse (s : string) : option t :=
  if bool_decide (s = "lead") || bool_decide (s = "leader") then Some Lead
  else if bool_decide (s = "teammate") then Some Teammate else None.
End TeammateRole.
Export (hints) TeammateRole.

Module TeammateStatus.
Inductive t : Type := Idle | Working | Thinking | ToolUse | Completed | Error.
#[export] Instance t_eq_dec : EqDecision t.
Proof. solve_decision. Defined.
Definition to_string (s : t) : string :=
  match s with
  | Idle => "idle" | Working => "working" | Thinking => "thinking"
  | ToolUse => "tool_use" | Completed => "completed" | Error => "error"
  end.
Definition parse (s : string) : option t :=
  if bool_decide (s = "idle") || bool_decide (s = "pending") then Some Idle
  else if bool_decide (s = "working") || bool_decide (s = "active") then Some Working
  else if bool_decide (s = "thinking") then Some Thinking
  else if bool_decide (s = "tool_use") then Some ToolUse
  else if bool_decide (s = "completed") then Some Completed
  else if bool_decide (s = "error") || bool_decide (s = "failed") then Some Error else None.
End TeammateStatus.
Export (hints) TeammateStatus.

Module MailboxMessageType.
Inductive t : Type := Message | IdleNotification | ShutdownRequest.
#[export] Instance t_eq_dec : EqDecision t.
Proof. solve_decision. Defined.
Definition to_string (m : t) : string :=
  match m with
  | Message => "message" | IdleNotification => "idle_notification" | ShutdownRequest => "shutdown_request"
  end.
Definition parse (s : string) : option t :=
  if bool_decide (s = "message") then Some Message
  else if bool_decide (s = "idle_notification") then Some IdleNotification
  else if bool_decide (s = "shutdown_request") then Some ShutdownRequest else None.
End MailboxMessageType.
Export (hints) MailboxMessageType.

Module TaskStatus.
Inductive t : Type := Pending | InProgress | Completed | Deleted.
#[export] Instance t_eq_dec : EqDecision t.
Proof. solve_decision. Defined.
Definition to_string (s : t) : string :=
  match s with
  | Pending => "pending" | InProgress => "in_progress" | Completed => "completed" | Deleted => "deleted"
  end.
Definition parse (s : string) : option t :=
  if bool_decide (s = "pending") then Some Pending
  else if bool_decide (s = "in_progress") then Some InProgress
  else if bool_decide (s = "completed") then Some Completed
  else if bool_decide (s = "deleted") then Some Deleted else None.
End TaskStatus.
Export (hints) TaskStatus.

(** ** Rows ([tjuaeui-db/src/models/team.rs]) *)
Record MailboxMessageRow : Type := mkMessageRow {
  mr_id : string;
  mr_team_id : string;
  mr_to_agent_id : string;
  mr_from_agent_id : string;
  mr_msg_type : string;
  mr_content : string;
  mr_summary : option string;
  mr_files : option string;
  mr_read : bool;
  mr_created_at : Z;
}.

Record TeamTaskRow : Type := mkTaskRow {
  tr_id : string;
  tr_team_id : string;
  tr_subject : string;
  tr_description : option string;
  tr_status : string;
  tr_owner : option string;
  tr_blocked_by : string;
  tr_blocks : string;
  tr_metadata : option string;
  tr_created_at : Z;
  tr_updated_at : Z;
}.

(** [UpdateTaskParams]: the columns to set. *)
Record UpdateTaskParams : Type := mkUpdateParams {
  up_status : option string;
  up_description : option string;
  up_owner : option string;
  up_blocked_by : option string;
  up_metadata : option string;
}.

(** ** Domain types *)
Record MailboxMessage : Type := mkMessage {
  mm_id : string;
  mm_team_id : string;
  mm_to_agent_id : string;
  mm_from_agent_id : string;
  mm_msg_type : MailboxMessageType.t;
  mm_content : string;
  mm_summary : option string;
  mm_files : option (list string);
  mm_read : bool;
  mm_created_at : Z;
}.

Record TeamTask `{TeamEnv} : Type := mkTask {
  tt_id : string;
  tt_team_id : string;
  tt_subject : string;
  tt_description : option string;
  tt_status : TaskStatus.t;
  tt_owner : option string;
  tt_blocked_by : list string;
  tt_blocks : list string;
  tt_metadata : option Value;
  tt_created_at : Z;
  tt_updated_at : Z;
}.

Definition mailbox_from_row `{TeamEnv} (row : MailboxMessageRow) : option MailboxMessage :=
  msg_type ← MailboxMessageType.parse (mr_msg_type row);
  let files :=
    s ← mr_files row;
    v ← match strings_from_str s with Ok v => Some v | Err _ => None end;
    if is_empty v then None else Some v in
  Some (mkMessage (mr_id row) (mr_team_id row) (mr_to_agent_id row) (mr_from_agent_id row) msg_type
          (mr_content row) (mr_summary row) files (mr_read row) (mr_created_at row)).

Definition task_from_row `{TeamEnv} (row : TeamTaskRow) : Result TeamTask string :=
  (let status := default TaskStatus.Pending (TaskStatus.parse (tr_status row)) in
   let? blocked_by := strings_from_str (tr_blocked_by row) in
   let? blocks := strings_from_str (tr_blocks row) in
   let? metadata := match tr_metadata row with
                    | None => Ok None
                    | Some s => let? v := value_from_str s in Ok (Some v)
                    end in
   Ok (mkTask _ (tr_id row) (tr_team_id row) (tr_subject row) (tr_description row) status (tr_owner row)
         blocked_by blocks metadata (tr_created_at row) (tr_updated_at row)))%tj.

(** ** The database *)
Record TeamDb : Type := mkTeamDb {
  db_tasks : list TeamTaskRow;
  db_mailbox : list MailboxMessageRow;
  db_calls : N;
}.

Definition set_tasks (l : list TeamTaskRow) (db : TeamDb) : TeamDb := mkTeamDb l (db_mailbox db) (db_calls db).
Definition set_mailbox (l : list MailboxMessageRow) (db : TeamDb) : TeamDb := mkTeamDb (db_tasks db) l (db_calls db).

(** [UPDATE table SET .. WHERE p]. *)
Definition update_where {A : Type} (p : A -> bool) (f : A -> A) (l : list A) : list A :=
  map (fun r => if p r then f r else r) l.

Module SqliteTeam.
Section Sqlite.
Context `{TeamEnv}.

(** A call to the environment; a statement or transaction that may fail, in
    which case it changes nothing.  [f] is given the number of the call. *)
Definition env_call {A : Type} (f : N -> A) : Prog TeamDb A :=
  atomic (fun db => (f (db_calls db), mkTeamDb (db_tasks db) (db_mailbox db) (N.succ (db_calls db)))).

Definition sql {A : Type} (f : N -> TeamDb -> Result A DbError.t * TeamDb) : Prog TeamDb (Result A DbError.t) :=
  atomic (fun db =>
    let n := db_calls db in
    let db := mkTeamDb (db_tasks db) (db_mailbox db) (N.succ n) in
    if statement_fails n then (Err (DbError.Query "statement failed"), db) else f n db).

(** *** Mailbox *)
Definition write_message (row : MailboxMessageRow) : Prog TeamDb (Result unit DbError.t) :=
  sql (fun _ db =>
    if bool_decide (mr_id row ∈ map mr_id (db_mailbox db))
    then (Err (DbError.Query "UNIQUE constraint failed: mailbox.id"), db)
    else (Ok tt, set_mailbox (db_mailbox db ++ [row]) db)).

Definition unread_for (team_id to_agent_id : string) (row : MailboxMessageRow) : bool :=
  bool_decide (mr_team_id row = team_id) && bool_decide (mr_to_agent_id row = to_agent_id) && negb (mr_read row).

Definition select_unread (team_id to_agent_id : string) (db : TeamDb) : list MailboxMessageRow :=
  order_by mr_created_at (List.filter (unread_for team_id to_agent_id) (db_mailbox db)).

Definition set_read (row : MailboxMessageRow) : MailboxMessageRow :=
  mkMessageRow (mr_id row) (mr_team_id row) (mr_to_agent_id row) (mr_from_agent_id row) (mr_msg_type row)
    (mr_content row) (mr_summary row) (mr_files row) true (mr_created_at row).

Definition read_unread_and_mark (team_id to_agent_id : string) : Prog TeamDb (Result (list MailboxMessageRow) DbError.t) :=
  sql (fun _ db =>
    let rows := select_unread team_id to_agent_id db in
    (Ok rows,
     if is_empty rows then db
     else set_mailbox (update_where (unread_for team_id to_agent_id) set_read (db_mailbox db)) db)).

Definition peek_unread (team_id to_agent_id : string) : Prog TeamDb (Result (list MailboxMessageRow) DbError.t) :=
  sql (fun _ db => (Ok (select_unread team_id to_agent_id db), db)).

(** [slice::chunks]; [n] is positive. *)
Fixpoint chunks_from {A : Type} (n k : nat) (chunk l : list A) : list (list A) :=
  match l with
  | [] => if is_empty chunk then [] else [rev chunk]
  | a :: l' =>
      match k with
      | 0 => rev chunk :: chunks_from n (pred n) [a] l'
      | S k' => chunks_from n k' (a :: chunk) l'
      end
  end.
Definition chunks {A : Type} (n : nat) (l : list A) : list (list A) := chunks_from n n [] l.

Definition mark_read_batch (ids : list string) : Prog TeamDb (Result unit DbError.t) :=
  if is_empty ids then Ret (Ok tt)
  else try_each (fun chunk =>
    sql (fun _ db =>
      (Ok tt, set_mailbox (update_where (fun r => bool_decide (mr_id r ∈ chunk)) set_read (db_mailbox db)) db)))
    (chunks 500 ids).

(** A negative [LIMIT] is none. *)
Definition get_history (team_id to_agent_id : string) (limit : option Z)
    : Prog TeamDb (Result (list MailboxMessageRow) DbError.t) :=
  sql (fun _ db =>
    let rows := order_by mr_created_at
      (List.filter (fun r => bool_decide (mr_team_id r = team_id) && bool_decide (mr_to_agent_id r = to_agent_id))
         (db_mailbox db)) in
    (Ok (match limit with
         | Some l => if (l <? 0)%Z then rows else take (Z.to_nat l) rows
         | None => rows
         end), db)).

Definition delete_mailbox_by_team (team_id : string) : Prog TeamDb (Result unit DbError.t) :=
  sql (fun _ db => (Ok tt, set_mailbox (List.filter (fun r => negb (bool_decide (mr_team_id r = team_id))) (db_mailbox db)) db)).

(** *** Tasks *)
Definition create_task (row : TeamTaskRow) : Prog TeamDb (Result unit DbError.t) :=
  sql (fun _ db =>
    if bool_decide (tr_id row ∈ map tr_id (db_tasks db))
    then (Err (DbError.Query "UNIQUE constraint failed: team_tasks.id"), db)
    else (Ok tt, set_tasks (db_tasks db ++ [row]) db)).

Definition find_task_by_id (team_id task_id : string) : Prog TeamDb (Result (option TeamTaskRow) DbError.t) :=
  sql (fun _ db =>
    (Ok (List.find (fun r => bool_decide (tr_team_id r = team_id) && bool_decide (tr_id r = task_id)) (db_tasks db)), db)).

Definition has_id (task_id : string) (r : TeamTaskRow) : bool := bool_decide (tr_id r = task_id).

Definition is_none {A : Type} (o : option A) : bool := match o with None => true | Some _ => false end.

Definition set_params (params : UpdateTaskParams) (now : Z) (r : TeamTaskRow) : TeamTaskRow :=
  mkTaskRow (tr_id r) (tr_team_id r) (tr_subject r)
    (match up_description params with Some d => Some d | None => tr_description r end)
    (default (tr_status r) (up_status params))
    (match up_owner params with Some o => Some o | None => tr_owner r end)
    (default (tr_blocked_by r) (up_blocked_by params)) (tr_blocks r)
    (match up_metadata params with Some m => Some m | None => tr_metadata r end)
    (tr_created_at r) now.

Definition update_task (task_id : string) (params : UpdateTaskParams) : Prog TeamDb (Result unit DbError.t) :=
  if is_none (up_status params) && is_none (up_description params) && is_none (up_owner params)
     && is_none (up_blocked_by params) && is_none (up_metadata params)
  then Ret (Ok tt)
  else sql (fun n db =>
    if existsb (has_id task_id) (db_tasks db)
    then (Ok tt, set_tasks (update_where (has_id task_id) (set_params params (now_ms n)) (db_tasks db)) db)
    else (Err (DbError.NotFound ("task " +:+ task_id)), db)).

Definition list_tasks (team_id : string) : Prog TeamDb (Result (list TeamTaskRow) DbError.t) :=
  sql (fun _ db =>
    (Ok (order_by tr_created_at (List.filter (fun r => bool_decide (tr_team_id r = team_id)) (db_tasks db))), db)).

Definition set_blocks (blocks : string) (now : Z) (r : TeamTaskRow) : TeamTaskRow :=
  mkTaskRow (tr_id r) (tr_team_id r) (tr_subject r) (tr_description r) (tr_status r) (tr_owner r)
    (tr_blocked_by r) blocks (tr_metadata r) (tr_created_at r) now.
Definition set_blocked_by (blocked_by : string) (now : Z) (r : TeamTaskRow) : TeamTaskRow :=
  mkTaskRow (tr_id r) (tr_team_id r) (tr_subject r) (tr_description r) (tr_status r) (tr_owner r)
    blocked_by (tr_blocks r) (tr_metadata r) (tr_created_at r) now.

(** [serde_json::from_str(..).unwrap_or_default()]. *)
Definition strings_or_default (s : string) : list string :=
  match strings_from_str s with Ok l => l | Err _ => [] end.

(** One transaction that reads the row with this id and writes it back. *)
Definition rewrite_task (task_id : string) (f : TeamTaskRow -> Z -> TeamTaskRow -> TeamTaskRow)
    : Prog TeamDb (Result unit DbError.t) :=
  sql (fun n db =>
    match List.find (has_id task_id) (db_tasks db) with
    | None => (Err (DbError.NotFound ("task " +:+ task_id)), db)
    | Some row => (Ok tt, set_tasks (update_where (has_id task_id) (f row (now_ms n)) (db_tasks db)) db)
    end).

Definition appended (blocked_task_id : string) (blocks : list string) : list string :=
  if bool_decide (blocked_task_id ∈ blocks) then blocks else blocks ++ [blocked_task_id].

Definition append_to_blocks (task_id blocked_task_id : string) : Prog TeamDb (Result unit DbError.t) :=
  rewrite_task task_id (fun row =>
    set_blocks (strings_to_string (appended blocked_task_id (strings_or_default (tr_blocks row))))).

Definition removed (unblocked_task_id : string) (blocked_by : list string) : list string :=
  List.filter (fun id => negb (bool_decide (id = unblocked_task_id))) blocked_by.

Definition remove_from_blocked_by (task_id unblocked_task_id : string) : Prog TeamDb (Result unit DbError.t) :=
  rewrite_task task_id (fun row =>
    set_blocked_by (strings_to_string (removed unblocked_task_id (strings_or_default (tr_blocked_by row))))).

Definition delete_tasks_by_team (team_id : string) : Prog TeamDb (Result unit DbError.t) :=
  sql (fun _ db => (Ok tt, set_tasks (List.filter (fun r => negb (bool_decide (tr_team_id r = team_id))) (db_tasks db)) db)).
End Sqlite.
End SqliteTeam.

(** ** Statements among others *)
Section Rely.
Context `{TeamEnv} (R : relation TeamDb) `{!PreOrder R}.
Context (Hcalls : forall db n, R db (mkTeamDb (db_tasks db) (db_mailbox db) n)).

Lemma ensures_sql {A} (f : N -> TeamDb -> Result A DbError.t * TeamDb) (Q : Result A DbError.t -> TeamDb -> Prop) s :
  (forall db e, R s db -> Q (Err e) db) ->
  (forall n db, R s db -> R db (snd (f n db)) /\ forall db', R (snd (f n db)) db' -> Q (fst (f n db)) db') ->
  ensures R (SqliteTeam.sql f) Q s.
Proof.
  intros He Hf. apply ensures_atomic. intros db Hdb. cbv zeta.
  set (db1 := mkTeamDb _ _ _). assert (R db db1) as H1 by apply Hcalls.
  assert (R s db1) as Hs1 by by transitivity db. destruct (statement_fails (db_calls db)); simpl.
  - split; [done|]. intros db' Hdb'. apply He. by transitivity db1.
  - destruct (Hf (db_calls db) db1 Hs1) as [HR HQ]. split; [by transitivity db1|done].
Qed.

(** The same with its error converted. *)
Lemma ensures_db {A} (f : N -> TeamDb -> Result A DbError.t * TeamDb) (Q : Result A TeamError.t -> TeamDb -> Prop) s :
  (forall db e, R s db -> Q (Err (TeamError.Database e)) db) ->
  (forall n db, R s db -> R db (snd (f n db)) /\
     forall db', R (snd (f n db)) db' ->
       Q (match fst (f n db) with Ok a => Ok a | Err e => Err (TeamError.Database e) end) db') ->
  ensures R (map_err TeamError.Database (SqliteTeam.sql f)) Q s.
Proof.
  intros He Hf. apply ensures_map_err; [done|]. apply ensures_sql.
  - intros db e Hdb db' Hdb'. apply He. by transitivity db.
  - intros n db Hdb. destruct (Hf n db Hdb) as [HR HQ]. split; [done|].
    intros db' Hdb' db'' Hdb''. apply HQ. by transitivity db'.
Qed.

Lemma ensures_env_call {A} (f : N -> A) (Q : A -> TeamDb -> Prop) s :
  (forall n db, R s db -> Q (f n) db) -> ensures R (SqliteTeam.env_call f) Q s.
Proof.
  intros Hf. apply ensures_atomic. intros db Hdb. cbv zeta. simpl.
  split; [apply Hcalls|]. intros db' Hdb'. apply Hf. transitivity db; [done|]. etransitivity; [apply Hcalls|exact Hdb'].
Qed.
End Rely.

(** A statement alone. *)
Lemma run_sql `{TeamEnv} {A} (f : N -> TeamDb -> Result A DbError.t * TeamDb) s :
  run (SqliteTeam.sql f) s =
    let db := mkTeamDb (db_tasks s) (db_mailbox s) (N.succ (db_calls s)) in
    if statement_fails (db_calls s) then (Err (DbError.Query "statement failed"), db) else f (db_calls s) db.
Proof.
  unfold SqliteTeam.sql. simpl. destruct (statement_fails (db_calls s)); [done|]. by destruct (f _ _).
Qed.

Lemma run_env_call `{TeamEnv} {A B} (f : N -> A) (k : A -> Prog TeamDb B) s :
  run (prog_bind (SqliteTeam.env_call f) k) s =
    run (k (f (db_calls s))) (mkTeamDb (db_tasks s) (db_mailbox s) (N.succ (db_calls s))).
Proof. done. Qed.

(** ** [update_where] *)
Lemma update_where_lookup {A} (p : A -> bool) (f : A -> A) (l : list A) i :
  update_where p f l !! i = (fun r => if p r then f r else r) <$> l !! i.
Proof. apply list_lookup_fmap. Qed.

Lemma update_where_map {A B} (p : A -> bool) (f : A -> A) (g : A -> B) (l : list A) :
  (forall r, g (f r) = g r) -> map g (update_where p f l) = map g l.
Proof. intros Hg. unfold update_where. rewrite map_map. apply map_ext. intros r. by destruct (p r). Qed.

Lemma find_lookup {A} (p : A -> bool) (l : list A) r :
  List.find p l = Some r -> exists i, l !! i = Some r /\ p r = true.
Proof. intros [Hin Hp]%List.find_some. apply list_elem_of_In, list_elem_of_lookup in Hin as [i Hi]. by exists i. Qed.

Lemma find_is_some {A} (p : A -> bool) (l : list A) i r :
  l !! i = Some r -> p r = true -> exists r', List.find p l = Some r'.
Proof.
  intros Hi Hp. destruct (List.find p l) as [r'|] eqn:E; [by exists r'|].
  apply List.find_none with (x := r) in E; [congruence|]. apply list_elem_of_In, list_elem_of_lookup. by exists i.
Qed.

(** ** An instance of the environment

    The laws hold of it; the examples of the files that follow run on it.  An
    array of strings is written with a comma before each element and a
    backslash before each character. *)
Definition backslash : Ascii.ascii := Ascii.ascii_of_N 92.
Definition comma : Ascii.ascii := Ascii.ascii_of_N 44.

Fixpoint escape_string (s : string) : string :=
  match s with
  | EmptyString => EmptyString
  | String c s => String backslash (String c (escape_string s))
  end.

Definition write_strings (l : list string) : string :=
  match l with
  | [] => "[]"
  | _ => foldr (fun s rest => String comma (escape_string s +:+ rest)) "" l
  end.

(** The first element, still being read, and the ones after it. *)
Fixpoint read_items (s : string) : Result (string * list string) string :=
  match s with
  | EmptyString => Ok ("", [])
  | String c s =>
      if bool_decide (c = comma) then
        match read_items s with Ok (item, items) => Ok ("", item :: items) | Err e => Err e end
      else
        match s with
        | String d s => match read_items s with Ok (item, items) => Ok (String d item, items) | Err e => Err e end
        | EmptyString => Err "unfinished escape"
        end
  end.

Definition read_strings (s : string) : Result (list string) string :=
  if bool_decide (s = "[]") then Ok []
  else match read_items s with Ok (_, items) => Ok items | Err e => Err e end.

Lemma read_escaped s rest item items :
  read_items rest = Ok (item, items) -> read_items (escape_string s +:+ rest) = Ok (s +:+ item, items).
Proof.
  intros Hrest. induction s as [|c s IH]; [done|]. simpl escape_string. rewrite !str_app_cons.
  change (read_items (String backslash (String c (escape_string s +:+ rest))))
    with (match read_items (escape_string s +:+ rest) with Ok (item, items) => Ok (String c item, items) | Err e => Err e end).
  by rewrite IH.
Qed.

Lemma read_write_strings l : read_strings (write_strings l) = Ok l.
Proof.
  destruct l as [|s l]; [done|]. set (text := write_strings (s :: l)).
  assert (read_items text = Ok ("", s :: l)) as Hread.
  { subst text. unfold write_strings. generalize (s :: l). clear. induction l as [|s l IH]; [done|].
    simpl foldr. simpl read_items.
    rewrite (read_escaped s _ _ _ IH). simpl. by rewrite str_app_nil. }
  unfold read_strings. rewrite Hread. case_bool_decide as Heq; [|done]. by subst text.
Qed.

Definition key_le {A : Type} (key : A -> Z) (a b : A) : Prop := (key a <= key b)%Z.
#[export] Instance key_le_dec {A} (key : A -> Z) a b : Decision (key_le key a b).
Proof. unfold key_le. apply _. Defined.
#[export] Instance key_le_total {A} (key : A -> Z) : Total (key_le key).
Proof. intros a b. unfold key_le. lia. Qed.
#[export] Instance key_le_trans {A} (key : A -> Z) : Transitive (key_le key).
Proof. intros a b c. unfold key_le. lia. Qed.

Definition order_rows {A : Type} (key : A -> Z) (l : list A) : list A :=
  merge_sort (key_le key) l.

Definition sample_env (fails : N -> bool) : TeamEnv := {|
  Value := string;
  generate_id := fun n => "id" +:+ pretty n;
  now_ms := Z.of_N;
  statement_fails := fails;
  order_by := fun A key l => order_rows key l;
  strings_to_string := write_strings;
  strings_from_str := read_strings;
  value_to_string := fun v => v;
  value_from_str := fun s => Ok s;
|}.

#[export] Instance sample_env_ok fails : @TeamEnvOk (sample_env fails).
Proof.
  split; simpl.
  - intros A key l. apply merge_sort_Permutation.
  - intros A key l. apply (StronglySorted_merge_sort (key_le key)); apply _.
  - done.
  - apply read_write_strings.
  - done.
Qed.
