(* ===== verification/TaskBoard.v ===== *)
(** * The task board of a team
    ([crates/tjuaeui-team/src/task_board.rs])

    Tasks are linked both ways: [blocked_by] holds the ids a task waits for,
    [blocks] the ids that wait for it.  The methods run concurrently (any
    agent may call them through its tools), so they are programs whose
    statements interleave; what they rely on of each other is [board_rely]. *)

From S2P Require Import Prelude WorkModel Interleave TeamTables.

Record TaskUpdate `{TeamEnv} : Type := mkTaskUpdate {
  tu_status : option TaskStatus.t;
  tu_description : option string;
  tu_owner : option string;
  tu_blocked_by : option (list string);
  tu_metadata : option Value;
}.

Module TaskBoard.
Section Board.
Context `{TeamEnv}.

Definition db {A : Type} (p : Prog TeamDb (Result A DbError.t)) : Prog TeamDb (Result A TeamError.t) :=
  map_err TeamError.Database p.

Definition parsed (r : Result TeamTask string) : Result TeamTask TeamError.t :=
  match r with Ok t => Ok t | Err e => Err (TeamError.Json e) end.

Definition check_dependency_exists (team_id dep_id : string) : Prog TeamDb (Result unit TeamError.t) :=
  (let! dep := db (SqliteTeam.find_task_by_id team_id dep_id) in
   match dep with
   | None => Ret (Err (TeamError.BlockedTaskNotFound dep_id))
   | Some _ => Ret (Ok tt)
   end)%tj.

Definition new_row (task_id team_id subject : string) (description owner : option string)
    (blocked_by : list string) (now : Z) : TeamTaskRow :=
  mkTaskRow task_id team_id subject description (TaskStatus.to_string TaskStatus.Pending) owner
    (strings_to_string blocked_by) "[]" None now now.

Definition create_task (team_id subject : string) (description owner : option string) (blocked_by : list string)
    : Prog TeamDb (Result TeamTask TeamError.t) :=
  (let! _ := try_each (check_dependency_exists team_id) blocked_by in
   do task_id := SqliteTeam.env_call generate_id in
   do now := SqliteTeam.env_call now_ms in
   let row := new_row task_id team_id subject description owner blocked_by now in
   let! _ := db (SqliteTeam.create_task row) in
   let! _ := try_each (fun dep_id => db (SqliteTeam.append_to_blocks dep_id task_id)) blocked_by in
   Ret (parsed (task_from_row row)))%tj.

Definition check_unblocks (completed_task_id : string) (completed_row : TeamTaskRow)
    : Prog TeamDb (Result unit TeamError.t) :=
  match strings_from_str (tr_blocks completed_row) with
  | Err e => Ret (Err (TeamError.Json e))
  | Ok blocks =>
      try_each (fun downstream_id => db (SqliteTeam.remove_from_blocked_by downstream_id completed_task_id)) blocks
  end.

Definition update_params (update : TaskUpdate) : UpdateTaskParams :=
  mkUpdateParams (TaskStatus.to_string <$> tu_status update) (tu_description update) (tu_owner update)
    (strings_to_string <$> tu_blocked_by update) (value_to_string <$> tu_metadata update).

Definition find_or_not_found (team_id task_id : string) : Prog TeamDb (Result TeamTaskRow TeamError.t) :=
  (let! row := db (SqliteTeam.find_task_by_id team_id task_id) in
   Ret (ok_or row (TeamError.TaskNotFound task_id)))%tj.

Definition update_task (team_id task_id : string) (update : TaskUpdate) : Prog TeamDb (Result TeamTask TeamError.t) :=
  (let! existing := find_or_not_found team_id task_id in
   let! _ := db (SqliteTeam.update_task task_id (update_params update)) in
   let! _ := if bool_decide (tu_status update = Some TaskStatus.Completed)
             then check_unblocks task_id existing else Ret (Ok tt) in
   let! updated := find_or_not_found team_id task_id in
   Ret (parsed (task_from_row updated)))%tj.

(** A row that does not parse is left out. *)
Definition list_tasks (team_id : string) : Prog TeamDb (Result (list TeamTask) TeamError.t) :=
  (let! rows := db (SqliteTeam.list_tasks team_id) in
   Ret (Ok (omap (fun r => match task_from_row r with Ok t => Some t | Err _ => None end) rows)))%tj.
End Board.
End TaskBoard.

(** ** What holds of the board

    The dependencies of a task are earlier rows of the table and what it
    blocks are later ones, so no task waits for itself through others. *)
Section Invariant.
Context `{TeamEnv}.

Definition blocks_of (r : TeamTaskRow) : list string := SqliteTeam.strings_or_default (tr_blocks r).
Definition deps_of (r : TeamTaskRow) : list string := SqliteTeam.strings_or_default (tr_blocked_by r).
Definition links_parse (r : TeamTaskRow) : Prop :=
  is_ok (strings_from_str (tr_blocks r)) = true /\ is_ok (strings_from_str (tr_blocked_by r)) = true.

Definition id_at (db : TeamDb) (i : nat) (id : string) : Prop := map tr_id (db_tasks db) !! i = Some id.

Record board_ok (db : TeamDb) : Prop := {
  board_ids : NoDup (map tr_id (db_tasks db));
  board_links : Forall links_parse (db_tasks db);
  board_deps : forall i r d, db_tasks db !! i = Some r -> d ∈ deps_of r -> exists j, j < i /\ id_at db j d;
  board_blocks : forall i r d, db_tasks db !! i = Some r -> d ∈ blocks_of r -> exists j, i < j /\ id_at db j d;
}.

(** What may happen to a row while the team is not deleted and nobody sets
    [blocked_by] by hand: it stays where it is, it may block more tasks and
    wait for fewer. *)
Record row_rely (r r' : TeamTaskRow) : Prop := {
  rely_id : tr_id r' = tr_id r;
  rely_team : tr_team_id r' = tr_team_id r;
  rely_blocks : blocks_of r ⊆ blocks_of r';
  rely_deps : deps_of r' ⊆ deps_of r;
}.

Definition board_rely (db db' : TeamDb) : Prop :=
  board_ok db ->
  board_ok db' /\ forall i r, db_tasks db !! i = Some r -> exists r', db_tasks db' !! i = Some r' /\ row_rely r r'.

#[export] Instance row_rely_preorder : PreOrder row_rely.
Proof.
  split.
  - by intros r; split.
  - intros r1 r2 r3 [] []. split; [congruence|congruence|set_solver|set_solver].
Qed.

#[export] Instance board_rely_preorder : PreOrder board_rely.
Proof.
  split.
  - intros db Hdb. split; [done|]. intros i r Hr. by exists r.
  - intros db1 db2 db3 H12 H23 Hdb. destruct (H12 Hdb) as [H2 Hr12]. destruct (H23 H2) as [H3 Hr23].
    split; [done|]. intros i r (r2 & Hr2 & Hrr)%Hr12. destruct (Hr23 i r2 Hr2) as (r3 & Hr3 & Hrr').
    exists r3. split; [done|]. by transitivity r2.
Qed.

Lemma board_rely_same db db' : db_tasks db' = db_tasks db -> board_rely db db'.
Proof.
  intros Heq Hdb. split.
  - destruct Hdb as [Hi Hl Hd Hb]. split; unfold id_at in *; rewrite Heq; assumption.
  - intros i r Hr. exists r. rewrite Heq. by split; [|].
Qed.

Lemma board_rely_ok db db' : board_rely db db' -> board_ok db -> board_ok db'.
Proof. intros Hr Hdb. by apply Hr. Qed.

Lemma id_at_iff db i id : id_at db i id <-> exists r, db_tasks db !! i = Some r /\ tr_id r = id.
Proof.
  unfold id_at. change (map tr_id (db_tasks db)) with (tr_id <$> db_tasks db).
  rewrite list_lookup_fmap_Some. naive_solver.
Qed.

Lemma id_at_rely db db' i id : board_rely db db' -> board_ok db -> id_at db i id -> id_at db' i id.
Proof.
  intros Hrel Hdb (r & Hr & <-)%id_at_iff. destruct (proj2 (Hrel Hdb) i r Hr) as (r' & Hr' & Hrr).
  apply id_at_iff. exists r'. split; [done|]. by apply rely_id.
Qed.

Lemma id_at_unique db i j id : board_ok db -> id_at db i id -> id_at db j id -> i = j.
Proof. intros Hdb Hi Hj. by eapply NoDup_lookup; [apply (board_ids db Hdb)| |]. Qed.

(** Rows that are rewritten by id. *)
Lemma rewritten_rely db id f :
  (board_ok db -> forall i r, db_tasks db !! i = Some r -> tr_id r = id ->
     row_rely r (f r) /\ links_parse (f r) /\
     forall d, d ∈ blocks_of (f r) -> d ∈ blocks_of r \/ exists j, i < j /\ id_at db j d) ->
  board_rely db (set_tasks (update_where (SqliteTeam.has_id id) f (db_tasks db)) db).
Proof.
  intros Hf Hdb. specialize (Hf Hdb). set (db' := set_tasks _ _).
  assert (forall i r, db_tasks db !! i = Some r -> exists r', db_tasks db' !! i = Some r' /\ row_rely r r' /\
            (r' = r \/ tr_id r = id /\ r' = f r)) as Hrow.
  { intros i r Hr. simpl. rewrite update_where_lookup, Hr. simpl. eexists. split; [done|].
    unfold SqliteTeam.has_id. case_bool_decide as Hid; [|by split; [|left]].
    split; [by apply (Hf i)|by right]. }
  assert (map tr_id (db_tasks db') = map tr_id (db_tasks db)) as Hids.
  { apply list_eq. intros i. change (map tr_id ?l) with (tr_id <$> l). rewrite !list_lookup_fmap. simpl.
    rewrite update_where_lookup. destruct (db_tasks db !! i) as [r|] eqn:Hr; [|done]. simpl. f_equal.
    unfold SqliteTeam.has_id. case_bool_decide as Hid; [|done]. by apply (Hf i). }
  assert (forall i r', db_tasks db' !! i = Some r' -> exists r, db_tasks db !! i = Some r) as Hback.
  { intros i r'. simpl. rewrite update_where_lookup. destruct (db_tasks db !! i); [by eexists|done]. }
  split; [|intros i r (r' & Hr' & Hrr & _)%Hrow; by exists r'].
  destruct Hdb as [Hi Hl Hd Hb]. split.
  - by rewrite Hids.
  - apply Forall_lookup. intros i r' Hr'. destruct (Hback i r' Hr') as [r Hr].
    destruct (Hrow i r Hr) as (r2 & Hr2 & _ & Hcase). simplify_eq.
    destruct Hcase as [->|[Hid ->]]; [by eapply Forall_lookup_1|by apply (Hf i)].
  - intros i r' d Hr' Hin. destruct (Hback i r' Hr') as [r Hr].
    destruct (Hrow i r Hr) as (r2 & Hr2 & Hrr & _). simplify_eq.
    destruct (Hd i r d Hr) as (j & Hj & Hjd); [by apply (rely_deps _ _ Hrr)|]. exists j. by unfold id_at; rewrite Hids.
  - intros i r' d Hr' Hin. destruct (Hback i r' Hr') as [r Hr].
    destruct (Hrow i r Hr) as (r2 & Hr2 & _ & Hcase). simplify_eq. unfold id_at. rewrite Hids.
    destruct Hcase as [->|[Hid ->]]; [by apply (Hb i r)|].
    destruct (proj2 (proj2 (Hf i r Hr Hid)) d Hin) as [Hin'|Hj]; [by apply (Hb i r)|done].
Qed.
End Invariant.

(** ** The statements of the board *)
Section Statements.
Context `{TeamEnvOk}.

Lemma strings_parse l : SqliteTeam.strings_or_default (strings_to_string l) = l /\ is_ok (strings_from_str (strings_to_string l)) = true.
Proof. unfold SqliteTeam.strings_or_default. by rewrite strings_roundtrip. Qed.

Lemma board_calls db n : board_rely db (mkTeamDb (db_tasks db) (db_mailbox db) n).
Proof. by apply board_rely_same. Qed.

Lemma ensures_stmt {A} (f : N -> TeamDb -> Result A DbError.t * TeamDb) (Q : Result A TeamError.t -> TeamDb -> Prop) s :
  (forall db e, board_rely s db -> Q (Err (TeamError.Database e)) db) ->
  (forall n db, board_rely s db -> board_rely db (snd (f n db)) /\
     forall db', board_rely (snd (f n db)) db' ->
       Q (match fst (f n db) with Ok a => Ok a | Err e => Err (TeamError.Database e) end) db') ->
  ensures board_rely (TaskBoard.db (SqliteTeam.sql f)) Q s.
Proof.
  apply ensures_db; [apply _|apply board_calls].
Qed.

(** The row was there when the statement ran. *)
Definition found (s : TeamDb) (team_id task_id : string) (row : TeamTaskRow) (s' : TeamDb) : Prop :=
  exists s1 i, board_rely s s1 /\ board_rely s1 s' /\ db_tasks s1 !! i = Some row /\
    tr_team_id row = team_id /\ tr_id row = task_id.

Lemma ensures_find team_id task_id s :
  ensures board_rely (TaskBoard.db (SqliteTeam.find_task_by_id team_id task_id))
    (fun r s' => forall row, r = Ok (Some row) -> found s team_id task_id row s') s.
Proof.
  apply ensures_stmt; [done|]. intros n db Hdb. simpl. split; [done|].
  intros db' Hdb' row [= Hrow]. apply find_lookup in Hrow as (i & Hi & Hp).
  rewrite andb_true_iff, !bool_decide_eq_true in Hp. exists db, i. naive_solver.
Qed.

Lemma ensures_find_or team_id task_id s :
  ensures board_rely (TaskBoard.find_or_not_found team_id task_id)
    (fun r s' => forall row, r = Ok row -> found s team_id task_id row s') s.
Proof.
  apply ensures_try; [apply _|]. eapply ensures_conseq; [apply _|apply ensures_find|].
  intros [[row|]|e] s' Hs Hr; simpl; [|by intros|by intros].
  intros s'' Hs'' row' [= <-]. destruct (Hr row eq_refl) as (s1 & i & Hs1 & Hs1' & Hrow). exists s1, i.
  split; [done|]. split; [by transitivity s'|done].
Qed.

(** The task waits on the board of its team. *)
Definition listed (team_id task_id : string) (db : TeamDb) : Prop :=
  exists i r, db_tasks db !! i = Some r /\ tr_id r = task_id /\ tr_team_id r = team_id.

Lemma listed_rely team_id task_id db db' : board_rely db db' -> board_ok db -> listed team_id task_id db -> listed team_id task_id db'.
Proof.
  intros Hrel Hdb (i & r & Hr & Hid & Hteam). destruct (proj2 (Hrel Hdb) i r Hr) as (r' & Hr' & []).
  exists i, r'. split; [done|]. split; congruence.
Qed.

Lemma ensures_check team_id dep s :
  board_ok s ->
  ensures board_rely (TaskBoard.check_dependency_exists team_id dep) (fun r s' => r = Ok tt -> listed team_id dep s') s.
Proof.
  intros Hs. apply ensures_try; [apply _|]. eapply ensures_conseq; [apply _|apply ensures_find|].
  intros [[row|]|e] s' Hs' Hr; simpl; [|by intros|by intros].
  intros s'' Hs'' _. destruct (Hr row eq_refl) as (s1 & i & Hs1 & Hs1' & Hrow & Hteam & Hid).
  apply (listed_rely _ _ s1); [by transitivity s'|by apply (board_rely_ok s)|]. by exists i, row.
Qed.

Lemma ensures_checks team_id deps s :
  board_ok s ->
  ensures board_rely (try_each (TaskBoard.check_dependency_exists team_id) deps)
    (fun r s' => r = Ok tt -> forall d, In d deps -> listed team_id d s') s.
Proof.
  intros Hs. apply (ensures_each_all _ _ _ board_ok (listed team_id)); [apply board_rely_ok| |done|].
  - intros d s1 s2 Hr Hs1. by apply listed_rely.
  - intros d s1 _ Hs1. by apply ensures_check.
Qed.

(** What the insertion of a task leaves: its row, after those it depends on. *)
Definition inserted (team_id task_id : string) (deps : list string) (db : TeamDb) : Prop :=
  exists j r, db_tasks db !! j = Some r /\ tr_id r = task_id /\ tr_team_id r = team_id /\ deps_of r ⊆ deps /\
    forall d, d ∈ deps -> exists i, i < j /\ id_at db i d.

Lemma inserted_rely team_id task_id deps db db' :
  board_rely db db' -> board_ok db -> inserted team_id task_id deps db -> inserted team_id task_id deps db'.
Proof.
  intros Hrel Hdb (j & r & Hr & Hid & Hteam & Hdeps & Hord). destruct (proj2 (Hrel Hdb) j r Hr) as (r' & Hr' & []).
  exists j, r'. split; [done|]. split; [congruence|]. split; [congruence|]. split; [set_solver|].
  intros d Hd. destruct (Hord d Hd) as (i & Hij & Hi). exists i. split; [done|]. by apply (id_at_rely db).
Qed.

Lemma appended_row_rely db row :
  tr_id row ∉ map tr_id (db_tasks db) -> links_parse row -> blocks_of row = [] ->
  (board_ok db -> forall d, d ∈ deps_of row -> exists j, id_at db j d) ->
  board_rely db (set_tasks (db_tasks db ++ [row]) db).
Proof.
  intros Hnew Hlinks Hblocks Hdeps Hdb. specialize (Hdeps Hdb). destruct Hdb as [Hi Hl Hd Hb].
  assert (forall j d, id_at db j d -> id_at (set_tasks (db_tasks db ++ [row]) db) j d) as Hat.
  { intros j d Hj. unfold id_at in *. simpl. rewrite map_app. by apply lookup_app_l_Some. }
  split; [|intros i r Hr; exists r; split; [by apply lookup_app_l_Some|done]].
  split.
  - simpl. rewrite map_app. apply NoDup_app. split; [done|]. split; [|apply NoDup_singleton].
    by intros id Hid ->%list_elem_of_singleton.
  - simpl. apply Forall_app. split; [done|]. by apply Forall_singleton.
  - simpl. intros i r d [Hr|[Hle Hr]]%lookup_app_Some Hin.
    + destruct (Hd i r d Hr Hin) as (j & Hj & Hjd). exists j. by split; [|apply Hat].
    + apply list_lookup_singleton_Some in Hr as [Hi0 ->]. destruct (Hdeps d Hin) as [j Hj].
      exists j. split; [|by apply Hat]. apply lookup_lt_Some in Hj. rewrite length_map in Hj. lia.
  - simpl. intros i r d [Hr|[Hle Hr]]%lookup_app_Some Hin.
    + destruct (Hb i r d Hr Hin) as (j & Hj & Hjd). exists j. by split; [|apply Hat].
    + apply list_lookup_singleton_Some in Hr as [_ ->]. rewrite Hblocks in Hin. by apply elem_of_nil in Hin.
Qed.

Lemma new_row_links task_id team_id subject description owner deps now :
  let row := TaskBoard.new_row task_id team_id subject description owner deps now in
  links_parse row /\ blocks_of row = [] /\ deps_of row = deps.
Proof.
  cbv zeta. destruct (strings_parse deps) as [Hd Hok]. unfold links_parse, blocks_of, deps_of, SqliteTeam.strings_or_default in *. simpl.
  rewrite strings_empty. by repeat split.
Qed.

Lemma ensures_insert team_id deps row s :
  board_ok s -> tr_team_id row = team_id -> links_parse row -> blocks_of row = [] -> deps_of row = deps ->
  (forall d, In d deps -> listed team_id d s) ->
  ensures board_rely (TaskBoard.db (SqliteTeam.create_task row))
    (fun r s' => r = Ok tt -> inserted team_id (tr_id row) deps s') s.
Proof.
  intros Hs Hteam Hlinks Hblocks Hdeps Hlisted. apply ensures_stmt; [done|]. intros n db Hdb.
  assert (board_ok db) as Hdbok by by apply (board_rely_ok s).
  assert (forall d, d ∈ deps -> exists j, id_at db j d) as Hat.
  { intros d Hd. destruct (listed_rely team_id d s db Hdb Hs) as (i & r & Hr & Hid & _); [by apply Hlisted, list_elem_of_In|].
    exists i. apply id_at_iff. by exists r. }
  case_bool_decide as Hin; simpl; [done|].
  assert (board_rely db (set_tasks (db_tasks db ++ [row]) db)) as Hrel.
  { apply appended_row_rely; [done..|]. intros _ d. rewrite Hdeps. apply Hat. }
  split; [done|]. intros db' Hdb' _. apply (inserted_rely _ _ _ _ _ Hdb'); [by apply Hrel|].
  exists (length (db_tasks db)), row. split; [by apply list_lookup_middle|]. split; [done|].
  split; [done|]. split; [by rewrite Hdeps|]. intros d [j Hj]%Hat. exists j. split.
  - apply lookup_lt_Some in Hj. by rewrite length_map in Hj.
  - apply (id_at_rely db); done.
Qed.

Lemma found_unique db task_id row i r :
  board_ok db -> List.find (SqliteTeam.has_id task_id) (db_tasks db) = Some row ->
  db_tasks db !! i = Some r -> tr_id r = task_id -> r = row.
Proof.
  intros Hdb (j & Hj & Hp)%find_lookup Hi Hid. unfold SqliteTeam.has_id in Hp. rewrite bool_decide_eq_true in Hp.
  assert (i = j) as -> by (apply (id_at_unique db i j task_id); [done|apply id_at_iff; by exists r|apply id_at_iff; by exists row]).
  congruence.
Qed.

(** A task of the team lists another among those it blocks. *)
Definition linked (team_id dep task_id : string) (db : TeamDb) : Prop :=
  exists i r, db_tasks db !! i = Some r /\ tr_id r = dep /\ tr_team_id r = team_id /\ task_id ∈ blocks_of r.

Lemma linked_rely team_id dep task_id db db' :
  board_rely db db' -> board_ok db -> linked team_id dep task_id db -> linked team_id dep task_id db'.
Proof.
  intros Hrel Hdb (i & r & Hr & Hid & Hteam & Hin). destruct (proj2 (Hrel Hdb) i r Hr) as (r' & Hr' & []).
  exists i, r'. split; [done|]. split; [congruence|]. split; [congruence|set_solver].
Qed.

Lemma appended_in x l : x ∈ SqliteTeam.appended x l.
Proof. unfold SqliteTeam.appended. case_bool_decide; [done|]. apply elem_of_app. right. by left. Qed.

Lemma appended_elem x d l : d ∈ SqliteTeam.appended x l -> d ∈ l \/ d = x.
Proof. unfold SqliteTeam.appended. case_bool_decide; [by left|]. rewrite elem_of_app, list_elem_of_singleton. naive_solver. Qed.

Lemma appended_sub x l : l ⊆ SqliteTeam.appended x l.
Proof. unfold SqliteTeam.appended. case_bool_decide; [done|]. intros d Hd. apply elem_of_app. by left. Qed.

Lemma ensures_append team_id dep task_id s :
  board_ok s -> listed team_id dep s -> (exists i j, i < j /\ id_at s i dep /\ id_at s j task_id) ->
  ensures board_rely (TaskBoard.db (SqliteTeam.append_to_blocks dep task_id))
    (fun r s' => r = Ok tt -> linked team_id dep task_id s') s.
Proof.
  intros Hs Hlisted (i & j & Hij & Hi & Hj). apply ensures_stmt; [done|]. intros n db Hdb.
  assert (board_ok db) as Hok by by apply (board_rely_ok s).
  destruct (List.find _ _) as [row|] eqn:Hfind; simpl; [|done].
  set (blocks := SqliteTeam.appended task_id (SqliteTeam.strings_or_default (tr_blocks row))).
  destruct (strings_parse blocks) as [Hp Hpok].
  assert (board_rely db (set_tasks (update_where (SqliteTeam.has_id dep)
            (SqliteTeam.set_blocks (strings_to_string blocks) (now_ms n)) (db_tasks db)) db)) as Hrel.
  { apply rewritten_rely. intros _ k r Hr Hid. pose proof (found_unique db dep row k r Hok Hfind Hr Hid) as ->.
    split; [split; try done|split]; unfold links_parse, blocks_of, deps_of in *; simpl.
    - rewrite Hp. apply appended_sub.
    - split; [done|]. eapply Forall_lookup_1 in Hr; [|apply (board_links db Hok)]. apply Hr.
    - rewrite Hp. intros d [Hd| ->]%appended_elem; [by left|right]. exists j. split; [|by apply (id_at_rely s)].
      assert (k = i) as ->; [|done]. apply (id_at_unique db k i dep); [done|apply id_at_iff; by exists row|by apply (id_at_rely s)]. }
  split; [done|]. intros db' Hdb' _. apply (linked_rely _ _ _ _ _ Hdb'); [by apply Hrel|].
  destruct (listed_rely team_id dep s db Hdb Hs Hlisted) as (k & r & Hr & Hid & Hteam).
  exists k, (SqliteTeam.set_blocks (strings_to_string blocks) (now_ms n) r). simpl.
  rewrite update_where_lookup, Hr. simpl. unfold SqliteTeam.has_id. rewrite bool_decide_eq_true_2 by done.
  split; [done|]. split; [done|]. split; [done|]. unfold blocks_of. simpl. rewrite Hp. apply appended_in.
Qed.

(** What [create_task] leaves for good. *)
Definition created (team_id task_id : string) (deps : list string) (db : TeamDb) : Prop :=
  inserted team_id task_id deps db /\ forall d, In d deps -> linked team_id d task_id db.

Lemma created_rely team_id task_id deps db db' :
  board_rely db db' -> board_ok db -> created team_id task_id deps db -> created team_id task_id deps db'.
Proof.
  intros Hr Hdb [Hi Hl]. split; [by apply (inserted_rely _ _ _ db)|]. intros d Hd. apply (linked_rely _ _ _ db); auto.
Qed.

Lemma ensures_create team_id subject description owner deps s :
  board_ok s ->
  ensures board_rely (TaskBoard.create_task team_id subject description owner deps)
    (fun r s' => forall t, r = Ok t -> created team_id (tt_id t) deps s') s.
Proof.
  intros Hs. unfold TaskBoard.create_task. apply ensures_try; [apply _|].
  eapply ensures_conseq; [apply _|by apply ensures_checks|]. intros [[]|e] s1 H1 Hdeps; [|done].
  specialize (Hdeps eq_refl). assert (board_ok s1) as Hs1 by by apply (board_rely_ok s).
  apply ensures_bind; [apply _|]. apply ensures_env_call; [apply _|apply board_calls|]. intros n1 s2 H2.
  apply ensures_bind; [apply _|]. apply ensures_env_call; [apply _|apply board_calls|]. intros n2 s3 H3.
  assert (board_rely s1 s3) as H13 by by transitivity s2. assert (board_ok s3) as Hs3 by by apply (board_rely_ok s1).
  set (row := TaskBoard.new_row _ _ _ _ _ _ _). cbv zeta.
  destruct (new_row_links (generate_id n1) team_id subject description owner deps (now_ms n2)) as (Hl & Hb & Hd).
  fold row in Hl, Hb, Hd. apply ensures_try; [apply _|]. eapply ensures_conseq; [apply _| |].
  { apply (ensures_insert team_id deps row s3); try done. intros d Hin. apply (listed_rely _ _ s1); auto. }
  intros [[]|e] s4 H4 Hins; [|done]. specialize (Hins eq_refl).
  assert (board_ok s4) as Hs4 by by apply (board_rely_ok s3).
  assert (forall d, In d deps -> listed team_id d s4) as Hdeps4.
  { intros d Hin. apply (listed_rely _ _ s1); auto. by transitivity s3. }
  apply ensures_try; [apply _|]. eapply ensures_conseq; [apply _| |].
  { apply (ensures_each_all _ _ deps (fun x => board_ok x /\ board_rely s4 x) (fun d => linked team_id d (tr_id row))).
    - intros x y Hxy [Hx Hx']. split; [by apply (board_rely_ok x)|by transitivity x].
    - intros d x y Hxy [Hx _]. by apply linked_rely.
    - by split.
    - intros d x Hin [Hx Hx']. apply ensures_append; [done|apply (listed_rely _ _ s4); auto|].
      destruct (inserted_rely _ _ _ s4 x Hx' Hs4 Hins) as (j & r & Hr & Hid & _ & _ & Hord).
      destruct (Hord d) as (i & Hij & Hi); [by apply list_elem_of_In|].
      exists i, j. split; [done|]. split; [done|]. apply id_at_iff. by exists r. }
  intros [[]|e] s5 H5 Hlinked; [|done]. specialize (Hlinked eq_refl).
  assert (board_ok s5) as Hs5 by by apply (board_rely_ok s4).
  intros s6 H6 t Ht. apply (created_rely _ _ _ s5); [done..|].
  assert (tt_id t = tr_id row) as ->.
  { unfold task_from_row in Ht. simpl in Ht. rewrite strings_roundtrip, strings_empty in Ht. simpl in Ht.
    injection Ht as <-. done. }
  split; [by apply (inserted_rely _ _ _ s4)|done].
Qed.

(** *** Updates *)

(** A row update of the repository that leaves [blocked_by] alone. *)
Lemma ensures_set task_id params s :
  up_blocked_by params = None ->
  ensures board_rely (TaskBoard.db (SqliteTeam.update_task task_id params)) (fun _ _ => True) s.
Proof.
  intros Hnone. unfold SqliteTeam.update_task. destruct (_ && SqliteTeam.is_none (up_metadata params)); [done|].
  apply ensures_stmt; [done|]. intros n db Hdb. split; [|done].
  destruct (existsb _ _); simpl; [|done]. apply rewritten_rely. intros Hok i r Hr _.
  split; [split; try done|split]; unfold links_parse, blocks_of, deps_of; simpl; rewrite ?Hnone; simpl; [done| |by left].
  by eapply Forall_lookup_1 in Hr; [|apply (board_links db Hok)].
Qed.

(** The task waits for the other no longer. *)
Definition released (dep task_id : string) (db : TeamDb) : Prop :=
  exists i r, db_tasks db !! i = Some r /\ tr_id r = task_id /\ dep ∉ deps_of r.

Lemma released_rely dep task_id db db' : board_rely db db' -> board_ok db -> released dep task_id db -> released dep task_id db'.
Proof.
  intros Hrel Hdb (i & r & Hr & Hid & Hdep). destruct (proj2 (Hrel Hdb) i r Hr) as (r' & Hr' & []).
  exists i, r'. split; [done|]. split; [congruence|set_solver].
Qed.

Lemma removed_elem x d l : d ∈ SqliteTeam.removed x l <-> d ∈ l /\ d <> x.
Proof.
  unfold SqliteTeam.removed. by rewrite !list_elem_of_In, List.filter_In, negb_true_iff, bool_decide_eq_false.
Qed.

Lemma ensures_remove dep task_id s :
  board_ok s -> (exists i, id_at s i task_id) ->
  ensures board_rely (TaskBoard.db (SqliteTeam.remove_from_blocked_by task_id dep))
    (fun r s' => r = Ok tt -> released dep task_id s') s.
Proof.
  intros Hs [i Hi]. apply ensures_stmt; [done|]. intros n db Hdb.
  assert (board_ok db) as Hok by by apply (board_rely_ok s).
  destruct (List.find _ _) as [row|] eqn:Hfind; simpl; [|done].
  set (deps := SqliteTeam.removed dep (SqliteTeam.strings_or_default (tr_blocked_by row))).
  destruct (strings_parse deps) as [Hp Hpok].
  assert (board_rely db (set_tasks (update_where (SqliteTeam.has_id task_id)
            (SqliteTeam.set_blocked_by (strings_to_string deps) (now_ms n)) (db_tasks db)) db)) as Hrel.
  { apply rewritten_rely. intros _ k r Hr Hid. pose proof (found_unique db task_id row k r Hok Hfind Hr Hid) as ->.
    split; [split; try done|split; [|by left]]; unfold links_parse, blocks_of, deps_of in *; simpl.
    - rewrite Hp. by intros d [Hd _]%removed_elem.
    - split; [|done]. eapply Forall_lookup_1 in Hr; [|apply (board_links db Hok)]. apply Hr. }
  split; [done|]. intros db' Hdb' _. apply (released_rely _ _ _ _ Hdb'); [by apply Hrel|].
  apply (id_at_rely s db i task_id Hdb Hs), id_at_iff in Hi as (r & Hr & Hid).
  exists i, (SqliteTeam.set_blocked_by (strings_to_string deps) (now_ms n) r). simpl.
  rewrite update_where_lookup, Hr. simpl. unfold SqliteTeam.has_id. rewrite bool_decide_eq_true_2 by done.
  split; [done|]. split; [done|]. unfold deps_of. simpl. rewrite Hp. by intros [_ ?]%removed_elem.
Qed.

Lemma ensures_unblocks task_id row s :
  board_ok s -> links_parse row -> (forall d, d ∈ blocks_of row -> exists j, id_at s j d) ->
  ensures board_rely (TaskBoard.check_unblocks task_id row)
    (fun r s' => r = Ok tt -> forall d, In d (blocks_of row) -> released task_id d s') s.
Proof.
  intros Hs [Hok _] Hat. unfold TaskBoard.check_unblocks.
  destruct (strings_from_str (tr_blocks row)) as [l|e] eqn:Hl; [|done].
  assert (blocks_of row = l) as Hb by (unfold blocks_of, SqliteTeam.strings_or_default; by rewrite Hl).
  rewrite Hb in *. apply (ensures_each_all _ _ l (fun x => board_ok x /\ board_rely s x) (fun d => released task_id d)).
  - intros x y Hxy [Hx Hx']. split; [by apply (board_rely_ok x)|by transitivity x].
  - intros d x y Hxy [Hx _]. by apply released_rely.
  - by split.
  - intros d x Hin [Hx Hx']. apply ensures_remove; [done|].
    destruct (Hat d) as [j Hj]; [by apply list_elem_of_In|]. exists j. by apply (id_at_rely s).
Qed.

(** The row that was found knows the tasks that it blocks. *)
Lemma found_row team_id task_id row s s' :
  board_ok s -> found s team_id task_id row s' ->
  links_parse row /\ (forall d, d ∈ blocks_of row -> exists j, id_at s' j d) /\
  forall d, linked team_id task_id d s -> In d (blocks_of row).
Proof.
  intros Hs (s1 & i & H1 & H2 & Hi & _ & Hid). assert (board_ok s1) as Hs1 by by apply (board_rely_ok s).
  split; [|split].
  - by eapply Forall_lookup_1 in Hi; [|apply (board_links s1 Hs1)].
  - intros d (j & _ & Hj)%(board_blocks s1 Hs1 i row d Hi). exists j. by apply (id_at_rely s1).
  - intros d Hl. destruct (linked_rely _ _ _ _ _ H1 Hs Hl) as (j & r & Hj & Hjd & _ & Hin).
    assert (i = j) as <- by (apply (id_at_unique s1 i j task_id); [done|apply id_at_iff; by exists row|apply id_at_iff; by exists r]).
    simplify_eq. by apply list_elem_of_In.
Qed.

(** Completing a task releases those it was known to block. *)
Lemma ensures_update team_id task_id update s :
  board_ok s -> tu_blocked_by update = None ->
  ensures board_rely (TaskBoard.update_task team_id task_id update)
    (fun r s' => is_ok r = true -> tu_status update = Some TaskStatus.Completed ->
       forall d, linked team_id task_id d s -> released task_id d s') s.
Proof.
  intros Hs Hnone. apply ensures_try; [apply _|]. eapply ensures_conseq; [apply _|apply ensures_find_or|].
  intros [row|e] s1 H1 Hfound; [|done]. specialize (Hfound row eq_refl).
  assert (board_ok s1) as Hs1 by by apply (board_rely_ok s).
  destruct (found_row _ _ _ _ _ Hs Hfound) as (Hparse & Hat & Hknown).
  apply ensures_try; [apply _|]. eapply ensures_conseq; [apply _|apply ensures_set; simpl; by rewrite Hnone|].
  intros [[]|e] s2 H2 _; [|done]. assert (board_ok s2) as Hs2 by by apply (board_rely_ok s1).
  apply ensures_try; [apply _|]. eapply (ensures_conseq _ _ (fun r s' => r = Ok tt ->
    tu_status update = Some TaskStatus.Completed -> forall d, In d (blocks_of row) -> released task_id d s')).
  { case_bool_decide as Hst; [|by intros s3 _].
    eapply ensures_conseq; [apply _|apply ensures_unblocks; try done|intros r s3 _ Hr Hok _; by apply Hr].
    intros d [j Hj]%Hat. exists j. by apply (id_at_rely s1). }
  intros [[]|e] s3 H3 Hrel; [|done]. specialize (Hrel eq_refl). assert (board_ok s3) as Hs3 by by apply (board_rely_ok s2).
  apply ensures_try; [apply _|]. eapply ensures_conseq; [apply _|apply ensures_find_or|].
  intros [u|e] s4 H4 _; [|done]. assert (board_ok s4) as Hs4 by by apply (board_rely_ok s3).
  intros s5 H5 _ Hst d Hd. apply (released_rely _ _ s4); [done..|]. apply (released_rely _ _ s3); [done..|]. by apply Hrel; [|apply Hknown].
Qed.
End Statements.

(** ** What the board promises *)
Section Promises.
Context `{TeamEnvOk}.

(** What runs on a team's board: any number of calls of its methods. *)
Inductive BoardOp : Prog TeamDb unit -> Prop :=
| op_create team_id subject description owner deps :
    BoardOp (prog_bind (TaskBoard.create_task team_id subject description owner deps) (fun _ => Ret tt))
| op_update team_id task_id update :
    tu_blocked_by update = None ->
    BoardOp (prog_bind (TaskBoard.update_task team_id task_id update) (fun _ => Ret tt))
| op_list team_id : BoardOp (prog_bind (TaskBoard.list_tasks team_id) (fun _ => Ret tt)).

Lemma ensures_list team_id s : ensures board_rely (TaskBoard.list_tasks team_id) (fun _ _ => True) s.
Proof.
  apply ensures_try; [apply _|]. eapply ensures_conseq; [apply _|by apply (ensures_stmt _ (fun _ _ => True))|].
  by intros [rows|e] s' _ _.
Qed.

Lemma board_op_ensures p s : BoardOp p -> board_ok s -> ensures board_rely p (fun _ _ => True) s.
Proof.
  intros Hp Hs. destruct Hp; apply ensures_bind; try apply _; (eapply ensures_conseq; [apply _| |done]).
  - by apply ensures_create.
  - by apply ensures_update.
  - apply ensures_list.
Qed.

(** The task waits for the other. *)
Definition waits_for (db : TeamDb) (a b : string) : Prop :=
  exists i r, db_tasks db !! i = Some r /\ tr_id r = a /\ b ∈ deps_of r.

Lemma waits_for_earlier db a b i :
  board_ok db -> tc (waits_for db) a b -> id_at db i a -> exists j, j < i /\ id_at db j b.
Proof.
  intros Hdb Htc. revert i.
  assert (forall x y i, waits_for db x y -> id_at db i x -> exists j, j < i /\ id_at db j y) as Hone.
  { intros x y i (k & r & Hk & Hid & Hin) Hi.
    assert (k = i) as <- by (apply (id_at_unique db k i x); [done|apply id_at_iff; by exists r|done]).
    by apply (board_deps db Hdb k r). }
  induction Htc as [x y Hxy|x y z Hxy _ IH]; intros i Hi; [by apply (Hone x)|].
  destruct (Hone x y i Hxy Hi) as (j & Hj & Hjy). destruct (IH j Hjy) as (k & Hk & Hkz). exists k. split; [lia|done].
Qed.


(** A caller that completes a list of tasks. *)
Definition complete_all (team_id : string) (update : string -> TaskUpdate) (deps : list string)
    : Prog TeamDb (Result unit TeamError.t) :=
  try_each (fun dep => try_bind (TaskBoard.update_task team_id dep (update dep)) (fun _ => Ret (Ok tt))) deps.

(** A task waits for no longer than what it depends on.  If a task is
    created and, later, each of its dependencies is completed, with any other
    calls of the board in between, then once all of that has succeeded nothing
    blocks the task. *)
Theorem dependencies_released team_id subject description owner deps update s :
  board_ok s ->
  (forall d, tu_status (update d) = Some TaskStatus.Completed /\ tu_blocked_by (update d) = None) ->
  ensures board_rely
    (try_bind (TaskBoard.create_task team_id subject description owner deps) (fun t =>
       try_bind (complete_all team_id update deps) (fun _ => Ret (Ok t))))
    (fun r s' => forall t, r = Ok t ->
       exists i row, db_tasks s' !! i = Some row /\ tr_id row = tt_id t /\ deps_of row = []) s.
Proof.
  intros Hs Hupdate. apply ensures_try; [apply _|]. eapply ensures_conseq; [apply _|by apply ensures_create|].
  intros [t|e] s1 H1 Hcreated; [|done]. specialize (Hcreated t eq_refl).
  assert (board_ok s1) as Hs1 by by apply (board_rely_ok s).
  apply ensures_try; [apply _|]. eapply ensures_conseq; [apply _| |].
  { apply (ensures_each_all _ _ deps (fun x => board_ok x /\ created team_id (tt_id t) deps x) (fun d => released d (tt_id t))).
    - intros x y Hxy [Hx Hc]. split; [by apply (board_rely_ok x)|by apply (created_rely _ _ _ x)].
    - intros d x y Hxy [Hx _]. by apply released_rely.
    - done.
    - intros d x Hin [Hx [_ Hl]]. destruct (Hupdate d) as [Hst Hnone].
      apply ensures_try; [apply _|]. eapply ensures_conseq; [apply _|by apply ensures_update|].
      intros [u|e] y Hxy Hr; [|by intros z _]. intros z Hyz _.
      apply (released_rely _ _ y); [done|by apply (board_rely_ok x)|].
      apply Hr; [done|done|by apply Hl]. }
  intros [[]|e] s2 H2 Hrel; [|done]. specialize (Hrel eq_refl). assert (board_ok s2) as Hs2 by by apply (board_rely_ok s1).
  intros s3 H3 t' [= <-]. assert (board_ok s3) as Hs3 by by apply (board_rely_ok s2).
  destruct (created_rely _ _ _ s1 s3 (PreOrder_Transitive _ _ _ H2 H3) Hs1 Hcreated) as [(j & row & Hj & Hid & _ & Hsub & _) _].
  exists j, row. split; [done|]. split; [done|]. apply elem_of_nil_inv. intros d Hd.
  destruct (released_rely d (tt_id t) s2 s3 H3 Hs2) as (k & r & Hk & Hkid & Hnot); [by apply Hrel, list_elem_of_In, Hsub|].
  assert (k = j) as -> by (apply (id_at_unique s3 k j (tt_id t)); [done|apply id_at_iff; by exists r|apply id_at_iff; by exists row]).
  by simplify_eq.
Qed.
End Promises.

(** ** A missing dependency *)
Section Errors.
Context `{TeamEnv}.

Lemma run_find team_id task_id s :
  exists r s', run (TaskBoard.db (SqliteTeam.find_task_by_id team_id task_id)) s = (r, s') /\ db_tasks s' = db_tasks s /\
    (r = Err (TeamError.Database (DbError.Query "statement failed")) \/
     r = Ok (List.find (fun row => bool_decide (tr_team_id row = team_id) && bool_decide (tr_id row = task_id)) (db_tasks s))).
Proof.
  unfold TaskBoard.db, SqliteTeam.find_task_by_id. rewrite run_map_err, run_sql. cbv zeta.
  destruct (statement_fails (db_calls s)); eexists _, _; (split; [done|]); (split; [done|]); [by left|by right].
Qed.

Lemma run_check team_id dep s :
  exists r s', run (TaskBoard.check_dependency_exists team_id dep) s = (r, s') /\ db_tasks s' = db_tasks s /\
    (r = Err (TeamError.Database (DbError.Query "statement failed")) \/
     listed team_id dep s /\ r = Ok tt \/ ~ listed team_id dep s /\ r = Err (TeamError.BlockedTaskNotFound dep)).
Proof.
  unfold TaskBoard.check_dependency_exists. rewrite run_try.
  destruct (run_find team_id dep s) as (r & s' & Hrun & Hs' & [->| ->]); rewrite Hrun; simpl; [by eauto 10|].
  destruct (List.find _ _) as [row|] eqn:Hf; simpl; eexists _, s'; (split; [done|]); (split; [done|]); right.
  - left. split; [|done]. apply find_lookup in Hf as (i & Hi & Hp). rewrite andb_true_iff, !bool_decide_eq_true in Hp.
    exists i, row. naive_solver.
  - right. split; [|done]. intros (i & row & Hi & Hid & Hteam).
    destruct (find_is_some (fun row => bool_decide (tr_team_id row = team_id) && bool_decide (tr_id row = dep)) _ i row Hi)
      as [row' Hrow]; [by rewrite !bool_decide_eq_true_2 by done|congruence].
Qed.

Lemma run_checks team_id known missing more s :
  (forall d, In d known -> listed team_id d s) -> ~ listed team_id missing s ->
  exists e s', run (try_each (TaskBoard.check_dependency_exists team_id) (known ++ missing :: more)) s = (Err e, s') /\
    db_tasks s' = db_tasks s /\
    (e = TeamError.BlockedTaskNotFound missing \/ e = TeamError.Database (DbError.Query "statement failed")).
Proof.
  revert s. induction known as [|d known IH]; intros s Hknown Hmissing.
  - change (try_each ?f ([] ++ ?x :: ?l)) with (try_bind (f x) (fun _ => try_each f l)). rewrite run_try.
    destruct (run_check team_id missing s) as (r & s' & Hrun & Hs' & Hr). rewrite Hrun.
    destruct Hr as [->|[[? _]|[_ ->]]]; [by eauto 10|done|by eauto 10].
  - change (try_each ?f ((?x :: ?k) ++ ?l)) with (try_bind (f x) (fun _ => try_each f (k ++ l))). rewrite run_try.
    destruct (run_check team_id d s) as (r & s' & Hrun & Hs' & Hr). rewrite Hrun.
    destruct Hr as [->|[[_ ->]|[Hno _]]]; [by eauto 10| |by destruct Hno; apply Hknown; left].
    rewrite <- Hs'. apply IH; unfold listed; rewrite Hs'; [|done]. intros d' Hd'. apply Hknown. by right.
Qed.

(** A task cannot be created on a dependency that the board of its team
    does not have: the caller is told the first such id, or that a statement
    failed before it was reached, and the table is as it was. *)
Theorem create_rejects_missing team_id subject description owner known missing more s :
  (forall d, In d known -> listed team_id d s) -> ~ listed team_id missing s ->
  exists e s', run (TaskBoard.create_task team_id subject description owner (known ++ missing :: more)) s = (Err e, s') /\
    db_tasks s' = db_tasks s /\
    (e = TeamError.BlockedTaskNotFound missing \/ e = TeamError.Database (DbError.Query "statement failed")).
Proof.
  intros Hknown Hmissing. destruct (run_checks _ _ _ more s Hknown Hmissing) as (e & s' & Hrun & Hs' & He).
  exists e, s'. unfold TaskBoard.create_task. by rewrite run_try, Hrun.
Qed.
End Errors.

(** ** Runs *)
Module Runs.
Definition env : TeamEnv := sample_env (fun _ => false).
#[local] Existing Instance env.
#[local] Instance env_ok : TeamEnvOk := sample_env_ok _.

Definition empty_board : TeamDb := mkTeamDb [] [] 0.

Lemma empty_board_ok : board_ok empty_board.
Proof. split; simpl; [constructor|constructor|by intros i r d Hr; rewrite lookup_nil in Hr..]. Qed.

Definition create (subject : string) (deps : list string) : Prog TeamDb (Result TeamTask TeamError.t) :=
  TaskBoard.create_task "team" subject None None deps.
Definition completed : TaskUpdate := mkTaskUpdate _ (Some TaskStatus.Completed) None None None None.
Definition edited (deps : list string) : TaskUpdate := mkTaskUpdate _ None None None (Some deps) None.

(** One task, then one that waits for it. *)
Definition board_a : TeamDb := snd (run (create "a" []) empty_board).
Definition board_ab : TeamDb := snd (run (create "b" ["id0"]) board_a).

Lemma board_a_ok : board_ok board_a.
Proof.
  eapply board_rely_ok; [|exact empty_board_ok].
  exact (proj2 (run_ensures board_rely _ _ _ (ensures_create "team" "a" None None [] _ empty_board_ok))).
Qed.

Definition links (db : TeamDb) : list (string * string * list string * list string) :=
  map (fun r => (tr_id r, tr_status r, deps_of r, blocks_of r)) (db_tasks db).

Example board_ab_links : links board_ab = [("id0", "pending", [], ["id4"]); ("id4", "pending", ["id0"], [])].
Proof. by vm_compute. Qed.

Example board_ab_released :
  links (snd (run (TaskBoard.update_task "team" "id0" completed) board_ab)) =
    [("id0", "completed", [], ["id4"]); ("id4", "pending", [], [])].
Proof. by vm_compute. Qed.

(** Waiting for a task that is completed already. *)
Lemma blocked_by_completed_task :
  let done_a := snd (run (TaskBoard.update_task "team" "id0" completed) board_a) in
  links (snd (run (create "b" ["id0"]) done_a)) =
    [("id0", "completed", [], ["id7"]); ("id7", "pending", ["id0"], [])].
Proof. by vm_compute. Qed.

(** A dependency that was set by an update is not linked back. *)
Lemma edited_dependency_not_released :
  let board := snd (run (create "b" []) board_a) in
  let board := snd (run (TaskBoard.update_task "team" "id3" (edited ["id0"])) board) in
  links (snd (run (TaskBoard.update_task "team" "id0" completed) board)) =
    [("id0", "completed", [], []); ("id3", "pending", ["id0"], [])].
Proof. by vm_compute. Qed.

(** An update may make a task wait for itself. *)
Lemma task_may_block_itself :
  links (snd (run (TaskBoard.update_task "team" "id0" (edited ["id0"])) board_a)) =
    [("id0", "pending", ["id0"], [])].
Proof. by vm_compute. Qed.

(** A task created between the two reads of an update that completes what it
    waits for. *)
Lemma created_while_completing :
  let '(rest, s) := steps 1 (TaskBoard.update_task "team" "id0" completed) board_a in
  let s := snd (run (create "b" ["id0"]) s) in
  links (snd (run rest s)) = [("id0", "completed", [], ["id5"]); ("id5", "pending", ["id0"], [])].
Proof. by vm_compute. Qed.


Lemma dependencies_released_witness :
  let caller := try_bind (create "b" ["id0"]) (fun t =>
    try_bind (complete_all "team" (fun _ => completed) ["id0"]) (fun _ => Ret (Ok t))) in
  is_ok (fst (run caller board_a)) = true /\
  forall t, fst (run caller board_a) = Ok t ->
    exists i row, db_tasks (snd (run caller board_a)) !! i = Some row /\ tr_id row = tt_id t /\ deps_of row = [].
Proof.
  split; [by vm_compute|].
  apply (run_ensures board_rely), (dependencies_released "team" "b" None None ["id0"] (fun _ => completed) board_a board_a_ok).
  by intros d.
Defined.

Lemma create_rejects_missing_witness :
  exists e s', run (create "b" (["id0"] ++ "id9" :: [])) board_a = (Err e, s') /\ db_tasks s' = db_tasks board_a /\
    (e = TeamError.BlockedTaskNotFound "id9" \/ e = TeamError.Database (DbError.Query "statement failed")).
Proof.
  apply (create_rejects_missing "team" "b" None None ["id0"] "id9" [] board_a).
  - intros d [<-|[]]. by exists 0; eexists.
  - intros (i & r & Hr & Hid & _). by destruct i as [|i]; vm_compute in Hr; simplify_eq/=.
Defined.
End Runs.
