(* ===== verification/Mailbox.v ===== *)
(** * The mailbox of a team
    ([crates/tjuaeui-team/src/mailbox.rs])

    Messages between the agents of a team.  A message stays unread until it
    was put into a prompt; reading is [peek_unread] followed, once the prompt
    was delivered, by [mark_read_batch].  [mail_rely] is what the methods rely
    on of each other while no team is deleted. *)

From S2P Require Import Prelude WorkModel Interleave TeamTables.

Module Mailbox.
Section Service.
Context `{TeamEnv}.

Definition db {A : Type} (p : Prog TeamDb (Result A DbError.t)) : Prog TeamDb (Result A TeamError.t) :=
  map_err TeamError.Database p.

Definition files_json (files : option (list string)) : option string :=
  match files with
  | Some f => if is_empty f then None else Some (strings_to_string f)
  | None => None
  end.

Definition write_with_files (team_id to_agent_id from_agent_id : string) (msg_type : MailboxMessageType.t)
    (content : string) (summary : option string) (files : option (list string))
    : Prog TeamDb (Result MailboxMessage TeamError.t) :=
  (do id := SqliteTeam.env_call generate_id in
   do now := SqliteTeam.env_call now_ms in
   let row := mkMessageRow id team_id to_agent_id from_agent_id (MailboxMessageType.to_string msg_type) content
                summary (files_json files) false now in
   let! _ := db (SqliteTeam.write_message row) in
   Ret (ok_or (mailbox_from_row row)
          (TeamError.InvalidRequest ("消息类型无效：" +:+ MailboxMessageType.to_string msg_type))))%tj.

Definition write (team_id to_agent_id from_agent_id : string) (msg_type : MailboxMessageType.t)
    (content : string) (summary : option string) : Prog TeamDb (Result MailboxMessage TeamError.t) :=
  write_with_files team_id to_agent_id from_agent_id msg_type content summary None.

Definition read_unread (team_id agent_id : string) : Prog TeamDb (Result (list MailboxMessage) TeamError.t) :=
  (let! rows := db (SqliteTeam.read_unread_and_mark team_id agent_id) in Ret (Ok (omap mailbox_from_row rows)))%tj.

Definition peek_unread (team_id agent_id : string) : Prog TeamDb (Result (list MailboxMessage) TeamError.t) :=
  (let! rows := db (SqliteTeam.peek_unread team_id agent_id) in Ret (Ok (omap mailbox_from_row rows)))%tj.

Definition mark_read_batch (ids : list string) : Prog TeamDb (Result unit TeamError.t) :=
  db (SqliteTeam.mark_read_batch ids).

Fixpoint unread_ids (team_id : string) (agent_ids : list string) : Prog TeamDb (Result (list string) TeamError.t) :=
  match agent_ids with
  | [] => Ret (Ok [])
  | agent_id :: rest =>
      (let! unread := peek_unread team_id agent_id in
       let! ids := unread_ids team_id rest in
       Ret (Ok (map mm_id unread ++ ids)))%tj
  end.

Definition mark_all_unread_for_agents_read (team_id : string) (agent_ids : list string)
    : Prog TeamDb (Result nat TeamError.t) :=
  (let! ids := unread_ids team_id agent_ids in
   let! _ := if is_empty ids then Ret (Ok tt) else mark_read_batch ids in
   Ret (Ok (length ids)))%tj.

Definition get_history (team_id agent_id : string) (limit : option Z)
    : Prog TeamDb (Result (list MailboxMessage) TeamError.t) :=
  (let! rows := db (SqliteTeam.get_history team_id agent_id limit) in Ret (Ok (omap mailbox_from_row rows)))%tj.

Definition has_unread (team_id agent_id : string) : Prog TeamDb (Result bool TeamError.t) :=
  (let! rows := db (SqliteTeam.get_history team_id agent_id None) in
   Ret (Ok (existsb (fun r => negb (mr_read r)) rows)))%tj.

Definition delete_by_team (team_id : string) : Prog TeamDb (Result unit TeamError.t) :=
  db (SqliteTeam.delete_mailbox_by_team team_id).
End Service.
End Mailbox.

(** ** What holds of the mailbox *)
Section Invariant.
Context `{TeamEnv}.

Definition valid_type (r : MailboxMessageRow) : Prop := is_Some (MailboxMessageType.parse (mr_msg_type r)).

Record mail_ok (db : TeamDb) : Prop := {
  mail_ids : NoDup (map mr_id (db_mailbox db));
  mail_types : Forall valid_type (db_mailbox db);
}.

(** A message does not change, except that it is read. *)
Definition same_message (r r' : MailboxMessageRow) : Prop := r' = r \/ r' = SqliteTeam.set_read r.

Definition mail_rely (db db' : TeamDb) : Prop :=
  mail_ok db ->
  mail_ok db' /\ forall i r, db_mailbox db !! i = Some r -> exists r', db_mailbox db' !! i = Some r' /\ same_message r r'.

#[export] Instance same_message_preorder : PreOrder same_message.
Proof. split; [by left|]. unfold same_message. intros r1 r2 r3 [->| ->] [->| ->]; auto. Qed.

#[export] Instance mail_rely_preorder : PreOrder mail_rely.
Proof.
  split.
  - intros db Hdb. split; [done|]. intros i r Hr. by exists r.
  - intros db1 db2 db3 H12 H23 Hdb. destruct (H12 Hdb) as [H2 Hr12]. destruct (H23 H2) as [H3 Hr23].
    split; [done|]. intros i r (r2 & Hr2 & Hrr)%Hr12. destruct (Hr23 i r2 Hr2) as (r3 & Hr3 & Hrr').
    exists r3. split; [done|]. by transitivity r2.
Qed.

Lemma mail_rely_same db db' : db_mailbox db' = db_mailbox db -> mail_rely db db'.
Proof.
  intros Heq [Hi Ht]. split; [by split; rewrite Heq|]. intros i r Hr. exists r. by rewrite Heq.
Qed.

Lemma mail_calls db n : mail_rely db (mkTeamDb (db_tasks db) (db_mailbox db) n).
Proof. by apply mail_rely_same. Qed.

Lemma mail_rely_ok db db' : mail_rely db db' -> mail_ok db -> mail_ok db'.
Proof. intros Hr Hdb. by apply Hr. Qed.

(** Marking rows. *)
Definition marked (p : MailboxMessageRow -> bool) (db : TeamDb) : TeamDb :=
  set_mailbox (update_where p SqliteTeam.set_read (db_mailbox db)) db.

Lemma marked_rely p db : mail_rely db (marked p db).
Proof.
  intros [Hi Ht]. split.
  - split; simpl; [by rewrite update_where_map|]. apply Forall_lookup. intros i r Hr.
    rewrite update_where_lookup in Hr. destruct (db_mailbox db !! i) as [r0|] eqn:E; simplify_eq/=.
    pose proof (Forall_lookup_1 _ _ _ _ Ht E) as Hr0. by destruct (p r0).
  - intros i r Hr. simpl. rewrite update_where_lookup, Hr. eexists. split; [done|].
    destruct (p r); [by right|by left].
Qed.

Lemma written_rely row db :
  mr_id row ∉ map mr_id (db_mailbox db) -> valid_type row -> mail_rely db (set_mailbox (db_mailbox db ++ [row]) db).
Proof.
  intros Hnew Hvalid [Hi Ht]. split; [split; simpl|].
  - rewrite map_app. apply NoDup_app. split; [done|]. split; [by intros id Hid ->%list_elem_of_singleton|apply NoDup_singleton].
  - apply Forall_app. split; [done|]. by apply Forall_singleton.
  - intros i r Hr. exists r. split; [by apply lookup_app_l_Some|done].
Qed.

Lemma type_valid t : MailboxMessageType.parse (MailboxMessageType.to_string t) = Some t.
Proof. by destruct t. Qed.
End Invariant.

(** ** What the mailbox promises *)
Section Promises.
Context `{TeamEnvOk}.

Definition mark_ids (ids : list string) (db : TeamDb) : TeamDb := marked (fun r => bool_decide (mr_id r ∈ ids)) db.

Lemma chunks_from_concat {A} n k (chunk l : list A) : concat (SqliteTeam.chunks_from n k chunk l) = rev chunk ++ l.
Proof.
  revert k chunk. induction l as [|a l IH]; intros k chunk; simpl.
  - rewrite app_nil_r. destruct chunk as [|b chunk]; [done|]. apply app_nil_r.
  - destruct k as [|k]; simpl; rewrite IH; simpl; [done|]. by rewrite <- app_assoc.
Qed.

Lemma chunks_concat {A} n (l : list A) : concat (SqliteTeam.chunks n l) = l.
Proof. apply (chunks_from_concat n n []). Qed.

Lemma mark_ids_app a b db : db_mailbox (mark_ids b (mark_ids a db)) = db_mailbox (mark_ids (a ++ b) db).
Proof.
  simpl. unfold update_where. rewrite map_map. apply map_ext. intros r.
  destruct (decide (mr_id r ∈ a)) as [Ha|Ha].
  - rewrite (bool_decide_eq_true_2 _ Ha). rewrite (bool_decide_eq_true_2 (mr_id r ∈ a ++ b)) by (apply elem_of_app; by left).
    by case_bool_decide.
  - rewrite (bool_decide_eq_false_2 _ Ha). rewrite (bool_decide_ext (mr_id r ∈ a ++ b) (mr_id r ∈ b)); [done|].
    rewrite elem_of_app. naive_solver.
Qed.

Lemma run_mark_chunks cs s :
  exists r s' done,
    run (try_each (fun chunk => SqliteTeam.sql (fun _ db => (Ok tt, mark_ids chunk db))) cs) s = (r, s') /\
    done `prefix_of` concat cs /\ db_mailbox s' = db_mailbox (mark_ids done s) /\ db_tasks s' = db_tasks s /\
    (r = Ok tt -> done = concat cs).
Proof.
  revert s. induction cs as [|c cs IH]; intros s.
  - exists (Ok tt), s, []. split; [done|]. split; [done|]. split; [|done]. simpl. unfold update_where.
    rewrite <- (map_id (db_mailbox s)) at 1. by apply map_ext.
  - change (try_each ?f (?x :: ?l)) with (try_bind (f x) (fun _ => try_each f l)). rewrite run_try, run_sql. cbv zeta.
    destruct (statement_fails (db_calls s)).
    + eexists _, _, []. split; [done|]. split; [apply prefix_nil|]. split; [|done]. simpl. unfold update_where.
      rewrite <- (map_id (db_mailbox s)) at 1. by apply map_ext.
    + set (s1 := mark_ids c _). destruct (IH s1) as (r & s' & ids & Hrun & Hpre & Hmail & Htasks & Hok).
      exists r, s', (c ++ ids). split; [done|]. split; [by apply prefix_app|]. split; [|split; [done|]].
      * rewrite Hmail. subst s1. by rewrite mark_ids_app.
      * intros Hr. simpl. by rewrite (Hok Hr).
Qed.

(** A batch of any size is marked read 500 ids at a time, which is the same
    as marking all of it at once; if a statement fails, the rows of a prefix of
    the batch are marked and the caller is told. *)
Theorem batch_marked ids s :
  exists r s' done, run (Mailbox.mark_read_batch ids) s = (r, s') /\ done `prefix_of` ids /\
    db_mailbox s' = db_mailbox (mark_ids done s) /\ db_tasks s' = db_tasks s /\ (r = Ok tt -> done = ids).
Proof.
  unfold Mailbox.mark_read_batch, Mailbox.db, SqliteTeam.mark_read_batch. rewrite run_map_err.
  destruct ids as [|id ids]; simpl is_empty; cbv iota.
  - exists (Ok tt), s, []. split; [done|]. split; [done|]. split; [|done]. simpl. unfold update_where.
    rewrite <- (map_id (db_mailbox s)) at 1. by apply map_ext.
  - destruct (run_mark_chunks (SqliteTeam.chunks 500 (id :: ids)) s) as (r & s' & d & Hrun & Hpre & Hmail & Htasks & Hok).
    rewrite chunks_concat in *. change (try_each _ _) with
      (try_each (fun chunk => SqliteTeam.sql (fun _ db => (Ok tt, mark_ids chunk db))) (SqliteTeam.chunks 500 (id :: ids))).
    rewrite Hrun. destruct r as [[]|e]; eexists _, s', d; (split; [done|]); (split; [done|]); (split; [done|]); (split; [done|]); auto.
    by intros ?.
Qed.

(** The unread messages for an agent, as [peek_unread] hands them out. *)
Definition unread_messages (team_id agent_id : string) (db : TeamDb) : list MailboxMessage :=
  omap mailbox_from_row (SqliteTeam.select_unread team_id agent_id db).

Definition given_files (files : option (list string)) : option (list string) :=
  match files with Some (f :: l) => Some (f :: l) | _ => None end.

Lemma new_message_parses id team_id to from t content summary files now :
  mailbox_from_row (mkMessageRow id team_id to from (MailboxMessageType.to_string t) content summary (Mailbox.files_json files) false now)
  = Some (mkMessage id team_id to from t content summary (given_files files) false now).
Proof.
  unfold mailbox_from_row. simpl. rewrite type_valid. simpl.
  destruct files as [[|f l]|]; simpl; [done| |done]. by rewrite strings_roundtrip.
Qed.

(** A message that was written is handed to its reader as it was sent: the
    sender is answered with it, it is unread, with the files it was given (an
    empty list is none), and it comes on top of what was unread for that agent
    and for no other. *)
Theorem written_message_is_unread team_id to from t content summary files s m s' :
  run (Mailbox.write_with_files team_id to from t content summary files) s = (Ok m, s') ->
  m = mkMessage (mm_id m) team_id to from t content summary (given_files files) false (mm_created_at m) /\
  unread_messages team_id to s' ≡ₚ m :: unread_messages team_id to s /\
  forall team' agent', (team', agent') <> (team_id, to) ->
    SqliteTeam.select_unread team' agent' s' ≡ₚ SqliteTeam.select_unread team' agent' s.
Proof.
  unfold Mailbox.write_with_files, Mailbox.db. rewrite !run_env_call. cbv zeta.
  rewrite run_try, run_map_err. unfold SqliteTeam.write_message. rewrite run_sql. cbv zeta.
  set (row := mkMessageRow _ _ _ _ _ _ _ _ _ _). cbn [db_calls db_mailbox db_tasks].
  destruct (statement_fails _); [done|]. case_bool_decide as Hin; [done|]. cbn [run].
  unfold row. rewrite new_message_parses. fold row. intros [= <- <-]. split; [done|].
  unfold unread_messages, SqliteTeam.select_unread. cbn [db_mailbox set_mailbox].
  split.
  - rewrite !order_by_permutation, List.filter_app, omap_app. cbn [List.filter].
    unfold SqliteTeam.unread_for at 2. cbn [mr_team_id mr_to_agent_id mr_read row]. rewrite !bool_decide_eq_true_2 by done. simpl.
    unfold row. rewrite new_message_parses. simpl. by rewrite Permutation_app_comm.
  - intros team' agent' Hne. rewrite !order_by_permutation, List.filter_app. cbn [List.filter].
    assert (SqliteTeam.unread_for team' agent' row = false) as ->; [|by rewrite app_nil_r].
    unfold SqliteTeam.unread_for. cbn [mr_team_id mr_to_agent_id mr_read row].
    destruct (decide (team_id = team')) as [->|Ht]; [|by rewrite bool_decide_eq_false_2].
    destruct (decide (to = agent')) as [->|Ha]; [done|]. rewrite (bool_decide_eq_false_2 (to = agent')) by done.
    by rewrite andb_false_r.
Qed.

(** ** Among others *)

(** The message has been read. *)
Definition read_by_now (i : nat) (db : TeamDb) : Prop := exists r, db_mailbox db !! i = Some r /\ mr_read r = true.

Lemma read_by_now_rely i db db' : mail_rely db db' -> mail_ok db -> read_by_now i db -> read_by_now i db'.
Proof.
  intros Hrel Hdb (r & Hr & Hread). destruct (proj2 (Hrel Hdb) i r Hr) as (r' & Hr' & [->| ->]); [by exists r|].
  by eexists.
Qed.

Lemma message_at_rely i r db db' :
  mail_rely db db' -> mail_ok db -> db_mailbox db !! i = Some r ->
  exists r', db_mailbox db' !! i = Some r' /\ mr_id r' = mr_id r /\ (r' = r \/ mr_read r' = true).
Proof.
  intros Hrel Hdb Hr. destruct (proj2 (Hrel Hdb) i r Hr) as (r' & Hr' & [->| ->]); eexists; naive_solver.
Qed.

Lemma unread_id_listed team_id agent_id i r db :
  mail_ok db -> db_mailbox db !! i = Some r -> SqliteTeam.unread_for team_id agent_id r = true ->
  In (mr_id r) (map mm_id (unread_messages team_id agent_id db)).
Proof.
  intros Hdb Hr Hun. destruct (Forall_lookup_1 _ _ _ _ (mail_types db Hdb) Hr) as [t Ht].
  assert (exists m, mailbox_from_row r = Some m /\ mm_id m = mr_id r) as (m & Hm & Hid).
  { unfold mailbox_from_row. rewrite Ht. simpl. by eexists. }
  apply in_map_iff. exists m. split; [done|]. apply list_elem_of_In. unfold unread_messages. apply list_elem_of_omap.
  exists r. split; [|done]. unfold SqliteTeam.select_unread. rewrite order_by_permutation.
  apply list_elem_of_In, filter_In. split; [|done]. apply list_elem_of_In, list_elem_of_lookup. by exists i.
Qed.

Lemma ensures_peek team_id agent_id i r s :
  mail_ok s -> db_mailbox s !! i = Some r -> SqliteTeam.unread_for team_id agent_id r = true ->
  ensures mail_rely (Mailbox.peek_unread team_id agent_id)
    (fun a s' => forall ms, a = Ok ms -> In (mr_id r) (map mm_id ms) \/ read_by_now i s') s.
Proof.
  intros Hs Hr Hun. apply ensures_try; [apply _|]. apply ensures_db; [apply _|apply mail_calls|by intros db e _ s'' _ ms|].
  intros n db Hdb. simpl. split; [done|]. intros db' Hdb' s'' Hs'' ms [= <-].
  assert (mail_ok db) as Hok by by apply (mail_rely_ok s).
  destruct (message_at_rely i r s db Hdb Hs Hr) as (r' & Hr' & Hid & [->|Hread]).
  - left. by apply (unread_id_listed _ _ i r db).
  - right. apply (read_by_now_rely i db); [by transitivity db'|done|]. by exists r'.
Qed.

Lemma ensures_peeks team_id agents s : ensures mail_rely (Mailbox.unread_ids team_id agents) (fun _ _ => True) s.
Proof.
  revert s. induction agents as [|a agents IH]; intros s; [done|]. cbn [Mailbox.unread_ids].
  apply ensures_try; [apply _|]. apply (ensures_conseq _ _ (fun _ _ => True)).
  { apply ensures_try; [apply _|]. by apply ensures_db; [apply _|apply mail_calls|..]. }
  intros [ms|e] s1 _ _; [|done]. apply ensures_try; [apply _|]. eapply ensures_conseq; [apply _|apply IH|].
  by intros [ids|e] s2 _ _.
Qed.

Lemma ensures_unread_ids team_id agents agent_id i r s :
  mail_ok s -> db_mailbox s !! i = Some r -> SqliteTeam.unread_for team_id agent_id r = true -> In agent_id agents ->
  ensures mail_rely (Mailbox.unread_ids team_id agents)
    (fun a s' => forall ids, a = Ok ids -> mr_id r ∈ ids \/ read_by_now i s') s.
Proof.
  revert s r. induction agents as [|a agents IH]; intros s r Hs Hr Hun Hin; [done|]. cbn [Mailbox.unread_ids].
  apply ensures_try; [apply _|]. destruct (decide (a = agent_id)) as [->|Hne].
  - eapply ensures_conseq; [apply _|by apply (ensures_peek _ _ i r)|]. intros [ms|e] s1 H1 Hms; [|by intros].
    specialize (Hms ms eq_refl). apply ensures_try; [apply _|]. eapply ensures_conseq; [apply _|apply ensures_peeks|].
    intros [ids|e] s2 H2 _; [|by intros]. intros s3 H3 ids' [= <-].
    destruct Hms as [Hms|Hms]; [left; apply elem_of_app; left; by apply list_elem_of_In|right].
    apply (read_by_now_rely i s1); [by transitivity s2|by apply (mail_rely_ok s)|done].
  - apply (ensures_conseq _ _ (fun _ _ => True)).
    { apply ensures_try; [apply _|]. by apply ensures_db; [apply _|apply mail_calls|..]. }
    intros [ms|e] s1 H1 _; [|by intros]. assert (mail_ok s1) as Hs1 by by apply (mail_rely_ok s).
    destruct Hin as [Heq|Hin]; [done|]. apply ensures_try; [apply _|].
    destruct (message_at_rely i r s s1 H1 Hs Hr) as (r1 & Hr1 & Hid & [->|Hread]).
    + eapply ensures_conseq; [apply _|by apply (IH s1 r)|]. intros [ids|e] s2 H2 Hids; [|by intros].
      intros s3 H3 ids' [= <-]. destruct (Hids ids eq_refl) as [Hi|Hi]; [left; apply elem_of_app; by right|right].
      apply (read_by_now_rely i s2); [done|by apply (mail_rely_ok s1)|done].
    + eapply ensures_conseq; [apply _|apply ensures_peeks|]. intros [ids|e] s2 H2 _; [|by intros].
      intros s3 H3 ids' [= <-]. right. apply (read_by_now_rely i s1); [by transitivity s2|done|by exists r1].
Qed.

Lemma mark_ids_reads ids i r db :
  db_mailbox db !! i = Some r -> mr_id r ∈ ids -> read_by_now i (mark_ids ids db).
Proof.
  intros Hr Hin. exists (SqliteTeam.set_read r). simpl. rewrite update_where_lookup, Hr. simpl.
  by rewrite bool_decide_eq_true_2.
Qed.

Lemma ensures_mark_any ids s : ensures mail_rely (Mailbox.mark_read_batch ids) (fun _ _ => True) s.
Proof.
  apply ensures_map_err; [apply _|]. unfold SqliteTeam.mark_read_batch. destruct (is_empty ids); [done|].
  eapply ensures_conseq; [apply _| |done]. apply (ensures_each _ _ _ (fun _ => True)); [done|done|].
  intros c x _ _. by apply ensures_sql; [apply _|apply mail_calls|done|intros n db _; split; [apply marked_rely|]].
Qed.

Lemma ensures_mark ids i r s :
  mail_ok s -> db_mailbox s !! i = Some r -> mr_id r ∈ ids ->
  ensures mail_rely (Mailbox.mark_read_batch ids) (fun a s' => a = Ok tt -> read_by_now i s') s.
Proof.
  intros Hs Hr Hin. apply ensures_map_err; [apply _|]. unfold SqliteTeam.mark_read_batch.
  destruct (is_empty ids) eqn:Hempty; [by destruct ids; [apply elem_of_nil in Hin|]|].
  rewrite <- (chunks_concat 500 ids) in Hin. apply list_elem_of_In, in_concat in Hin as (c & Hc & Hin).
  eapply ensures_conseq; [apply _| |].
  { apply (ensures_each_all _ _ _ (fun x => mail_ok x /\ mail_rely s x) (fun c x => In (mr_id r) c -> read_by_now i x)).
    - intros x y Hxy [Hx Hx']. split; [by apply (mail_rely_ok x)|by transitivity x].
    - intros c' x y Hxy [Hx _] HP Hc'. by apply (read_by_now_rely i x); [..|apply HP].
    - by split.
    - intros c' x _ [Hx Hx']. apply ensures_sql; [apply _|apply mail_calls|done|]. intros n db Hdb.
      split; [apply marked_rely|]. intros db' Hdb' _ Hc'. assert (mail_ok db) as Hok by by apply (mail_rely_ok x).
      apply (read_by_now_rely i (mark_ids c' db)); [done|by apply marked_rely|].
      destruct (message_at_rely i r s db (PreOrder_Transitive _ _ _ Hx' Hdb) Hs Hr) as (r' & Hr' & Hid & _).
      apply (mark_ids_reads _ _ r'); [done|]. rewrite Hid. by apply list_elem_of_In. }
  intros [[]|e] s1 H1 Hread; [|by intros]. specialize (Hread eq_refl). assert (mail_ok s1) as Hs1 by by apply (mail_rely_ok s).
  intros s2 H2 _. apply (read_by_now_rely i s1); [done..|]. by apply (Hread c).
Qed.

(** What a cancelled run leaves unread for its agents is not consumed
    later: with any other calls of the mailbox in between, when
    [mark_all_unread_for_agents_read] has succeeded, every message that was
    unread for one of the agents when it began has been read. *)
Theorem cancelled_messages_read team_id agents agent_id i r s :
  mail_ok s -> In agent_id agents ->
  db_mailbox s !! i = Some r -> SqliteTeam.unread_for team_id agent_id r = true ->
  ensures mail_rely (Mailbox.mark_all_unread_for_agents_read team_id agents)
    (fun a s' => is_ok a = true -> read_by_now i s') s.
Proof.
  intros Hs Hin Hr Hun. apply ensures_try; [apply _|].
  eapply ensures_conseq; [apply _|by apply (ensures_unread_ids _ _ agent_id i r)|].
  intros [ids|e] s1 H1 Hids; [|done]. specialize (Hids ids eq_refl). assert (mail_ok s1) as Hs1 by by apply (mail_rely_ok s).
  destruct (message_at_rely i r s s1 H1 Hs Hr) as (r1 & Hr1 & Hid & _).
  assert (read_by_now i s1 \/ mr_id r1 ∈ ids) as Hcase by (rewrite Hid; tauto).
  apply ensures_try; [apply _|]. apply (ensures_conseq _ _ (fun a s' => a = Ok tt -> read_by_now i s')).
  { destruct Hcase as [Hread|Hin1].
    - destruct (is_empty ids); [intros s2 H2 _; by apply (read_by_now_rely i s1)|].
      eapply ensures_conseq; [apply _|apply (ensures_mark_any ids)|].
      intros a s2 H2 _ _. by apply (read_by_now_rely i s1).
    - destruct ids as [|id ids]; [by apply elem_of_nil in Hin1|]. by apply (ensures_mark _ i r1). }
  intros [[]|e] s2 H2 Hread; [|done]. specialize (Hread eq_refl).
  intros s3 H3 _. apply (read_by_now_rely i s2); [done|by apply (mail_rely_ok s1)|done].
Qed.
End Promises.

(** ** Runs *)
Module MailRuns.
Definition env : TeamEnv := sample_env (fun _ => false).
#[local] Existing Instance env.
#[local] Instance env_ok : TeamEnvOk := sample_env_ok _.

Definition no_mail : TeamDb := mkTeamDb [] [] 0.
Definition hello : Prog TeamDb (Result MailboxMessage TeamError.t) :=
  Mailbox.write_with_files "team" "b" "a" MailboxMessageType.Message "hello" None (Some ["x.txt"]).
Definition row : MailboxMessageRow :=
  mkMessageRow "id0" "team" "b" "a" "message" "hello" None (Some ",\x\.\t\x\t") false 1.
Definition some_mail : TeamDb := mkTeamDb [] [row] 3.

Example hello_written : snd (run hello no_mail) = some_mail.
Proof. by vm_compute. Qed.

Lemma some_mail_ok : mail_ok some_mail.
Proof. split; [apply NoDup_singleton|apply Forall_singleton; by eexists]. Qed.

Lemma written_message_is_unread_witness :
  let m := mkMessage "id0" "team" "b" "a" MailboxMessageType.Message "hello" None (Some ["x.txt"]) false 1 in
  run hello no_mail = (Ok m, some_mail) /\
  unread_messages "team" "b" some_mail ≡ₚ m :: unread_messages "team" "b" no_mail.
Proof.
  cbv zeta. assert (run hello no_mail =
    (Ok (mkMessage "id0" "team" "b" "a" MailboxMessageType.Message "hello" None (Some ["x.txt"]) false 1), some_mail)) as Hrun
    by by vm_compute.
  split; [exact Hrun|].
  exact (proj1 (proj2 (written_message_is_unread "team" "b" "a" MailboxMessageType.Message "hello" None (Some ["x.txt"]) no_mail _ _ Hrun))).
Defined.

Lemma cancelled_messages_read_witness :
  is_ok (fst (run (Mailbox.mark_all_unread_for_agents_read "team" ["a"; "b"]) some_mail)) = true /\
  (is_ok (fst (run (Mailbox.mark_all_unread_for_agents_read "team" ["a"; "b"]) some_mail)) = true ->
   read_by_now 0 (snd (run (Mailbox.mark_all_unread_for_agents_read "team" ["a"; "b"]) some_mail))).
Proof.
  split; [by vm_compute|]. apply (run_ensures mail_rely).
  apply (cancelled_messages_read "team" ["a"; "b"] "b" 0 row some_mail some_mail_ok); [right; by left|done|by vm_compute].
Defined.
End MailRuns.
