(* ===== verification/TeamScheduler.v ===== *)
(** * The scheduler of a team's members
    ([crates/tjuaeui-team/src/scheduler/])

    [TeammateManager] knows the members of a running team, their status and
    what they tell each other through the mailbox.  Its methods are programs
    on [Manager]: a step is what happens under the lock of [slots], one call
    to another map, one broadcast, or a statement of the database.  The watchdog of [wake.rs]
    ([arm_wake_timeout]) is not modelled: nothing calls it. *)

From stdpp Require Import gmap.
From S2P Require Import Prelude WorkModel Interleave TeamTables TaskBoard Mailbox.

Record TeamAgent : Type := mkAgent {
  ag_slot_id : string;
  ag_name : string;
  ag_role : TeammateRole.t;
  ag_conversation_id : string;
  ag_backend : string;
  ag_model : string;
  ag_assistant_id : option string;
  ag_status : option TeammateStatus.t;
  ag_conversation_type : option string;
  ag_cli_path : option string;
}.

Definition with_status (s : option TeammateStatus.t) (a : TeamAgent) : TeamAgent :=
  mkAgent (ag_slot_id a) (ag_name a) (ag_role a) (ag_conversation_id a) (ag_backend a) (ag_model a)
    (ag_assistant_id a) s (ag_conversation_type a) (ag_cli_path a).
Definition with_name (name : string) (a : TeamAgent) : TeamAgent :=
  mkAgent (ag_slot_id a) name (ag_role a) (ag_conversation_id a) (ag_backend a) (ag_model a)
    (ag_assistant_id a) (ag_status a) (ag_conversation_type a) (ag_cli_path a).

Record AgentSlot : Type := mkSlot {
  sl_agent : TeamAgent;
  sl_status : TeammateStatus.t;
  sl_needs_role_prompt : bool;
}.

(** What the emitter broadcasts ([events.rs]). *)
Inductive TeamEvent : Type :=
| AgentStatusChanged (slot_id : string) (status : TeammateStatus.t)
| AgentSpawned (agent : TeamAgent)
| AgentRemoved (slot_id : string)
| AgentRenamed (slot_id name : string).

Module SchedulerAction.
Inductive t : Type :=
| SendMessage (to message : string) (files : list string)
| TaskCreate (subject : string) (description owner : option string) (blocked_by : list string)
| TaskUpdate (task_id : string) (status description owner : option string) (blocked_by : option (list string))
| SpawnAgent (name role backend : string)
| IdleNotification (summary : option string)
| ShutdownAgent (slot_id : string) (reason : option string)
| RenameAgent (slot_id new_name : string).
End SchedulerAction.

Module CrashReason.
Inductive t : Type := ProcessExited | SessionNotFound | Unknown (message : string).
End CrashReason.

Definition is_settled (s : TeammateStatus.t) : bool :=
  match s with
  | TeammateStatus.Idle | TeammateStatus.Completed | TeammateStatus.Error => true
  | _ => false
  end.

(** [char::is_control] on UTF-8: U+0000 to U+001F, U+007F, U+0080 to U+009F. *)
Fixpoint drop_controls (l : list N) : list N :=
  match l with
  | [] => []
  | a :: l' =>
      if ((a <? 32) || (a =? 127))%N then drop_controls l'
      else match l' with
           | b :: l'' => if ((a =? 194) && (128 <=? b) && (b <=? 159))%N then drop_controls l'' else a :: drop_controls l'
           | [] => [a]
           end
  end.

Definition format_crash_testament (agent_name : string) (reason : CrashReason.t) (last_message : option string) : string :=
  let reason_str := match reason with
                    | CrashReason.ProcessExited => "ProcessExited"
                    | CrashReason.SessionNotFound => "SessionNotFound"
                    | CrashReason.Unknown message => "未知——" +:+ message
                    end in
  "队员“" +:+ agent_name +:+ "”在执行任务时崩溃（原因：" +:+ reason_str +:+ "）。" +:+
  match last_message with Some msg => "最后一条消息：" +:+ msg +:+ "。请排查。" | None => "请排查。" end.

(** [finalized_turns] has the instant of each entry; [removals] are the tasks
    that [begin_finalize] spawned, each with the instant at which it wakes. *)
Record Manager : Type := mkManager {
  slots : gmap string AgentSlot;
  active_wakes : gset string;
  finalized_turns : gmap string Z;
  removals : list (Z * string);
  wake_timeouts : gmap string N;
  events : list TeamEvent;
  team_db : TeamDb;
}.

Definition set_slots (x : gmap string AgentSlot) (m : Manager) : Manager :=
  mkManager x (active_wakes m) (finalized_turns m) (removals m) (wake_timeouts m) (events m) (team_db m).
Definition set_wakes (x : gset string) (m : Manager) : Manager :=
  mkManager (slots m) x (finalized_turns m) (removals m) (wake_timeouts m) (events m) (team_db m).
Definition set_finalized (x : gmap string Z) (r : list (Z * string)) (m : Manager) : Manager :=
  mkManager (slots m) (active_wakes m) x r (wake_timeouts m) (events m) (team_db m).
Definition set_timeouts (x : gmap string N) (m : Manager) : Manager :=
  mkManager (slots m) (active_wakes m) (finalized_turns m) (removals m) x (events m) (team_db m).
Definition emit (e : TeamEvent) (m : Manager) : Manager :=
  mkManager (slots m) (active_wakes m) (finalized_turns m) (removals m) (wake_timeouts m) (events m ++ [e]) (team_db m).
Definition set_team_db (db : TeamDb) (m : Manager) : Manager :=
  mkManager (slots m) (active_wakes m) (finalized_turns m) (removals m) (wake_timeouts m) (events m) db.

Record WakePayload `{TeamEnv} : Type := mkWakePayload {
  wp_agent : TeamAgent;
  wp_tasks : list TeamTask;
  wp_unread_messages : list MailboxMessage;
}.

Definition FINALIZE_DEDUP_WINDOW : Z := 5000.

(** The team; the order in which the [HashMap] of slots is iterated;
    [str::to_lowercase], whose tables are Unicode's. *)
Class ManagerEnv : Type := {
  the_team_id : string;
  iter_slots : gmap string AgentSlot -> list (string * AgentSlot);
  to_lowercase : string -> string;
}.

Class ManagerEnvOk `{ManagerEnv} : Prop := {
  iter_slots_permutation : forall m, iter_slots m ≡ₚ map_to_list m;
}.

Definition normalize_name `{ManagerEnv} (name : string) : string :=
  to_lowercase (of_bytes (drop_controls (bytes (str_trim name)))).

Module TeammateManager.
Section Methods.
Context `{TeamEnv} `{ManagerEnv}.

Definition Op (A : Type) : Type := Prog Manager (Result A TeamError.t).

(** A critical section, an update, a broadcast, a call of the database. *)
Definition reading {A : Type} (f : Manager -> A) : Prog Manager A := atomic (fun m => (f m, m)).
Definition changing (f : Manager -> Manager) : Prog Manager unit := atomic (fun m => (tt, f m)).
Definition stored {A : Type} (p : Prog TeamDb A) : Prog Manager A := zoom team_db set_team_db p.

Definition find_slot (slot_id : string) (m : Manager) : Result AgentSlot TeamError.t :=
  ok_or (slots m !! slot_id) (TeamError.AgentNotFound slot_id).

Definition new_manager (agents : list TeamAgent) (db : TeamDb) : Manager :=
  mkManager
    (fold_left (fun m a =>
       <[ag_slot_id a := mkSlot (with_status (Some TeammateStatus.Idle) a) TeammateStatus.Idle true]> m) agents ∅)
    ∅ ∅ [] ∅ [] db.

Definition get_agent (slot_id : string) : Op TeamAgent :=
  (let! slot := reading (find_slot slot_id) in Ret (Ok (sl_agent slot)))%tj.

Definition list_agents : Prog Manager (list TeamAgent) :=
  reading (fun m => map (fun kv => sl_agent kv.2) (iter_slots (slots m))).

Definition list_tasks : Op (list TeamTask) := stored (TaskBoard.list_tasks the_team_id).

Definition is_lead (a : TeamAgent) : bool := bool_decide (ag_role a = TeammateRole.Lead).

Definition find_lead_slot_id : Prog Manager (option string) :=
  reading (fun m =>
    option_map (fun kv => ag_slot_id (sl_agent kv.2))
      (List.find (fun kv => is_lead (sl_agent kv.2)) (iter_slots (slots m)))).

(** [state.rs] *)
Definition set_status (slot_id : string) (status : TeammateStatus.t) : Op unit :=
  (let! _ := atomic (fun m =>
     match find_slot slot_id m with
     | Err e => (Err e, m)
     | Ok slot =>
         (Ok tt, set_slots (<[slot_id := mkSlot (with_status (Some status) (sl_agent slot)) status
                                          (sl_needs_role_prompt slot)]> (slots m)) m)
     end) in
   do _ := changing (emit (AgentStatusChanged slot_id status)) in
   Ret (Ok tt))%tj.

Definition get_status (slot_id : string) : Op TeammateStatus.t :=
  (let! slot := reading (find_slot slot_id) in Ret (Ok (sl_status slot)))%tj.

Definition build_wake_payload (slot_id : string) : Op WakePayload :=
  (let! agent := get_agent slot_id in
   let! tasks := stored (TaskBoard.list_tasks the_team_id) in
   let! unread := stored (Mailbox.read_unread the_team_id slot_id) in
   Ret (Ok (mkWakePayload _ agent tasks unread)))%tj.

Definition try_wake (slot_id : string) : Op (option WakePayload) :=
  (let! current := get_status slot_id in
   if negb (bool_decide (current = TeammateStatus.Idle)) then Ret (Ok None)
   else
     let! _ := set_status slot_id TeammateStatus.Working in
     let! payload := build_wake_payload slot_id in
     Ret (Ok (Some payload)))%tj.

(** The loop over the slots: the last leader seen, whether all teammates seen
    are settled, whether there was one; it ends at the first that is not. *)
Fixpoint survey (lead : option string) (has_teammates : bool) (l : list (string * AgentSlot))
    : option string * bool * bool :=
  match l with
  | [] => (lead, true, has_teammates)
  | (_, slot) :: l' =>
      if is_lead (sl_agent slot) then survey (Some (ag_slot_id (sl_agent slot))) has_teammates l'
      else if negb (is_settled (sl_status slot)) then (lead, false, true)
      else survey lead true l'
  end.

Definition leader_to_wake (m : Manager) : option string :=
  let '(lead, all_settled, has_teammates) := survey None false (iter_slots (slots m)) in
  match lead with
  | None => None
  | Some lead_id =>
      if negb has_teammates then None
      else if negb all_settled then None
      else
        match slots m !! lead_id with
        | Some s => if bool_decide (sl_status s = TeammateStatus.Idle) then Some lead_id else None
        | None => None
        end
  end.

Definition maybe_wake_leader_when_all_idle : Op (option string) := reading (fun m => Ok (leader_to_wake m)).

Definition mark_idle (slot_id : string) (summary : option string) : Op (option string) :=
  (let! _ := set_status slot_id TeammateStatus.Idle in
   let! slot := reading (find_slot slot_id) in
   if is_lead (sl_agent slot) then Ret (Ok None)
   else
     do lead := find_lead_slot_id in
     let! _ := match lead with
               | Some lead_slot_id =>
                   if bool_decide (lead_slot_id = slot_id) then Ret (Ok tt)
                   else
                     let! _ := stored (Mailbox.write the_team_id lead_slot_id slot_id
                                 MailboxMessageType.IdleNotification (default "idle" summary) summary) in
                     Ret (Ok tt)
               | None => Ret (Ok tt)
               end in
     maybe_wake_leader_when_all_idle)%tj.

Definition take_needs_role_prompt (slot_id : string) : Prog Manager bool :=
  atomic (fun m =>
    match slots m !! slot_id with
    | Some slot =>
        (sl_needs_role_prompt slot, set_slots (<[slot_id := mkSlot (sl_agent slot) (sl_status slot) false]> (slots m)) m)
    | None => (false, m)
    end).

(** [wake.rs] and [dedup.rs] *)
Definition acquire_wake_lock (slot_id : string) : Prog Manager bool :=
  atomic (fun m => (bool_decide (slot_id ∉ active_wakes m), set_wakes ({[slot_id]} ∪ active_wakes m) m)).
Definition release_wake_lock (slot_id : string) : Prog Manager unit :=
  changing (fun m => set_wakes (active_wakes m ∖ {[slot_id]}) m).
Definition is_wake_active (slot_id : string) : Prog Manager bool :=
  reading (fun m => bool_decide (slot_id ∈ active_wakes m)).
Definition clear_wake_timeout (slot_id : string) : Prog Manager unit :=
  changing (fun m => set_timeouts (delete slot_id (wake_timeouts m)) m).

(** [now] is the instant of the call.  The entry is read and, in a second step,
    replaced; the task that is spawned removes whatever entry there is when it
    wakes ([remove_finalized]). *)
Definition begin_finalize (now : Z) (conversation_id : string) : Prog Manager bool :=
  (do should_proceed := reading (fun m =>
     match finalized_turns m !! conversation_id with
     | Some at_ => negb (now - at_ <? FINALIZE_DEDUP_WINDOW)%Z
     | None => true
     end) in
   if should_proceed then
     do _ := changing (fun m =>
       set_finalized (<[conversation_id := now]> (finalized_turns m))
         (removals m ++ [(now + FINALIZE_DEDUP_WINDOW, conversation_id)%Z]) m) in
     Ret true
   else Ret false)%tj.

Definition remove_finalized (i : nat) : Prog Manager unit :=
  changing (fun m =>
    match removals m !! i with
    | Some (_, conversation_id) => set_finalized (delete conversation_id (finalized_turns m)) (delete i (removals m)) m
    | None => m
    end).

Definition clear_finalized_turn (conversation_id : string) : Prog Manager unit :=
  changing (fun m => set_finalized (delete conversation_id (finalized_turns m)) (removals m) m).

(** [agent_lifecycle.rs] *)
Definition add_agent (agent : TeamAgent) : Prog Manager unit :=
  changing (fun m =>
    emit (AgentSpawned agent) (set_slots (<[ag_slot_id agent := mkSlot agent TeammateStatus.Idle true]> (slots m)) m)).

Definition clear_agent_state (slot_id conversation_id : string) : Prog Manager unit :=
  (do _ := release_wake_lock slot_id in
   do _ := clear_wake_timeout slot_id in
   clear_finalized_turn conversation_id)%tj.

Definition remove_agent (slot_id : string) : Op (option string) :=
  (let! conversation_id := atomic (fun m =>
     match find_slot slot_id m with
     | Err e => (Err e, m)
     | Ok removed => (Ok (ag_conversation_id (sl_agent removed)), set_slots (delete slot_id (slots m)) m)
     end) in
   do _ := clear_agent_state slot_id conversation_id in
   do _ := changing (emit (AgentRemoved slot_id)) in
   Ret (Ok (Some conversation_id)))%tj.

Definition name_taken (slot_id normalized : string) (m : Manager) : bool :=
  existsb (fun kv => negb (bool_decide (kv.1 = slot_id)) && bool_decide (normalize_name (ag_name (sl_agent kv.2)) = normalized))
    (iter_slots (slots m)).

Definition rename_agent (slot_id new_name : string) : Op unit :=
  (let normalized := normalize_name new_name in
   if bool_decide (normalized = "")
   then Ret (Err (TeamError.InvalidRequest "rename_agent.new_name is empty after normalization"))
   else
     let! _ := atomic (fun m =>
       match find_slot slot_id m with
       | Err e => (Err e, m)
       | Ok slot =>
           if name_taken slot_id normalized m then (Err (TeamError.DuplicateAgentName new_name), m)
           else
             (Ok tt, set_slots (<[slot_id := mkSlot (with_name new_name (sl_agent slot)) (sl_status slot)
                                               (sl_needs_role_prompt slot)]> (slots m)) m)
       end) in
     do _ := changing (emit (AgentRenamed slot_id new_name)) in
     Ret (Ok tt))%tj.

(** [crash_recovery.rs] *)
Definition lead_other_than (slot_id : string) : Prog Manager (option string) :=
  (do lead := find_lead_slot_id in
   Ret (match lead with
        | Some lead_slot_id => if bool_decide (lead_slot_id = slot_id) then None else Some lead_slot_id
        | None => None
        end))%tj.

Definition tell_lead (from_slot_id content : string) (lead_slot_id : string) : Op unit :=
  (let! _ := stored (Mailbox.write the_team_id lead_slot_id from_slot_id MailboxMessageType.Message content None) in
   Ret (Ok tt))%tj.

Definition write_crash_testament (slot_id agent_name : string) (reason : CrashReason.t) (last_message : option string)
    : Op unit :=
  (do lead := lead_other_than slot_id in
   match lead with
   | None => Ret (Ok tt)
   | Some lead_slot_id => tell_lead slot_id (format_crash_testament agent_name reason last_message) lead_slot_id
   end)%tj.

Definition handle_agent_crash (slot_id : string) (reason : CrashReason.t) (last_message : option string)
    : Op (option string) :=
  (let! slot := reading (find_slot slot_id) in
   let! _ := write_crash_testament slot_id (ag_name (sl_agent slot)) reason last_message in
   let! _ := set_status slot_id TeammateStatus.Error in
   do _ := release_wake_lock slot_id in
   do _ := clear_wake_timeout slot_id in
   if is_lead (sl_agent slot) then Ret (Ok None)
   else do lead := find_lead_slot_id in Ret (Ok lead))%tj.

Definition handle_inactivity_timeout (slot_id : string) : Op (option string) :=
  (let! slot := reading (find_slot slot_id) in
   let! _ := set_status slot_id TeammateStatus.Error in
   do _ := release_wake_lock slot_id in
   do _ := clear_wake_timeout slot_id in
   if is_lead (sl_agent slot) then Ret (Ok None)
   else
     do lead := find_lead_slot_id in
     match lead with
     | None => Ret (Ok None)
     | Some lead_slot_id =>
         let message := "队员“" +:+ ag_name (sl_agent slot) +:+ "”空闲 60 秒后超时。请排查。" in
         let! _ := tell_lead slot_id message lead_slot_id in
         Ret (Ok (Some lead_slot_id))
     end)%tj.

Definition notify_shutdown_rejected (from_slot_id reason : string) : Op unit :=
  (do lead := lead_other_than from_slot_id in
   match lead with
   | None => Ret (Ok tt)
   | Some lead_slot_id =>
       do agent := get_agent from_slot_id in
       let agent_name := match agent with Ok a => ag_name a | Err _ => from_slot_id end in
       tell_lead from_slot_id ("Teammate '" +:+ agent_name +:+ "' declined shutdown: " +:+ reason) lead_slot_id
   end)%tj.

(** [actions.rs] *)
Definition create_task (subject : string) (description owner : option string) (blocked_by : list string) : Op TeamTask :=
  stored (TaskBoard.create_task the_team_id subject description owner blocked_by).

Definition update_task (task_id : string) (status description owner : option string) (blocked_by : option (list string))
    : Op TeamTask :=
  stored (TaskBoard.update_task the_team_id task_id
    (mkTaskUpdate _ (s ← status; TaskStatus.parse s) description owner blocked_by None)).

Definition handle_send_message (from_slot_id to message : string) (files : list string) : Op unit :=
  (let send target :=
     let! _ := stored (Mailbox.write_with_files the_team_id target from_slot_id MailboxMessageType.Message message None (Some files)) in
     Ret (Ok tt) in
   if bool_decide (to = "*") then
     do targets := reading (fun m =>
       List.filter (fun id => negb (bool_decide (id = from_slot_id))) (map fst (iter_slots (slots m)))) in
     try_each send targets
   else send to)%tj.

Definition request_shutdown_agent (from_slot_id target_slot_id : string) (reason : option string) : Op MailboxMessage :=
  (let! from := reading (find_slot from_slot_id) in
   if negb (is_lead (sl_agent from)) then Ret (Err (TeamError.InvalidRequest "只有团队负责人可以关闭 Agent"))
   else
     let! target := reading (find_slot target_slot_id) in
     if is_lead (sl_agent target) then Ret (Err (TeamError.InvalidRequest "无法关闭团队负责人"))
     else
       stored (Mailbox.write the_team_id target_slot_id from_slot_id MailboxMessageType.ShutdownRequest
                 (default "shutdown requested" reason) None))%tj.

Definition execute_action (from_slot_id : string) (action : SchedulerAction.t) : Op (option string) :=
  (match action with
   | SchedulerAction.SendMessage to message files =>
       let! _ := handle_send_message from_slot_id to message files in Ret (Ok None)
   | SchedulerAction.TaskCreate subject description owner blocked_by =>
       let! _ := create_task subject description owner blocked_by in Ret (Ok None)
   | SchedulerAction.TaskUpdate task_id status description owner blocked_by =>
       let! _ := update_task task_id status description owner blocked_by in Ret (Ok None)
   | SchedulerAction.IdleNotification summary => mark_idle from_slot_id summary
   | SchedulerAction.SpawnAgent _ _ _ => Ret (Ok None)
   | SchedulerAction.ShutdownAgent slot_id reason =>
       let! _ := request_shutdown_agent from_slot_id slot_id reason in Ret (Ok None)
   | SchedulerAction.RenameAgent slot_id new_name =>
       let! _ := rename_agent slot_id new_name in Ret (Ok None)
   end)%tj.

(** The first summary among the notifications; what is done for the rest. *)
Definition idle_summary (actions : list SchedulerAction.t) : option string :=
  fold_left (fun summary action =>
    match summary, action with
    | None, SchedulerAction.IdleNotification s => s
    | _, _ => summary
    end) actions None.

Definition finalize_turn (slot_id : string) (actions : list SchedulerAction.t) : Op (option string) :=
  (let! _ := try_each (fun action =>
     match action with
     | SchedulerAction.IdleNotification _ => Ret (Ok tt)
     | _ => let! _ := execute_action slot_id action in Ret (Ok tt)
     end) actions in
   mark_idle slot_id (idle_summary actions))%tj.
End Methods.
End TeammateManager.

(** ** Which leader is woken *)
Section Survey.
Context `{TeamEnv} `{ManagerEnvOk}.
Import TeammateManager.

(** Each slot under its id, and [lead] the only leader. *)
Record team_ok (lead : string) (m : Manager) : Prop := {
  team_keys : forall k s, slots m !! k = Some s -> ag_slot_id (sl_agent s) = k;
  team_lead : exists s, slots m !! lead = Some s /\ is_lead (sl_agent s) = true;
  team_single : forall k s, slots m !! k = Some s -> is_lead (sl_agent s) = true -> k = lead;
}.

Definition teammate (k : string) (m : Manager) (s : AgentSlot) : Prop :=
  slots m !! k = Some s /\ is_lead (sl_agent s) = false.

Lemma iter_slots_elem m k s : (k, s) ∈ iter_slots m <-> m !! k = Some s.
Proof. rewrite iter_slots_permutation. apply elem_of_map_to_list. Qed.

Definition lead_slot (kv : string * AgentSlot) : Prop := is_lead (sl_agent kv.2) = true.
Definition settled_slot (kv : string * AgentSlot) : Prop := lead_slot kv \/ is_settled (sl_status kv.2) = true.

Lemma survey_settled lead has l lead' all has' :
  survey lead has l = (lead', all, has') ->
  (all = true <-> Forall settled_slot l) /\
  (all = true -> (has' = true <-> has = true \/ Exists (fun kv => ~ lead_slot kv) l) /\
     (lead' = lead /\ Forall (fun kv => ~ lead_slot kv) l \/
      Exists (fun kv => lead_slot kv /\ lead' = Some (ag_slot_id (sl_agent kv.2))) l)).
Proof.
  revert lead has. induction l as [|[k s] l IH]; intros lead has Hs; simpl in Hs.
  - simplify_eq. rewrite !Forall_nil, !Exists_nil. naive_solver.
  - rewrite !Forall_cons, !Exists_cons.
    destruct (is_lead (sl_agent s)) eqn:Hl; [|destruct (is_settled (sl_status s)) eqn:Hst; simpl in Hs].
    + assert (lead_slot (k, s)) as Hk by exact Hl. assert (settled_slot (k, s)) as Hset by by left.
      destruct (IH _ _ Hs) as [Hall Hrest]. split; [tauto|]. intros Ha. destruct (Hrest Ha) as [Hh Hlead].
      split; [tauto|]. right. destruct Hlead as [[-> _]|Hlead]; [by left|by right].
    + assert (~ lead_slot (k, s)) as Hk by (unfold lead_slot; simpl; congruence). assert (settled_slot (k, s)) as Hset by by right.
      destruct (IH _ _ Hs) as [Hall Hrest]. split; [tauto|]. intros Ha. destruct (Hrest Ha) as [Hh Hlead].
      split; [tauto|]. tauto.
    + simplify_eq. split; [|done]. split; [done|]. intros [[Hk|Hk] _]; unfold lead_slot in *; simpl in *; congruence.
Qed.

Lemma iter_forall (P : string * AgentSlot -> Prop) m :
  Forall P (iter_slots m) <-> forall k s, m !! k = Some s -> P (k, s).
Proof.
  rewrite Forall_forall. split.
  - intros Hp k s Hk. by apply Hp, iter_slots_elem.
  - intros Hp [k s] Hin. by apply Hp, iter_slots_elem.
Qed.

Lemma iter_exists (P : string * AgentSlot -> Prop) m :
  Exists P (iter_slots m) <-> exists k s, m !! k = Some s /\ P (k, s).
Proof.
  rewrite Exists_exists. split.
  - intros ([k s] & Hin & Hp). exists k, s. by rewrite <- iter_slots_elem.
  - intros (k & s & Hk & Hp). exists (k, s). by rewrite iter_slots_elem.
Qed.

(** The members are told to wake their leader exactly when the leader is
    idle, there are teammates, and each of them is idle, completed or failed;
    in whatever order the map is iterated, and although the loop stops at the
    first teammate that is still at work. *)
Theorem leader_woken_iff lead m w :
  team_ok lead m ->
  leader_to_wake m = Some w <->
  w = lead /\ (exists s, slots m !! lead = Some s /\ sl_status s = TeammateStatus.Idle) /\
  (exists k s, teammate k m s) /\ forall k s, teammate k m s -> is_settled (sl_status s) = true.
Proof.
  intros [Hkeys (sl & Hsl & Hlead) Hsingle]. unfold leader_to_wake, teammate.
  destruct (survey None false (iter_slots (slots m))) as [[lead' all] has] eqn:Hs.
  destruct (survey_settled _ _ _ _ _ _ Hs) as [Hall Hrest]. rewrite iter_forall in Hall.
  destruct all; last first.
  { split; [by destruct lead', has|]. intros (_ & _ & _ & Hyes). enough (false = true) by done. apply Hall.
    intros k s Hk. destruct (is_lead (sl_agent s)) eqn:Hl; [by left|right]. by apply (Hyes k s). }
  destruct (Hrest eq_refl) as [Hhas Hl]. rewrite iter_exists in Hhas. rewrite iter_forall, iter_exists in Hl.
  assert (lead' = Some lead) as ->.
  { destruct Hl as [[_ Hno]|(k & s & Hk & Hks & ->)]; [by destruct (Hno lead sl Hsl)|].
    simpl. by rewrite (Hkeys k s Hk), (Hsingle k s Hk Hks). }
  rewrite Hsl. destruct has; simpl.
  - destruct (proj1 Hhas eq_refl) as [?|(k & s & Hk & Hkl)]; [done|].
    case_bool_decide as Hidle; [|split; [done|]; intros (_ & (s' & Hs' & Hs'') & _); congruence].
    split; [intros [= <-]|by intros [-> _]]. split; [done|]. split; [by exists sl|]. split.
    + exists k, s. split; [done|]. apply not_true_is_false, Hkl.
    + intros k' s' [Hk' Hkl']. destruct (proj1 Hall eq_refl k' s' Hk') as [Hbad|Hset]; [|done].
      unfold lead_slot in Hbad. simpl in Hbad. congruence.
  - split; [done|]. intros (_ & _ & (k & s & Hk & Hkl) & _).
    enough (false = true) by done. apply Hhas. right. exists k, s. split; [done|]. unfold lead_slot. simpl. congruence.
Qed.
End Survey.

(** ** The last to go idle *)
Definition idle_event (k : string) : TeamEvent := AgentStatusChanged k TeammateStatus.Idle.

Section GoingIdle.
Context `{TeamEnv} `{ManagerEnvOk}.
Import TeammateManager.

(** The team as it was when the first of the calls began. *)
Context (m0 : Manager) (lead : string).
Hypothesis Hteam : team_ok lead m0.
Hypothesis Hlead : exists s, slots m0 !! lead = Some s /\ sl_status s = TeammateStatus.Idle.

(** A member that still had work then. *)
Definition at_work (z : string) : Prop :=
  exists s, teammate z m0 s /\ is_settled (sl_status s) = false.

Record same_member (s0 s : AgentSlot) : Prop := {
  same_id : ag_slot_id (sl_agent s) = ag_slot_id (sl_agent s0);
  same_role : ag_role (sl_agent s) = ag_role (sl_agent s0);
  same_status : sl_status s = sl_status s0 \/ sl_status s = TeammateStatus.Idle;
}.

Record idle_inv (m : Manager) : Prop := {
  inv_same : forall k, option_Forall2 same_member (slots m0 !! k) (slots m !! k);
  inv_events : forall k s, idle_event k ∈ events m -> slots m !! k = Some s -> sl_status s = TeammateStatus.Idle;
}.

Definition idle_rely (m m' : Manager) : Prop :=
  idle_inv m ->
  idle_inv m' /\ events m `prefix_of` events m' /\
  forall k s s', slots m !! k = Some s -> slots m' !! k = Some s' ->
    sl_status s = TeammateStatus.Idle -> sl_status s' = TeammateStatus.Idle.

Lemma member_now m k s0 : idle_inv m -> slots m0 !! k = Some s0 -> exists s, slots m !! k = Some s /\ same_member s0 s.
Proof. intros Hm Hk. pose proof (inv_same m Hm k) as Hs. rewrite Hk in Hs. inversion Hs; subst. by eexists. Qed.

Lemma member_then m k s : idle_inv m -> slots m !! k = Some s -> exists s0, slots m0 !! k = Some s0 /\ same_member s0 s.
Proof. intros Hm Hk. pose proof (inv_same m Hm k) as Hs. rewrite Hk in Hs. inversion Hs; subst. by eexists. Qed.

#[local] Instance idle_rely_preorder : PreOrder idle_rely.
Proof.
  split.
  - intros m Hm. split; [done|]. split; [done|]. intros k s s' Hs Hs'. by simplify_eq.
  - intros m1 m2 m3 H12 H23 Hm1. destruct (H12 Hm1) as (Hm2 & He12 & Hi12). destruct (H23 Hm2) as (Hm3 & He23 & Hi23).
    split; [done|]. split; [by transitivity (events m2)|]. intros k s1 s3 Hs1 Hs3 Hidle.
    destruct (member_then m1 k s1 Hm1 Hs1) as (s0 & Hs0 & _). destruct (member_now m2 k s0 Hm2 Hs0) as (s2 & Hs2 & _).
    by apply (Hi23 k s2 s3), (Hi12 k s1 s2).
Qed.

Lemma same_is_lead s0 s : same_member s0 s -> is_lead (sl_agent s) = is_lead (sl_agent s0).
Proof. intros [_ Hr _]. unfold is_lead. by rewrite Hr. Qed.

Lemma team_ok_now m : idle_inv m -> team_ok lead m /\ exists s, slots m !! lead = Some s /\ sl_status s = TeammateStatus.Idle.
Proof.
  intros Hm. destruct Hteam as [Hkeys (sl0 & Hsl0 & Hl0) Hsingle]. destruct (member_now m lead sl0 Hm Hsl0) as (sl & Hsl & Hsame).
  split; [split|].
  - intros k s Hk. destruct (member_then m k s Hm Hk) as (s0 & Hs0 & [Hid _ _]). rewrite Hid. by apply Hkeys.
  - exists sl. by rewrite (same_is_lead _ _ Hsame).
  - intros k s Hk Hl. destruct (member_then m k s Hm Hk) as (s0 & Hs0 & Hs). rewrite (same_is_lead _ _ Hs) in Hl. by apply (Hsingle k s0).
  - exists sl. split; [done|]. destruct Hlead as (s & Hs & Hst). simplify_eq. destruct (same_status _ _ Hsame); congruence.
Qed.

(** The check sees who is still at work. *)
Lemma check_sees m x s :
  idle_inv m -> teammate x m0 s ->
  leader_to_wake m = Some lead \/
  leader_to_wake m = None /\ exists z, at_work z /\ idle_event z ∉ events m.
Proof.
  intros Hm [Hx Hxl]. destruct (team_ok_now m Hm) as [Hok Hl].
  destruct (leader_to_wake m) as [w|] eqn:Hw; [left; f_equal; by apply (leader_woken_iff lead m w Hok)|right].
  split; [done|]. destruct (member_now m x s Hm Hx) as (sx & Hsx & Hsame).
  destruct (decide (Exists (fun kv => is_lead (sl_agent kv.2) = false /\ is_settled (sl_status kv.2) = false) (map_to_list (slots m)))) as [He|Hno].
  - apply Exists_exists in He as ([z sz] & Hz%elem_of_map_to_list & Hzl & Hzs). simpl in *.
    destruct (member_then m z sz Hm Hz) as (s0 & Hs0 & Hs). exists z. split.
    + exists s0. unfold teammate. rewrite <- (same_is_lead _ _ Hs). split; [done|].
      destruct (same_status _ _ Hs) as [<-|Hi]; [done|]. by rewrite Hi in Hzs.
    + intros Hev. by rewrite (inv_events m Hm z sz Hev Hz) in Hzs.
  - exfalso. assert (leader_to_wake m = Some lead) as Hyes; [|congruence]. apply (leader_woken_iff lead m lead Hok).
    split; [done|]. split; [done|]. split; [exists x, sx; split; [done|]; by rewrite (same_is_lead _ _ Hsame)|].
    intros k sk [Hk Hkl]. apply not_false_is_true. intros Hks. apply Hno, Exists_exists. exists (k, sk). by rewrite elem_of_map_to_list.
Qed.

(** What a call of [mark_idle] has found out when it returns. *)
Definition idle_answer (x : string) (r : Result (option string) TeamError.t) (m : Manager) : Prop :=
  forall w, r = Ok w ->
    idle_event x ∈ events m /\
    (w = Some lead \/
     w = None /\ exists z pre, at_work z /\ pre `prefix_of` events m /\ idle_event x ∈ pre /\ idle_event z ∉ pre).

Lemma set_idle_rely x m slot :
  slots m !! x = Some slot ->
  idle_rely m (set_slots (<[x := mkSlot (with_status (Some TeammateStatus.Idle) (sl_agent slot)) TeammateStatus.Idle
                                   (sl_needs_role_prompt slot)]> (slots m)) m).
Proof.
  intros Hx Hm. split; [split|split].
  - intros k. simpl. destruct (decide (x = k)) as [<-|Hne]; [|rewrite lookup_insert_ne by done; apply (inv_same m Hm)].
    rewrite lookup_insert_eq. destruct (member_then m x slot Hm Hx) as (s0 & -> & []). constructor. split; simpl; auto.
  - simpl. intros k s Hev [[<- <-]|[_ Hk]]%lookup_insert_Some; [done|by apply (inv_events m Hm k)].
  - done.
  - simpl. intros k s s' Hk [[<- <-]|[_ Hk']]%lookup_insert_Some Hi; [done|]. by simplify_eq.
Qed.

Lemma emit_idle_rely x m :
  (forall s, slots m !! x = Some s -> sl_status s = TeammateStatus.Idle) -> idle_rely m (emit (idle_event x) m).
Proof.
  intros Hx Hm. split; [split|split].
  - apply (inv_same m Hm).
  - simpl. intros k s [Hev|Hev]%elem_of_app Hk; [by apply (inv_events m Hm k)|].
    apply list_elem_of_singleton in Hev. injection Hev as ->. by apply Hx.
  - simpl. by exists [idle_event x].
  - simpl. intros k s s' Hk Hk' Hi. by simplify_eq.
Qed.

Lemma db_rely m db : idle_rely m (set_team_db db m).
Proof.
  intros [Hs He]. split; [by split|]. split; [done|]. intros k s s' Hk Hk' Hi. simpl in *. by simplify_eq.
Qed.

Lemma rely_inv m m' : idle_rely m m' -> idle_inv m -> idle_inv m'.
Proof. intros Hr Hm. by apply Hr. Qed.

Lemma rely_event m m' e : idle_rely m m' -> idle_inv m -> e ∈ events m -> e ∈ events m'.
Proof. intros Hr Hm He. destruct (Hr Hm) as (_ & Hp & _). by apply (elem_of_prefix _ _ _ He). Qed.

Definition slot_idle (x : string) (m : Manager) : Prop := forall s, slots m !! x = Some s -> sl_status s = TeammateStatus.Idle.

Lemma rely_idle x m m' : idle_rely m m' -> idle_inv m -> slot_idle x m -> slot_idle x m'.
Proof.
  intros Hr Hm Hx s' Hs'. destruct (Hr Hm) as (Hm' & _ & Hi).
  destruct (member_then m' x s' Hm' Hs') as (s0 & Hs0 & _). destruct (member_now m x s0 Hm Hs0) as (s & Hs & _).
  by apply (Hi x s), Hx.
Qed.

Lemma ensures_reading {A B} (f : Manager -> A) (k : A -> Prog Manager B) Q m :
  (forall m1, idle_rely m m1 -> ensures idle_rely (k (f m1)) Q m1) -> ensures idle_rely (prog_bind (reading f) k) Q m.
Proof. intros Hk m1 K1. split; [reflexivity|]. by apply Hk. Qed.

Lemma ensures_finding {A B} (f : Manager -> Result A TeamError.t) (k : A -> Op B) Q m :
  (forall m1 a, idle_rely m m1 -> f m1 = Ok a -> ensures idle_rely (k a) Q m1) ->
  (forall m1 e, idle_rely m m1 -> Q (Err e) m1) ->
  ensures idle_rely (try_bind (reading f) k) Q m.
Proof.
  intros Hk He. apply ensures_reading. intros m1 K1. destruct (f m1) as [a|e] eqn:Hf; [by apply Hk|].
  intros m2 K2. apply He. by transitivity m1.
Qed.

Lemma ensures_set_idle x m :
  idle_inv m ->
  ensures idle_rely (set_status x TeammateStatus.Idle) (fun r m' => r = Ok tt -> idle_event x ∈ events m') m.
Proof.
  intros Hm. apply ensures_try; [apply _|]. apply ensures_atomic. intros m1 K1.
  assert (idle_inv m1) as Hm1 by by apply (rely_inv m). unfold find_slot.
  destruct (slots m1 !! x) as [slot|] eqn:Hx; simpl; [|by split; [|intros m2 _ m3 _]].
  set (m2 := set_slots _ m1). assert (idle_rely m1 m2) as K12 by by apply set_idle_rely.
  split; [done|]. intros m3 K23 m4 K34. assert (idle_rely m1 m4) as K14 by by transitivity m2; [|transitivity m3].
  assert (slot_idle x m4) as Hidle.
  { apply (rely_idle x m2); [by transitivity m3|by apply (rely_inv m1)|]. intros s. simpl. rewrite lookup_insert_eq. by intros [= <-]. }
  split; [by apply emit_idle_rely|]. intros m5 K45 _. assert (idle_inv m4) as Hm4 by by apply (rely_inv m1).
  apply (rely_event (emit (idle_event x) m4)); [done|by apply emit_idle_rely|].
  simpl. apply elem_of_app. right. by left.
Qed.

(** The end of [mark_idle]. *)
Lemma ensures_leader_check x s m :
  idle_inv m -> teammate x m0 s -> idle_event x ∈ events m ->
  ensures idle_rely maybe_wake_leader_when_all_idle (idle_answer x) m.
Proof.
  intros Hm Hx Hev. apply ensures_atomic. intros m1 K1. split; [done|]. simpl. intros m2 K2 w [= <-].
  assert (idle_inv m1) as Hm1 by by apply (rely_inv m). assert (idle_event x ∈ events m1) as Hev1 by by apply (rely_event m).
  split; [by apply (rely_event m1)|].
  destruct (check_sees m1 x s Hm1 Hx) as [Hw|(Hw & z & Hz & Hzev)]; [by left|right].
  split; [done|]. exists z, (events m1). split; [done|]. split; [by apply K2|done].
Qed.

Lemma ensures_mark_idle x s summary m :
  idle_inv m -> teammate x m0 s -> ensures idle_rely (mark_idle x summary) (idle_answer x) m.
Proof.
  intros Hm Hx. apply ensures_try; [apply _|].
  eapply ensures_conseq; [apply _|by apply ensures_set_idle|]. intros [[]|e] m1 K1 Hev; [|by intros m2 _ w].
  specialize (Hev eq_refl). assert (idle_inv m1) as Hm1 by by apply (rely_inv m).
  apply ensures_finding; [|by intros m2 e _ w]. intros m2 sx K2 Hsx.
  assert (idle_inv m2) as Hm2 by by apply (rely_inv m1). apply ok_or_ok in Hsx.
  destruct (member_now m2 x s Hm2 (proj1 Hx)) as (sx' & Hsx' & Hsame). simplify_eq.
  rewrite (same_is_lead _ _ Hsame), (proj2 Hx).
  apply ensures_reading. intros m5 K5. assert (idle_rely m1 m5) as K15 by by transitivity m2.
  apply ensures_try; [apply _|]. apply (ensures_conseq _ _ (fun _ _ => True)).
  - destruct (option_map _ _) as [l|]; [|done]. case_bool_decide; [done|]. apply ensures_try; [apply _|].
    eapply ensures_conseq; [apply _|apply ensures_zoom; intros t m6; apply db_rely|].
    by intros [u|e] m6 _ _.
  - intros [[]|e] m6 K6 _; [|by intros m7 _ w]. assert (idle_rely m1 m6) as K16 by by transitivity m5.
    apply (ensures_leader_check x s); [by apply (rely_inv m1)|done|by apply (rely_event m1)].
Qed.

(** A call, with the member that makes it. *)
Definition idle_call (x : string) (summary : option string) : Prog Manager (string * Result (option string) TeamError.t) :=
  prog_bind (mark_idle x summary) (fun r => Ret (x, r)).

Inductive IdleCall : Prog Manager (string * Result (option string) TeamError.t) -> Prop :=
| idle_call_of x s summary : teammate x m0 s -> IdleCall (idle_call x summary).

Lemma idle_calls_answer m ts :
  idle_inv m0 -> rtc (pool_step IdleCall) (m0, []) (m, ts) ->
  forall x w, Ret (x, Ok w) ∈ ts -> idle_answer x (Ok w) m.
Proof.
  intros Hm0 Hrun x w Hin.
  assert (forall p m', IdleCall p -> idle_inv m' -> ensures idle_rely p (fun r => idle_answer (fst r) (snd r)) m') as Hcall.
  { intros p m' [y s summary Hy] Hm'. apply ensures_bind; [apply _|].
    eapply ensures_conseq; [apply _|by apply (ensures_mark_idle y s)|]. intros r m1 K1 Hr m2 K2 w' Hw'. simpl in *. subst r.
    assert (idle_inv m1) as Hm1 by by apply (rely_inv m'). destruct (Hr w' eq_refl) as [Hev Hcase].
    split; [by apply (rely_event m1)|]. destruct Hcase as [->|(-> & z & pre & Hz & Hpre & Hrest)]; [by left|right].
    split; [done|]. exists z, pre. split; [done|]. split; [|done]. transitivity (events m1); [done|]. by apply K2. }
  destruct (pool_ensures idle_rely IdleCall idle_inv _ m0 m ts rely_inv Hcall Hm0 Hrun) as (_ & _ & Hts).
  rewrite Forall_forall in Hts. specialize (Hts _ Hin). apply (Hts m). reflexivity.
Qed.

(** Everyone who was at work has been seen by someone to be so still, which
    cannot go on for ever. *)
Lemma no_endless_chain (E : list TeamEvent) :
  (forall z, at_work z -> exists y pre, at_work y /\ pre `prefix_of` E /\ idle_event z ∈ pre /\ idle_event y ∉ pre) ->
  forall z, ~ at_work z.
Proof.
  intros Hchain.
  assert (forall n z pre, length E - length pre < n -> pre `prefix_of` E -> idle_event z ∉ pre -> at_work z -> False) as Hno.
  { induction n as [|n IH]; intros z pre Hn Hpre Hz Hw; [lia|].
    destruct (Hchain z Hw) as (y & pre' & Hy & Hpre' & Hin & Hout).
    apply (IH y pre' ); [|done..]. pose proof (prefix_length _ _ Hpre'). 
    destruct (prefix_weak_total _ _ _ Hpre Hpre') as [Hle|Hle]; [|by destruct Hz; apply (elem_of_prefix _ _ _ Hin)].
    pose proof (prefix_length _ _ Hle). assert (length pre <> length pre'); [|lia].
    intros Hlen. apply Hz. apply prefix_length_eq in Hle; [by subst|lia]. }
  intros z Hz. apply (Hno (S (length E)) z []); [simpl; lia|apply prefix_nil|apply not_elem_of_nil|done].
Qed.
End GoingIdle.


(** ** Messages to everyone *)
Section Broadcast.
Context `{TeamEnvOk} `{ManagerEnvOk}.
Import TeammateManager.

Lemma run_stored {A} (p : Prog TeamDb A) m :
  run (stored p) m = (fst (run p (team_db m)), set_team_db (snd (run p (team_db m))) m).
Proof. unfold stored. apply run_zoom; [done|by intros []|by intros t u []]. Qed.

(** What a message to each of [targets] changes: they have one more unread
    message, the others the same. *)
Definition sent_to (from message : string) (files : list string) (targets : list string) (db db' : TeamDb) : Prop :=
  forall k,
    (k ∈ targets -> exists msg,
       unread_messages the_team_id k db' ≡ₚ msg :: unread_messages the_team_id k db /\
       mm_from_agent_id msg = from /\ mm_content msg = message /\ mm_msg_type msg = MailboxMessageType.Message /\
       mm_files msg = given_files (Some files)) /\
    (k ∉ targets -> SqliteTeam.select_unread the_team_id k db' ≡ₚ SqliteTeam.select_unread the_team_id k db).

Lemma unread_same k db db' :
  SqliteTeam.select_unread the_team_id k db' ≡ₚ SqliteTeam.select_unread the_team_id k db ->
  unread_messages the_team_id k db' ≡ₚ unread_messages the_team_id k db.
Proof. intros Hs. unfold unread_messages. by rewrite Hs. Qed.

Definition send_one (from message : string) (files : list string) (target : string) : Op unit :=
  try_bind (stored (Mailbox.write_with_files the_team_id target from MailboxMessageType.Message message None (Some files)))
    (fun _ => Ret (Ok tt)).

Lemma run_send_one from message files target m m' :
  run (send_one from message files target) m = (Ok tt, m') ->
  slots m' = slots m /\ sent_to from message files [target] (team_db m) (team_db m').
Proof.
  unfold send_one. rewrite run_try, run_stored.
  destruct (run (Mailbox.write_with_files _ _ _ _ _ _ _) (team_db m)) as [[msg|e] db'] eqn:Hrun; simpl; [|done].
  intros [= <-]. split; [done|]. simpl.
  destruct (written_message_is_unread _ _ _ _ _ _ _ _ _ _ Hrun) as (Hmsg & Hto & Hother).
  intros k. split.
  - intros ->%list_elem_of_singleton. exists msg. split; [done|]. by rewrite Hmsg.
  - intros Hk. apply Hother. intros [= ->]. apply Hk. by left.
Qed.

Lemma run_send_all from message files targets m m' :
  NoDup targets -> run (try_each (send_one from message files) targets) m = (Ok tt, m') ->
  sent_to from message files targets (team_db m) (team_db m').
Proof.
  intros Hnd. revert m. induction Hnd as [|t targets Ht Hnd IH]; intros m.
  - simpl. intros [= <-] k. split; [by intros Hk%elem_of_nil|done].
  - change (try_each ?f (?x :: ?l)) with (try_bind (f x) (fun _ => try_each f l)). rewrite run_try.
    destruct (run (send_one from message files t) m) as [[[]|e] m1] eqn:Hone; [|done]. intros Hrest.
    destruct (run_send_one _ _ _ _ _ _ Hone) as [_ Hsent]. specialize (IH m1 Hrest).
    intros k. destruct (Hsent k) as [Hs1 Hs2]. destruct (IH k) as [Hi1 Hi2]. split.
    + intros [->|Hk]%elem_of_cons.
      * destruct (Hs1 (list_elem_of_here _ _)) as (msg & Hperm & Hmsg). exists msg. split; [|done].
        by rewrite (unread_same _ _ _ (Hi2 Ht)).
      * destruct (Hi1 Hk) as (msg & Hperm & Hmsg). exists msg. split; [|done]. rewrite Hperm. f_equiv. apply unread_same, Hs2.
        intros ->%list_elem_of_singleton. done.
    + rewrite not_elem_of_cons. intros [Hne Hk]. rewrite (Hi2 Hk). apply Hs2. by intros ->%list_elem_of_singleton.
Qed.

(** A message to "*" reaches every other member of the team once, from
    its sender and with its files, and nobody else. *)
Theorem broadcast_reaches_others from message files m m' :
  run (handle_send_message from "*" message files) m = (Ok tt, m') ->
  forall k,
    (is_Some (slots m !! k) -> k <> from -> exists msg,
       unread_messages the_team_id k (team_db m') ≡ₚ msg :: unread_messages the_team_id k (team_db m) /\
       mm_from_agent_id msg = from /\ mm_content msg = message /\ mm_msg_type msg = MailboxMessageType.Message /\
       mm_files msg = given_files (Some files)) /\
    (slots m !! k = None \/ k = from ->
       unread_messages the_team_id k (team_db m') ≡ₚ unread_messages the_team_id k (team_db m)).
Proof.
  unfold handle_send_message. rewrite bool_decide_eq_true_2 by done.
  change (fun target => try_bind (stored (Mailbox.write_with_files the_team_id target from MailboxMessageType.Message message None (Some files)))
    (fun _ => Ret (Ok tt))) with (send_one from message files).
  set (targets := List.filter (fun id => negb (bool_decide (id = from))) (map fst (iter_slots (slots m)))).
  assert (forall k, k ∈ targets <-> is_Some (slots m !! k) /\ k <> from) as Htargets.
  { intros k. unfold targets. rewrite list_elem_of_In, filter_In, <- list_elem_of_In, negb_true_iff, bool_decide_eq_false.
    change (map fst ?l) with (fst <$> l). rewrite list_elem_of_fmap. split.
    - intros [([k' s] & -> & Hin) Hne]. split; [|done]. exists s. by apply iter_slots_elem.
    - intros [[s Hs] Hne]. split; [|done]. exists (k, s). split; [done|]. by apply iter_slots_elem. }
  assert (NoDup targets) as Hnd.
  { unfold targets. apply NoDup_ListNoDup, List.NoDup_filter, NoDup_ListNoDup. change (map fst ?l) with (fst <$> l). rewrite iter_slots_permutation. apply NoDup_fst_map_to_list. }
  intros Hrun k. rewrite run_bind in Hrun. cbn [run reading atomic] in Hrun. fold targets in Hrun.
  destruct (run_send_all _ _ _ _ _ _ Hnd Hrun k) as [Hin Hout]. split.
  - intros Hk Hne. apply Hin. by apply Htargets.
  - intros Hk. apply unread_same, Hout. rewrite Htargets. intros [[s Hs] Hne]. destruct Hk; congruence.
Qed.
End Broadcast.

(** ** Runs *)
Module SchedulerRuns.
Import TeammateManager.
Definition env (fails : N -> bool) : TeamEnv := sample_env fails.
#[local] Instance calm : TeamEnv := env (fun _ => false).
#[local] Instance calm_ok : TeamEnvOk := sample_env_ok _.
#[local] Instance names : ManagerEnv := {| the_team_id := "team"; iter_slots := map_to_list; to_lowercase := fun s => s |}.
#[local] Instance names_ok : ManagerEnvOk.
Proof. by split. Qed.

Definition agent (id name : string) (role : TeammateRole.t) : TeamAgent :=
  mkAgent id name role ("conv-" +:+ id) "claude" "" None (Some TeammateStatus.Idle) None None.
Definition member (id : string) (role : TeammateRole.t) (status : TeammateStatus.t) : AgentSlot :=
  mkSlot (agent id id role) status true.

(** An idle leader and two teammates at work. *)
Definition team : Manager :=
  mkManager
    (<["l" := member "l" TeammateRole.Lead TeammateStatus.Idle]>
      (<["a" := member "a" TeammateRole.Teammate TeammateStatus.Working]>
        {["b" := member "b" TeammateRole.Teammate TeammateStatus.Thinking]}))
    ∅ ∅ [] ∅ [] (mkTeamDb [] [] 0).

Lemma team_cases k s :
  slots team !! k = Some s ->
  k = "l" /\ s = member "l" TeammateRole.Lead TeammateStatus.Idle \/
  k = "a" /\ s = member "a" TeammateRole.Teammate TeammateStatus.Working \/
  k = "b" /\ s = member "b" TeammateRole.Teammate TeammateStatus.Thinking.
Proof.
  unfold team. cbn [slots]. intros [[<- <-]|[_ [[<- <-]|[_ [<- <-]%lookup_singleton_Some]]%lookup_insert_Some]]%lookup_insert_Some; auto.
Qed.

Lemma team_is_ok : team_ok "l" team.
Proof.
  split.
  - by intros k s [[-> ->]|[[-> ->]|[-> ->]]]%team_cases.
  - by eexists.
  - by intros k s [[-> ->]|[[-> ->]|[-> ->]]]%team_cases.
Qed.

Definition calls : list (Prog Manager (string * Result (option string) TeamError.t)) :=
  [idle_call "a" None; idle_call "b" (Some "done")].


Lemma leader_woken_iff_witness :
  leader_to_wake team = None /\ (leader_to_wake team = Some "l" <->
    "l" = "l" /\ (exists s, slots team !! "l" = Some s /\ sl_status s = TeammateStatus.Idle) /\
    (exists k s, teammate k team s) /\ forall k s, teammate k team s -> is_settled (sl_status s) = true).
Proof. split; [by vm_compute|]. exact (leader_woken_iff "l" team "l" team_is_ok). Defined.

Lemma broadcast_reaches_others_witness :
  run (handle_send_message "a" "*" "hi" []) team = (Ok tt, snd (run (handle_send_message "a" "*" "hi" []) team)) /\
  unread_messages "team" "a" (team_db (snd (run (handle_send_message "a" "*" "hi" []) team))) ≡ₚ
    unread_messages "team" "a" (team_db team).
Proof.
  assert (run (handle_send_message "a" "*" "hi" []) team = (Ok tt, snd (run (handle_send_message "a" "*" "hi" []) team))) as Hrun
    by by vm_compute.
  split; [exact Hrun|]. exact (proj2 (broadcast_reaches_others "a" "hi" [] team _ Hrun "a") (or_intror eq_refl)).
Defined.

(** Two finish events of a conversation at the same time both find no entry. *)
Lemma both_finalize_at_once :
  let '(second, m) := steps 1 (begin_finalize 0 "conv-a") team in
  let '(first, m) := run (begin_finalize 0 "conv-a") m in
  (first, fst (run second m)) = (true, true).
Proof. by vm_compute. Qed.

(** The removal spawned by an entry that was cleared removes the entry of a
    later finish, and the next one, within five seconds of it, goes ahead. *)
Lemma stale_removal_reopens_window :
  let m := snd (run (begin_finalize 0 "conv-a") team) in
  let m := snd (run (clear_finalized_turn "conv-a") m) in
  let '(second, m) := run (begin_finalize 2000 "conv-a") m in
  let early := fst (run (begin_finalize 5100 "conv-a") m) in
  let m := snd (run (remove_finalized 0) m) in
  (second, early, fst (run (begin_finalize 5100 "conv-a") m)) = (true, false, true).
Proof. by vm_compute. Qed.

(** What a turn that failed leaves as the status of its member. *)
Lemma failed_turn_ends_idle :
  let m := snd (run (set_status "a" TeammateStatus.Error) team) in
  let m := snd (run (finalize_turn "a" []) m) in
  sl_status <$> slots m !! "a" = Some TeammateStatus.Idle.
Proof. by vm_compute. Qed.

(** The last teammate goes idle, and the message that says so cannot be
    written: nobody is told to wake the leader. *)
Lemma failed_notice_loses_leader :
  let m := snd (run (set_status "b" TeammateStatus.Idle) team) in
  let '(answer, m) := run (@mark_idle (env (fun _ => true)) names "a" None) m in
  is_ok answer = false /\ leader_to_wake m = Some "l".
Proof. by vm_compute. Qed.
End SchedulerRuns.
