(* ===== verification/SerdeJson.v ===== *)
(** * JSON values and UTF-8 text ([serde_json] and [String] of the standard library)

    [SerdeJson] is what the wire code asks of the crate [serde_json]: how a
    value is read, built, parsed and printed; [SerdeJsonOk] what it documents
    of these.  [plain n] are the values that are built of strings, arrays and
    objects and nest at most [n] deep: the ones the program prints.
    [from_utf8_lossy] and [floor_char_boundary] are the functions of the
    standard library, on bytes.  [SampleJson] is an instance on which the laws
    hold and everything computes. *)

From S2P Require Import Prelude.
From Stdlib Require Import Floats.SpecFloat.
From stdpp Require Import countable.

(** ** UTF-8 *)
Section Utf8.
Local Open Scope N_scope.

Definition continuation (b : N) : bool := (128 <=? b) && (b <=? 191).

(** The second byte that may follow a first one. *)
Definition second_of_three (a b : N) : bool :=
  if a =? 224 then (160 <=? b) && (b <=? 191)
  else if a =? 237 then (128 <=? b) && (b <=? 159)
  else continuation b.
Definition second_of_four (a b : N) : bool :=
  if a =? 240 then (144 <=? b) && (b <=? 191)
  else if a =? 244 then (128 <=? b) && (b <=? 143)
  else continuation b.

(** The front of a text: a character of so many bytes, or so many bytes that
    are none. *)
Definition utf8_next (l : list N) : bool * nat :=
  match l with
  | [] => (true, 0%nat)
  | a :: l =>
      let b := nth 0 l 0 in
      let c := nth 1 l 0 in
      let d := nth 2 l 0 in
      if a <=? 127 then (true, 1%nat)
      else if (194 <=? a) && (a <=? 223) then
        if continuation b then (true, 2%nat) else (false, 1%nat)
      else if (224 <=? a) && (a <=? 239) then
        if second_of_three a b then
          if continuation c then (true, 3%nat) else (false, 2%nat)
        else (false, 1%nat)
      else if (240 <=? a) && (a <=? 244) then
        if second_of_four a b then
          if continuation c then
            if continuation d then (true, 4%nat) else (false, 3%nat)
          else (false, 2%nat)
        else (false, 1%nat)
      else (false, 1%nat)
  end.

(** U+FFFD in the place of the bytes that are no character; [copy] bytes are
    still to be copied, or [skip] ones to be passed over. *)
Fixpoint lossy (copy skip : nat) (l : list N) : list N :=
  match l with
  | [] => []
  | a :: l' =>
      match copy, skip with
      | S k, _ => a :: lossy k 0 l'
      | 0%nat, S k => lossy 0 k l'
      | 0%nat, 0%nat =>
          match utf8_next l with
          | (true, n) => a :: lossy (pred n) 0 l'
          | (false, n) => 239 :: 191 :: 189 :: lossy 0 (pred n) l'
          end
      end
  end.

Fixpoint utf8_from (copy : nat) (l : list N) : bool :=
  match l, copy with
  | [], 0%nat => true
  | [], S _ => false
  | _ :: l', S k => utf8_from k l'
  | _ :: l', 0%nat =>
      match utf8_next l with
      | (true, n) => utf8_from (pred n) l'
      | (false, _) => false
      end
  end.
Definition utf8 (l : list N) : bool := utf8_from 0 l.

(** [str::is_char_boundary] and [str::floor_char_boundary]. *)
Definition is_char_boundary (l : list N) (i : nat) : bool :=
  match drop i l with
  | [] => (i =? length l)%nat
  | b :: _ => negb (continuation b)
  end.
Fixpoint floor_boundary (l : list N) (i : nat) : nat :=
  if is_char_boundary l i then i
  else match i with 0%nat => 0%nat | S k => floor_boundary l k end.
Definition floor_char_boundary (l : list N) (i : nat) : nat :=
  if (length l <=? i)%nat then length l else floor_boundary l i.

End Utf8.

Definition from_utf8_lossy (b : list Byte.byte) : string := of_bytes (lossy 0 0 (map Byte.to_N b)).

(** [String::into_bytes]. *)
Definition into_bytes (s : string) : list Byte.byte := String.list_byte_of_string s.

(** ** Values *)
Class SerdeJson : Type := {
  Value : Type;
  v_get : string -> Value -> option Value;
  as_str : Value -> option string;
  as_bool : Value -> option bool;
  as_u64 : Value -> option N;
  as_f64 : Value -> option spec_float;
  as_array : Value -> option (list Value);
  is_object : Value -> bool;
  Null : Value;
  v_str : string -> Value;
  v_bool : bool -> Value;
  v_num : N -> Value;
  v_arr : list Value -> Value;
  v_obj : list (string * Value) -> Value;
  map_insert : string -> Value -> Value -> Value;
  from_str : string -> option Value;
  to_string : Value -> string;
}.

(** The value a list of pairs gives a key: a later pair replaces an earlier. *)
Definition assoc_last {A : Type} (k : string) (l : list (string * A)) : option A :=
  fold_left (fun found '(k', x) => if (k' =? k)%string then Some x else found) l None.

Inductive plain `{SerdeJson} : nat -> Value -> Prop :=
| plain_str n s : plain n (v_str s)
| plain_arr n l : (forall v, In v l -> plain n v) -> plain (S n) (v_arr l)
| plain_obj n l : (forall k v, In (k, v) l -> plain n v) -> plain (S n) (v_obj l).

(** How deep the parser follows a value. *)
Definition RECURSION_LIMIT : nat := 127.

Class SerdeJsonOk `{SerdeJson} : Prop := {
  get_obj k l : v_get k (v_obj l) = assoc_last k l;
  get_insert k k' x v :
    is_object v = true -> v_get k (map_insert k' x v) = if (k' =? k)%string then Some x else v_get k v;
  insert_plain n k x v : plain (S n) v -> is_object v = true -> plain n x -> plain (S n) (map_insert k x v);
  obj_is_object l : is_object (v_obj l) = true;
  insert_is_object k x v : is_object (map_insert k x v) = is_object v;
  as_str_str s : as_str (v_str s) = Some s;
  as_str_obj l : as_str (v_obj l) = None;
  as_bool_bool b : as_bool (v_bool b) = Some b;
  as_array_arr l : as_array (v_arr l) = Some l;
  as_u64_num n : (n <= u64_max)%N -> as_u64 (v_num n) = Some n;
  as_u64_bound v n : as_u64 v = Some n -> (n <= u64_max)%N;
  from_to v : plain RECURSION_LIMIT v -> from_str (to_string v) = Some v;
  to_string_one_line v : ~ In 10%N (bytes (to_string v));
  to_string_utf8 v : utf8 (bytes (to_string v)) = true;
  to_string_front v : bytes (to_string v) <> [] /\ space_front (bytes (to_string v)) = 0;
  to_string_back v : space_back (rev (bytes (to_string v))) = 0;
}.

(** The wrappers every reader of a frame uses: [v.get(k)] of what may be absent,
    and [as_str().unwrap_or("")]. *)
Section Reading.
Context `{SerdeJson}.
Definition field (k : string) (o : option Value) : option Value := o ≫= v_get k.
Definition str_of (o : option Value) : option string := o ≫= as_str.
Definition text_of (o : option Value) : string := default "" (str_of o).
Definition array_of (o : option Value) : list Value := default [] (o ≫= as_array).
Definition u64_of (o : option Value) : option N := o ≫= as_u64.
Definition bool_of (o : option Value) : bool := default false (o ≫= as_bool).
End Reading.

Create Rewrite HintDb json.
#[export] Hint Rewrite @get_obj @as_str_str @as_bool_bool @as_array_arr @obj_is_object @as_str_obj
  using typeclasses eauto : json.

(** Reading what was built. *)
Ltac read_json :=
  repeat first
    [ progress autorewrite with json
    | progress cbn [assoc_last fold_left String.eqb Ascii.eqb Bool.eqb field str_of text_of array_of
                    u64_of bool_of mbind option_bind default from_option id fst snd] ].

(** ** Lemmas on text *)
Lemma utf8_next_app l m n :
  utf8_next l = (true, S n) -> utf8_next (l ++ m) = (true, S n).
Proof.
  assert (Hz : continuation 0 = false) by done.
  assert (Hs : forall a, second_of_three a 0 = false) by (intros; unfold second_of_three; by repeat case_match).
  assert (Hf : forall a, second_of_four a 0 = false) by (intros; unfold second_of_four; by repeat case_match).
  destruct l as [|a [|b [|c [|d l]]]]; simpl; rewrite ?Hz, ?Hs, ?Hf; try done;
    repeat (case_match; try done).
Qed.

Lemma utf8_next_pos a l : snd (utf8_next (a :: l)) <> 0.
Proof. unfold utf8_next. by repeat case_match. Qed.

Lemma utf8_from_app k l m : utf8_from k l = true -> utf8_from k (l ++ m) = utf8_from 0 m.
Proof.
  revert k. induction l as [|a l IH]; intros [|k]; cbn [utf8_from]; try done.
  - intros Hl. destruct (utf8_next (a :: l)) as [[] n] eqn:E; [|done].
    pose proof (utf8_next_pos a l) as Hp. rewrite E in Hp. destruct n as [|n]; [done|].
    cbn [app utf8_from]. change (a :: l ++ m) with ((a :: l) ++ m).
    rewrite (utf8_next_app _ _ _ E). by apply IH.
  - intros Hl. cbn [app utf8_from]. by apply IH.
Qed.

Lemma lossy_utf8 k l : utf8_from k l = true -> lossy k 0 l = l.
Proof.
  revert k. induction l as [|a l IH]; intros [|k]; cbn [lossy utf8_from]; try done.
  - destruct (utf8_next (a :: l)) as [[] n]; [|done]. intros Hl. by rewrite IH.
  - intros Hl. by rewrite IH.
Qed.

(** *** Characters and their boundaries *)
Lemma utf8_from_drop k l : utf8_from k l = (k <=? length l)%nat && utf8 (drop k l).
Proof.
  revert k. induction l as [|a l IH]; intros [|k]; try done. cbn [utf8_from]. rewrite IH. done.
Qed.

Lemma utf8_char a l n :
  utf8_next (a :: l) = (true, S n) ->
  negb (continuation a) = true /\ n <= length l /\ Forall (fun b => continuation b = true) (take n l) /\
  forall j, n <= j -> utf8_next (a :: take j l) = (true, S n).
Proof.
  assert (Hz : continuation 0 = false) by done.
  assert (Hs : forall x y, second_of_three x y = true -> continuation y = true)
    by (unfold second_of_three, continuation; intros x y; repeat case_match; lia).
  assert (Hf : forall x y, second_of_four x y = true -> continuation y = true)
    by (unfold second_of_four, continuation; intros x y; repeat case_match; lia).
  assert (Hs0 : forall x, second_of_three x 0 = false) by (intros; unfold second_of_three; by repeat case_match).
  assert (Hf0 : forall x, second_of_four x 0 = false) by (intros; unfold second_of_four; by repeat case_match).
  intros E. split; [|split; [|split]].
  - unfold utf8_next, continuation in *. repeat case_match; try done; lia.
  - destruct l as [|b [|c [|d l]]]; simpl in *; rewrite ?Hz, ?Hs0, ?Hf0 in E; repeat case_match; try done;
      injection E as <-; lia.
  - destruct l as [|b [|c [|d l]]]; simpl in E; rewrite ?Hz, ?Hs0, ?Hf0 in E; repeat case_match; try done;
      injection E as <-; repeat constructor; eauto.
  - intros j Hj. destruct l as [|b [|c [|d l]]], j as [|[|[|j]]]; simpl in *;
      rewrite ?Hz, ?Hs0, ?Hf0 in E; repeat case_match; try done; injection E as <-; try done; lia.
Qed.

Lemma utf8_cons a l :
  utf8 (a :: l) = true -> exists n, utf8_next (a :: l) = (true, S n) /\ utf8 (drop n l) = true.
Proof.
  unfold utf8 at 1. cbn [utf8_from]. pose proof (utf8_next_pos a l) as Hp.
  destruct (utf8_next (a :: l)) as [[] [|n]]; try done. simpl. rewrite utf8_from_drop.
  intros [_ Hn]%andb_true_iff. by exists n.
Qed.

Lemma utf8_next_cons a l n :
  utf8_next (a :: l) = (true, S n) -> utf8 (a :: l) = (n <=? length l)%nat && utf8 (drop n l).
Proof. intros E. unfold utf8 at 1. cbn [utf8_from]. rewrite E. apply utf8_from_drop. Qed.

Lemma drop_inside {A : Type} (P : A -> Prop) l n i :
  Forall P (take n l) -> i < n -> n <= length l -> exists b r, drop i l = b :: r /\ P b.
Proof.
  revert n i. induction l as [|a l IH]; intros [|n] [|i] Hc Hi Hl; simpl in *; try lia.
  - exists a, l. by inversion Hc.
  - apply (IH n); [by inversion Hc|lia..].
Qed.

(** A text cut at a boundary is text, and at no other place. *)
Lemma utf8_take l i : utf8 l = true -> i <= length l -> utf8 (take i l) = (i =? 0)%nat || is_char_boundary l i.
Proof.
  enough (Hn : forall m l i, length l <= m -> utf8 l = true -> i <= length l ->
    utf8 (take i l) = (i =? 0)%nat || is_char_boundary l i) by (by apply (Hn (length l))).
  clear. induction m as [|m IH]; intros [|a l] i Hm Hl Hi; simpl in Hm, Hi; try lia;
    [by destruct i; [|lia]..|].
  destruct i as [|i]; [done|]. destruct (utf8_cons a l Hl) as (n & E & Hd).
  destruct (utf8_char a l n E) as (_ & Hn & Hc & Ht). cbn [take].
  destruct (decide (n <= i)) as [Hni|Hni].
  - rewrite (utf8_next_cons a (take i l) n) by (by apply Ht). rewrite length_take.
    replace (n <=? i `min` length l)%nat with true by lia. rewrite skipn_firstn_comm.
    rewrite (IH (drop n l) (i - n)); [|rewrite length_drop; lia|done|rewrite length_drop; lia].
    unfold is_char_boundary. rewrite drop_drop, length_drop. cbn [drop length].
    replace (n + (i - n)) with i by lia. simpl. destruct (drop i l) as [|b r] eqn:Ei; [|simpl].
    + assert (i = length l) as -> by (apply (f_equal length) in Ei; rewrite length_drop in Ei; simpl in Ei; lia).
      rewrite orb_comm. rewrite Nat.eqb_refl. by rewrite Nat.eqb_refl.
    + destruct (i - n =? 0)%nat eqn:E0; [|done]. apply Nat.eqb_eq in E0.
      assert (i = n) as -> by lia. rewrite Ei in Hd. destruct (utf8_cons b r Hd) as (n' & E' & _).
      by destruct (utf8_char b r n' E') as (-> & _).
  - destruct (drop_inside _ l n i Hc) as (b & r & Ei & Hb); [lia|done|].
    simpl. unfold is_char_boundary. cbn [drop length]. rewrite Ei.
    rewrite Hb. simpl. destruct (utf8 (a :: take i l)) eqn:Ht2; [|done].
    destruct (utf8_cons _ _ Ht2) as (n' & E' & _).
    destruct (utf8_char _ _ _ E') as (_ & Hn' & _). rewrite length_take in Hn'.
    pose proof (utf8_next_app _ (drop i l) _ E') as E2.
    change ((a :: take i l) ++ drop i l) with (a :: take i l ++ drop i l) in E2. rewrite firstn_skipn in E2.
    assert (n = n') by congruence. lia.
Qed.

Lemma floor_boundary_spec l i :
  floor_boundary l i <= i /\
  (floor_boundary l i = 0 \/ is_char_boundary l (floor_boundary l i) = true) /\
  forall j, floor_boundary l i < j -> j <= i -> is_char_boundary l j = false.
Proof.
  induction i as [|i IH]; cbn [floor_boundary].
  - destruct (is_char_boundary l 0); (split; [lia|]); (split; [by left|lia]).
  - destruct (is_char_boundary l (S i)) eqn:E.
    + split; [lia|]. split; [by right|lia].
    + destruct IH as (Hle & Hb & Hj). split; [lia|]. split; [done|].
      intros j Hlt Hle'. destruct (decide (j = S i)) as [->|Hne]; [done|]. apply Hj; lia.
Qed.

Lemma utf8_newline l : utf8 l = true -> utf8 (l ++ [10%N]) = true.
Proof. intros Hl. unfold utf8. by rewrite (utf8_from_app 0 l _ Hl). Qed.

(** A byte is what an [ascii] character or an [N] below 256 says it is. *)
Lemma rejoin_bytes s : of_bytes (bytes s) = s.
Proof.
  unfold of_bytes, bytes. rewrite map_map. rewrite <- (String.string_of_list_ascii_of_string s) at 2.
  f_equal. rewrite <- (map_id (String.list_ascii_of_string s)) at 2. apply map_ext.
  intros a. apply Ascii.ascii_N_embedding.
Qed.

Lemma bytes_small s : Forall (fun b => b < 256)%N (bytes s).
Proof. unfold bytes. apply List.Forall_map, List.Forall_forall. intros a _. apply Ascii.N_ascii_bounded. Qed.

Lemma of_bytes_bytes l : Forall (fun b => b < 256)%N l -> bytes (of_bytes l) = l.
Proof.
  intros Hl. unfold bytes, of_bytes. rewrite String.list_ascii_of_string_of_list_ascii, map_map.
  induction Hl as [|b l Hb _ IH]; simpl; [done|]. by rewrite Ascii.N_ascii_embedding, IH.
Qed.

Lemma bytes_app s t : bytes (s +:+ t) = bytes s ++ bytes t.
Proof. unfold bytes. rewrite <- map_app. f_equal. induction s as [|a s IH]; [done|]. rewrite str_app_cons. simpl. by rewrite IH. Qed.

Lemma length_bytes s : length (bytes s) = String.length s.
Proof. unfold bytes. rewrite length_map. induction s as [|a s IH]; simpl; congruence. Qed.

Lemma into_bytes_N s : map Byte.to_N (into_bytes s) = bytes s.
Proof.
  unfold into_bytes, bytes. induction s as [|a s IH]; [done|].
  change (String.list_byte_of_string (String a s)) with (Ascii.byte_of_ascii a :: String.list_byte_of_string s).
  cbn [String.list_ascii_of_string map]. rewrite IH. f_equal.
  by destruct a as [[] [] [] [] [] [] [] []].
Qed.

(** A line that is text and has white space at neither end is what is left of
    it, without its newline, after [from_utf8_lossy] and [trim]. *)
Lemma drop_spaces_none space l : space l = 0 -> drop_spaces space 0 l = l.
Proof. destruct l; simpl; [done|]. by intros ->. Qed.

Lemma space_front_newline l : l <> [] -> space_front l = 0 -> space_front (l ++ [10%N]) = 0.
Proof.
  destruct l as [|a [|b [|c l]]]; simpl; try done; intros _; repeat (case_match; try done); lia.
Qed.

Lemma trim_line s :
  bytes s <> [] -> space_front (bytes s) = 0 -> space_back (rev (bytes s)) = 0 ->
  str_trim (of_bytes (bytes s ++ [10%N])) = s.
Proof.
  intros Hn Hf Hb. unfold str_trim.
  assert (E : bytes (of_bytes (bytes s ++ [10%N])) = bytes s ++ [10%N]).
  { apply of_bytes_bytes, Forall_app. split; [apply bytes_small|by repeat constructor]. }
  rewrite E, (drop_spaces_none space_front) by (by apply space_front_newline).
  rewrite rev_app_distr. simpl rev at 2.
  assert (Hd : drop_spaces space_back 0 (10%N :: rev (bytes s)) = rev (bytes s)).
  { cbn [drop_spaces]. replace (space_back (10%N :: rev (bytes s))) with 1.
    - by apply drop_spaces_none.
    - by destruct (rev (bytes s)) as [|b [|a l]]. }
  cbn [app]. rewrite Hd, rev_involutive. apply rejoin_bytes.
Qed.

(** ** An instance

    Values are the trees of stdpp: a leaf is a string, and the label of a node
    tells the null, the booleans, the arrays, the objects (key and value
    alternate) and, from 5, the numbers.  A value is printed as its encoding
    as a binary number. *)
Module SampleJson.
Definition Tree : Type := gen_tree string.

Fixpoint get_pairs (k : string) (l : list Tree) : option Tree :=
  match l with
  | GenLeaf k' :: x :: l' =>
      match get_pairs k l' with
      | Some y => Some y
      | None => if (k' =? k)%string then Some x else None
      end
  | _ => None
  end.
Definition get_of (k : string) (v : Tree) : option Tree :=
  match v with GenNode 4 l => get_pairs k l | _ => None end.

Definition str_view (v : Tree) : option string := match v with GenLeaf s => Some s | _ => None end.
Definition bool_view (v : Tree) : option bool :=
  match v with GenNode 1 [] => Some false | GenNode 2 [] => Some true | _ => None end.
Definition num_view (v : Tree) : option N :=
  match v with
  | GenNode (S (S (S (S (S n))))) [] => if (N.of_nat n <=? u64_max)%N then Some (N.of_nat n) else None
  | _ => None
  end.
Definition arr_view (v : Tree) : option (list Tree) := match v with GenNode 3 l => Some l | _ => None end.
Fixpoint paired (l : list Tree) : bool :=
  match l with
  | [] => true
  | GenLeaf _ :: _ :: l' => paired l'
  | _ => false
  end.
Definition obj_view (v : Tree) : bool := match v with GenNode 4 l => paired l | _ => false end.
Definition flat (l : list (string * Tree)) : list Tree := concat (map (fun '(k, x) => [GenLeaf k; x]) l).
Definition obj_of (l : list (string * Tree)) : Tree := GenNode 4 (flat l).
Definition insert_of (k : string) (x v : Tree) : Tree :=
  match v with GenNode 4 l => GenNode 4 (l ++ [GenLeaf k; x]) | _ => v end.

Definition zero : Ascii.ascii := Ascii.ascii_of_N 48.
Definition one : Ascii.ascii := Ascii.ascii_of_N 49.
Fixpoint digits (p : positive) : string :=
  match p with
  | xH => String one ""
  | xO p => String zero (digits p)
  | xI p => String one (digits p)
  end.
Fixpoint undigits (s : string) : option positive :=
  match s with
  | "" => None
  | String a "" => if Ascii.eqb a one then Some xH else None
  | String a s =>
      if Ascii.eqb a zero then xO <$> undigits s
      else if Ascii.eqb a one then xI <$> undigits s else None
  end.

#[export] Instance sample_json : SerdeJson := {|
  Value := Tree;
  v_get := get_of;
  as_str := str_view;
  as_bool := bool_view;
  as_u64 := num_view;
  as_f64 v := (fun n => S754_finite false (N.succ_pos n) 0) <$> num_view v;
  as_array := arr_view;
  is_object := obj_view;
  Null := GenNode 0 [];
  v_str := GenLeaf;
  v_bool b := GenNode (if b then 2 else 1) [];
  v_num n := GenNode (5 + N.to_nat n) [];
  v_arr := GenNode 3;
  v_obj := obj_of;
  map_insert := insert_of;
  from_str s := undigits s ≫= decode;
  to_string v := digits (encode v);
|}.

Lemma undigits_digits p : undigits (digits p) = Some p.
Proof.
  induction p as [p IH|p IH|]; [| |done]; cbn [digits];
    (destruct (digits p) as [|a s] eqn:E; [by destruct p|]);
    change (undigits (String ?b (String a s))) with (if Ascii.eqb b zero then xO <$> undigits (String a s)
      else if Ascii.eqb b one then xI <$> undigits (String a s) else None); by rewrite IH.
Qed.

Lemma digits_bytes p : Forall (fun b => b = 48%N \/ b = 49%N) (bytes (digits p)) /\ bytes (digits p) <> [].
Proof. induction p as [p [IH _]|p [IH _]|]; (split; [|done]); constructor; auto. Qed.

Lemma get_flat k l : get_pairs k (flat l) = assoc_last k l.
Proof.
  assert (Hacc : forall acc, fold_left (fun found '(k', x) => if (k' =? k)%string then Some x else found) l acc
    = match get_pairs k (flat l) with Some y => Some y | None => acc end).
  { induction l as [|[k' x] l IH]; intros acc; [done|]. simpl fold_left. rewrite IH.
    change (flat ((k', x) :: l)) with (GenLeaf k' :: x :: flat l). simpl.
    destruct (get_pairs k (flat l)); [done|]. by destruct (k' =? k)%string. }
  unfold assoc_last. rewrite Hacc. by destruct (get_pairs k _).
Qed.

Lemma get_pairs_app k l x k' :
  paired l = true ->
  get_pairs k (l ++ [GenLeaf k'; x]) = if (k' =? k)%string then Some x else get_pairs k l.
Proof.
  enough (Hn : forall n, length l <= n -> paired l = true ->
    get_pairs k (l ++ [GenLeaf k'; x]) = if (k' =? k)%string then Some x else get_pairs k l) by (by apply (Hn (length l))).
  intros n. revert l. induction n as [|n IH]; intros [|[k0|i ts] [|y l]] Hl Hp; simpl in *; try done; try lia.
  rewrite IH by (done || lia). by destruct (k' =? k)%string.
Qed.

Lemma paired_app l k x : paired (l ++ [GenLeaf k; x]) = paired l.
Proof.
  enough (Hn : forall n, length l <= n -> paired (l ++ [GenLeaf k; x]) = paired l) by (by apply (Hn (length l))).
  intros n. revert l. induction n as [|n IH]; intros [|[k0|i ts] [|y l]] Hl; simpl in *; try done; try lia.
  - by destruct x.
  - apply IH. lia.
Qed.

Lemma paired_flat l : paired (flat l) = true.
Proof. by induction l as [|[k x] l IH]. Qed.

Lemma flat_paired l : paired l = true -> exists l', l = flat l'.
Proof.
  enough (Hn : forall n, length l <= n -> paired l = true -> exists l', l = flat l') by (by apply (Hn (length l))).
  intros n. revert l. induction n as [|n IH]; intros [|[k0|i ts] [|y l]] Hl Hp; simpl in *; try done; try lia;
    try by exists [].
  destruct (IH l) as [l' ->]; [lia|done|]. by exists ((k0, y) :: l').
Qed.

Lemma flat_inj l l' : flat l = flat l' -> l = l'.
Proof.
  revert l'. induction l as [|[k x] l IH]; intros [|[k' x'] l']; try done.
  intros E. change (GenLeaf k :: x :: flat l = GenLeaf k' :: x' :: flat l') in E. injection E as -> -> E.
  f_equal. by apply IH.
Qed.

Lemma insert_obj k x l : insert_of k x (obj_of l) = obj_of (l ++ [(k, x)]).
Proof. unfold obj_of, flat. simpl. by rewrite map_app, concat_app. Qed.

#[export] Instance sample_json_ok : SerdeJsonOk.
Proof.
  split; simpl; try done.
  - intros k l. apply get_flat.
  - intros k k' x [s|[|[|[|[|[|n]]]]] l] Hv; try done. simpl in *. by rewrite get_pairs_app.
  - intros n k x [s|[|[|[|[|[|i]]]]] l] Hv Ho Hx; try done. destruct (flat_paired l Ho) as [l' ->].
    change (GenNode 4 (flat l')) with (obj_of l'). rewrite insert_obj.
    apply (plain_obj (H := sample_json)). intros k0 v0 Hin.
    apply in_app_or in Hin as [Hin|[[= <- <-]|[]]]; [|done].
    inversion Hv as [|a b c d e|n1 l0 Hl E1 E2]; subst.
    apply flat_inj in E2 as ->. by apply (Hl k0).
  - intros l. apply paired_flat.
  - intros k x [s|[|[|[|[|[|n]]]]] l]; try done. simpl. by rewrite paired_app.
  - intros b. by destruct b.
  - intros n Hn. rewrite N2Nat.id. case_match; [done|lia].
  - intros [s|[|[|[|[|[|n]]]]] [|]] m; simpl; try done. case_match; [|done]. intros [= <-]. lia.
  - intros v _. unfold from_str. simpl. rewrite undigits_digits. simpl. apply decode_encode.
  - intros v Hin. destruct (digits_bytes (encode v)) as [Hd _]. rewrite Forall_forall in Hd.
    destruct (Hd _ Hin) as [?|?]; done.
  - intros v. destruct (digits_bytes (encode v)) as [Hd _]. unfold utf8.
    induction Hd as [|a l [->| ->] Hl IH]; simpl; done.
  - intros v. destruct (digits_bytes (encode v)) as [Hd Hn]. split; [done|].
    destruct Hd as [|a l [->| ->] Hl]; simpl; try done; by destruct l as [|? [|? ?]].
  - intros v. destruct (digits_bytes (encode v)) as [Hd Hn].
    assert (Hr : Forall (fun b => b = 48%N \/ b = 49%N) (rev (bytes (digits (encode v))))) by (by apply Forall_rev).
    destruct Hr as [|a l [-> | ->] [|b l' [-> | ->] [|c l'' [-> | ->] Hc]]]; done.
Qed.
End SampleJson.
