(* ===== verification/SessionCommand.v ===== *)
(** * Commands to a backend and what it declares of itself

    The downward half of [backend/types.rs] of [crates/tjuaeui-session/src]
    (the commands, their answers and the identity of a session), the
    capabilities of [capability.rs], the configuration of [backend/mod.rs] and
    the process seam of [adapter.rs]. *)

From S2P Require Import Prelude SessionEvent SessionOrchestrator.

(** ** Commands *)
Module ContentBlock.
Inductive t : Type :=
| Text (text : string)
| Image (data : list Byte.byte) (media_type : string)
| Audio (data : list Byte.byte) (media_type : string)
| ResourceLink (uri : string) (mime_type : option string)
| AtMention (user_id : string).
End ContentBlock.

Module CancelTarget.
Inductive t : Type := Tool (id : string) | Turn | Session.
End CancelTarget.

Module PermissionDecision.
Inductive t : Type := Approved | Denied | AllowAlways.
End PermissionDecision.

Module SessionInfoKind.
Inductive t : Type := ContextUsage | SessionCost.
End SessionInfoKind.

Record QuestionAnswer : Type := mkQuestionAnswer {
  question : string;
  labels : list string;
}.

Record CommandMeta : Type := mkCommandMeta {
  command_id : N;
  meta_cwd : option string;
  meta_extra_args : list string;
  client_msg_id : option string;
}.

Module Command.
Inductive t (Value : Type) : Type :=
| Send (content : list ContentBlock.t) (metadata : CommandMeta)
| Cancel (target : CancelTarget.t)
| Steer (content : list ContentBlock.t)
| AnswerPermission (request_id : string) (decision : PermissionDecision.t)
    (selected : option string) (answers : list QuestionAnswer)
| AnswerAuth (method_id : string) (credentials : Value)
| Acknowledge (node_id : string)
| SetMode (mode : string)
| SetModel (model : string)
| SetConfigOption (option_id value : string)
| Rewind (num_turns : N)
| ListCheckpoints
| QuerySessionInfo (kind : SessionInfoKind.t).
Arguments Send {Value}.
Arguments Cancel {Value}.
Arguments Steer {Value}.
Arguments AnswerPermission {Value}.
Arguments AnswerAuth {Value}.
Arguments Acknowledge {Value}.
Arguments SetMode {Value}.
Arguments SetModel {Value}.
Arguments SetConfigOption {Value}.
Arguments Rewind {Value}.
Arguments ListCheckpoints {Value}.
Arguments QuerySessionInfo {Value}.
End Command.

Record PendingPermissionView (Value : Type) : Type := mkPendingPermissionView {
  view_request_id : string;
  view_tool_name : string;
  view_questions : option Value;
}.
Arguments mkPendingPermissionView {Value}.

(** The two-id session specification of [backend/types.rs]. *)
Module SessionSpec.
Inductive t : Type :=
| Fresh (session_id : string)
| Resume (session_id : string) (backend_session_id : option string).
End SessionSpec.

(** [adapter::SessionSpec], what the process is started with. *)
Module LegacySessionSpec.
Inductive t : Type := Fresh (id : string) | Resume (id : string).
End LegacySessionSpec.

Module ProcessError.
Inductive t : Type :=
| BadRequest (message : string)
| WorkspaceUnavailable (path : string)
| Internal (message : string).

(** Its [Display]. *)
Definition display (e : t) : string :=
  match e with
  | BadRequest m => "请求无效：" +:+ m
  | WorkspaceUnavailable p => "工作区不可用：" +:+ p
  | Internal m => "内部错误：" +:+ m
  end.
End ProcessError.

(** [BackendError::from_spawn] *)
Definition from_spawn (context : string) (e : ProcessError.t) : BackendError.t :=
  match e with
  | ProcessError.WorkspaceUnavailable path => BackendError.WorkspaceUnavailable path
  | e => BackendError.Transport (context +:+ ": " +:+ ProcessError.display e)
  end.

(** ** Configuration of a session *)
Record EnvVar : Type := mkEnvVar { env_name : string; env_value : string }.

Record CommandSpec : Type := mkCommandSpec {
  spec_command : string;
  spec_args : list string;
  spec_env : list EnvVar;
  spec_cwd : option string;
}.

Module McpTransport.
Inductive t : Type :=
| Stdio (command : string) (args : list string) (env : list (string * string))
| Http (url : string) (headers : list (string * string))
| Sse (url : string) (headers : list (string * string)).
End McpTransport.

Record McpServerSpec : Type := mkMcpServerSpec {
  mcp_name : string;
  mcp_transport : McpTransport.t;
}.

Record SessionInit (Value : Type) : Type := mkSessionInit {
  mcp_servers : list McpServerSpec;
  init_skills : list string;
  preset_context : option string;
  session_snapshot : option Value;
  init_resume : bool;
}.
Arguments mkSessionInit {Value}.
Arguments mcp_servers {Value}.
Arguments preset_context {Value}.

Record SessionConfig (Value : Type) : Type := mkSessionConfig {
  cfg_cwd : option string;
  cfg_model : option string;
  cfg_mode : option string;
  cfg_extra_args : list string;
  idle_ttl_ms : option Z;
  cfg_init : SessionInit Value;
  spawn_env : list EnvVar;
  sandbox_mode : option string;
  approval_policy : option string;
  cli_program : option string;
}.
Arguments mkSessionConfig {Value}.
Arguments cfg_cwd {Value}.
Arguments cfg_model {Value}.
Arguments cfg_mode {Value}.
Arguments cfg_extra_args {Value}.
Arguments idle_ttl_ms {Value}.
Arguments cfg_init {Value}.
Arguments spawn_env {Value}.
Arguments cli_program {Value}.

(** ** Capabilities *)
Module CapabilityTier.
Inductive t : Type := Parsed | Hook | Opaque_.
End CapabilityTier.

Module PromptAcceptedSource.
Inductive t : Type := Native | Synthesized | None_.
End PromptAcceptedSource.

Record SignalSet : Type := mkSignalSet {
  heartbeat : bool;
  tool_lifecycle : bool;
  terminal_result : bool;
}.

Record CommandSet : Type := mkCommandSet {
  can_steer : bool;
  can_cancel_tool : bool;
  can_answer_permission : bool;
  can_answer_auth : bool;
  can_acknowledge : bool;
  can_set_mode : bool;
  can_set_model : bool;
  can_rewind : bool;
  can_list_checkpoints : bool;
  can_query_session_info : bool;
}.

Record BlockSet : Type := mkBlockSet {
  blk_text : bool;
  blk_image : bool;
  blk_audio : bool;
  blk_resource : bool;
  blk_at_mention : bool;
}.

(** [BlockSet::allows] *)
Definition allows (s : BlockSet) (block : ContentBlock.t) : bool :=
  match block with
  | ContentBlock.Text _ => blk_text s
  | ContentBlock.Image _ _ => blk_image s
  | ContentBlock.Audio _ _ => blk_audio s
  | ContentBlock.ResourceLink _ _ => blk_resource s
  | ContentBlock.AtMention _ => blk_at_mention s
  end.

Definition block_kind_name (block : ContentBlock.t) : string :=
  match block with
  | ContentBlock.Text _ => "content_block:text"
  | ContentBlock.Image _ _ => "content_block:image"
  | ContentBlock.Audio _ _ => "content_block:audio"
  | ContentBlock.ResourceLink _ _ => "content_block:resource"
  | ContentBlock.AtMention _ => "content_block:at_mention"
  end.

Record Capabilities : Type := mkCapabilities {
  tier : CapabilityTier.t;
  emits : SignalSet;
  supported_commands : CommandSet;
  prompt_blocks : BlockSet;
  prompt_accepted : PromptAcceptedSource.t;
  available_models : list ModelInfo;
  available_modes : list ModeInfo;
  current_model : option string;
  current_mode : option string;
  current_effort : option string;
  auth_methods : list string;
  accepts_proactive_input : bool;
  slash_commands : list SlashCommandInfo;
}.
