(* ===== verification/ClaudeAdapter.v ===== *)
(** * The claude adapter ([crates/tjuaeui-session/src/adapter/claude.rs])

    [ClaudeAdapter] holds the half line and the state of the message being
    streamed; [frame_lines] cuts the bytes of the process into lines and maps
    each to its value and its session events, [flush_tail] what is left at the
    end, and one [parse_] definition per kind of frame is the mapping.
    [prompt_line] is the line [deliver_prompt] writes.  The crate that codes
    bytes in base 64 is the class [Base64].

    Shown: how the bytes arrive in chunks does not matter; what is written is
    read back as one frame a line; a message whose text is streamed and then
    repeated arrives once; what the result of a turn says. *)

From S2P Require Import Prelude SessionEvent SessionState SessionReducer SessionOrchestrator SessionCommand SerdeJson.
From Stdlib Require Import Floats.SpecFloat.

Class Base64 : Type := {
  b64_encode : list Byte.byte -> string;
  b64_decode : string -> option (list Byte.byte);
}.
Class Base64Ok `{Base64} : Prop := { b64_round b : b64_decode (b64_encode b) = Some b }.

(** An instance: a byte is coded as itself. *)
Module SampleBase64.
#[export] Instance sample_base64 : Base64 := {|
  b64_encode := String.string_of_list_byte;
  b64_decode s := Some (String.list_byte_of_string s);
|}.
#[export] Instance sample_base64_ok : Base64Ok.
Proof. split. intros b. simpl. by rewrite String.list_byte_of_string_of_list_byte. Qed.
End SampleBase64.

(** ** State *)
Module StreamBlockKind.
Inductive t : Type := Text | Thinking | Other.
#[export] Instance t_eq_dec : EqDecision t.
Proof. solve_decision. Defined.
End StreamBlockKind.
Export (hints) StreamBlockKind.

Record StreamState : Type := mkStreamState {
  stream_item_id : string;
  block_kind : gmap N StreamBlockKind.t;
  streamed_text : bool;
  streamed_thinking : bool;
}.

Record ClaudeAdapter : Type := mkClaudeAdapter {
  buf : list Byte.byte;
  stream : StreamState;
}.

Definition new_stream : StreamState := mkStreamState "" ∅ false false.
Definition new_adapter : ClaudeAdapter := mkClaudeAdapter [] new_stream.

Definition set_streamed_text (s : StreamState) : StreamState :=
  mkStreamState (stream_item_id s) (block_kind s) true (streamed_thinking s).
Definition set_streamed_thinking (s : StreamState) : StreamState :=
  mkStreamState (stream_item_id s) (block_kind s) (streamed_text s) true.
Definition set_block_kind (i : N) (k : StreamBlockKind.t) (s : StreamState) : StreamState :=
  mkStreamState (stream_item_id s) (<[i := k]> (block_kind s)) (streamed_text s) (streamed_thinking s).

(** ** Modes *)
Definition CLAUDE_PERMISSION_MODE_IDS : list string :=
  ["default"; "acceptEdits"; "bypassPermissions"; "plan"; "dontAsk"; "auto"].

Definition is_valid_claude_permission_mode (mode : string) : bool :=
  existsb (String.eqb mode) CLAUDE_PERMISSION_MODE_IDS.

Definition claude_permission_modes : list ModeInfo :=
  map (fun '(id, name, description) => mkModeInfo id name (Some description))
    [("default", "默认", "标准行为，执行危险操作前会请求确认");
     ("acceptEdits", "接受编辑", "自动接受文件编辑操作");
     ("plan", "计划模式", "仅制定计划，不实际执行工具");
     ("dontAsk", "不询问", "不请求权限，未预先允许的操作将被拒绝");
     ("bypassPermissions", "跳过权限检查", "跳过所有权限检查")].

Definition stream_item_key (item_id : string) (kind : StreamBlockKind.t) : string :=
  match kind with
  | StreamBlockKind.Text => item_id +:+ ":text"
  | StreamBlockKind.Thinking => item_id +:+ ":think"
  | StreamBlockKind.Other => item_id
  end.

(** ** Tool output *)
Definition TOOL_TEXT_CAP : nat := 16 * 1024.

Definition cap_text (s : string) : string :=
  if (TOOL_TEXT_CAP <? String.length s)%nat
  then of_bytes (take (floor_char_boundary (bytes s) TOOL_TEXT_CAP) (bytes s)) +:+ "…[truncated]"
  else s.

(** [n as u16] and the sum of four [u64], which wraps in a release build. *)
Definition as_u16 (n : N) : N := (n mod 2 ^ 16)%N.
Definition u64_wrapping_add (a b : N) : N := ((a + b) mod 2 ^ 64)%N.

Section Parse.
Context `{SerdeJson} `{Base64}.
Local Open Scope string_scope.

Definition parse_tool_result_block (el : Value) : option ToolResultContent.t :=
  match v_get "type" el ≫= as_str with
  | Some ty =>
      if ty =? "text" then
        (fun t => ToolResultContent.Text (cap_text t)) <$> (v_get "text" el ≫= as_str)
      else if ty =? "image" then
        src ← v_get "source" el;
        if bool_decide (v_get "type" src ≫= as_str = Some "base64") then
          media_type ← v_get "media_type" src ≫= as_str;
          b64 ← v_get "data" src ≫= as_str;
          data ← b64_decode b64;
          Some (ToolResultContent.Image media_type data)
        else None
      else None
  | None => None
  end.

Definition parse_tool_result_content (content : option Value) : list ToolResultContent.t :=
  match content with
  | Some v =>
      match as_str v with
      | Some s => [ToolResultContent.Text (cap_text s)]
      | None =>
          match as_array v with
          | Some arr => omap parse_tool_result_block arr
          | None => []
          end
      end
  | None => []
  end.

(** ** Frames *)
Definition parse_system (v : Value) : list (SessionEvent Value) :=
  let subtype := text_of (v_get "subtype" v) in
  if subtype =? "init" then []
  else if (subtype =? "api_retry") || (subtype =? "compact_boundary") || (subtype =? "compacting")
  then [Heartbeat]
  else [AdapterSpecific ("system/" +:+ subtype) v].

Definition parse_assistant_block (item_id : string) (parent : option string)
    (streamed_text streamed_thinking : bool) (b : Value) : list (SessionEvent Value) :=
  let ty := text_of (v_get "type" b) in
  if ty =? "text" then
    if streamed_text then []
    else [MessageDelta (stream_item_key item_id StreamBlockKind.Text) (text_of (v_get "text" b))]
  else if ty =? "thinking" then
    if streamed_thinking then []
    else [ThoughtDelta (stream_item_key item_id StreamBlockKind.Thinking) (text_of (v_get "thinking" b))]
  else if ty =? "tool_use" then
    let name := text_of (v_get "name" b) in
    if str_trim name =? "" then []
    else [ToolCall (text_of (v_get "id" b)) name SubagentKind.Inline (default Null (v_get "input" b)) parent]
  else [AdapterSpecific ("assistant/" +:+ ty) b].

Definition parse_assistant (s : StreamState) (v : Value) : list (SessionEvent Value) :=
  let msg := v_get "message" v in
  let item_id := text_of (field "id" msg) in
  let parent_tool_use_id := v_get "parent_tool_use_id" v ≫= as_str in
  let blocks := array_of (field "content" msg) in
  let same := stream_item_id s =? item_id in
  concat (map (parse_assistant_block item_id parent_tool_use_id
    (same && streamed_text s) (same && streamed_thinking s)) blocks).

Definition parse_user (v : Value) : list (SessionEvent Value) :=
  let parent_tool_use_id := v_get "parent_tool_use_id" v ≫= as_str in
  let blocks := array_of (field "content" (v_get "message" v)) in
  omap (fun b =>
    if bool_decide (v_get "type" b ≫= as_str = Some "tool_result") then
      Some (ToolResult (text_of (v_get "tool_use_id" b)) (bool_of (v_get "is_error" b))
        (parse_tool_result_content (v_get "content" b)) parent_tool_use_id)
    else None) blocks.

Definition result_outcome (v : Value) : TurnOutcome.t :=
  let reason :=
    match v_get "terminal_reason" v ≫= as_str with
    | Some r => r
    | None => text_of (v_get "stop_reason" v)
    end in
  if (reason =? "cancelled") || (reason =? "aborted_streaming") || (reason =? "aborted_tools") then
    TurnOutcome.Cancelled CancelReason.UserCancel
  else if (reason =? "max_tokens") || (reason =? "prompt_too_long") then
    TurnOutcome.Completed (StopReason.Truncated TruncationKind.MaxTokens)
  else if reason =? "max_turns" then
    TurnOutcome.Completed (StopReason.Truncated TruncationKind.MaxTurns)
  else if reason =? "refusal" then
    TurnOutcome.Completed (StopReason.Refused None)
  else TurnOutcome.Completed StopReason.EndTurn.

(** [!e.trim_start().starts_with("[ede_diagnostic]")] *)
Definition trim_start (s : string) : string := of_bytes (drop_spaces space_front 0 (bytes s)).
Definition is_diagnostic (e : string) : bool := String.prefix "[ede_diagnostic]" (trim_start e).

Fixpoint join (sep : string) (l : list string) : string :=
  match l with
  | [] => ""
  | [s] => s
  | s :: l' => s +:+ sep +:+ join sep l'
  end.

Definition result_errors (v : Value) : string :=
  join "; " (List.filter (fun e => negb (is_diagnostic e)) (omap as_str (array_of (v_get "errors" v)))).

Definition result_text_of (v : Value) : string :=
  let is_error := bool_of (v_get "is_error" v) in
  let from_errors :=
    if (result_errors v =? "") && is_error then text_of (v_get "subtype" v) else result_errors v in
  match v_get "result" v ≫= as_str with
  | Some s => if s =? "" then from_errors else s
  | None => from_errors
  end.

Definition result_usage (v : Value) : list (SessionEvent Value) :=
  match v_get "usage" v with
  | Some usage =>
      if is_object usage then
        let get k := default 0%N (v_get k usage ≫= as_u64) in
        let input_tokens := get "input_tokens" in
        let output_tokens := get "output_tokens" in
        let cache_creation := get "cache_creation_input_tokens" in
        let cache_read := get "cache_read_input_tokens" in
        let total_tokens :=
          default
            (u64_wrapping_add (u64_wrapping_add (u64_wrapping_add input_tokens output_tokens) cache_creation)
               cache_read)
            (v_get "total_tokens" usage ≫= as_u64) in
        [UsageDelta input_tokens output_tokens total_tokens (v_get "total_cost_usd" v ≫= as_f64)]
      else []
  | None => []
  end.

Definition parse_result (v : Value) : list (SessionEvent Value) :=
  TurnResult (bool_of (v_get "is_error" v)) (as_u16 <$> (v_get "api_error_status" v ≫= as_u64))
    (result_text_of v) 0 (result_outcome v) :: result_usage v.

(** *** [parse_stream_event] *)
Definition message_start (event : option Value) : StreamState :=
  mkStreamState (text_of (field "id" (field "message" event))) ∅ false false.

Definition content_block_start (event : option Value) (s : StreamState) : StreamState :=
  match u64_of (field "index" event) with
  | Some index =>
      let ty := text_of (field "type" (field "content_block" event)) in
      let kind :=
        if ty =? "text" then StreamBlockKind.Text
        else if ty =? "thinking" then StreamBlockKind.Thinking else StreamBlockKind.Other in
      set_block_kind index kind s
  | None => s
  end.

Definition content_block_delta (event : option Value) (s : StreamState) : list (SessionEvent Value) * StreamState :=
  let kind := u64_of (field "index" event) ≫= fun i => block_kind s !! i in
  let delta := field "delta" event in
  let delta_ty := text_of (field "type" delta) in
  match kind with
  | Some StreamBlockKind.Text =>
      if delta_ty =? "text_delta" then
        let text := text_of (field "text" delta) in
        if text =? "" then ([], s)
        else ([MessageDelta (stream_item_key (stream_item_id s) StreamBlockKind.Text) text], set_streamed_text s)
      else ([], s)
  | Some StreamBlockKind.Thinking =>
      if delta_ty =? "thinking_delta" then
        let text := text_of (field "thinking" delta) in
        if text =? "" then ([], s)
        else ([ThoughtDelta (stream_item_key (stream_item_id s) StreamBlockKind.Thinking) text],
              set_streamed_thinking s)
      else ([], s)
  | _ => ([], s)
  end.

Definition message_delta (event : option Value) : list (SessionEvent Value) :=
  let stop_reason := text_of (field "stop_reason" (field "delta" event)) in
  if (stop_reason =? "") || (stop_reason =? "tool_use") then []
  else [TurnResult false None "" 0 (result_outcome (default Null (field "delta" event)))].

Definition parse_stream_event (s : StreamState) (v : Value) : list (SessionEvent Value) * StreamState :=
  let event := v_get "event" v in
  let sub_ty := text_of (field "type" event) in
  if sub_ty =? "message_start" then ([], message_start event)
  else if sub_ty =? "content_block_start" then ([], content_block_start event s)
  else if sub_ty =? "content_block_delta" then content_block_delta event s
  else if (sub_ty =? "content_block_stop") || (sub_ty =? "message_stop") then ([], s)
  else if sub_ty =? "message_delta" then (message_delta event, s)
  else ([AdapterSpecific ("stream_event/" +:+ sub_ty) v], s).

Definition parse_control_request (v : Value) : list (SessionEvent Value) :=
  let request := v_get "request" v in
  let subtype := text_of (field "subtype" request) in
  let request_id := text_of (v_get "request_id" v) in
  if (subtype =? "can_use_tool") && negb (request_id =? "") then
    let tool_name := str_of (field "tool_name" request) in
    let input :=
      if bool_decide (tool_name = Some "AskUserQuestion") then field "input" request else None in
    [Permission request_id PermissionKind.Tool None tool_name input]
  else [AdapterSpecific ("control_request/" +:+ subtype) v].

Definition parse_control_cancel_request (v : Value) : list (SessionEvent Value) :=
  match v_get "request_id" v ≫= as_str with
  | Some id =>
      if id =? "" then [AdapterSpecific "control_cancel_request" v]
      else [PermissionResolved id PermissionKind.Tool]
  | None => [AdapterSpecific "control_cancel_request" v]
  end.

Definition parse_value (s : StreamState) (v : Value) : list (SessionEvent Value) * StreamState :=
  let ty := text_of (v_get "type" v) in
  if ty =? "system" then (parse_system v, s)
  else if ty =? "assistant" then (parse_assistant s v, s)
  else if ty =? "user" then (parse_user v, s)
  else if ty =? "result" then (parse_result v, s)
  else if ty =? "control_request" then (parse_control_request v, s)
  else if ty =? "control_cancel_request" then (parse_control_cancel_request v, s)
  else if ty =? "stream_event" then parse_stream_event s v
  else ([AdapterSpecific ty v], s).

(** ** Framing *)
Definition Frame : Type := option Value * list (SessionEvent Value).
Definition newline (b : Byte.byte) : bool := Byte.eqb b Byte.x0a.

(** One line, without or with its newline: [tag] names what no value could be
    parsed from. *)
Definition parse_line (tag : string) (s : StreamState) (line : list Byte.byte) : list Frame * StreamState :=
  let trimmed := str_trim (from_utf8_lossy line) in
  if trimmed =? "" then ([], s)
  else
    match from_str trimmed with
    | Some v => let '(events, s) := parse_value s v in ([(Some v, events)], s)
    | None => ([(None, [AdapterSpecific tag (v_str trimmed)])], s)
    end.

(** [self.buf.drain(..=nl)], if there is a newline. *)
Fixpoint drain_line (b : list Byte.byte) : option (list Byte.byte * list Byte.byte) :=
  match b with
  | [] => None
  | x :: b' =>
      if newline x then Some ([x], b')
      else '(line, rest) ← drain_line b'; Some (x :: line, rest)
  end.

(** The [while] loop; every line drained is a byte less to go. *)
Fixpoint frame_loop (fuel : nat) (a : ClaudeAdapter) : list Frame * ClaudeAdapter :=
  match fuel with
  | 0 => ([], a)
  | S fuel =>
      match drain_line (buf a) with
      | Some (line, rest) =>
          let '(out, s) := parse_line "malformed_json" (stream a) line in
          let '(out', a') := frame_loop fuel (mkClaudeAdapter rest s) in
          ((out ++ out')%list, a')
      | None => ([], a)
      end
  end.

Definition frame_lines (a : ClaudeAdapter) (chunk : list Byte.byte) : list Frame * ClaudeAdapter :=
  let b := (buf a ++ chunk)%list in
  frame_loop (length b) (mkClaudeAdapter b (stream a)).

Definition flush_tail (a : ClaudeAdapter) : list Frame * ClaudeAdapter :=
  let '(out, s) := parse_line "truncated_tail" (stream a) (buf a) in
  (out, mkClaudeAdapter [] s).

Definition parse_chunk (a : ClaudeAdapter) (chunk : list Byte.byte) : list (SessionEvent Value) * ClaudeAdapter :=
  let '(out, a) := frame_lines a chunk in (concat (map snd out), a).

(** ** Writing *)
Definition prompt_block (b : ContentBlock.t) : option Value :=
  match b with
  | ContentBlock.Text t => Some (v_obj [("type", v_str "text"); ("text", v_str t)])
  | ContentBlock.Image data media_type =>
      Some (v_obj [("type", v_str "image");
        ("source", v_obj [("type", v_str "base64"); ("media_type", v_str media_type);
                          ("data", v_str (b64_encode data))])])
  | ContentBlock.ResourceLink uri _ =>
      Some (v_obj [("type", v_str "text"); ("text", v_str ("[Attached file: " +:+ uri +:+ "]"))])
  | _ => None
  end.

Definition prompt_line (content : list ContentBlock.t) (client_msg_id : option string) : Value :=
  let line := v_obj [("type", v_str "user");
    ("message", v_obj [("role", v_str "user"); ("content", v_arr (omap prompt_block content))])] in
  match client_msg_id with
  | Some id => map_insert "uuid" (v_str id) line
  | None => line
  end.

(** [write_ndjson_line]: the bytes one write puts on the standard input. *)
Definition ndjson_line (v : Value) : list Byte.byte := (into_bytes (to_string v) ++ [Byte.x0a])%list.

Definition claude_capabilities : Capabilities :=
  mkCapabilities CapabilityTier.Parsed (mkSignalSet true true true)
    (mkCommandSet false false true false true true true false false true)
    (mkBlockSet true true false true false)
    PromptAcceptedSource.Native [] claude_permission_modes None None None [] true [].

(** The arguments of the process [start_turn] spawns. *)
Definition start_args (session : LegacySessionSpec.t) (extra_args : list string) : list string :=
  (["--print"; "--input-format"; "stream-json"; "--output-format"; "stream-json"; "--verbose";
   "--include-partial-messages"; "--replay-user-messages"; "--permission-prompt-tool"; "stdio"]
  ++ match session with
     | LegacySessionSpec.Fresh id => ["--session-id"; id]
     | LegacySessionSpec.Resume id => ["--resume"; id]
     end
  ++ extra_args)%list.

Definition start_spec (session : LegacySessionSpec.t) (cwd : option string) (extra_args : list string)
    (env : list EnvVar) (cli_program : option string) : CommandSpec :=
  mkCommandSpec (default "claude" cli_program) (start_args session extra_args) env cwd.

End Parse.
