(* ===== verification/ClaudeFrames.v ===== *)
(** * What the claude adapter achieves *)

From S2P Require Import Prelude SessionEvent SessionState SessionReducer SessionOrchestrator SessionCommand.
From S2P Require Import SerdeJson ClaudeAdapter.
From Stdlib Require Import Floats.SpecFloat.

(** ** Framing

    The reference: a text is its complete lines, each with its newline, and
    what follows the last newline. *)
Fixpoint split_lines (b : list Byte.byte) : list (list Byte.byte) * list Byte.byte :=
  match b with
  | [] => ([], [])
  | x :: b' =>
      let '(ls, rest) := split_lines b' in
      if newline x then ([x] :: ls, rest)
      else match ls with
           | [] => ([], x :: rest)
           | l :: ls' => ((x :: l) :: ls', rest)
           end
  end.

Lemma drain_none b rest : split_lines b = ([], rest) -> drain_line b = None /\ rest = b.
Proof.
  revert rest. induction b as [|x b IH]; simpl; intros rest; [by intros [= <-]|].
  destruct (split_lines b) as [ls r]. destruct (newline x); [done|].
  destruct ls as [|l ls]; [|done]. intros [= <-]. by destruct (IH r) as [-> ->].
Qed.

Lemma drain_some b l ls rest :
  split_lines b = (l :: ls, rest) ->
  exists b', drain_line b = Some (l, b') /\ split_lines b' = (ls, rest) /\ length b' < length b.
Proof.
  revert l ls. induction b as [|x b IH]; simpl; intros l ls; [done|].
  destruct (split_lines b) as [ls0 r] eqn:E. destruct (newline x).
  - intros [= <- <- <-]. exists b. split; [done|]. split; [done|lia].
  - destruct ls0 as [|l0 ls0]; [done|]. intros [= <- <- <-].
    destruct (IH l0 ls0) as (b' & -> & Hs & Hl); [done|]. exists b'. split; [done|]. split; [done|lia].
Qed.

Lemma split_rest b ls rest : split_lines b = (ls, rest) -> split_lines rest = ([], rest).
Proof.
  revert ls rest. induction b as [|x b IH]; simpl; intros ls rest; [by intros [= <- <-]|].
  destruct (split_lines b) as [ls0 r] eqn:E. destruct (newline x) eqn:En.
  - intros [= <- <-]. by apply (IH ls0).
  - destruct ls0; intros [= <- <-]; [|by eapply IH]. simpl. by rewrite (IH [] r), En.
Qed.

Lemma split_app b1 b2 :
  split_lines (b1 ++ b2) =
    let '(l1, r1) := split_lines b1 in
    let '(l2, r2) := split_lines (r1 ++ b2) in (l1 ++ l2, r2).
Proof.
  induction b1 as [|x b1 IH]; [by simpl; destruct (split_lines b2)|].
  cbn [app split_lines]. rewrite IH. destruct (split_lines b1) as [l1 r1].
  destruct (newline x) eqn:En.
  - by destruct (split_lines (r1 ++ b2)).
  - destruct l1 as [|l l1]; cbn [app split_lines]; destruct (split_lines (r1 ++ b2)) as [l2 r2]; [rewrite En; by destruct l2|done].
Qed.

Section Framing.
Context `{SerdeJson} `{Base64}.

Fixpoint parse_lines (s : StreamState) (ls : list (list Byte.byte)) : list Frame * StreamState :=
  match ls with
  | [] => ([], s)
  | l :: ls' =>
      let '(out, s) := parse_line "malformed_json" s l in
      let '(out', s) := parse_lines s ls' in (out ++ out', s)
  end.

Lemma parse_lines_app s ls ls' :
  parse_lines s (ls ++ ls') =
    let '(out, s1) := parse_lines s ls in
    let '(out', s2) := parse_lines s1 ls' in (out ++ out', s2).
Proof.
  revert s. induction ls as [|l ls IH]; intros s; simpl; [by destruct (parse_lines s ls')|].
  destruct (parse_line _ s l) as [o s1]. rewrite IH. destruct (parse_lines s1 ls) as [o1 s2].
  destruct (parse_lines s2 ls') as [o2 s3]. by rewrite app_assoc.
Qed.

(** The loop has fuel for every line. *)
Lemma frame_loop_lines fuel a ls rest :
  length (buf a) <= fuel -> split_lines (buf a) = (ls, rest) ->
  frame_loop fuel a =
    (fst (parse_lines (stream a) ls), mkClaudeAdapter rest (snd (parse_lines (stream a) ls))).
Proof.
  revert a ls. induction fuel as [|fuel IH]; intros [b s] ls Hf Hs; simpl in *.
  - destruct b; [|simpl in Hf; lia]. by injection Hs as <- <-.
  - destruct ls as [|l ls].
    + by destruct (drain_none _ _ Hs) as [-> ->].
    + destruct (drain_some _ _ _ _ Hs) as (b' & -> & Hs' & Hl).
      cbn [parse_lines stream]. destruct (parse_line _ s l) as [o s1].
      rewrite (IH (mkClaudeAdapter b' s1) ls) by (simpl; lia || done). simpl.
      by destruct (parse_lines s1 ls).
Qed.

Lemma frame_lines_split a chunk :
  frame_lines a chunk =
    let '(ls, rest) := split_lines (buf a ++ chunk) in
    let '(out, s) := parse_lines (stream a) ls in (out, mkClaudeAdapter rest s).
Proof.
  unfold frame_lines. destruct (split_lines (buf a ++ chunk)) as [ls rest] eqn:E.
  rewrite (frame_loop_lines _ (mkClaudeAdapter (buf a ++ chunk) (stream a)) ls rest); [|simpl; lia|done].
  simpl. by destruct (parse_lines (stream a) ls).
Qed.

(** Reading the chunks one after the other, to the end of the process. *)
Fixpoint read_chunks (a : ClaudeAdapter) (chunks : list (list Byte.byte)) : list Frame * ClaudeAdapter :=
  match chunks with
  | [] => ([], a)
  | c :: chunks' =>
      let '(out, a) := frame_lines a c in
      let '(out', a) := read_chunks a chunks' in (out ++ out', a)
  end.
Definition read_to_end (chunks : list (list Byte.byte)) : list Frame :=
  let '(out, a) := read_chunks new_adapter chunks in out ++ fst (flush_tail a).

Definition frames_of (b : list Byte.byte) : list Frame :=
  let '(ls, rest) := split_lines b in
  let '(out, s) := parse_lines new_stream ls in out ++ fst (parse_line "truncated_tail" s rest).

Lemma read_chunks_split a chunks :
  split_lines (buf a) = ([], buf a) ->
  read_chunks a chunks =
    let '(ls, rest) := split_lines (buf a ++ concat chunks) in
    let '(out, s) := parse_lines (stream a) ls in (out, mkClaudeAdapter rest s).
Proof.
  revert a. induction chunks as [|c chunks IH]; intros [b s] Hb; simpl in *.
  - rewrite app_nil_r, Hb. done.
  - rewrite frame_lines_split. simpl. rewrite app_assoc, (split_app (b ++ c)).
    destruct (split_lines (b ++ c)) as [l1 r1] eqn:E1.
    destruct (parse_lines s l1) as [o1 s1] eqn:P1.
    rewrite (IH (mkClaudeAdapter r1 s1)) by (by eapply split_rest). simpl.
    destruct (split_lines (r1 ++ concat chunks)) as [l2 r2].
    rewrite parse_lines_app, P1. by destruct (parse_lines s1 l2).
Qed.

(** C35. However the process's output is cut into chunks, mid-line or
    mid-character, the frames the adapter makes of it are the same: each
    complete line is parsed once, in order, and the half line left at the end
    is flushed. *)
Theorem chunks_do_not_matter (chunks : list (list Byte.byte)) :
  read_to_end chunks = frames_of (concat chunks).
Proof.
  unfold read_to_end, frames_of. rewrite read_chunks_split by done. simpl buf. simpl app.
  destruct (split_lines (concat chunks)) as [ls rest]. simpl stream.
  destruct (parse_lines new_stream ls) as [out s]. unfold flush_tail. simpl.
  by destruct (parse_line _ s rest).
Qed.

End Framing.

(** ** What is written is read back, one frame a line *)
Section RoundTrip.
Context `{SerdeJsonOk} `{Base64Ok}.

Lemma ndjson_split v b :
  split_lines (ndjson_line v ++ b) =
    let '(ls, rest) := split_lines b in (ndjson_line v :: ls, rest).
Proof.
  unfold ndjson_line. pose proof (to_string_one_line v) as Hv. rewrite <- into_bytes_N in Hv.
  induction (into_bytes (to_string v)) as [|x l IH]; cbn [app split_lines].
  - by destruct (split_lines b).
  - assert (Hx : newline x = false).
    { unfold newline. destruct (Byte.eqb x Byte.x0a) eqn:E; [|done].
      apply Byte.byte_dec_bl in E as ->. destruct Hv. by left. }
    rewrite <- app_assoc in *. rewrite IH, Hx by (intros Hin; apply Hv; by right). by destruct (split_lines b).
Qed.

Lemma ndjson_parse tag s v :
  plain RECURSION_LIMIT v ->
  parse_line tag s (ndjson_line v) = ([(Some v, fst (parse_value s v))], snd (parse_value s v)).
Proof.
  intros Hp. unfold parse_line, ndjson_line, from_utf8_lossy.
  rewrite map_app, into_bytes_N. simpl (map _ [_]).
  rewrite lossy_utf8 by apply utf8_newline, to_string_utf8.
  rewrite trim_line by apply to_string_front || apply to_string_back.
  assert (Hn : (to_string v =? "")%string = false).
  { apply String.eqb_neq. intros E. pose proof (proj1 (to_string_front v)) as Hf. by rewrite E in Hf. }
  rewrite Hn, from_to by done. by destruct (parse_value s v).
Qed.

Definition seen (b : ContentBlock.t) : ContentBlock.t :=
  match b with
  | ContentBlock.ResourceLink uri _ => ContentBlock.Text ("[Attached file: " +:+ uri +:+ "]")
  | b => b
  end.

(** The other end: what a reader of the frame finds in it. *)
Definition read_block (v : Value) : option ContentBlock.t :=
  let ty := text_of (v_get "type" v) in
  if (ty =? "text")%string then Some (ContentBlock.Text (text_of (v_get "text" v)))
  else if (ty =? "image")%string then
    let source := v_get "source" v in
    data ← b64_decode (text_of (field "data" source));
    Some (ContentBlock.Image data (text_of (field "media_type" source)))
  else None.
Definition read_prompt (v : Value) : list ContentBlock.t * option string :=
  (omap read_block (array_of (field "content" (v_get "message" v))), str_of (v_get "uuid" v)).

Lemma read_written b :
  allows (prompt_blocks claude_capabilities) b = true ->
  exists v, prompt_block b = Some v /\ read_block v = Some (seen b) /\ plain 3 v.
Proof.
  intros Hb. destruct b as [t|data mt| |uri mime|]; try done; eexists; (split; [reflexivity|split]).
  - unfold read_block. by read_json.
  - apply plain_obj. intros k v [[= <- <-]|[[= <- <-]|[]]]; constructor.
  - unfold read_block. read_json. by rewrite b64_round.
  - apply plain_obj. intros k v [[= <- <-]|[[= <- <-]|[]]]; [constructor|].
    apply plain_obj. intros k v [[= <- <-]|[[= <- <-]|[[= <- <-]|[]]]]; constructor.
  - unfold read_block. by read_json.
  - apply plain_obj. intros k v [[= <- <-]|[[= <- <-]|[]]]; constructor.
Qed.

Lemma read_content c :
  forallb (allows (prompt_blocks claude_capabilities)) c = true ->
  omap read_block (omap prompt_block c) = map seen c /\ forall v, In v (omap prompt_block c) -> plain 3 v.
Proof.
  induction c as [|b c IH]; [done|]. csimpl. intros [Hb Hc]%andb_true_iff.
  destruct (read_written b Hb) as (v & -> & Hr & Hp), (IH Hc) as [IH1 IH2]. csimpl. rewrite Hr, IH1.
  split; [done|]. intros v' [->|Hin]; auto.
Qed.

Lemma plain_more n m v : plain n v -> n <= m -> plain m v.
Proof.
  intros Hv. revert m. induction Hv as [n s|n l _ IH|n l _ IH]; intros m Hm; [constructor| |];
    (destruct m as [|m]; [lia|]); constructor; intros; eapply IH; (done || lia).
Qed.

Lemma prompt_line_read c i :
  forallb (allows (prompt_blocks claude_capabilities)) c = true ->
  read_prompt (prompt_line c i) = (map seen c, i) /\ plain RECURSION_LIMIT (prompt_line c i).
Proof.
  intros Hc. destruct (read_content c Hc) as [Hr Hp]. unfold prompt_line.
  set (line := v_obj _).
  assert (Hl : plain 6 line).
  { apply plain_obj. intros k v [[= <- <-]|[[= <- <-]|[]]]; [constructor|].
    apply plain_obj. intros k v [[= <- <-]|[[= <- <-]|[]]]; [constructor|].
    apply plain_arr. done. }
  assert (Hg : read_prompt line = (map seen c, None)) by (unfold read_prompt, line; read_json; by rewrite Hr).
  assert (Ho : is_object line = true) by apply obj_is_object.
  destruct i as [id|]; (split; [|apply (plain_more 6); [|unfold RECURSION_LIMIT; lia]]).
  - unfold read_prompt in *. rewrite !get_insert by done. simpl (_ =? _)%string. cbv iota.
    injection Hg as -> _. by read_json.
  - apply insert_plain; [done|done|constructor].
  - done.
  - done.
Qed.

(** C36. Prompts survive the wire: write any prompts of blocks the adapter
    declares, whatever their texts contain (newlines, quotes, white space),
    and the reader finds one frame for each, in order, with the same texts,
    images and message ids, a file as the text that names it. *)
Theorem prompt_round_trip (prompts : list (list ContentBlock.t * option string)) :
  (forall c i, In (c, i) prompts -> forallb (allows (prompt_blocks claude_capabilities)) c = true) ->
  map (fun f => read_prompt <$> fst f)
    (read_to_end [concat (map (fun '(c, i) => ndjson_line (prompt_line c i)) prompts)]) =
  map (fun '(c, i) => Some (map seen c, i)) prompts.
Proof.
  intros Hall. unfold read_to_end. simpl read_chunks.
  rewrite frame_lines_split. simpl buf. simpl app.
  assert (Hs : split_lines (concat (map (fun '(c, i) => ndjson_line (prompt_line c i)) prompts)) =
    (map (fun '(c, i) => ndjson_line (prompt_line c i)) prompts, [])).
  { clear Hall. induction prompts as [|[c i] l IH]; [done|]. simpl. by rewrite ndjson_split, IH. }
  rewrite Hs. simpl stream. generalize new_stream. clear Hs.
  induction prompts as [|[c i] l IH]; intros s; simpl; [done|].
  destruct (prompt_line_read c i) as [Hr Hp]; [apply (Hall c i); by left|].
  rewrite (ndjson_parse _ _ _ Hp). simpl. specialize (IH (fun c i Hin => Hall c i (or_intror Hin)) (snd (parse_value s (prompt_line c i)))).
  destruct (parse_lines _ _) as [out s1]. simpl in *. rewrite Hr. by f_equal.
Qed.

End RoundTrip.

(** ** A message arrives once

    The wire of one message: it starts; each block starts, its text comes in
    fragments if its kind is streamed, it stops, and the frame [assistant]
    repeats it whole; the message stops. *)
Module WireBlock.
Inductive t (Value : Type) : Type :=
| Prose (thinking : bool) (index : N) (fragments : list string) (text : string)
| ToolUse (index : N) (id name : string) (input : Value).
Arguments Prose {Value}.
Arguments ToolUse {Value}.
End WireBlock.

Section Message.
Context `{SerdeJsonOk} `{Base64}.

Definition stream_event (fields : list (string * Value)) : Value :=
  v_obj [("type", v_str "stream_event"); ("event", v_obj fields)].
Definition assistant (id : string) (block : list (string * Value)) : Value :=
  v_obj [("type", v_str "assistant");
         ("message", v_obj [("id", v_str id); ("content", v_arr [v_obj block])])].

Definition prose_type (thinking : bool) : string := if thinking then "thinking" else "text".
Definition start_frame (i : N) (ty : string) : Value :=
  stream_event [("type", v_str "content_block_start"); ("index", v_num i);
    ("content_block", v_obj [("type", v_str ty)])].
Definition delta_frame (thinking : bool) (i : N) (s : string) : Value :=
  stream_event [("type", v_str "content_block_delta"); ("index", v_num i);
    ("delta", v_obj [("type", v_str (prose_type thinking +:+ "_delta")); (prose_type thinking, v_str s)])].
Definition stop_frame (i : N) : Value :=
  stream_event [("type", v_str "content_block_stop"); ("index", v_num i)].

Definition block_frames (id : string) (b : WireBlock.t Value) : list Value :=
  match b with
  | WireBlock.Prose thinking i fs t =>
      start_frame i (prose_type thinking) :: map (delta_frame thinking i) fs ++
      [stop_frame i; assistant id [("type", v_str (prose_type thinking)); (prose_type thinking, v_str t)]]
  | WireBlock.ToolUse i tid name input =>
      [start_frame i "tool_use"; stop_frame i;
       assistant id [("type", v_str "tool_use"); ("id", v_str tid); ("name", v_str name); ("input", input)]]
  end.

Definition message_frames (id stop_reason : string) (blocks : list (WireBlock.t Value)) : list Value :=
  stream_event [("type", v_str "message_start"); ("message", v_obj [("id", v_str id)])]
  :: concat (map (block_frames id) blocks)
  ++ [stream_event [("type", v_str "message_delta"); ("delta", v_obj [("stop_reason", v_str stop_reason)])];
      stream_event [("type", v_str "message_stop")]].

Definition joined (l : list string) : string := fold_right String.append "" l.

(** A kind of block is streamed or not; if it is, its fragments make its text. *)
Definition block_ok (live : bool -> bool) (b : WireBlock.t Value) : Prop :=
  match b with
  | WireBlock.Prose thinking i fs t =>
      (i <= u64_max)%N /\ if live thinking then joined fs = t else fs = []
  | WireBlock.ToolUse _ _ _ _ => True
  end.

Fixpoint parse_values (s : StreamState) (vs : list Value) : list (SessionEvent Value) * StreamState :=
  match vs with
  | [] => ([], s)
  | v :: vs' =>
      let '(es, s) := parse_value s v in
      let '(es', s) := parse_values s vs' in (es ++ es', s)
  end.

(** What a list of events says: its text, its thoughts and its calls. *)
Definition text_said (id : string) (e : SessionEvent Value) : string :=
  match e with MessageDelta k t => if (k =? stream_item_key id StreamBlockKind.Text)%string then t else "" | _ => "" end.
Definition thought_said (id : string) (e : SessionEvent Value) : string :=
  match e with ThoughtDelta k t => if (k =? stream_item_key id StreamBlockKind.Thinking)%string then t else "" | _ => "" end.
Definition call_said (e : SessionEvent Value) : option (string * string * Value) :=
  match e with ToolCall id name _ input _ => Some (id, name, input) | _ => None end.
Definition said (id : string) (es : list (SessionEvent Value)) : string * string * list (string * string * Value) :=
  (joined (map (text_said id) es), joined (map (thought_said id) es), omap call_said es).

Definition prose_said (thinking : bool) (t : string) : string * string * list (string * string * Value) :=
  if thinking then ("", t, []) else (t, "", []).
Definition block_said (b : WireBlock.t Value) : string * string * list (string * string * Value) :=
  match b with
  | WireBlock.Prose thinking _ _ t => prose_said thinking t
  | WireBlock.ToolUse _ id name input => ("", "", if (str_trim name =? "")%string then [] else [(id, name, input)])
  end.
Definition say (a b : string * string * list (string * string * Value)) :=
  (a.1.1 +:+ b.1.1, a.1.2 +:+ b.1.2, a.2 ++ b.2).
Definition message_said (blocks : list (WireBlock.t Value)) := foldr say ("", "", []) (map block_said blocks).

Lemma joined_app l l' : joined (l ++ l') = joined l +:+ joined l'.
Proof. induction l as [|s l IH]; [done|]. simpl. rewrite IH. apply str_app_assoc. Qed.

Lemma said_app id es es' : said id (es ++ es') = say (said id es) (said id es').
Proof. unfold said, say. simpl. by rewrite !map_app, !joined_app, omap_app. Qed.

Lemma parse_values_app s vs vs' :
  parse_values s (vs ++ vs') =
    let '(es, s1) := parse_values s vs in
    let '(es', s2) := parse_values s1 vs' in (es ++ es', s2).
Proof.
  revert s. induction vs as [|v vs IH]; intros s; simpl; [by destruct (parse_values s vs')|].
  destruct (parse_value s v) as [e s1]. rewrite IH. destruct (parse_values s1 vs) as [e1 s2].
  destruct (parse_values s2 vs') as [e2 s3]. by rewrite app_assoc.
Qed.

(** *** The frames of a block *)
Definition kind_of (thinking : bool) : StreamBlockKind.t :=
  if thinking then StreamBlockKind.Thinking else StreamBlockKind.Text.
Definition streamed (thinking : bool) (s : StreamState) : bool :=
  if thinking then streamed_thinking s else streamed_text s.
Definition set_streamed (thinking : bool) (s : StreamState) : StreamState :=
  if thinking then set_streamed_thinking s else set_streamed_text s.
Definition prose_event (thinking : bool) (id t : string) : SessionEvent Value :=
  if thinking then ThoughtDelta (stream_item_key id StreamBlockKind.Thinking) t
  else MessageDelta (stream_item_key id StreamBlockKind.Text) t.

Lemma prose_event_said th id t : said id [prose_event th id t] = prose_said th t.
Proof.
  by destruct th; unfold said; simpl; rewrite String.eqb_refl, !str_app_nil.
Qed.

Lemma say_prose th a b : say (prose_said th a) (prose_said th b) = prose_said th (a +:+ b).
Proof. by destruct th. Qed.
Lemma say_nil_l p : say ("", "", []) p = p.
Proof. by destruct p as [[a b] c]. Qed.
Lemma say_nil_r p : say p ("", "", []) = p.
Proof. destruct p as [[a b] c]. unfold say. simpl. by rewrite !str_app_nil, app_nil_r. Qed.

Lemma parse_start s i ty :
  (i <= u64_max)%N ->
  parse_value s (start_frame i ty) = ([], set_block_kind i
    (if (ty =? "text")%string then StreamBlockKind.Text
     else if (ty =? "thinking")%string then StreamBlockKind.Thinking else StreamBlockKind.Other) s).
Proof.
  intros Hi. unfold parse_value, start_frame, stream_event. read_json.
  unfold parse_stream_event. read_json. unfold content_block_start. read_json. by rewrite as_u64_num.
Qed.

Lemma parse_stop s i : parse_value s (stop_frame i) = ([], s).
Proof. unfold parse_value, stop_frame, stream_event. read_json. unfold parse_stream_event. by read_json. Qed.

Lemma parse_delta s th i t :
  (i <= u64_max)%N -> block_kind s !! i = Some (kind_of th) ->
  parse_value s (delta_frame th i t) =
    if (t =? "")%string then ([], s) else ([prose_event th (stream_item_id s) t], set_streamed th s).
Proof.
  intros Hi Hk. unfold parse_value, delta_frame, stream_event. read_json.
  unfold parse_stream_event. read_json. unfold content_block_delta. read_json.
  rewrite as_u64_num by done. cbn. rewrite Hk. destruct th; read_json; cbn; by read_json.
Qed.

Lemma parse_repeat s th id t :
  stream_item_id s = id ->
  parse_value s (assistant id [("type", v_str (prose_type th)); (prose_type th, v_str t)]) =
    ((if streamed th s then [] else [prose_event th id t]), s).
Proof.
  intros <-. unfold parse_value, assistant. read_json. unfold parse_assistant. read_json.
  cbn [map concat]. unfold parse_assistant_block. rewrite String.eqb_refl.
  destruct th; read_json; cbn; read_json; rewrite app_nil_r; by destruct (_ s).
Qed.

Lemma parse_call s id tid name input :
  exists es, parse_value s (assistant id [("type", v_str "tool_use"); ("id", v_str tid); ("name", v_str name);
    ("input", input)]) = (es, s) /\ said id es = block_said (WireBlock.ToolUse 0 tid name input).
Proof.
  unfold parse_value, assistant. read_json. unfold parse_assistant. read_json. cbn [map concat].
  unfold parse_assistant_block. read_json. eexists. split; [reflexivity|]. rewrite app_nil_r. simpl.
  by destruct (str_trim name =? "")%string.
Qed.

Lemma set_streamed_other th s : streamed (negb th) (set_streamed th s) = streamed (negb th) s.
Proof. by destruct th. Qed.

Lemma parse_deltas th i fs id s :
  (i <= u64_max)%N -> block_kind s !! i = Some (kind_of th) -> stream_item_id s = id ->
  exists es s', parse_values s (map (delta_frame th i) fs) = (es, s') /\
    said id es = prose_said th (joined fs) /\ stream_item_id s' = id /\
    streamed th s' = streamed th s || negb (joined fs =? "")%string /\
    streamed (negb th) s' = streamed (negb th) s.
Proof.
  intros Hi. revert s. induction fs as [|f fs IH]; intros s Hk Hs; simpl.
  - exists [], s. rewrite orb_false_r. by destruct th.
  - rewrite parse_delta by done. destruct (f =? "")%string eqn:Ef.
    + apply String.eqb_eq in Ef as ->. destruct (IH s Hk Hs) as (es & s' & -> & Hes). by exists es, s'.
    + destruct (IH (set_streamed th s)) as (es & s' & -> & He & Hid & Ht & Ho); [by destruct th..|].
      exists (prose_event th (stream_item_id s) f :: es), s'. split; [done|]. split.
      * change (prose_event th (stream_item_id s) f :: es) with ([prose_event th (stream_item_id s) f] ++ es).
        rewrite said_app, He, Hs, prose_event_said. apply say_prose.
      * split; [done|]. rewrite Ht, Ho, set_streamed_other. split; [|done].
        destruct f as [|a f]; [done|]. rewrite str_app_cons. by destruct th; rewrite orb_true_r.
Qed.

(** Nothing of an unstreamed kind was streamed. *)
Definition streaming (live : bool -> bool) (id : string) (s : StreamState) : Prop :=
  stream_item_id s = id /\ forall th, live th = false -> streamed th s = false.

Lemma parse_block live id b s :
  block_ok live b -> streaming live id s ->
  exists es s', parse_values s (block_frames id b) = (es, s') /\
    said id es = block_said b /\ streaming live id s'.
Proof.
  intros Hb [Hid Hl]. destruct b as [th i fs t|i tid name input]; cbn [block_frames parse_values].
  - destruct Hb as [Hi Hf]. rewrite parse_start by done.
    set (s1 := set_block_kind _ _ s).
    destruct (parse_deltas th i fs id s1) as (es & s2 & Hp & He & Hid2 & Ht & Ho);
      [done|by destruct th; simpl; rewrite lookup_insert_eq|done|].
    rewrite parse_values_app, Hp. cbn [parse_values]. rewrite parse_stop, parse_repeat by done.
    eexists _, s2. split; [reflexivity|].
    assert (Hth : forall th', streamed th' s1 = streamed th' s) by by intros [].
    split.
    + simpl. rewrite app_nil_r, said_app, He. cbn [block_said].
      destruct (live th) eqn:El.
      * subst t. rewrite Ht. destruct (streamed th s1 || _) eqn:Es; [apply say_nil_r|].
        apply orb_false_elim in Es as [_ Es%negb_false_iff%String.eqb_eq].
        by rewrite Es, prose_event_said, say_prose.
      * subst fs. rewrite Ht, Hth, (Hl th El). simpl. by rewrite prose_event_said, say_prose.
    + split; [done|]. intros th' Hth'. destruct (bool_decide (th' = th)) eqn:E.
      * apply bool_decide_eq_true in E as ->. rewrite Hth' in Hf. subst fs. rewrite Ht, Hth, (Hl th Hth'). done.
      * assert (th' = negb th) as -> by by destruct th, th'. rewrite Ho, Hth. by apply Hl.
  - assert (Hs : exists s1, parse_value s (start_frame i "tool_use") = ([], s1) /\ streaming live id s1).
    { unfold parse_value, start_frame, stream_event. read_json. unfold parse_stream_event. read_json.
      eexists. split; [reflexivity|]. unfold content_block_start. read_json.
      by destruct (as_u64 (v_num i)). }
    destruct Hs as (s1 & -> & Hs1), (parse_call s1 id tid name input) as (es & Hc & He).
    rewrite parse_stop, Hc. exists (es ++ []), s1. by rewrite app_nil_r.
Qed.

Lemma parse_blocks live id blocks s :
  Forall (block_ok live) blocks -> streaming live id s ->
  exists es s', parse_values s (concat (map (block_frames id) blocks)) = (es, s') /\
    said id es = message_said blocks.
Proof.
  intros Hb. revert s. induction Hb as [|b bs Hb _ IH]; intros s Hs; simpl; [by exists [], s|].
  destruct (parse_block live id b s Hb Hs) as (es & s1 & Hp & He & Hs1).
  destruct (IH s1 Hs1) as (es' & s2 & Hp' & He'). rewrite parse_values_app, Hp, Hp'.
  exists (es ++ es'), s2. split; [done|]. by rewrite said_app, He, He'.
Qed.

(** C37. A message arrives once.  The text of each block may come live, in any
    fragments, before the frame that repeats the block whole, or in that frame
    only (each of text and thinking has its own way): the events say the text
    and the thoughts of the message once, neither lost nor doubled, and report
    every tool call that has a name, in order. *)
Theorem message_arrives_once (s : StreamState) (id stop_reason : string) (live : bool -> bool)
    (blocks : list (WireBlock.t Value)) :
  Forall (block_ok live) blocks ->
  said id (fst (parse_values s (message_frames id stop_reason blocks))) = message_said blocks.
Proof.
  intros Hb. unfold message_frames. cbn [parse_values].
  assert (Hstart : parse_value s (stream_event [("type", v_str "message_start");
    ("message", v_obj [("id", v_str id)])]) = ([], mkStreamState id ∅ false false)).
  { unfold parse_value, stream_event. read_json. unfold parse_stream_event. read_json. unfold message_start.
    by read_json. }
  rewrite Hstart, parse_values_app.
  destruct (parse_blocks live id blocks (mkStreamState id ∅ false false)) as (es & s2 & -> & He);
    [done|by split; [|intros []]|].
  assert (Hend : exists es', fst (parse_values s2 [stream_event [("type", v_str "message_delta");
    ("delta", v_obj [("stop_reason", v_str stop_reason)])]; stream_event [("type", v_str "message_stop")]]) = es' /\
    said id es' = ("", "", [])).
  { cbn [parse_values]. eexists. split; [reflexivity|].
    unfold parse_value, stream_event. read_json. unfold parse_stream_event. read_json.
    unfold message_delta. unfold message_delta. read_json. cbn [orb]. by destruct ((stop_reason =? "")%string || (stop_reason =? "tool_use")%string). }
  destruct Hend as (es' & Hp & He'). destruct (parse_values s2 _) as [e s3]. simpl in *. subst e.
  by rewrite said_app, He, He', say_nil_r.
Qed.

End Message.

(** ** Tool output *)
Definition marker : list N := bytes "…[truncated]".

(** Tool output is capped without breaking it: text within the cap is
    carried as it is; longer text is cut to the longest run of whole
    characters within the cap, and marked, so what is carried is text again
    and never longer than the cap and the mark. *)
Theorem tool_text_capped (s : string) :
  utf8 (bytes s) = true ->
  utf8 (bytes (cap_text s)) = true /\
  length (bytes (cap_text s)) <= TOOL_TEXT_CAP + length marker /\
  (length (bytes s) <= TOOL_TEXT_CAP -> cap_text s = s) /\
  (TOOL_TEXT_CAP < length (bytes s) -> exists kept,
     bytes (cap_text s) = take kept (bytes s) ++ marker /\
     kept <= TOOL_TEXT_CAP /\ utf8 (take kept (bytes s)) = true /\
     forall j, kept < j -> j <= TOOL_TEXT_CAP -> utf8 (take j (bytes s)) = false).
Proof.
  intros Hs. unfold cap_text. rewrite <- length_bytes.
  destruct (TOOL_TEXT_CAP <? length (bytes s)) eqn:E.
  2: { apply Nat.ltb_ge in E. split; [done|]. split; [lia|]. split; [done|lia]. }
  apply Nat.ltb_lt in E. unfold floor_char_boundary.
  replace (length (bytes s) <=? TOOL_TEXT_CAP) with false by lia.
  destruct (floor_boundary_spec (bytes s) TOOL_TEXT_CAP) as (Hle & Hb & Hj).
  set (kept := floor_boundary _ _) in *.
  assert (Hk : utf8 (take kept (bytes s)) = true).
  { rewrite utf8_take by (done || lia). destruct Hb as [E0|E0]; rewrite E0; [done|apply orb_true_r]. }
  assert (Hc : bytes (of_bytes (take kept (bytes s)) +:+ "…[truncated]") = take kept (bytes s) ++ marker).
  { rewrite bytes_app, of_bytes_bytes by apply Forall_take, bytes_small. done. }
  rewrite Hc. split; [unfold utf8; by rewrite (utf8_from_app 0 _ _ Hk)|].
  split; [rewrite length_app, length_take; lia|]. split; [lia|]. intros _. exists kept.
  split; [done|]. split; [done|]. split; [done|]. intros j Hlt Hjc.
  rewrite utf8_take by (done || lia). rewrite Hj by done. by destruct j; [lia|].
Qed.

(** ** The result of a turn *)
Section Result.
Context `{SerdeJson}.

Definition says (k : string) (v : Value) : string := text_of (v_get k v).

(** How a result frame ends the turn it belongs to.  A failed one always
    ends it with the backend's error, the flag [is_error] decides and not the
    subtype; its message is the result, else the errors that are not the
    CLI's own diagnostics, else the subtype, so it is empty only if all are.
    A successful one without a text ends a turn that showed nothing as empty,
    unless the model refused, and never carries the subtype as a text. *)
Theorem result_settles_turn (v : Value) (c : Turn) :
  let after := run_events (Running c) (parse_result v) in
  if bool_of (v_get "is_error" v) then
    after = Error (ErrorReason.Backend (as_u16 <$> (v_get "api_error_status" v ≫= as_u64)) (result_text_of v)) /\
    (result_text_of v = "" <-> says "result" v = "" /\ result_errors v = "" /\ says "subtype" v = "")
  else
    after = (if negb (saw_substantive_output c) && bool_decide (says "result" v = "" /\ result_errors v = "")
               && negb (is_refused (result_outcome v))
             then Error ErrorReason.EmptyTurn else Idle).
Proof.
  assert (Husage : forall s, (forall c', s <> Running c') -> s <> Starting ->
    run_events s (result_usage v) = s).
  { intros s Hr Hs. unfold result_usage. repeat case_match; try done.
    destruct s as [|t|r|]; [done|by destruct (Hr t)|done..]. }
  assert (Htext : result_text_of v = if (says "result" v =? "")%string then
      (if (result_errors v =? "")%string && bool_of (v_get "is_error" v) then says "subtype" v else result_errors v)
      else says "result" v).
  { unfold result_text_of, says, text_of, str_of. by destruct (v_get "result" v ≫= as_str). }
  change (run_events (Running c) (parse_result v)) with
    (run_events (fst (step_turn_result c (bool_of (v_get "is_error" v))
      (as_u16 <$> (v_get "api_error_status" v ≫= as_u64)) (result_text_of v) 0 (result_outcome v))) (result_usage v)).
  unfold step_turn_result. cbn [N.eqb negb andb]. destruct (bool_of (v_get "is_error" v)) eqn:Ee.
  - split; [by rewrite Husage|]. rewrite Htext, andb_true_r.
    destruct (String.eqb_spec (says "result" v) "") as [->|Hr];
      [destruct (String.eqb_spec (result_errors v) "") as [->|Hq]|]; naive_solver.
  - assert (Hb : bool_decide (result_text_of v = "") = bool_decide (says "result" v = "" /\ result_errors v = "")).
    { apply bool_decide_ext. rewrite Htext, andb_false_r.
      destruct (String.eqb_spec (says "result" v) "") as [->|Hr]; naive_solver. }
    rewrite Hb. destruct (negb _ && _ && _); cbn [settle fst]; by rewrite Husage.
Qed.

End Result.

(** ** Runs *)
Module FrameRuns.
Import SampleJson SampleBase64.

Definition prompts : list (list ContentBlock.t * option string) :=
  [([ContentBlock.Text ("two" +:+ of_bytes [10%N] +:+ " lines "); ContentBlock.Image [Byte.x00; Byte.xff] "image/png";
     ContentBlock.ResourceLink "notes.md" None], Some "m1");
   ([], None)].

Lemma prompts_allowed c i : In (c, i) prompts -> forallb (allows (prompt_blocks claude_capabilities)) c = true.
Proof. by intros [[= <- <-]|[[= <- <-]|[]]]. Qed.

Lemma prompt_round_trip_witness :
  map (fun f => read_prompt <$> fst f)
    (read_to_end [concat (map (fun '(c, i) => ndjson_line (prompt_line c i)) prompts)]) =
  map (fun '(c, i) => Some (map seen c, i)) prompts.
Proof. apply (prompt_round_trip prompts). exact prompts_allowed. Defined.

(** Text live in two fragments, thoughts whole, a call and a call without a name. *)
Definition blocks : list (WireBlock.t Value) :=
  [WireBlock.Prose true 0 [] "hm"; WireBlock.Prose false 1 ["an"; ""; "swer"] "answer";
   WireBlock.ToolUse 2 "t1" "Read" Null; WireBlock.ToolUse 3 "t2" " " Null].

Lemma message_arrives_once_witness :
  Forall (block_ok (fun thinking => negb thinking)) blocks /\
  said "m" (fst (parse_values new_stream (message_frames "m" "end_turn" blocks))) =
    ("answer", "hm", [("t1", "Read", Null)]).
Proof.
  assert (Hb : Forall (block_ok (fun thinking => negb thinking)) blocks).
  { unfold blocks. repeat constructor; unfold u64_max; lia. }
  split; [exact Hb|]. exact (message_arrives_once new_stream "m" "end_turn" _ blocks Hb).
Defined.

Lemma tool_text_capped_witness :
  utf8 (bytes "字") = true /\ cap_text "字" = "字".
Proof.
  assert (Hu : utf8 (bytes "字") = true) by reflexivity. split; [exact Hu|].
  apply (tool_text_capped "字" Hu). vm_compute. lia.
Defined.

(** What is streamed of a message is remembered until any message starts, and
    the frames of a subagent's stream, which carry [parent_tool_use_id], are
    not told apart: when one starts before the frame that repeats the text of
    the main message, the text is emitted a second time. *)
Definition interleaved : list Value :=
  [stream_event [("type", v_str "message_start"); ("message", v_obj [("id", v_str "main")])];
   start_frame 0 "text"; delta_frame false 0 "answer"; stop_frame 0;
   v_obj [("type", v_str "stream_event"); ("parent_tool_use_id", v_str "t1");
          ("event", v_obj [("type", v_str "message_start"); ("message", v_obj [("id", v_str "sub")])])];
   assistant "main" [("type", v_str "text"); ("text", v_str "answer")]].

Lemma interleaved_message_doubles_text :
  fst (said "main" (fst (parse_values new_stream interleaved))) = ("answeranswer", "").
Proof. vm_compute. reflexivity. Qed.

(** A permission the reader cannot answer is still asked for: the adapter does
    not look at [tool_use_id]. *)
Lemma permission_without_tool_use_id :
  parse_control_request (v_obj [("type", v_str "control_request"); ("request_id", v_str "r1");
    ("request", v_obj [("subtype", v_str "can_use_tool"); ("tool_name", v_str "Bash")])]) =
  [Permission "r1" PermissionKind.Tool None (Some "Bash") None].
Proof. vm_compute. reflexivity. Qed.

End FrameRuns.
