(* ===== verification/ClaudeReader.v ===== *)
(** * The claude reader ([reader_task] of [crates/tjuaeui-session/src/backend/claude_conn.rs])

    [ClaudeReaderState] is what a reader shares with the backend's commands
    (each field a mutex, an atomic or the broadcast channel, which is the list
    of what was sent); [sniff_frame] are the eight sniffers and the registry of
    permissions, in their order; [process_batch] handles what one read brought;
    [read_step] is one turn of the reading loop with what it may meet (bytes,
    the end of the output, an error, the startup timeout, the exit of the
    process, a panic of the parser) and the way the task ends. *)

From S2P Require Import Prelude SessionEvent SessionState SessionReducer SessionOrchestrator SessionCommand.
From S2P Require Import SerdeJson ClaudeAdapter.

(** ** Shared state *)
Record PendingPerm `{SerdeJson} : Type := mkPendingPerm {
  perm_tool_use_id : string;
  perm_tool_name : string;
  perm_input : Value;
}.

Record DiscoveredCaps : Type := mkDiscoveredCaps {
  disc_models : list ModelInfo;
  disc_slash_commands : list SlashCommandInfo;
}.

Record ClaudeReaderState `{SerdeJson} : Type := mkReaderState {
  turn_gen : N;
  event_tx : list (SessionEnvelope Value);
  pending_perms : gmap string PendingPerm;
  discovered_model : option string;
  discovered_caps : DiscoveredCaps;
  turn_in_flight : bool;
  current_mode_override : option string;
  pending_set_config : gmap string string;
}.

(** The two fields that never change. *)
Class ReaderConfig : Type := {
  reader_session_id : string;
  want_init_model : bool;
}.

Section Updates.
Context `{SerdeJson}.
Implicit Types st : ClaudeReaderState.

Definition set_turn_gen (n : N) st :=
  mkReaderState _ n (event_tx st) (pending_perms st) (discovered_model st) (discovered_caps st)
    (turn_in_flight st) (current_mode_override st) (pending_set_config st).
Definition set_event_tx (l : list (SessionEnvelope Value)) st :=
  mkReaderState _ (turn_gen st) l (pending_perms st) (discovered_model st) (discovered_caps st)
    (turn_in_flight st) (current_mode_override st) (pending_set_config st).
Definition set_perms (m : gmap string PendingPerm) st :=
  mkReaderState _ (turn_gen st) (event_tx st) m (discovered_model st) (discovered_caps st)
    (turn_in_flight st) (current_mode_override st) (pending_set_config st).
Definition set_model (o : option string) st :=
  mkReaderState _ (turn_gen st) (event_tx st) (pending_perms st) o (discovered_caps st)
    (turn_in_flight st) (current_mode_override st) (pending_set_config st).
Definition set_caps (c : DiscoveredCaps) st :=
  mkReaderState _ (turn_gen st) (event_tx st) (pending_perms st) (discovered_model st) c
    (turn_in_flight st) (current_mode_override st) (pending_set_config st).
Definition set_in_flight (b : bool) st :=
  mkReaderState _ (turn_gen st) (event_tx st) (pending_perms st) (discovered_model st) (discovered_caps st)
    b (current_mode_override st) (pending_set_config st).
Definition set_mode_override (o : option string) st :=
  mkReaderState _ (turn_gen st) (event_tx st) (pending_perms st) (discovered_model st) (discovered_caps st)
    (turn_in_flight st) o (pending_set_config st).
Definition set_set_config (m : gmap string string) st :=
  mkReaderState _ (turn_gen st) (event_tx st) (pending_perms st) (discovered_model st) (discovered_caps st)
    (turn_in_flight st) (current_mode_override st) m.

Definition new_reader_state : ClaudeReaderState :=
  mkReaderState _ 0 [] ∅ None (mkDiscoveredCaps [] []) false None ∅.
End Updates.

(** What a turn of the loop meets.  [panics] is a panic of the parser on these
    bytes, which the loop catches. *)
Module Read.
Inductive t : Type :=
| Bytes (chunk : list Byte.byte) (panics : bool)
| Eof
| ReadError
| StartupTimeout
| Exited (status : option ExitStatusLite) (drained : list (list Byte.byte * bool)).
End Read.

(** How the loop was left. *)
Record Ending : Type := mkEnding {
  hung : bool;
  panicked : bool;
  proc_exited : option (option ExitStatusLite);
}.

Section Reader.
Context `{SerdeJson} `{Base64} `{ReaderConfig}.
Local Open Scope string_scope.
Implicit Types st : ClaudeReaderState.

(** [event_tx.send] *)
Definition send (gen : N) (e : SessionEvent Value) st : ClaudeReaderState :=
  set_event_tx (event_tx st ++ [mkSessionEnvelope reader_session_id gen e])%list st.

Definition has_type (ty : string) (v : Value) : bool := bool_decide (v_get "type" v ≫= as_str = Some ty).
Definition has_subtype (ty : string) (v : Value) : bool := bool_decide (v_get "subtype" v ≫= as_str = Some ty).
Definition is_init (v : Value) : bool := has_type "system" v && has_subtype "init" v.

(** ** The registry of permissions *)
Definition register_or_clear_pending (frame : Value) st : ClaudeReaderState :=
  if has_type "control_request" frame then
    match v_get "request" frame with
    | Some request =>
        if has_subtype "can_use_tool" request then
          match v_get "request_id" frame ≫= as_str with
          | Some request_id =>
              let tool_use_id := text_of (v_get "tool_use_id" request) in
              if tool_use_id =? "" then st
              else
                set_perms (<[request_id := mkPendingPerm _ tool_use_id (text_of (v_get "tool_name" request))
                             (default Null (v_get "input" request))]> (pending_perms st)) st
          | None => st
          end
        else st
    | None => st
    end
  else if has_type "control_cancel_request" frame then
    match v_get "request_id" frame ≫= as_str with
    | Some request_id => set_perms (delete request_id (pending_perms st)) st
    | None => st
    end
  else st.

(** ** Sniffers *)
Definition mcp_phase (s : Value) : ProvisioningPhase.t :=
  let name := text_of (v_get "name" s) in
  let status := text_of (v_get "status" s) in
  if status =? "connected" then ProvisioningPhase.ToolsReady
  else if status =? "failed" then ProvisioningPhase.LoadFailed ("mcp server '" +:+ name +:+ "' failed")
  else if (status =? "needs-auth") || (status =? "needs_auth") then
    ProvisioningPhase.Degraded ("mcp server '" +:+ name +:+ "' needs auth")
  else ProvisioningPhase.ToolsWaiting.

Definition init_model (frame : Value) st : ClaudeReaderState :=
  match v_get "model" frame ≫= as_str with
  | Some model => if want_init_model then set_model (Some model) st else st
  | None => st
  end.

Definition init_bound (frame : Value) (gen : N) st : ClaudeReaderState :=
  match v_get "session_id" frame ≫= as_str with
  | Some sid => if sid =? reader_session_id then st else send gen (BackendBound (Some sid)) st
  | None => st
  end.

Definition sniff_init (frame : Value) (gen : N) st : ClaudeReaderState :=
  if negb (is_init frame) then st
  else
    let st := init_bound frame gen (init_model frame st) in
    match v_get "mcp_servers" frame ≫= as_array with
    | Some servers => fold_left (fun st s => send gen (Provisioning (mcp_phase s)) st) servers st
    | None => st
    end.

Definition sniff_mode (frame : Value) (gen : N) st : ClaudeReaderState :=
  if negb (has_type "system" frame) then st
  else
    match v_get "permissionMode" frame ≫= as_str with
    | Some raw =>
        let mode := if raw =? "normal" then "default" else raw in
        if bool_decide (current_mode_override st = Some mode) then st
        else send gen (ConfigChanged (Some mode) None) (set_mode_override (Some mode) st)
    | None => st
    end.

Definition ULTRACODE_LEVEL : string := "ultracode".
Definition XHIGH_LEVEL : string := "xhigh".
Definition has_level (l : string) (efforts : list string) : bool := existsb (String.eqb l) efforts.

Definition parse_model (m : Value) : option ModelInfo :=
  id ← v_get "value" m ≫= as_str;
  let efforts := omap as_str (array_of (v_get "supportedEffortLevels" m)) in
  let reasoning_efforts :=
    if has_level XHIGH_LEVEL efforts && negb (has_level ULTRACODE_LEVEL efforts)
    then (efforts ++ [ULTRACODE_LEVEL])%list else efforts in
  Some (mkModelInfo id (default id (v_get "displayName" m ≫= as_str)) (v_get "description" m ≫= as_str)
    reasoning_efforts).

Definition parse_command (c : Value) : option SlashCommandInfo :=
  name ← v_get "name" c ≫= as_str;
  Some (mkSlashCommandInfo name (v_get "description" c ≫= as_str)).

(** [frame.get("response")] where the frame is a [control_response]. *)
Definition control_response (frame : Value) : option Value :=
  if has_type "control_response" frame then v_get "response" frame else None.

Definition sniff_control_initialize (frame : Value) (gen : N) st : ClaudeReaderState :=
  match control_response frame with
  | Some response =>
      if negb (has_subtype "success" response) then st
      else
        match v_get "response" response with
        | Some inner =>
            let models := v_get "models" inner ≫= as_array in
            let commands := v_get "commands" inner ≫= as_array in
            match models, commands with
            | None, None => st
            | _, _ =>
                let parsed_models := omap parse_model (default [] models) in
                let parsed_commands := omap parse_command (default [] commands) in
                let caps := discovered_caps st in
                let caps :=
                  mkDiscoveredCaps
                    (match models with Some _ => parsed_models | None => disc_models caps end)
                    (match commands with Some _ => parsed_commands | None => disc_slash_commands caps end) in
                send gen (CatalogUpdated parsed_models claude_permission_modes parsed_commands) (set_caps caps st)
            end
        | None => st
        end
  | None => st
  end.

(** [json!] of one member. *)
Definition error_payload (err : string) : Value := v_obj [("error", v_str err)].

Definition sniff_mode_reject (frame : Value) (gen : N) st : ClaudeReaderState :=
  match control_response frame with
  | Some response =>
      if negb (has_subtype "error" response) then st
      else
        let err := text_of (v_get "error" response) in
        if negb (str_contains "permission mode" err) then st
        else send gen (AdapterSpecific "mode_switch_rejected" (error_payload err)) (set_mode_override None st)
  | None => st
  end.

Definition sniff_set_config_reject (frame : Value) (gen : N) st : ClaudeReaderState :=
  match control_response frame with
  | Some response =>
      match v_get "request_id" response ≫= as_str with
      | Some request_id =>
          match pending_set_config st !! request_id with
          | Some label =>
              let st := set_set_config (delete request_id (pending_set_config st)) st in
              if negb (has_subtype "error" response) then st
              else
                let err := default "set rejected" (v_get "error" response ≫= as_str) in
                send gen (Notice NoticeLevel.Warning (label +:+ " failed: " +:+ err)) st
          | None => st
          end
      | None => st
      end
  | None => st
  end.

Definition QSI_USAGE_PREFIX : string := "ctl-qsi-usage-".
Definition QSI_COST_PREFIX : string := "ctl-qsi-cost-".

Definition parse_category (c : Value) : option ContextUsageCategory :=
  name ← v_get "name" c ≫= as_str;
  Some (mkContextUsageCategory name (default 0%N (v_get "tokens" c ≫= as_u64))).

Definition sniff_session_info (frame : Value) (gen : N) st : ClaudeReaderState :=
  match control_response frame with
  | Some response =>
      if negb (has_subtype "success" response) then st
      else
        let request_id := text_of (v_get "request_id" response) in
        let inner := v_get "response" response in
        if String.prefix QSI_USAGE_PREFIX request_id then
          let used := default 0%N (u64_of (field "totalTokens" inner)) in
          let max := default 0%N (u64_of (field "maxTokens" inner)) in
          let categories := omap parse_category (array_of (field "categories" inner)) in
          send gen (SessionInfo (Some (mkContextUsage used max categories)) None) st
        else if String.prefix QSI_COST_PREFIX request_id then
          send gen (SessionInfo None (Some (text_of (field "text" inner)))) st
        else st
  | None => st
  end.

Definition is_tool_result (frame : Value) : bool :=
  existsb (has_type "tool_result") (array_of (field "content" (v_get "message" frame))).

Definition sniff_replay_prompt_ack (frame : Value) (gen : N) st : ClaudeReaderState :=
  if negb (has_type "user" frame) then st
  else
    match v_get "uuid" frame ≫= as_str with
    | Some uuid =>
        if (uuid =? "") || is_tool_result frame then st
        else send gen (PromptAccepted uuid) st
    | None => st
    end.

Definition task_status (frame : Value) : option SubagentStatus.t :=
  let subtype := text_of (v_get "subtype" frame) in
  if (subtype =? "task_started") || (subtype =? "task_progress") || (subtype =? "task_updated")
  then Some SubagentStatus.Running
  else if subtype =? "task_notification" then
    let status := v_get "status" frame ≫= as_str in
    if bool_decide (status = Some "failed") then Some SubagentStatus.Errored
    else if bool_decide (status = Some "stopped") then Some SubagentStatus.Interrupted
    else Some SubagentStatus.Completed
  else None.

Definition loop_state_of (a : Value) : option WorkflowLoopState.t :=
  let state := v_get "state" a ≫= as_str in
  if bool_decide (state = Some "start") then Some WorkflowLoopState.Start
  else if bool_decide (state = Some "progress") then Some WorkflowLoopState.Progress
  else if bool_decide (state = Some "done") then Some WorkflowLoopState.Done
  else None.

Definition agent_detail (task_id : string) (a : Value) : option (SessionEvent Value) :=
  if has_type "workflow_agent" a then
    let label := v_get "label" a ≫= as_str in
    agent_ref ← (match v_get "agentId" a ≫= as_str with Some r => Some r | None => label end);
    Some (SubagentDetail agent_ref (Some task_id) label (loop_state_of a) (v_get "model" a ≫= as_str)
      (v_get "tokens" a ≫= as_u64) (v_get "toolCalls" a ≫= as_u64) (v_get "lastToolName" a ≫= as_str))
  else None.

Definition sniff_task (frame : Value) (gen : N) st : ClaudeReaderState :=
  if negb (has_type "system" frame) then st
  else
    match task_status frame, v_get "task_id" frame ≫= as_str with
    | Some status, Some task_id =>
        let label :=
          (match v_get "workflow_name" frame with Some w => Some w | None => v_get "subagent_type" frame end)
          ≫= as_str in
        let st := send gen (SubagentUpdate task_id label status (v_get "tool_use_id" frame ≫= as_str)) st in
        fold_left (fun st e => send gen e st)
          (omap (agent_detail task_id) (array_of (v_get "workflow_progress" frame))) st
    | _, _ => st
    end.

(** What is done with the raw frame, in this order. *)
Definition sniff_frame (frame : Value) (gen : N) st : ClaudeReaderState :=
  let st := register_or_clear_pending frame st in
  let st := sniff_init frame gen st in
  let st := sniff_control_initialize frame gen st in
  let st := sniff_mode frame gen st in
  let st := sniff_mode_reject frame gen st in
  let st := sniff_set_config_reject frame gen st in
  let st := sniff_session_info frame gen st in
  let st := sniff_task frame gen st in
  sniff_replay_prompt_ack frame gen st.

(** ** Batches *)
Definition is_turn_result (e : SessionEvent Value) : bool :=
  match e with TurnResult _ _ _ _ _ => true | _ => false end.

(** One event of a frame, under the epoch of the open turn. *)
Definition process_event (cur_gen open_epoch : N) (e : SessionEvent Value) st : ClaudeReaderState :=
  let st := if is_turn_result e then set_in_flight false st else st in
  let env_gen := if is_turn_result e && negb (open_epoch =? 0)%N then open_epoch else cur_gen in
  send env_gen e st.

Definition process_frame (cur_gen : N) (p : N * ClaudeReaderState) (f : Frame) : N * ClaudeReaderState :=
  let '(open_epoch, st) := p in
  let '(open_epoch, st) :=
    match fst f with
    | Some v => (if is_init v then cur_gen else open_epoch, sniff_frame v cur_gen st)
    | None => (open_epoch, st)
    end in
  (open_epoch, fold_left (fun st e => process_event cur_gen open_epoch e st) (snd f) st).

(** [turn_open_epoch] is the variable the closure keeps between batches. *)
Definition process_batch (batch : list Frame) (p : N * ClaudeReaderState) : N * ClaudeReaderState :=
  fold_left (process_frame (turn_gen (snd p))) batch p.

(** ** The reading loop *)
Record Reader : Type := mkReader {
  parser : ClaudeAdapter;
  turn_open_epoch : N;
  seen_frame : bool;
}.
Definition new_reader : Reader := mkReader new_adapter 0 false.

Definition read_bytes (chunk : list Byte.byte) (r : Reader) st : Reader * ClaudeReaderState :=
  let '(batch, a) := frame_lines (parser r) chunk in
  let '(open_epoch, st) := process_batch batch (turn_open_epoch r, st) in
  (mkReader a open_epoch true, st).

(** The drain after the exit of the process; it tells whether the parser panicked. *)
Fixpoint drain (chunks : list (list Byte.byte * bool)) (r : Reader) st : bool * Reader * ClaudeReaderState :=
  match chunks with
  | [] => (false, r, st)
  | (chunk, true) :: _ => (true, r, st)
  | (chunk, false) :: chunks' => let '(r, st) := read_bytes chunk r st in drain chunks' r st
  end.

(** What follows the loop: the tail is flushed and the end is told.  [waited]
    is what [wait_for_exit] answers if it is asked, [summary] the redacted
    standard error. *)
Definition finish (e : Ending) (waited : option ExitStatusLite) (summary : option string) (r : Reader) st
    : ClaudeReaderState :=
  let st :=
    if panicked e then st
    else snd (process_batch (fst (flush_tail (parser r))) (turn_open_epoch r, st)) in
  let st := set_in_flight false st in
  let exit :=
    if hung e || panicked e then None
    else match proc_exited e with Some captured => captured | None => waited end in
  send (turn_gen st) (Detached exit summary) st.

(** One turn of the loop: the reader goes on, or the task has ended. *)
Definition read_step (o : Read.t) (waited : option ExitStatusLite) (summary : option string) (r : Reader) st
    : option Reader * ClaudeReaderState :=
  match o with
  | Read.Bytes chunk panics =>
      if panics then (None, finish (mkEnding false true None) waited summary r st)
      else let '(r, st) := read_bytes chunk r st in (Some r, st)
  | Read.Eof | Read.ReadError => (None, finish (mkEnding false false None) waited summary r st)
  | Read.StartupTimeout =>
      if seen_frame r then (Some r, st)
      else (None, finish (mkEnding true false None) waited summary r st)
  | Read.Exited status drained =>
      if seen_frame r then
        let '(p, r, st) := drain drained r st in
        (None, finish (mkEnding false p (Some status)) waited summary r st)
      else (Some r, st)
  end.

(** A reader whose process gave no stdio ends at once. *)
Definition reader_without_stdio st : ClaudeReaderState :=
  let st := set_in_flight false st in send (turn_gen st) (Detached None None) st.

End Reader.
