(* ===== verification/ClaudeBackend.v ===== *)
(** * The claude backend ([crates/tjuaeui-session/src/backend/claude_conn.rs], [suspend.rs])

    [Backend] is one session over one process that may be put to sleep:
    [dispatch] is every command as a program of atomic steps (between two of
    them the reader, the idle timer and other commands move), [idle_tick] the
    body of the idle timer, [reader_step] a turn of the reader of the live
    process.  [open_session] starts a session with the arguments that
    [build_claude_init_args] makes of its configuration.

    The lines written to the process are [wire], over all the processes the
    session had; whether a write fails, what spawning gives and the time of the
    call come from [Io]. *)

From S2P Require Import Prelude SessionEvent SessionState SessionReducer SessionOrchestrator SessionCommand.
From S2P Require Import SerdeJson ClaudeAdapter ClaudeReader Interleave.
From stdpp Require Import pretty.

(** ** Outside *)
Record Io `{SerdeJson} : Type := mkIo {
  write_error : Value -> option ProcessError.t;
  (* the process, and whether its stdio could be taken *)
  spawned : CommandSpec -> Result bool ProcessError.t;
  now_ms : Z;
}.

(** [uuid::Uuid]: does a text parse as one, and a new one. *)
Record Uuid : Type := mkUuid { is_uuid : string -> bool; new_v4 : string }.

(** ** State *)
Module Slot.
(** The reader of an active slot may have ended. *)
Inductive t `{SerdeJson} : Type := Active (reader : option Reader) | Dormant.
End Slot.

Record ClaudeWakeRecipe : Type := mkWakeRecipe {
  claude_session_id : string;
  wake_cwd : option string;
  wake_extra_args : list string;
  wake_env : list EnvVar;
  wake_cli_program : option string;
}.

Record SuspendController `{SerdeJson} : Type := mkSuspend {
  slot : Slot.t;
  last_activity : Z;
  suspend_ttl : option Z;
}.

Record Backend `{SerdeJson} : Type := mkBackend {
  backend_capabilities : Capabilities;
  stdin_open : bool;
  wire : list Value;
  shared : ClaudeReaderState;
  suspend : SuspendController;
  wake_recipe : ClaudeWakeRecipe;
  pending_controls : list Value;
  control_seq : N;
  effort : option string;
}.

Section Updates.
Context `{SerdeJson}.
Implicit Types b : Backend.

Definition set_shared (st : ClaudeReaderState) b :=
  mkBackend _ (backend_capabilities b) (stdin_open b) (wire b) st (suspend b) (wake_recipe b)
    (pending_controls b) (control_seq b) (effort b).
Definition set_wire (l : list Value) b :=
  mkBackend _ (backend_capabilities b) (stdin_open b) l (shared b) (suspend b) (wake_recipe b)
    (pending_controls b) (control_seq b) (effort b).
Definition set_stdin (open : bool) b :=
  mkBackend _ (backend_capabilities b) open (wire b) (shared b) (suspend b) (wake_recipe b)
    (pending_controls b) (control_seq b) (effort b).
Definition set_suspend (s : SuspendController) b :=
  mkBackend _ (backend_capabilities b) (stdin_open b) (wire b) (shared b) s (wake_recipe b)
    (pending_controls b) (control_seq b) (effort b).
Definition set_controls (l : list Value) b :=
  mkBackend _ (backend_capabilities b) (stdin_open b) (wire b) (shared b) (suspend b) (wake_recipe b)
    l (control_seq b) (effort b).
Definition set_seq (n : N) b :=
  mkBackend _ (backend_capabilities b) (stdin_open b) (wire b) (shared b) (suspend b) (wake_recipe b)
    (pending_controls b) n (effort b).
Definition set_effort (e : option string) b :=
  mkBackend _ (backend_capabilities b) (stdin_open b) (wire b) (shared b) (suspend b) (wake_recipe b)
    (pending_controls b) (control_seq b) e.
Definition on_shared (f : ClaudeReaderState -> ClaudeReaderState) b : Backend := set_shared (f (shared b)) b.

Definition set_slot (s : Slot.t) (c : SuspendController) : SuspendController :=
  mkSuspend _ s (last_activity c) (suspend_ttl c).
Definition set_activity (now : Z) (c : SuspendController) : SuspendController :=
  mkSuspend _ (slot c) now (suspend_ttl c).
End Updates.

(** ** Capabilities and views *)
Section Views.
Context `{SerdeJson}.

Definition or_else {A : Type} (a b : option A) : option A := match a with Some _ => a | None => b end.

Definition merged_capabilities (b : Backend) : Capabilities :=
  let c := backend_capabilities b in
  let st := shared b in
  let d := discovered_caps st in
  mkCapabilities (tier c) (emits c) (supported_commands c) (prompt_blocks c) (prompt_accepted c)
    (match disc_models d with [] => available_models c | l => l end) (available_modes c)
    (or_else (current_model c) (discovered_model st))
    (or_else (current_mode_override st) (current_mode c))
    (or_else (effort b) (current_effort c))
    (auth_methods c) (accepts_proactive_input c)
    (match disc_slash_commands d with [] => slash_commands c | l => l end).

Definition pending_permission_requests (b : Backend) : list (PendingPermissionView Value) :=
  map (fun '(request_id, perm) =>
    mkPendingPermissionView request_id (perm_tool_name perm)
      (if (perm_tool_name perm =? "AskUserQuestion")%string then v_get "questions" (perm_input perm) else None))
    (map_to_list (pending_perms (shared b))).

(** Is [value] a level the current model advertises?  What is not known
    cannot forbid it. *)
Definition effort_is_supported (value : string) (b : Backend) : bool :=
  let st := shared b in
  match disc_models (discovered_caps st) with
  | [] => true
  | models =>
      let current := or_else (current_model (backend_capabilities b)) (discovered_model st) in
      let found := current ≫= fun id => List.find (fun m => (model_id m =? id)%string) models in
      let efforts :=
        match found with
        | Some m => reasoning_efforts m
        | None => concat (map reasoning_efforts models)
        end in
      is_empty efforts || has_level value efforts
  end.
End Views.

(** ** The answer to a permission *)
Section Answer.
Context `{SerdeJson}.

Definition answer_value (labels : list string) : Value :=
  match labels with
  | [] => v_str ""
  | [one] => v_str one
  | many => v_arr (map v_str many)
  end.

Definition build_ask_user_question_answers (input : Value) (selected : option string)
    (answers : list QuestionAnswer) : Value :=
  match answers with
  | _ :: _ => v_obj (map (fun a => (question a, answer_value (labels a))) answers)
  | [] =>
      let q0 := head (array_of (v_get "questions" input)) in
      let question := text_of (field "question" q0) in
      let label :=
        default "" (or_else selected (str_of (field "label" (head (array_of (field "options" q0)))))) in
      v_obj [(question, v_str label)]
  end.

Definition is_allow (d : PermissionDecision.t) : bool :=
  match d with PermissionDecision.Approved | PermissionDecision.AllowAlways => true | PermissionDecision.Denied => false end.

Definition build_control_response (request_id : string) (pending : PendingPerm) (decision : PermissionDecision.t)
    (selected : option string) (answers : list QuestionAnswer) : Value :=
  let tool_use_id := ("toolUseID", v_str (perm_tool_use_id pending)) in
  let result :=
    if negb (is_allow decision) then
      v_obj [("behavior", v_str "deny"); ("message", v_str "User rejected the request."); tool_use_id]
    else if (perm_tool_name pending =? "AskUserQuestion")%string then
      let answers_map := build_ask_user_question_answers (perm_input pending) selected answers in
      let updated :=
        if is_object (perm_input pending) then map_insert "answers" answers_map (perm_input pending)
        else v_obj [("answers", answers_map)] in
      v_obj [("behavior", v_str "allow"); ("updatedInput", updated); tool_use_id]
    else
      let updated_input := if is_object (perm_input pending) then perm_input pending else v_obj [] in
      v_obj [("behavior", v_str "allow"); ("updatedInput", updated_input); tool_use_id] in
  v_obj [("type", v_str "control_response");
         ("response", v_obj [("subtype", v_str "success"); ("request_id", v_str request_id); ("response", result)])].

(** *** Control requests *)
Definition control_request (request_id : string) (request : Value) : Value :=
  v_obj [("type", v_str "control_request"); ("request_id", v_str request_id); ("request", request)].

Definition control_subtype (frame : Value) : option string := str_of (field "subtype" (v_get "request" frame)).

(** [q.retain(other subtypes); q.push(frame)] *)
Definition queue_control (frame : Value) (q : list Value) : list Value :=
  List.filter (fun f => negb (bool_decide (control_subtype f = control_subtype frame))) q ++ [frame].
End Answer.

(** ** Commands *)
Module WriteError.
Inductive t : Type := Unavailable | Failed (message : string).
End WriteError.

Section Commands.
Context `{SerdeJson} `{Base64} `{ReaderConfig} (io : Io).

Definition Op (A : Type) : Type := Prog Backend (Result A BackendError.t).
Definition reading {A : Type} (f : Backend -> A) : Prog Backend A := atomic (fun b => (f b, b)).
Definition changing (f : Backend -> Backend) : Prog Backend unit := atomic (fun b => (tt, f b)).

(** One line under the lock of the standard input. *)
Definition write_line (v : Value) : Prog Backend (Result unit WriteError.t) :=
  atomic (fun b =>
    if negb (stdin_open b) then (Err WriteError.Unavailable, b)
    else match write_error io v with
         | Some e => (Err (WriteError.Failed (ProcessError.display e)), b)
         | None => (Ok tt, set_wire (wire b ++ [v]) b)
         end).

Definition write_control_frame (frame : Value) : Op unit :=
  map_err (fun e => match e with
    | WriteError.Unavailable => BackendError.Transport "claude stdin unavailable"
    | WriteError.Failed m => BackendError.Transport ("write control_request: " +:+ m)
    end) (write_line frame).

(** [control_seq.fetch_add(1) + 1] *)
Definition next_seq : Prog Backend N :=
  atomic (fun b => ((control_seq b + 1)%N, set_seq (control_seq b + 1) b)).

Definition write_or_queue_control (request : Value) : Op string :=
  (do n := next_seq in
   let request_id := "ctl-" +:+ pretty n in
   let frame := control_request request_id request in
   do in_flight := reading (fun b => turn_in_flight (shared b)) in
   if in_flight then
     do _ := changing (fun b => set_controls (queue_control frame (pending_controls b)) b) in
     Ret (Ok request_id)
   else
     let! _ := write_control_frame frame in
     Ret (Ok request_id))%tj.

Definition interrupt_turn : Prog Backend unit :=
  (do n := next_seq in
   do _ := write_control_frame (control_request ("ctl-" +:+ pretty n) (v_obj [("subtype", v_str "interrupt")])) in
   Ret tt)%tj.

Definition drain_pending_controls : Op unit :=
  (do drained := atomic (fun b => (pending_controls b, set_controls [] b)) in
   try_each write_control_frame drained)%tj.

Definition request_initialize : Prog Backend unit :=
  (do n := next_seq in
   do _ := write_control_frame (control_request ("ctl-" +:+ pretty n) (v_obj [("subtype", v_str "initialize")])) in
   Ret tt)%tj.

(** [wake_handle] inside [ensure_awake], which holds the lock of the slot all
    the while. *)
Definition resume_spec (r : ClaudeWakeRecipe) : CommandSpec :=
  start_spec (LegacySessionSpec.Resume (claude_session_id r)) (wake_cwd r) (wake_extra_args r) (wake_env r)
    (wake_cli_program r).

Definition start_claude_reader (has_stdio : bool) (st : ClaudeReaderState) : option Reader * ClaudeReaderState :=
  if has_stdio then (Some new_reader, st) else (None, reader_without_stdio st).

Definition wake (b : Backend) : Result unit BackendError.t * Backend :=
  match spawned io (resume_spec (wake_recipe b)) with
  | Err e => (Err (from_spawn "Claude 恢复进程启动失败" e), b)
  | Ok has_stdio =>
      let '(reader, st) := start_claude_reader has_stdio (shared b) in
      (Ok tt, set_suspend (set_slot (Slot.Active reader) (suspend b)) (set_stdin has_stdio (set_shared st b)))
  end.

Definition ensure_awake : Op unit :=
  atomic (fun b =>
    let '(r, b) :=
      match slot (suspend b) with
      | Slot.Active _ => (Ok tt, b)
      | Slot.Dormant => wake b
      end in
    match r with
    | Ok _ => (Ok tt, set_suspend (set_activity (now_ms io) (suspend b)) b)
    | Err e => (Err e, b)
    end).

Definition emit (e : SessionEvent Value) : Prog Backend unit :=
  changing (fun b => on_shared (send (turn_gen (shared b)) e) b).

(** A receipt that starts no turn, under the epoch of its last step. *)
Definition no_turn : Op CommandReceipt :=
  (do gen := reading (fun b => turn_gen (shared b)) in
   Ret (Ok (mkCommandReceipt true Admission.NoTurn gen)))%tj.

Definition dispatch_send (content : list ContentBlock.t) (metadata : CommandMeta) : Op CommandReceipt :=
  (do blocks := reading (fun b => prompt_blocks (merged_capabilities b)) in
   match List.find (fun blk => negb (allows blocks blk)) content with
   | Some bad => Ret (Err (BackendError.CommandNotSupported (block_kind_name bad)))
   | None =>
       let! _ := ensure_awake in
       let! _ := drain_pending_controls in
       do _ := changing (on_shared (set_in_flight true)) in
       do gen := reading (fun b => turn_gen (shared b)) in
       let wrap (e : string) :=
         if (gen =? 0)%N then BackendError.HandshakeTimeout ("claude still starting: " +:+ e)
         else BackendError.Transport ("deliver_prompt: " +:+ e) in
       let! _ := map_err (fun e => match e with
                   | WriteError.Unavailable => wrap "stdin unavailable"
                   | WriteError.Failed m => wrap m
                   end) (write_line (prompt_line content (client_msg_id metadata))) in
       do cur_gen := atomic (fun b =>
         let n := (turn_gen (shared b) + 1)%N in (n, on_shared (set_turn_gen n) b)) in
       Ret (Ok (mkCommandReceipt true Admission.Started cur_gen))
   end)%tj.

Definition answer_permission (request_id : string) (decision : PermissionDecision.t) (selected : option string)
    (answers : list QuestionAnswer) : Op CommandReceipt :=
  (do pending := atomic (fun b =>
     let st := shared b in (pending_perms st !! request_id, on_shared (set_perms (delete request_id (pending_perms st))) b)) in
   match pending with
   | None => Ret (Err (BackendError.Transport ("no pending permission for request_id " +:+ request_id)))
   | Some pending =>
       let! _ := map_err (fun e => match e with
                   | WriteError.Unavailable => BackendError.Transport "claude stdin unavailable"
                   | WriteError.Failed m => BackendError.Transport ("write control_response: " +:+ m)
                   end) (write_line (build_control_response request_id pending decision selected answers)) in
       do gen := reading (fun b => turn_gen (shared b)) in
       do _ := changing (on_shared (send gen (PermissionResolved request_id PermissionKind.Tool))) in
       Ret (Ok (mkCommandReceipt true Admission.NoTurn gen))
   end)%tj.

Definition set_effort_option (value : string) : Op CommandReceipt :=
  (do supported := reading (effort_is_supported value) in
   if negb supported then
     Ret (Err (BackendError.Transport ("effort level '" +:+ value +:+ "' is not supported by the current model")))
   else
     let settings :=
       if (value =? ULTRACODE_LEVEL)%string then v_obj [("ultracode", v_bool true)]
       else v_obj [("effortLevel", v_str value)] in
     let! request_id :=
       write_or_queue_control (v_obj [("subtype", v_str "apply_flag_settings"); ("settings", settings)]) in
     do _ := changing (fun b => on_shared
       (set_set_config (<[request_id := "effort→" +:+ value]> (pending_set_config (shared b)))) b) in
     do _ := changing (set_effort (Some value)) in
     no_turn)%tj.

Definition query_session_info (kind : SessionInfoKind.t) : Op CommandReceipt :=
  (let '(subtype, prefix) :=
     match kind with
     | SessionInfoKind.ContextUsage => ("get_context_usage", QSI_USAGE_PREFIX)
     | SessionInfoKind.SessionCost => ("get_session_cost", QSI_COST_PREFIX)
     end in
   do n := next_seq in
   let! _ := write_control_frame (control_request (prefix +:+ pretty n) (v_obj [("subtype", v_str subtype)])) in
   no_turn)%tj.

Definition is_effort_option (option_id : string) : bool :=
  existsb (String.eqb option_id) ["effort"; "reasoning_effort"; "thought_level"].

Definition dispatch (command : Command.t Value) : Op CommandReceipt :=
  (match command with
   | Command.Send content metadata => dispatch_send content metadata
   | Command.Cancel (CancelTarget.Turn | CancelTarget.Session) => do _ := interrupt_turn in no_turn
   | Command.Cancel (CancelTarget.Tool _) => Ret (Err (BackendError.CommandNotSupported "cancel_tool"))
   | Command.Rewind _ => Ret (Err (BackendError.CommandNotSupported "rewind"))
   | Command.ListCheckpoints => Ret (Err (BackendError.CommandNotSupported "list_checkpoints"))
   | Command.QuerySessionInfo kind => query_session_info kind
   | Command.AnswerAuth _ _ => Ret (Err (BackendError.CommandNotSupported "answer_auth"))
   | Command.Steer _ => Ret (Err (BackendError.CommandNotSupported "steer"))
   | Command.SetMode mode =>
       let! _ := write_or_queue_control (v_obj [("subtype", v_str "set_permission_mode"); ("mode", v_str mode)]) in
       no_turn
   | Command.SetModel model =>
       let! _ := write_or_queue_control (v_obj [("subtype", v_str "set_model"); ("model", v_str model)]) in
       do gen := reading (fun b => turn_gen (shared b)) in
       do _ := changing (on_shared (send gen (ConfigChanged None (Some model)))) in
       Ret (Ok (mkCommandReceipt true Admission.NoTurn gen))
   | Command.SetConfigOption option_id value =>
       if is_effort_option option_id then set_effort_option value
       else Ret (Err (BackendError.CommandNotSupported "set_config_option"))
   | Command.AnswerPermission request_id decision selected answers =>
       answer_permission request_id decision selected answers
   | Command.Acknowledge _ => no_turn
   end)%tj.

(** ** The idle timer *)
Definition suspend_if_idle (now : Z) (turn_active : bool) (c : SuspendController) : bool * SuspendController :=
  match suspend_ttl c with
  | None => (false, c)
  | Some ttl =>
      if turn_active then (false, c)
      else match slot c with
           | Slot.Active _ =>
               if (ttl <=? now - last_activity c)%Z then (true, set_slot Slot.Dormant c) else (false, c)
           | Slot.Dormant => (false, c)
           end
  end.

(** The arguments are evaluated before the lock is taken. *)
Definition idle_tick : Prog Backend unit :=
  (do turn_active := reading (fun b => turn_in_flight (shared b)) in
   do suspended := atomic (fun b =>
     let '(suspended, c) := suspend_if_idle (now_ms io) turn_active (suspend b) in (suspended, set_suspend c b)) in
   if suspended then emit BackendSuspended else Ret tt)%tj.

Definition idle_check_interval_ms (ttl : option Z) : Z :=
  match ttl with
  | Some t => Z.max 1000 (Z.min (Z.quot t 4) 30000)
  | None => 30000
  end.

(** ** A turn of the live reader *)
Definition reader_step (o : Read.t) (waited : option ExitStatusLite) (summary : option string) (b : Backend) : Backend :=
  match slot (suspend b) with
  | Slot.Active (Some r) =>
      let '(r, st) := read_step o waited summary r (shared b) in
      set_suspend (set_slot (Slot.Active r) (suspend b)) (set_shared st b)
  | _ => b
  end.

End Commands.

(** ** Opening a session *)
Section Open.
Context `{SerdeJson} `{Base64}.
Local Open Scope string_scope.

Definition claude_session_id_for (uuid : Uuid) (logical_id : string) : string :=
  if is_uuid uuid logical_id then logical_id else new_v4 uuid.

Definition to_legacy_spec (uuid : Uuid) (spec : SessionSpec.t) : string * string * LegacySessionSpec.t :=
  match spec with
  | SessionSpec.Fresh session_id =>
      let claude_id := claude_session_id_for uuid session_id in
      (session_id, claude_id, LegacySessionSpec.Fresh claude_id)
  | SessionSpec.Resume session_id (Some bid) => (session_id, bid, LegacySessionSpec.Resume bid)
  | SessionSpec.Resume session_id None =>
      let claude_id := claude_session_id_for uuid session_id in
      (session_id, claude_id, LegacySessionSpec.Fresh claude_id)
  end.

Definition kv (pairs : list (string * string)) : Value := v_obj (map (fun '(k, v) => (k, v_str v)) pairs).

Definition mcp_entry (t : McpTransport.t) : Value :=
  match t with
  | McpTransport.Stdio command args env =>
      v_obj [("command", v_str command); ("args", v_arr (map v_str args)); ("env", kv env)]
  | McpTransport.Http url headers =>
      v_obj [("type", v_str "http"); ("url", v_str url); ("headers", kv headers)]
  | McpTransport.Sse url headers =>
      v_obj [("type", v_str "sse"); ("url", v_str url); ("headers", kv headers)]
  end.

Definition mcp_config (servers : list McpServerSpec) : Value :=
  v_obj [("mcpServers", v_obj (map (fun s => (mcp_name s, mcp_entry (mcp_transport s))) servers))].

Definition build_claude_mcp_config (servers : list McpServerSpec) : option string :=
  match servers with
  | [] => None
  | _ => Some (to_string (mcp_config servers))
  end.

(** [o.as_deref().map(str::trim).filter(|s| !s.is_empty())] *)
Definition trimmed (o : option string) : option string :=
  s ← o; if str_trim s =? "" then None else Some (str_trim s).

Definition permission_mode (mode : option string) : string :=
  match trimmed mode with
  | Some m => if is_valid_claude_permission_mode m then m else "default"
  | None => "default"
  end.

Definition build_claude_init_args (config : SessionConfig Value) : list string :=
  (match trimmed (preset_context (cfg_init config)) with
   | Some preset => ["--system-prompt"; preset]
   | None => []
   end
   ++ match build_claude_mcp_config (mcp_servers (cfg_init config)) with
      | Some mcp_json => ["--mcp-config"; mcp_json; "--strict-mcp-config"]
      | None => []
      end
   ++ ["--permission-mode"; permission_mode (cfg_mode config); "--allow-dangerously-skip-permissions";
       "--disallowed-tools"; "AskUserQuestion"]
   ++ match trimmed (cfg_model config) with
      | Some model => ["--model"; model]
      | None => []
      end)%list.

Definition prepend_args (head tail : list string) : list string := (head ++ tail)%list.

(** [ClaudeSessionBackend::spawn] over a process that was started. *)
Definition spawn_backend (has_stdio : bool) (config : SessionConfig Value) (recipe : ClaudeWakeRecipe)
    (session_id : string) (now : Z) : ReaderConfig * Backend :=
  let rc := Build_ReaderConfig session_id (match cfg_model config with None => true | Some _ => false end) in
  let c := claude_capabilities in
  let caps :=
    mkCapabilities (tier c) (emits c) (supported_commands c) (prompt_blocks c) (prompt_accepted c)
      (available_models c) (available_modes c) (cfg_model config) (cfg_mode config) (current_effort c)
      (auth_methods c) (accepts_proactive_input c) (slash_commands c) in
  let '(reader, st) := start_claude_reader has_stdio new_reader_state in
  (rc, mkBackend _ caps has_stdio [] st (mkSuspend _ (Slot.Active reader) now (idle_ttl_ms config)) recipe [] 0 None).

Definition open_session (io : Io) (uuid : Uuid) (spec : SessionSpec.t) (config : SessionConfig Value)
    : Result (ReaderConfig * Backend) BackendError.t :=
  let '(logical_id, claude_session_id, legacy_spec) := to_legacy_spec uuid spec in
  let spawn_args := prepend_args (build_claude_init_args config) (cfg_extra_args config) in
  match spawned io (start_spec legacy_spec (cfg_cwd config) spawn_args (spawn_env config) (cli_program config)) with
  | Err e => Err (from_spawn "Claude 进程启动失败" e)
  | Ok has_stdio =>
      let recipe := mkWakeRecipe claude_session_id (cfg_cwd config) spawn_args (spawn_env config) (cli_program config) in
      let '(rc, b) := spawn_backend has_stdio config recipe logical_id (now_ms io) in
      Ok (rc, snd (run (request_initialize io) b))
  end.
End Open.
