(* ===== verification/ClaudeTurns.v ===== *)
(** * What the claude reader achieves

    The reader with the reducer behind it: which result ends which turn, and
    that the end of the process ends the turn. *)

From S2P Require Import Prelude SessionEvent SessionState SessionReducer SessionOrchestrator SessionCommand.
From S2P Require Import SerdeJson ClaudeAdapter ClaudeFrames ClaudeReader.

Section Turns.
Context `{SerdeJson} `{Base64} `{ReaderConfig}.
Implicit Types st : ClaudeReaderState.

(** ** Events of a reader

    What the parser makes of frames, and what the sniffers send besides. *)
Definition parsed (e : SessionEvent Value) : Prop :=
  match e with
  | TurnStarted _ | Cancel | Detached _ _ => False
  | TurnResult _ _ _ epoch _ => epoch = 0%N
  | _ => True
  end.
Definition quiet (e : SessionEvent Value) : Prop := parsed e /\ is_turn_result e = false.

Definition frame_ok (f : Frame) : Prop := Forall parsed (snd f).

Ltac parsed_list :=
  repeat match goal with
  | |- Forall _ (if ?b then _ else _) => destruct b
  | |- Forall _ (match ?x with _ => _ end) => destruct x
  | |- Forall _ (fst (if ?b then _ else _)) => destruct b
  | |- Forall _ (fst (match ?x with _ => _ end)) => destruct x
  | |- Forall _ (fst (_, _)) => cbn [fst]
  | |- Forall _ (_ :: _) => constructor
  | |- Forall _ [] => constructor
  end; try done.

Lemma parse_assistant_parsed s v : Forall parsed (parse_assistant s v).
Proof.
  unfold parse_assistant. apply Forall_concat, List.Forall_map, List.Forall_forall. intros b _.
  unfold parse_assistant_block. parsed_list.
Qed.

Lemma parse_user_parsed v : Forall parsed (parse_user v).
Proof.
  unfold parse_user. apply Forall_forall. intros e (b & _ & He)%list_elem_of_omap.
  by destruct (bool_decide _); [injection He as <-|].
Qed.

Lemma parse_stream_parsed s v : Forall parsed (fst (parse_stream_event s v)).
Proof. unfold parse_stream_event, content_block_delta, message_delta. cbv zeta. parsed_list. Qed.

Lemma parse_value_parsed s v : Forall parsed (fst (parse_value s v)).
Proof.
  unfold parse_value. repeat case_match; cbn [fst];
    auto using parse_assistant_parsed, parse_user_parsed, parse_stream_parsed.
  - unfold parse_system. parsed_list.
  - unfold parse_result, result_usage. parsed_list.
  - unfold parse_control_request. parsed_list.
  - unfold parse_control_cancel_request. parsed_list.
  - by repeat constructor.
Qed.

Lemma parse_line_ok tag s l : Forall frame_ok (fst (parse_line tag s l)).
Proof.
  unfold parse_line. destruct (_ =? _)%string; [constructor|].
  destruct (from_str _) as [v|]; [|by repeat constructor].
  pose proof (parse_value_parsed s v) as Hp. destruct (parse_value s v). by repeat constructor.
Qed.

Lemma parse_lines_ok s ls : Forall frame_ok (fst (parse_lines s ls)).
Proof.
  revert s. induction ls as [|l ls IH]; intros s; simpl; [constructor|].
  pose proof (parse_line_ok "malformed_json" s l) as Hl. destruct (parse_line _ s l) as [o s1].
  specialize (IH s1). destruct (parse_lines s1 ls). by apply Forall_app.
Qed.

Lemma frame_lines_ok a chunk : Forall frame_ok (fst (frame_lines a chunk)).
Proof.
  rewrite frame_lines_split. destruct (split_lines _) as [ls rest].
  pose proof (parse_lines_ok (stream a) ls) as Hl. by destruct (parse_lines (stream a) ls).
Qed.

Lemma flush_tail_ok a : Forall frame_ok (fst (flush_tail a)).
Proof.
  unfold flush_tail. pose proof (parse_line_ok "truncated_tail" (stream a) (buf a)) as Hl.
  by destruct (parse_line _ (stream a) (buf a)).
Qed.

(** ** Sending

    [sends P st st']: between the two only envelopes with [P] are sent, and
    the generation stays. *)
Definition sends (P : SessionEnvelope Value -> Prop) st st' : Prop :=
  turn_gen st' = turn_gen st /\ exists l, event_tx st' = event_tx st ++ l /\ Forall P l.

Lemma sends_refl P st : sends P st st.
Proof. split; [done|]. exists []. by rewrite app_nil_r. Qed.

Lemma sends_then P st1 st2 st3 : sends P st1 st2 -> sends P st2 st3 -> sends P st1 st3.
Proof.
  intros (Hg & l & Hl & Hp) (Hg' & l' & Hl' & Hp'). split; [congruence|].
  exists (l ++ l'). rewrite Hl', Hl, app_assoc. split; [done|]. by apply Forall_app.
Qed.

Lemma sends_weaken (P Q : SessionEnvelope Value -> Prop) st st' :
  (forall x, P x -> Q x) -> sends P st st' -> sends Q st st'.
Proof. intros HPQ (Hg & l & Hl & Hp). split; [done|]. exists l. split; [done|]. by eapply Forall_impl. Qed.

(** A part of the state that no receiver sees. *)
Definition same_log st st' : Prop := turn_gen st' = turn_gen st /\ event_tx st' = event_tx st.

Lemma sends_same P st st1 st' : same_log st st1 -> sends P st1 st' -> sends P st st'.
Proof. intros [Hg He] (Hg' & l & Hl & Hp). split; [congruence|]. exists l. by rewrite <- He. Qed.

Lemma sends_send (P : SessionEnvelope Value -> Prop) gen e st :
  P (mkSessionEnvelope reader_session_id gen e) -> sends P st (send gen e st).
Proof. intros Hp. split; [done|]. exists [mkSessionEnvelope reader_session_id gen e]. by repeat constructor. Qed.

Lemma sends_fold {A} (P : SessionEnvelope Value -> Prop) (f : ClaudeReaderState -> A -> ClaudeReaderState) l st :
  (forall st a, In a l -> sends P st (f st a)) -> sends P st (fold_left f l st).
Proof.
  revert st. induction l as [|a l IH]; intros st Hf; simpl; [apply sends_refl|].
  eapply sends_then; [apply Hf; by left|]. apply IH. intros st' b Hb. apply Hf. by right.
Qed.

Ltac log_tac := unfold same_log; by repeat case_match.

(** What a sniffer may send. *)
Definition quiet_at (gen : N) (env : SessionEnvelope Value) : Prop :=
  env_turn_gen env = gen /\ quiet (env_event env).

Lemma sends_quietly gen e st : quiet e -> sends (quiet_at gen) st (send gen e st).
Proof. intros He. by apply sends_send. Qed.

Ltac quiet_tac := apply sends_quietly; split; [exact I|reflexivity].
Ltac sends_tac :=
  repeat case_match; try apply sends_refl; try quiet_tac;
  try (eapply sends_same; [|first [quiet_tac|apply sends_refl]]; by split).

Lemma sniff_init_sends v gen st : sends (quiet_at gen) st (sniff_init v gen st).
Proof.
  unfold sniff_init. destruct (negb _); [apply sends_refl|].
  eapply sends_same; [instantiate (1 := init_model v st); unfold init_model; log_tac|].
  eapply sends_then; [instantiate (1 := init_bound v gen (init_model v st)); unfold init_bound; sends_tac|].
  case_match; [|apply sends_refl]. apply sends_fold. intros st' s _. quiet_tac.
Qed.

Lemma sniff_task_sends v gen st : sends (quiet_at gen) st (sniff_task v gen st).
Proof.
  unfold sniff_task. destruct (negb _); [apply sends_refl|].
  destruct (task_status v), (v_get "task_id" v ≫= as_str) as [task|]; try apply sends_refl.
  eapply sends_then; [|apply sends_fold]; [quiet_tac|].
  intros st' e (a & _ & He)%list_elem_of_In%list_elem_of_omap. apply sends_quietly.
  unfold agent_detail in He. destruct (has_type _ a); [|done].
  destruct (match v_get "agentId" a ≫= as_str with Some r => _ | None => _ end); [|done].
  injection He as <-. split; [exact I|reflexivity].
Qed.

Lemma sniff_control_initialize_sends v gen st : sends (quiet_at gen) st (sniff_control_initialize v gen st).
Proof. unfold sniff_control_initialize. sends_tac. Qed.
Lemma sniff_mode_sends v gen st : sends (quiet_at gen) st (sniff_mode v gen st).
Proof. unfold sniff_mode. sends_tac. Qed.
Lemma sniff_mode_reject_sends v gen st : sends (quiet_at gen) st (sniff_mode_reject v gen st).
Proof. unfold sniff_mode_reject. sends_tac. Qed.
Lemma sniff_set_config_reject_sends v gen st : sends (quiet_at gen) st (sniff_set_config_reject v gen st).
Proof. unfold sniff_set_config_reject. sends_tac. Qed.
Lemma sniff_session_info_sends v gen st : sends (quiet_at gen) st (sniff_session_info v gen st).
Proof. unfold sniff_session_info. sends_tac. Qed.
Lemma sniff_replay_prompt_ack_sends v gen st : sends (quiet_at gen) st (sniff_replay_prompt_ack v gen st).
Proof. unfold sniff_replay_prompt_ack. sends_tac. Qed.
Lemma register_or_clear_sends v gen st : sends (quiet_at gen) st (register_or_clear_pending v st).
Proof. unfold register_or_clear_pending. sends_tac. Qed.

Create HintDb sends.
#[local] Hint Resolve sniff_init_sends sniff_task_sends sniff_control_initialize_sends sniff_mode_sends
  sniff_mode_reject_sends sniff_set_config_reject_sends sniff_session_info_sends sniff_replay_prompt_ack_sends
  register_or_clear_sends : sends.

Lemma sniff_frame_sends v gen st : sends (quiet_at gen) st (sniff_frame v gen st).
Proof. unfold sniff_frame. repeat (eapply sends_then; [|solve [eauto with sends]]). apply sends_refl. Qed.

(** ** A batch

    The epoch a result carries: the one the open turn was locked at, or the
    current one before any turn was opened. *)
Definition result_epoch (open_epoch gen : N) : N := if (open_epoch =? 0)%N then gen else open_epoch.

Definition sent_at (open_epoch gen : N) (env : SessionEnvelope Value) : Prop :=
  parsed (env_event env) /\
  env_turn_gen env = if is_turn_result (env_event env) then result_epoch open_epoch gen else gen.

Definition inits (f : Frame) : bool := match fst f with Some v => is_init v | None => false end.

Lemma process_event_sends open_epoch gen e st :
  parsed e -> sends (sent_at open_epoch gen) st (process_event gen open_epoch e st).
Proof.
  intros He. unfold process_event. eapply sends_same.
  { instantiate (1 := if is_turn_result e then set_in_flight false st else st). log_tac. }
  apply sends_send. split; [done|]. simpl. unfold result_epoch.
  destruct (is_turn_result e); [|done]. by destruct (open_epoch =? 0)%N.
Qed.

Lemma process_frame_sends open_epoch gen f st :
  frame_ok f -> inits f = false -> fst (process_frame gen (open_epoch, st) f) = open_epoch /\
  sends (sent_at open_epoch gen) st (snd (process_frame gen (open_epoch, st) f)).
Proof.
  intros Hf Hi. unfold process_frame.
  assert (K : forall st', sends (sent_at open_epoch gen) st' (fold_left (fun st e => process_event gen open_epoch e st) (snd f) st')).
  { intros st'. apply sends_fold. intros st1 e Hin. apply process_event_sends.
    by apply (proj1 (List.Forall_forall _ _) Hf). }
  destruct f as [[v|] es]; simpl in *; [|by split].
  unfold inits in Hi. simpl in Hi. rewrite Hi. split; [done|].
  eapply sends_then; [|apply K]. eapply sends_weaken; [|apply sniff_frame_sends].
  intros env [Hg [Hp Hr]]. split; [done|]. by rewrite Hr.
Qed.

Lemma process_batch_sends batch open_epoch st :
  Forall frame_ok batch -> forallb (fun f => negb (inits f)) batch = true ->
  fst (process_batch batch (open_epoch, st)) = open_epoch /\
  sends (sent_at open_epoch (turn_gen st)) st (snd (process_batch batch (open_epoch, st))).
Proof.
  unfold process_batch. simpl. generalize (turn_gen st) as gen. intros gen Hb. revert st.
  induction Hb as [|f batch Hf _ IH]; intros st; cbn [fold_left forallb]; [intros _; split; [done|apply sends_refl]|].
  intros [Hi%negb_true_iff Hr]%andb_true_iff.
  destruct (process_frame_sends open_epoch gen f st Hf Hi) as [K1 K2].
  destruct (process_frame gen (open_epoch, st) f) as [o st1]. simpl in K1. subst o.
  destruct (IH st1 Hr) as [K3 K4]. split; [done|]. by eapply sends_then.
Qed.

(** ** Which result ends which turn *)

(** What the orchestrator makes of what was sent between two states. *)
Definition sent_since st st' : list (SessionEnvelope Value) := drop (length (event_tx st)) (event_tx st').
Definition delivered (l : list (SessionEnvelope Value)) : list (SessionEvent Value) :=
  map (fun env => env_event (restamp_epoch env)) l.

Lemma sent_since_app P st st' : sends P st st' -> event_tx st' = event_tx st ++ sent_since st st' /\ Forall P (sent_since st st').
Proof. intros (_ & l & Hl & Hp). unfold sent_since. by rewrite Hl, drop_app_length. Qed.

(** Events that start no turn end a running one if one of them decides it, and
    leave it running otherwise. *)
Lemma run_decided (l : list (SessionEvent Value)) c :
  terminal_result_seen c = false -> forallb (fun e => negb (is_turn_started e)) l = true ->
  if existsb (decides (since_epoch c)) l then is_terminal_state (run_events (Running c) l) = true
  else exists c', run_events (Running c) l = Running c' /\ since_epoch c' = since_epoch c.
Proof.
  revert c. induction l as [|e l IH]; intros c Ht; cbn [forallb existsb]; [by exists c|].
  intros [He Hl]%andb_true_iff. pose proof He as He'%negb_true_iff. rewrite run_events_cons.
  destruct (decides (since_epoch c) e) eqn:Hd; cbn [orb].
  - rewrite (step_decided c e Ht He' Hd).
    pose proof (run_events_terminal (verdict (saw_substantive_output c) e) l (verdict_terminal _ _) Hl) as Hr.
    rewrite Hr. apply verdict_terminal.
  - destruct (step_undecided c e He' Hd) as (c1 & -> & Hep & _ & Ht1).
    specialize (IH c1 (eq_trans Ht1 Ht) Hl). rewrite Hep in IH. exact IH.
Qed.

Lemma delivered_starts_none open_epoch gen l :
  Forall (sent_at open_epoch gen) l -> forallb (fun e => negb (is_turn_started e)) (delivered l) = true.
Proof.
  induction 1 as [|env l [Hp _] _ IH]; [done|]. cbn [delivered map forallb]. fold (delivered l).
  rewrite IH, andb_true_r. unfold restamp_epoch. destruct (env_event env) eqn:E; try done; rewrite ?E; try done.
  by destruct (epoch =? 0)%N; rewrite ?E.
Qed.

Lemma delivered_decides open_epoch gen since l :
  Forall (sent_at open_epoch gen) l ->
  existsb (decides since) (delivered l) =
    existsb (fun env => is_turn_result (env_event env)) l &&
    ((result_epoch open_epoch gen =? 0)%N || (since <=? result_epoch open_epoch gen)%N).
Proof.
  induction 1 as [|env l [Hp Hg] _ IH]; [done|]. cbn [delivered map existsb].
  fold (delivered l). rewrite IH. unfold restamp_epoch.
  destruct (env_event env) eqn:E; simpl in Hp, Hg |- *; rewrite ?E; simpl; try done.
  subst. simpl. rewrite Hg. by destruct (existsb _ l), (_ || _)%N.
Qed.


(** ** The end of the process *)
Definition is_detached (e : SessionEvent Value) : bool := match e with Detached _ _ => true | _ => false end.
Definition undetached (env : SessionEnvelope Value) : Prop := parsed (env_event env).

Lemma process_frame_parsed open_epoch gen f st :
  frame_ok f -> sends undetached st (snd (process_frame gen (open_epoch, st) f)).
Proof.
  intros Hf. unfold process_frame.
  assert (K : forall o st', sends undetached st' (fold_left (fun st e => process_event gen o e st) (snd f) st')).
  { intros o st'. apply sends_fold. intros st1 e Hin.
    eapply sends_weaken; [|apply (process_event_sends o gen)]; [by intros env [Hp _]|].
    by apply (proj1 (List.Forall_forall _ _) Hf). }
  destruct f as [[v|] es]; [|apply K].
  eapply sends_then; [|apply K]. eapply sends_weaken; [|apply sniff_frame_sends]. by intros env [_ [Hp _]].
Qed.

Lemma process_batch_parsed batch open_epoch st :
  Forall frame_ok batch -> sends undetached st (snd (process_batch batch (open_epoch, st))).
Proof.
  unfold process_batch. simpl snd at 1. generalize (turn_gen st) as gen. intros gen Hb.
  revert open_epoch st. induction Hb as [|f batch Hf _ IH]; intros o st; cbn [fold_left]; [apply sends_refl|].
  pose proof (process_frame_parsed o gen f st Hf) as K. destruct (process_frame gen (o, st) f) as [o1 st1].
  eapply sends_then; [exact K|]. apply IH.
Qed.

Lemma read_bytes_parsed chunk r st : sends undetached st (snd (read_bytes chunk r st)).
Proof.
  unfold read_bytes. pose proof (frame_lines_ok (parser r) chunk) as Hok.
  destruct (frame_lines (parser r) chunk) as [batch a].
  pose proof (process_batch_parsed batch (turn_open_epoch r) st Hok) as Hs. by destruct (process_batch batch _).
Qed.

Lemma drain_parsed chunks r st : sends undetached st (snd (drain chunks r st)).
Proof.
  revert r st. induction chunks as [|[chunk []] l IH]; intros r st; simpl; try apply sends_refl.
  pose proof (read_bytes_parsed chunk r st) as K. destruct (read_bytes chunk r st) as [r1 st1].
  eapply sends_then; [exact K|]. apply IH.
Qed.

(** The last thing said is [Detached], and nobody is left waiting. *)
Definition ended_from st st' : Prop :=
  turn_in_flight st' = false /\ turn_gen st' = turn_gen st /\
  exists l exit summary,
    event_tx st' = event_tx st ++ l ++ [mkSessionEnvelope reader_session_id (turn_gen st') (Detached exit summary)] /\
    Forall undetached l.

Lemma ended_after st st1 st' : sends undetached st st1 -> ended_from st1 st' -> ended_from st st'.
Proof.
  intros (Hg & l & Hl & Hp) (Hf & Hg' & l' & exit & sm & Hl' & Hp'). split; [done|]. split; [congruence|].
  exists (l ++ l'), exit, sm.
  rewrite Hl', Hl, <- !app_assoc. split; [done|]. by apply Forall_app.
Qed.

Lemma finish_ends e waited summary r st : ended_from st (finish e waited summary r st).
Proof.
  unfold finish. set (st1 := if panicked e then st else _).
  assert (K : sends undetached st st1).
  { subst st1. destruct (panicked e); [apply sends_refl|]. apply process_batch_parsed, flush_tail_ok. }
  eapply ended_after; [exact K|]. split; [done|]. split; [done|]. by eexists [], _, _.
Qed.

Lemma read_step_sends o waited summary r st r' st' :
  read_step o waited summary r st = (r', st') ->
  match r' with Some _ => sends undetached st st' | None => ended_from st st' end.
Proof.
  unfold read_step. destruct o as [chunk []| | | |status drained]; try (intros [= <- <-]; apply finish_ends).
  - pose proof (read_bytes_parsed chunk r st) as K. destruct (read_bytes chunk r st). by intros [= <- <-].
  - destruct (seen_frame r); intros [= <- <-]; [apply sends_refl|apply finish_ends].
  - destruct (seen_frame r); [|intros [= <- <-]; apply sends_refl].
    pose proof (drain_parsed drained r st) as K. destruct (drain drained r st) as [[p r1] st1].
    intros [= <- <-]. eapply ended_after; [exact K|apply finish_ends].
Qed.

(** The task: it reads until a read ends it. *)
Fixpoint read_all (reads : list (Read.t * option ExitStatusLite * option string)) (r : Reader) st
    : option Reader * ClaudeReaderState :=
  match reads with
  | [] => (Some r, st)
  | (o, waited, summary) :: reads' =>
      match read_step o waited summary r st with
      | (Some r, st) => read_all reads' r st
      | (None, st) => (None, st)
      end
  end.

(** The reads that end the task; the timeout counts before the first bytes,
    the exit after them. *)
Definition ends (seen : bool) (o : Read.t) : bool :=
  match o with
  | Read.Bytes _ panics => panics
  | Read.Eof | Read.ReadError => true
  | Read.StartupTimeout => negb seen
  | Read.Exited _ _ => seen
  end.
Fixpoint some_read_ends (seen : bool) (reads : list (Read.t * option ExitStatusLite * option string)) : bool :=
  match reads with
  | [] => false
  | (o, _, _) :: reads' =>
      ends seen o || some_read_ends (match o with Read.Bytes _ _ => true | _ => seen end) reads'
  end.

Lemma read_step_ends o waited summary r st :
  match fst (read_step o waited summary r st) with
  | Some r' => ends (seen_frame r) o = false /\
      seen_frame r' = match o with Read.Bytes _ _ => true | _ => seen_frame r end
  | None => ends (seen_frame r) o = true
  end.
Proof.
  unfold read_step. destruct o as [chunk []| | | |status drained]; simpl; try done.
  - unfold read_bytes. destruct (frame_lines (parser r) chunk) as [batch a].
    by destruct (process_batch batch _).
  - by destruct (seen_frame r) eqn:E.
  - destruct (seen_frame r) eqn:E; [|done]. by destruct (drain drained r st) as [[p r1] st1].
Qed.

Lemma detached_settles s l env :
  state_ok s -> Forall undetached l -> is_detached (env_event env) = true ->
  is_terminal_state (run_events s (delivered (l ++ [env]))) = true.
Proof.
  intros Hs Hl He. unfold delivered. rewrite map_app. simpl map at 2. rewrite run_events_snoc.
  assert (Hok : state_ok (run_events s (delivered l))).
  { apply (run_list_invariant step_state state_ok); [done|]. intros. by apply step_ok. }
  fold (delivered l). unfold restamp_epoch. destruct (env_event env) eqn:E; try done. rewrite E.
  destruct (run_events s (delivered l)) as [|c|er|]; try done.
  rewrite step_decided; [apply verdict_terminal|by destruct Hok|done|done].
Qed.

(** C39. However the process ends, the session hears of it once and the turn
    ends.  The task stops at the end of the output, at an error, at a panic of
    its parser, at a startup that brings nothing in time or at the exit of a
    process whose output stays open, and never before; until then it never
    says that the process is gone; when it stops it clears the flag of the turn
    and its last word is [Detached], after which no turn of the session is
    running. *)
Theorem process_end_ends_turn (reads : list (Read.t * option ExitStatusLite * option string))
    (st : ClaudeReaderState) (s : SessionState) :
  state_ok s ->
  let '(r', st') := read_all reads new_reader st in
  match r' with
  | Some _ => some_read_ends false reads = false /\ Forall undetached (sent_since st st')
  | None =>
      some_read_ends false reads = true /\ ended_from st st' /\
      is_terminal_state (run_events s (delivered (sent_since st st'))) = true
  end.
Proof.
  intros Hs. change false with (seen_frame new_reader) at 1 3. generalize new_reader as r. intros r.
  assert (K : let '(r', st') := read_all reads r st in
    match r' with
    | Some _ => some_read_ends (seen_frame r) reads = false /\ sends undetached st st'
    | None => some_read_ends (seen_frame r) reads = true /\ ended_from st st'
    end).
  { revert r st. induction reads as [|[[o waited] summary] reads IH]; intros r st; simpl; [by split; [|apply sends_refl]|].
    pose proof (read_step_ends o waited summary r st) as He.
    destruct (read_step o waited summary r st) as [[r1|] st1] eqn:E; simpl in He;
      pose proof (read_step_sends _ _ _ _ _ _ _ E) as K; simpl in K.
    - destruct He as [-> Hseen]. specialize (IH r1 st1). rewrite Hseen in IH. simpl.
      destruct (read_all reads r1 st1) as [[r2|] st2]; destruct IH as [-> IH]; (split; [done|]).
      + by eapply sends_then.
      + by eapply ended_after.
    - by rewrite He. }
  destruct (read_all reads r st) as [[r'|] st']; destruct K as [-> K]; (split; [done|]).
  - by apply sent_since_app in K as [_ K].
  - split; [done|]. destruct K as (_ & _ & l & exit & sm & Hl & Hp). unfold sent_since.
    rewrite Hl, drop_app_length. by apply detached_settles.
Qed.

End Turns.

(** ** Runs *)
Module TurnRuns.
Import SampleJson SampleBase64.

#[export] Instance session : ReaderConfig := {| reader_session_id := "s"; want_init_model := true |}.

(** The first turn was cancelled and replaced; its result comes late and as an
    error. *)
Definition late_result : Value :=
  v_obj [("type", v_str "result"); ("is_error", v_bool true); ("subtype", v_str "error_during_execution")].
Definition late_reader : Reader := mkReader new_adapter 1 true.
Definition late_state : ClaudeReaderState := set_turn_gen 2 new_reader_state.


(** The process starts, dies in the middle of its result and is reaped. *)
Definition dying : list (Read.t * option ExitStatusLite * option string) :=
  [(Read.Bytes (ndjson_line (v_obj [("type", v_str "system"); ("subtype", v_str "init")])) false, None, None);
   (Read.Bytes (into_bytes "1010") false, None, None);
   (Read.Eof, Some (mkExitStatusLite None (Some 9%Z)), Some "killed")].

Lemma process_end_ends_turn_witness :
  state_ok (Running (fresh_turn 1)) /\
  fst (read_all dying new_reader new_reader_state) = None /\
  ended_from new_reader_state (snd (read_all dying new_reader new_reader_state)) /\
  is_terminal_state (run_events (Running (fresh_turn 1))
    (delivered (sent_since new_reader_state (snd (read_all dying new_reader new_reader_state))))) = true.
Proof.
  assert (Hs : state_ok (Running (fresh_turn 1))) by (repeat split; simpl; try done; constructor).
  split; [exact Hs|].
  pose proof (process_end_ends_turn dying new_reader_state (Running (fresh_turn 1)) Hs) as K.
  assert (E : fst (read_all dying new_reader new_reader_state) = None) by (vm_compute; reflexivity).
  split; [exact E|]. destruct (read_all dying new_reader new_reader_state) as [r' st'].
  simpl in E. subst r'. destruct K as (_ & K1 & K2). by split.
Defined.

End TurnRuns.
