(* ===== verification/ClaudeSession.v ===== *)
(** * What the claude backend achieves *)

From S2P Require Import Prelude SessionEvent SessionState SessionReducer SessionOrchestrator SessionCommand.
From S2P Require Import SerdeJson ClaudeAdapter ClaudeFrames ClaudeReader ClaudeTurns ClaudeBackend Interleave.
From stdpp Require Import pretty.

(** ** One command at a time *)
Section Sequential.
Context `{SerdeJsonOk} `{Base64} `{ReaderConfig} (io : Io).
Implicit Types b : Backend.

Definition exec {A : Type} (p : Op A) (b : Backend) : Result A BackendError.t * Backend := run p b.

(** The process takes what is written. *)
Definition accepts (b : Backend) (l : list Value) : Prop :=
  stdin_open b = true /\ Forall (fun v => write_error io v = None) l.

Lemma run_write_line b v :
  accepts b [v] -> run (write_line io v) b = (Ok tt, set_wire (wire b ++ [v]) b).
Proof. intros [Ho Hw]. unfold write_line, atomic. simpl. rewrite Ho. simpl. by rewrite (Forall_inv Hw). Qed.

Lemma run_write_control b v :
  accepts b [v] -> run (write_control_frame io v) b = (Ok tt, set_wire (wire b ++ [v]) b).
Proof. intros Ha. unfold write_control_frame. by rewrite run_map_err, (run_write_line b v Ha). Qed.

Lemma set_wire_wire l l' b : set_wire l (set_wire l' b) = set_wire l b.
Proof. done. Qed.

Lemma run_write_all l b :
  accepts b l -> run (try_each (write_control_frame io) l) b = (Ok tt, set_wire (wire b ++ l) b).
Proof.
  revert b. induction l as [|v l IH]; intros b [Ho Hw]; cbn [try_each].
  - simpl. rewrite app_nil_r. by destruct b.
  - rewrite run_try, run_write_control by (split; [done|]; constructor; [by inversion Hw|constructor]).
    rewrite IH by (split; [done|by inversion Hw]). simpl. by rewrite <- app_assoc.
Qed.

(** *** Sending *)
Definition all_allowed (b : Backend) (content : list ContentBlock.t) : Prop :=
  List.find (fun blk => negb (allows (prompt_blocks (merged_capabilities b)) blk)) content = None.

(** The state after a prompt was accepted. *)
Definition sent_prompt (b : Backend) (prompt : Value) : Backend :=
  on_shared (fun st => set_turn_gen (turn_gen st + 1) (set_in_flight true st))
    (set_wire (wire b ++ pending_controls b ++ [prompt])
      (set_controls [] (set_suspend (set_activity (now_ms io) (suspend b)) b))).

Lemma run_send b content metadata :
  let prompt := prompt_line content (client_msg_id metadata) in
  all_allowed b content -> (exists r, slot (suspend b) = Slot.Active r) ->
  accepts b (pending_controls b ++ [prompt]) ->
  exec (dispatch io (Command.Send content metadata)) b =
    (Ok (mkCommandReceipt true Admission.Started (turn_gen (shared b) + 1)), sent_prompt b prompt).
Proof.
  intros prompt Hall [r Hslot] [Ho Hw]. apply Forall_app in Hw as [Hw1 Hw2].
  unfold exec, dispatch, dispatch_send. rewrite run_bind. cbn [run reading atomic]. rewrite Hall.
  rewrite run_try. unfold ensure_awake. cbn [run atomic]. rewrite Hslot. cbn [fst snd].
  rewrite run_try. unfold drain_pending_controls. rewrite run_bind. cbn [run atomic].
  rewrite run_write_all by by split.
  rewrite run_bind. cbn [run atomic changing]. rewrite run_bind. cbn [run atomic reading].
  rewrite run_try, run_map_err, run_write_line by by split.
  rewrite run_bind. cbn [run atomic]. unfold sent_prompt. simpl. by rewrite <- app_assoc.
Qed.

(** A prompt goes out after the switches that waited for it.  A [Send]
    whose blocks the backend declares, to a process that is up and takes what
    is written, writes the queued switches in order and then the prompt, once
    each, leaves the queue empty, marks the turn in flight and answers with the
    next epoch; a block that is not declared is refused by name and nothing
    moves; a prompt the process does not take is a retryable start if no
    prompt was ever taken and a broken transport after, and takes no epoch. *)
Theorem send_writes_queue_then_prompt (b : Backend) (content : list ContentBlock.t) (metadata : CommandMeta)
    (reader : option Reader) :
  slot (suspend b) = Slot.Active reader -> stdin_open b = true ->
  Forall (fun v => write_error io v = None) (pending_controls b) ->
  let prompt := prompt_line content (client_msg_id metadata) in
  let '(r, b') := exec (dispatch io (Command.Send content metadata)) b in
  match List.find (fun blk => negb (allows (prompt_blocks (merged_capabilities b)) blk)) content, write_error io prompt with
  | Some bad, _ => r = Err (BackendError.CommandNotSupported (block_kind_name bad)) /\ b' = b
  | None, None =>
      r = Ok (mkCommandReceipt true Admission.Started (turn_gen (shared b) + 1)) /\
      wire b' = wire b ++ pending_controls b ++ [prompt] /\ pending_controls b' = [] /\
      turn_in_flight (shared b') = true /\ turn_gen (shared b') = (turn_gen (shared b) + 1)%N
  | None, Some e =>
      r = Err (if (turn_gen (shared b) =? 0)%N
               then BackendError.HandshakeTimeout ("claude still starting: " +:+ ProcessError.display e)
               else BackendError.Transport ("deliver_prompt: " +:+ ProcessError.display e)) /\
      wire b' = wire b ++ pending_controls b /\ turn_gen (shared b') = turn_gen (shared b)
  end.
Proof.
  intros Hslot Ho Hw prompt. destruct (List.find _ content) as [bad|] eqn:Hall.
  { unfold exec, dispatch, dispatch_send. rewrite run_bind. cbn [run reading atomic]. by rewrite Hall. }
  destruct (write_error io prompt) as [e|] eqn:He.
  - unfold exec, dispatch, dispatch_send. rewrite run_bind. cbn [run reading atomic]. rewrite Hall.
    rewrite run_try. unfold ensure_awake. cbn [run atomic]. rewrite Hslot. cbn [fst snd].
    rewrite run_try. unfold drain_pending_controls. rewrite run_bind. cbn [run atomic].
    rewrite run_write_all by by split.
    rewrite run_bind. cbn [run atomic changing]. rewrite run_bind. cbn [run atomic reading].
    rewrite run_try, run_map_err. unfold write_line. cbn [run atomic]. simpl. rewrite Ho. simpl.
    fold prompt. rewrite He. simpl. by destruct (turn_gen (shared b) =? 0)%N.
  - pose proof (run_send b content metadata Hall (ex_intro _ reader Hslot)) as K. cbv zeta in K. fold prompt in K.
    rewrite K; [|split; [done|apply Forall_app; split; [done|by repeat constructor]]]. unfold sent_prompt. done.
Qed.

(** *** Switching mode and model in the middle of a turn *)
Definition switch_command (x : string * string) : Command.t Value :=
  if (x.1 =? "set_model")%string then Command.SetModel x.2 else Command.SetMode x.2.
Definition switch_request (x : string * string) : Value :=
  if (x.1 =? "set_model")%string then v_obj [("subtype", v_str "set_model"); ("model", v_str x.2)]
  else v_obj [("subtype", v_str "set_permission_mode"); ("mode", v_str x.2)].
Definition is_switch (x : string * string) : Prop := x.1 = "set_model" \/ x.1 = "set_permission_mode".

Definition exec_all (cmds : list (Command.t Value)) (b : Backend) : Backend :=
  fold_left (fun b cmd => snd (exec (dispatch io cmd) b)) cmds b.

Definition of_kind (kind : string) (q : list Value) : list Value :=
  List.filter (fun f => bool_decide (control_subtype f = Some kind)) q.
Definition last_switch (kind : string) (l : list (string * string)) : option (string * string) :=
  last (List.filter (fun x => (x.1 =? kind)%string) l).

Lemma queue_of_kind kind f q :
  of_kind kind (queue_control f q) = if bool_decide (control_subtype f = Some kind) then [f] else of_kind kind q.
Proof.
  unfold of_kind, queue_control. rewrite List.filter_app. simpl.
  destruct (bool_decide (control_subtype f = Some kind)) eqn:E.
  - apply bool_decide_eq_true in E. rewrite E. replace (List.filter _ (List.filter _ q)) with (@nil Value); [done|].
    induction q as [|g q IH]; simpl; [done|]. destruct (bool_decide (control_subtype g = Some kind)) eqn:Eg; simpl; [done|].
    by rewrite Eg.
  - rewrite app_nil_r. apply bool_decide_eq_false in E.
    induction q as [|g q IH]; simpl; [done|]. destruct (bool_decide (control_subtype g = control_subtype f)) eqn:Eg; simpl.
    + apply bool_decide_eq_true in Eg. rewrite Eg, bool_decide_eq_false_2 by done. exact IH.
    + by destruct (bool_decide (control_subtype g = Some kind)); [f_equal|].
Qed.

Lemma switch_subtype id x :
  is_switch x -> control_subtype (control_request id (switch_request x)) = Some x.1.
Proof.
  destruct x as [k v]. unfold is_switch, control_subtype, control_request, switch_request. simpl.
  intros [->| ->]; by read_json.
Qed.

Lemma run_queue req b :
  turn_in_flight (shared b) = true ->
  exists id, run (write_or_queue_control io req) b =
    (Ok id, set_controls (queue_control (control_request id req) (pending_controls b)) (set_seq (control_seq b + 1) b)).
Proof.
  intros Hf. exists ("ctl-" +:+ pretty (control_seq b + 1)%N). unfold write_or_queue_control.
  rewrite run_bind. unfold next_seq. cbn [run atomic]. rewrite run_bind. cbn [run atomic reading].
  simpl shared. by rewrite Hf.
Qed.

Lemma exec_switch x b :
  is_switch x -> turn_in_flight (shared b) = true ->
  let b' := snd (exec (dispatch io (switch_command x)) b) in
  exists id, pending_controls b' = queue_control (control_request id (switch_request x)) (pending_controls b) /\
    wire b' = wire b /\ turn_in_flight (shared b') = true /\ suspend b' = suspend b /\
    stdin_open b' = stdin_open b /\ backend_capabilities b' = backend_capabilities b.
Proof.
  intros Hx Hf. destruct (run_queue (switch_request x) b Hf) as [id Hr]. exists id.
  destruct x as [k v], Hx as [Hk|Hk]; simpl in Hk; subst k; unfold exec, switch_command, dispatch;
    simpl (_ =? _)%string; cbv iota; rewrite run_try; unfold switch_request in Hr; simpl in Hr |- *; by rewrite Hr.
Qed.

(** The last switch of a kind wins, and none reaches the process in the
    middle of a turn.  Whatever modes and models are asked for while a turn is
    in flight, nothing is written; with the next prompt go out, just before it,
    for each of the two kinds exactly one frame if it was asked for, with the
    value asked for last. *)
Theorem last_switch_wins (b : Backend) (switches : list (string * string)) (content : list ContentBlock.t)
    (metadata : CommandMeta) (reader : option Reader) :
  turn_in_flight (shared b) = true -> pending_controls b = [] ->
  slot (suspend b) = Slot.Active reader -> stdin_open b = true ->
  (forall v, write_error io v = None) -> (forall x, In x switches -> is_switch x) ->
  all_allowed b content ->
  let b1 := exec_all (map switch_command switches) b in
  let b2 := snd (exec (dispatch io (Command.Send content metadata)) b1) in
  wire b1 = wire b /\
  exists queued, wire b2 = wire b ++ queued ++ [prompt_line content (client_msg_id metadata)] /\
    forall kind, map (v_get "request") (of_kind kind queued) =
      match last_switch kind switches with Some x => [Some (switch_request x)] | None => [] end.
Proof.
  intros Hf Hq Hslot Ho Hw Hsw Hall b1 b2.
  assert (K : turn_in_flight (shared b1) = true /\ wire b1 = wire b /\ suspend b1 = suspend b /\
    stdin_open b1 = stdin_open b /\ backend_capabilities b1 = backend_capabilities b /\
    forall kind, map (v_get "request") (of_kind kind (pending_controls b1)) =
      match last_switch kind switches with Some x => [Some (switch_request x)] | None => [] end).
  { subst b1 b2. unfold exec_all. induction switches as [|x l IH] using rev_ind; [simpl; by rewrite Hq|].
    rewrite map_app, fold_left_app. cbn [fold_left map].
    destruct IH as (IH1 & IH2 & IH3 & IH4 & IH5 & IH6); [intros y Hy; apply Hsw, in_or_app; by left|].
    assert (Hx : is_switch x) by (apply Hsw, in_or_app; right; by left).
    destruct (exec_switch x _ Hx IH1) as (id & E1 & E2 & E3 & E4 & E5 & E6).
    rewrite E1, E2, E3, E4, E5, E6. do 5 (split; [done|]). intros kind.
    rewrite queue_of_kind, switch_subtype by done. unfold last_switch. rewrite List.filter_app. simpl.
    destruct (String.eqb_spec x.1 kind) as [->|Hne].
    - rewrite bool_decide_eq_true_2 by done. rewrite last_snoc. simpl. unfold control_request. by read_json.
    - rewrite bool_decide_eq_false_2 by congruence. rewrite app_nil_r. apply IH6. }
  destruct K as (K1 & K2 & K3 & K4 & K5 & K6). split; [done|]. exists (pending_controls b1).
  split; [|done]. subst b2. rewrite run_send; [unfold sent_prompt; simpl; by rewrite K2|..].
  - unfold all_allowed, merged_capabilities. rewrite K5. exact Hall.
  - exists reader. by rewrite K3.
  - split; [by rewrite K4|]. by apply Forall_forall.
Qed.

(** *** Answering a permission *)
Lemma run_unknown_answer b id d sel ans :
  pending_perms (shared b) !! id = None ->
  exec (dispatch io (Command.AnswerPermission id d sel ans)) b =
    (Err (BackendError.Transport ("no pending permission for request_id " +:+ id)), b).
Proof.
  intros Hp. unfold exec, dispatch, answer_permission. rewrite run_bind. cbn [run atomic]. rewrite Hp.
  cbn [run]. unfold on_shared, set_perms. rewrite delete_id by done. by destruct b as [? ? ? [] ? ? ? ? ?].
Qed.

(** A permission is answered once.  The first answer to a request the
    process is waiting for writes the response to it and nothing else, tells
    the session that the request is resolved, and forgets the request and no
    other; any further answer to it is refused, writes nothing and tells
    nothing. *)
Theorem permission_answered_once (b : Backend) (id : string) (p : PendingPerm) (decision : PermissionDecision.t)
    (selected : option string) (answers : list QuestionAnswer) :
  pending_perms (shared b) !! id = Some p ->
  accepts b [build_control_response id p decision selected answers] ->
  let gen := turn_gen (shared b) in
  let '(r, b') := exec (dispatch io (Command.AnswerPermission id decision selected answers)) b in
  r = Ok (mkCommandReceipt true Admission.NoTurn gen) /\
  wire b' = wire b ++ [build_control_response id p decision selected answers] /\
  event_tx (shared b') = event_tx (shared b) ++
    [mkSessionEnvelope reader_session_id gen (PermissionResolved id PermissionKind.Tool)] /\
  pending_perms (shared b') = delete id (pending_perms (shared b)) /\
  forall decision2 selected2 answers2,
    exec (dispatch io (Command.AnswerPermission id decision2 selected2 answers2)) b' =
      (Err (BackendError.Transport ("no pending permission for request_id " +:+ id)), b').
Proof.
  intros Hp Ha gen. unfold exec at 1, dispatch at 1, answer_permission. rewrite run_bind. cbn [run atomic].
  rewrite Hp. cbn [fst snd]. rewrite run_try, run_map_err, run_write_line by done.
  rewrite run_bind. cbn [run atomic reading]. rewrite run_bind. cbn [run atomic changing].
  split; [done|]. split; [done|]. split; [done|]. split; [done|].
  intros d2 s2 a2. apply run_unknown_answer. simpl. by rewrite lookup_delete_eq.
Qed.

End Sequential.

(** ** What a response says *)
Section Response.
Context `{SerdeJsonOk}.

Definition response_body (v : Value) : option Value := v_get "response" v.
Definition result_of (v : Value) : option Value := field "response" (response_body v).
Definition updated_input (v : Value) : option Value := field "updatedInput" (result_of v).

Lemma assoc_last_map {A B : Type} (f : A -> string * B) (l : list A) (a : A) l' :
  l = l' ++ [a] -> assoc_last (fst (f a)) (map f l) = Some (snd (f a)).
Proof.
  intros ->. unfold assoc_last. rewrite map_app, fold_left_app. simpl. destruct (f a) as [k x]. simpl.
  by rewrite String.eqb_refl.
Qed.

Lemma assoc_last_skip {A : Type} (l1 l2 : list (string * A)) k :
  Forall (fun kv => fst kv <> k) l2 -> assoc_last k (l1 ++ l2) = assoc_last k l1.
Proof.
  intros Hl. unfold assoc_last. rewrite fold_left_app. generalize (fold_left (fun found '(k', x) =>
    if (k' =? k)%string then Some x else found) l1 None) as acc.
  induction Hl as [|[k' x] l2 Hk _ IH]; intros acc; [done|]. simpl in Hk |- *.
  rewrite (proj2 (String.eqb_neq k' k) Hk). apply IH.
Qed.

(** The response carries the decision.  It names the request and the tool
    use; it allows exactly what was approved; an approved tool runs on the
    input it asked with (an empty record if that was none), as its schema
    demands; and for the questions of [AskUserQuestion] every answer given
    last for its question is there under the question's text, beside the
    input unchanged. *)
Theorem response_says_decision (id : string) (p : PendingPerm) (decision : PermissionDecision.t)
    (selected : option string) (answers : list QuestionAnswer) :
  let v := build_control_response id p decision selected answers in
  text_of (field "request_id" (response_body v)) = id /\
  text_of (field "toolUseID" (result_of v)) = perm_tool_use_id p /\
  text_of (field "behavior" (result_of v)) = (if is_allow decision then "allow" else "deny") /\
  (is_allow decision = true ->
    exists input, updated_input v = Some input /\ is_object input = true /\
      if (perm_tool_name p =? "AskUserQuestion")%string then
        (is_object (perm_input p) = true -> forall k, k <> "answers" -> v_get k input = v_get k (perm_input p)) /\
        forall before a after, answers = before ++ a :: after ->
          Forall (fun a' => question a' <> question a) after ->
          field (question a) (v_get "answers" input) = Some (answer_value (labels a))
      else input = if is_object (perm_input p) then perm_input p else v_obj []).
Proof.
  intros v. subst v. unfold build_control_response, updated_input, result_of, response_body.
  destruct (is_allow decision); cbn [negb].
  2: { read_json. done. }
  destruct (perm_tool_name p =? "AskUserQuestion")%string; read_json.
  2: { do 3 (split; [done|]). intros _. eexists. split; [done|]. split; [|done].
       destruct (is_object (perm_input p)) eqn:E; [done|]. apply obj_is_object. }
  do 3 (split; [done|]). intros _. eexists. split; [done|].
  set (am := build_ask_user_question_answers _ _ _).
  assert (Ham : forall before a after, answers = before ++ a :: after ->
    Forall (fun a' => question a' <> question a) after -> v_get (question a) am = Some (answer_value (labels a))).
  { intros before a after -> Hafter. subst am. unfold build_ask_user_question_answers.
    destruct (before ++ a :: after) as [|x l] eqn:E; [by destruct before|]. rewrite <- E, get_obj.
    change (a :: after) with ([a] ++ after). rewrite app_assoc, map_app, assoc_last_skip.
    - by apply (assoc_last_map (fun a => (question a, answer_value (labels a))) _ a before).
    - apply List.Forall_map. by eapply Forall_impl; [exact Hafter|]. }
  destruct (is_object (perm_input p)) eqn:E.
  - split; [by rewrite insert_is_object|]. split.
    + intros _ k Hk. rewrite get_insert by done. by rewrite (proj2 (String.eqb_neq "answers" k)).
    + intros before a after Ha Hafter. rewrite get_insert by done. simpl. by apply (Ham before a after).
  - split; [apply obj_is_object|]. split; [done|].
    intros before a after Ha Hafter. read_json. by apply (Ham before a after).
Qed.

End Response.

(** ** Commands, readers and timers at the same time *)
Section Concurrent.
Context `{SerdeJson} `{Base64} `{ReaderConfig}.
Implicit Types b : Backend.

(** What runs on a session: any command, the idle timer, a turn of the reader,
    each with its own outside. *)
Inductive backend_op : Prog Backend (option CommandReceipt) -> Prop :=
| op_dispatch io cmd :
    backend_op (prog_bind (dispatch io cmd) (fun r => Ret (match r with Ok rec => Some rec | Err _ => None end)))
| op_idle io : backend_op (prog_bind (idle_tick io) (fun _ => Ret None))
| op_read o waited summary :
    backend_op (prog_bind (changing (reader_step o waited summary)) (fun _ => Ret None)).

(** No epoch in use is ahead of the turns accepted. *)
Definition epochs_ok b : Prop :=
  Forall (fun env => (env_turn_gen env <= turn_gen (shared b))%N) (event_tx (shared b)) /\
  match slot (suspend b) with
  | Slot.Active (Some r) => (turn_open_epoch r <= turn_gen (shared b))%N
  | _ => True
  end.

(** What each step keeps to. *)
Definition keeps b b' : Prop :=
  wake_recipe b' = wake_recipe b /\ (turn_gen (shared b) <= turn_gen (shared b'))%N /\
  (epochs_ok b -> epochs_ok b').

#[local] Instance keeps_preorder : PreOrder keeps.
Proof.
  split; [intros b; split; [done|]; split; [lia|done]|].
  intros b1 b2 b3 (K1 & K2 & K3) (L1 & L2 & L3). split; [congruence|]. split; [lia|auto].
Qed.

(** A state that differs where no epoch is. *)
Definition same_epochs b b' : Prop :=
  wake_recipe b' = wake_recipe b /\ suspend b' = suspend b /\
  turn_gen (shared b') = turn_gen (shared b) /\ event_tx (shared b') = event_tx (shared b).

Lemma keeps_same_epochs b b' : same_epochs b b' -> keeps b b'.
Proof.
  intros (E1 & E2 & E3 & E4). split; [done|]. split; [by rewrite E3|]. unfold epochs_ok. by rewrite E2, E3, E4.
Qed.

Lemma keeps_send gen e b : (gen <= turn_gen (shared b))%N -> keeps b (on_shared (send gen e) b).
Proof.
  intros Hg. split; [done|]. split; [done|]. intros [K1 K2]. split; [|done].
  simpl. apply Forall_app. split; [done|]. by repeat constructor.
Qed.

Lemma keeps_bump b : keeps b (on_shared (set_turn_gen (turn_gen (shared b) + 1)) b).
Proof.
  split; [done|]. split; [simpl; lia|]. intros [K1 K2]. split; simpl.
  - eapply Forall_impl; [exact K1|]. simpl. lia.
  - destruct (slot (suspend b)) as [[r|]|]; try done. lia.
Qed.

(** *** A turn of the reader *)
Definition sent_by (gen : N) (env : SessionEnvelope Value) : Prop := (env_turn_gen env <= gen)%N.

Lemma process_frame_epochs o gen f st :
  (o <= gen)%N ->
  (fst (process_frame gen (o, st) f) <= gen)%N /\ sends (sent_by gen) st (snd (process_frame gen (o, st) f)).
Proof.
  intros Ho. unfold process_frame.
  assert (K : forall o st', (o <= gen)%N -> sends (sent_by gen) st'
    (fold_left (fun st e => process_event gen o e st) (snd f) st')).
  { intros o' st' Ho'. apply sends_fold. intros st1 e _. unfold process_event. eapply sends_same.
    { instantiate (1 := if is_turn_result e then set_in_flight false st1 else st1). unfold same_log. by case_match. }
    apply sends_send. unfold sent_by. simpl. case_match; lia. }
  destruct f as [[v|] es]; simpl; [|by split; [|apply K]].
  split; [by destruct (is_init v); [reflexivity|]|].
  eapply sends_then; [|apply K; by destruct (is_init v)].
  eapply sends_weaken; [|apply sniff_frame_sends]. intros env [Hg _]. unfold sent_by. by rewrite Hg.
Qed.

Lemma process_batch_epochs batch o st :
  (o <= turn_gen st)%N ->
  (fst (process_batch batch (o, st)) <= turn_gen st)%N /\
  sends (sent_by (turn_gen st)) st (snd (process_batch batch (o, st))).
Proof.
  unfold process_batch. simpl snd at 1 3. generalize (turn_gen st) as gen. intros gen. revert o st.
  induction batch as [|f batch IH]; intros o st Ho; cbn [fold_left]; [by split; [|apply sends_refl]|].
  destruct (process_frame_epochs o gen f st Ho) as [K1 K2]. destruct (process_frame gen (o, st) f) as [o1 st1].
  destruct (IH o1 st1 K1) as [K3 K4]. split; [done|]. by eapply sends_then.
Qed.

Lemma read_bytes_epochs chunk r st :
  (turn_open_epoch r <= turn_gen st)%N ->
  (turn_open_epoch (fst (read_bytes chunk r st)) <= turn_gen st)%N /\
  sends (sent_by (turn_gen st)) st (snd (read_bytes chunk r st)).
Proof.
  intros Ho. unfold read_bytes. destruct (frame_lines (parser r) chunk) as [batch a].
  destruct (process_batch_epochs batch (turn_open_epoch r) st Ho) as [K1 K2]. by destruct (process_batch batch _).
Qed.

Lemma drain_epochs chunks r st :
  (turn_open_epoch r <= turn_gen st)%N ->
  (turn_open_epoch (snd (fst (drain chunks r st))) <= turn_gen st)%N /\
  sends (sent_by (turn_gen st)) st (snd (drain chunks r st)).
Proof.
  revert r st. induction chunks as [|[chunk []] l IH]; intros r st Ho; simpl; try by split; [|apply sends_refl].
  destruct (read_bytes_epochs chunk r st Ho) as [K1 K2]. destruct (read_bytes chunk r st) as [r1 st1].
  simpl in *. pose proof K2 as [Hg _]. rewrite <- Hg in K1. destruct (IH r1 st1 K1) as [K3 K4].
  rewrite Hg in K3, K4. split; [done|]. by eapply sends_then.
Qed.

Lemma finish_epochs e waited summary r st :
  (turn_open_epoch r <= turn_gen st)%N -> sends (sent_by (turn_gen st)) st (finish e waited summary r st).
Proof.
  intros Ho. unfold finish. set (st1 := if panicked e then st else _).
  assert (K : sends (sent_by (turn_gen st)) st st1).
  { subst st1. destruct (panicked e); [apply sends_refl|]. by apply process_batch_epochs. }
  eapply sends_then; [exact K|]. destruct K as [Hg _]. eapply sends_same; [|apply sends_send]; [done|].
  unfold sent_by. simpl. by rewrite Hg.
Qed.

Lemma read_step_epochs o waited summary r st :
  (turn_open_epoch r <= turn_gen st)%N ->
  match fst (read_step o waited summary r st) with
  | Some r' => (turn_open_epoch r' <= turn_gen st)%N
  | None => True
  end /\ sends (sent_by (turn_gen st)) st (snd (read_step o waited summary r st)).
Proof.
  intros Ho. unfold read_step. destruct o as [chunk []| | | |status drained]; simpl;
    try (by split; [|apply finish_epochs]).
  - destruct (read_bytes_epochs chunk r st Ho) as [K1 K2]. by destruct (read_bytes chunk r st).
  - by destruct (seen_frame r); split; try done; [apply sends_refl|apply finish_epochs].
  - destruct (seen_frame r); [|by split; [|apply sends_refl]].
    destruct (drain_epochs drained r st Ho) as [K1 K2]. destruct (drain drained r st) as [[p r1] st1].
    simpl in *. split; [done|]. pose proof K2 as [Hg _]. rewrite <- Hg in K1.
    eapply sends_then; [exact K2|]. rewrite <- Hg. by apply finish_epochs.
Qed.

Lemma keeps_reader o waited summary b : keeps b (reader_step o waited summary b).
Proof.
  unfold reader_step. destruct (slot (suspend b)) as [[r|]|] eqn:Es; try reflexivity.
  destruct (read_step o waited summary r (shared b)) as [r' st'] eqn:Er.
  assert (Hg : turn_gen st' = turn_gen (shared b)).
  { pose proof (read_step_sends _ _ _ _ _ _ _ Er) as K. destruct r'; [by destruct K|].
    by destruct K as (_ & Hg & _). }
  split; [done|]. split; [simpl; lia|]. intros [K1 K2]. rewrite Es in K2.
  pose proof (read_step_epochs o waited summary r (shared b) K2) as [L1 (_ & l & Hl & Hp)].
  rewrite Er in L1, Hl. simpl in L1, Hl. split; simpl.
  - rewrite Hg, Hl. apply Forall_app. split; [done|]. by eapply Forall_impl.
  - rewrite Hg. by destruct r'.
Qed.

(** *** The commands *)
Definition safe {A : Type} (p : Prog Backend A) : Prop := forall b, ensures keeps p (fun _ _ => True) b.

Lemma safe_ret {A} (a : A) : safe (Ret a).
Proof. by intros b b' _. Qed.

Lemma safe_atomic {A} (f : Backend -> A * Backend) : (forall b, keeps b (snd (f b))) -> safe (atomic f).
Proof. intros Hf b b' _. by split. Qed.

Lemma ens_bind {A B} (p : Prog Backend A) (k : A -> Prog Backend B) Q b :
  safe p -> (forall a b', keeps b b' -> ensures keeps (k a) Q b') -> ensures keeps (prog_bind p k) Q b.
Proof. intros Hp Hk. apply (ensures_bind keeps), (ensures_conseq keeps p (fun _ _ => True)); [apply Hp|]. intros a b' Hb _. by apply Hk. Qed.

Lemma safe_bind {A B} (p : Prog Backend A) (k : A -> Prog Backend B) :
  safe p -> (forall a, safe (k a)) -> safe (prog_bind p k).
Proof. intros Hp Hk b. apply ens_bind; [done|]. intros a b' _. apply Hk. Qed.

Lemma ens_try {A B E} (p : Prog Backend (Result A E)) (k : A -> Prog Backend (Result B E)) Q b :
  safe p -> (forall a b', keeps b b' -> ensures keeps (k a) Q b') -> (forall e b', Q (Err e) b') ->
  ensures keeps (try_bind p k) Q b.
Proof. intros Hp Hk He. apply ens_bind; [done|]. intros [a|e] b' Hb; [by apply Hk|]. intros b'' _. apply He. Qed.

Lemma safe_try {A B E} (p : Prog Backend (Result A E)) (k : A -> Prog Backend (Result B E)) :
  safe p -> (forall a, safe (k a)) -> safe (try_bind p k).
Proof. intros Hp Hk b. apply ens_try; [done| |done]. intros a b' _. apply Hk. Qed.

Lemma safe_map_err {A E F} (g : E -> F) (p : Prog Backend (Result A E)) : safe p -> safe (map_err g p).
Proof. intros Hp. apply safe_bind; [done|]. intros a. apply safe_ret. Qed.

Lemma safe_each {A E} (f : A -> Prog Backend (Result unit E)) l : (forall a, safe (f a)) -> safe (try_each f l).
Proof. intros Hf. induction l as [|a l IH]; simpl; [apply safe_ret|by apply safe_try]. Qed.

Lemma safe_reading {A} (f : Backend -> A) : safe (reading f).
Proof. by apply safe_atomic. Qed.

Lemma safe_changing (f : Backend -> Backend) : (forall b, keeps b (f b)) -> safe (changing f).
Proof. intros Hf. by apply safe_atomic. Qed.

Lemma safe_write_line io v : safe (write_line io v).
Proof.
  apply safe_atomic. intros b. destruct (negb (stdin_open b)); [reflexivity|].
  destruct (write_error io v); [reflexivity|]. by apply keeps_same_epochs.
Qed.

Lemma safe_next_seq : safe next_seq.
Proof. apply safe_atomic. intros b. by apply keeps_same_epochs. Qed.

Lemma safe_control_frame io v : safe (write_control_frame io v).
Proof. apply safe_map_err, safe_write_line. Qed.

Lemma safe_same (f : Backend -> Backend) : (forall b, same_epochs b (f b)) -> safe (changing f).
Proof. intros Hf. apply safe_changing. intros b. by apply keeps_same_epochs. Qed.

Create HintDb safe.
#[local] Hint Resolve safe_ret safe_reading safe_write_line safe_next_seq safe_control_frame : safe.
#[local] Hint Extern 1 (safe (changing _)) => (apply safe_same; done) : safe.

Lemma safe_queue io req : safe (write_or_queue_control io req).
Proof.
  apply safe_bind; [auto with safe|]. intros n. apply safe_bind; [auto with safe|].
  intros []; [apply safe_bind|apply safe_try]; intros; auto with safe.
Qed.

Lemma safe_drain io : safe (drain_pending_controls io).
Proof.
  apply safe_bind; [apply safe_atomic; intros b; by apply keeps_same_epochs|]. intros l. apply safe_each. auto with safe.
Qed.

Lemma safe_interrupt io : safe (interrupt_turn io).
Proof. apply safe_bind; [auto with safe|]. intros n. apply safe_bind; auto with safe. Qed.

Lemma keeps_fresh_reader b (r : option Reader) st :
  (forall r', r = Some r' -> r' = new_reader) -> sends (sent_by (turn_gen (shared b))) (shared b) st ->
  forall stdio, keeps b (set_suspend (set_slot (Slot.Active r) (suspend b)) (set_stdin stdio (set_shared st b))).
Proof.
  intros Hr (Hg & l & Hl & Hp) stdio. split; [done|]. simpl. split; [lia|]. intros [K1 K2]. split; simpl.
  - rewrite Hg, Hl. by apply Forall_app.
  - destruct r as [r|]; [|done]. rewrite (Hr r eq_refl). simpl. lia.
Qed.

Lemma keeps_activity now b : keeps b (set_suspend (set_activity now (suspend b)) b).
Proof. split; [done|]. split; [simpl; lia|]. done. Qed.

Lemma keeps_wake io b : keeps b (snd (wake io b)).
Proof.
  unfold wake. destruct (spawned io _) as [[]|e]; cbn [start_claude_reader snd]; [| |reflexivity].
  - apply keeps_fresh_reader; [by intros r' [= <-]|apply sends_refl].
  - apply keeps_fresh_reader; [done|]. unfold reader_without_stdio.
    eapply sends_same; [|apply sends_send]; [done|]. unfold sent_by. simpl. lia.
Qed.

Lemma safe_awake io : safe (ensure_awake io).
Proof.
  apply safe_atomic. intros b. destruct (slot (suspend b)) as [r|] eqn:Es; [apply keeps_activity|].
  pose proof (keeps_wake io b) as K. destruct (wake io b) as [[u|e] b1]; [|done].
  by transitivity b1; [|apply keeps_activity].
Qed.
#[local] Hint Resolve safe_queue safe_drain safe_interrupt safe_awake : safe.

Definition receipt_ok (r : Result CommandReceipt BackendError.t) b : Prop :=
  match r with Ok rec => (receipt_turn_gen rec <= turn_gen (shared b))%N | Err _ => True end.

(** A receipt under an epoch that was read. *)
Lemma ens_receipt accepted admission b :
  ensures keeps (prog_bind (reading (fun b => turn_gen (shared b)))
    (fun gen => Ret (Ok (mkCommandReceipt accepted admission gen)))) receipt_ok b.
Proof. intros b' _. split; [reflexivity|]. intros b'' (_ & Hg & _). exact Hg. Qed.

(** The same with an event sent under it in between. *)
Lemma ens_told e b :
  ensures keeps (prog_bind (reading (fun b => turn_gen (shared b))) (fun gen =>
    prog_bind (changing (on_shared (send gen e))) (fun _ =>
      Ret (Ok (mkCommandReceipt true Admission.NoTurn gen))))) receipt_ok b.
Proof.
  intros b1 _. split; [reflexivity|]. intros b2 (_ & Hg & _). split; [by apply keeps_send|].
  intros b3 (_ & Hg' & _). simpl in *. lia.
Qed.

Lemma ens_dispatch_send io content metadata b : ensures keeps (dispatch_send io content metadata) receipt_ok b.
Proof.
  unfold dispatch_send. apply ens_bind; [auto with safe|]. intros blocks b1 _.
  destruct (List.find _ content); [by intros b' _|].
  apply ens_try; [auto with safe| |done]. intros _ b2 _.
  apply ens_try; [auto with safe| |done]. intros _ b3 _.
  apply ens_bind; [auto with safe|]. intros _ b4 _.
  apply ens_bind; [auto with safe|]. intros gen b5 _.
  apply ens_try; [apply safe_map_err; auto with safe| |done]. intros _ b6 _.
  intros b7 _. split; [apply keeps_bump|]. intros b8 (_ & Hg & _). exact Hg.
Qed.

Lemma ens_answer io id d sel ans b : ensures keeps (answer_permission io id d sel ans) receipt_ok b.
Proof.
  unfold answer_permission. apply ens_bind.
  { apply safe_atomic. intros b'. by apply keeps_same_epochs. }
  intros [p|] b1 _; [|by intros b' _].
  apply ens_try; [apply safe_map_err; auto with safe| |done]. intros _ b2 _. apply ens_told.
Qed.

Lemma ens_dispatch io cmd b : ensures keeps (dispatch io cmd) receipt_ok b.
Proof.
  destruct cmd as [content md|[id| |]|content|id d sel ans|m c|n|mode|model|oid v|n| |kind]; cbn [dispatch];
    try (by intros b' _); try apply ens_dispatch_send; try apply ens_answer; try apply ens_receipt.
  - apply ens_bind; [auto with safe|]. intros _ b1 _. apply ens_receipt.
  - apply ens_bind; [auto with safe|]. intros _ b1 _. apply ens_receipt.
  - apply ens_try; [auto with safe| |done]. intros _ b1 _. apply ens_receipt.
  - apply ens_try; [auto with safe| |done]. intros _ b1 _. apply ens_told.
  - destruct (is_effort_option oid); [|by intros b' _]. unfold set_effort_option.
    apply ens_bind; [auto with safe|]. intros sup b1 _. destruct (negb sup); [by intros b' _|].
    apply ens_try; [auto with safe| |done]. intros id b2 _.
    apply ens_bind; [auto with safe|]. intros _ b3 _. apply ens_bind; [auto with safe|]. intros _ b4 _. apply ens_receipt.
  - unfold query_session_info. destruct kind; (apply ens_bind; [auto with safe|]); intros n b1 _;
      (apply ens_try; [auto with safe| |done]); intros _ b2 _; apply ens_receipt.
Qed.

Lemma keeps_suspend now active b : keeps b (set_suspend (snd (suspend_if_idle now active (suspend b))) b).
Proof.
  unfold suspend_if_idle. destruct (suspend_ttl (suspend b)) as [ttl|], active; try by destruct b.
  destruct (slot (suspend b)) eqn:Es; [|by destruct b]. destruct (ttl <=? _)%Z; [|by destruct b].
  split; [done|]. split; [simpl; lia|]. intros [K1 _]. by split.
Qed.

Lemma safe_idle io : safe (idle_tick io).
Proof.
  unfold idle_tick. apply safe_bind; [auto with safe|]. intros active. apply safe_bind.
  - apply safe_atomic. intros b. pose proof (keeps_suspend (now_ms io) active b) as K.
    by destruct (suspend_if_idle (now_ms io) active (suspend b)).
  - intros []; [|apply safe_ret]. apply safe_changing. intros b. by apply keeps_send.
Qed.

Definition receipt_known (r : option CommandReceipt) b : Prop :=
  match r with Some rec => (receipt_turn_gen rec <= turn_gen (shared b))%N | None => True end.

Lemma ens_op p b : backend_op p -> ensures keeps p receipt_known b.
Proof.
  destruct 1 as [io cmd|io|o waited summary].
  - apply (ensures_bind keeps), (ensures_conseq keeps _ receipt_ok); [apply ens_dispatch|].
    intros [rec|e] b' _ Hr b'' (_ & Hg & _); [|done]. simpl in *. lia.
  - apply ens_bind; [apply safe_idle|]. by intros _ b1 _ b2 _.
  - apply ens_bind; [apply safe_changing; apply keeps_reader|]. by intros _ b1 _ b2 _.
Qed.

Lemma pool_keeps b b' ts :
  rtc (pool_step backend_op) (b, []) (b', ts) ->
  keeps b b' /\ Forall (fun p => ensures keeps p receipt_known b') ts.
Proof.
  intros Hrun. destruct (pool_ensures keeps backend_op (fun _ => True) receipt_known b b' ts) as (K1 & _ & K2);
    try done. intros p b0 Hp _. by apply ens_op.
Qed.

(** C40. No epoch runs ahead of the prompts.  Whatever commands run on a session
    at the same time as each other, as its reader and as its idle timer, every
    event is sent under an epoch that was already handed out, the reader's open
    turn is one of them, no receipt carries a later one, and the counter only
    grows. *)
Theorem epochs_never_ahead (b b' : Backend) (ts : list (Prog Backend (option CommandReceipt))) :
  epochs_ok b -> rtc (pool_step backend_op) (b, []) (b', ts) ->
  epochs_ok b' /\ (turn_gen (shared b) <= turn_gen (shared b'))%N /\
  forall rec, In (Ret (Some rec)) ts -> (receipt_turn_gen rec <= turn_gen (shared b'))%N.
Proof.
  intros Hb Hrun. destruct (pool_keeps b b' ts Hrun) as [(_ & Hg & Hk) Hts].
  split; [by apply Hk|]. split; [done|]. intros rec Hrec.
  rewrite List.Forall_forall in Hts. apply (Hts _ Hrec). reflexivity.
Qed.

(** *** A process that was put to sleep *)
Definition has_permission_mode (mode : string) (args : list string) : Prop :=
  exists before after, args = before ++ ["--permission-mode"; mode] ++ after.

Lemma permission_mode_ok config :
  let mode := permission_mode (cfg_mode config) in
  has_permission_mode mode (build_claude_init_args config) /\ is_valid_claude_permission_mode mode = true /\
  (mode = "default" \/ trimmed (cfg_mode config) = Some mode).
Proof.
  intros mode. split.
  - unfold build_claude_init_args. rewrite app_assoc. eexists _, (_ :: _ :: _ :: _). reflexivity.
  - subst mode. unfold permission_mode. destruct (trimmed (cfg_mode config)) as [m|]; [|by split; [|left]].
    destruct (is_valid_claude_permission_mode m) eqn:E; by split; [|auto].
Qed.

Definition backend_id (s : LegacySessionSpec.t) : string :=
  match s with LegacySessionSpec.Fresh id | LegacySessionSpec.Resume id => id end.

Lemma safe_run {A} (p : Prog Backend A) b : safe p -> keeps b (snd (run p b)).
Proof. intros Hp. by apply (run_ensures keeps p (fun _ _ => True)). Qed.

Lemma safe_initialize io : safe (request_initialize io).
Proof. apply safe_bind; [auto with safe|]. intros n. apply safe_bind; auto with safe. Qed.

Lemma spawned_backend stdio config recipe sid now rc b :
  spawn_backend stdio config recipe sid now = (rc, b) -> wake_recipe b = recipe /\ epochs_ok b.
Proof.
  unfold spawn_backend. destruct stdio; intros [= <- <-]; (split; [done|]); split; simpl; try done.
  by repeat constructor.
Qed.

Lemma opened io uuid spec config rc b :
  open_session io uuid spec config = Ok (rc, b) ->
  wake_recipe b = mkWakeRecipe (backend_id (to_legacy_spec uuid spec).2) (cfg_cwd config)
    (prepend_args (build_claude_init_args config) (cfg_extra_args config)) (spawn_env config) (cli_program config) /\
  epochs_ok b.
Proof.
  unfold open_session. destruct (to_legacy_spec uuid spec) as [[lid cid] legacy] eqn:El.
  assert (Ec : cid = backend_id legacy).
  { destruct spec as [s|s [bid|]]; simpl in El; injection El as <- <- <-; done. }
  destruct (spawned io _) as [stdio|e]; [|done]. cbv zeta.
  destruct (spawn_backend stdio config _ lid (now_ms io)) as [rc0 b0] eqn:Es.
  destruct (spawned_backend _ _ _ _ _ _ _ Es) as [Hr He].
  pose proof (safe_run _ b0 (safe_initialize io)) as (K1 & _ & K3).
  intros E. assert (b = snd (run (request_initialize io) b0)) as -> by congruence.
  split; [by rewrite K1, Hr, Ec|by apply K3].
Qed.

(** A process that wakes is the one that slept.  Whatever happened on a
    session since it was opened, the process that a prompt to a sleeping
    session starts is the program of the opening, in its directory and
    environment and with its arguments, resuming the id the opening started:
    the id it was asked to resume, the session's own where that is a UUID, a
    new one otherwise.  Its arguments name one known permission mode, which is
    [default] unless it was configured. *)
Theorem woken_process_resumes (io : Io) (uuid : Uuid) (spec : SessionSpec.t) (config : SessionConfig Value)
    (rc : ReaderConfig) (b b' : Backend) (ts : list (Prog Backend (option CommandReceipt))) :
  open_session io uuid spec config = Ok (rc, b) -> rtc (pool_step backend_op) (b, []) (b', ts) ->
  let id := claude_session_id (wake_recipe b') in
  let args := prepend_args (build_claude_init_args config) (cfg_extra_args config) in
  let mode := permission_mode (cfg_mode config) in
  resume_spec (wake_recipe b') =
    start_spec (LegacySessionSpec.Resume id) (cfg_cwd config) args (spawn_env config) (cli_program config) /\
  match spec with
  | SessionSpec.Resume _ (Some bid) => id = bid
  | SessionSpec.Fresh s | SessionSpec.Resume s None => id = if is_uuid uuid s then s else new_v4 uuid
  end /\
  has_permission_mode mode (spec_args (resume_spec (wake_recipe b'))) /\
  is_valid_claude_permission_mode mode = true /\ (mode = "default" \/ trimmed (cfg_mode config) = Some mode).
Proof.
  intros Hopen Hrun id args mode. destruct (opened _ _ _ _ _ _ Hopen) as [Hw _].
  destruct (pool_keeps b b' ts Hrun) as [(Hr & _) _]. rewrite Hw in Hr. subst id. rewrite Hr.
  split; [done|]. split; [by destruct spec as [s|s [bid|]]|].
  destruct (permission_mode_ok config) as ((before & after & Ha) & K). split; [|exact K].
  unfold resume_spec, start_spec, start_args, prepend_args. simpl. rewrite Ha.
  eexists (_ :: _ :: _ :: _ :: _ :: _ :: _ :: _ :: _ :: _ :: _ :: _ :: before), _.
  simpl. do 12 f_equal. rewrite <- !app_assoc. simpl. reflexivity.
Qed.

End Concurrent.

(** ** Runs *)
Module BackendRuns.
Import SampleJson SampleBase64 TurnRuns.

Definition quiet : Io := {| write_error := fun _ => None; spawned := fun _ => Ok true; now_ms := 1000 |}.
Definition broken : Io :=
  {| write_error := fun _ => Some (ProcessError.Internal "gone"); spawned := fun _ => Ok true; now_ms := 1000 |}.
Definition ids : Uuid := {| is_uuid := String.eqb "u-1"; new_v4 := "u-2" |}.

(** A session that was opened with every permission, in its first turn. *)
Definition bypassing : SessionConfig Value :=
  mkSessionConfig None None (Some "bypassPermissions") [] (Some 500%Z) (mkSessionInit [] [] None None false)
    [] None None None.
Definition opened_session : Result (ReaderConfig * Backend) BackendError.t :=
  open_session quiet ids (SessionSpec.Fresh "s") bypassing.
Definition no_backend : Backend :=
  mkBackend _ claude_capabilities false [] new_reader_state (mkSuspend _ Slot.Dormant 0 None)
    (mkWakeRecipe "" None [] [] None) [] 0 None.
Definition fresh : Backend := match opened_session with Ok (_, b) => b | Err _ => no_backend end.

Definition prompt : list ContentBlock.t := [ContentBlock.Text "go"].
Definition meta (id : string) : CommandMeta := mkCommandMeta 0 None [] (Some id).
Definition send_one (b : Backend) : Backend := snd (exec (dispatch quiet (Command.Send prompt (meta "m"))) b).
Definition busy : Backend := send_one fresh.
Definition set_mode (m : string) (b : Backend) : Backend := snd (exec (dispatch quiet (Command.SetMode m)) b).

Lemma send_writes_queue_then_prompt_witness :
  slot (suspend (set_mode "plan" busy)) = Slot.Active (Some new_reader) /\
  let '(r, b') := exec (dispatch quiet (Command.Send prompt (meta "m2"))) (set_mode "plan" busy) in
  r = Ok (mkCommandReceipt true Admission.Started 2) /\
  wire b' = wire busy ++ [control_request "ctl-2" (switch_request ("set_permission_mode", "plan"));
    prompt_line prompt (Some "m2")].
Proof.
  assert (Hs : slot (suspend (set_mode "plan" busy)) = Slot.Active (Some new_reader)) by reflexivity.
  split; [exact Hs|].
  assert (Ho : stdin_open (set_mode "plan" busy) = true) by reflexivity.
  assert (Hw : Forall (fun v => write_error quiet v = None) (pending_controls (set_mode "plan" busy)))
    by (by apply Forall_forall).
  pose proof (send_writes_queue_then_prompt quiet (set_mode "plan" busy) prompt (meta "m2") _ Hs Ho Hw) as K.
  cbv zeta in K. destruct (exec _ _) as [r b']. simpl (client_msg_id _) in K.
  replace (List.find _ prompt) with (@None ContentBlock.t) in K by reflexivity.
  simpl (write_error _ _) in K. cbv iota in K. destruct K as (Kr & Kw & _). split.
  - rewrite Kr. reflexivity.
  - rewrite Kw. reflexivity.
Defined.

Definition switches : list (string * string) :=
  [("set_model", "opus"); ("set_permission_mode", "plan"); ("set_model", "haiku")].

Lemma last_switch_wins_witness :
  turn_in_flight (shared busy) = true /\
  wire (exec_all quiet (map switch_command switches) busy) = wire busy /\
  exists queued,
    wire (send_one (exec_all quiet (map switch_command switches) busy)) = wire busy ++ queued ++ [prompt_line prompt (Some "m")] /\
    map (v_get "request") (of_kind "set_model" queued) = [Some (switch_request ("set_model", "haiku"))].
Proof.
  assert (Hf : turn_in_flight (shared busy) = true) by reflexivity.
  split; [exact Hf|].
  assert (Hsw : forall x, In x switches -> is_switch x)
    by (intros x [<-|[<-|[<-|[]]]]; (left; reflexivity) || (right; reflexivity)).
  assert (Hq : pending_controls busy = []) by reflexivity.
  assert (Hs : slot (suspend busy) = Slot.Active (Some new_reader)) by reflexivity.
  assert (Ho : stdin_open busy = true) by reflexivity.
  assert (Ha : all_allowed busy prompt) by reflexivity.
  destruct (last_switch_wins quiet busy switches prompt (meta "m") _ Hf Hq Hs Ho (fun _ => eq_refl) Hsw Ha)
    as (K1 & queued & K2 & K3).
  split; [exact K1|]. exists queued. split; [exact K2|]. exact (K3 "set_model").
Defined.

(** The process asks whether it may run a command. *)
Definition asked : PendingPerm := mkPendingPerm _ "tu-1" "Bash" (v_obj [("command", v_str "ls")]).
Definition asking : Backend := on_shared (set_perms (<["r-1" := asked]> ∅)) busy.

Lemma permission_answered_once_witness :
  pending_perms (shared asking) !! "r-1" = Some asked /\
  let '(r, b') := exec (dispatch quiet (Command.AnswerPermission "r-1" PermissionDecision.Approved None [])) asking in
  r = Ok (mkCommandReceipt true Admission.NoTurn 1) /\ pending_perms (shared b') = ∅ /\
  fst (exec (dispatch quiet (Command.AnswerPermission "r-1" PermissionDecision.Denied None [])) b') =
    Err (BackendError.Transport "no pending permission for request_id r-1").
Proof.
  assert (Hp : pending_perms (shared asking) !! "r-1" = Some asked) by reflexivity.
  split; [exact Hp|].
  assert (Ha : accepts quiet asking [build_control_response "r-1" asked PermissionDecision.Approved None []])
    by (split; [reflexivity|by repeat constructor]).
  pose proof (permission_answered_once quiet asking "r-1" asked PermissionDecision.Approved None [] Hp Ha) as K.
  cbv zeta in K. destruct (exec _ asking) as [r b']. destruct K as (Kr & _ & _ & Kp & Kagain).
  split; [exact Kr|]. split; [rewrite Kp; reflexivity|]. rewrite Kagain. reflexivity.
Defined.

(** A question that was answered twice. *)
Definition which : PendingPerm :=
  mkPendingPerm _ "tu-2" "AskUserQuestion" (v_obj [("questions", v_arr [v_obj [("question", v_str "Which?")]])]).
Definition replies : list QuestionAnswer :=
  [mkQuestionAnswer "Which?" ["a"]; mkQuestionAnswer "Why?" []; mkQuestionAnswer "Which?" ["b"; "c"]].

Lemma response_says_decision_witness :
  let v := build_control_response "r-2" which PermissionDecision.Approved None replies in
  text_of (field "behavior" (result_of v)) = "allow" /\
  exists input, updated_input v = Some input /\ v_get "questions" input = v_get "questions" (perm_input which) /\
    field "Which?" (v_get "answers" input) = Some (answer_value ["b"; "c"]).
Proof.
  intros v.
  destruct (response_says_decision "r-2" which PermissionDecision.Approved None replies) as (_ & _ & K3 & K4).
  split; [exact K3|]. destruct (K4 eq_refl) as (input & E & _ & K5 & K6).
  exists input. split; [exact E|]. split; [apply K5; [reflexivity|discriminate]|].
  exact (K6 [mkQuestionAnswer "Which?" ["a"]; mkQuestionAnswer "Why?" []] (mkQuestionAnswer "Which?" ["b"; "c"]) []
    eq_refl (List.Forall_nil _)).
Defined.

(** Two prompts at once, alone in the pool. *)
Definition sending : Prog Backend (option CommandReceipt) :=
  prog_bind (dispatch quiet (Command.Send prompt (meta "m")))
    (fun r => Ret (match r with Ok rec => Some rec | Err _ => None end)).
Definition after_one : Backend := snd (run sending fresh).
Definition pool_of_one : list (Prog Backend (option CommandReceipt)) := [] ++ [Ret (fst (run sending fresh))].

Lemma one_runs : rtc (pool_step backend_op) (fresh, []) (after_one, pool_of_one).
Proof. exact (pool_run backend_op sending fresh [] (op_dispatch quiet _)). Qed.

Lemma fresh_epochs_ok : epochs_ok fresh.
Proof. split; vm_compute; [constructor|discriminate]. Qed.

Lemma epochs_never_ahead_witness :
  epochs_ok fresh /\ epochs_ok after_one /\ (1 <= turn_gen (shared after_one))%N.
Proof.
  split; [exact fresh_epochs_ok|].
  destruct (epochs_never_ahead fresh after_one pool_of_one fresh_epochs_ok one_runs) as (K1 & _ & K3).
  split; [exact K1|]. apply (K3 (mkCommandReceipt true Admission.Started 1)). left. reflexivity.
Defined.

Lemma fresh_opened : exists rc, open_session quiet ids (SessionSpec.Fresh "s") bypassing = Ok (rc, fresh).
Proof. eexists. unfold fresh, opened_session. reflexivity. Qed.

Lemma woken_process_resumes_witness :
  claude_session_id (wake_recipe after_one) = "u-2" /\
  has_permission_mode "bypassPermissions" (spec_args (resume_spec (wake_recipe after_one))).
Proof.
  destruct fresh_opened as [rc Hopen].
  destruct (woken_process_resumes quiet ids (SessionSpec.Fresh "s") bypassing rc fresh after_one pool_of_one
    Hopen one_runs) as (_ & K1 & K2 & _).
  split; [exact K1|exact K2].
Defined.

(** *** What the code also does *)

(** The process can open its turn before the prompt's epoch is handed out:
    the turn's result is then sent under the epoch before, and a session that
    waits for it stays [Running]. *)
Definition init_line : list Byte.byte :=
  ndjson_line (v_obj [("type", v_str "system"); ("subtype", v_str "init")]).
Definition good_result : list Byte.byte :=
  ndjson_line (v_obj [("type", v_str "result"); ("is_error", v_bool false); ("subtype", v_str "success")]).
Definition read_from (bytes : list Byte.byte) (b : Backend) : Backend :=
  reader_step (Read.Bytes bytes false) None None b.

(** A first turn that came and went. *)
Definition second_turn_next : Backend := read_from good_result (read_from init_line busy).

Lemma early_init_loses_result :
  let '(rest, b1) := steps 6 sending second_turn_next in
  let b2 := read_from init_line b1 in
  let '(r, b3) := run rest b2 in
  let b4 := read_from good_result b3 in
  wire b1 = wire second_turn_next ++ [prompt_line prompt (Some "m")] /\
  r = Some (mkCommandReceipt true Admission.Started 2) /\
  existsb (fun env => is_turn_result (env_event env)) (sent_since (shared b3) (shared b4)) = true /\
  run_events (Running (fresh_turn 2)) (delivered (sent_since (shared b3) (shared b4))) = Running (fresh_turn 2).
Proof. repeat split; reflexivity. Qed.

(** In order, the same frames end the turn. *)
Lemma late_init_ends_turn :
  let b1 := send_one second_turn_next in
  is_terminal_state (run_events (Running (fresh_turn 2))
    (delivered (sent_since (shared b1) (shared (read_from good_result (read_from init_line b1)))))) = true.
Proof. reflexivity. Qed.

(** A prompt sent ahead, in the middle of a turn, lets the waiting switches
    into that turn. *)
Lemma proactive_send_releases_switches :
  turn_in_flight (shared (set_mode "plan" busy)) = true /\
  wire (set_mode "plan" busy) = wire busy /\
  wire (send_one (set_mode "plan" busy)) =
    wire busy ++ [control_request "ctl-2" (switch_request ("set_permission_mode", "plan")); prompt_line prompt (Some "m")].
Proof. repeat split; reflexivity. Qed.

(** And once the first of the two turns has its result, a switch goes straight
    into the second. *)
Lemma switch_enters_second_turn :
  let b := read_from good_result (read_from init_line (send_one busy)) in
  turn_gen (shared b) = 2%N /\ wire (set_mode "plan" b) =
    wire b ++ [control_request "ctl-2" (switch_request ("set_permission_mode", "plan"))].
Proof. split; reflexivity. Qed.

(** A switch to a session that sleeps is written to the process that is gone,
    and does not wake it. *)
Definition asleep : Backend := set_suspend (set_slot Slot.Dormant (suspend second_turn_next)) second_turn_next.

Lemma switch_does_not_wake :
  slot (suspend (set_mode "plan" asleep)) = Slot.Dormant /\
  wire (set_mode "plan" asleep) = wire asleep ++
    [control_request "ctl-2" (switch_request ("set_permission_mode", "plan"))].
Proof. split; reflexivity. Qed.

(** A mode the user left is the mode the session wakes in. *)
Lemma woken_forgets_switch :
  let b := set_mode "plan" second_turn_next in
  let b := set_suspend (set_slot Slot.Dormant (suspend b)) b in
  let b' := send_one b in
  wire b' = wire b ++ [prompt_line prompt (Some "m")] /\
  spec_args (resume_spec (wake_recipe b)) =
    start_args (LegacySessionSpec.Resume "u-2")
      ["--permission-mode"; "bypassPermissions"; "--allow-dangerously-skip-permissions"; "--disallowed-tools"; "AskUserQuestion"].
Proof. split; reflexivity. Qed.

(** A prompt that was not taken leaves the turn in flight: every later switch
    waits for a turn that never was. *)
Lemma failed_send_stays_in_flight :
  let '(r, b) := exec (dispatch broken (Command.Send prompt (meta "m"))) second_turn_next in
  r = Err (BackendError.Transport "deliver_prompt: 内部错误：gone") /\ turn_in_flight (shared b) = true /\
  wire (set_mode "plan" b) = wire b.
Proof. repeat split; reflexivity. Qed.

End BackendRuns.
