(* ===== verification/CronTypes.v ===== *)
(** * Scheduled jobs: types, schedules, next runs
    ([crates/tjuaeui-cron/src/types.rs], the pure part of [scheduler.rs],
    [error.rs]) *)

From S2P Require Import Prelude WorkModel.
From stdpp Require Import pretty.

(** ** What comes from outside

    [cron_parses] and [cron_after] are [Schedule::from_str] and the first
    occurrence after an instant in a time zone (UTC if there is none) of the
    crates cron and chrono-tz, on expressions as they are normalized;
    [cron_error] is the text of the parser's error.  The next two are serde_json
    on [CronAgentConfig].  [to_lowercase] is Unicode's, [hash_text] the sixteen
    digits of [DefaultHasher] on a text. *)
Record ProviderWithModel : Type := mkProviderModel {
  pm_provider_id : string;
  pm_model : string;
  pm_use_model : option string;
}.

Record CronAgentConfig : Type := mkAgentConfig {
  ac_name : string;
  ac_cli_path : option string;
  ac_is_preset : option bool;
  ac_assistant_id : option string;
  ac_custom_agent_id : option string;
  ac_mode : option string;
  ac_model_id : option string;
  ac_model : option ProviderWithModel;
  ac_config_options : option (gmap string string);
  ac_workspace : option string;
}.

Class CronLib : Type := {
  cron_parses : string -> bool;
  cron_error : string -> string;
  tz_parses : string -> bool;
  cron_after : string -> option string -> Z -> option Z;
  config_to_string : CronAgentConfig -> string;
  config_from_str : string -> Result CronAgentConfig string;
  to_lowercase : string -> string;
  hash_text : string -> string;
}.

Class CronLibOk `{CronLib} : Prop := {
  cron_after_later : forall expr tz now t, cron_after expr tz now = Some t -> (now < t)%Z;
  config_roundtrip : forall c, config_from_str (config_to_string c) = Ok c;
}.

(** ** Errors *)
Definition db_error_text (e : DbError.t) : string :=
  match e with
  | DbError.Query m => "数据库查询失败：" +:+ m
  | DbError.Migration m => "数据库迁移失败：" +:+ m
  | DbError.NotFound m => "找不到记录：" +:+ m
  | DbError.Conflict m => "记录重复：" +:+ m
  | DbError.Init m => "数据库初始化失败：" +:+ m
  end.

Module CronError.
(** The error of the conversation service is its text. *)
Inductive t : Type :=
| JobNotFound (id : string)
| InvalidSchedule (m : string)
| InvalidCronExpression (m : string)
| InvalidExecutionMode (m : string)
| InvalidCreatedBy (m : string)
| InvalidJobStatus (m : string)
| InvalidTimezone (m : string)
| InvalidSkillContent (m : string)
| InvalidAgentConfig (m : string)
| Scheduler (m : string)
| WorkspacePathUnavailable (path : string)
| WorkspacePathRuntimeUnavailable (path : string)
| Conversation (m : string)
| Database (e : DbError.t)
| Json (m : string).

Definition to_string (e : t) : string :=
  match e with
  | JobNotFound m => "找不到定时任务：" +:+ m
  | InvalidSchedule m => "计划无效：" +:+ m
  | InvalidCronExpression m => "Cron 表达式无效：" +:+ m
  | InvalidExecutionMode m => "执行模式无效：" +:+ m
  | InvalidCreatedBy m => "created-by 值无效：" +:+ m
  | InvalidJobStatus m => "任务状态无效：" +:+ m
  | InvalidTimezone m => "时区无效：" +:+ m
  | InvalidSkillContent m => "技能内容无效：" +:+ m
  | InvalidAgentConfig m => "智能体配置无效：" +:+ m
  | Scheduler m => "调度器错误：" +:+ m
  | WorkspacePathUnavailable m => "工作区路径不可用：" +:+ m
  | WorkspacePathRuntimeUnavailable m => "执行期间工作区路径不可用：" +:+ m
  | Conversation m => m
  | Database e => db_error_text e
  | Json m => "JSON 错误：" +:+ m
  end.
End CronError.

(** ** Enums *)
Module CronSchedule.
Inductive t : Type :=
| At (at_ms : Z) (description : option string)
| Every (every_ms : Z) (description : option string)
| Cron (expr : string) (tz description : option string).

Definition is_at (s : t) : bool := match s with At _ _ => true | _ => false end.
End CronSchedule.

Module ExecutionMode.
Inductive t : Type := Existing | NewConversation.
#[export] Instance t_eq_dec : EqDecision t.
Proof. solve_decision. Defined.
Definition as_str (m : t) : string := match m with Existing => "existing" | NewConversation => "new_conversation" end.
Definition from_str (s : string) : Result t CronError.t :=
  if (s =? "existing")%string then Ok Existing
  else if (s =? "new_conversation")%string then Ok NewConversation
  else Err (CronError.InvalidExecutionMode s).
End ExecutionMode.
Export (hints) ExecutionMode.

Module CreatedBy.
Inductive t : Type := User | Agent.
Definition as_str (c : t) : string := match c with User => "user" | Agent => "agent" end.
Definition from_str (s : string) : Result t CronError.t :=
  if (s =? "user")%string then Ok User
  else if (s =? "agent")%string then Ok Agent
  else Err (CronError.InvalidCreatedBy s).
End CreatedBy.

Module JobStatus.
Inductive t : Type := Success | Error | Skipped | Missed.
Definition as_str (s : t) : string :=
  match s with Success => "ok" | Error => "error" | Skipped => "skipped" | Missed => "missed" end.
Definition from_str (s : string) : Result t CronError.t :=
  if (s =? "ok")%string then Ok Success
  else if (s =? "error")%string then Ok Error
  else if (s =? "skipped")%string then Ok Skipped
  else if (s =? "missed")%string then Ok Missed
  else Err (CronError.InvalidJobStatus s).
End JobStatus.

(** ** The job and its row *)
Record CronJob : Type := mkCronJob {
  job_id : string;
  job_name : string;
  job_enabled : bool;
  job_schedule : CronSchedule.t;
  job_message : string;
  job_mode : ExecutionMode.t;
  job_config : option CronAgentConfig;
  job_conversation : string;
  job_title : option string;
  job_agent_type : string;
  job_created_by : CreatedBy.t;
  job_skill : option string;
  job_description : option string;
  job_created_at : Z;
  job_updated_at : Z;
  job_next_run_at : option Z;
  job_last_run_at : option Z;
  job_last_status : option JobStatus.t;
  job_last_error : option string;
  job_run_count : Z;
  job_retry_count : Z;
  job_max_retries : Z;
  job_queue_enabled : bool;
}.

Record CronJobRow : Type := mkJobRow {
  cj_id : string;
  cj_name : string;
  cj_enabled : bool;
  cj_schedule_kind : string;
  cj_schedule_value : string;
  cj_schedule_tz : option string;
  cj_schedule_description : option string;
  cj_payload_message : string;
  cj_execution_mode : string;
  cj_agent_config : option string;
  cj_conversation_id : string;
  cj_conversation_title : option string;
  cj_created_by : string;
  cj_skill_content : option string;
  cj_description : option string;
  cj_created_at : Z;
  cj_updated_at : Z;
  cj_next_run_at : option Z;
  cj_last_run_at : option Z;
  cj_last_status : option string;
  cj_last_error : option string;
  cj_run_count : Z;
  cj_retry_count : Z;
  cj_max_retries : Z;
  cj_queue_enabled : bool;
}.

(** ** [str::parse::<i64>]

    Digit by digit, with the errors in the order in which they are found. *)
Definition digit_of (c : Ascii.ascii) : option Z :=
  let n := Z.of_N (Ascii.N_of_ascii c) in
  if (48 <=? n)%Z && (n <=? 57)%Z then Some (n - 48)%Z else None.

Fixpoint parse_digits (sign acc : Z) (s : string) : Result Z string :=
  match s with
  | EmptyString => Ok acc
  | String c s =>
      match digit_of c with
      | None => Err "invalid digit found in string"
      | Some d =>
          let overflow :=
            if (sign =? 1)%Z then "number too large to fit in target type"
            else "number too small to fit in target type" in
          match i64_checked (acc * 10) with
          | None => Err overflow
          | Some acc =>
              match i64_checked (acc + sign * d) with
              | None => Err overflow
              | Some acc => parse_digits sign acc s
              end
          end
      end
  end%Z.

Definition parse_i64 (s : string) : Result Z string :=
  match s with
  | EmptyString => Err "cannot parse integer from empty string"
  | String c EmptyString =>
      if Ascii.eqb c (Ascii.ascii_of_N 43) || Ascii.eqb c (Ascii.ascii_of_N 45)
      then Err "invalid digit found in string" else parse_digits 1 0 s
  | String c rest =>
      if Ascii.eqb c (Ascii.ascii_of_N 43) then parse_digits 1 0 rest
      else if Ascii.eqb c (Ascii.ascii_of_N 45) then parse_digits (-1) 0 rest
      else parse_digits 1 0 s
  end.

(** ** Conversions *)
Section Convert.
Context `{CronLib}.
Local Open Scope tjuae_scope.

Definition parse_schedule (kind value : string) (tz description : option string) : Result CronSchedule.t CronError.t :=
  if (kind =? "at")%string then
    match parse_i64 value with
    | Ok at_ms => Ok (CronSchedule.At at_ms description)
    | Err e => Err (CronError.InvalidSchedule ("at_ms '" +:+ value +:+ "' 无效：" +:+ e))
    end
  else if (kind =? "every")%string then
    match parse_i64 value with
    | Ok every_ms => Ok (CronSchedule.Every every_ms description)
    | Err e => Err (CronError.InvalidSchedule ("every_ms '" +:+ value +:+ "' 无效：" +:+ e))
    end
  else if (kind =? "cron")%string then Ok (CronSchedule.Cron value tz description)
  else Err (CronError.InvalidSchedule ("未知的计划类型：" +:+ kind)).

(** [Option::transpose] after [map]. *)
Definition transpose {A B E : Type} (f : A -> Result B E) (o : option A) : Result (option B) E :=
  match o with
  | None => Ok None
  | Some a => let? b := f a in Ok (Some b)
  end.

Definition read_config (s : string) : Result CronAgentConfig CronError.t :=
  match config_from_str s with Ok c => Ok c | Err e => Err (CronError.Json e) end.

Definition cron_job_from_row (row : CronJobRow) : Result CronJob CronError.t :=
  let? schedule := parse_schedule (cj_schedule_kind row) (cj_schedule_value row) (cj_schedule_tz row)
                     (cj_schedule_description row) in
  let? execution_mode := ExecutionMode.from_str (cj_execution_mode row) in
  let? created_by := CreatedBy.from_str (cj_created_by row) in
  let? agent_config := transpose read_config (cj_agent_config row) in
  let? last_status := transpose JobStatus.from_str (cj_last_status row) in
  Ok (mkCronJob (cj_id row) (cj_name row) (cj_enabled row) schedule (cj_payload_message row) execution_mode
        agent_config (cj_conversation_id row) (cj_conversation_title row) "" created_by (cj_skill_content row)
        (cj_description row) (cj_created_at row) (cj_updated_at row) (cj_next_run_at row) (cj_last_run_at row)
        last_status (cj_last_error row) (cj_run_count row) (cj_retry_count row) (cj_max_retries row)
        (cj_queue_enabled row)).

Definition schedule_to_row_fields (s : CronSchedule.t) : string * string * option string * option string :=
  match s with
  | CronSchedule.At at_ms d => ("at", pretty at_ms, None, d)
  | CronSchedule.Every every_ms d => ("every", pretty every_ms, None, d)
  | CronSchedule.Cron expr tz d => ("cron", expr, tz, d)
  end.

Definition cron_job_to_row (job : CronJob) : CronJobRow :=
  let '(kind, value, tz, description) := schedule_to_row_fields (job_schedule job) in
  mkJobRow (job_id job) (job_name job) (job_enabled job) kind value tz description (job_message job)
    (ExecutionMode.as_str (job_mode job)) (config_to_string <$> job_config job) (job_conversation job)
    (job_title job) (CreatedBy.as_str (job_created_by job)) (job_skill job) (job_description job)
    (job_created_at job) (job_updated_at job) (job_next_run_at job) (job_last_run_at job)
    (JobStatus.as_str <$> job_last_status job) (job_last_error job) (job_run_count job) (job_retry_count job)
    (job_max_retries job) (job_queue_enabled job).

(** ** Schedules *)

(** [split_whitespace().count()]: [inside] a word or not. *)
Fixpoint count_words (inside : bool) (skip : nat) (l : list N) : nat :=
  match l with
  | [] => 0
  | _ :: l' =>
      match skip with
      | S k => count_words false k l'
      | 0 =>
          match space_front l with
          | S k => count_words false k l'
          | 0 => if inside then count_words true 0 l' else S (count_words true 0 l')
          end
      end
  end.

Definition normalize_cron_expr (expr : string) : string :=
  let trimmed := str_trim expr in
  if (count_words false 0 (bytes trimmed) =? 5)%nat then "0 " +:+ trimmed else trimmed.

Definition validate_cron_expression (expr : string) : Result unit CronError.t :=
  let normalized := normalize_cron_expr expr in
  if cron_parses normalized then Ok tt
  else Err (CronError.InvalidCronExpression (expr +:+ ": " +:+ cron_error normalized)).

Definition validate_timezone (tz : string) : Result unit CronError.t :=
  if tz_parses tz then Ok tt else Err (CronError.InvalidTimezone tz).

Definition validate_schedule (s : CronSchedule.t) : Result unit CronError.t :=
  match s with
  | CronSchedule.At _ _ => Ok tt
  | CronSchedule.Every every_ms _ =>
      if (every_ms <=? 0)%Z then Err (CronError.InvalidSchedule "every_ms 必须为正数") else Ok tt
  | CronSchedule.Cron expr tz _ =>
      if (str_trim expr =? "")%string then Ok tt
      else
        let? _ := validate_cron_expression expr in
        match tz with
        | Some tz => validate_timezone tz
        | None => Ok tt
        end
  end.

Definition compute_cron_next_run (expr : string) (tz : option string) (now : Z) : option Z :=
  let normalized := normalize_cron_expr expr in
  if cron_parses normalized && match tz with Some tz => tz_parses tz | None => true end
  then cron_after normalized tz now else None.

Definition compute_next_run (s : CronSchedule.t) (now : Z) : option Z :=
  match s with
  | CronSchedule.At at_ms _ => Some at_ms
  | CronSchedule.Every every_ms _ => if (every_ms <=? 0)%Z then None else Some (i64_wrap (now + every_ms))
  | CronSchedule.Cron expr tz _ => compute_cron_next_run expr tz now
  end.

Definition compute_next_run_after_occurrence (s : CronSchedule.t) (scheduled_at now : Z) : option Z :=
  match s with
  | CronSchedule.At _ _ => None
  | CronSchedule.Every every_ms _ =>
      if (every_ms <=? 0)%Z then None
      else
        let elapsed := i64_saturating_sub now scheduled_at in
        let steps := i64_wrap (elapsed / every_ms + 1) in
        ahead ← i64_checked (steps * every_ms);
        i64_checked (scheduled_at + ahead)
  | CronSchedule.Cron expr tz _ => compute_cron_next_run expr tz (Z.max now scheduled_at)
  end%Z.
End Convert.
