(* ===== verification/CronStore.v ===== *)
(** * Scheduled jobs: the store
    ([crates/tjuaeui-db/src/repository/sqlite_cron.rs], [migrations/022_cron_execution_dedup.sql])

    [CronWorld] is what the backend processes that run jobs share and what
    each of them does: the two tables, the timers of every process, the turns
    asked of the conversation service and the events told to the clients.  The
    methods of the repository are programs of statements; each statement or
    transaction is one step, which fails as a whole or not at all.

    A process is known by its [instance_id]. *)

From S2P Require Import Prelude WorkModel Interleave CronTypes.

(** ** Rows of [cron_job_runs] *)
Module RunStatus.
(** The values the column's CHECK admits. *)
Inductive t : Type := Running | Retrying | Success | Error | Skipped.
#[export] Instance t_eq_dec : EqDecision t.
Proof. solve_decision. Defined.
Definition is_active (s : t) : bool := match s with Running | Retrying => true | _ => false end.
End RunStatus.
Export (hints) RunStatus.

Record CronRunRow : Type := mkRunRow {
  rr_id : string;
  rr_job_id : string;
  rr_scheduled_at : Z;
  rr_status : RunStatus.t;
  rr_owner_id : option string;
  rr_lease_until : option Z;
  rr_conversation_id : option string;
  rr_error : option string;
  rr_started_at : option Z;
  rr_finished_at : option Z;
  rr_created_at : Z;
  rr_updated_at : Z;
}.

(** ** Timers: the tasks of [CronScheduler] *)
Module Timer.
Inductive t : Type :=
| Occurrence (scheduled_at due : Z)
| Every (started : bool) (scheduled_at due every_ms : Z)
| Cron (next_at due : Z) (expr : string) (tz : option string)
| Finished.
End Timer.

(** ** Rows of [conversation_artifacts] *)
Module ArtifactStatus.
Inductive t : Type := Active | Pending | Dismissed | Saved.
End ArtifactStatus.
Module ArtifactKind.
Inductive t : Type := CronTrigger | SkillSuggest.
End ArtifactKind.

(** The payload is the object that its text encodes. *)
Module ArtifactPayload.
Inductive t : Type :=
| Trigger (cron_job_id cron_job_name : string) (triggered_at : Z)
| Suggestion (cron_job_id name description skill_content : string).
End ArtifactPayload.

Record ArtifactRow : Type := mkArtifact {
  ar_id : string;
  ar_conversation_id : string;
  ar_cron_job_id : option string;
  ar_kind : ArtifactKind.t;
  ar_status : ArtifactStatus.t;
  ar_payload : ArtifactPayload.t;
  ar_created_at : Z;
  ar_updated_at : Z;
}.

(** ** What the clients and the conversation service are told *)
Module CronEvent.
Inductive t : Type :=
| JobCreated (job : CronJob)
| JobUpdated (job : CronJob)
| JobRemoved (job_id : string)
| JobExecuted (job_id status : string) (error : option string)
| ConversationTips (conversation_id content tip_type : string)
| Artifact (row : ArtifactRow).
End CronEvent.

(** ** What the other services are asked to do *)
Record AgentTurnRequest : Type := mkTurnRequest {
  tr_user_id : string;
  tr_conversation_id : string;
  tr_content : string;
  tr_inject_skills : list string;
  tr_required_runtime_mode : option string;
}.

Module Asked.
Inductive t : Type :=
| Turn (req : AgentTurnRequest)
| Conversation (user_id : string) (name : string) (cron_job_id : string)
| ConversationExtra (conversation_id extra : string)
| RuntimeMode (conversation_id mode : string)
| Tips (conversation_id content : string)
| SkillSuggestCheck (conversation_id job_id workspace : string).
End Asked.

(** A heartbeat is known by the call that started it. *)
Record Heartbeat : Type := mkHeartbeat { hb_owner : string; hb_job : string; hb_scheduled_at : Z; hb_due : Z }.

(** A file by its directory and its name. *)
Notation FilePath := (string * string)%type.

Record CronWorld : Type := mkWorld {
  w_jobs : list CronJobRow;
  w_runs : list CronRunRow;
  w_artifacts : list ArtifactRow;
  w_files : gmap FilePath string;
  w_timers : gmap (string * string) Timer.t;
  w_beats : gmap N Heartbeat;
  w_hashes : gmap (string * string) string;
  w_asked : list Asked.t;
  w_events : list CronEvent.t;
  w_calls : N;
}.

Definition set_jobs (x : list CronJobRow) (w : CronWorld) : CronWorld :=
  mkWorld x (w_runs w) (w_artifacts w) (w_files w) (w_timers w) (w_beats w) (w_hashes w) (w_asked w) (w_events w) (w_calls w).
Definition set_runs (x : list CronRunRow) (w : CronWorld) : CronWorld :=
  mkWorld (w_jobs w) x (w_artifacts w) (w_files w) (w_timers w) (w_beats w) (w_hashes w) (w_asked w) (w_events w) (w_calls w).
Definition set_artifacts (x : list ArtifactRow) (w : CronWorld) : CronWorld :=
  mkWorld (w_jobs w) (w_runs w) x (w_files w) (w_timers w) (w_beats w) (w_hashes w) (w_asked w) (w_events w) (w_calls w).
Definition set_files (x : gmap FilePath string) (w : CronWorld) : CronWorld :=
  mkWorld (w_jobs w) (w_runs w) (w_artifacts w) x (w_timers w) (w_beats w) (w_hashes w) (w_asked w) (w_events w) (w_calls w).
Definition set_timers (x : gmap (string * string) Timer.t) (w : CronWorld) : CronWorld :=
  mkWorld (w_jobs w) (w_runs w) (w_artifacts w) (w_files w) x (w_beats w) (w_hashes w) (w_asked w) (w_events w) (w_calls w).
Definition set_beats (x : gmap N Heartbeat) (w : CronWorld) : CronWorld :=
  mkWorld (w_jobs w) (w_runs w) (w_artifacts w) (w_files w) (w_timers w) x (w_hashes w) (w_asked w) (w_events w) (w_calls w).
Definition set_hashes (x : gmap (string * string) string) (w : CronWorld) : CronWorld :=
  mkWorld (w_jobs w) (w_runs w) (w_artifacts w) (w_files w) (w_timers w) (w_beats w) x (w_asked w) (w_events w) (w_calls w).
Definition set_asked (x : list Asked.t) (w : CronWorld) : CronWorld :=
  mkWorld (w_jobs w) (w_runs w) (w_artifacts w) (w_files w) (w_timers w) (w_beats w) (w_hashes w) x (w_events w) (w_calls w).
Definition set_events (x : list CronEvent.t) (w : CronWorld) : CronWorld :=
  mkWorld (w_jobs w) (w_runs w) (w_artifacts w) (w_files w) (w_timers w) (w_beats w) (w_hashes w) (w_asked w) x (w_calls w).
Definition set_calls (x : N) (w : CronWorld) : CronWorld :=
  mkWorld (w_jobs w) (w_runs w) (w_artifacts w) (w_files w) (w_timers w) (w_beats w) (w_hashes w) (w_asked w) (w_events w) x.

(** The [n]-th call finds the clock at [cron_now n], draws [cron_id prefix n],
    and fails if it is a statement and [cron_fails n].  [sort_by] is SQLite's
    [ORDER BY .. ASC] on an integer column.

    If the [n]-th call is a file operation, [fs_error n] is its error, and what
    a failing one has already done is in [fs_written] (how much of a text) and
    [fs_removed] (of a directory).  [fs_nonce n] is the process id and the
    nanoseconds of the clock, as they end the name of a temporary file. *)
Class CronDb : Type := {
  cron_now : N -> Z;
  cron_id : string -> N -> string;
  cron_fails : N -> bool;
  sort_by : forall {A : Type}, (A -> Z) -> list A -> list A;
  fs_error : N -> option string;
  fs_written : N -> option nat;
  fs_removed : N -> FilePath -> bool;
  fs_nonce : N -> string;
  data_dir : string;
}.

Class CronDbOk `{CronDb} : Prop := {
  clock_grows : forall m n, (m <= n)%N -> (cron_now m <= cron_now n)%Z;
  sort_permutation : forall {A : Type} (key : A -> Z) l, sort_by key l ≡ₚ l;
  sort_sorted : forall {A : Type} (key : A -> Z) l,
    StronglySorted (fun a b => (key a <= key b)%Z) (sort_by key l);
  nonce_is_new : forall m n, fs_nonce m = fs_nonce n -> m = n;
}.

(** ** Parameters *)

(** [UpdateCronJobParams] is the columns it sets. *)
Module Column.
Inductive t : Type :=
| Name (v : string)
| Enabled (v : bool)
| ScheduleKind (v : string)
| ScheduleValue (v : string)
| ScheduleTz (v : option string)
| ScheduleDescription (v : option string)
| PayloadMessage (v : string)
| ExecutionMode (v : string)
| AgentConfig (v : option string)
| ConversationId (v : string)
| ConversationTitle (v : option string)
| SkillContent (v : option string)
| Description (v : option string)
| NextRunAt (v : option Z)
| LastRunAt (v : option Z)
| LastStatus (v : option string)
| LastError (v : option string)
| RunCount (v : Z)
| RetryCount (v : Z)
| QueueEnabled (v : bool)
| UpdatedAt (v : Z).

Definition set (c : t) (r : CronJobRow) : CronJobRow :=
  let '(mkJobRow id name enabled kind value tz sd payload mode config conv title creator skill descr created updated
          next last status error runs retries max queue) := r in
  match c with
  | Name v => mkJobRow id v enabled kind value tz sd payload mode config conv title creator skill descr created updated next last status error runs retries max queue
  | Enabled v => mkJobRow id name v kind value tz sd payload mode config conv title creator skill descr created updated next last status error runs retries max queue
  | ScheduleKind v => mkJobRow id name enabled v value tz sd payload mode config conv title creator skill descr created updated next last status error runs retries max queue
  | ScheduleValue v => mkJobRow id name enabled kind v tz sd payload mode config conv title creator skill descr created updated next last status error runs retries max queue
  | ScheduleTz v => mkJobRow id name enabled kind value v sd payload mode config conv title creator skill descr created updated next last status error runs retries max queue
  | ScheduleDescription v => mkJobRow id name enabled kind value tz v payload mode config conv title creator skill descr created updated next last status error runs retries max queue
  | PayloadMessage v => mkJobRow id name enabled kind value tz sd v mode config conv title creator skill descr created updated next last status error runs retries max queue
  | ExecutionMode v => mkJobRow id name enabled kind value tz sd payload v config conv title creator skill descr created updated next last status error runs retries max queue
  | AgentConfig v => mkJobRow id name enabled kind value tz sd payload mode v conv title creator skill descr created updated next last status error runs retries max queue
  | ConversationId v => mkJobRow id name enabled kind value tz sd payload mode config v title creator skill descr created updated next last status error runs retries max queue
  | ConversationTitle v => mkJobRow id name enabled kind value tz sd payload mode config conv v creator skill descr created updated next last status error runs retries max queue
  | SkillContent v => mkJobRow id name enabled kind value tz sd payload mode config conv title creator v descr created updated next last status error runs retries max queue
  | Description v => mkJobRow id name enabled kind value tz sd payload mode config conv title creator skill v created updated next last status error runs retries max queue
  | NextRunAt v => mkJobRow id name enabled kind value tz sd payload mode config conv title creator skill descr created updated v last status error runs retries max queue
  | LastRunAt v => mkJobRow id name enabled kind value tz sd payload mode config conv title creator skill descr created updated next v status error runs retries max queue
  | LastStatus v => mkJobRow id name enabled kind value tz sd payload mode config conv title creator skill descr created updated next last v error runs retries max queue
  | LastError v => mkJobRow id name enabled kind value tz sd payload mode config conv title creator skill descr created updated next last status v runs retries max queue
  | RunCount v => mkJobRow id name enabled kind value tz sd payload mode config conv title creator skill descr created updated next last status error v retries max queue
  | RetryCount v => mkJobRow id name enabled kind value tz sd payload mode config conv title creator skill descr created updated next last status error runs v max queue
  | QueueEnabled v => mkJobRow id name enabled kind value tz sd payload mode config conv title creator skill descr created updated next last status error runs retries max v
  | UpdatedAt v => mkJobRow id name enabled kind value tz sd payload mode config conv title creator skill descr created v next last status error runs retries max queue
  end.
End Column.

Definition UpdateCronJobParams : Type := list Column.t.
Definition set_columns (params : UpdateCronJobParams) (r : CronJobRow) : CronJobRow :=
  fold_left (fun r c => Column.set c r) params r.

Record ClaimCronRunParams : Type := mkClaimParams {
  cl_job_id : string;
  cl_scheduled_at : Z;
  cl_owner_id : string;
  cl_now : Z;
  cl_lease_until : Z;
  cl_queue_enabled : bool;
}.

Module CronRunClaimResult.
Inductive t : Type := Claimed | Duplicate | QueueBusy.
End CronRunClaimResult.

Record FinishCronRunParams : Type := mkFinishParams {
  fi_job_id : string;
  fi_scheduled_at : Z;
  fi_owner_id : string;
  fi_status : RunStatus.t;
  fi_conversation_id : option string;
  fi_error : option string;
  fi_finished_at : Z;
}.

Record RecoverableCronRun : Type := mkRecoverable { rec_scheduled_at : Z; rec_wake_at : Z }.

(** ** The repository *)
Module CronRepo.
Section Repo.
Context `{CronDb}.

Definition ask {A : Type} (f : N -> A) : Prog CronWorld A :=
  atomic (fun w => (f (w_calls w), set_calls (N.succ (w_calls w)) w)).

Definition sql {A : Type} (f : N -> CronWorld -> Result A DbError.t * CronWorld) : Prog CronWorld (Result A DbError.t) :=
  atomic (fun w =>
    let n := w_calls w in
    let w := set_calls (N.succ n) w in
    if cron_fails n then (Err (DbError.Query "statement failed"), w) else f n w).

Definition is_job (id : string) (r : CronJobRow) : bool := (cj_id r =? id)%string.

Definition insert (row : CronJobRow) : Prog CronWorld (Result unit DbError.t) :=
  sql (fun _ w =>
    if existsb (is_job (cj_id row)) (w_jobs w)
    then (Err (DbError.Query "UNIQUE constraint failed: cron_jobs.id"), w)
    else (Ok tt, set_jobs (w_jobs w ++ [row]) w)).

Definition update_job (id : string) (f : CronJobRow -> CronJobRow) (l : list CronJobRow) : list CronJobRow :=
  map (fun r => if is_job id r then f r else r) l.

Definition no_job {A : Type} (id : string) : Result A DbError.t := Err (DbError.NotFound ("cron job '" +:+ id +:+ "'")).

Definition update (id : string) (params : UpdateCronJobParams) : Prog CronWorld (Result unit DbError.t) :=
  match params with
  | [] => Ret (Ok tt)
  | _ =>
      sql (fun n w =>
        if existsb (is_job id) (w_jobs w)
        then (Ok tt, set_jobs (update_job id (set_columns (params ++ [Column.UpdatedAt (cron_now n)])) (w_jobs w)) w)
        else (no_job id, w))
  end.

(** Its runs go with it: [ON DELETE CASCADE]. *)
Definition delete (id : string) : Prog CronWorld (Result unit DbError.t) :=
  sql (fun _ w =>
    if existsb (is_job id) (w_jobs w)
    then (Ok tt,
          set_runs (List.filter (fun r => negb (rr_job_id r =? id)%string) (w_runs w))
            (set_jobs (List.filter (fun r => negb (is_job id r)) (w_jobs w)) w))
    else (no_job id, w)).

Definition get_by_id (id : string) : Prog CronWorld (Result (option CronJobRow) DbError.t) :=
  sql (fun _ w => (Ok (List.find (is_job id) (w_jobs w)), w)).

Definition list_all : Prog CronWorld (Result (list CronJobRow) DbError.t) :=
  sql (fun _ w => (Ok (sort_by cj_created_at (w_jobs w)), w)).

Definition list_enabled : Prog CronWorld (Result (list CronJobRow) DbError.t) :=
  sql (fun _ w => (Ok (sort_by cj_created_at (List.filter cj_enabled (w_jobs w))), w)).

Definition list_by_conversation (conversation_id : string) : Prog CronWorld (Result (list CronJobRow) DbError.t) :=
  sql (fun _ w =>
    (Ok (sort_by cj_created_at
           (List.filter (fun r => (cj_conversation_id r =? conversation_id)%string) (w_jobs w))), w)).

(** *** Runs *)
Definition is_run (job_id : string) (scheduled_at : Z) (r : CronRunRow) : bool :=
  (rr_job_id r =? job_id)%string && (rr_scheduled_at r =? scheduled_at)%Z.

Definition is_active (r : CronRunRow) : bool := RunStatus.is_active (rr_status r).

Definition update_run (p : CronRunRow -> bool) (f : CronRunRow -> CronRunRow) (w : CronWorld) : CronWorld :=
  set_runs (map (fun r => if p r then f r else r) (w_runs w)) w.

Definition reclaim (owner : string) (lease now : Z) (r : CronRunRow) : CronRunRow :=
  mkRunRow (rr_id r) (rr_job_id r) (rr_scheduled_at r) RunStatus.Running (Some owner) (Some lease)
    (rr_conversation_id r) None (match rr_started_at r with Some t => Some t | None => Some now end) None
    (rr_created_at r) now.

Definition new_run (id : string) (p : ClaimCronRunParams) : CronRunRow :=
  mkRunRow id (cl_job_id p) (cl_scheduled_at p) RunStatus.Running (Some (cl_owner_id p)) (Some (cl_lease_until p))
    None None (Some (cl_now p)) None (cl_now p) (cl_now p).
Definition skipped_run (id : string) (p : ClaimCronRunParams) : CronRunRow :=
  mkRunRow id (cl_job_id p) (cl_scheduled_at p) RunStatus.Skipped None None None None None (Some (cl_now p))
    (cl_now p) (cl_now p).

(** The row's job must exist, and its id be new. *)
Definition insert_run (row : CronRunRow) (answer : CronRunClaimResult.t) (w : CronWorld)
    : Result CronRunClaimResult.t DbError.t * CronWorld :=
  if negb (existsb (is_job (rr_job_id row)) (w_jobs w))
  then (Err (DbError.Query "FOREIGN KEY constraint failed"), w)
  else if existsb (fun r => (rr_id r =? rr_id row)%string) (w_runs w)
  then (Err (DbError.Query "UNIQUE constraint failed: cron_job_runs.id"), w)
  else (Ok answer, set_runs (w_runs w ++ [row]) w).

Definition lease_over (now : Z) (r : CronRunRow) : bool :=
  match rr_lease_until r with Some lease => (lease <=? now)%Z | None => false end.

(** One transaction, under a write lock from its start. *)
Definition claim_run (p : ClaimCronRunParams) : Prog CronWorld (Result CronRunClaimResult.t DbError.t) :=
  sql (fun n w =>
    let this := is_run (cl_job_id p) (cl_scheduled_at p) in
    match List.find this (w_runs w) with
    | Some r =>
        if is_active r && lease_over (cl_now p) r
        then (Ok CronRunClaimResult.Claimed,
              update_run (fun r => this r && is_active r && lease_over (cl_now p) r)
                (reclaim (cl_owner_id p) (cl_lease_until p) (cl_now p)) w)
        else (Ok CronRunClaimResult.Duplicate, w)
    | None =>
        let has_active_run :=
          existsb (fun r => (rr_job_id r =? cl_job_id p)%string && is_active r &&
            match rr_lease_until r with Some lease => (cl_now p <? lease)%Z | None => false end) (w_runs w) in
        if cl_queue_enabled p && has_active_run
        then insert_run (skipped_run (cron_id "cron_run" n) p) CronRunClaimResult.QueueBusy w
        else insert_run (new_run (cron_id "cron_run" n) p) CronRunClaimResult.Claimed w
    end).

(** [WHERE .. status = 'running' AND owner_id = ?]; did it touch the row? *)
Definition owned_run (job_id : string) (scheduled_at : Z) (owner : string) (r : CronRunRow) : bool :=
  is_run job_id scheduled_at r && bool_decide (rr_status r = RunStatus.Running) && bool_decide (rr_owner_id r = Some owner).

Definition update_owned (job_id : string) (scheduled_at : Z) (owner : string) (f : CronRunRow -> CronRunRow)
    : Prog CronWorld (Result bool DbError.t) :=
  sql (fun _ w =>
    let p := owned_run job_id scheduled_at owner in
    (Ok (existsb p (w_runs w)), update_run p f w)).

Definition renew_run_lease (job_id : string) (scheduled_at : Z) (owner : string) (lease updated_at : Z)
    : Prog CronWorld (Result bool DbError.t) :=
  update_owned job_id scheduled_at owner (fun r =>
    mkRunRow (rr_id r) (rr_job_id r) (rr_scheduled_at r) (rr_status r) (rr_owner_id r) (Some lease)
      (rr_conversation_id r) (rr_error r) (rr_started_at r) (rr_finished_at r) (rr_created_at r) updated_at).

Definition defer_run (job_id : string) (scheduled_at : Z) (owner : string) (retry_at updated_at : Z)
    : Prog CronWorld (Result bool DbError.t) :=
  update_owned job_id scheduled_at owner (fun r =>
    mkRunRow (rr_id r) (rr_job_id r) (rr_scheduled_at r) RunStatus.Retrying None (Some retry_at)
      (rr_conversation_id r) (rr_error r) (rr_started_at r) (rr_finished_at r) (rr_created_at r) updated_at).

Definition finish_run (p : FinishCronRunParams) : Prog CronWorld (Result bool DbError.t) :=
  update_owned (fi_job_id p) (fi_scheduled_at p) (fi_owner_id p) (fun r =>
    mkRunRow (rr_id r) (rr_job_id r) (rr_scheduled_at r) (fi_status p) (rr_owner_id r) None
      (fi_conversation_id p) (fi_error p) (rr_started_at r) (Some (fi_finished_at p)) (rr_created_at r)
      (fi_finished_at p)).

Definition old_run (cutoff : Z) (r : CronRunRow) : bool :=
  negb (is_active r) && match rr_finished_at r with Some t => (t <? cutoff)%Z | None => false end.

Definition cleanup_runs_before (cutoff : Z) : Prog CronWorld (Result N DbError.t) :=
  sql (fun _ w =>
    (Ok (N.of_nat (length (List.filter (old_run cutoff) (w_runs w)))),
     set_runs (List.filter (fun r => negb (old_run cutoff r)) (w_runs w)) w)).

Definition lease_of (r : CronRunRow) : Z := default 0%Z (rr_lease_until r).

Definition recoverable (job_id : string) (r : CronRunRow) : bool :=
  (rr_job_id r =? job_id)%string && is_active r && match rr_lease_until r with Some _ => true | None => false end.

Definition get_recoverable_run (job_id : string) (now : Z) : Prog CronWorld (Result (option RecoverableCronRun) DbError.t) :=
  sql (fun _ w =>
    (Ok (match sort_by lease_of (List.filter (recoverable job_id) (w_runs w)) with
         | r :: _ => Some (mkRecoverable (rr_scheduled_at r) (Z.max (lease_of r) now))
         | [] => None
         end), w)).
End Repo.
End CronRepo.

(** ** Looking at the tables *)
Definition the_job (id : string) (w : CronWorld) : option CronJobRow := List.find (CronRepo.is_job id) (w_jobs w).
Definition the_run (job_id : string) (scheduled_at : Z) (w : CronWorld) : option CronRunRow :=
  List.find (CronRepo.is_run job_id scheduled_at) (w_runs w).
