(* ===== verification/CronSkill.v ===== *)
(** * Scheduled jobs: the saved skill of a job
    ([crates/tjuaeui-cron/src/skill_file.rs], [artifacts.rs], [skill_suggest.rs])

    A job may have a skill: a file that tells the agent how to do the task, with
    a front matter of name and description.  Its text is built, parsed and
    checked by pure functions; the files are part of the world, and the
    operations on them programs of file system calls.  The suggestions of a
    skill that an agent left in its workspace are rows of
    [conversation_artifacts]. *)

From S2P Require Import Prelude WorkModel Interleave TurnEvents CronTypes CronStore.

(** ** Text *)
Definition LF : Ascii.ascii := Ascii.ascii_of_N 10.
Definition CR : Ascii.ascii := Ascii.ascii_of_N 13.
Definition newline : string := String LF EmptyString.

(** [s.replace("\r\n", "\n").replace('\r', "\n")], one after the other. *)
Fixpoint replace_crlf (s : string) : string :=
  match s with
  | EmptyString => EmptyString
  | String c rest =>
      match rest with
      | String d rest' =>
          if Ascii.eqb c CR && Ascii.eqb d LF then String LF (replace_crlf rest') else String c (replace_crlf rest)
      | EmptyString => String c EmptyString
      end
  end.
Fixpoint replace_cr (s : string) : string :=
  match s with
  | EmptyString => EmptyString
  | String c rest => String (if Ascii.eqb c CR then LF else c) (replace_cr rest)
  end.
Definition normalize_newlines (s : string) : string := replace_cr (replace_crlf s).

(** [str::split('\n')]: at least one part. *)
Fixpoint split_lines (s : string) : list string :=
  match s with
  | EmptyString => [EmptyString]
  | String c rest =>
      if Ascii.eqb c LF then EmptyString :: split_lines rest
      else match split_lines rest with
           | l :: ls => String c l :: ls
           | [] => [String c EmptyString]
           end
  end.

(** A carriage return at the end of a line that a newline ends. *)
Fixpoint strip_cr (s : string) : string :=
  match s with
  | EmptyString => EmptyString
  | String c EmptyString => if Ascii.eqb c CR then EmptyString else s
  | String c rest => String c (strip_cr rest)
  end.

(** [str::lines]. *)
Fixpoint ended_lines (l : list string) : list string :=
  match l with
  | [] => []
  | [last] => if (last =? "")%string then [] else [last]
  | line :: l => strip_cr line :: ended_lines l
  end.
Definition lines (s : string) : list string := ended_lines (split_lines s).

Definition join_lines (l : list string) : string := String.concat newline l.

Definition str_trim_end (s : string) : string := of_bytes (rev (drop_spaces space_back 0 (rev (bytes s)))).

Fixpoint strip_prefix (p s : string) : option string :=
  match p, s with
  | EmptyString, _ => Some s
  | String a p, String b s => if Ascii.eqb a b then strip_prefix p s else None
  | String _ _, EmptyString => None
  end.

(** [str::find]: the text from the first occurrence on. *)
Fixpoint find_from (needle s : string) : option string :=
  if String.prefix needle s then Some s
  else match s with
       | EmptyString => None
       | String _ rest => find_from needle rest
       end.

(** [Path::join] with a relative path that does not start with [/]. *)
Fixpoint ends_with_slash (s : string) : bool :=
  match s with
  | EmptyString => false
  | String c EmptyString => Ascii.eqb c (Ascii.ascii_of_N 47)
  | String _ rest => ends_with_slash rest
  end.
Definition path_join (dir name : string) : string :=
  if (dir =? "")%string || ends_with_slash dir then dir +:+ name else dir +:+ "/" +:+ name.

(** ** The text of a skill file *)
Definition CRON_SKILLS_REL_DIR : string := "cron/skills".
Definition CRON_SKILL_DIR_PREFIX : string := "cron-".
Definition SKILL_FILE_NAME : string := "SKILL.md".
Definition SKILL_SUGGEST_FILENAME : string := "SKILL_SUGGEST.md".

Definition PLACEHOLDER_PATTERNS : list string :=
  ["skill-name"; "one-line description"; "your-skill-name"; "your skill name"; "description of"].
Definition PLACEHOLDER_BODY_PATTERNS : list string :=
  ["(full skill.md body"; "full skill.md body"; "(clear instructions for executing this task";
   "<full instructions: output format, tone, sources to check"].

Record ParsedSkillContent : Type := mkParsed { ps_name : string; ps_description : string; ps_body : string }.

Definition backslash : string := String (Ascii.ascii_of_N 92) EmptyString.
Definition validate_job_id (job_id : string) : Result unit CronError.t :=
  if (job_id =? "")%string || str_contains "/" job_id || str_contains backslash job_id || str_contains ".." job_id
  then Err (CronError.InvalidSkillContent ("定时任务 ID 无效：" +:+ job_id))
  else Ok tt.

Section Paths.
Context `{CronDb}.
Local Open Scope tjuae_scope.

Definition cron_skill_name (job_id : string) : Result string CronError.t :=
  let? _ := validate_job_id job_id in Ok (CRON_SKILL_DIR_PREFIX +:+ job_id).
Definition cron_skill_dir (job_id : string) : Result string CronError.t :=
  let? name := cron_skill_name job_id in Ok (path_join (path_join data_dir CRON_SKILLS_REL_DIR) name).
Definition cron_skill_file_path (job_id : string) : Result FilePath CronError.t :=
  let? dir := cron_skill_dir job_id in Ok (dir, SKILL_FILE_NAME).
End Paths.

Definition sanitize_description (description : string) : string :=
  String.concat " " (List.filter (fun line => negb (line =? "")%string) (map str_trim (lines (normalize_newlines description)))).

Definition SKILL_HEADING : string := "## 执行说明".

Definition build_skill_content (name description prompt : string) (schedule_description : option string) : string :=
  join_lines
    (["---"; "name: " +:+ name; "description: " +:+ sanitize_description description; "---"; "";
      "这是一个定时任务：**" +:+ name +:+ "**"] ++
     (match schedule_description with Some d => ["计划：" +:+ d] | None => [] end) ++
     [""; SKILL_HEADING; ""; "你正在执行定时任务，请直接遵循下面的说明。"; "不要提出澄清问题，直接执行任务并给出结果。"; ""; prompt]).

(** The lines up to the delimiter, and those after it. *)
Fixpoint until_delimiter (l : list string) : option (list string * list string) :=
  match l with
  | [] => None
  | line :: l =>
      if (line =? "---")%string then Some ([], l)
      else match until_delimiter l with
           | Some (front, rest) => Some (line :: front, rest)
           | None => None
           end
  end.

(** The first line that starts with [key]; a blank value counts as none. *)
Fixpoint front_field (key : string) (l : list string) : option string :=
  match l with
  | [] => None
  | line :: l =>
      match strip_prefix key line with
      | Some value => if (str_trim value =? "")%string then None else Some (str_trim value)
      | None => front_field key l
      end
  end.

Fixpoint drop_empty (l : list string) : list string :=
  match l with
  | line :: l' => if (line =? "")%string then drop_empty l' else l
  | [] => []
  end.

Definition invalid_skill {A : Type} (m : string) : Result A CronError.t := Err (CronError.InvalidSkillContent m).

Definition parse_frontmatter (content : string) : Result (string * string * string) CronError.t :=
  match lines (normalize_newlines content) with
  | first :: rest =>
      if negb (first =? "---")%string then invalid_skill "技能文件必须以 YAML frontmatter 开头"
      else match until_delimiter rest with
           | None => invalid_skill "技能文件缺少 frontmatter 结束分隔符"
           | Some (front, body) =>
               match front_field "name:" front with
               | None => invalid_skill "缺少技能名称"
               | Some name =>
                   match front_field "description:" front with
                   | None => invalid_skill "缺少技能说明"
                   | Some description => Ok (name, description, join_lines (drop_empty body))
                   end
               end
           end
  | [] => invalid_skill "技能文件必须以 YAML frontmatter 开头"
  end.

Definition is_intro (line : string) : bool :=
  let trimmed := str_trim line in
  (trimmed =? "")%string || String.prefix "你正在执行" trimmed || String.prefix "不要提出澄清问题" trimmed.

Fixpoint drop_intro (l : list string) : list string :=
  match l with
  | line :: l' => if is_intro line then drop_intro l' else l
  | [] => []
  end.

Definition extract_prompt_from_body (body : string) : string :=
  match find_from SKILL_HEADING body with
  | None => str_trim_end body
  | Some after_heading =>
      match drop_intro (tl (split_lines after_heading)) with
      | [] => ""
      | l => str_trim_end (join_lines l)
      end
  end.

Definition parse_skill_content (content : string) : Result ParsedSkillContent CronError.t :=
  match parse_frontmatter content with
  | Err e => Err e
  | Ok (name, description, body) => Ok (mkParsed name description (extract_prompt_from_body body))
  end.

Definition is_placeholder (value : string) (patterns : list string) : bool :=
  let normalized := to_ascii_lowercase (str_trim value) in
  existsb (fun pattern => String.prefix pattern normalized) patterns.

Definition validate_skill_content (content : string) : Result ParsedSkillContent CronError.t :=
  match parse_frontmatter content with
  | Err e => Err e
  | Ok (name, description, body) =>
      let trimmed_body := str_trim body in
      if (trimmed_body =? "")%string then invalid_skill "技能文件正文不能为空"
      else if is_placeholder name PLACEHOLDER_PATTERNS then invalid_skill "技能名称看起来仍是模板占位符"
      else if is_placeholder description PLACEHOLDER_PATTERNS then invalid_skill "技能说明看起来仍是模板占位符"
      else if is_placeholder trimmed_body PLACEHOLDER_BODY_PATTERNS then invalid_skill "技能正文看起来仍是模板占位符"
      else Ok (mkParsed name description trimmed_body)
  end.

(** Of [service.rs]: the check on a text that a client saves. *)
Definition PLACEHOLDER_CONTENT : list string :=
  ["todo:"; "todo "; "fill in"; "placeholder"; "replace this"; "your "; "insert "; "add your"; "write your"; "put your"].

Definition validate_skill_body_content `{CronLib} (content : string) : Result unit CronError.t :=
  let trimmed := str_trim content in
  if (trimmed =? "")%string then invalid_skill "内容不能为空"
  else if existsb (fun pattern => String.prefix pattern (to_lowercase trimmed)) PLACEHOLDER_CONTENT
       then invalid_skill "内容看起来仍是占位文本"
       else Ok tt.

Definition normalize_for_hash (content : string) : string := str_trim (normalize_newlines content).
Definition content_hash `{CronLib} (content : string) : string := hash_text (normalize_for_hash content).

(** ** Files

    A temporary file has a name of its own, so that writing it is one step; a
    failing write may leave a part of the text, a failing removal a part of the
    directory.  Directories are not part of the world: writing into one that was
    removed in the meantime may succeed here, and fails on a disk. *)
Module SkillFile.
Section Files.
Context `{CronDb}.
Local Open Scope tjuae_scope.

Definition file_call {A : Type} (failing : N -> CronWorld -> CronWorld) (f : N -> CronWorld -> Result A string * CronWorld)
    : Prog CronWorld (Result A CronError.t) :=
  map_err CronError.InvalidSkillContent (atomic (fun w =>
    let n := w_calls w in
    let w := set_calls (N.succ n) w in
    match fs_error n with
    | Some e => (Err e, failing n w)
    | None => f n w
    end)).

Definition put_file (path : FilePath) (content : string) (w : CronWorld) : CronWorld :=
  set_files (<[path := content]> (w_files w)) w.

Definition temp_name (n : N) : string := SKILL_FILE_NAME +:+ ".tmp-" +:+ fs_nonce n.

Definition create_skill_dir : Prog CronWorld (Result unit CronError.t) := file_call (fun _ w => w) (fun _ w => (Ok tt, w)).

Definition write_temp (dir content : string) : Prog CronWorld (Result FilePath CronError.t) :=
  file_call
    (fun n w => match fs_written n with
                | Some k => put_file (dir, temp_name n) (String.substring 0 k content) w
                | None => w
                end)
    (fun n w => (Ok (dir, temp_name n), put_file (dir, temp_name n) content w)).

Definition rename_file (from to : FilePath) : Prog CronWorld (Result unit CronError.t) :=
  file_call (fun _ w => w) (fun _ w =>
    match w_files w !! from with
    | None => (Err "No such file or directory (os error 2)", w)
    | Some content => (Ok tt, put_file to content (set_files (delete from (w_files w)) w))
    end).

(** [validate_skill_content] first: nothing else is written. *)
Definition write_raw_skill_file (job_id raw_content : string) : Prog CronWorld (Result FilePath CronError.t) :=
  let! _ := Ret (validate_skill_content raw_content) in
  let! dir := Ret (cron_skill_dir job_id) in
  let! _ := create_skill_dir in
  let! temp_path := write_temp dir raw_content in
  let! _ := rename_file temp_path (dir, SKILL_FILE_NAME) in
  Ret (Ok (dir, SKILL_FILE_NAME)).

Definition write_skill_file (job_id name description prompt : string) (schedule_description : option string)
    : Prog CronWorld (Result FilePath CronError.t) :=
  write_raw_skill_file job_id (build_skill_content name description prompt schedule_description).

Definition read_file (path : FilePath) : Prog CronWorld (Result (option string) CronError.t) :=
  file_call (fun _ w => w) (fun _ w => (Ok (w_files w !! path), w)).

Definition read_skill_content (job_id : string) : Prog CronWorld (Result (option string) CronError.t) :=
  let! file_path := Ret (cron_skill_file_path job_id) in
  read_file file_path.

Definition has_skill_file (job_id : string) : Prog CronWorld (Result bool CronError.t) :=
  let! file_path := Ret (cron_skill_file_path job_id) in
  let! content := read_file file_path in
  Ret (Ok (match content with Some _ => true | None => false end)).

Definition in_dir (dir : string) (path : FilePath) : bool :=
  (fst path =? dir)%string || String.prefix (dir +:+ "/") (fst path).

Definition remove_files (p : FilePath -> bool) (w : CronWorld) : CronWorld :=
  set_files (filter (fun '(path, _) => p path = false) (w_files w)) w.

Definition delete_skill_file (job_id : string) : Prog CronWorld (Result unit CronError.t) :=
  let! dir := Ret (cron_skill_dir job_id) in
  file_call (fun n w => remove_files (fun path => in_dir dir path && fs_removed n path) w)
    (fun _ w => (Ok tt, remove_files (in_dir dir) w)).
End Files.
End SkillFile.

(** ** Artifacts of a conversation *)
Module ArtifactRepo.
Section Artifacts.
Context `{CronDb}.
Local Open Scope tjuae_scope.

Definition is_artifact (id : string) (r : ArtifactRow) : bool := (ar_id r =? id)%string.

(** [ON CONFLICT(id) DO UPDATE]: all but the id and the time of creation. *)
Definition overwrite (new old : ArtifactRow) : ArtifactRow :=
  mkArtifact (ar_id old) (ar_conversation_id new) (ar_cron_job_id new) (ar_kind new) (ar_status new) (ar_payload new)
    (ar_created_at old) (ar_updated_at new).

Definition get_artifact (conversation_id artifact_id : string) : Prog CronWorld (Result (option ArtifactRow) DbError.t) :=
  CronRepo.sql (fun _ w =>
    (Ok (List.find (fun r => (ar_conversation_id r =? conversation_id)%string && is_artifact artifact_id r)
           (w_artifacts w)), w)).

Definition upsert_artifact (row : ArtifactRow) : Prog CronWorld (Result ArtifactRow DbError.t) :=
  let! _ := CronRepo.sql (fun _ w =>
    (Ok tt, set_artifacts
       (if existsb (is_artifact (ar_id row)) (w_artifacts w)
        then map (fun r => if is_artifact (ar_id row) r then overwrite row r else r) (w_artifacts w)
        else w_artifacts w ++ [row]) w)) in
  let! found := get_artifact (ar_conversation_id row) (ar_id row) in
  Ret (match found with
       | Some r => Ok r
       | None => Err (DbError.Init ("upsert artifact did not produce row for id '" +:+ ar_id row +:+ "'"))
       end).

Definition is_suggestion_of (cron_job_id : string) (r : ArtifactRow) : bool :=
  match ar_kind r, ar_cron_job_id r with
  | ArtifactKind.SkillSuggest, Some id => (id =? cron_job_id)%string
  | _, _ => false
  end.
Definition not_saved (r : ArtifactRow) : bool := match ar_status r with ArtifactStatus.Saved => false | _ => true end.
Definition with_status (status : ArtifactStatus.t) (updated_at : Z) (r : ArtifactRow) : ArtifactRow :=
  mkArtifact (ar_id r) (ar_conversation_id r) (ar_cron_job_id r) (ar_kind r) status (ar_payload r) (ar_created_at r)
    updated_at.

(** [ORDER BY created_at ASC, id ASC]. *)
Definition by_creation (a b : ArtifactRow) : Prop :=
  (ar_created_at a < ar_created_at b)%Z \/ ar_created_at a = ar_created_at b /\ String.le (ar_id a) (ar_id b).
#[export] Instance by_creation_dec : RelDecision by_creation.
Proof. intros a b. unfold by_creation. apply _. Defined.

Definition mark_skill_suggest_artifacts_saved (cron_job_id : string) (updated_at : Z)
    : Prog CronWorld (Result (list ArtifactRow) DbError.t) :=
  let! _ := CronRepo.sql (fun _ w =>
    (Ok tt, set_artifacts
       (map (fun r => if is_suggestion_of cron_job_id r && not_saved r
                      then with_status ArtifactStatus.Saved updated_at r else r) (w_artifacts w)) w)) in
  CronRepo.sql (fun _ w => (Ok (merge_sort by_creation (List.filter (is_suggestion_of cron_job_id) (w_artifacts w))), w)).

Definition build_cron_trigger_artifact (n : N) (conversation_id : string) (job : CronJob) (created_at : Z) : ArtifactRow :=
  mkArtifact (conversation_id +:+ ":cron_trigger:" +:+ cron_id "" n) conversation_id (Some (job_id job))
    ArtifactKind.CronTrigger ArtifactStatus.Active
    (ArtifactPayload.Trigger (job_id job) (job_name job) created_at) created_at created_at.

Definition build_skill_suggest_artifact (conversation_id job_id name description skill_content : string) (now : Z)
    : ArtifactRow :=
  mkArtifact (conversation_id +:+ ":skill_suggest:" +:+ job_id) conversation_id (Some job_id)
    ArtifactKind.SkillSuggest ArtifactStatus.Pending
    (ArtifactPayload.Suggestion job_id name description skill_content) now now.

Definition broadcast_artifact (row : ArtifactRow) : Prog CronWorld unit :=
  atomic (fun w => (tt, set_events (w_events w ++ [CronEvent.Artifact row]) w)).

(** What is stored is told; an error is only logged. *)
Definition persist_and_broadcast (row : ArtifactRow) : Prog CronWorld unit :=
  do row := upsert_artifact row in
  match row with
  | Ok row => broadcast_artifact row
  | Err _ => Ret tt
  end.
End Artifacts.
End ArtifactRepo.

(** ** Suggested skills *)
Module SkillSuggestDetector.
Section Detector.
Context `{CronLib, CronDb}.
(** The process, which has its own table of hashes. *)
Variable instance_id : string.
Local Open Scope tjuae_scope.

Definition last_hash_key (conversation_id job_id : string) : string := job_id +:+ ":" +:+ conversation_id.

Definition last_hash (conversation_id job_id : string) : Prog CronWorld (option string) :=
  atomic (fun w => (w_hashes w !! (instance_id, last_hash_key conversation_id job_id), w)).
Definition set_last_hash (conversation_id job_id hash : string) : Prog CronWorld unit :=
  atomic (fun w => (tt, set_hashes (<[(instance_id, last_hash_key conversation_id job_id) := hash]> (w_hashes w)) w)).
Definition clear_last_hash (job_id : string) : Prog CronWorld unit :=
  atomic (fun w =>
    (tt, set_hashes (filter (fun '((me, key), _) =>
                       (me =? instance_id)%string && String.prefix (job_id +:+ ":") key = false) (w_hashes w)) w)).

Definition emit_suggestion (conversation_id job_id name description skill_content : string) : Prog CronWorld unit :=
  do now := CronRepo.ask cron_now in
  ArtifactRepo.persist_and_broadcast
    (ArtifactRepo.build_skill_suggest_artifact conversation_id job_id name description skill_content now).

(** The file that the agent left, if it is one to suggest. *)
Definition suggested (content : option string) : option (string * ParsedSkillContent) :=
  match content with
  | None => None
  | Some content =>
      if (str_trim content =? "")%string then None
      else match validate_skill_content content with Ok validated => Some (content, validated) | Err _ => None end
  end.

Definition suggest_new (conversation_id job_id content : string) (validated : ParsedSkillContent) : Prog CronWorld unit :=
  let hash := content_hash content in
  do last := last_hash conversation_id job_id in
  if bool_decide (last = Some hash) then Ret tt
  else
    do _ := set_last_hash conversation_id job_id hash in
    emit_suggestion conversation_id job_id (ps_name validated) (ps_description validated) content.

Definition check_and_emit (conversation_id job_id workspace : string) : Prog CronWorld (Result bool CronError.t) :=
  if (str_trim workspace =? "")%string then Ret (Ok false)
  else
    let! saved := SkillFile.has_skill_file job_id in
    if saved : bool then do _ := clear_last_hash job_id in Ret (Ok true)
    else
      let! content := SkillFile.read_file (workspace, SKILL_SUGGEST_FILENAME) in
      match suggested content with
      | None => Ret (Ok false)
      | Some (content, validated) =>
          do _ := suggest_new conversation_id job_id content validated in
          Ret (Ok true)
      end.

(** One check after each of the three delays, until one is done. *)
Definition RETRY_DELAYS_MS : list Z := [1000; 2000; 3000]%Z.

Fixpoint check_after (delays : list Z) (conversation_id job_id workspace : string) : Prog CronWorld unit :=
  match delays with
  | [] => Ret tt
  | _ :: delays =>
      do checked := check_and_emit conversation_id job_id workspace in
      match checked with
      | Ok true => Ret tt
      | _ => check_after delays conversation_id job_id workspace
      end
  end.
Definition check_with_retry : string -> string -> string -> Prog CronWorld unit := check_after RETRY_DELAYS_MS.
End Detector.
End SkillSuggestDetector.
