(* ===== verification/CronSkillText.v ===== *)
(** * Scheduled jobs: the text of a skill

    [skill_content_roundtrip]: what is built of a job's name, description and
    prompt is what is read back. *)

From S2P Require Import Prelude SerdeJson CronTypes CronStore CronSkill.

(** ** Characters that a text lacks *)
Definition lacks (c : Ascii.ascii) (s : string) : Prop := Forall (fun a => a <> c) (String.list_ascii_of_string s).

Lemma lacks_cons c a s : lacks c (String a s) <-> a <> c /\ lacks c s.
Proof. unfold lacks. simpl. by rewrite Forall_cons. Qed.

Lemma lacks_app c s t : lacks c (s +:+ t) <-> lacks c s /\ lacks c t.
Proof.
  induction s as [|a s IH]; simpl; [split; [by intros H; split; [constructor|]|by intros []]|].
  change (String a s +:+ t) with (String a (s +:+ t)). rewrite !lacks_cons, IH. tauto.
Qed.

Lemma lacks_list c l : lacks c (String.string_of_list_ascii l) <-> Forall (fun a => a <> c) l.
Proof. unfold lacks. by rewrite String.list_ascii_of_string_of_list_ascii. Qed.

Lemma forall_drop_spaces (P : N -> Prop) space skip l : Forall P l -> Forall P (drop_spaces space skip l).
Proof.
  revert skip. induction l as [|b l IH]; intros skip Hl; [done|]. apply Forall_cons in Hl as [Hb Hl]. simpl.
  destruct skip; [|by apply IH]. destruct (space (b :: l)); [by constructor|by apply IH].
Qed.

Lemma lacks_bytes c s : lacks c s <-> Forall (fun b => b <> Ascii.N_of_ascii c) (bytes s).
Proof.
  unfold lacks, bytes. rewrite Forall_fmap. split; intros Hs; (eapply Forall_impl; [exact Hs|]); intros a Ha; simpl in *.
  - intros E. apply Ha. by rewrite <- (Ascii.ascii_N_embedding a), E, Ascii.ascii_N_embedding.
  - by intros ->.
Qed.

Lemma lacks_of_bytes c l : Forall (fun b => b < 256)%N l -> Forall (fun b => b <> Ascii.N_of_ascii c) l -> lacks c (of_bytes l).
Proof. intros Hs Hl. apply lacks_bytes. by rewrite of_bytes_bytes. Qed.

Lemma trim_lacks c s : lacks c s -> lacks c (str_trim s).
Proof.
  intros Hs%lacks_bytes. pose proof (bytes_small s) as Hb. unfold str_trim.
  apply lacks_of_bytes; apply Forall_rev, forall_drop_spaces, Forall_rev, forall_drop_spaces; done.
Qed.

(** ** Newlines *)
Lemma normalize_app s t : lacks CR s -> normalize_newlines (s +:+ t) = s +:+ normalize_newlines t.
Proof.
  unfold normalize_newlines. induction s as [|a s IH]; intros Hs; [done|]. apply lacks_cons in Hs as [Ha Hs].
  change (String a s +:+ t) with (String a (s +:+ t)).
  assert (replace_crlf (String a (s +:+ t)) = String a (replace_crlf (s +:+ t))) as ->.
  { apply Ascii.eqb_neq in Ha. cbn [replace_crlf]. destruct (s +:+ t); [done|]. by rewrite Ha. }
  cbn [replace_cr]. apply Ascii.eqb_neq in Ha. rewrite Ha. by rewrite (IH Hs).
Qed.

Lemma normalize_id s : lacks CR s -> normalize_newlines s = s.
Proof. intros Hs. pose proof (normalize_app s "" Hs) as E. by rewrite !str_app_nil in E. Qed.

Lemma normalized_lacks s : lacks CR (normalize_newlines s).
Proof.
  unfold normalize_newlines. induction (replace_crlf s) as [|a t IH]; [constructor|]. cbn [replace_cr]. apply lacks_cons.
  split; [|done]. destruct (Ascii.eqb_spec a CR) as [->|]; [discriminate|done].
Qed.

(** ** Lines *)
Lemma split_not_nil s : split_lines s <> [].
Proof. destruct s as [|a s]; [done|]. cbn [split_lines]. destruct (Ascii.eqb a LF); [done|]. by destruct (split_lines s). Qed.

Lemma split_line l t : lacks LF l -> split_lines (l +:+ newline +:+ t) = l :: split_lines t.
Proof.
  induction l as [|a l IH]; intros Hl; [done|]. apply lacks_cons in Hl as [Ha Hl].
  change (String a l +:+ newline +:+ t) with (String a (l +:+ newline +:+ t)). cbn [split_lines].
  apply Ascii.eqb_neq in Ha. by rewrite Ha, (IH Hl).
Qed.

Lemma split_last l : lacks LF l -> split_lines l = [l].
Proof.
  induction l as [|a l IH]; intros Hl; [done|]. apply lacks_cons in Hl as [Ha Hl]. cbn [split_lines].
  apply Ascii.eqb_neq in Ha. by rewrite Ha, (IH Hl).
Qed.

Lemma join_cons l ls : ls <> [] -> join_lines (l :: ls) = l +:+ newline +:+ join_lines ls.
Proof. by destruct ls. Qed.

Lemma split_join ls : ls <> [] -> Forall (lacks LF) ls -> split_lines (join_lines ls) = ls.
Proof.
  induction ls as [|l ls IH]; intros Hne Hls; [done|]. apply Forall_cons in Hls as [Hl Hls].
  destruct ls as [|l' ls]; [by apply split_last|]. rewrite join_cons, split_line by done. f_equal. by apply IH.
Qed.

Lemma split_join_app ls p : Forall (lacks LF) ls -> split_lines (join_lines (ls ++ [p])) = ls ++ split_lines p.
Proof.
  induction ls as [|l ls IH]; intros Hls; [done|]. apply Forall_cons in Hls as [Hl Hls]. cbn [app].
  rewrite join_cons, split_line by (try done; by destruct ls). f_equal. by apply IH.
Qed.

Lemma split_lacks s : Forall (lacks LF) (split_lines s).
Proof.
  induction s as [|a s IH]; [repeat constructor|]. cbn [split_lines]. destruct (Ascii.eqb_spec a LF); [constructor; [constructor|done]|].
  pose proof (split_not_nil s). destruct (split_lines s) as [|l ls]; [done|]. apply Forall_cons in IH as [Hl Hls].
  constructor; [|done]. by apply lacks_cons.
Qed.

Lemma split_lacks_cr s : lacks CR s -> Forall (lacks CR) (split_lines s).
Proof.
  induction s as [|a s IH]; intros Hs; [repeat constructor|]. apply lacks_cons in Hs as [Ha Hs]. specialize (IH Hs). cbn [split_lines].
  destruct (Ascii.eqb a LF); [constructor; [constructor|done]|].
  pose proof (split_not_nil s). destruct (split_lines s) as [|l ls]; [done|]. apply Forall_cons in IH as [Hl Hls].
  constructor; [|done]. by apply lacks_cons.
Qed.

Lemma join_split s : join_lines (split_lines s) = s.
Proof.
  induction s as [|a s IH]; [done|]. cbn [split_lines]. pose proof (split_not_nil s) as Hne. destruct (Ascii.eqb_spec a LF) as [->|Ha].
  - rewrite join_cons by done. by rewrite IH.
  - destruct (split_lines s) as [|l [|l' ls]]; [done|by rewrite <- IH|].
    change (String a (join_lines (l :: l' :: ls)) = String a s). by rewrite IH.
Qed.

Lemma strip_cr_id l : lacks CR l -> strip_cr l = l.
Proof.
  induction l as [|a l IH]; intros Hl; [done|]. apply lacks_cons in Hl as [Ha Hl].
  destruct l as [|b l]; [cbn [strip_cr]; apply Ascii.eqb_neq in Ha; by rewrite Ha|].
  change (strip_cr (String a (String b l))) with (String a (strip_cr (String b l))). by rewrite (IH Hl).
Qed.

Lemma ended_app ls q : Forall (lacks CR) ls -> q <> [] -> ended_lines (ls ++ q) = ls ++ ended_lines q.
Proof.
  induction ls as [|l ls IH]; intros Hls Hq; [done|]. apply Forall_cons in Hls as [Hl Hls].
  assert (ls ++ q <> []) as Hne by (by destruct ls).
  assert (ended_lines ((l :: ls) ++ q) = strip_cr l :: ended_lines (ls ++ q)) as -> by (cbn [app]; by destruct (ls ++ q)).
  rewrite strip_cr_id by done. cbn [app]. f_equal. by apply IH.
Qed.

(** A text without carriage returns, line by line, but for a newline at its end. *)
Lemma ended_cases s : lacks CR s ->
  ended_lines (split_lines s) = split_lines s \/ exists ls, split_lines s = ls ++ [""] /\ ended_lines (split_lines s) = ls.
Proof.
  intros Hs%split_lacks_cr. destruct (split_lines s) as [|x l _] using rev_ind; [by left|].
  apply Forall_app in Hs as [Hl Hx]. rewrite ended_app by done. cbn [ended_lines].
  destruct (String.eqb_spec x "") as [->|]; [|by left]. right. exists l. by rewrite app_nil_r.
Qed.

(** ** White space at the ends *)
Lemma trim_after_space s : str_trim (String (Ascii.ascii_of_N 32) s) = str_trim s.
Proof. done. Qed.

Lemma newline_is_space l : space_back (10%N :: l) = 1%nat.
Proof. by destruct l as [|b [|c l]]. Qed.

Lemma trim_end_newline s : str_trim_end (s +:+ newline) = str_trim_end s.
Proof.
  unfold str_trim_end. rewrite bytes_app, rev_app_distr. do 2 f_equal.
  change (drop_spaces space_back 0 (10%N :: rev (bytes s)) = drop_spaces space_back 0 (rev (bytes s))).
  cbn [drop_spaces]. by rewrite newline_is_space.
Qed.

Lemma join_snoc ls : ls <> [] -> join_lines (ls ++ [""]) = join_lines ls +:+ newline.
Proof.
  induction ls as [|l [|l' ls] IH]; intros Hne; [done|done|]. cbn [app].
  rewrite (join_cons l (l' :: ls ++ [""])), (join_cons l (l' :: ls)) by done.
  change (l' :: ls ++ [""]) with ((l' :: ls) ++ [""]). rewrite IH by done. by rewrite !str_app_assoc.
Qed.

Lemma trim_end_ended s : lacks CR s -> str_trim_end (join_lines (ended_lines (split_lines s))) = str_trim_end s.
Proof.
  intros Hs. destruct (ended_cases s Hs) as [->|(ls & Hsplit & ->)]; [by rewrite join_split|].
  rewrite <- (join_split s), Hsplit. destruct ls as [|l ls]; [done|].
  by rewrite join_snoc, trim_end_newline.
Qed.

(** ** The first occurrence *)
Lemma prefix_line n s t : lacks LF n -> String.prefix n (s +:+ String LF t) = String.prefix n s.
Proof.
  revert s. induction n as [|a n IH]; intros s Hn; [by destruct s|]. apply lacks_cons in Hn as [Ha Hn].
  destruct s as [|b s].
  - change (String.prefix (String a n) (String LF t) = false). cbn [String.prefix].
    by destruct (Ascii.ascii_dec a LF).
  - change (String b s +:+ String LF t) with (String b (s +:+ String LF t)). cbn [String.prefix].
    destruct (Ascii.ascii_dec a b); [by apply IH|done].
Qed.

Lemma find_in_next_line n s t :
  n <> "" -> lacks LF n -> str_contains n s = false -> find_from n (s +:+ newline +:+ t) = find_from n t.
Proof.
  intros Hne Hn. change (s +:+ newline +:+ t) with (s +:+ String LF t).
  induction s as [|b s IH]; intros Hs; cbn [str_contains] in Hs; apply orb_false_iff in Hs as [Hp Hs].
  - change ("" +:+ String LF t) with (String LF t). cbn [find_from].
    pose proof (prefix_line n "" t Hn) as E. change ("" +:+ String LF t) with (String LF t) in E. by rewrite E, Hp.
  - pose proof (prefix_line n (String b s) t Hn) as E.
    change (String b s +:+ String LF t) with (String b (s +:+ String LF t)) in *. cbn [find_from].
    by rewrite E, Hp, IH.
Qed.

Lemma find_here n t : n <> "" -> find_from n (n +:+ t) = Some (n +:+ t).
Proof.
  intros Hne. assert (forall m, String.prefix m (m +:+ t) = true) as Hp.
  { induction m as [|a m IH]; [by destruct t|]. change (String a m +:+ t) with (String a (m +:+ t)). cbn [String.prefix].
    destruct (Ascii.ascii_dec a a); [done|congruence]. }
  destruct n as [|a n]; [done|]. specialize (Hp (String a n)).
  change (String a n +:+ t) with (String a (n +:+ t)) in *. cbn [find_from]. by rewrite Hp.
Qed.

(** ** What is built reads back *)
Definition title_line (name : string) : string := "这是一个定时任务：**" +:+ name +:+ "**".
Definition plan_lines (schedule_description : option string) : list string :=
  match schedule_description with Some d => ["计划：" +:+ d] | None => [] end.

Lemma concat_lacks c sep ls : lacks c sep -> Forall (lacks c) ls -> lacks c (String.concat sep ls).
Proof.
  intros Hsep. induction ls as [|l [|l' ls] IH]; intros Hls; [constructor|by apply Forall_cons in Hls as [Hl _]|].
  apply Forall_cons in Hls as [Hl Hls]. change (lacks c (l +:+ sep +:+ String.concat sep (l' :: ls))).
  rewrite !lacks_app. split; [done|]. split; [done|]. by apply IH.
Qed.

Lemma ended_lacks c l : Forall (lacks c) l -> Forall (lacks c) (ended_lines l).
Proof.
  induction l as [|x l IH]; intros Hl; [done|]. apply Forall_cons in Hl as [Hx Hl]. destruct l as [|y l].
  - cbn [ended_lines]. destruct (_ =? _)%string; by repeat constructor.
  - change (ended_lines (x :: y :: l)) with (strip_cr x :: ended_lines (y :: l)). constructor; [|by apply IH].
    clear -Hx. induction x as [|a x IHx]; [done|]. apply lacks_cons in Hx as [Ha Hx]. destruct x as [|b x].
    + cbn [strip_cr]. destruct (Ascii.eqb a CR); [constructor|by apply lacks_cons].
    + change (strip_cr (String a (String b x))) with (String a (strip_cr (String b x))). apply lacks_cons. auto.
Qed.

Lemma sanitized_lacks c description : c = LF \/ c = CR -> lacks c (sanitize_description description).
Proof.
  intros Hc. unfold sanitize_description. apply concat_lacks; [by destruct Hc as [-> | ->]; repeat constructor|].
  apply List.Forall_forall. intros line Hin. apply filter_In in Hin as [Hin _].
  apply in_map_iff in Hin as (l & <- & Hin). apply trim_lacks. unfold lines in Hin.
  assert (Forall (lacks c) (ended_lines (split_lines (normalize_newlines description)))) as Hall.
  { apply ended_lacks. destruct Hc as [-> | ->]; [apply split_lacks|apply split_lacks_cr, normalized_lacks]. }
  rewrite List.Forall_forall in Hall. by apply Hall.
Qed.

(** What precedes the prompt. *)
Definition front_lines (name description : string) : list string :=
  ["---"; "name: " +:+ name; "description: " +:+ sanitize_description description; "---"; ""].
Definition intro_lines : list string :=
  [""; "你正在执行定时任务，请直接遵循下面的说明。"; "不要提出澄清问题，直接执行任务并给出结果。"; ""].
Definition body_lines (name : string) (schedule_description : option string) : list string :=
  title_line name :: plan_lines schedule_description ++ [""; SKILL_HEADING] ++ intro_lines.

Lemma build_lines name description prompt schedule_description :
  build_skill_content name description prompt schedule_description =
    join_lines ((front_lines name description ++ body_lines name schedule_description) ++ [prompt]).
Proof. unfold build_skill_content. by destruct schedule_description. Qed.

Lemma built_lines_lack c name description schedule_description :
  c = LF \/ c = CR -> lacks c name -> match schedule_description with Some d => lacks c d | None => True end ->
  Forall (lacks c) (front_lines name description ++ body_lines name schedule_description).
Proof.
  intros Hc Hname Hsched. pose proof (sanitized_lacks c description Hc) as Hdesc.
  assert (forall s, forallb (fun a => negb (Ascii.eqb a LF) && negb (Ascii.eqb a CR)) (String.list_ascii_of_string s) = true ->
    lacks c s) as Hfix.
  { intros s Hs. apply List.Forall_forall. intros a Ha. rewrite forallb_forall in Hs. specialize (Hs a Ha).
    apply andb_prop in Hs as [H1 H2]. apply negb_true_iff, Ascii.eqb_neq in H1. apply negb_true_iff, Ascii.eqb_neq in H2.
    by destruct Hc as [-> | ->]. }
  unfold front_lines, body_lines, title_line, plan_lines, intro_lines.
  destruct schedule_description; cbn [app]; rewrite ?Forall_app, ?Forall_cons, ?Forall_nil, ?lacks_app; repeat split; try done;
    apply Hfix; vm_compute; reflexivity.
Qed.

Lemma normalize_join ls p :
  Forall (lacks CR) ls -> normalize_newlines (join_lines (ls ++ [p])) = join_lines (ls ++ [normalize_newlines p]).
Proof.
  induction ls as [|l ls IH]; intros Hls; [done|]. apply Forall_cons in Hls as [Hl Hls]. cbn [app].
  rewrite !join_cons by (by destruct ls). rewrite normalize_app by done. f_equal.
  rewrite normalize_app by (by repeat constructor). f_equal. by apply IH.
Qed.

(** The lines that are read of what was built: those of the prompt come last. *)
Lemma lines_built name description prompt schedule_description :
  lacks CR name -> lacks LF name ->
  match schedule_description with Some d => lacks CR d /\ lacks LF d | None => True end ->
  lines (normalize_newlines (build_skill_content name description prompt schedule_description)) =
    front_lines name description ++ body_lines name schedule_description ++
    ended_lines (split_lines (normalize_newlines prompt)).
Proof.
  intros Hcr Hlf Hs. rewrite build_lines. rewrite normalize_join
    by (apply built_lines_lack; [by right|done|by destruct schedule_description; [destruct Hs|]]).
  unfold lines. rewrite split_join_app
    by (apply built_lines_lack; [by left|done|by destruct schedule_description; [destruct Hs|]]).
  rewrite ended_app; [by rewrite <- app_assoc| |apply split_not_nil].
  apply built_lines_lack; [by right|done|by destruct schedule_description; [destruct Hs|]].
Qed.

Lemma parse_front name description content body :
  lines (normalize_newlines content) = front_lines name description ++ body ->
  str_trim name <> "" -> str_trim (sanitize_description description) <> "" ->
  parse_frontmatter content = Ok (str_trim name, str_trim (sanitize_description description), join_lines (drop_empty body)).
Proof.
  intros E Hn%String.eqb_neq Hd%String.eqb_neq. unfold parse_frontmatter. rewrite E.
  change (match (if (str_trim name =? "")%string then None else Some (str_trim name)) with
          | None => invalid_skill "缺少技能名称"
          | Some name =>
              match (if (str_trim (sanitize_description description) =? "")%string then None
                     else Some (str_trim (sanitize_description description))) with
              | None => invalid_skill "缺少技能说明"
              | Some d => Ok (name, d, join_lines (drop_empty body))
              end
          end = Ok (str_trim name, str_trim (sanitize_description description), join_lines (drop_empty body))).
  by rewrite Hn, Hd.
Qed.

Lemma heading_found name schedule_description rest :
  rest <> [] ->
  str_contains SKILL_HEADING (title_line name) = false ->
  Forall (fun l => str_contains SKILL_HEADING l = false) (plan_lines schedule_description) ->
  find_from SKILL_HEADING (join_lines (body_lines name schedule_description ++ rest)) =
    Some (SKILL_HEADING +:+ newline +:+ join_lines (intro_lines ++ rest)).
Proof.
  intros Hrest Ht Hp. assert (lacks LF SKILL_HEADING) as Hlf by (by apply List.Forall_forall; vm_compute; intuition subst).
  assert (forall s t, str_contains SKILL_HEADING s = false ->
    find_from SKILL_HEADING (s +:+ newline +:+ t) = find_from SKILL_HEADING t) as Hnext
    by (intros s t; by apply find_in_next_line).
  assert (find_from SKILL_HEADING (join_lines (["" ; SKILL_HEADING] ++ intro_lines ++ rest)) =
    Some (SKILL_HEADING +:+ newline +:+ join_lines (intro_lines ++ rest))) as Hlast.
  { cbn [app]. rewrite join_cons by done. rewrite Hnext by done. rewrite join_cons by done. by apply find_here. }
  unfold body_lines. cbn [app]. rewrite join_cons by (by destruct schedule_description). rewrite Hnext by done.
  destruct schedule_description as [d|]; [|exact Hlast]. cbn [plan_lines app] in *.
  apply Forall_cons in Hp as [Hp _]. rewrite join_cons by done. rewrite Hnext by done. exact Hlast.
Qed.

Lemma first_line_ended s : lacks CR s -> is_intro (hd "" (split_lines s)) = false ->
  exists l ls, ended_lines (split_lines s) = l :: ls /\ is_intro l = false.
Proof.
  intros Hs Hi. pose proof (split_not_nil s) as Hne. destruct (ended_cases s Hs) as [->|(ls & E & ->)].
  - destruct (split_lines s) as [|l ls]; [done|]. by exists l, ls.
  - rewrite E in Hi. destruct ls as [|l ls]; [by vm_compute in Hi|]. by exists l, ls.
Qed.

(** C21. The skill file that is built of a job reads back as what it was built
    of: the name, the description on one line and the prompt, but for white
    space around the first two and at the end of the last.  (The name and the
    description of the schedule are on one line and do not contain the heading
    of the instructions; the prompt does not begin with a line that the reader
    takes for its introduction.) *)
Theorem skill_content_roundtrip name description prompt schedule_description :
  lacks LF name -> lacks CR name -> str_trim name <> "" -> str_trim (sanitize_description description) <> "" ->
  str_contains SKILL_HEADING (title_line name) = false ->
  match schedule_description with
  | Some d => lacks CR d /\ lacks LF d /\ str_contains SKILL_HEADING ("计划：" +:+ d) = false
  | None => True
  end ->
  is_intro (hd "" (split_lines (normalize_newlines prompt))) = false ->
  parse_skill_content (build_skill_content name description prompt schedule_description) =
    Ok (mkParsed (str_trim name) (str_trim (sanitize_description description)) (str_trim_end (normalize_newlines prompt))).
Proof.
  intros Hlf Hcr Hn Hd Ht Hs Hi. pose proof (normalized_lacks prompt) as Hp.
  destruct (first_line_ended _ Hp Hi) as (l & ls & E & Hl).
  assert (match schedule_description with Some d => lacks CR d /\ lacks LF d | None => True end) as Hs'
    by (destruct schedule_description; [by destruct Hs as (? & ? & _)|done]).
  pose proof (lines_built name description prompt schedule_description Hcr Hlf Hs') as Hlines.
  unfold parse_skill_content. rewrite (parse_front _ _ _ _ Hlines Hn Hd). do 2 f_equal. clear Hlines Hs'.
  change (drop_empty (body_lines name schedule_description ++ ?x)) with (body_lines name schedule_description ++ x).
  unfold extract_prompt_from_body. rewrite heading_found; [|by rewrite E|done|].
  2: { destruct schedule_description; [|constructor]. by destruct Hs as (_ & _ & Hs); constructor. }
  assert (Forall (lacks LF) (intro_lines ++ ended_lines (split_lines (normalize_newlines prompt)))) as Hlines.
  { apply Forall_app. split; [|apply ended_lacks, split_lacks].
    unfold intro_lines. repeat apply List.Forall_cons; try done; by apply List.Forall_forall; vm_compute; intuition subst. }
  rewrite split_line by (by apply List.Forall_forall; vm_compute; intuition subst). cbn [tl].
  rewrite split_join by (done || by rewrite E). rewrite E in *.
  assert (drop_intro (intro_lines ++ l :: ls) = l :: ls) as ->.
  { transitivity (drop_intro (l :: ls)); [done|]. cbn [drop_intro]. by rewrite Hl. }
  rewrite <- E. by apply trim_end_ended.
Qed.
