(* ===== verification/CronExecutor.v ===== *)
(** * Scheduled jobs: timers and the run of a job
    ([crates/tjuaeui-cron/src/scheduler.rs], [executor.rs], [prompt.rs])

    The timers are state of the world and [fire] is what a timer's task does
    when it wakes.  [prepare_scheduled] finds the conversation a job runs in,
    [execute_inner_with_busy_retry] asks it for a turn and waits. *)

From S2P Require Import Prelude WorkModel Interleave TurnEvents SerdeJson CronTypes CronStore CronSkill.
From stdpp Require Import pretty.

(** ** What the executor is given

    The [n]-th call of the world is answered by the function of that name
    applied to [n].  [turn_started] is whether a turn got as far as its
    [on_started]; [local_timezone] is [iana_time_zone::get_timezone].
    [map_remove] is [serde_json::Map::remove], [model_from_str] serde's reader
    of a [ProviderWithModel], [json_error] the parser's error on a text; [under_work_dir] joins below [conversations] in the working
    directory. *)
Record ConversationRow : Type := mkConversation {
  cv_id : string;
  cv_user_id : string;
  cv_name : string;
  cv_type : string;
  cv_model : option string;
  cv_extra : string;
}.

(** Of [agent_metadata] and of the snapshot of a conversation's assistant, the
    columns that are read. *)
Record AgentMetadataRow : Type := mkAgentMetadata {
  am_id : string;
  am_name : string;
  am_agent_type : string;
  am_agent_source : string;
  am_backend : option string;
  am_yolo_id : option string;
  am_sort_order : Z;
}.
Record AssistantSnapshot : Type := mkSnapshot {
  sn_assistant_id : string;
  sn_agent_id : string;
  sn_resolved_model_id : option string;
}.

Module ConversationError.
(** The others by their text. *)
Inductive t : Type :=
| NotFound (id : string)
| Busy (reason : string)
| WorkspacePathUnavailable (path : string)
| WorkspacePathRuntimeUnavailable (path : string)
| Other (text : string).
Definition to_string (e : t) : string :=
  match e with
  | NotFound id => "找不到对话：" +:+ id
  | Busy reason => "对话正忙：" +:+ reason
  | WorkspacePathUnavailable path => "工作区路径不可用：" +:+ path
  | WorkspacePathRuntimeUnavailable path => "执行期间工作区路径不可用：" +:+ path
  | Other text => text
  end.
End ConversationError.

Record CreateConversationRequest `{SerdeJson} : Type := mkCreateConversation {
  cc_type : option AgentType.t;
  cc_name : string;
  cc_model : option ProviderWithModel;
  cc_assistant : option string;
  cc_extra : Value;
}.

Record TurnOutcome : Type := mkOutcome { to_turn_id : string; to_failed : bool; to_error : option string }.
Record SavedSkillContext : Type := mkSavedSkill { sk_name : string; sk_content : string }.
Record CronAssistantCatalogEntry : Type := mkAssistant {
  as_assistant_id : string;
  as_name : string;
  as_agent_id : string;
  as_backend : string;
}.
Module PathCheck.
Inductive t : Type := Available | Empty | Unavailable (path : string).
End PathCheck.

Class CronHost `{SerdeJson} : Type := {
  conversation_row : N -> string -> Result (option ConversationRow) DbError.t;
  update_conversation : N -> string -> Result unit DbError.t;
  conversations_of_job : N -> string -> string -> Result (list ConversationRow) DbError.t;
  conversation_claimed : N -> string -> bool;
  create_conversation : N -> string -> CreateConversationRequest -> Result (string * string) ConversationError.t;
  turn_started : N -> AgentTurnRequest -> bool;
  run_agent_turn : N -> AgentTurnRequest -> Result TurnOutcome ConversationError.t;
  latest_error : N -> string -> Result (option string) ConversationError.t;
  save_runtime_mode : N -> string -> string -> Result unit ConversationError.t;
  insert_message : N -> string -> string -> Result unit DbError.t;
  auto_workspace : N -> ConversationRow -> option string;
  find_builtin : N -> string -> option (string * option string);
  runtime_assistants : N -> Result (list CronAssistantCatalogEntry) CronError.t;
  agent_metadata : N -> Result (list AgentMetadataRow) DbError.t;
  assistant_snapshot : N -> string -> Result (option AssistantSnapshot) DbError.t;
  local_timezone : N -> option string;
  path_check : N -> string -> PathCheck.t;
  same_path : N -> string -> string -> bool;
  create_dir_all : N -> string -> Result unit string;
  under_work_dir : string -> string;
  map_remove : string -> Value -> Value;
  model_from_str : string -> option ProviderWithModel;
  json_error : string -> string;
}.

(** ** [CronScheduler]

    A timer is due when the sleep of its task is over; [cancel] drops the
    handle and aborts the task.  Replacing a timer is one step here, and so is
    waking up. *)
Module CronScheduler.
Section Scheduler.
Context `{CronLib, CronDb}.

Definition delay_until (target now : Z) : Z := Z.max (i64_wrap (target - now)) 0.
Definition due_at (target now : Z) : Z := (now + delay_until target now)%Z.

Definition cancel (me job_id : string) (w : CronWorld) : CronWorld :=
  set_timers (delete (me, job_id) (w_timers w)) w.

Definition new_timer (schedule : CronSchedule.t) (next_run_at now : Z) : Timer.t :=
  let due := due_at next_run_at now in
  match schedule with
  | CronSchedule.At _ _ => Timer.Occurrence next_run_at due
  | CronSchedule.Every every_ms _ => Timer.Every false next_run_at due every_ms
  | CronSchedule.Cron expr tz _ => Timer.Cron next_run_at due expr tz
  end.

Definition put_timer (me job_id : string) (t : Timer.t) (w : CronWorld) : CronWorld :=
  set_timers (<[(me, job_id) := t]> (w_timers w)) w.

Definition cancel_job (me job_id : string) : Prog CronWorld unit :=
  atomic (fun w => (tt, cancel me job_id w)).

Definition plan (me : string) (job : CronJob) (now : Z) (w : CronWorld) : CronWorld :=
  let w := cancel me (job_id job) w in
  if job_enabled job then
    match job_next_run_at job with
    | None => w
    | Some next_run_at => put_timer me (job_id job) (new_timer (job_schedule job) next_run_at now) w
    end
  else w.

Definition schedule_job (me : string) (job : CronJob) : Prog CronWorld unit :=
  atomic (fun w => (tt, plan me job (cron_now (w_calls w)) (set_calls (N.succ (w_calls w)) w))).
Definition reschedule_job (me : string) (job : CronJob) : Prog CronWorld unit := schedule_job me job.

Definition schedule_retry (me job_id : string) (scheduled_at retry_at : Z) : Prog CronWorld unit :=
  atomic (fun w =>
    (tt, put_timer me job_id (Timer.Occurrence scheduled_at (due_at retry_at (cron_now (w_calls w))))
           (set_calls (N.succ (w_calls w)) w))).

(** The task of a timer wakes: which occurrence it calls for, and what it
    sleeps for next.  [tokio::time::interval] refuses a zero period, and a
    negative one is for ever. *)
Definition wake (now : Z) (t : Timer.t) : option (Z * Timer.t) :=
  match t with
  | Timer.Occurrence scheduled_at due => if (due <=? now)%Z then Some (scheduled_at, Timer.Finished) else None
  | Timer.Every false scheduled_at due every_ms =>
      if (due <=? now)%Z then
        Some (scheduled_at,
              if (every_ms <=? 0)%Z then Timer.Finished else Timer.Every true scheduled_at (now + every_ms) every_ms)
      else None
  | Timer.Every true scheduled_at due every_ms =>
      if (due <=? now)%Z then
        let scheduled_at := i64_wrap (scheduled_at + every_ms) in
        Some (scheduled_at, Timer.Every true scheduled_at (due + every_ms) every_ms)
      else None
  | Timer.Cron next_at due expr tz =>
      if (due <=? now)%Z then
        Some (next_at,
              match compute_cron_next_run expr tz now with
              | Some next_at => Timer.Cron next_at (due_at next_at now) expr tz
              | None => Timer.Finished
              end)
      else None
  | Timer.Finished => None
  end.

Definition fire (me job_id : string) : Prog CronWorld (option Z) :=
  atomic (fun w =>
    let now := cron_now (w_calls w) in
    let w := set_calls (N.succ (w_calls w)) w in
    match w_timers w !! (me, job_id) ≫= wake now with
    | None => (None, w)
    | Some (scheduled_at, t) => (Some scheduled_at, put_timer me job_id t w)
    end).

Definition is_scheduled (me job_id : string) (w : CronWorld) : bool :=
  bool_decide (is_Some (w_timers w !! (me, job_id))).
End Scheduler.
End CronScheduler.

(** ** Prompts *)
Module CronPrompt.
Definition quoted (s : string) : string := String (Ascii.ascii_of_N 34) (s +:+ String (Ascii.ascii_of_N 34) EmptyString).

Definition build_new_conversation_prompt_with_skill_suggest (task_name schedule_desc user_prompt : string) : string :=
"[定时任务上下文]
任务：" +:+ task_name +:+ "
计划：" +:+ schedule_desc +:+ "

规则：
1. 直接执行任务，不要提出澄清问题。
2. 专注产出有用、可执行的结果。
3. 若任务需要新闻、天气等外部数据，搜索最新信息。
4. 完成任务后，在当前工作目录创建 " +:+ quoted SKILL_SUGGEST_FILENAME +:+ "（说明见文末）。
[/定时任务上下文]

" +:+ user_prompt +:+ "

---

[任务完成后] 完整执行上述任务后，在当前工作目录创建 " +:+ quoted SKILL_SUGGEST_FILENAME +:+ "，帮助后续运行保持一致。文件格式如下：

```markdown
---
name: <简短的 kebab-case 名称，例如 daily-greeting>
description: <一句话说明该任务的用途>
---

<记录本次执行所采用的输出格式、语气、信息来源、步骤和质量标准。使用本次执行的具体细节，不要使用占位符。>
```

如果任务过于简单或只是一次性任务，无法从技能文件中获益，可以跳过此步骤。".

Definition build_new_conversation_with_skill_prompt (task_name user_prompt : string) : string :=
"[定时任务上下文]
任务：" +:+ task_name +:+ "

这是一次定时任务执行。工作区已经加载包含详细说明的技能文件，必须阅读并准确遵循。

规则：
1. 直接执行任务，不要提出澄清问题。
2. 遵循技能中定义的输出格式、语气、信息来源和步骤。
3. 若任务需要新闻、天气等外部数据，搜索最新信息。
[/定时任务上下文]

" +:+ user_prompt.

Definition build_existing_conversation_prompt (task_name schedule_desc user_prompt : string) : string :=
"[定时任务执行]
任务：" +:+ task_name +:+ "
计划：" +:+ schedule_desc +:+ "

这不是用户发起的对话，而是自动触发的定时任务。下面的文本是必须执行的任务指令，不是需要闲聊回复的用户发言。

规则：
1. 把指令作为要执行的命令，不作为聊天消息。
2. 直接执行，不要提出澄清问题。
3. 若任务需要新闻、天气等外部数据，搜索最新信息。

任务指令：
" +:+ user_prompt.
End CronPrompt.

(** ** [JobExecutor] *)
Module ExecutionResult.
Inductive t : Type :=
| Success (conversation_id : string)
| Retrying (attempt : Z)
| Skipped
| Error (message : string).
End ExecutionResult.

Record PreparedExecution : Type := mkPrepared { pe_conversation_id : string; pe_saved_skill : option SavedSkillContext }.

Module PreparedRunNow.
Inductive t : Type :=
| Ready (prepared : PreparedExecution)
| AlreadyRunning (conversation_id : string).
End PreparedRunNow.

Module JobExecutor.
Section Executor.
Context `{CronLib, CronDb, CronHost}.
Local Open Scope tjuae_scope.

Definition SYSTEM_DEFAULT_USER_ID : string := "system_default_user".

(** A call, and what it asks for. *)
Definition request {A : Type} (asked : list Asked.t) (f : N -> A) : Prog CronWorld A :=
  atomic (fun w => (f (w_calls w), set_asked (w_asked w ++ asked) (set_calls (N.succ (w_calls w)) w))).
Definition call {A : Type} (f : N -> A) : Prog CronWorld A := request [] f.

(** [map_err(CronError::Database)], and [?] on the others' errors. *)
Definition db {A : Type} (p : Prog CronWorld (Result A DbError.t)) : Prog CronWorld (Result A CronError.t) :=
  map_err CronError.Database p.
Definition conversation_error (e : ConversationError.t) : CronError.t :=
  CronError.Conversation (ConversationError.to_string e).

Definition from_conversation_create (e : ConversationError.t) : CronError.t :=
  match e with
  | ConversationError.WorkspacePathUnavailable path => CronError.WorkspacePathUnavailable path
  | ConversationError.WorkspacePathRuntimeUnavailable path => CronError.WorkspacePathRuntimeUnavailable path
  | other => CronError.Scheduler ("创建对话失败：" +:+ ConversationError.to_string other)
  end.

Definition get_conversation_row (conversation_id : string) : Prog CronWorld (Result (option ConversationRow) CronError.t) :=
  db (call (fun n => conversation_row n conversation_id)).

Definition conversation_exists (conversation_id : string) : Prog CronWorld (Result bool CronError.t) :=
  let! row := get_conversation_row conversation_id in Ret (Ok (match row with Some _ => true | None => false end)).

Definition is_conversation_claimed (conversation_id : string) : Prog CronWorld bool :=
  call (fun n => conversation_claimed n conversation_id).

Definition auto_workspace_to_delete_for_conversation (conversation_id : string)
    : Prog CronWorld (Result (option string) CronError.t) :=
  let! row := get_conversation_row conversation_id in
  match row with
  | None => Ret (Ok None)
  | Some row => do path := call (fun n => auto_workspace n row) in Ret (Ok path)
  end.

(** *** The workspace *)

(** [serde_json::from_str(..).unwrap_or_default()]: null if it does not parse. *)
Definition read_extra (extra : string) : Value := default Null (from_str extra).

Definition resolve_execution_workspace_raw (job : CronJob) (conversation_id : string)
    : Prog CronWorld (Result string CronError.t) :=
  match job_config job ≫= ac_workspace with
  | Some workspace => Ret (Ok workspace)
  | None =>
      let! row := get_conversation_row conversation_id in
      Ret (Ok (match row with
               | None => ""
               | Some row => text_of (v_get "workspace" (read_extra (cv_extra row)))
               end))
  end.

Definition resolve_execution_workspace (job : CronJob) (conversation_id : string)
    : Prog CronWorld (Result string CronError.t) :=
  let! workspace := resolve_execution_workspace_raw job conversation_id in Ret (Ok (str_trim workspace)).

Definition resolve_job_workspace_raw (job : CronJob) : Prog CronWorld (Result string CronError.t) :=
  resolve_execution_workspace_raw job (job_conversation job).

Definition check_workspace (error : string -> CronError.t) (job : CronJob) : Prog CronWorld (Result unit CronError.t) :=
  let! workspace := resolve_job_workspace_raw job in
  do c := call (fun n => path_check n workspace) in
  Ret (match c with
       | PathCheck.Available | PathCheck.Empty => Ok tt
       | PathCheck.Unavailable path => Err (error path)
       end).
Definition validate_runtime_job_workspace : CronJob -> Prog CronWorld (Result unit CronError.t) :=
  check_workspace CronError.WorkspacePathRuntimeUnavailable.

(** *** The conversation's [extra] *)
Definition extra_object (extra : string) : Value :=
  let v := default (v_obj []) (from_str extra) in if is_object v then v else v_obj [].

Definition set_extra (conversation_id : string) (v : Value) : Prog CronWorld (Result unit CronError.t) :=
  db (request [Asked.ConversationExtra conversation_id (to_string v)] (fun n => update_conversation n conversation_id)).

Definition bound_job (extra : Value) : option string :=
  match str_of (v_get "cron_job_id" extra) with
  | Some id => Some id
  | None => str_of (v_get "cronJobId" extra)
  end.

Definition bind_extra (cron_job_id : string) (extra : Value) : Value :=
  map_insert "cronJobId" (v_str cron_job_id) (map_insert "cron_job_id" (v_str cron_job_id) extra).

Definition bind_cron_job_to_conversation (conversation_id cron_job_id : string) (session_mode : option string)
    : Prog CronWorld (Result unit CronError.t) :=
  let! row := get_conversation_row conversation_id in
  match row with
  | None => Ret (Ok tt)
  | Some row =>
      let session_mode :=
        match session_mode with
        | Some mode => if (str_trim mode =? "")%string then None else Some (str_trim mode)
        | None => None
        end in
      let extra := extra_object (cv_extra row) in
      let! _ :=
        if bool_decide (bound_job extra = Some cron_job_id) then Ret (Ok tt)
        else set_extra conversation_id (bind_extra cron_job_id extra) in
      match session_mode with
      | Some mode =>
          if (cv_type row =? "acp")%string then
            map_err conversation_error
              (request [Asked.RuntimeMode conversation_id mode] (fun n => save_runtime_mode n conversation_id mode))
          else Ret (Ok tt)
      | None => Ret (Ok tt)
      end
  end.

Definition unbind_cron_job_from_conversation (conversation_id cron_job_id : string) : Prog CronWorld (Result unit CronError.t) :=
  let! row := get_conversation_row conversation_id in
  match row with
  | None => Ret (Ok tt)
  | Some row =>
      let extra := default (v_obj []) (from_str (cv_extra row)) in
      let snake_matches := bool_decide (str_of (v_get "cron_job_id" extra) = Some cron_job_id) in
      let camel_matches := bool_decide (str_of (v_get "cronJobId" extra) = Some cron_job_id) in
      if negb (is_object extra) || negb (snake_matches || camel_matches) then Ret (Ok tt)
      else
        let extra := if snake_matches then map_remove "cron_job_id" extra else extra in
        let extra := if camel_matches then map_remove "cronJobId" extra else extra in
        set_extra conversation_id extra
  end.

Definition persist_workspace_if_missing (conversation_id resolved_workspace : string) : Prog CronWorld (Result unit CronError.t) :=
  let resolved_workspace := str_trim resolved_workspace in
  if (resolved_workspace =? "")%string then Ret (Ok tt)
  else
    let! row := get_conversation_row conversation_id in
    match row with
    | None => Ret (Ok tt)
    | Some row =>
        let extra := extra_object (cv_extra row) in
        if (str_trim (text_of (v_get "workspace" extra)) =? "")%string
        then set_extra conversation_id (map_insert "workspace" (v_str resolved_workspace) extra)
        else Ret (Ok tt)
    end.

Definition insert_tips_message (conversation_id content : string) : Prog CronWorld (Result unit CronError.t) :=
  db (request [Asked.Tips conversation_id content] (fun n => insert_message n conversation_id content)).

(** *** The saved skill *)
Definition schedule_description (s : CronSchedule.t) : option string :=
  match s with
  | CronSchedule.At _ description | CronSchedule.Every _ description | CronSchedule.Cron _ _ description => description
  end.

Definition persist_skill_file (job : CronJob) (raw_content : string) : Prog CronWorld (Result unit CronError.t) :=
  do r := SkillFile.write_raw_skill_file (job_id job) raw_content in
  match r with
  | Ok _ => Ret (Ok tt)
  | Err (CronError.InvalidSkillContent _) =>
      let description := default ("为 " +:+ job_name job +:+ " 保存的定时任务技能") (job_description job) in
      let! _ := SkillFile.write_skill_file (job_id job) (job_name job) description (str_trim raw_content)
                  (schedule_description (job_schedule job)) in
      Ret (Ok tt)
  | Err e => Ret (Err e)
  end.

Definition saved_skill_of (job : CronJob) (raw_content : string) : Result (option SavedSkillContext) CronError.t :=
  let? name := cron_skill_name (job_id job) in Ok (Some (mkSavedSkill name raw_content)).

Definition legacy_skill (job : CronJob) : Prog CronWorld (Result (option SavedSkillContext) CronError.t) :=
  let legacy_content := str_trim (default "" (job_skill job)) in
  if (legacy_content =? "")%string then Ret (Ok None)
  else
    let! _ := persist_skill_file job legacy_content in
    let! raw_content := SkillFile.read_skill_content (job_id job) in
    Ret (saved_skill_of job (default legacy_content raw_content)).

Definition prepare_saved_skill (job : CronJob) : Prog CronWorld (Result (option SavedSkillContext) CronError.t) :=
  let! content := SkillFile.read_skill_content (job_id job) in
  match content with
  | Some raw_content =>
      if (str_trim raw_content =? "")%string then legacy_skill job else Ret (saved_skill_of job raw_content)
  | None => legacy_skill job
  end.

Definition mark_skill_suggest_artifacts_saved (job_id : string) : Prog CronWorld (Result unit CronError.t) :=
  do now := call cron_now in
  let! rows := db (ArtifactRepo.mark_skill_suggest_artifacts_saved job_id now) in
  do _ := each ArtifactRepo.broadcast_artifact rows in
  Ret (Ok tt).

(** *** The conversation a job runs in *)
Definition agent_type_from_str (s : string) : option AgentType.t :=
  if (s =? "acp")%string then Some AgentType.Acp
  else if (s =? "a2a")%string then Some AgentType.A2a
  else if (s =? "openclaw-gateway")%string then Some AgentType.OpenclawGateway
  else if (s =? "nanobot")%string then Some AgentType.Nanobot
  else if (s =? "remote")%string then Some AgentType.Remote
  else if (s =? "tjuaecli")%string then Some AgentType.TjuaeCli
  else if (s =? "gemini")%string then Some AgentType.Gemini
  else if (s =? "codex")%string then Some AgentType.Codex
  else None.

Definition serde_name (t : AgentType.t) : string :=
  match t with
  | AgentType.Acp => "acp"
  | AgentType.A2a => "a2a"
  | AgentType.OpenclawGateway => "openclaw-gateway"
  | AgentType.Nanobot => "nanobot"
  | AgentType.Remote => "remote"
  | AgentType.TjuaeCli => "tjuaecli"
  | AgentType.Gemini => "gemini"
  | AgentType.Codex => "codex"
  end.

Definition is_deprecated_runtime (t : AgentType.t) : bool :=
  match t with AgentType.Acp | AgentType.TjuaeCli => false | _ => true end.

(** What the registry says of a vendor's label makes no difference. *)
Definition parse_agent_type (s : string) : Result AgentType.t CronError.t :=
  match agent_type_from_str s with
  | Some t =>
      if is_deprecated_runtime t
      then Err (CronError.InvalidAgentConfig "新对话不再支持此 Agent 类型。") else Ok t
  | None => Ok AgentType.Acp
  end.

Definition resolve_model (job : CronJob) : option ProviderWithModel :=
  if (job_agent_type job =? "tjuaecli")%string then job_config job ≫= ac_model else None.

Definition not_blank (o : option string) : option string :=
  match o with
  | Some s => if (str_trim s =? "")%string then None else Some s
  | None => None
  end.

(** The id of the assistant the conversation is created with. *)
Definition build_assistant_request (job : CronJob) : option string :=
  config ← job_config job;
  match not_blank (ac_assistant_id config) with
  | Some id => Some id
  | None => not_blank (ac_custom_agent_id config)
  end.

Definition insert_some (k : string) (o : option string) (v : Value) : Value :=
  match o with
  | Some s => map_insert k (v_str s) v
  | None => v
  end.

Definition inject_agent_identity (job : CronJob) (extra : Value) : Prog CronWorld Value :=
  let lookup_label := str_trim (job_agent_type job) in
  if (lookup_label =? "")%string then Ret extra
  else
    do meta := call (fun n => find_builtin n lookup_label) in
    Ret (match meta with
         | Some (id, backend) => insert_some "backend" backend (map_insert "agent_id" (v_str id) extra)
         | None => extra
         end).

Definition build_conversation_extra (job : CronJob) (saved_skill : option SavedSkillContext) : Prog CronWorld Value :=
  let assistant_backed := bool_decide (is_Some (build_assistant_request job)) in
  let extra := bind_extra (job_id job) (v_obj []) in
  let extra :=
    match saved_skill with
    | Some skill => map_insert "preset_enabled_skills" (v_arr [v_str (sk_name skill)]) extra
    | None => extra
    end in
  do extra := if assistant_backed then Ret extra else inject_agent_identity job extra in
  Ret (match job_config job with
       | None => extra
       | Some config =>
           let extra := insert_some "cli_path" (ac_cli_path config) extra in
           let extra :=
             if assistant_backed || (ac_name config =? "")%string then extra
             else map_insert "agent_name" (v_str (ac_name config)) extra in
           let extra := insert_some "session_mode" (ac_mode config) extra in
           insert_some "workspace" (not_blank (ac_workspace config)) extra
       end).

Definition resolve_conversation_owner_user_id (job : CronJob) : Prog CronWorld (Result string CronError.t) :=
  if (str_trim (job_conversation job) =? "")%string then Ret (Ok SYSTEM_DEFAULT_USER_ID)
  else
    let! row := get_conversation_row (job_conversation job) in
    Ret (Ok (match row with
             | Some row => if (str_trim (cv_user_id row) =? "")%string then SYSTEM_DEFAULT_USER_ID else cv_user_id row
             | None => SYSTEM_DEFAULT_USER_ID
             end)).

Definition default_temp_workspace_path (agent_type : AgentType.t) (conversation_id : string) : string :=
  under_work_dir (serde_name agent_type +:+ "-temp-" +:+ conversation_id).

Definition create_new_conversation (job : CronJob) (saved_skill : option SavedSkillContext)
    : Prog CronWorld (Result string CronError.t) :=
  let! agent_type := Ret (parse_agent_type (job_agent_type job)) in
  let! user_id := resolve_conversation_owner_user_id job in
  do extra := build_conversation_extra job saved_skill in
  let assistant := build_assistant_request job in
  let req := mkCreateConversation _ (match assistant with Some _ => None | None => Some agent_type end) (job_name job) (resolve_model job)
               assistant extra in
  let! response :=
    map_err from_conversation_create
      (request [Asked.Conversation user_id (job_name job) (job_id job)] (fun n => create_conversation n user_id req)) in
  let '(id, workspace) := response in
  if (str_trim workspace =? "")%string then
    let fallback_workspace := default_temp_workspace_path agent_type id in
    let! _ :=
      map_err (fun e => CronError.Scheduler ("create fallback cron workspace " +:+ fallback_workspace +:+ ": " +:+ e))
        (call (fun n => create_dir_all n fallback_workspace)) in
    let! _ := persist_workspace_if_missing id fallback_workspace in
    Ret (Ok id)
  else Ret (Ok id).

Definition resolve_conversation (job : CronJob) (saved_skill : option SavedSkillContext)
    : Prog CronWorld (Result string CronError.t) :=
  match job_mode job with
  | ExecutionMode.Existing =>
      let conversation_id := str_trim (job_conversation job) in
      if (conversation_id =? "")%string then create_new_conversation job saved_skill
      else
        let! exists_ := conversation_exists conversation_id in
        if exists_ : bool then Ret (Ok (job_conversation job)) else create_new_conversation job saved_skill
  | ExecutionMode.NewConversation => create_new_conversation job saved_skill
  end.

(** The first of the job's conversations that has a turn. *)
Fixpoint first_claimed (l : list ConversationRow) : Prog CronWorld (option string) :=
  match l with
  | [] => Ret None
  | c :: l => do claimed := is_conversation_claimed (cv_id c) in if claimed : bool then Ret (Some (cv_id c)) else first_claimed l
  end.

Definition find_active_cron_conversation (job : CronJob) : Prog CronWorld (Result (option string) CronError.t) :=
  let! user_id := resolve_conversation_owner_user_id job in
  let! conversations := db (call (fun n => conversations_of_job n user_id (job_id job))) in
  do found := first_claimed conversations in
  Ret (Ok found).

(** *** Before the run *)
Definition handle_busy (job : CronJob) : ExecutionResult.t :=
  if job_queue_enabled job then ExecutionResult.Skipped
  else if (job_max_retries job <=? job_retry_count job)%Z then ExecutionResult.Skipped
  else ExecutionResult.Retrying (i64_wrap (job_retry_count job + 1)).

(** The [Err] of [prepare_scheduled] is a result. *)
Definition or_error {A : Type} (p : Prog CronWorld (Result A CronError.t)) : Prog CronWorld (Result A ExecutionResult.t) :=
  map_err (fun e => ExecutionResult.Error (CronError.to_string e)) p.

Definition prepare_scheduled (job : CronJob) : Prog CronWorld (Result PreparedExecution ExecutionResult.t) :=
  let! saved_skill := or_error (prepare_saved_skill job) in
  let! _ := or_error (validate_runtime_job_workspace job) in
  let! _ :=
    if job_queue_enabled job && bool_decide (job_mode job = ExecutionMode.NewConversation) then
      let! active := or_error (find_active_cron_conversation job) in
      Ret (match active with Some _ => Err ExecutionResult.Skipped | None => Ok tt end)
    else Ret (Ok tt) in
  let! conversation_id := or_error (resolve_conversation job saved_skill) in
  do claimed := is_conversation_claimed conversation_id in
  if claimed : bool then Ret (Err (handle_busy job)) else Ret (Ok (mkPrepared conversation_id saved_skill)).

Definition prepare_run_now (job : CronJob) : Prog CronWorld (Result PreparedRunNow.t CronError.t) :=
  let! saved_skill := prepare_saved_skill job in
  let! _ := validate_runtime_job_workspace job in
  let! conversation_id := resolve_conversation job saved_skill in
  do claimed := is_conversation_claimed conversation_id in
  Ret (Ok (if claimed : bool then PreparedRunNow.AlreadyRunning conversation_id
           else PreparedRunNow.Ready (mkPrepared conversation_id saved_skill))).

(** *** The run *)
Definition load_conversation_skill_names (conversation_id : string) : Prog CronWorld (Result (list string) CronError.t) :=
  let! row := get_conversation_row conversation_id in
  Ret (Ok (match row with
           | None => []
           | Some row => omap as_str (array_of (from_str (cv_extra row) ≫= v_get "skills"))
           end)).

Definition resolve_task_skill_names (job : CronJob) (conversation_id : string) (saved_skill : option SavedSkillContext)
    : Prog CronWorld (Result (list string) CronError.t) :=
  match job_mode job with
  | ExecutionMode.Existing => load_conversation_skill_names conversation_id
  | ExecutionMode.NewConversation =>
      Ret (Ok (match saved_skill with Some skill => [sk_name skill] | None => [] end))
  end.

Definition schedule_description_text (s : CronSchedule.t) : string :=
  match s with
  | CronSchedule.At at_ms description => default ("At " +:+ pretty at_ms) description
  | CronSchedule.Every every_ms description => default ("Every " +:+ pretty every_ms +:+ " ms") description
  | CronSchedule.Cron expr tz description =>
      default (match tz with Some tz => expr +:+ " (" +:+ tz +:+ ")" | None => expr end) description
  end.

Definition build_prompt (job : CronJob) (saved_skill : option SavedSkillContext) : string :=
  let schedule_desc := schedule_description_text (job_schedule job) in
  match job_mode job, saved_skill with
  | ExecutionMode.Existing, _ =>
      CronPrompt.build_existing_conversation_prompt (job_name job) schedule_desc (job_message job)
  | ExecutionMode.NewConversation, Some _ =>
      CronPrompt.build_new_conversation_with_skill_prompt (job_name job) (job_message job)
  | ExecutionMode.NewConversation, None =>
      CronPrompt.build_new_conversation_prompt_with_skill_suggest (job_name job) schedule_desc (job_message job)
  end.

Definition cron_job_runtime_mode (job : CronJob) : option string :=
  config ← job_config job; str_trim <$> not_blank (ac_mode config).

Definition resolve_target_conversation_user_id (conversation_id : string) : Prog CronWorld (Result string CronError.t) :=
  let! row := get_conversation_row conversation_id in
  Ret (match row with
       | None => Err (CronError.Scheduler ("找不到对话：" +:+ conversation_id))
       | Some row => Ok (if (str_trim (cv_user_id row) =? "")%string then SYSTEM_DEFAULT_USER_ID else cv_user_id row)
       end).

Definition conversation_turn_failed_message (conversation_id : string) (outcome : TurnOutcome) : Prog CronWorld string :=
  match not_blank (to_error outcome) with
  | Some message => Ret (str_trim message)
  | None =>
      do latest := call (fun n => latest_error n conversation_id) in
      Ret (match latest with
           | Ok (Some message) => message
           | _ => "对话回合 " +:+ to_turn_id outcome +:+ " 失败，Agent 未提供错误详情"
           end)
  end.

Definition schedule_skill_suggest_check (job : CronJob) (conversation_id : string) : Prog CronWorld unit :=
  do workspace := resolve_execution_workspace job conversation_id in
  let workspace := match workspace with Ok workspace => workspace | Err _ => "" end in
  request [Asked.SkillSuggestCheck conversation_id (job_id job) workspace] (fun _ => tt).

(** A result in the place of an error: what the [return]s of the body give. *)
Definition settled {A : Type} (p : Prog CronWorld (Result A ExecutionResult.t)) (f : A -> Prog CronWorld ExecutionResult.t)
    : Prog CronWorld ExecutionResult.t :=
  do r := p in match r with Ok a => f a | Err result => Ret result end.

Definition turn_result (job : CronJob) (conversation_id : string) (saved_skill : option SavedSkillContext)
    (retry_on_busy : bool) (r : Result TurnOutcome ConversationError.t) : Prog CronWorld ExecutionResult.t :=
  match r with
  | Ok outcome =>
      if to_failed outcome then
        do message := conversation_turn_failed_message conversation_id outcome in Ret (ExecutionResult.Error message)
      else
        do _ :=
          match saved_skill, job_mode job with
          | None, ExecutionMode.NewConversation => schedule_skill_suggest_check job conversation_id
          | _, _ => Ret tt
          end in
        Ret (ExecutionResult.Success conversation_id)
  | Err (ConversationError.Busy reason) =>
      Ret (if retry_on_busy then handle_busy job
           else ExecutionResult.Error (ConversationError.to_string (ConversationError.Busy reason)))
  | Err e => Ret (ExecutionResult.Error (ConversationError.to_string e))
  end.

Definition on_started (job : CronJob) (conversation_id : string) : Prog CronWorld unit :=
  do created_at := call cron_now in
  do row := call (fun n => ArtifactRepo.build_cron_trigger_artifact n conversation_id job created_at) in
  ArtifactRepo.persist_and_broadcast row.

(** The turn is asked for in one step and its outcome known in a later one. *)
Definition execute_inner_with_busy_retry (job : CronJob) (conversation_id : string)
    (saved_skill : option SavedSkillContext) (retry_on_busy : bool) : Prog CronWorld ExecutionResult.t :=
  settled (or_error (get_conversation_row conversation_id)) (fun row =>
  match row with
  | None => Ret (ExecutionResult.Error ("找不到对话：" +:+ conversation_id))
  | Some _ =>
      settled (or_error (resolve_task_skill_names job conversation_id saved_skill)) (fun skill_names =>
      settled (or_error (resolve_target_conversation_user_id conversation_id)) (fun user_id =>
      let turn_req := mkTurnRequest user_id conversation_id (build_prompt job saved_skill) skill_names
                        (cron_job_runtime_mode job) in
      do started := request [Asked.Turn turn_req] (fun n => turn_started n turn_req) in
      do _ := if started : bool then on_started job conversation_id else Ret tt in
      do r := call (fun n => run_agent_turn n turn_req) in
      turn_result job conversation_id saved_skill retry_on_busy r))
  end).

Definition execute_prepared (job : CronJob) (prepared : PreparedExecution) : Prog CronWorld ExecutionResult.t :=
  execute_inner_with_busy_retry job (pe_conversation_id prepared) (pe_saved_skill prepared) false.
Definition execute_prepared_scheduled (job : CronJob) (prepared : PreparedExecution) : Prog CronWorld ExecutionResult.t :=
  execute_inner_with_busy_retry job (pe_conversation_id prepared) (pe_saved_skill prepared) true.
End Executor.
End JobExecutor.
