(* ===== verification/CronAgents.v ===== *)
(** * Scheduled jobs: the agent of a job
    ([crates/tjuaeui-db/src/agent_binding.rs], the agent configuration in
    [crates/tjuaeui-cron/src/service.rs])

    A job names an assistant; the assistant names an agent, which has a backend
    and a mode in which it runs without asking.  [resolve_cron_full_auto_mode]
    looks the mode up, [build_agent_config_from_conversation] derives the
    configuration of a job that an agent creates in its own conversation. *)

From S2P Require Import Prelude WorkModel Interleave TurnEvents SerdeJson CronTypes CronStore CronSkill CronExecutor.
Import JobExecutor.

Record CronAgentConfigWriteDto : Type := mkConfigDto {
  cd_name : string;
  cd_cli_path : option string;
  cd_assistant_id : option string;
  cd_mode : option string;
  cd_model_id : option string;
  cd_model : option ProviderWithModel;
  cd_config_options : option (gmap string string);
  cd_workspace : option string;
}.

Definition non_empty (o : option string) : option string :=
  match o with
  | Some s => if (s =? "")%string then None else Some s
  | None => None
  end.
Definition or_else {A : Type} (a b : option A) : option A := match a with Some _ => a | None => b end.

(** ** Bindings *)
Record AgentBindingResolution : Type := mkBinding {
  ab_agent_id : string;
  ab_agent_source : string;
  ab_agent_type : string;
  ab_runtime_backend : string;
}.

Definition runtime_backend_for_agent (row : AgentMetadataRow) : string :=
  default (am_agent_type row) (non_empty (str_trim <$> am_backend row)).

Definition binding_resolution_for_agent (row : AgentMetadataRow) : AgentBindingResolution :=
  mkBinding (am_id row) (am_agent_source row) (am_agent_type row) (runtime_backend_for_agent row).

Definition source_rank (row : AgentMetadataRow) : Z :=
  if (am_agent_source row =? "builtin")%string then 0
  else if (am_agent_source row =? "internal")%string then 1 else 2.

(** Is [a]'s [(source_rank, sort_order, name)] below [b]'s? *)
Definition ranks_below (a b : AgentMetadataRow) : bool :=
  ((source_rank a <? source_rank b) ||
   (source_rank a =? source_rank b) &&
     ((am_sort_order a <? am_sort_order b) ||
      (am_sort_order a =? am_sort_order b) && String.ltb (am_name a) (am_name b)))%Z.

(** [Iterator::min_by_key]: the first of the least ones. *)
Definition least_agent (l : list AgentMetadataRow) : option AgentMetadataRow :=
  fold_left (fun best row =>
    match best with
    | None => Some row
    | Some b => if ranks_below row b then Some row else best
    end) l None.

Definition best_match (p : AgentMetadataRow -> bool) (rows : list AgentMetadataRow) : option AgentMetadataRow :=
  least_agent (List.filter p rows).

Definition resolve_agent_binding_from_rows (rows : list AgentMetadataRow) (value : string) : option AgentBindingResolution :=
  let value := str_trim value in
  if (value =? "")%string then None
  else
    binding_resolution_for_agent <$>
      or_else (best_match (fun row => (am_id row =? value)%string) rows)
        (or_else (best_match (fun row => bool_decide (am_backend row = Some value)) rows)
           (best_match (fun row => (am_agent_type row =? value)%string) rows)).

(** ** Full-auto modes *)
Definition full_auto_mode_id (t : AgentType.t) (backend : option string) : string :=
  match t with
  | AgentType.Acp =>
      let named b := bool_decide (backend = Some b) in
      if named "claude" || named "codebuddy" then "bypassPermissions"
      else if named "codex" then "agent-full-access"
      else if named "hermes" then "default"
      else if named "opencode" then "build"
      else if named "cursor" then "agent"
      else "yolo"
  | _ => "yolo"
  end.

Definition fallback_full_auto_mode (runtime_agent_type : string) (backend_hint : option string) : string :=
  full_auto_mode_id (default AgentType.Acp (agent_type_from_str runtime_agent_type)) backend_hint.

Definition full_auto_mode_from_metadata (row : AgentMetadataRow) (runtime_agent_type : string) : string :=
  default (fallback_full_auto_mode runtime_agent_type (Some (runtime_backend_for_agent row)))
    (non_empty (str_trim <$> am_yolo_id row)).

(** ** The stored model of a conversation *)
Section Model.
Context `{CronHost}.

Definition get_string (extra : Value) (keys : list string) : option string :=
  head (omap (fun key => non_empty (str_of (v_get key extra))) keys).

Definition empty_provider_model : ProviderWithModel := mkProviderModel "" "" None.

Definition parse_provider_with_model_loose (raw : string) : option ProviderWithModel :=
  match model_from_str raw with
  | Some model => Some model
  | None =>
      value ← from_str raw;
      let provider_id :=
        default "" (str_of (or_else (v_get "provider_id" value) (or_else (v_get "providerId" value) (v_get "id" value)))) in
      if (provider_id =? "")%string then None
      else Some (mkProviderModel provider_id (default "" (str_of (v_get "model" value)))
                   (str_of (or_else (v_get "use_model" value) (v_get "useModel" value))))
  end.

Definition provider_model_from_conversation_row (row : ConversationRow) : ProviderWithModel :=
  default empty_provider_model (cv_model row ≫= parse_provider_with_model_loose).
End Model.

Module CronAgents.
Section Agents.
Context `{CronLib, CronDb, CronHost}.
Local Open Scope tjuae_scope.

(** ** The catalog of assistants *)
Definition resolve_runtime_assistant (assistant_id : string)
    : Prog CronWorld (Result (option CronAssistantCatalogEntry) CronError.t) :=
  let! l := call runtime_assistants in
  Ret (Ok (List.find (fun a => (as_assistant_id a =? assistant_id)%string) l)).

Definition resolve_assistant_backend (assistant_id : option string) : Prog CronWorld (Result (option string) CronError.t) :=
  match non_empty assistant_id with
  | None => Ret (Ok None)
  | Some assistant_id => let! a := resolve_runtime_assistant assistant_id in Ret (Ok (as_backend <$> a))
  end.

Definition resolve_assistant_name (assistant_id : option string) : Prog CronWorld (Result (option string) CronError.t) :=
  match non_empty assistant_id with
  | None => Ret (Ok None)
  | Some assistant_id =>
      let! a := resolve_runtime_assistant assistant_id in
      Ret (Ok (non_empty ((fun a => str_trim (as_name a)) <$> a)))
  end.

(** [Result::ok]. *)
Definition ok_of {A E : Type} (r : Result A E) : option A := match r with Ok a => Some a | Err _ => None end.

Definition resolve_assistant_id_for_agent_label (agent_label : string) : Prog CronWorld (option string) :=
  do rows := call agent_metadata in
  match ok_of rows ≫= fun rows => resolve_agent_binding_from_rows rows agent_label with
  | None => Ret None
  | Some binding =>
      do l := call runtime_assistants in
      Ret (l ← ok_of l;
           as_assistant_id <$>
             List.find (fun a => (as_agent_id a =? ab_agent_id binding)%string ||
                                 (as_backend a =? ab_runtime_backend binding)%string) l)
  end.

Definition resolve_default_assistant_id : Prog CronWorld (option string) :=
  do l := call runtime_assistants in
  Ret (l ← ok_of l; as_assistant_id <$> head l).

Definition runtime_backend_for_agent_id (agent_id : string) : Prog CronWorld (Result string CronError.t) :=
  let! rows := db (call agent_metadata) in
  Ret (Ok (default agent_id (ab_runtime_backend <$> resolve_agent_binding_from_rows rows agent_id))).

(** ** The full-auto mode of a job *)
Definition resolve_agent_metadata_for_value (value : option string)
    : Prog CronWorld (Result (option AgentMetadataRow) CronError.t) :=
  match non_empty (str_trim <$> value) with
  | None => Ret (Ok None)
  | Some value =>
      let! rows := db (call agent_metadata) in
      Ret (Ok (binding ← resolve_agent_binding_from_rows rows value;
               List.find (fun row => (am_id row =? ab_agent_id binding)%string) rows))
  end.

Definition resolve_agent_metadata_for_assistant (assistant_id : option string)
    : Prog CronWorld (Result (option AgentMetadataRow) CronError.t) :=
  match non_empty (str_trim <$> assistant_id) with
  | None => Ret (Ok None)
  | Some assistant_id =>
      let! a := resolve_runtime_assistant assistant_id in
      match a with
      | None => Ret (Ok None)
      | Some a => resolve_agent_metadata_for_value (Some (as_agent_id a))
      end
  end.

(** The first of the programs that finds a row. *)
Fixpoint first_row (l : list (Prog CronWorld (Result (option AgentMetadataRow) CronError.t)))
    : Prog CronWorld (Result (option AgentMetadataRow) CronError.t) :=
  match l with
  | [] => Ret (Ok None)
  | p :: l =>
      let! row := p in
      match row with
      | Some row => Ret (Ok (Some row))
      | None => first_row l
      end
  end.

Definition resolve_cron_full_auto_mode (runtime_agent_type : string) (assistant_id agent_id_hint backend_hint : option string)
    : Prog CronWorld (Result string CronError.t) :=
  let! row := first_row [resolve_agent_metadata_for_assistant assistant_id;
                         resolve_agent_metadata_for_value agent_id_hint;
                         resolve_agent_metadata_for_value backend_hint] in
  Ret (Ok (match row with
           | Some row => full_auto_mode_from_metadata row runtime_agent_type
           | None => fallback_full_auto_mode runtime_agent_type backend_hint
           end)).

(** ** The configuration of a job that is created out of a conversation

    [chosen] is what the assistant was taken from: the conversation, or nothing
    better than the first of the catalog. *)
Record ChosenAssistant : Type := mkChosen { ch_assistant_id : option string; ch_is_default : bool }.

Definition legacy_agent_label (row : ConversationRow) (extra : Value) (model : option ProviderWithModel) : string :=
  if (cv_type row =? "tjuaecli")%string then "tjuaecli"
  else default (cv_type row) (or_else (non_empty (pm_provider_id <$> model)) (get_string extra ["backend"])).

Definition choose_assistant (row : ConversationRow) (extra : Value) (model : option ProviderWithModel)
    (snapshot : option AssistantSnapshot) : Prog CronWorld ChosenAssistant :=
  let preset_assistant_id := get_string extra ["preset_assistant_id"; "presetAssistantId"] in
  let extra_assistant_id := or_else (get_string extra ["assistant_id"; "assistantId"]) preset_assistant_id in
  let snapshot_assistant_id := non_empty ((fun sn => str_trim (sn_assistant_id sn)) <$> snapshot) in
  match or_else snapshot_assistant_id extra_assistant_id with
  | Some id => Ret (mkChosen (Some id) false)
  | None =>
      do legacy := resolve_assistant_id_for_agent_label (legacy_agent_label row extra model) in
      match legacy with
      | Some id => Ret (mkChosen (Some id) false)
      | None =>
          do fallback := resolve_default_assistant_id in
          Ret (mkChosen fallback (match fallback with Some _ => true | None => false end))
      end
  end.

Definition snapshot_backend_of (snapshot : option AssistantSnapshot) : Prog CronWorld (option string) :=
  match snapshot with
  | None => Ret None
  | Some sn =>
      do backend := runtime_backend_for_agent_id (str_trim (sn_agent_id sn)) in
      Ret (non_empty (ok_of backend))
  end.

Definition conversation_backend (row : ConversationRow) (extra : Value) (model : option ProviderWithModel)
    (assistant_backend : option string) : string :=
  let provider := non_empty (pm_provider_id <$> model) in
  let named := get_string extra ["backend"] in
  if (cv_type row =? "tjuaecli")%string
  then default "tjuaecli" (or_else provider (or_else named assistant_backend))
  else default (cv_type row) (or_else assistant_backend (or_else provider named)).

Definition gateway_cli_path (extra : Value) : option string :=
  str_of (gateway ← v_get "gateway" extra; or_else (v_get "cli_path" gateway) (v_get "cliPath" gateway)).

Definition model_id_of (extra : Value) (model : option ProviderWithModel) (snapshot : option AssistantSnapshot)
    : option string :=
  or_else (get_string extra ["current_model_id"; "currentModelId"])
    (or_else (m ← model; or_else (pm_use_model m) (non_empty (Some (pm_model m))))
       (sn ← snapshot; sn_resolved_model_id sn)).

Definition build_agent_config_from_conversation (row : ConversationRow)
    : Prog CronWorld (string * option CronAgentConfigWriteDto * option string) :=
  let extra := default (v_obj []) (from_str (cv_extra row)) in
  do snapshot := call (fun n => assistant_snapshot n (cv_id row)) in
  let snapshot := default None (ok_of snapshot) in
  let resolved := provider_model_from_conversation_row row in
  let model := if (pm_provider_id resolved =? "")%string then None else Some resolved in
  do chosen := choose_assistant row extra model snapshot in
  let assistant_id := ch_assistant_id chosen in
  do assistant_name := resolve_assistant_name assistant_id in
  do snapshot_backend := snapshot_backend_of snapshot in
  do assistant_backend :=
    if ch_is_default chosen then Ret None
    else do found := resolve_assistant_backend assistant_id in
         Ret (or_else snapshot_backend (default None (ok_of found))) in
  let backend := conversation_backend row extra model assistant_backend in
  do mode := resolve_cron_full_auto_mode (cv_type row) (if ch_is_default chosen then None else assistant_id)
               (sn_agent_id <$> snapshot) (Some backend) in
  let mode := match mode with Ok mode => mode | Err _ => fallback_full_auto_mode (cv_type row) (Some backend) end in
  let name := default (cv_name row) (or_else (default None (ok_of assistant_name)) (get_string extra ["agent_name"; "agentName"])) in
  Ret (cv_type row,
       Some (mkConfigDto name (or_else (get_string extra ["cli_path"; "cliPath"]) (gateway_cli_path extra)) assistant_id
               (Some mode) (model_id_of extra model snapshot)
               (if (cv_type row =? "tjuaecli")%string then model else None) None (get_string extra ["workspace"])),
       snapshot_backend).
End Agents.
End CronAgents.
