(* ===== verification/CronService.v ===== *)
(** * Scheduled jobs: the service
    ([crates/tjuaeui-cron/src/service.rs])

    The service of one process, [instance_id]: what it does when a timer calls
    for an occurrence ([tick]), at start ([init]), when the machine wakes up
    ([handle_system_resume]), and for the clients. *)

From S2P Require Import Prelude WorkModel Interleave SerdeJson CronTypes CronStore CronSkill CronExecutor CronAgents.
Import JobExecutor CronScheduler CronAgents.

(** ** Requests *)
(** A [CronScheduleDto] has the cases of [CronSchedule], and [schedule_from_dto]
    keeps them. *)
Record CreateCronJobRequest : Type := mkCreateJob {
  cr_name : string;
  cr_description : option string;
  cr_schedule : CronSchedule.t;
  cr_prompt : option string;
  cr_message : option string;
  cr_conversation_id : string;
  cr_conversation_title : option string;
  cr_created_by : string;
  cr_execution_mode : option string;
  cr_queue_enabled : bool;
  cr_agent_config : option CronAgentConfigWriteDto;
}.

Record UpdateCronJobRequest : Type := mkUpdateJob {
  up_name : option string;
  up_description : option string;
  up_enabled : option bool;
  up_schedule : option CronSchedule.t;
  up_message : option string;
  up_execution_mode : option string;
  up_agent_config : option CronAgentConfigWriteDto;
  up_conversation_title : option string;
  up_max_retries : option Z;
  up_queue_enabled : option bool;
}.

Definition RUN_LEASE_MS : Z := 60000.
Definition RUN_LEASE_HEARTBEAT_MS : Z := 20000.
Definition RUN_HISTORY_RETENTION_MS : Z := 30 * 24 * 60 * 60 * 1000.
Definition RETRY_INTERVAL_MS : Z := 30000.

(** ** Changes of a job *)
Definition with_agent_type (t : string) (j : CronJob) : CronJob :=
  mkCronJob (job_id j) (job_name j) (job_enabled j) (job_schedule j) (job_message j) (job_mode j) (job_config j)
    (job_conversation j) (job_title j) t (job_created_by j) (job_skill j) (job_description j) (job_created_at j)
    (job_updated_at j) (job_next_run_at j) (job_last_run_at j) (job_last_status j) (job_last_error j)
    (job_run_count j) (job_retry_count j) (job_max_retries j) (job_queue_enabled j).
Definition with_conversation (id : string) (j : CronJob) : CronJob :=
  mkCronJob (job_id j) (job_name j) (job_enabled j) (job_schedule j) (job_message j) (job_mode j) (job_config j)
    id (job_title j) (job_agent_type j) (job_created_by j) (job_skill j) (job_description j) (job_created_at j)
    (job_updated_at j) (job_next_run_at j) (job_last_run_at j) (job_last_status j) (job_last_error j)
    (job_run_count j) (job_retry_count j) (job_max_retries j) (job_queue_enabled j).
Definition with_next_run (enabled : bool) (next : option Z) (j : CronJob) : CronJob :=
  mkCronJob (job_id j) (job_name j) enabled (job_schedule j) (job_message j) (job_mode j) (job_config j)
    (job_conversation j) (job_title j) (job_agent_type j) (job_created_by j) (job_skill j) (job_description j)
    (job_created_at j) (job_updated_at j) next (job_last_run_at j) (job_last_status j) (job_last_error j)
    (job_run_count j) (job_retry_count j) (job_max_retries j) (job_queue_enabled j).

Definition parse_execution_mode (mode : option string) : Result ExecutionMode.t CronError.t :=
  match mode with
  | None => Ok ExecutionMode.Existing
  | Some s => if (s =? "existing")%string then Ok ExecutionMode.Existing else ExecutionMode.from_str s
  end.

Definition should_bind_success_conversation (execution_mode existing_conversation_id success_conversation_id : string)
    : bool :=
  (execution_mode =? ExecutionMode.as_str ExecutionMode.Existing)%string &&
  negb (str_trim success_conversation_id =? "")%string &&
  negb (str_trim existing_conversation_id =? str_trim success_conversation_id)%string.

Definition runtime_agent_type_for_backend (backend : string) : string :=
  if (backend =? "tjuaecli")%string then "tjuaecli" else "acp".

Definition sanitize_agent_config_dto (c : CronAgentConfigWriteDto) : CronAgentConfigWriteDto :=
  mkConfigDto (cd_name c) (cd_cli_path c)
    (match cd_assistant_id c with
     | Some id => if (str_trim id =? "")%string then None else Some (str_trim id)
     | None => None
     end)
    (cd_mode c) (cd_model_id c) (cd_model c) (cd_config_options c) (cd_workspace c).

Definition needs_model {A : Type} : Result A CronError.t :=
  Err (CronError.InvalidAgentConfig
         "tjuaecli 定时任务必须提供 agent_config.model.provider_id 和 agent_config.model.model").

Definition validate_tjuae_cli_agent_config (agent_type : string) (config : option CronAgentConfigWriteDto)
    : Result unit CronError.t :=
  if negb (agent_type =? "tjuaecli")%string then Ok tt
  else
    match config ≫= cd_model with
    | Some m =>
        if (str_trim (pm_provider_id m) =? "")%string || (str_trim (pm_model m) =? "")%string
        then needs_model else Ok tt
    | None => needs_model
    end.

Definition normalize_model (model : option ProviderWithModel) (runtime_agent_type : string)
    : Result (option ProviderWithModel) CronError.t :=
  match model with
  | None => Ok None
  | Some m =>
      let provider_id := str_trim (pm_provider_id m) in
      let name := str_trim (pm_model m) in
      let use_model := str_trim <$> not_blank (pm_use_model m) in
      let empty := (provider_id =? "")%string || (name =? "")%string in
      if (runtime_agent_type =? "tjuaecli")%string && empty then needs_model
      else Ok (if empty then None else Some (mkProviderModel provider_id name use_model))
  end.

Definition schedule_from_dto_with_existing_timezone (dto existing : CronSchedule.t) : CronSchedule.t :=
  match dto with
  | CronSchedule.Cron expr tz description =>
      CronSchedule.Cron expr
        (match tz, existing with
         | Some tz, _ => Some tz
         | None, CronSchedule.Cron _ tz _ => tz
         | None, _ => None
         end) description
  | _ => dto
  end.

Definition opt_column {A : Type} (f : A -> Column.t) (o : option A) : list Column.t :=
  match o with Some a => [f a] | None => [] end.

Module CronService.
Section Service.
Context `{CronLib, CronDb, CronHost}.
Variable instance_id : string.
Local Open Scope tjuae_scope.

(** ** Small parts *)
Definition now_ms : Prog CronWorld Z := call cron_now.
Definition emit (e : CronEvent.t) : Prog CronWorld unit := atomic (fun w => (tt, set_events (w_events w ++ [e]) w)).
Definition emit_job_executed (job_id status : string) (error : option string) : Prog CronWorld unit :=
  emit (CronEvent.JobExecuted job_id status error).

(** An error that is only logged. *)
Definition logged {A E : Type} (p : Prog CronWorld (Result A E)) : Prog CronWorld unit := do _ := p in Ret tt.

Definition ok_or_not_found {A : Type} (job_id : string) (p : Prog CronWorld (Result (option A) DbError.t))
    : Prog CronWorld (Result A CronError.t) :=
  let! row := db p in
  Ret (match row with Some a => Ok a | None => Err (CronError.JobNotFound job_id) end).

(** ** The assistant of a job *)
Definition resolve_agent_type_for_assistant_id (assistant_id : string) : Prog CronWorld (Result string CronError.t) :=
  let! a := resolve_runtime_assistant assistant_id in
  Ret (match a with
       | None => Err (CronError.InvalidAgentConfig ("找不到助手 '" +:+ assistant_id +:+ "'"))
       | Some a => Ok (runtime_agent_type_for_backend (as_backend a))
       end).

Definition resolve_new_job_agent_type (config : option CronAgentConfigWriteDto) : Prog CronWorld (Result string CronError.t) :=
  match config ≫= cd_assistant_id with
  | None => Ret (Err (CronError.InvalidAgentConfig "新建定时任务必须提供 assistant_id"))
  | Some id => resolve_agent_type_for_assistant_id id
  end.

Definition config_assistant (c : CronAgentConfig) : option string :=
  match ac_assistant_id c with Some id => Some id | None => ac_custom_agent_id c end.

Definition resolve_job_agent_type (job : CronJob) : Prog CronWorld (Result string CronError.t) :=
  if negb (str_trim (job_agent_type job) =? "")%string then Ret (Ok (job_agent_type job))
  else
    match not_blank (job_config job ≫= config_assistant) with
    | None => Ret (Err (CronError.InvalidAgentConfig "定时任务必须提供 assistant_id"))
    | Some id => resolve_agent_type_for_assistant_id id
    end.

Definition no_assistant {A : Type} : Result A CronError.t :=
  Err (CronError.InvalidAgentConfig "定时任务必须提供 assistant_id").

Definition build_cron_agent_config (runtime_agent_type : string) (c : CronAgentConfigWriteDto)
    : Prog CronWorld (Result CronAgentConfig CronError.t) :=
  match not_blank (cd_assistant_id c) with
  | None => Ret no_assistant
  | Some assistant_id =>
      let! assistant_backend := resolve_assistant_backend (Some assistant_id) in
      match assistant_backend with
      | None => Ret (Err (CronError.InvalidAgentConfig ("无法为助手 '" +:+ assistant_id +:+ "' 解析运行时后端")))
      | Some assistant_backend =>
          let! mode := resolve_cron_full_auto_mode runtime_agent_type (Some assistant_id) None (Some assistant_backend) in
          Ret (let? model := normalize_model (cd_model c) runtime_agent_type in
               Ok (mkAgentConfig (cd_name c) (cd_cli_path c) None (cd_assistant_id c) None (Some mode) (cd_model_id c)
                     model (cd_config_options c) (cd_workspace c)))
      end
  end.

Definition config_mode (job : CronJob) : option string := job_config job ≫= ac_mode.

Definition load_job (job_id : string) : Prog CronWorld (Result CronJob CronError.t) :=
  let! row := ok_or_not_found job_id (CronRepo.get_by_id job_id) in
  let! job := Ret (cron_job_from_row row) in
  let! agent_type := resolve_job_agent_type job in
  Ret (Ok (with_agent_type agent_type job)).

(** ** The job's conversation *)
Definition bind_existing_conversation_if_needed (job : CronJob) : Prog CronWorld unit :=
  match job_mode job with
  | ExecutionMode.NewConversation => Ret tt
  | ExecutionMode.Existing =>
      if (str_trim (job_conversation job) =? "")%string then Ret tt
      else logged (bind_cron_job_to_conversation (job_conversation job) (job_id job) (config_mode job))
  end.

Definition bind_materialized_existing_conversation_if_needed (job : CronJob) (conversation_id : string)
    : Prog CronWorld (Result CronJob CronError.t) :=
  let conversation_id := str_trim conversation_id in
  if negb (bool_decide (job_mode job = ExecutionMode.Existing)) || (conversation_id =? "")%string ||
     (str_trim (job_conversation job) =? conversation_id)%string
  then Ret (Ok job)
  else
    let! _ := db (CronRepo.update (job_id job) [Column.ConversationId conversation_id]) in
    let! _ := bind_cron_job_to_conversation conversation_id (job_id job) (config_mode job) in
    Ret (Ok (with_conversation conversation_id job)).

Definition validate_job_workspace : CronJob -> Prog CronWorld (Result unit CronError.t) :=
  check_workspace CronError.WorkspacePathUnavailable.

(** ** What a run leaves behind *)
Definition finish_scheduled_run (job_id : string) (scheduled_at : Z) (status : RunStatus.t)
    (conversation_id error : option string) : Prog CronWorld bool :=
  do finished_at := now_ms in
  do r := CronRepo.finish_run
            (mkFinishParams job_id scheduled_at instance_id status conversation_id error finished_at) in
  Ret (match r with Ok owned => owned | Err _ => false end).

Definition update_job_after_success (job_id conversation_id : string) : Prog CronWorld unit :=
  do r := CronRepo.get_by_id job_id in
  match r with
  | Ok (Some row) =>
      do now := now_ms in
      let needs_conversation_bind :=
        should_bind_success_conversation (cj_execution_mode row) (cj_conversation_id row) conversation_id in
      let params :=
        [Column.LastRunAt (Some now); Column.LastStatus (Some "ok"); Column.LastError None; Column.RetryCount 0;
         Column.RunCount (i64_wrap (cj_run_count row + 1))] ++
        (if needs_conversation_bind then [Column.ConversationId conversation_id] else []) in
      do u := CronRepo.update job_id params in
      match u with
      | Err _ => Ret tt
      | Ok _ =>
          if needs_conversation_bind then logged (bind_cron_job_to_conversation conversation_id job_id None)
          else Ret tt
      end
  | _ => Ret tt
  end.

Definition update_job_after_error (job_id message : string) : Prog CronWorld unit :=
  do r := CronRepo.get_by_id job_id in
  match r with
  | Ok (Some row) =>
      do now := now_ms in
      logged (CronRepo.update job_id
        [Column.LastRunAt (Some now); Column.LastStatus (Some "error"); Column.LastError (Some message);
         Column.RetryCount 0; Column.RunCount (i64_wrap (cj_run_count row + 1))])
  | _ => Ret tt
  end.

Definition mark_skipped (job_id : string) : Prog CronWorld unit :=
  logged (CronRepo.update job_id [Column.LastStatus (Some "skipped"); Column.RetryCount 0]).
Definition record_queue_busy_skip (job : CronJob) : Prog CronWorld unit := mark_skipped (job_id job).

(** ** The next run *)
Definition reschedule_after_execution (job : CronJob) (scheduled_at : Z) : Prog CronWorld unit :=
  do now := now_ms in
  do r := CronRepo.get_recoverable_run (job_id job) now in
  match r with
  | Ok (Some run) => schedule_retry instance_id (job_id job) (rec_scheduled_at run) (rec_wake_at run)
  | _ =>
      if CronSchedule.is_at (job_schedule job) then
        do _ := logged (CronRepo.update (job_id job) [Column.Enabled false; Column.NextRunAt None]) in
        do _ := cancel_job instance_id (job_id job) in
        emit (CronEvent.JobUpdated (with_next_run false None job))
      else
        do now := now_ms in
        let next := compute_next_run_after_occurrence (job_schedule job) scheduled_at now in
        do _ := logged (CronRepo.update (job_id job) [Column.NextRunAt next]) in
        reschedule_job instance_id (with_next_run (job_enabled job) next job)
  end.

Definition schedule_retry_of (job_id : string) (scheduled_at : Z) : Prog CronWorld bool :=
  do now := now_ms in
  let next_run := (now + RETRY_INTERVAL_MS)%Z in
  do updated_at := now_ms in
  do r := CronRepo.defer_run job_id scheduled_at instance_id next_run updated_at in
  match r with
  | Ok true => do _ := schedule_retry instance_id job_id scheduled_at next_run in Ret true
  | _ => Ret false
  end.

Definition handle_execution_result (job : CronJob) (scheduled_at : Z) (result : ExecutionResult.t) : Prog CronWorld unit :=
  let job_id := job_id job in
  match result with
  | ExecutionResult.Success conversation_id =>
      do finished := finish_scheduled_run job_id scheduled_at RunStatus.Success (Some conversation_id) None in
      if negb finished then Ret tt
      else
        do _ := update_job_after_success job_id conversation_id in
        do _ := reschedule_after_execution job scheduled_at in
        emit_job_executed job_id "ok" None
  | ExecutionResult.Retrying attempt =>
      do deferred := schedule_retry_of job_id scheduled_at in
      if negb deferred then Ret tt
      else logged (CronRepo.update job_id [Column.RetryCount attempt])
  | ExecutionResult.Skipped =>
      do finished := finish_scheduled_run job_id scheduled_at RunStatus.Skipped None None in
      if negb finished then Ret tt
      else
        do _ := mark_skipped job_id in
        do _ := reschedule_after_execution job scheduled_at in
        emit_job_executed job_id "skipped" None
  | ExecutionResult.Error message =>
      do finished := finish_scheduled_run job_id scheduled_at RunStatus.Error None (Some message) in
      if negb finished then Ret tt
      else
        do _ := update_job_after_error job_id message in
        do _ := reschedule_after_execution job scheduled_at in
        emit_job_executed job_id "error" (Some message)
  end.

Definition handle_run_now_result (job_id : string) (result : ExecutionResult.t) : Prog CronWorld unit :=
  match result with
  | ExecutionResult.Success conversation_id =>
      do _ := update_job_after_success job_id conversation_id in emit_job_executed job_id "ok" None
  | ExecutionResult.Error message =>
      do _ := update_job_after_error job_id message in emit_job_executed job_id "error" (Some message)
  | ExecutionResult.Retrying attempt => logged (CronRepo.update job_id [Column.RetryCount attempt])
  | ExecutionResult.Skipped => do _ := mark_skipped job_id in emit_job_executed job_id "skipped" None
  end.

(** ** The lease of a running occurrence *)
Definition spawn_run_lease_heartbeat (job_id : string) (scheduled_at : Z) : Prog CronWorld N :=
  atomic (fun w =>
    let n := w_calls w in
    let due := (cron_now n + RUN_LEASE_HEARTBEAT_MS)%Z in
    (n, set_beats (<[n := mkHeartbeat instance_id job_id scheduled_at due]> (w_beats w)) (set_calls (N.succ n) w))).

Definition abort (heartbeat : N) : Prog CronWorld unit :=
  atomic (fun w => (tt, set_beats (delete heartbeat (w_beats w)) w)).

(** One turn of the heartbeat's loop, if it is time for it. *)
Definition beat (heartbeat : N) : Prog CronWorld unit :=
  do due := atomic (fun w =>
      let n := w_calls w in
      let w := set_calls (N.succ n) w in
      match w_beats w !! heartbeat with
      | Some (mkHeartbeat owner job_id scheduled_at due) =>
          if bool_decide (owner = instance_id) && (due <=? cron_now n)%Z then
            (Some (job_id, scheduled_at),
             set_beats (<[heartbeat := mkHeartbeat owner job_id scheduled_at (due + RUN_LEASE_HEARTBEAT_MS)]> (w_beats w)) w)
          else (None, w)
      | None => (None, w)
      end) in
  match due with
  | None => Ret tt
  | Some (job_id, scheduled_at) =>
      do now := now_ms in
      do r := CronRepo.renew_run_lease job_id scheduled_at instance_id (now + RUN_LEASE_MS)%Z now in
      match r with
      | Ok false => abort heartbeat
      | _ => Ret tt
      end
  end.

(** ** A timer calls *)
Definition duplicate_occurrence (job : CronJob) (scheduled_at claim_now : Z) : Prog CronWorld unit :=
  do r := CronRepo.get_recoverable_run (job_id job) claim_now in
  match r with
  | Ok (Some run) => schedule_retry instance_id (job_id job) (rec_scheduled_at run) (rec_wake_at run)
  | _ => reschedule_after_execution job scheduled_at
  end.

(** From the claim on. *)
Definition run_claimed (job : CronJob) (scheduled_at : Z) : Prog CronWorld unit :=
  do heartbeat := spawn_run_lease_heartbeat (job_id job) scheduled_at in
  do prepared := prepare_scheduled job in
  match prepared with
  | Err result =>
      do _ := abort heartbeat in
      handle_execution_result job scheduled_at result
  | Ok prepared =>
      do bound := bind_materialized_existing_conversation_if_needed job (pe_conversation_id prepared) in
      match bound with
      | Err e =>
          do _ := abort heartbeat in
          handle_execution_result job scheduled_at (ExecutionResult.Error (CronError.to_string e))
      | Ok execution_job =>
          do result := execute_prepared_scheduled execution_job prepared in
          do _ := abort heartbeat in
          handle_execution_result execution_job scheduled_at result
      end
  end.

(** The job that the call is for, if it may run. *)
Definition tick_job (job_id : string) : Prog CronWorld (option CronJob) :=
  do row := CronRepo.get_by_id job_id in
  match row with
  | Err _ => Ret None
  | Ok None => do _ := cancel_job instance_id job_id in Ret None
  | Ok (Some row) =>
      match cron_job_from_row row with
      | Err _ => Ret None
      | Ok job =>
          do agent_type := resolve_job_agent_type job in
          Ret (match agent_type with
               | Ok agent_type => if job_enabled job then Some (with_agent_type agent_type job) else None
               | Err _ => None
               end)
      end
  end.

Definition tick (job_id : string) (scheduled_at : Z) : Prog CronWorld unit :=
  do job := tick_job job_id in
  match job with
  | None => Ret tt
  | Some job =>
      do claim_now := now_ms in
      do claim := CronRepo.claim_run
                    (mkClaimParams job_id scheduled_at instance_id claim_now (claim_now + RUN_LEASE_MS)%Z
                       (job_queue_enabled job)) in
      match claim with
      | Err _ => Ret tt
      | Ok CronRunClaimResult.Duplicate => duplicate_occurrence job scheduled_at claim_now
      | Ok CronRunClaimResult.QueueBusy =>
          do _ := record_queue_busy_skip job in
          do _ := reschedule_after_execution job scheduled_at in
          emit_job_executed job_id "skipped" None
      | Ok CronRunClaimResult.Claimed => run_claimed job scheduled_at
      end
  end.

(** What the task of a timer does when it wakes. *)
Definition on_timer (job_id : string) : Prog CronWorld unit :=
  do scheduled_at := fire instance_id job_id in
  match scheduled_at with
  | None => Ret tt
  | Some scheduled_at => tick job_id scheduled_at
  end.

(** ** Start *)
Definition init_job (now : Z) (row : CronJobRow) : Prog CronWorld unit :=
  match cron_job_from_row row with
  | Err _ => Ret tt
  | Ok job =>
      do r := CronRepo.get_recoverable_run (job_id job) now in
      match r with
      | Ok (Some run) => schedule_retry instance_id (job_id job) (rec_scheduled_at run) (rec_wake_at run)
      | _ => schedule_job instance_id job
      end
  end.

Definition init : Prog CronWorld unit :=
  do now := now_ms in
  do _ := CronRepo.cleanup_runs_before (now - RUN_HISTORY_RETENTION_MS)%Z in
  do rows := CronRepo.list_enabled in
  match rows with
  | Err _ => Ret tt
  | Ok rows => each (init_job now) rows
  end.

(** ** The machine wakes up *)
Definition record_missed_execution (job : CronJob) : Prog CronWorld unit :=
  logged (CronRepo.update (job_id job) [Column.LastStatus (Some "missed"); Column.LastError None; Column.RetryCount 0]).

Definition missed_content (job : CronJob) : string :=
  "Scheduled task " +:+ CronPrompt.quoted (job_name job) +:+
  " was missed while the system was unavailable. It was not run automatically.".

Definition insert_missed_job_tips (job : CronJob) : Prog CronWorld unit :=
  if (str_trim (job_conversation job) =? "")%string then Ret tt
  else
    let content := missed_content job in
    do r := insert_tips_message (job_conversation job) content in
    match r with
    | Ok _ => emit (CronEvent.ConversationTips (job_conversation job) content "warning")
    | Err _ => Ret tt
    end.

Definition reschedule_after_missed (job : CronJob) : Prog CronWorld unit :=
  if CronSchedule.is_at (job_schedule job) then
    do _ := logged (CronRepo.update (job_id job) [Column.Enabled false; Column.NextRunAt None]) in
    cancel_job instance_id (job_id job)
  else
    do now := now_ms in
    let next := compute_next_run (job_schedule job) now in
    do r := CronRepo.update (job_id job) [Column.NextRunAt next] in
    match r with
    | Err _ => Ret tt
    | Ok _ => reschedule_job instance_id (with_next_run (job_enabled job) next job)
    end.

Definition is_missed (now : Z) (job : CronJob) : bool :=
  match job_next_run_at job with Some next_run => (next_run <? now)%Z | None => false end.

Definition resume_job (now : Z) (row : CronJobRow) : Prog CronWorld unit :=
  match cron_job_from_row row with
  | Err _ => Ret tt
  | Ok job =>
      do r := CronRepo.get_recoverable_run (job_id job) now in
      match r with
      | Ok (Some run) => schedule_retry instance_id (job_id job) (rec_scheduled_at run) (rec_wake_at run)
      | _ =>
          if is_missed now job then
            do _ := record_missed_execution job in
            do _ := insert_missed_job_tips job in
            do _ := reschedule_after_missed job in
            emit_job_executed (job_id job) "missed" None
          else reschedule_job instance_id job
      end
  end.

Definition handle_system_resume : Prog CronWorld unit :=
  do rows := CronRepo.list_enabled in
  match rows with
  | Err _ => Ret tt
  | Ok rows => do now := now_ms in each (resume_job now) rows
  end.

(** ** Run now

    The task that [run_now] spawns is a program of its own. *)
Definition run_now (job_id : string) : Prog CronWorld (Result (string * option (CronJob * PreparedExecution)) CronError.t) :=
  let! job := load_job job_id in
  let! prepared := prepare_run_now job in
  match prepared with
  | PreparedRunNow.AlreadyRunning conversation_id => Ret (Ok (conversation_id, None))
  | PreparedRunNow.Ready prepared =>
      let! job := bind_materialized_existing_conversation_if_needed job (pe_conversation_id prepared) in
      Ret (Ok (pe_conversation_id prepared, Some (job, prepared)))
  end.

Definition run_now_task (job : CronJob) (prepared : PreparedExecution) : Prog CronWorld unit :=
  do result := execute_prepared job prepared in
  handle_run_now_result (job_id job) result.

(** ** For the clients *)
Definition add_job_internal (req : CreateCronJobRequest) (runtime_agent_type : option string)
    : Prog CronWorld (Result CronJob CronError.t) :=
  let schedule := cr_schedule req in
  let! _ := Ret (validate_schedule schedule) in
  let! agent_type :=
    match runtime_agent_type with
    | Some t => Ret (Ok t)
    | None => resolve_new_job_agent_type (cr_agent_config req)
    end in
  let! _ := Ret (validate_tjuae_cli_agent_config agent_type (cr_agent_config req)) in
  let! execution_mode := Ret (parse_execution_mode (cr_execution_mode req)) in
  let! created_by := Ret (CreatedBy.from_str (cr_created_by req)) in
  let message := default (default "" (cr_prompt req)) (cr_message req) in
  let! agent_config :=
    match cr_agent_config req with
    | None => Ret (Ok None)
    | Some c => let! c := build_cron_agent_config agent_type (sanitize_agent_config_dto c) in Ret (Ok (Some c))
    end in
  do now := now_ms in
  do id := call (cron_id "cron") in
  let job :=
    mkCronJob id (cr_name req) true schedule message execution_mode agent_config (cr_conversation_id req)
      (cr_conversation_title req) agent_type created_by None (cr_description req) now now
      (compute_next_run schedule now) None None None 0 0 3 (cr_queue_enabled req) in
  let! _ := validate_job_workspace job in
  let! _ := db (CronRepo.insert (cron_job_to_row job)) in
  do _ := bind_existing_conversation_if_needed job in
  do _ := schedule_job instance_id job in
  do _ := emit (CronEvent.JobCreated job) in
  Ret (Ok job).

Definition add_job (req : CreateCronJobRequest) : Prog CronWorld (Result CronJob CronError.t) := add_job_internal req None.

Definition is_team_conversation_job (job : CronJob) : Prog CronWorld (Result bool CronError.t) :=
  let conversation_id := str_trim (job_conversation job) in
  if (conversation_id =? "")%string then Ret (Ok false)
  else
    let! row := get_conversation_row conversation_id in
    Ret (match row with
         | None => Ok false
         | Some row =>
             match from_str (cv_extra row) with
             | None => Err (CronError.Json (json_error (cv_extra row)))
             | Some extra =>
                 let team := match v_get "team_id" extra with Some v => Some v | None => v_get "teamId" extra end in
                 Ok (match not_blank (str_of team) with Some _ => true | None => false end)
             end
         end).

(** The config without the workspace that goes with the conversation. *)
Definition clear_auto_workspace_from_job_config (config : option CronAgentConfig) (conversation_id : string)
    : Prog CronWorld (option CronAgentConfig) :=
  match config with
  | None => Ret None
  | Some c =>
      match ac_workspace c with
      | None => Ret None
      | Some workspace =>
          do path := auto_workspace_to_delete_for_conversation conversation_id in
          match path with
          | Ok (Some path) =>
              do same := call (fun n => same_path n workspace path) in
              Ret (if same : bool then
                     Some (mkAgentConfig (ac_name c) (ac_cli_path c) (ac_is_preset c) (ac_assistant_id c)
                             (ac_custom_agent_id c) (ac_mode c) (ac_model_id c) (ac_model c) (ac_config_options c) None)
                   else None)
          | _ => Ret None
          end
      end
  end.

(** [UpdateCronJobParams] has no column for [max_retries]. *)
Definition build_update_params (job : CronJob) (req : UpdateCronJobRequest) : UpdateCronJobParams :=
  let '(kind, value, tz, description) := schedule_to_row_fields (job_schedule job) in
  opt_column Column.Name (up_name req) ++
  opt_column Column.Enabled (up_enabled req) ++
  (match up_schedule req with
   | Some _ =>
       [Column.ScheduleKind kind; Column.ScheduleValue value; Column.ScheduleTz tz;
        Column.ScheduleDescription description]
   | None => []
   end) ++
  opt_column Column.PayloadMessage (up_message req) ++
  opt_column Column.ExecutionMode (up_execution_mode req) ++
  (match up_agent_config req, job_config job with
   | Some _, Some c => [Column.AgentConfig (Some (config_to_string c))]
   | _, _ => []
   end) ++
  opt_column (fun t => Column.ConversationTitle (Some t)) (up_conversation_title req) ++
  opt_column (fun d => Column.Description (Some d)) (up_description req) ++
  (match up_schedule req, up_enabled req with
   | None, None => []
   | _, _ => [Column.NextRunAt (job_next_run_at job)]
   end) ++
  opt_column Column.QueueEnabled (up_queue_enabled req).

Definition requested_schedule (job : CronJob) (req : UpdateCronJobRequest) : Result CronSchedule.t CronError.t :=
  match up_schedule req with
  | None => Ok (job_schedule job)
  | Some dto =>
      let schedule := schedule_from_dto_with_existing_timezone dto (job_schedule job) in
      let? _ := validate_schedule schedule in Ok schedule
  end.

Definition requested_mode (job : CronJob) (req : UpdateCronJobRequest) : Prog CronWorld (Result ExecutionMode.t CronError.t) :=
  match up_execution_mode req with
  | None => Ret (Ok (job_mode job))
  | Some mode =>
      let! mode := Ret (parse_execution_mode (Some mode)) in
      if bool_decide (mode = job_mode job) then Ret (Ok mode)
      else
        let! team := is_team_conversation_job job in
        Ret (if team : bool then Err (CronError.InvalidExecutionMode "团队定时任务必须继续在所属团队对话中运行") else Ok mode)
  end.

Definition requested_config (job : CronJob) (mode : ExecutionMode.t) (req : UpdateCronJobRequest)
    : Prog CronWorld (Result (string * option CronAgentConfig) CronError.t) :=
  match up_agent_config req with
  | None => Ret (Ok (job_agent_type job, job_config job))
  | Some c =>
      if bool_decide (job_mode job = ExecutionMode.Existing) || bool_decide (mode = ExecutionMode.Existing)
      then Ret (Err (CronError.InvalidAgentConfig "持续对话任务必须保留原助手"))
      else
        let c := sanitize_agent_config_dto c in
        let! agent_type := resolve_new_job_agent_type (Some c) in
        let! _ := Ret (validate_tjuae_cli_agent_config agent_type (Some c)) in
        let! config := build_cron_agent_config agent_type c in
        Ret (Ok (agent_type, Some config))
  end.

Definition requested_next_run (job : CronJob) (schedule : CronSchedule.t) (req : UpdateCronJobRequest)
    : Prog CronWorld (option Z) :=
  match up_schedule req, up_enabled req with
  | None, None => Ret (job_next_run_at job)
  | _, _ => do now := now_ms in Ret (compute_next_run schedule now)
  end.

Definition update_job (job_id : string) (req : UpdateCronJobRequest) : Prog CronWorld (Result CronJob CronError.t) :=
  let! old := load_job job_id in
  let! schedule := Ret (requested_schedule old req) in
  let! mode := requested_mode old req in
  let leaves := bool_decide (mode <> job_mode old) && bool_decide (mode = ExecutionMode.NewConversation) in
  let clear_conversation_binding := leaves && negb (str_trim (job_conversation old) =? "")%string in
  let! (agent_type, config) := requested_config old mode req in
  let title := if leaves then None else job_title old in
  let title :=
    match up_conversation_title req with
    | Some t => if clear_conversation_binding then title else Some t
    | None => title
    end in
  do next_run_at := requested_next_run old schedule req in
  do cleared :=
    if clear_conversation_binding then clear_auto_workspace_from_job_config config (job_conversation old) else Ret None in
  do updated_at := now_ms in
  let job :=
    mkCronJob (CronTypes.job_id old) (default (job_name old) (up_name req)) (default (job_enabled old) (up_enabled req)) schedule
      (default (job_message old) (up_message req)) mode (match cleared with Some c => Some c | None => config end)
      (if leaves then "" else job_conversation old) title agent_type (job_created_by old) (job_skill old)
      (match up_description req with Some d => Some d | None => job_description old end) (job_created_at old) updated_at
      next_run_at (job_last_run_at old) (job_last_status old) (job_last_error old) (job_run_count old)
      (job_retry_count old) (default (job_max_retries old) (up_max_retries req))
      (default (job_queue_enabled old) (up_queue_enabled req)) in
  let! _ := validate_job_workspace job in
  let params :=
    build_update_params job req ++
    (if clear_conversation_binding then [Column.ConversationId ""; Column.ConversationTitle None] else []) ++
    (match cleared with
     | Some c => [Column.AgentConfig (Some (config_to_string c))]
     | None => []
     end) in
  let! _ := db (CronRepo.update job_id params) in
  do _ :=
    if clear_conversation_binding
    then logged (unbind_cron_job_from_conversation (job_conversation old) (CronTypes.job_id old)) else Ret tt in
  do _ := bind_existing_conversation_if_needed job in
  do _ := reschedule_job instance_id job in
  do _ := emit (CronEvent.JobUpdated job) in
  Ret (Ok job).

Definition remove_job (job_id : string) : Prog CronWorld (Result unit CronError.t) :=
  do _ := cancel_job instance_id job_id in
  do _ := logged (SkillFile.delete_skill_file job_id) in
  let! _ := db (CronRepo.delete job_id) in
  do _ := emit (CronEvent.JobRemoved job_id) in
  Ret (Ok tt).

Definition get_job (job_id : string) : Prog CronWorld (Result CronJob CronError.t) := load_job job_id.

Fixpoint load_rows (rows : list CronJobRow) : Prog CronWorld (Result (list CronJob) CronError.t) :=
  match rows with
  | [] => Ret (Ok [])
  | row :: rows =>
      let! job := Ret (cron_job_from_row row) in
      let! agent_type := resolve_job_agent_type job in
      let! jobs := load_rows rows in
      Ret (Ok (with_agent_type agent_type job :: jobs))
  end.

Definition list_jobs (conversation_id : option string) : Prog CronWorld (Result (list CronJob) CronError.t) :=
  let! rows :=
    db (match conversation_id with
        | Some id => CronRepo.list_by_conversation id
        | None => CronRepo.list_all
        end) in
  load_rows rows.

(** ** The skill of a job *)
Definition persist_skill_file : CronJob -> string -> Prog CronWorld (Result unit CronError.t) := JobExecutor.persist_skill_file.

Definition save_skill (job_id content : string) : Prog CronWorld (Result unit CronError.t) :=
  let! row := ok_or_not_found job_id (CronRepo.get_by_id job_id) in
  let! _ := Ret (validate_skill_body_content content) in
  let! job := Ret (cron_job_from_row row) in
  let! _ := persist_skill_file job content in
  let! _ := db (CronRepo.update job_id [Column.SkillContent (Some content)]) in
  mark_skill_suggest_artifacts_saved job_id.

Definition has_skill (job_id : string) : Prog CronWorld (Result bool CronError.t) :=
  let! row := ok_or_not_found job_id (CronRepo.get_by_id job_id) in
  let! in_file := SkillFile.has_skill_file job_id in
  Ret (Ok (in_file || match cj_skill_content row with Some s => negb (str_trim s =? "")%string | None => false end)).

Definition delete_skill (job_id : string) : Prog CronWorld (Result unit CronError.t) :=
  let! _ := ok_or_not_found job_id (CronRepo.get_by_id job_id) in
  let! _ := SkillFile.delete_skill_file job_id in
  db (CronRepo.update job_id [Column.SkillContent None]).

(** ** A conversation is deleted *)
Definition clear_deleted_workspace_from_job (workspace_to_clear : string) (row : CronJobRow) : Prog CronWorld unit :=
  match cj_agent_config row with
  | None => Ret tt
  | Some json =>
      match config_from_str json with
      | Err _ => Ret tt
      | Ok c =>
          match ac_workspace c with
          | None => Ret tt
          | Some workspace =>
              do same := call (fun n => same_path n workspace workspace_to_clear) in
              if same : bool then
                logged (CronRepo.update (cj_id row)
                  [Column.AgentConfig (Some (config_to_string
                     (mkAgentConfig (ac_name c) (ac_cli_path c) (ac_is_preset c) (ac_assistant_id c)
                        (ac_custom_agent_id c) (ac_mode c) (ac_model_id c) (ac_model c) (ac_config_options c) None)))])
              else Ret tt
          end
      end
  end.

Definition delete_jobs_by_conversation (conversation_id : string) : Prog CronWorld unit :=
  do path := auto_workspace_to_delete_for_conversation conversation_id in
  match path with
  | Ok (Some workspace_to_clear) =>
      do rows := CronRepo.list_by_conversation conversation_id in
      match rows with
      | Ok rows => each (clear_deleted_workspace_from_job workspace_to_clear) rows
      | Err _ => Ret tt
      end
  | _ => Ret tt
  end.

(** ** From within a turn of the conversation *)
Definition verify_conversation_helper_context (user_id conversation_id : string)
    : Prog CronWorld (Result ConversationRow CronError.t) :=
  do claimed := is_conversation_claimed conversation_id in
  if negb claimed then Ret (Err (CronError.InvalidAgentConfig "定时任务助手只能在活动对话回合中管理任务"))
  else
    let! row := get_conversation_row conversation_id in
    Ret (match row with
         | Some row =>
             if (cv_user_id row =? user_id)%string then Ok row
             else Err (conversation_error (ConversationError.NotFound conversation_id))
         | None => Err (conversation_error (ConversationError.NotFound conversation_id))
         end).

Definition local_timezone_name : Prog CronWorld (option string) :=
  do tz := call local_timezone in
  Ret (match tz with
       | Some tz => if is_ok (validate_timezone tz) then Some tz else None
       | None => None
       end).

Definition conversation_cron_schedule (expr description : string) : Prog CronWorld CronSchedule.t :=
  do tz := local_timezone_name in Ret (CronSchedule.Cron expr tz (Some description)).

Definition create_for_conversation_helper (user_id conversation_id name schedule schedule_description message : string)
    : Prog CronWorld (Result (string * string) CronError.t) :=
  let! row := verify_conversation_helper_context user_id conversation_id in
  do schedule := conversation_cron_schedule schedule schedule_description in
  do built := build_agent_config_from_conversation row in
  let '(agent_type, agent_config, _) := built in
  let! job :=
    add_job_internal
      (mkCreateJob name None schedule None (Some message) conversation_id (Some (cv_name row)) "agent" (Some "existing")
         false agent_config) (Some agent_type) in
  do bound := bind_cron_job_to_conversation conversation_id (job_id job) (config_mode job) in
  match bound with
  | Err e =>
      do _ := logged (remove_job (job_id job)) in
      Ret (Err e)
  | Ok _ => Ret (Ok (job_id job, "已创建定时任务“" +:+ job_name job +:+ "”（" +:+ job_id job +:+ "）"))
  end.

Definition list_for_conversation_helper (user_id conversation_id : string) : Prog CronWorld (Result (list CronJob) CronError.t) :=
  let! _ := verify_conversation_helper_context user_id conversation_id in
  list_jobs (Some conversation_id).

Definition update_for_conversation_helper (user_id conversation_id job_id name schedule description message : string)
    : Prog CronWorld (Result CronJob CronError.t) :=
  let! _ := verify_conversation_helper_context user_id conversation_id in
  let! existing := get_job job_id in
  if negb (job_conversation existing =? conversation_id)%string then Ret (Err (CronError.JobNotFound job_id))
  else
    let! job :=
      update_job job_id
        (mkUpdateJob (Some name) None None (Some (CronSchedule.Cron schedule None (Some description))) (Some message)
           None None None None None) in
    let! _ := bind_cron_job_to_conversation conversation_id (CronTypes.job_id job) (config_mode job) in
    Ret (Ok job).
End Service.
End CronService.
