(* ===== verification/CronRows.v ===== *)
(** * Scheduled jobs: schedules and rows

    The grid of a periodic job, and what is read back from a job's row. *)

From S2P Require Import Prelude WorkModel Interleave SerdeJson CronTypes CronStore CronExecutor CronService.
Import JobExecutor CronScheduler CronAgents CronService.
From stdpp Require Import pretty.

(** ** The grid of a periodic job *)

(** The first time after [now] that is a whole number of periods away from
    [scheduled_at]. *)
Definition next_on_grid (scheduled_at every_ms now : Z) : Z :=
  (scheduled_at + ((now - scheduled_at) / every_ms + 1) * every_ms)%Z.

Lemma next_on_grid_least s e now :
  (0 < e)%Z ->
  (now < next_on_grid s e now)%Z /\ forall k, (now < s + k * e)%Z -> (next_on_grid s e now <= s + k * e)%Z.
Proof.
  intros He. unfold next_on_grid. pose proof (Z.div_mod (now - s) e) as Hd. pose proof (Z.mod_pos_bound (now - s) e He) as Hm.
  split; [nia|]. intros k Hk.
  assert ((now - s) / e < k)%Z; [|nia].
  apply Z.div_lt_upper_bound; nia.
Qed.

Section Schedules.
Context `{CronLib}.

(** C23. After an occurrence of a periodic job, the next run is the first time
    strictly after now that lies on the grid of the occurrence, however many
    periods were missed and even if the clock went back; there is none exactly
    if that time is past what an i64 holds. *)
Theorem next_run_on_grid e d s now :
  (0 < e <= i64_max)%Z -> (0 <= s <= i64_max)%Z -> (0 <= now < i64_max)%Z ->
  compute_next_run_after_occurrence (CronSchedule.Every e d) s now =
    (if (next_on_grid s e now <=? i64_max)%Z then Some (next_on_grid s e now) else None) /\
  (now < next_on_grid s e now)%Z /\
  forall k, (now < s + k * e)%Z -> (next_on_grid s e now <= s + k * e)%Z.
Proof.
  intros He Hs Hn. split; [|apply next_on_grid_least; lia].
  destruct (next_on_grid_least s e now) as [Hl _]; [lia|].
  unfold next_on_grid in *. cbn [compute_next_run_after_occurrence].
  replace (e <=? 0)%Z with false by lia.
  unfold i64_saturating_sub, i64_clamp, i64_checked, is_i64, i64_min, i64_max in *.
  replace (Z.max _ (Z.min _ (now - s)))%Z with (now - s)%Z by lia.
  set (q := ((now - s) / e)%Z) in *.
  assert (- 2 ^ 63 <= q < 2 ^ 63 - 1)%Z as Hq.
  { pose proof (Z.div_mod (now - s) e) as Hd. pose proof (Z.mod_pos_bound (now - s) e). fold q in Hd. nia. }
  unfold i64_wrap, i64_min. rewrite Z.mod_small by lia. replace (q + 1 - - 2 ^ 63 + - 2 ^ 63)%Z with (q + 1)%Z by lia.
  set (a := ((q + 1) * e)%Z) in *.
  assert (- 2 ^ 63 <= a)%Z by lia.
  destruct (a <=? 2 ^ 63 - 1)%Z eqn:E.
  - replace (- 2 ^ 63 <=? a)%Z with true by lia. simpl. unfold i64_checked, is_i64, i64_min, i64_max.
    replace (- 2 ^ 63 <=? s + a)%Z with true by lia. done.
  - replace (s + a <=? 2 ^ 63 - 1)%Z with false by lia. by rewrite andb_false_r.
Qed.

(** ** Rows *)
Lemma digit_of_char n : (n < 10)%N -> digit_of (pretty_N_char n) = Some (Z.of_N n).
Proof. intros Hn. destruct n as [|p]; [done|]. do 4 (destruct p as [p|p|]; try done; try lia). Qed.

Lemma parse_pretty_N sign n s :
  (sign = 1 \/ sign = -1)%Z -> is_i64 (sign * Z.of_N n) = true ->
  parse_digits sign 0 (pretty_N_go n s) = parse_digits sign (sign * Z.of_N n) s.
Proof.
  intros Hsign. revert s. induction (N.lt_wf_0 n) as [n _ IH]. intros s Hn.
  destruct (decide (n = 0%N)) as [->|Hpos]; [by rewrite pretty_N_go_0, Z.mul_0_r|].
  rewrite pretty_N_go_step by lia.
  pose proof (N.div_lt n 10) as Hlt. pose proof (N.div_mod n 10) as Hd. pose proof (N.mod_lt n 10) as Hm.
  set (q := (n `div` 10)%N) in *. set (r := (n `mod` 10)%N) in *.
  unfold is_i64, i64_min, i64_max in Hn. apply andb_true_iff in Hn as [Hlo Hhi].
  rewrite IH; [|lia|unfold is_i64, i64_min, i64_max; destruct Hsign; subst sign; lia].
  cbn [parse_digits]. rewrite digit_of_char by lia.
  unfold i64_checked, is_i64, i64_min, i64_max.
  replace ((- 2 ^ 63 <=? sign * Z.of_N q * 10)%Z && (sign * Z.of_N q * 10 <=? 2 ^ 63 - 1)%Z) with true
    by (destruct Hsign; subst sign; lia).
  replace (sign * Z.of_N q * 10 + sign * Z.of_N r)%Z with (sign * Z.of_N n)%Z by (destruct Hsign; subst sign; lia).
  by rewrite Hlo, Hhi.
Qed.

Lemma parse_pretty_nat sign n :
  (sign = 1 \/ sign = -1)%Z -> is_i64 (sign * Z.of_N n) = true ->
  parse_digits sign 0 (pretty n) = Ok (sign * Z.of_N n)%Z.
Proof.
  intros Hsign Hn. unfold pretty, pretty_N. destruct (decide (n = 0%N)) as [->|Hpos].
  - simpl. unfold i64_checked. by destruct Hsign; subst sign.
  - by rewrite parse_pretty_N by done.
Qed.

Lemma pretty_pos_digits p : exists c rest, pretty (N.pos p) = String c rest /\ is_Some (digit_of c).
Proof.
  assert (forall n s, (forall c rest, s = String c rest -> is_Some (digit_of c)) ->
    forall c rest, pretty_N_go n s = String c rest -> is_Some (digit_of c)) as Hgo.
  { intros n. induction (N.lt_wf_0 n) as [n _ IH]. intros s Hs c rest. destruct (decide (n = 0%N)) as [->|Hpos].
    - rewrite pretty_N_go_0. apply Hs.
    - rewrite pretty_N_go_step by lia. apply IH; [apply N.div_lt; lia|]. intros c' rest' [= <- <-].
      rewrite digit_of_char by (apply N.mod_lt; lia). by eexists. }
  assert (forall n s, s <> "" -> pretty_N_go n s <> "") as Hne.
  { intros n. induction (N.lt_wf_0 n) as [n _ IH]. intros s Hs. destruct (decide (n = 0%N)) as [->|Hpos].
    - by rewrite pretty_N_go_0.
    - rewrite pretty_N_go_step by lia. apply IH; [apply N.div_lt; lia|done]. }
  unfold pretty, pretty_N. rewrite decide_False by done.
  destruct (pretty_N_go (N.pos p) "") as [|c rest] eqn:E.
  - exfalso. rewrite pretty_N_go_step in E by lia. by apply Hne in E.
  - exists c, rest. split; [done|]. by apply (Hgo (N.pos p) "" ltac:(done) c rest).
Qed.

Lemma digit_no_sign c :
  is_Some (digit_of c) -> Ascii.eqb c (Ascii.ascii_of_N 43) = false /\ Ascii.eqb c (Ascii.ascii_of_N 45) = false.
Proof. intros [d Hd]. split; apply Ascii.eqb_neq; intros ->; done. Qed.

Lemma parse_pretty z : is_i64 z = true -> parse_i64 (pretty z) = Ok z.
Proof.
  intros Hz. destruct z as [|p|p]; [done| |].
  - change (pretty (Z.pos p)) with (pretty (N.pos p)).
    destruct (pretty_pos_digits p) as (c & rest & E & Hc). destruct (digit_no_sign c Hc) as [Hplus Hminus].
    pose proof (parse_pretty_nat 1 (N.pos p) ltac:(by left) Hz) as Hp. rewrite E in *.
    unfold parse_i64. rewrite Hplus, Hminus. by destruct rest.
  - change (pretty (Z.neg p)) with ("-" +:+ pretty (N.pos p)).
    destruct (pretty_pos_digits p) as (c & rest & E & Hc).
    pose proof (parse_pretty_nat (-1) (N.pos p) ltac:(by right) Hz) as Hp. by rewrite E in *.
Qed.

Definition schedule_in_range (s : CronSchedule.t) : bool :=
  match s with
  | CronSchedule.At z _ | CronSchedule.Every z _ => is_i64 z
  | CronSchedule.Cron _ _ _ => true
  end.

Lemma parse_schedule_fields s kind value tz description :
  schedule_in_range s = true -> schedule_to_row_fields s = (kind, value, tz, description) ->
  parse_schedule kind value tz description = Ok s.
Proof. intros Hs. destruct s; simpl in *; intros [= <- <- <- <-]; try done; unfold parse_schedule; by rewrite parse_pretty. Qed.

Context `{!CronLibOk}.

Lemma transpose_read {A B} (f : A -> Result B CronError.t) (g : B -> A) o :
  (forall b, f (g b) = Ok b) -> transpose f (g <$> o) = Ok o.
Proof. intros Hfg. destruct o as [b|]; [|done]. simpl. by rewrite Hfg. Qed.

Lemma read_row_config (o : option CronAgentConfig) : transpose read_config (config_to_string <$> o) = Ok o.
Proof. apply transpose_read. intros c. unfold read_config. by rewrite config_roundtrip. Qed.

Lemma read_row_status o : transpose JobStatus.from_str (JobStatus.as_str <$> o) = Ok o.
Proof. apply transpose_read. by intros []. Qed.

(** C24. A job is read back from its row as it was written: schedules (signs and
    all nineteen digits of an i64 included), modes, statuses and the agent
    configuration; only the agent type is not kept, it is found again from the
    assistant. *)
Theorem job_row_roundtrip job :
  schedule_in_range (job_schedule job) = true ->
  cron_job_from_row (cron_job_to_row job) = Ok (with_agent_type "" job).
Proof.
  intros Hs. unfold cron_job_from_row, cron_job_to_row.
  destruct (schedule_to_row_fields (job_schedule job)) as [[[kind value] tz] description] eqn:E. cbn.
  rewrite (parse_schedule_fields _ _ _ _ _ Hs E). cbn.
  replace (ExecutionMode.from_str _) with (Ok (E := CronError.t) (job_mode job)) by (by destruct (job_mode job)).
  replace (CreatedBy.from_str _) with (Ok (E := CronError.t) (job_created_by job)) by (by destruct (job_created_by job)).
  cbn. rewrite read_row_config. cbn. rewrite read_row_status. cbn. by destruct job.
Qed.
End Schedules.
