(* ===== verification/CronQuiet.v ===== *)
(** * Scheduled jobs: programs whose every step respects a relation

    What the theorems on interleavings and on results share: the steps of the
    store and the executor are [quiet] for the relations that do not see what
    they change. *)

From S2P Require Import Prelude WorkModel Interleave SerdeJson CronTypes CronStore CronSkill CronExecutor CronAgents CronService.
Import JobExecutor CronScheduler CronAgents CronService.

(** ** Rows in a list *)
Lemma find_map_same {A} (p : A -> bool) (f : A -> A) l :
  (forall a, p (f a) = p a) -> List.find p (map f l) = match List.find p l with Some a => Some (f a) | None => None end.
Proof. intros Hf. induction l as [|a l IH]; [done|]. simpl. rewrite Hf. by destruct (p a). Qed.

Lemma find_filter {A} (p q : A -> bool) l a :
  List.find p l = Some a -> q a = true -> List.find p (List.filter q l) = Some a.
Proof.
  intros Hf Hq. induction l as [|b l IH]; [done|]. simpl in *. destruct (p b) eqn:Hb.
  - injection Hf as ->. rewrite Hq. simpl. by rewrite Hb.
  - destruct (q b); simpl; [rewrite Hb|]; by apply IH.
Qed.

Lemma find_app_some {A} (p : A -> bool) l l' a : List.find p l = Some a -> List.find p (l ++ l') = Some a.
Proof. intros Hf. induction l as [|b l IH]; [done|]. simpl in *. destruct (p b); auto. Qed.

(** A relation sees some parts of the world, and that calls are made. *)
Inductive Part : Type := PJobs | PRuns | PArtifacts | PFiles | PTimers | PBeats | PHashes | PAsked | PEvents.

Definition same_part (p : Part) (w w' : CronWorld) : Prop :=
  match p with
  | PJobs => w_jobs w' = w_jobs w
  | PRuns => w_runs w' = w_runs w
  | PArtifacts => w_artifacts w' = w_artifacts w
  | PFiles => w_files w' = w_files w
  | PTimers => w_timers w' = w_timers w
  | PBeats => w_beats w' = w_beats w
  | PHashes => w_hashes w' = w_hashes w
  | PAsked => w_asked w' = w_asked w
  | PEvents => w_events w' = w_events w
  end.

Class Sees (seen : Part -> bool) (R : relation CronWorld) : Prop := {
  sees_preorder :: PreOrder R;
  sees_same w w' : (w_calls w <= w_calls w')%N -> (forall p, seen p = true -> same_part p w w') -> R w w';
}.

(** What a step changes does not matter to the relation. *)
Class Blind (p : Part) (R : relation CronWorld) : Prop :=
  blind w w' : (w_calls w <= w_calls w')%N -> (forall q, q <> p -> same_part q w w') -> R w w'.
Class Calls (R : relation CronWorld) : Prop := calls w n : (w_calls w <= n)%N -> R w (set_calls n w).

#[export] Instance sees_blind p seen R : Sees seen R -> TCEq (seen p) false -> Blind p R.
Proof.
  intros HR Hp w w' Hc Hsame. apply sees_same; [done|]. intros q Hq. apply Hsame. intros ->.
  apply TCEq_eq in Hp. congruence.
Qed.
#[export] Instance sees_calls seen R : Sees seen R -> Calls R.
Proof. intros HR w n Hn. apply sees_same; [done|]. by intros []. Qed.

Section Quiet.
Context `{CronLib, CronDb, CronHost}.
Context (R : relation CronWorld) `{!PreOrder R}.

(** The step changes one part, which [R] does not see. *)
Lemma quiet_part p `{!Blind p R} {A} (f : CronWorld -> A * CronWorld) :
  (forall w, (w_calls w <= w_calls (snd (f w)))%N /\ forall q, q <> p -> same_part q w (snd (f w))) ->
  quiet R (atomic f).
Proof. intros Hf. apply (quiet_atomic R). intros w. by apply (blind (p := p)); apply Hf. Qed.

Lemma quiet_request `{!Blind PAsked R} {A} asked (f : N -> A) : quiet R (request asked f).
Proof. apply (quiet_part PAsked). intros w. split; [simpl; lia|]. by intros []. Qed.
Lemma quiet_call `{!Calls R} {A} (f : N -> A) : quiet R (call f).
Proof. apply (quiet_atomic R). intros w. simpl. rewrite app_nil_r. apply (calls w (N.succ (w_calls w))). lia. Qed.
Lemma quiet_asking `{!Calls R} {A} (f : N -> A) : quiet R (CronRepo.ask f).
Proof. apply (quiet_atomic R). intros w. apply calls. lia. Qed.

Lemma quiet_sql `{!Calls R} {A} (f : N -> CronWorld -> Result A DbError.t * CronWorld) :
  (forall w, R w (snd (f (w_calls w) (set_calls (N.succ (w_calls w)) w)))) -> quiet R (CronRepo.sql f).
Proof.
  intros Hf. apply (quiet_atomic R). intros w. simpl. destruct (cron_fails (w_calls w)); [|apply Hf].
  apply calls. lia.
Qed.

(** A statement that changes one part. *)
Lemma quiet_sql_part p `{!Blind p R} {A} (f : N -> CronWorld -> Result A DbError.t * CronWorld) :
  (forall n w, w_calls (snd (f n w)) = w_calls w /\ forall q, q <> p -> same_part q w (snd (f n w))) ->
  quiet R (CronRepo.sql f).
Proof.
  intros Hf. apply (quiet_part p). intros w. simpl.
  destruct (cron_fails (w_calls w)); [split; [simpl; lia|]; by intros []|].
  destruct (Hf (w_calls w) (set_calls (N.succ (w_calls w)) w)) as [Hc Hsame]. split; [rewrite Hc; simpl; lia|].
  intros q Hq. specialize (Hsame q Hq). by destruct q.
Qed.

(** A statement that only reads. *)
Lemma quiet_select `{!Calls R} {A} (g : CronWorld -> Result A DbError.t) : quiet R (CronRepo.sql (fun _ w => (g w, w))).
Proof. apply quiet_sql. intros w. apply calls. lia. Qed.

Ltac untouched := intros; split; [done || (simpl; lia)|]; by intros [].

Lemma quiet_update `{!Blind PJobs R} j params : quiet R (CronRepo.update j params).
Proof. destruct params; [done|]. apply (quiet_sql_part PJobs). intros n w. cbv zeta. destruct (existsb _ _); untouched. Qed.
Lemma quiet_insert_job `{!Blind PJobs R} row : quiet R (CronRepo.insert row).
Proof. apply (quiet_sql_part PJobs). intros n w. destruct (existsb _ _); untouched. Qed.
Lemma quiet_get `{!Calls R} j : quiet R (CronRepo.get_by_id j).
Proof. apply quiet_select. Qed.
Lemma quiet_all `{!Calls R} : quiet R CronRepo.list_all.
Proof. apply quiet_select. Qed.
Lemma quiet_enabled `{!Calls R} : quiet R CronRepo.list_enabled.
Proof. apply quiet_select. Qed.
Lemma quiet_of_conversation `{!Calls R} c : quiet R (CronRepo.list_by_conversation c).
Proof. apply quiet_select. Qed.
Lemma quiet_recoverable `{!Calls R} j now : quiet R (CronRepo.get_recoverable_run j now).
Proof. apply quiet_select. Qed.
Lemma quiet_cancel `{!Blind PTimers R} me j : quiet R (cancel_job me j).
Proof. apply (quiet_part PTimers). untouched. Qed.
Lemma quiet_schedule `{!Blind PTimers R} me j : quiet R (schedule_job me j).
Proof.
  apply (quiet_part PTimers). intros w. simpl. unfold plan.
  destruct (job_enabled j); [destruct (job_next_run_at j)|]; untouched.
Qed.
Lemma quiet_schedule_retry `{!Blind PTimers R} me j s t : quiet R (schedule_retry me j s t).
Proof. apply (quiet_part PTimers). untouched. Qed.
Lemma quiet_fire `{!Blind PTimers R} me j : quiet R (fire me j).
Proof. apply (quiet_part PTimers). intros w. simpl. destruct (_ ≫= _) as [[s t]|]; untouched. Qed.
Lemma quiet_emit `{!Blind PEvents R} e : quiet R (emit e).
Proof. apply (quiet_part PEvents). untouched. Qed.
Lemma quiet_abort `{!Blind PBeats R} n : quiet R (abort n).
Proof. apply (quiet_part PBeats). untouched. Qed.
Lemma quiet_spawn `{!Blind PBeats R} me j s : quiet R (spawn_run_lease_heartbeat me j s).
Proof. apply (quiet_part PBeats). untouched. Qed.

(** *** Runs, for relations that do not see them *)
Section Runs.
Context `{!Blind PRuns R}.
Lemma quiet_claim_run p : quiet R (CronRepo.claim_run p).
Proof.
  apply (quiet_sql_part PRuns). intros n w. cbv zeta.
  assert (forall row (a : CronRunClaimResult.t), w_calls (snd (CronRepo.insert_run row a w)) = w_calls w /\
    forall q, q <> PRuns -> same_part q w (snd (CronRepo.insert_run row a w))) as Hins.
  { intros row a. unfold CronRepo.insert_run. destruct (negb _); [untouched|]. destruct (existsb _ _); untouched. }
  destruct (List.find _ _); [destruct (_ && _); untouched|]. destruct (_ && _); apply Hins.
Qed.
Lemma quiet_owned_run j s o f : quiet R (CronRepo.update_owned j s o f).
Proof. apply (quiet_sql_part PRuns). untouched. Qed.
Lemma quiet_cleanup cutoff : quiet R (CronRepo.cleanup_runs_before cutoff).
Proof. apply (quiet_sql_part PRuns). untouched. Qed.
Lemma quiet_delete_job `{!Blind PJobs R} j : quiet R (CronRepo.delete j).
Proof.
  apply (quiet_atomic R). intros w. simpl. destruct (cron_fails _); [apply (blind (p := PJobs)); [simpl; lia|by intros []]|].
  destruct (existsb _ _); [|apply (blind (p := PJobs)); [simpl; lia|by intros []]]. simpl.
  match goal with |- R w (set_runs ?r (set_jobs ?l ?w1)) =>
    transitivity (set_jobs l w1); [apply (blind (p := PJobs))|apply (blind (p := PRuns))]; (simpl; lia) || by intros [] end.
Qed.
End Runs.

(** *** Artifacts and the hashes of suggestions *)
Lemma quiet_get_artifact `{!Calls R} c i : quiet R (ArtifactRepo.get_artifact c i).
Proof. apply quiet_select. Qed.
Lemma quiet_upsert `{!Calls R, !Blind PArtifacts R} row : quiet R (ArtifactRepo.upsert_artifact row).
Proof.
  apply (quiet_try R); [apply (quiet_sql_part PArtifacts); untouched|]. intros _.
  by apply (quiet_try R); [apply quiet_get_artifact|].
Qed.
Lemma quiet_mark_saved `{!Calls R, !Blind PArtifacts R} j t :
  quiet R (ArtifactRepo.mark_skill_suggest_artifacts_saved j t).
Proof. apply (quiet_try R); [apply (quiet_sql_part PArtifacts); untouched|]. intros _. apply quiet_select. Qed.
Lemma quiet_tell_artifact `{!Blind PEvents R} row : quiet R (ArtifactRepo.broadcast_artifact row).
Proof. apply (quiet_part PEvents). untouched. Qed.
Lemma quiet_last_hash me c j : quiet R (SkillSuggestDetector.last_hash me c j).
Proof. apply (quiet_atomic R). reflexivity. Qed.
Lemma quiet_set_hash `{!Blind PHashes R} me c j h : quiet R (SkillSuggestDetector.set_last_hash me c j h).
Proof. apply (quiet_part PHashes). untouched. Qed.
Lemma quiet_clear_hash `{!Blind PHashes R} me j : quiet R (SkillSuggestDetector.clear_last_hash me j).
Proof. apply (quiet_part PHashes). untouched. Qed.

(** *** Files *)
Lemma quiet_file_call {A} failing (f : N -> CronWorld -> Result A string * CronWorld) :
  (forall w, let w1 := set_calls (N.succ (w_calls w)) w in R w (failing (w_calls w) w1) /\ R w (snd (f (w_calls w) w1))) ->
  quiet R (SkillFile.file_call failing f).
Proof.
  intros Hf. apply (quiet_map_err R), (quiet_atomic R). intros w. cbv zeta. destruct (fs_error _); apply Hf.
Qed.
Lemma quiet_read_file `{!Calls R} p : quiet R (SkillFile.read_file p).
Proof. apply quiet_file_call. intros w. split; apply calls; lia. Qed.
Lemma quiet_mkdir `{!Calls R} : quiet R SkillFile.create_skill_dir.
Proof. apply quiet_file_call. intros w. split; apply calls; lia. Qed.

Context `{!Blind PFiles R}.
Lemma unseen_files n files w : (w_calls w <= n)%N -> R w (set_files files (set_calls n w)).
Proof. intros Hn. apply (blind (p := PFiles)); [done|]. by intros []. Qed.
Lemma quiet_write_temp `{!Calls R} dir content : quiet R (SkillFile.write_temp dir content).
Proof.
  apply quiet_file_call. intros w. split; [destruct (fs_written _)|]; first [apply calls|apply unseen_files]; lia.
Qed.
Lemma quiet_rename `{!Calls R} from to : quiet R (SkillFile.rename_file from to).
Proof.
  apply quiet_file_call. intros w. split; [apply calls; lia|]. simpl. destruct (_ !! _); [|apply calls; lia].
  apply (blind (p := PFiles)); [simpl; lia|]. by intros [].
Qed.
Lemma quiet_delete_skill j : quiet R (SkillFile.delete_skill_file j).
Proof.
  apply (quiet_try R); [apply (quiet_ret R)|]. intros dir. apply quiet_file_call. intros w. split; apply unseen_files; lia.
Qed.
End Quiet.

#[export] Hint Resolve quiet_update quiet_insert_job quiet_get quiet_all quiet_enabled quiet_of_conversation
  quiet_recoverable quiet_call quiet_request quiet_cancel quiet_schedule quiet_schedule_retry quiet_fire quiet_emit
  quiet_abort quiet_spawn quiet_asking quiet_get_artifact quiet_upsert quiet_mark_saved quiet_tell_artifact
  quiet_last_hash quiet_set_hash quiet_clear_hash quiet_read_file quiet_mkdir quiet_write_temp quiet_rename
  quiet_delete_skill quiet_claim_run quiet_owned_run quiet_cleanup quiet_delete_job : quiet.

(** What a relation sees is a matter of computation. *)
#[export] Hint Extern 1 (Blind _ _) => typeclasses eauto : quiet.
#[export] Hint Extern 1 (Calls _) => typeclasses eauto : quiet.
