(* ===== verification/CronCalls.v ===== *)
(** * Scheduled jobs: everything a process may do

    [service_call] lists the programs that the service of one process runs.
    [StoreSteps] is what a relation between worlds must respect for all of them
    to respect it: the statements on runs, the removal of a job and the writing
    of skill files.  What else they do is followed here, once. *)

From S2P Require Import Prelude WorkModel Interleave SerdeJson CronTypes CronStore CronSkill CronExecutor CronAgents CronService CronQuiet.
Import JobExecutor CronScheduler CronAgents CronService.

(** The calls of one process's service: what its timers do, what the system and
    the clients ask of it (the jobs of [removable] may be removed), the tasks it
    spawns. *)
Inductive service_call `{CronLib, CronDb, CronHost} (removable : string -> Prop) (me : string) : Prog CronWorld unit -> Prop :=
| call_timer job_id : service_call removable me (on_timer me job_id)
| call_tick job_id scheduled_at : service_call removable me (tick me job_id scheduled_at)
| call_beat heartbeat : service_call removable me (beat me heartbeat)
| call_init : service_call removable me (init me)
| call_resume : service_call removable me (handle_system_resume me)
| call_run_now job_id : service_call removable me (logged (run_now job_id))
| call_run_now_task job prepared : service_call removable me (run_now_task job prepared)
| call_add req : service_call removable me (logged (add_job me req))
| call_create user_id conversation_id name schedule description message :
    service_call removable me
      (logged (create_for_conversation_helper me user_id conversation_id name schedule description message))
| call_save_skill job_id content : service_call removable me (logged (save_skill job_id content))
| call_has_skill job_id : service_call removable me (logged (has_skill job_id))
| call_delete_skill job_id : service_call removable me (logged (delete_skill job_id))
| call_suggest conversation_id job_id workspace :
    service_call removable me (SkillSuggestDetector.check_with_retry me conversation_id job_id workspace)
| call_update job_id req : service_call removable me (logged (update_job me job_id req))
| call_remove job_id : removable job_id -> service_call removable me (logged (remove_job me job_id))
| call_get job_id : service_call removable me (logged (get_job job_id))
| call_list conversation_id : service_call removable me (logged (list_jobs conversation_id))
| call_deleted conversation_id : service_call removable me (delete_jobs_by_conversation conversation_id)
| call_helper_list user_id conversation_id : service_call removable me (logged (list_for_conversation_helper user_id conversation_id))
| call_helper_update user_id conversation_id job_id name schedule description message :
    service_call removable me (logged (update_for_conversation_helper me user_id conversation_id job_id name schedule description message)).

(** ** The interface *)
Definition rows_and_files (p : Part) : bool := match p with PRuns | PFiles => true | _ => false end.

Class StoreSteps `{CronLib, CronDb, CronHost} (removable : string -> Prop) (me : string) (R : relation CronWorld) : Prop := {
  steps_sees :: Sees rows_and_files R;
  steps_calls w w' : R w w' -> (w_calls w <= w_calls w')%N;
  steps_claim j s q (f : Z -> Result CronRunClaimResult.t DbError.t -> Prog CronWorld unit) :
    (forall now c, quiet R (f now c)) ->
    quiet R (prog_bind now_ms (fun now =>
      prog_bind (CronRepo.claim_run (mkClaimParams j s me now (now + RUN_LEASE_MS)%Z q)) (f now)));
  steps_cleanup (f : Z -> Result N DbError.t -> Prog CronWorld unit) :
    (forall now c, quiet R (f now c)) ->
    quiet R (prog_bind now_ms (fun now =>
      prog_bind (CronRepo.cleanup_runs_before (now - RUN_HISTORY_RETENTION_MS)%Z) (f now)));
  steps_renew j s lease t : quiet R (CronRepo.renew_run_lease j s me lease t);
  steps_defer j s t t' : quiet R (CronRepo.defer_run j s me t t');
  steps_finish j s status c e t : quiet R (CronRepo.finish_run (mkFinishParams j s me status c e t));
  steps_delete j : removable j -> quiet R (CronRepo.delete j);
  steps_write j content : quiet R (SkillFile.write_raw_skill_file j content);
  steps_delete_skill j : quiet R (SkillFile.delete_skill_file j);
}.

Section Services.
Context `{CronLib, CronDb, CronHost} (removable : string -> Prop) (me : string) (R : relation CronWorld).
Context `{!StoreSteps removable me R}.

#[local] Instance steps_pre : PreOrder R.
Proof. exact (sees_preorder (R := R)). Qed.

(** *** The interface as hints *)
Lemma quiet_renew j s lease t : quiet R (CronRepo.renew_run_lease j s me lease t).
Proof. apply steps_renew. Qed.
Lemma quiet_defer j s t t' : quiet R (CronRepo.defer_run j s me t t').
Proof. apply steps_defer. Qed.
Lemma quiet_finish j s status c e t : quiet R (CronRepo.finish_run (mkFinishParams j s me status c e t)).
Proof. apply steps_finish. Qed.
Lemma quiet_write_skill j content : quiet R (SkillFile.write_raw_skill_file j content).
Proof. apply steps_write. Qed.
Lemma quiet_remove_skill j : quiet R (SkillFile.delete_skill_file j).
Proof. apply steps_delete_skill. Qed.
Lemma quiet_build_skill j name description prompt schedule :
  quiet R (SkillFile.write_skill_file j name description prompt schedule).
Proof. apply quiet_write_skill. Qed.
#[local] Hint Resolve quiet_renew quiet_defer quiet_finish quiet_write_skill quiet_remove_skill quiet_build_skill : quiet.

(** *** The executor *)

Lemma quiet_first_claimed l : quiet R (first_claimed l).
Proof. induction l as [|c l IH]; cbn [first_claimed]; quietly. Qed.
#[local] Hint Resolve quiet_first_claimed : quiet.

Lemma quiet_bind_conversation c j mode : quiet R (bind_cron_job_to_conversation c j mode).
Proof. quietly. Qed.
#[local] Hint Resolve quiet_bind_conversation : quiet.
Lemma quiet_create j skill : quiet R (create_new_conversation j skill).
Proof. quietly. Qed.
#[local] Hint Resolve quiet_create : quiet.
Lemma quiet_saved_skill j : quiet R (prepare_saved_skill j).
Proof. quietly. Qed.
#[local] Hint Resolve quiet_saved_skill : quiet.
Lemma quiet_prepare j : quiet R (prepare_scheduled j).
Proof. quietly. Qed.
Lemma quiet_execute j c skill b : quiet R (execute_inner_with_busy_retry j c skill b).
Proof. quietly. Qed.
#[local] Hint Resolve quiet_prepare quiet_execute : quiet.

(** *** The service *)
Lemma quiet_now_call : quiet R now_ms.
Proof. apply (quiet_call R). Qed.
#[local] Hint Resolve quiet_now_call : quiet.

Lemma quiet_load j : quiet R (load_job j).
Proof. quietly. Qed.
#[local] Hint Resolve quiet_load : quiet.
Lemma quiet_bind_materialized j c : quiet R (bind_materialized_existing_conversation_if_needed j c).
Proof. quietly. Qed.
Lemma quiet_reschedule j s : quiet R (reschedule_after_execution me j s).
Proof. quietly. Qed.
#[local] Hint Resolve quiet_bind_materialized quiet_reschedule : quiet.
Lemma quiet_success j c : quiet R (update_job_after_success j c).
Proof. quietly. Qed.
#[local] Hint Resolve quiet_success : quiet.
Lemma quiet_result j s r : quiet R (handle_execution_result me j s r).
Proof. destruct r; quietly. Qed.
#[local] Hint Resolve quiet_result : quiet.
Lemma quiet_run_now_result j r : quiet R (handle_run_now_result j r).
Proof. destruct r; quietly. Qed.
Lemma quiet_run_claimed j s : quiet R (run_claimed me j s).
Proof. quietly. Qed.
Lemma quiet_tick_job j : quiet R (tick_job me j).
Proof. quietly. Qed.
Lemma quiet_duplicate j s t : quiet R (duplicate_occurrence me j s t).
Proof. quietly. Qed.
#[local] Hint Resolve quiet_run_now_result quiet_run_claimed quiet_tick_job quiet_duplicate : quiet.

Lemma quiet_tick j s : quiet R (tick me j s).
Proof.
  unfold tick. apply (quiet_bind R); [quietly|]. intros [jb|]; [|quietly]. apply steps_claim. intros now [[]|e]; quietly.
Qed.
#[local] Hint Resolve quiet_tick : quiet.

Lemma quiet_beat n : quiet R (beat me n).
Proof.
  unfold beat. apply (quiet_bind R); [|quietly]. apply (quiet_part R PBeats). intros w. cbv zeta.
  destruct (_ !! _) as [[owner j s due]|]; [destruct (_ && _)|]; (split; [simpl; lia|by intros []]).
Qed.
#[local] Hint Resolve quiet_beat : quiet.

Lemma quiet_init : quiet R (init me).
Proof. unfold init. apply steps_cleanup. intros now c. quietly. Qed.

Lemma quiet_update_job j req : quiet R (update_job me j req).
Proof. quietly. Qed.
Lemma quiet_load_rows l : quiet R (load_rows l).
Proof. induction l as [|r l IH]; cbn [load_rows]; quietly. Qed.
#[local] Hint Resolve quiet_init quiet_update_job quiet_load_rows : quiet.
Lemma quiet_remove j : removable j -> quiet R (remove_job me j).
Proof. intros Hj. pose proof (steps_delete (R := R) j Hj). quietly. Qed.
#[local] Hint Resolve quiet_remove : quiet.
Lemma quiet_verify u c : quiet R (verify_conversation_helper_context u c).
Proof. quietly. Qed.
Lemma quiet_cron_schedule e d : quiet R (conversation_cron_schedule e d).
Proof. quietly. Qed.
Lemma quiet_build_config row : quiet R (build_agent_config_from_conversation row).
Proof. quietly. Qed.
Lemma quiet_suggest c j ws : quiet R (SkillSuggestDetector.check_with_retry me c j ws).
Proof.
  unfold SkillSuggestDetector.check_with_retry. induction SkillSuggestDetector.RETRY_DELAYS_MS as [|d l IH];
    cbn [SkillSuggestDetector.check_after]; quietly.
Qed.
#[local] Hint Resolve quiet_verify quiet_cron_schedule quiet_build_config quiet_suggest : quiet.

(** *** A job that was just made may be removed again *)
Variable start : N.
Hypothesis Hnew : forall n, (start <= n)%N -> removable (cron_id "cron" n).

Definition another (r : Result CronJob CronError.t) : Prop := match r with Ok j => removable (job_id j) | Err _ => True end.
Definition makes_another (p : Prog CronWorld (Result CronJob CronError.t)) : Prop :=
  forall w, (start <= w_calls w)%N -> ensures R p (fun r _ => another r) w.

Lemma another_ret r : another r -> makes_another (Ret r).
Proof. by intros Hr w _ w' _. Qed.
Lemma another_bind {A} (p : Prog CronWorld A) f :
  quiet R p -> (forall a, makes_another (f a)) -> makes_another (prog_bind p f).
Proof.
  intros Hp Hf w Hw. apply (ensures_bind R). eapply (ensures_conseq R); [apply Hp|]. intros a w' Hc%steps_calls _. apply Hf. lia.
Qed.
Lemma another_try {A} (p : Prog CronWorld (Result A CronError.t)) f :
  quiet R p -> (forall a, makes_another (f a)) -> makes_another (try_bind p f).
Proof. intros Hp Hf. apply another_bind; [done|]. intros [a|e]; [done|]. by apply another_ret. Qed.
Lemma another_call {A} (g : N -> A) f :
  (forall n, (start <= n)%N -> makes_another (f (g n))) -> makes_another (prog_bind (call g) f).
Proof.
  intros Hf w Hw. apply (ensures_bind R), (ensures_atomic R). intros w' Hc%steps_calls. simpl. rewrite app_nil_r.
  split; [apply (calls w' (N.succ (w_calls w'))); lia|]. intros w'' Hc'%steps_calls. simpl in Hc'. apply Hf; lia.
Qed.

Lemma add_makes_another req t : makes_another (add_job_internal me req t).
Proof.
  unfold add_job_internal. cbv zeta. repeat (apply another_try; [quietly|intros ?]).
  apply another_bind; [quietly|]. intros now. apply another_call. intros n Hn.
  repeat (apply another_try; [quietly|intros ?]). repeat (apply another_bind; [quietly|intros ?]).
  apply another_ret. by apply Hnew.
Qed.

Lemma create_for_helper u c name schedule d m w : (start <= w_calls w)%N ->
  ensures R (logged (create_for_conversation_helper me u c name schedule d m)) (fun _ _ => True) w.
Proof.
  intros Hw. apply (ensures_then R); [|done]. unfold create_for_conversation_helper, try_bind at 1.
  apply (ensures_bind R). eapply (ensures_conseq R); [apply (quiet_verify u c)|]. intros [row|e] w1 Hc1%steps_calls _; [|done].
  apply (ensures_bind R). eapply (ensures_conseq R); [apply quiet_cron_schedule|]. intros sch w2 Hc2%steps_calls _.
  apply (ensures_bind R). eapply (ensures_conseq R); [apply quiet_build_config|]. intros [[t cfg] o] w3 Hc3%steps_calls _.
  apply (ensures_bind R). eapply (ensures_conseq R); [apply add_makes_another; lia|]. intros [j|e] w4 _ Hj; [|done].
  simpl in Hj. apply (ensures_then R); [apply quiet_bind_conversation|].
  assert (quiet R (remove_job me (job_id j))) as Hrm by by apply quiet_remove. quietly.
Qed.

Lemma quiet_service p w : (start <= w_calls w)%N ->
  service_call removable me p -> ensures R p (fun _ _ => True) w.
Proof.
  intros Hw Hp. destruct Hp; try by apply create_for_helper. all: revert w Hw; match goal with |- forall w, _ -> ensures _ ?p _ w =>
    enough (quiet R p) as Hq by (intros w _; apply Hq) end; quietly.
Qed.
End Services.

