(* ===== verification/CronLease.v ===== *)
(** * Scheduled jobs: occurrences among processes

    Backend processes share the store.  [occurrence_is_exclusive]: what one of
    them runs, and what has been settled, the others leave alone.  [held_occurrence_not_run]: a call for it starts
    nothing. *)

From S2P Require Import Prelude WorkModel Interleave SerdeJson CronTypes CronStore CronSkill CronExecutor CronAgents CronService CronQuiet CronCalls.
Import JobExecutor CronScheduler CronAgents CronService.

Section Lease.
Context `{CronLib, CronDb, CronHost, !CronDbOk}.

(** What the processes of [others] must leave alone at time [now]: an
    occurrence that someone else runs or that waits for its retry, as long as
    its lease goes, and one that was settled in the last thirty days. *)
Definition protected (others : string -> Prop) (now : Z) (r : CronRunRow) : Prop :=
  match rr_status r with
  | RunStatus.Running =>
      (exists o, rr_owner_id r = Some o /\ ~ others o) /\ exists lease, rr_lease_until r = Some lease /\ (now < lease)%Z
  | RunStatus.Retrying => exists lease, rr_lease_until r = Some lease /\ (now < lease)%Z
  | _ => exists t, rr_finished_at r = Some t /\ (now - RUN_HISTORY_RETENTION_MS <= t)%Z
  end.

Definition clock (w : CronWorld) : Z := cron_now (w_calls w).

Definition keeps_run (others : string -> Prop) (job_id : string) (scheduled_at : Z) (w w' : CronWorld) : Prop :=
  (w_calls w <= w_calls w')%N /\
  forall r, the_run job_id scheduled_at w = Some r -> protected others (clock w') r ->
    the_run job_id scheduled_at w' = Some r.

Variables (others : string -> Prop) (job : string) (at_ms : Z).
Local Abbreviation R := (keeps_run others job at_ms).

Lemma protected_before now now' r : (now <= now')%Z -> protected others now' r -> protected others now r.
Proof.
  intros Hn. unfold protected. destruct (rr_status r).
  - intros [Ho (lease & -> & Hl)]. split; [done|]. exists lease. split; [done|lia].
  - intros (lease & -> & Hl). exists lease. split; [done|lia].
  - intros (t & -> & Ht). exists t. split; [done|lia].
  - intros (t & -> & Ht). exists t. split; [done|lia].
  - intros (t & -> & Ht). exists t. split; [done|lia].
Qed.

#[export] Instance keeps_run_preorder : PreOrder R.
Proof.
  split.
  - intros w. split; [lia|done].
  - intros w1 w2 w3 [Hc1 Hr1] [Hc2 Hr2]. split; [lia|]. intros r Hr Hp. apply Hr2; [|done].
    apply Hr1; [done|]. eapply protected_before; [|exact Hp]. by apply clock_grows.
Qed.

(** ** Steps that leave the occurrences alone *)
Lemma keeps_same_runs w w' : (w_calls w <= w_calls w')%N -> w_runs w' = w_runs w -> R w w'.
Proof. intros Hc Hr. split; [done|]. intros r Hf _. unfold the_run in *. by rewrite Hr. Qed.

#[export] Instance keeps_run_sees : Sees (fun p => match p with PRuns => true | _ => false end) R.
Proof. split; [apply _|]. intros w w' Hc Hsame. apply keeps_same_runs; [done|]. by apply (Hsame PRuns). Qed.

(** A reading of the clock is past. *)
Lemma quiet_now {B} (f : Z -> Prog CronWorld B) :
  (forall now w, (now <= clock w)%Z -> ensures R (f now) (fun _ _ => True) w) -> quiet R (prog_bind now_ms f).
Proof.
  intros Hf w. apply (ensures_bind R), (ensures_atomic R). intros w' _. split; [apply keeps_same_runs; simpl; [lia|done]|].
  intros w'' [Hc _]. apply Hf. apply clock_grows. simpl in *. lia.
Qed.

(** ** The statements on runs *)
Lemma keeps_update w n p f :
  (w_calls w <= n)%N ->
  (forall r, CronRepo.is_run job at_ms (f r) = CronRepo.is_run job at_ms r) ->
  (forall r, CronRepo.is_run job at_ms r = true -> protected others (cron_now n) r -> p r = false) ->
  R w (CronRepo.update_run p f (set_calls n w)).
Proof.
  intros Hn Hf Hp. split; [done|]. intros r Hr Hprot. unfold the_run in *. simpl.
  rewrite find_map_same by (intros a; destruct (p a); [apply Hf|done]). rewrite Hr.
  by rewrite (Hp r (proj2 (find_some _ _ Hr)) Hprot).
Qed.

Lemma keeps_filter w n q :
  (w_calls w <= n)%N ->
  (forall r, CronRepo.is_run job at_ms r = true -> protected others (cron_now n) r -> q r = true) ->
  R w (set_runs (List.filter q (w_runs w)) (set_calls n w)).
Proof.
  intros Hn Hq. split; [done|]. intros r Hr Hprot. unfold the_run in *. simpl. apply find_filter; [done|].
  apply Hq; [|done]. apply (find_some _ _ Hr).
Qed.

Lemma active_lease now r :
  protected others now r -> CronRepo.is_active r = true -> CronRepo.lease_over now r = false.
Proof.
  unfold protected, CronRepo.is_active, CronRepo.lease_over.
  destruct (rr_status r); try done; intros Hp _; [destruct Hp as [_ (lease & -> & Hl)]|destruct Hp as (lease & -> & Hl)]; lia.
Qed.

Lemma lease_over_later now now' r : (now <= now')%Z -> CronRepo.lease_over now r = true -> CronRepo.lease_over now' r = true.
Proof. unfold CronRepo.lease_over. intros Hn. destruct (rr_lease_until r); [|done]. lia. Qed.

Lemma claim_keeps p w :
  (cl_now p <= clock w)%Z -> ensures R (CronRepo.claim_run p) (fun _ _ => True) w.
Proof.
  intros Hnow. apply (ensures_atomic R). intros w' [Hc _]. split; [|done].
  assert (cl_now p <= clock w')%Z as Hnow' by (etransitivity; [exact Hnow|by apply clock_grows]). clear Hnow Hc w.
  simpl. destruct (cron_fails (w_calls w')); [apply keeps_same_runs; simpl; [lia|done]|].
  assert (forall row answer, R w' (snd (CronRepo.insert_run row answer (set_calls (N.succ (w_calls w')) w')))) as Hins.
  { intros row answer. unfold CronRepo.insert_run. simpl.
    destruct (negb _); [apply keeps_same_runs; simpl; [lia|done]|].
    destruct (existsb _ _); [apply keeps_same_runs; simpl; [lia|done]|].
    split; [simpl; lia|]. intros r Hr _. by apply find_app_some. }
  destruct (List.find _ (w_runs w')) as [r0|] eqn:Hf.
  - destruct (_ && _) eqn:Hlease; [|apply keeps_same_runs; simpl; [lia|done]]. simpl.
    apply keeps_update; [lia|done|]. intros r Hr Hprot.
    destruct (CronRepo.is_active r) eqn:Ha; [|by rewrite andb_false_r].
    destruct (CronRepo.lease_over (cl_now p) r) eqn:Hl; [|by rewrite andb_false_r].
    exfalso. pose proof (active_lease _ _ Hprot Ha) as Hover.
    rewrite (lease_over_later (cl_now p)) in Hover; [done| |done].
    etransitivity; [exact Hnow'|]. apply clock_grows. lia.
  - destruct (_ && _); apply Hins.
Qed.

Lemma quiet_owned j s owner f :
  others owner -> (forall r, CronRepo.is_run job at_ms (f r) = CronRepo.is_run job at_ms r) ->
  quiet R (CronRepo.update_owned j s owner f).
Proof.
  intros Ho Hf. apply (quiet_sql R). intros w. simpl. apply keeps_update; [lia|done|].
  intros r _ Hprot. unfold CronRepo.owned_run. destruct (bool_decide_reflect (rr_status r = RunStatus.Running)) as [Hs|];
    [|by rewrite andb_false_r].
  destruct (bool_decide_reflect (rr_owner_id r = Some owner)) as [Hown|]; [|by rewrite andb_false_r].
  exfalso. unfold protected in Hprot. rewrite Hs in Hprot. destruct Hprot as [(o & E & Hno) _]. congruence.
Qed.

Lemma cleanup_keeps cutoff w :
  (cutoff <= clock w - RUN_HISTORY_RETENTION_MS)%Z ->
  ensures R (CronRepo.cleanup_runs_before cutoff) (fun _ _ => True) w.
Proof.
  intros Hcut. apply (ensures_atomic R). intros w' [Hc _]. split; [|done].
  assert (clock w <= cron_now (N.succ (w_calls w')))%Z as Hnow by (apply clock_grows; lia).
  simpl. destruct (cron_fails (w_calls w')); [apply keeps_same_runs; simpl; [lia|done]|]. simpl.
  apply keeps_filter; [lia|]. intros r _ Hprot. unfold CronRepo.old_run, CronRepo.is_active.
  unfold protected in Hprot. destruct (rr_status r); simpl; try done; destruct Hprot as (t & -> & Ht); lia.
Qed.

Lemma quiet_delete j : j <> job -> quiet R (CronRepo.delete j).
Proof.
  intros Hj. apply (quiet_sql R). intros w. simpl. destruct (existsb _ _); [|apply keeps_same_runs; simpl; [lia|done]]. simpl.
  apply (keeps_filter w (N.succ (w_calls w)) (fun r => negb (rr_job_id r =? j)%string)); [lia|].
  intros r Hr _. unfold CronRepo.is_run in Hr. apply andb_prop in Hr as [Hr _].
  apply String.eqb_eq in Hr as ->. apply negb_true_iff, String.eqb_neq. congruence.
Qed.
End Lease.

Section Services.
Context `{CronLib, CronDb, CronHost, !CronDbOk}.

(** The service of a process among [others] respects the occurrence, unless it
    removes the job. *)
Lemma keeps_run_steps (others : string -> Prop) job at_ms me :
  others me -> StoreSteps (fun j => j <> job) me (keeps_run others job at_ms).
Proof.
  intros Hme. set (R := keeps_run others job at_ms).
  split; try (intros; by apply quiet_owned).
  - split; [apply _|]. intros w w' Hc Hsame. apply keeps_same_runs; [done|]. by apply (Hsame PRuns).
  - by intros w w' [Hc _].
  - intros j s q f Hf. apply quiet_now. intros now w Hnow. apply (ensures_then R); [by apply claim_keeps|apply Hf].
  - intros f Hf. apply quiet_now. intros now w Hnow. apply (ensures_then R); [apply cleanup_keeps; lia|apply Hf].
  - apply quiet_delete.
  - intros j content. quietly.
  - intros j. quietly.
Qed.
End Services.

Section Exclusive.
Context `{CronLib, CronDb, CronHost, !CronDbOk}.


(** ** Calls for an occurrence that is held *)
Definition outputs (p : Part) : bool := match p with PRuns | PArtifacts | PFiles | PAsked => true | _ => false end.
Definition still (w w' : CronWorld) : Prop :=
  (w_calls w <= w_calls w')%N /\ forall p, outputs p = true -> same_part p w w'.

#[local] Instance still_preorder : PreOrder still.
Proof.
  split; [by intros w; split; [lia|intros []]|]. intros w1 w2 w3 [Hc Hs] [Hc' Hs']. split; [lia|].
  intros p Hp. specialize (Hs p Hp). specialize (Hs' p Hp). destruct p; simpl in *; congruence.
Qed.
#[local] Instance still_sees : Sees outputs still.
Proof. split; [apply _|done]. Qed.

Lemma still_run {A} (p : Prog CronWorld A) w : quiet still p -> still w (snd (run p w)).
Proof. intros Hp. by apply (run_ensures still p (fun _ _ => True)). Qed.

Lemma tick_job_still me j : quiet still (tick_job me j).
Proof. quietly. Qed.
Lemma duplicate_still me j s t : quiet still (duplicate_occurrence me j s t).
Proof. quietly. Qed.

(** The time at which a call claims its occurrence. *)
Definition claim_time (me job_id : string) (w : CronWorld) : Z := clock (snd (run (tick_job me job_id) w)).

Lemma held_tick_still me job at_ms w r :
  the_run job at_ms w = Some r ->
  (CronRepo.is_active r = true -> CronRepo.lease_over (claim_time me job w) r = false) ->
  still w (snd (run (tick me job at_ms) w)).
Proof.
  intros Hr Hlease. unfold tick. rewrite run_bind. unfold claim_time in Hlease.
  pose proof (still_run (tick_job me job) w (tick_job_still me job)) as Hst.
  destruct (run (tick_job me job) w) as [[jb|] w1]; [|done]. simpl in Hst, Hlease. cbv beta iota. etransitivity; [exact Hst|].
  assert (the_run job at_ms w1 = Some r) as Hr1 by (unfold the_run; by rewrite (proj2 Hst PRuns)). clear Hst Hr w.
  rewrite run_bind, (surjective_pairing (run now_ms w1)). cbv beta iota.
  set (w2 := snd (run now_ms w1)). assert (still w1 w2) as Hst by (apply still_run; quietly).
  assert (the_run job at_ms w2 = Some r) as Hr2 by (unfold the_run; by rewrite (proj2 Hst PRuns)).
  etransitivity; [exact Hst|]. clear Hst.
  assert (fst (run now_ms w1) = clock w1) as -> by done. clearbody w2. rewrite run_bind.
  unfold CronRepo.claim_run, CronRepo.sql, atomic. cbn [run cl_job_id cl_scheduled_at cl_now w_runs set_calls].
  unfold the_run in Hr2. rewrite Hr2.
  assert (CronRepo.is_active r && CronRepo.lease_over (clock w1) r = false) as ->
    by (destruct (CronRepo.is_active r); [by apply Hlease|done]).
  assert (still w2 (set_calls (N.succ (w_calls w2)) w2)) as Hst by (apply (calls w2); lia).
  destruct (cron_fails (w_calls w2)); [exact Hst|]. etransitivity; [exact Hst|]. apply still_run, duplicate_still.
Qed.

(** C27. A timer that calls for an occurrence which is settled, or whose lease
    (of a run, or of the wait for a retry) is good at the time of the claim,
    starts nothing: no turn and nothing else is asked of the other services, no
    artifact, no skill file and no occurrence changes, whichever process the call
    comes from, the holder itself included. *)
Theorem held_occurrence_not_run me job at_ms w r :
  the_run job at_ms w = Some r ->
  (CronRepo.is_active r = true -> CronRepo.lease_over (claim_time me job w) r = false) ->
  let w' := snd (run (tick me job at_ms) w) in
  w_asked w' = w_asked w /\ w_runs w' = w_runs w /\ w_artifacts w' = w_artifacts w /\ w_files w' = w_files w.
Proof.
  intros Hr Hlease w'. destruct (held_tick_still me job at_ms w r Hr Hlease) as [_ Hs].
  split; [by apply (Hs PAsked)|]. split; [by apply (Hs PRuns)|]. split; [by apply (Hs PArtifacts)|by apply (Hs PFiles)].
Qed.
End Exclusive.
