(* ===== verification/CronOutcome.v ===== *)
(** * Scheduled jobs: what a call leaves behind

    The result of a run, an update, a start: the rows, the timers and the
    events after each. *)

From S2P Require Import Prelude WorkModel Interleave SerdeJson CronTypes CronStore CronSkill CronExecutor CronAgents CronService CronRows CronQuiet.
Import JobExecutor CronScheduler CronAgents CronService.

Section Outcome.
Context `{CronLib, CronDb, CronHost}.

(** No statement fails from here on. *)
Definition healthy (w : CronWorld) : Prop := forall n, (w_calls w <= n)%N -> cron_fails n = false.

Lemma healthy_later w w' : healthy w -> (w_calls w <= w_calls w')%N -> healthy w'.
Proof. intros Hw Hc n Hn. apply Hw. lia. Qed.

(** ** Statements that succeed *)
Lemma set_columns_id id params r : CronRepo.is_job id (set_columns params r) = CronRepo.is_job id r.
Proof.
  revert r. induction params as [|c params IH]; intros r; [done|]. unfold set_columns in *. simpl. rewrite IH.
  by destruct c, r.
Qed.

Lemma set_columns_app p q r : set_columns (p ++ q) r = set_columns q (set_columns p r).
Proof. apply fold_left_app. Qed.

Lemma find_update_job id id' f l :
  (forall r, CronRepo.is_job id' (f r) = CronRepo.is_job id' r) ->
  List.find (CronRepo.is_job id') (CronRepo.update_job id f l) =
    match List.find (CronRepo.is_job id') l with
    | Some r => Some (if CronRepo.is_job id r then f r else r)
    | None => None
    end.
Proof.
  intros Hf. induction l as [|r l IH]; [done|]. simpl.
  destruct (CronRepo.is_job id r) eqn:E; rewrite ?Hf; destruct (CronRepo.is_job id' r); try done; by rewrite E.
Qed.

Lemma find_existsb {A} (p : A -> bool) l a : List.find p l = Some a -> existsb p l = true.
Proof. intros Hf. apply existsb_exists. exists a. by apply find_some in Hf. Qed.

(** The world after [UPDATE cron_jobs]. *)
Definition updated (id : string) (params : UpdateCronJobParams) (w : CronWorld) : CronWorld :=
  set_jobs (CronRepo.update_job id (set_columns (params ++ [Column.UpdatedAt (cron_now (w_calls w))])) (w_jobs w))
    (set_calls (N.succ (w_calls w)) w).

Lemma run_update id params w row :
  healthy w -> params <> [] -> the_job id w = Some row ->
  run (CronRepo.update id params) w = (Ok tt, updated id params w).
Proof.
  intros Hw Hp Hrow. destruct params as [|c params]; [done|]. unfold CronRepo.update, CronRepo.sql, atomic.
  cbn [run]. rewrite Hw by lia. cbn [w_jobs set_calls]. by rewrite (find_existsb _ _ _ Hrow).
Qed.

Lemma updated_job id params w row :
  the_job id w = Some row ->
  the_job id (updated id params w) = Some (set_columns (params ++ [Column.UpdatedAt (cron_now (w_calls w))]) row).
Proof.
  intros Hrow. unfold the_job in *. unfold updated. cbn [w_jobs set_jobs]. rewrite find_update_job.
  - rewrite Hrow. apply find_some in Hrow as [_ ->]. done.
  - intros r. apply set_columns_id.
Qed.

Lemma run_get_by_id id w : healthy w ->
  run (CronRepo.get_by_id id) w = (Ok (the_job id w), set_calls (N.succ (w_calls w)) w).
Proof. intros Hw. unfold CronRepo.get_by_id, CronRepo.sql, atomic. cbn [run]. by rewrite Hw by lia. Qed.

Lemma run_call {A} (f : N -> A) w : run (call f) w = (f (w_calls w), set_calls (N.succ (w_calls w)) w).
Proof. unfold call, request, atomic. simpl. rewrite app_nil_r. by destruct w. Qed.

Lemma run_now_ms w : run now_ms w = (cron_now (w_calls w), set_calls (N.succ (w_calls w)) w).
Proof. apply run_call. Qed.

(** ** The result of a run *)

(** What is written of an occurrence that is settled, and of its job. *)
Definition settlement (result : ExecutionResult.t) : option (RunStatus.t * option string * option string) :=
  match result with
  | ExecutionResult.Success conversation_id => Some (RunStatus.Success, Some conversation_id, None)
  | ExecutionResult.Skipped => Some (RunStatus.Skipped, None, None)
  | ExecutionResult.Error message => Some (RunStatus.Error, None, Some message)
  | ExecutionResult.Retrying _ => None
  end.

Definition status_text (s : RunStatus.t) : string :=
  match s with RunStatus.Success => "ok" | RunStatus.Error => "error" | RunStatus.Skipped => "skipped" | _ => "" end.

Definition settled_run (status : RunStatus.t) (conversation_id error : option string) (now : Z) (r : CronRunRow) : CronRunRow :=
  mkRunRow (rr_id r) (rr_job_id r) (rr_scheduled_at r) status (rr_owner_id r) None conversation_id error
    (rr_started_at r) (Some now) (rr_created_at r) now.

(** The job's row before and after: the skipped occurrence is not counted. *)
Definition recorded (result : ExecutionResult.t) (row row' : CronJobRow) : Prop :=
  cj_id row' = cj_id row /\ cj_retry_count row' = 0%Z /\
  match result with
  | ExecutionResult.Success conversation_id =>
      cj_last_status row' = Some "ok" /\ cj_last_error row' = None /\
      cj_run_count row' = i64_wrap (cj_run_count row + 1) /\
      cj_conversation_id row' =
        (if should_bind_success_conversation (cj_execution_mode row) (cj_conversation_id row) conversation_id
         then conversation_id else cj_conversation_id row)
  | ExecutionResult.Error message =>
      cj_last_status row' = Some "error" /\ cj_last_error row' = Some message /\
      cj_run_count row' = i64_wrap (cj_run_count row + 1) /\ cj_conversation_id row' = cj_conversation_id row
  | _ =>
      cj_last_status row' = Some "skipped" /\ cj_last_error row' = cj_last_error row /\
      cj_run_count row' = cj_run_count row /\ cj_conversation_id row' = cj_conversation_id row
  end.

(** The world but for what was asked for and the number of calls. *)
Definition aside (w w' : CronWorld) : Prop :=
  (w_calls w <= w_calls w')%N /\ w_jobs w' = w_jobs w /\ w_runs w' = w_runs w /\ w_timers w' = w_timers w /\
  w_events w' = w_events w.

#[export] Instance aside_sees : Sees (fun p => match p with PJobs | PRuns | PTimers | PEvents => true | _ => false end) aside.
Proof.
  split.
  - split; [by intros w|]. intros w1 w2 w3 (? & ? & ? & ? & ?) (? & ? & ? & ? & ?).
    split; [lia|]. repeat split; congruence.
  - intros w w' Hc Hs. split; [done|]. split; [by apply (Hs PJobs)|]. split; [by apply (Hs PRuns)|].
    split; [by apply (Hs PTimers)|by apply (Hs PEvents)].
Qed.

Lemma aside_run {A} (p : Prog CronWorld A) w : quiet aside p -> aside w (snd (run p w)).
Proof. intros Hp. by apply (run_ensures aside p (fun _ _ => True)). Qed.

Lemma bind_aside c j mode : quiet aside (logged (bind_cron_job_to_conversation c j mode)).
Proof. quietly. Qed.

(** Runs, timers and events stay; the job's row is as [P] says. *)
Definition rewrites (id : string) (w w' : CronWorld) (P : CronJobRow -> Prop) : Prop :=
  (w_calls w <= w_calls w')%N /\ w_runs w' = w_runs w /\ w_timers w' = w_timers w /\ w_events w' = w_events w /\
  exists row', the_job id w' = Some row' /\ P row'.

Lemma updated_rewrites id params w row P :
  the_job id w = Some row -> P (set_columns (params ++ [Column.UpdatedAt (cron_now (w_calls w))]) row) ->
  rewrites id w (updated id params w) P.
Proof.
  intros Hrow HP. split; [cbn; lia|]. do 3 (split; [done|]). eexists. split; [by apply updated_job|done].
Qed.

Lemma rewrites_aside id w w' w'' P : rewrites id w w' P -> aside w' w'' -> rewrites id w w'' P.
Proof.
  intros (Hc & Hr & Ht & He & row' & Hrow & HP) (Hc' & Hj' & Hr' & Ht' & He').
  split; [lia|]. do 3 (split; [congruence|]). exists row'. split; [|done]. unfold the_job in *. congruence.
Qed.

Lemma logged_run {A E} (p : Prog CronWorld (Result A E)) w : snd (run (logged p) w) = snd (run p w).
Proof. unfold logged. rewrite run_bind. by destruct (run p w). Qed.

Lemma success_recorded id c w row :
  healthy w -> the_job id w = Some row ->
  rewrites id w (snd (run (update_job_after_success id c) w))
    (fun row' => recorded (ExecutionResult.Success c) row row' /\
                 cj_next_run_at row' = cj_next_run_at row /\ cj_enabled row' = cj_enabled row).
Proof.
  intros Hw Hrow. unfold update_job_after_success. rewrite run_bind, run_get_by_id by done. rewrite Hrow.
  cbv beta iota. rewrite run_bind, run_now_ms. cbv beta iota zeta.
  set (w1 := set_calls _ (set_calls _ w)). set (b := should_bind_success_conversation _ _ _).
  set (params := _ ++ _). rewrite run_bind, (run_update id params w1 row); [|by apply (healthy_later w); [|cbn; lia]|done|done].
  assert (rewrites id w (updated id params w1) (fun row' => recorded (ExecutionResult.Success c) row row' /\
                 cj_next_run_at row' = cj_next_run_at row /\ cj_enabled row' = cj_enabled row)) as Hup.
  { destruct (updated_rewrites id params w1 row (fun row' => recorded (ExecutionResult.Success c) row row' /\
      cj_next_run_at row' = cj_next_run_at row /\ cj_enabled row' = cj_enabled row)) as (Hc & Hrest); [done| |].
    - subst params. unfold recorded. fold b. destruct row. by destruct b.
    - split; [cbn in *; lia|done]. }
  cbv beta iota. destruct b; [|done]. eapply rewrites_aside; [done|]. apply aside_run, bind_aside.
Qed.

Lemma error_recorded id m w row :
  healthy w -> the_job id w = Some row ->
  rewrites id w (snd (run (update_job_after_error id m) w))
    (fun row' => recorded (ExecutionResult.Error m) row row' /\
                 cj_next_run_at row' = cj_next_run_at row /\ cj_enabled row' = cj_enabled row).
Proof.
  intros Hw Hrow. unfold update_job_after_error. rewrite run_bind, run_get_by_id by done. rewrite Hrow.
  cbv beta iota. rewrite run_bind, run_now_ms. cbv beta iota zeta. rewrite logged_run.
  set (w1 := set_calls _ (set_calls _ w)).
  rewrite (run_update id _ w1 row); [|by apply (healthy_later w); [|cbn; lia]|done|done].
  destruct (updated_rewrites id
    [Column.LastRunAt (Some (cron_now (w_calls (set_calls (N.succ (w_calls w)) w)))); Column.LastStatus (Some "error");
     Column.LastError (Some m); Column.RetryCount 0; Column.RunCount (i64_wrap (cj_run_count row + 1))] w1 row
    (fun row' => recorded (ExecutionResult.Error m) row row' /\
                 cj_next_run_at row' = cj_next_run_at row /\ cj_enabled row' = cj_enabled row)) as (Hc & Hrest); [done| |].
  - by destruct row.
  - split; [cbn in *; lia|done].
Qed.

Lemma skip_recorded id w row :
  healthy w -> the_job id w = Some row ->
  rewrites id w (snd (run (mark_skipped id) w))
    (fun row' => recorded ExecutionResult.Skipped row row' /\
                 cj_next_run_at row' = cj_next_run_at row /\ cj_enabled row' = cj_enabled row).
Proof.
  intros Hw Hrow. unfold mark_skipped. rewrite logged_run, (run_update id _ w row) by done.
  apply (updated_rewrites id _ w row); [done|]. by destruct row.
Qed.

(** *** The next run *)
Context `{!CronDbOk}.

Lemma no_recoverable id now w :
  healthy w -> (forall r, In r (w_runs w) -> CronRepo.recoverable id r = false) ->
  run (CronRepo.get_recoverable_run id now) w = (Ok None, set_calls (N.succ (w_calls w)) w).
Proof.
  intros Hw Hnone. unfold CronRepo.get_recoverable_run, CronRepo.sql, atomic. cbn [run]. rewrite Hw by lia.
  cbn [w_runs set_calls].
  assert (List.filter (CronRepo.recoverable id) (w_runs w) = []) as E.
  { destruct (List.filter _ _) as [|r l] eqn:E; [done|]. exfalso.
    assert (In r (List.filter (CronRepo.recoverable id) (w_runs w))) as Hin by (rewrite E; by left).
    apply filter_In in Hin as [Hin Hr]. by rewrite Hnone in Hr. }
  rewrite E. pose proof (sort_permutation CronRepo.lease_of (@nil CronRunRow)) as Hp.
  apply Permutation_sym, Permutation_nil in Hp. by rewrite Hp.
Qed.

(** What the service plans for a job after the occurrence [scheduled_at]. *)
Definition planned (me : string) (job : CronJob) (scheduled_at now : Z) (row' : CronJobRow) (timer : option Timer.t) : Prop :=
  if CronSchedule.is_at (job_schedule job) then
    cj_enabled row' = false /\ cj_next_run_at row' = None /\ timer = None
  else
    let next := compute_next_run_after_occurrence (job_schedule job) scheduled_at now in
    cj_next_run_at row' = next /\
    exists now', (now <= now')%Z /\
    timer = (if job_enabled job then match next with Some next => Some (new_timer (job_schedule job) next now') | None => None end
             else None).

Lemma reschedule_planned me job at_ms w row :
  healthy w -> the_job (job_id job) w = Some row ->
  (forall r, In r (w_runs w) -> CronRepo.recoverable (job_id job) r = false) ->
  let w' := snd (run (reschedule_after_execution me job at_ms) w) in
  (w_calls w <= w_calls w')%N /\ w_runs w' = w_runs w /\
  (exists l, w_events w' = w_events w ++ l) /\
  exists now row', (cron_now (w_calls w) <= now)%Z /\ the_job (job_id job) w' = Some row' /\
    planned me job at_ms now row' (w_timers w' !! (me, job_id job)) /\
    (forall result row0, recorded result row0 row -> recorded result row0 row').
Proof.
  intros Hw Hrow Hnone. unfold reschedule_after_execution. cbv zeta.
  rewrite run_bind, run_now_ms. cbv beta iota. rewrite run_bind, no_recoverable; [|by apply (healthy_later w); [|cbn; lia]|done].
  cbv beta iota. unfold planned. set (w1 := set_calls _ (set_calls _ w)).
  assert (healthy w1) as Hw1 by (by apply (healthy_later w); [|cbn; lia]).
  destruct (CronSchedule.is_at _).
  - rewrite run_bind, (surjective_pairing (run (logged _) _)). cbv beta iota. rewrite logged_run.
    rewrite (run_update _ _ w1 row) by done. cbn [snd]. pose proof (updated_job (job_id job)
      [Column.Enabled false; Column.NextRunAt None] w1 row Hrow) as Hj.
    split; [cbn; lia|]. split; [done|]. split; [by eexists|].
    eexists (cron_now (w_calls w)), _. split; [lia|]. split; [exact Hj|]. split.
    + destruct row. split; [done|]. split; [done|]. cbn. apply lookup_delete_eq.
    + intros result row0. by destruct row, result.
  - rewrite run_bind, run_now_ms. cbv beta iota zeta. set (w2 := set_calls _ w1).
    set (next := compute_next_run_after_occurrence _ _ _).
    rewrite run_bind, (surjective_pairing (run (logged _) _)). cbv beta iota. rewrite logged_run.
    rewrite (run_update _ _ w2 row); [|by apply (healthy_later w); [|cbn; lia]|done|done]. cbn [snd].
    pose proof (updated_job (job_id job) [Column.NextRunAt next] w2 row Hrow) as Hj.
    set (w3 := updated _ _ w2) in *.
    assert (snd (run (reschedule_job me (with_next_run (job_enabled job) next job)) w3) =
      plan me (with_next_run (job_enabled job) next job) (cron_now (w_calls w3)) (set_calls (N.succ (w_calls w3)) w3)) as ->
      by done.
    assert (forall w, w_calls (plan me (with_next_run (job_enabled job) next job) (cron_now (w_calls w3)) w) = w_calls w /\
      w_runs (plan me (with_next_run (job_enabled job) next job) (cron_now (w_calls w3)) w) = w_runs w /\
      w_events (plan me (with_next_run (job_enabled job) next job) (cron_now (w_calls w3)) w) = w_events w /\
      w_jobs (plan me (with_next_run (job_enabled job) next job) (cron_now (w_calls w3)) w) = w_jobs w) as Hplan.
    { intros w0. unfold plan. cbn. destruct (job_enabled job); [destruct next|]; done. }
    destruct (Hplan (set_calls (N.succ (w_calls w3)) w3)) as (Hpc & Hpr & Hpe & Hpj).
    rewrite Hpc, Hpr, Hpe. split; [cbn; lia|]. split; [done|]. split; [exists []; by rewrite app_nil_r|].
    eexists (cron_now (w_calls w1)), _. split; [apply clock_grows; cbn; lia|]. split; [unfold the_job in *; rewrite Hpj; exact Hj|].
    split; [|intros result row0; by destruct row, result]. destruct row. split; [done|].
    exists (cron_now (w_calls w3)). split; [apply clock_grows; cbn; lia|].
    fold next. unfold plan. cbn [with_next_run job_id job_enabled job_next_run_at job_schedule].
    destruct (job_enabled job); [destruct next|].
    + apply lookup_insert_eq.
    + apply lookup_delete_eq.
    + apply lookup_delete_eq.
Qed.

(** *** The occurrence *)
Definition owned_by (me : string) (r : CronRunRow) : Prop := rr_status r = RunStatus.Running /\ rr_owner_id r = Some me.

(** The world once the occurrence is settled. *)
Definition settled_world (me job_id : string) (scheduled_at : Z) (status : RunStatus.t) (conversation_id error : option string)
    (w : CronWorld) : CronWorld :=
  CronRepo.update_run (CronRepo.owned_run job_id scheduled_at me)
    (settled_run status conversation_id error (cron_now (w_calls w))) (set_calls (N.succ (N.succ (w_calls w))) w).

Lemma run_finish me id at_ms status c e w r :
  healthy w -> the_run id at_ms w = Some r -> owned_by me r ->
  run (finish_scheduled_run me id at_ms status c e) w = (true, settled_world me id at_ms status c e w).
Proof.
  intros Hw Hr [Hs Ho]. unfold finish_scheduled_run. rewrite run_bind, run_now_ms. cbv beta iota.
  rewrite run_bind. unfold CronRepo.finish_run, CronRepo.update_owned, CronRepo.sql, atomic. cbn [run].
  rewrite Hw by (cbn; lia). cbn. f_equal. apply existsb_exists. exists r.
  apply find_some in Hr as [Hin Hrun]. split; [done|]. unfold CronRepo.owned_run. rewrite Hrun. simpl.
  by rewrite !bool_decide_eq_true_2 by done.
Qed.

Lemma settled_the_run me id at_ms status c e w r :
  the_run id at_ms w = Some r -> owned_by me r ->
  the_run id at_ms (settled_world me id at_ms status c e w) = Some (settled_run status c e (cron_now (w_calls w)) r).
Proof.
  intros Hr [Hs Ho]. unfold the_run in *. cbn. rewrite find_map_same by (by intros a; destruct (CronRepo.owned_run _ _ _ a)).
  rewrite Hr. apply find_some in Hr as [_ Hrun]. unfold CronRepo.owned_run. rewrite Hrun. simpl.
  by rewrite !bool_decide_eq_true_2 by done.
Qed.

Lemma settled_no_recoverable me id at_ms status c e w r :
  RunStatus.is_active status = false ->
  the_run id at_ms w = Some r -> owned_by me r ->
  (forall r', In r' (w_runs w) -> CronRepo.recoverable id r' = true -> r' = r) ->
  forall r', In r' (w_runs (settled_world me id at_ms status c e w)) -> CronRepo.recoverable id r' = false.
Proof.
  intros Hst Hr [Hs Ho] Honly r' Hin. cbn in Hin. apply in_map_iff in Hin as (r0 & <- & Hin).
  destruct (CronRepo.owned_run id at_ms me r0) eqn:Eo.
  - unfold CronRepo.recoverable, CronRepo.is_active. cbn. rewrite Hst. by rewrite andb_false_r.
  - destruct (CronRepo.recoverable id r0) eqn:Er; [|done]. exfalso. apply Honly in Er as ->; [|done].
    apply find_some in Hr as [_ Hrun]. unfold CronRepo.owned_run in Eo. rewrite Hrun in Eo. simpl in Eo.
    by rewrite !bool_decide_eq_true_2 in Eo by done.
Qed.

(** What follows the settlement: the job's row, then the next run, then the event. *)
Definition after_settling (me : string) (job : CronJob) (at_ms : Z) (record : Prog CronWorld unit) (e : CronEvent.t)
    : Prog CronWorld unit :=
  prog_bind record (fun _ => prog_bind (reschedule_after_execution me job at_ms) (fun _ => emit e)).

Lemma run_after_settling me job at_ms record e result w row :
  healthy w -> the_job (job_id job) w = Some row ->
  (forall r, In r (w_runs w) -> CronRepo.recoverable (job_id job) r = false) ->
  (forall w, healthy w -> the_job (job_id job) w = Some row ->
     rewrites (job_id job) w (snd (run record w)) (fun row' => recorded result row row')) ->
  let w' := snd (run (after_settling me job at_ms record e) w) in
  w_runs w' = w_runs w /\
  (exists l, w_events w' = w_events w ++ l ++ [e]) /\
  exists now row', (cron_now (w_calls w) <= now)%Z /\ the_job (job_id job) w' = Some row' /\
    recorded result row row' /\ planned me job at_ms now row' (w_timers w' !! (me, job_id job)).
Proof.
  intros Hw Hrow Hnone Hrec. unfold after_settling. cbv zeta.
  destruct (Hrec w Hw Hrow) as (Hc & Hruns & Htimers & Hevents & row1 & Hrow1 & Hrec1).
  rewrite run_bind, (surjective_pairing (run record w)). cbv beta iota. set (w1 := snd (run record w)) in *.
  destruct (reschedule_planned me job at_ms w1 row1) as (Hc' & Hruns' & (l & Hl) & now & row2 & Hnow & Hrow2 & Hplan & Hkeep).
  - by apply (healthy_later w).
  - done.
  - by rewrite Hruns.
  - rewrite run_bind, (surjective_pairing (run (reschedule_after_execution me job at_ms) w1)). cbv beta iota.
    set (w2 := snd (run (reschedule_after_execution me job at_ms) w1)) in *. cbn.
    split; [congruence|]. split; [exists l; by rewrite Hl, Hevents, <- app_assoc|].
    exists now, row2. split; [etransitivity; [by apply clock_grows|exact Hnow]|]. split; [exact Hrow2|].
    split; [by apply Hkeep|exact Hplan].
Qed.

(** C10. When a run that its process still holds has a result other than "busy",
    the occurrence is settled with that result (its lease given up), the job's
    row says so (status, error, the count of runs, retries back to zero, the
    conversation found for it), the clients hear of it last, and the job goes
    on as its schedule says: a job for one time is disabled and has no timer,
    any other has its next run after this occurrence stored and, if there is
    one, a timer set for it.  (That no statement fails, and that the job has no
    other unfinished occurrence, is assumed.) *)
Theorem result_settles_job me job at_ms result status c e w row r :
  settlement result = Some (status, c, e) ->
  healthy w -> the_job (job_id job) w = Some row ->
  the_run (job_id job) at_ms w = Some r -> owned_by me r ->
  (forall r', In r' (w_runs w) -> CronRepo.recoverable (job_id job) r' = true -> r' = r) ->
  let w' := snd (run (handle_execution_result me job at_ms result) w) in
  the_run (job_id job) at_ms w' = Some (settled_run status c e (cron_now (w_calls w)) r) /\
  (exists l, w_events w' = w_events w ++ l ++ [CronEvent.JobExecuted (job_id job) (status_text status) e]) /\
  exists now row', (cron_now (w_calls w) <= now)%Z /\ the_job (job_id job) w' = Some row' /\
    recorded result row row' /\ planned me job at_ms now row' (w_timers w' !! (me, job_id job)).
Proof.
  intros Hres Hw Hrow Hr Hown Honly.
  assert (exists record,
    handle_execution_result me job at_ms result =
      prog_bind (finish_scheduled_run me (job_id job) at_ms status c e) (fun finished =>
        if negb finished then Ret tt
        else after_settling me job at_ms record (CronEvent.JobExecuted (job_id job) (status_text status) e)) /\
    RunStatus.is_active status = false /\
    forall w, healthy w -> the_job (job_id job) w = Some row ->
      rewrites (job_id job) w (snd (run record w)) (fun row' => recorded result row row')) as (record & -> & Hst & Hrec).
  { destruct result as [conv|n| |m]; try done; injection Hres as <- <- <-; eexists; split; try reflexivity; (split; [done|]);
      intros w0 Hw0 Hrow0.
    - destruct (success_recorded _ conv _ _ Hw0 Hrow0) as (? & ? & ? & ? & row' & ? & ? & _). repeat split; eauto.
    - destruct (skip_recorded _ _ _ Hw0 Hrow0) as (? & ? & ? & ? & row' & ? & ? & _). repeat split; eauto.
    - destruct (error_recorded _ m _ _ Hw0 Hrow0) as (? & ? & ? & ? & row' & ? & ? & _). repeat split; eauto. }
  cbv zeta. rewrite run_bind, (run_finish _ _ _ _ _ _ _ r) by done. cbv beta iota. cbn [negb].
  set (w1 := settled_world _ _ _ _ _ _ w).
  destruct (run_after_settling me job at_ms record (CronEvent.JobExecuted (job_id job) (status_text status) e) result w1 row)
    as (Hruns & Hev & now & row' & Hnow & Hrest).
  - by apply (healthy_later w); [|cbn; lia].
  - done.
  - by apply (settled_no_recoverable _ _ _ _ _ _ _ r).
  - done.
  - split.
    + unfold the_run. rewrite Hruns. by apply settled_the_run.
    + split; [exact Hev|]. exists now, row'. split; [|exact Hrest].
      etransitivity; [|exact Hnow]. apply clock_grows. cbn. lia.
Qed.
End Outcome.

(** ** A process starts *)
Section Start.
Context `{CronLib, CronDb, CronHost, !CronDbOk}.
Variable me : string.

Lemma run_each_cons {A} (f : A -> Prog CronWorld unit) a l w :
  snd (run (each f (a :: l)) w) = snd (run (each f l) (snd (run (f a) w))).
Proof. simpl. rewrite run_bind. by destruct (run (f a) w). Qed.

(** Only its own timer changes when a job is taken up. *)
Lemma init_job_timers now row w :
  (forall k, k <> (me, cj_id row) -> w_timers (snd (run (init_job me now row) w)) !! k = w_timers w !! k) /\
  (forall job, cron_job_from_row row = Ok job -> cj_enabled row = true -> is_Some (cj_next_run_at row) ->
    is_Some (w_timers (snd (run (init_job me now row) w)) !! (me, cj_id row))).
Proof.
  unfold init_job. destruct (cron_job_from_row row) as [job|e] eqn:Ejob; [|by split].
  assert (job_id job = cj_id row /\ job_enabled job = cj_enabled row /\ job_next_run_at job = cj_next_run_at row)
    as (Hid & Hen & Hnext).
  { unfold cron_job_from_row in Ejob. destruct (parse_schedule _ _ _ _); [|done]. cbn in Ejob.
    destruct (ExecutionMode.from_str _); [|done]. cbn in Ejob. destruct (CreatedBy.from_str _); [|done]. cbn in Ejob.
    destruct (transpose read_config _); [|done]. cbn in Ejob. destruct (transpose JobStatus.from_str _); [|done].
    cbn in Ejob. by injection Ejob as <-. }
  rewrite run_bind. unfold CronRepo.get_recoverable_run, CronRepo.sql, atomic. cbn [run].
  set (w1 := set_calls _ w). set (o := match sort_by _ _ with [] => None | _ => _ end).
  assert (forall r, (forall k, k <> (me, cj_id row) ->
      w_timers (snd (run (match r with
        | Ok (Some run) => schedule_retry me (job_id job) (rec_scheduled_at run) (rec_wake_at run)
        | _ => schedule_job me job end) w1)) !! k = w_timers w1 !! k) /\
    (cj_enabled row = true -> is_Some (cj_next_run_at row) -> is_Some (w_timers (snd (run (match r : Result (option RecoverableCronRun) DbError.t with
        | Ok (Some run) => schedule_retry me (job_id job) (rec_scheduled_at run) (rec_wake_at run)
        | _ => schedule_job me job end) w1)) !! (me, cj_id row)))) as Hboth.
  { assert ((forall k, k <> (me, cj_id row) -> w_timers (snd (run (schedule_job me job) w1)) !! k = w_timers w1 !! k) /\
      (cj_enabled row = true -> is_Some (cj_next_run_at row) ->
        is_Some (w_timers (snd (run (schedule_job me job) w1)) !! (me, cj_id row)))) as Hplan.
    { cbn. unfold plan. rewrite Hid, Hen, Hnext. split.
      - intros k Hk. destruct (cj_enabled row); [destruct (cj_next_run_at row)|]; cbn;
          rewrite ?lookup_insert_ne, ?lookup_delete_ne by done; done.
      - intros -> [t ->]. cbn. rewrite lookup_insert_eq. by eexists. }
    intros [[run|]|e]; [|exact Hplan|exact Hplan]. cbn. rewrite Hid. split.
    - intros k Hk. by rewrite lookup_insert_ne by done.
    - intros _ _. rewrite lookup_insert_eq. by eexists. }
  destruct (cron_fails _); cbv beta iota.
  - destruct (Hboth (Err (DbError.Query "statement failed"))) as [Hoth Hits]. split; [exact Hoth|]. intros job' _. exact Hits.
  - destruct (Hboth (Ok o)) as [Hoth Hits]. split; [exact Hoth|]. intros job' _. exact Hits.
Qed.

Lemma init_rows_timers now rows w :
  NoDup (map cj_id rows) ->
  (forall k, ~ In k (map (fun r => (me, cj_id r)) rows) -> w_timers (snd (run (each (init_job me now) rows) w)) !! k = w_timers w !! k) /\
  forall row job, In row rows -> cron_job_from_row row = Ok job -> cj_enabled row = true -> is_Some (cj_next_run_at row) ->
    is_Some (w_timers (snd (run (each (init_job me now) rows) w)) !! (me, cj_id row)).
Proof.
  revert w. induction rows as [|r rows IH]; intros w Hnd; [by split|]. apply NoDup_cons in Hnd as [Hr Hnd].
  rewrite run_each_cons. destruct (init_job_timers now r w) as [Hother Hown].
  destruct (IH (snd (run (init_job me now r) w)) Hnd) as [IHother IHown]. split.
  - intros k Hk. simpl in Hk. rewrite IHother by tauto. apply Hother. intros ->. apply Hk. by left.
  - intros row job [<-|Hin] Hjob Hen Hnext.
    + rewrite IHother; [by apply (Hown job)|]. intros Hin. apply in_map_iff in Hin as (r' & [= E] & Hin).
      apply Hr. rewrite <- E. apply list_elem_of_In. by apply in_map.
    + by apply (IHown row job).
Qed.

(** C12. After a start that could list the jobs, every enabled job whose row can
    be read and which has a next run has a timer on the process, even when the
    clean-up or the look at its unfinished occurrences fails; timers of other
    processes stay. *)
Theorem started_jobs_have_timers w :
  cron_fails (N.succ (N.succ (w_calls w))) = false ->
  NoDup (map cj_id (w_jobs w)) ->
  let w' := snd (run (init me) w) in
  (forall row job, In row (w_jobs w) -> cron_job_from_row row = Ok job -> cj_enabled row = true ->
     is_Some (cj_next_run_at row) -> is_scheduled me (cj_id row) w' = true) /\
  (forall other id, other <> me -> w_timers w' !! (other, id) = w_timers w !! (other, id)).
Proof.
  intros Hlist Hnd w'. subst w'. unfold init. rewrite run_bind. cbn [run now_ms call request atomic].
  set (now := cron_now _). rewrite run_bind. set (w1 := set_asked _ _).
  assert (let w2 := snd (run (CronRepo.cleanup_runs_before (now - RUN_HISTORY_RETENTION_MS)) w1) in
    w_calls w2 = N.succ (N.succ (w_calls w)) /\ w_jobs w2 = w_jobs w /\ w_timers w2 = w_timers w) as Hclean.
  { cbv zeta. unfold CronRepo.cleanup_runs_before, CronRepo.sql, atomic. cbn [run]. destruct (cron_fails (w_calls w1)); done. }
  rewrite (surjective_pairing (run (CronRepo.cleanup_runs_before _) w1)). cbv beta iota zeta in *.
  set (w2 := snd (run _ w1)) in *. destruct Hclean as (Hc & Hj & Ht).
  rewrite run_bind. unfold CronRepo.list_enabled, CronRepo.sql, atomic. cbn [run]. rewrite Hc, Hlist. cbn [w_jobs set_calls].
  rewrite Hj. set (rows := sort_by _ _). set (w3 := set_calls _ w2).
  assert (Permutation rows (List.filter cj_enabled (w_jobs w))) as Hperm by apply sort_permutation.
  assert (NoDup (map cj_id rows)) as Hnd'.
  { eapply NoDup_Permutation_proper; [by apply Permutation_map, Hperm|].
    assert (forall l, NoDup (map cj_id l) -> NoDup (map cj_id (List.filter cj_enabled l))) as Hf; [|by apply Hf].
    clear. induction l as [|r l IH]; [done|]. simpl. intros Hn. apply NoDup_cons in Hn as [Hr Hn].
    destruct (cj_enabled r); [|by apply IH]. simpl. apply NoDup_cons. split; [|by apply IH].
    intros Hin. apply Hr. apply list_elem_of_In in Hin. apply in_map_iff in Hin as (r' & <- & Hin).
    apply filter_In in Hin as [Hin _]. apply list_elem_of_In. by apply in_map. }
  destruct (init_rows_timers now rows w3 Hnd') as [Hother Hown]. split.
  - intros row job Hin Hjob Hen Hnext. apply bool_decide_eq_true_2. apply (Hown row job); try done.
    eapply Permutation_in; [by apply Permutation_sym, Hperm|]. by apply filter_In.
  - intros other id Hne. rewrite Hother; [cbn; by rewrite Ht|]. intros Hin. apply in_map_iff in Hin as (r & [= E _] & _). done.
Qed.
End Start.

(** ** An update *)
Section Update.
Context `{CronLib, CronDb, CronHost, !CronLibOk}.
Variable me : string.

(** The columns a request sets, one row at a time. *)
Lemma set_opt {A} (f : A -> Column.t) o r :
  set_columns (opt_column f o) r = match o with Some a => Column.set (f a) r | None => r end.
Proof. by destruct o. Qed.

Definition requested_row (job : CronJob) (req : UpdateCronJobRequest) (r : CronJobRow) : CronJobRow :=
  let '(kind, value, tz, sd) := schedule_to_row_fields (job_schedule job) in
  let reschedules := match up_schedule req, up_enabled req with None, None => false | _, _ => true end in
  let scheduled {A} (new old : A) := match up_schedule req with Some _ => new | None => old end in
  mkJobRow (cj_id r) (default (cj_name r) (up_name req)) (default (cj_enabled r) (up_enabled req))
    (scheduled kind (cj_schedule_kind r)) (scheduled value (cj_schedule_value r)) (scheduled tz (cj_schedule_tz r))
    (scheduled sd (cj_schedule_description r)) (default (cj_payload_message r) (up_message req))
    (default (cj_execution_mode r) (up_execution_mode req))
    (match up_agent_config req, job_config job with
     | Some _, Some c => Some (config_to_string c)
     | _, _ => cj_agent_config r
     end)
    (cj_conversation_id r)
    (match up_conversation_title req with Some t => Some t | None => cj_conversation_title r end)
    (cj_created_by r) (cj_skill_content r)
    (match up_description req with Some d => Some d | None => cj_description r end)
    (cj_created_at r) (cj_updated_at r) (if reschedules then job_next_run_at job else cj_next_run_at r)
    (cj_last_run_at r) (cj_last_status r) (cj_last_error r) (cj_run_count r) (cj_retry_count r) (cj_max_retries r)
    (default (cj_queue_enabled r) (up_queue_enabled req)).

Lemma set_requested job req r : set_columns (build_update_params job req) r = requested_row job req r.
Proof.
  unfold build_update_params, requested_row. destruct (schedule_to_row_fields _) as [[[kind value] tz] sd].
  rewrite !set_columns_app, !set_opt.
  destruct req as [name desc enabled sched msg mode cfg title maxr queue]. cbn [up_name up_description up_enabled up_schedule
    up_message up_execution_mode up_agent_config up_conversation_title up_max_retries up_queue_enabled].
  destruct r as [id rname ren rk rv rtz rsd rp rm rc conv rt by_ rs rd rca rua rnr rlr rls rle rrc rrt rmr rq].
  assert (forall r : CronJobRow, set_columns [] r = r) as Hnil by done.
  replace (match name with Some a => _ | None => _ end) with
    (mkJobRow id (default rname name) ren rk rv rtz rsd rp rm rc conv rt by_ rs rd rca rua rnr rlr rls rle rrc rrt rmr rq)
    by (by destruct name).
  replace (match enabled with Some a => Column.set _ _ | None => _ end) with
    (mkJobRow id (default rname name) (default ren enabled) rk rv rtz rsd rp rm rc conv rt by_ rs rd rca rua rnr rlr rls rle
       rrc rrt rmr rq) by (by destruct enabled).
  destruct sched, msg, mode, cfg, (job_config job), title, desc, enabled, queue; reflexivity.
Qed.

(** *** What the row decodes to *)
Lemma decoded row j :
  cron_job_from_row row = Ok j ->
  parse_schedule (cj_schedule_kind row) (cj_schedule_value row) (cj_schedule_tz row) (cj_schedule_description row)
    = Ok (job_schedule j) /\
  ExecutionMode.from_str (cj_execution_mode row) = Ok (job_mode j) /\
  CreatedBy.from_str (cj_created_by row) = Ok (job_created_by j) /\
  transpose read_config (cj_agent_config row) = Ok (job_config j) /\
  transpose JobStatus.from_str (cj_last_status row) = Ok (job_last_status j) /\
  j = mkCronJob (cj_id row) (cj_name row) (cj_enabled row) (job_schedule j) (cj_payload_message row) (job_mode j)
        (job_config j) (cj_conversation_id row) (cj_conversation_title row) "" (job_created_by j) (cj_skill_content row)
        (cj_description row) (cj_created_at row) (cj_updated_at row) (cj_next_run_at row) (cj_last_run_at row)
        (job_last_status j) (cj_last_error row) (cj_run_count row) (cj_retry_count row) (cj_max_retries row)
        (cj_queue_enabled row).
Proof.
  unfold cron_job_from_row. destruct (parse_schedule _ _ _ _); [|done]. cbn.
  destruct (ExecutionMode.from_str _); [|done]. cbn. destruct (CreatedBy.from_str _); [|done]. cbn.
  destruct (transpose read_config _); [|done]. cbn. destruct (transpose JobStatus.from_str _); [|done]. cbn.
  by intros [= <-].
Qed.

Lemma decodes row s m c a l :
  parse_schedule (cj_schedule_kind row) (cj_schedule_value row) (cj_schedule_tz row) (cj_schedule_description row) = Ok s ->
  ExecutionMode.from_str (cj_execution_mode row) = Ok m -> CreatedBy.from_str (cj_created_by row) = Ok c ->
  transpose read_config (cj_agent_config row) = Ok a -> transpose JobStatus.from_str (cj_last_status row) = Ok l ->
  cron_job_from_row row =
    Ok (mkCronJob (cj_id row) (cj_name row) (cj_enabled row) s (cj_payload_message row) m a (cj_conversation_id row)
          (cj_conversation_title row) "" c (cj_skill_content row) (cj_description row) (cj_created_at row)
          (cj_updated_at row) (cj_next_run_at row) (cj_last_run_at row) l (cj_last_error row) (cj_run_count row)
          (cj_retry_count row) (cj_max_retries row) (cj_queue_enabled row)).
Proof. intros Hs Hm Hc Ha Hl. unfold cron_job_from_row. rewrite Hs. cbn. rewrite Hm. cbn. rewrite Hc. cbn. rewrite Ha. cbn. by rewrite Hl. Qed.

(** A job as its row keeps it: without the agent type; the limit of retries is
    the one it was stored with. *)
Definition as_stored (max_retries updated_at : Z) (j : CronJob) : CronJob :=
  mkCronJob (job_id j) (job_name j) (job_enabled j) (job_schedule j) (job_message j) (job_mode j) (job_config j)
    (job_conversation j) (job_title j) "" (job_created_by j) (job_skill j) (job_description j) (job_created_at j)
    updated_at (job_next_run_at j) (job_last_run_at j) (job_last_status j) (job_last_error j)
    (job_run_count j) (job_retry_count j) max_retries (job_queue_enabled j).

(** The parts of [update_job] between reading the job and writing its row. *)
Record Requested : Type := mkRequested {
  rq_schedule : CronSchedule.t;
  rq_mode : ExecutionMode.t;
  rq_config : option CronAgentConfig;
  rq_agent_type : string;
  rq_next_run_at : option Z;
  rq_cleared : option CronAgentConfig;
  rq_updated_at : Z;
}.

(** What those parts may be, given the job and the request. *)
Definition admissible (old : CronJob) (req : UpdateCronJobRequest) (leaves : bool) (q : Requested) : Prop :=
  requested_schedule old req = Ok (rq_schedule q) /\
  (match up_execution_mode req with
   | None => rq_mode q = job_mode old
   | Some s => parse_execution_mode (Some s) = Ok (rq_mode q)
   end) /\
  (match up_agent_config req with None => rq_config q = job_config old | Some _ => is_Some (rq_config q) end) /\
  (match up_schedule req, up_enabled req with None, None => rq_next_run_at q = job_next_run_at old | _, _ => True end) /\
  leaves = bool_decide (rq_mode q <> job_mode old) && bool_decide (rq_mode q = ExecutionMode.NewConversation).

Lemma decode_requested row old t req q leaves clear :
  cron_job_from_row row = Ok old -> admissible (with_agent_type t old) req leaves q ->
  match up_schedule req with Some s => schedule_in_range s = true | None => True end ->
  clear = leaves && negb (str_trim (cj_conversation_id row) =? "")%string ->
  up_execution_mode req = None \/ str_trim (cj_conversation_id row) <> "" ->
  let title := if leaves then None else job_title old in
  let job :=
    mkCronJob (job_id old) (default (job_name old) (up_name req)) (default (job_enabled old) (up_enabled req)) (rq_schedule q)
      (default (job_message old) (up_message req)) (rq_mode q) (match rq_cleared q with Some c => Some c | None => rq_config q end)
      (if leaves then "" else job_conversation old)
      (match up_conversation_title req with Some t => if clear then title else Some t | None => title end)
      (rq_agent_type q) (job_created_by old) (job_skill old)
      (match up_description req with Some d => Some d | None => job_description old end) (job_created_at old) (rq_updated_at q)
      (rq_next_run_at q) (job_last_run_at old) (job_last_status old) (job_last_error old) (job_run_count old)
      (job_retry_count old) (default (job_max_retries old) (up_max_retries req))
      (default (job_queue_enabled old) (up_queue_enabled req)) in
  let params :=
    build_update_params job req ++
    (if clear then [Column.ConversationId ""; Column.ConversationTitle None] else []) ++
    (match rq_cleared q with Some c => [Column.AgentConfig (Some (config_to_string c))] | None => [] end) in
  forall now, cron_job_from_row (set_columns (params ++ [Column.UpdatedAt now]) row) = Ok (as_stored (cj_max_retries row) now job).
Proof.
  intros Hold (Hsched & Hmode & Hcfg & Hnext & Hleaves) Hrange Hclear Hconv title job params now.
  destruct (decoded _ _ Hold) as (Hps & Hpm & Hpc & Hpa & Hpl & Ej).
  assert (clear = leaves) as ->.
  { rewrite Hclear. destruct leaves; [|done]. simpl. destruct Hconv as [Hm|Hc].
    - rewrite Hm in Hmode. rewrite Hmode in Hleaves. rewrite bool_decide_eq_false_2 in Hleaves by (by intros []). done.
    - by apply negb_true_iff, String.eqb_neq. }
  set (row1 := requested_row job req row).
  assert (set_columns (params ++ [Column.UpdatedAt now]) row =
    mkJobRow (cj_id row1) (cj_name row1) (cj_enabled row1) (cj_schedule_kind row1) (cj_schedule_value row1) (cj_schedule_tz row1)
      (cj_schedule_description row1) (cj_payload_message row1) (cj_execution_mode row1)
      (match rq_cleared q with Some c => Some (config_to_string c) | None => cj_agent_config row1 end)
      (if leaves then "" else cj_conversation_id row1) (if leaves then None else cj_conversation_title row1) (cj_created_by row1)
      (cj_skill_content row1) (cj_description row1) (cj_created_at row1) now (cj_next_run_at row1) (cj_last_run_at row1)
      (cj_last_status row1) (cj_last_error row1) (cj_run_count row1) (cj_retry_count row1) (cj_max_retries row1)
      (cj_queue_enabled row1)) as ->.
  { unfold params. rewrite !set_columns_app, set_requested. fold row1. destruct row1. by destruct leaves, (rq_cleared q). }
  assert (transpose read_config (match rq_cleared q with Some c => Some (config_to_string c) | None => cj_agent_config row1 end)
    = Ok (job_config job)) as Hconfig.
  { unfold job. cbn [job_config]. destruct (rq_cleared q) as [c|]; [exact (read_row_config (Some c))|].
    unfold row1, requested_row. destruct (schedule_to_row_fields _) as [[[? ?] ?] ?]. cbn [cj_agent_config].
    unfold job. cbn [job_config]. destruct (up_agent_config req).
    - destruct Hcfg as [c' Hc]. rewrite Hc. exact (read_row_config (Some c')).
    - rewrite Hcfg. cbn [job_config with_agent_type]. exact Hpa. }
  assert (parse_schedule (cj_schedule_kind row1) (cj_schedule_value row1) (cj_schedule_tz row1) (cj_schedule_description row1)
    = Ok (rq_schedule q)) as Hschedule.
  { unfold row1, requested_row. destruct (schedule_to_row_fields _) as [[[kind value] tz] sd] eqn:Efields.
    unfold job in Efields. cbn in Efields |- *. unfold requested_schedule in Hsched.
    destruct (up_schedule req) as [dto|]; [|rewrite Hps; by injection Hsched as ->].
    apply (parse_schedule_fields (rq_schedule q)); [|done].
    destruct (validate_schedule _); [|done]. cbn in Hsched. injection Hsched as <-.
    destruct dto; try done. }
  rewrite (decodes _ (rq_schedule q) (rq_mode q) (job_created_by old) (job_config job) (job_last_status old)); cbn; try done.
  - unfold job, row1, requested_row, title, as_stored. destruct (schedule_to_row_fields _) as [[[? ?] ?] ?].
    cbn. f_equal. f_equal; try by rewrite Ej.
    + destruct leaves; [by destruct (up_conversation_title req)|]. destruct (up_conversation_title req); [done|by rewrite Ej].
    + destruct (up_schedule req), (up_enabled req); try done. rewrite Hnext. by rewrite Ej.
  - unfold row1, requested_row. destruct (schedule_to_row_fields _) as [[[? ?] ?] ?]. cbn.
    destruct (up_execution_mode req) as [md|]; cbn; [|by rewrite Hpm, Hmode].
    unfold parse_execution_mode in Hmode. destruct (String.eqb_spec md "existing") as [Emd|]; [|done]. rewrite Emd. exact Hmode.
  - unfold row1, requested_row. destruct (schedule_to_row_fields _) as [[[? ?] ?] ?]. cbn. exact Hpc.
  - unfold row1, requested_row. destruct (schedule_to_row_fields _) as [[[? ?] ?] ?]. cbn. exact Hpl.
Qed.

(** *** The call *)
Lemma run_do {A B} (p : Prog CronWorld A) (f : A -> Prog CronWorld B) w b w' :
  run (prog_bind p f) w = (b, w') -> exists a w1, run p w = (a, w1) /\ run (f a) w1 = (b, w').
Proof. rewrite run_bind. destruct (run p w) as [a w1]. intros Hf. by exists a, w1. Qed.

Lemma run_aside {A} (p : Prog CronWorld A) w a w' : quiet aside p -> run p w = (a, w') -> aside w w'.
Proof. intros Hp Hrun. pose proof (aside_run p w Hp) as Ha. by rewrite Hrun in Ha. Qed.

Lemma run_load_job id w j w1 :
  run (load_job id) w = (Ok j, w1) ->
  aside w w1 /\ exists row j0 t, the_job id w = Some row /\ cron_job_from_row row = Ok j0 /\ j = with_agent_type t j0.
Proof.
  intros Hrun. split; [eapply run_aside; [|exact Hrun]; quietly|].
  unfold load_job in Hrun. apply run_try_ok in Hrun as (row & w2 & Hget & Hrun).
  apply run_try_ok in Hrun as (j0 & w3 & Hrow & Hrun). cbn in Hrow. injection Hrow as Hrow <-.
  apply run_try_ok in Hrun as (t & w4 & _ & Hrun). cbn in Hrun. injection Hrun as <- <-.
  exists row, j0, t. split; [|done].
  unfold ok_or_not_found in Hget. apply run_try_ok in Hget as (o & w5 & Hget & Ho).
  cbn in Ho. destruct o as [row'|]; [|done]. injection Ho as -> <-.
  cbn in Hget. destruct (cron_fails _); [done|]. cbn in Hget. by injection Hget as Hget _.
Qed.

Lemma run_requested_mode old req w m w1 :
  run (requested_mode old req) w = (Ok m, w1) ->
  aside w w1 /\
  match up_execution_mode req with
  | None => m = job_mode old
  | Some s => parse_execution_mode (Some s) = Ok m
  end.
Proof.
  intros Hrun. split; [eapply run_aside; [|exact Hrun]; quietly|].
  unfold requested_mode in Hrun. destruct (up_execution_mode req) as [s|]; [|cbn in Hrun; by injection Hrun as -> _].
  apply run_try_ok in Hrun as (m' & w2 & Hm & Hrun). cbn in Hm. injection Hm as Hm <-.
  destruct (bool_decide (m' = job_mode old)); [cbn in Hrun; by injection Hrun as -> _|].
  apply run_try_ok in Hrun as (team & w3 & _ & Hrun). cbn in Hrun. destruct team; [done|]. by injection Hrun as -> _.
Qed.

Lemma run_requested_config old m req w t c w1 :
  run (requested_config old m req) w = (Ok (t, c), w1) ->
  aside w w1 /\ match up_agent_config req with None => c = job_config old | Some _ => is_Some c end.
Proof.
  intros Hrun. split; [eapply run_aside; [|exact Hrun]; quietly|].
  unfold requested_config in Hrun. destruct (up_agent_config req) as [dto|]; [|cbn in Hrun; by injection Hrun as _ -> _].
  destruct (_ || _); [done|].
  apply run_try_ok in Hrun as (t' & w2 & _ & Hrun). apply run_try_ok in Hrun as (u & w3 & _ & Hrun).
  apply run_try_ok in Hrun as (config & w4 & _ & Hrun). cbn in Hrun. injection Hrun as _ <- _. by eexists.
Qed.

Lemma run_requested_next old schedule req w n w1 :
  run (requested_next_run old schedule req) w = (n, w1) ->
  aside w w1 /\ match up_schedule req, up_enabled req with None, None => n = job_next_run_at old | _, _ => True end.
Proof.
  intros Hrun. split; [eapply run_aside; [|exact Hrun]; quietly|].
  unfold requested_next_run in Hrun. destruct (up_schedule req), (up_enabled req); try done. cbn in Hrun. by injection Hrun as -> _.
Qed.

Lemma run_db_update id params w w1 row :
  run (db (CronRepo.update id params)) w = (Ok tt, w1) -> the_job id w = Some row ->
  exists row', the_job id w1 = Some row' /\
    (params = [] /\ row' = row \/ exists now, row' = set_columns (params ++ [Column.UpdatedAt now]) row).
Proof.
  intros Hrun Hrow. unfold db in Hrun. rewrite run_map_err in Hrun. destruct params as [|c params].
  - cbn in Hrun. injection Hrun as <-. exists row. split; [done|]. by left.
  - unfold CronRepo.update, CronRepo.sql, atomic in Hrun. cbn [run] in Hrun. destruct (cron_fails _); [done|].
    cbn [w_jobs set_calls] in Hrun. rewrite (find_existsb _ _ _ Hrow) in Hrun. injection Hrun as <-.
    eexists. split; [exact (updated_job id (c :: params) w row Hrow)|]. right. by eexists.
Qed.

Lemma the_job_aside id w w1 : aside w w1 -> the_job id w1 = the_job id w.
Proof. intros (_ & Hj & _). unfold the_job. by rewrite Hj. Qed.

Lemma plan_the_job id job now n w l :
  the_job id (set_events l (plan me job now (set_calls n w))) = the_job id w.
Proof. unfold plan, the_job. destruct (job_enabled job); [destruct (job_next_run_at job)|]; done. Qed.

(** C16. What a successful update tells the client is what the store holds: the
    job's row reads back as the job that was returned.  Two things differ:
    the agent type, which rows do not keep, and the limit of retries, which
    stays what it was whatever the request says; the time of the update is the
    statement's.  (The requested schedule fits an i64; a request that moves the
    job to conversations of its own finds it bound to one.) *)
Theorem update_stores_what_it_returns id req w job w' row :
  run (update_job me id req) w = (Ok job, w') ->
  the_job id w = Some row ->
  match up_schedule req with Some s => schedule_in_range s = true | None => True end ->
  up_execution_mode req = None \/ str_trim (cj_conversation_id row) <> "" ->
  exists row' now, the_job id w' = Some row' /\
    cron_job_from_row row' = Ok (as_stored (cj_max_retries row) now job).
Proof.
  intros Hrun Hrow Hrange Hconv. unfold update_job in Hrun.
  apply run_try_ok in Hrun as (old & w1 & Hload & Hrun). apply run_load_job in Hload as (Ha1 & row0 & j0 & t & Hrow0 & Hj0 & ->).
  rewrite Hrow in Hrow0. injection Hrow0 as <-.
  apply run_try_ok in Hrun as (schedule & w2 & Hsched & Hrun). cbn in Hsched. injection Hsched as Hsched <-.
  apply run_try_ok in Hrun as (mode & w3 & Hmode & Hrun). apply run_requested_mode in Hmode as [Ha3 Hmode].
  cbv zeta in Hrun. set (leaves := bool_decide _ && bool_decide _) in Hrun.
  apply run_try_ok in Hrun as ([agent_type config] & w4 & Hcfg & Hrun). apply run_requested_config in Hcfg as [Ha4 Hcfg].
  apply run_do in Hrun as (next & w5 & Hnext & Hrun). apply run_requested_next in Hnext as [Ha5 Hnext].
  apply run_do in Hrun as (cleared & w6 & Hcleared & Hrun). apply run_aside in Hcleared; [|quietly].
  apply run_do in Hrun as (updated_at & w7 & Hnow & Hrun). apply run_aside in Hnow; [|quietly].
  apply run_try_ok in Hrun as (u & w8 & Hvalid & Hrun). apply run_aside in Hvalid; [|quietly].
  apply run_try_ok in Hrun as ([] & w9 & Hupdate & Hrun).
  assert (the_job id w8 = Some row) as Hrow8.
  { rewrite (the_job_aside id w7), (the_job_aside id w6), (the_job_aside id w5), (the_job_aside id w4),
      (the_job_aside id w3), (the_job_aside id w1), (the_job_aside id w) by done. exact Hrow. }
  destruct (run_db_update _ _ _ _ _ Hupdate Hrow8) as (row' & Hrow' & Hcols).
  apply run_do in Hrun as (u1 & w10 & Hunbind & Hrun). apply run_aside in Hunbind; [|quietly].
  apply run_do in Hrun as (u2 & w11 & Hbind & Hrun). apply run_aside in Hbind; [|quietly].
  apply run_do in Hrun as (u3 & w12 & Hplan & Hrun). apply run_do in Hrun as (u4 & w13 & Hemit & Hrun).
  cbn in Hrun. injection Hrun as <- <-.
  assert (the_job id w13 = Some row') as Hfinal.
  { cbn in Hemit. injection Hemit as <- <-. unfold reschedule_job, schedule_job, atomic in Hplan. cbn [run] in Hplan.
    injection Hplan as <- <-. rewrite <- Hrow', <- (the_job_aside id w9 w10), <- (the_job_aside id w10 w11) by done.
    apply plan_the_job. }
  pose proof (decode_requested row j0 t req (mkRequested schedule mode config agent_type next cleared updated_at) leaves
    (leaves && negb (str_trim (cj_conversation_id row) =? "")%string) Hj0) as Hdec. cbn zeta in Hdec.
  destruct (decoded _ _ Hj0) as (_ & _ & _ & _ & _ & Ej).
  assert (job_conversation j0 = cj_conversation_id row) as Ec by (rewrite Ej; done).
  cbn [job_conversation with_agent_type job_mode rq_schedule rq_mode rq_config rq_agent_type rq_next_run_at rq_cleared
    rq_updated_at] in *. rewrite Ec in *.
  specialize (Hdec ltac:(done) Hrange eq_refl Hconv).
  exists row'. destruct Hcols as [[Hnil ->]|[now ->]].
  - exists (cj_updated_at row). split; [exact Hfinal|].
    etransitivity; [|exact (Hdec (cj_updated_at row))]. f_equal.
    match goal with |- row = set_columns (?p ++ _) row => change (p = []) in Hnil; rewrite Hnil end. by destruct row.
  - exists now. split; [exact Hfinal|]. exact (Hdec now).
Qed.
End Update.
