(* ===== verification/CronCreate.v ===== *)
(** * Scheduled jobs: a job that an agent makes

    [failed_create_leaves_no_job]: a job that could not be tied to the
    conversation of the agent is taken back. *)

From S2P Require Import Prelude WorkModel Interleave SerdeJson CronTypes CronStore CronSkill CronExecutor CronAgents CronService CronQuiet CronOutcome.
Import JobExecutor CronScheduler CronAgents CronService.

Section Create.
Context `{CronLib, CronDb, CronHost}.

Lemma run_try_err {A B E} (p : Prog CronWorld (Result A E)) (f : A -> Prog CronWorld (Result B E)) w e w' :
  run (try_bind p f) w = (Err e, w') ->
  run p w = (Err e, w') \/ exists a w1, run p w = (Ok a, w1) /\ run (f a) w1 = (Err e, w').
Proof. rewrite run_try. destruct (run p w) as [[a|e'] w1]; [right; by exists a, w1|]. intros [= -> ->]. by left. Qed.

(** Jobs and timers are as they were. *)
Definition unmade (w w' : CronWorld) : Prop :=
  (w_calls w <= w_calls w')%N /\ w_jobs w' = w_jobs w /\ w_timers w' = w_timers w.
#[local] Instance unmade_sees : Sees (fun p => match p with PJobs | PTimers => true | _ => false end) unmade.
Proof.
  split; [split; [by intros w|]; intros w1 w2 w3 (? & ? & ?) (? & ? & ?); split; [lia|]; split; congruence|].
  intros w w' Hc Hs. split; [done|]. split; [by apply (Hs PJobs)|by apply (Hs PTimers)].
Qed.

Lemma run_unmade {A} (p : Prog CronWorld A) w a w' : quiet unmade p -> run p w = (a, w') -> unmade w w'.
Proof.
  intros Hp Hrun. pose proof (run_ensures unmade p (fun _ _ => True) w (Hp w)) as [_ Hu]. by rewrite Hrun in Hu.
Qed.

(** The job exists and, under the same id, its timer. *)
Definition made (start : N) (me : string) (j : CronJob) (w w' : CronWorld) : Prop :=
  (w_calls w <= w_calls w')%N /\
  (exists n, (start <= n)%N /\ job_id j = cron_id "cron" n) /\
  (exists row, cj_id row = job_id j /\ w_jobs w' = w_jobs w ++ [row]) /\
  delete (me, job_id j) (w_timers w') = delete (me, job_id j) (w_timers w).

Lemma plan_made me j now w :
  w_calls (plan me j now w) = w_calls w /\ w_jobs (plan me j now w) = w_jobs w /\
  delete (me, job_id j) (w_timers (plan me j now w)) = delete (me, job_id j) (w_timers w).
Proof.
  unfold plan. destruct (job_enabled j); [destruct (job_next_run_at j)|]; repeat split; simpl;
    by rewrite ?delete_insert_eq, ?delete_delete_eq.
Qed.

Definition adds (start : N) (me : string) (w : CronWorld) (r : Result CronJob CronError.t) (w' : CronWorld) : Prop :=
  match r with Ok j => made start me j w w' | Err _ => unmade w w' end.

(** From the row on: what [add_job_internal] does with the job it has built. *)
Lemma run_insert_and_plan start me j w r w' :
  healthy w -> (exists n, (start <= n)%N /\ job_id j = cron_id "cron" n) ->
  run (let! _ := db (CronRepo.insert (cron_job_to_row j)) in
       do _ := bind_existing_conversation_if_needed j in
       do _ := schedule_job me j in
       do _ := emit (CronEvent.JobCreated j) in
       Ret (Ok j))%tj w = (r, w') ->
  adds start me w r w'.
Proof.
  intros Hw Hid Hrun. rewrite run_try in Hrun. unfold db in Hrun. rewrite run_map_err in Hrun.
  unfold CronRepo.insert, CronRepo.sql, atomic in Hrun. cbn [run] in Hrun. rewrite Hw in Hrun by lia.
  destruct (existsb _ _).
  { injection Hrun as <- <-. split; [simpl; lia|done]. }
  apply run_do in Hrun as (u1 & w1 & Hb & Hrun). apply run_aside in Hb as (Hc1 & Hj1 & _ & Ht1 & _); [|quietly].
  apply run_do in Hrun as (u2 & w2 & Hsch & Hrun). apply run_do in Hrun as (u3 & w3 & Hev & Hrun).
  cbn in Hrun, Hev, Hsch. injection Hrun as <- <-. injection Hev as <- <-. injection Hsch as <- <-.
  simpl in Hc1, Hj1, Ht1.
  destruct (plan_made me j (cron_now (w_calls w1)) (set_calls (N.succ (w_calls w1)) w1)) as (Hpc & Hpj & Hpt).
  split; [simpl; rewrite Hpc; simpl; lia|]. split; [exact Hid|]. split.
  - exists (cron_job_to_row j). split; [unfold cron_job_to_row; by destruct (schedule_to_row_fields _) as [[[? ?] ?] ?]|].
    simpl. by rewrite Hpj.
  - simpl. rewrite Hpt. simpl. by rewrite Ht1.
Qed.

Lemma unmade_then_made start me j w w1 w' : unmade w w1 -> made start me j w1 w' -> made start me j w w'.
Proof.
  intros (Hc & Hj & Ht) (Hc' & Hid & (row & Hrow & Hj') & Ht'). split; [lia|]. split; [done|]. split; [exists row; split; [done|congruence]|congruence].
Qed.

Lemma adds_later start me w w1 r w' : unmade w w1 -> adds start me w1 r w' -> adds start me w r w'.
Proof. destruct r as [j|e]; simpl; intros Hu Ha; [by eapply unmade_then_made|by transitivity w1]. Qed.

Lemma adds_try {A} start me (p : Prog CronWorld (Result A CronError.t)) f w r w' :
  quiet unmade p -> (forall a w1, (w_calls w <= w_calls w1)%N -> run (f a) w1 = (r, w') -> adds start me w1 r w') ->
  run (try_bind p f) w = (r, w') -> adds start me w r w'.
Proof.
  intros Hp Hf Hrun. rewrite run_try in Hrun. destruct (run p w) as [[a|e] w1] eqn:Ep; apply run_unmade in Ep; try done.
  - eapply adds_later; [exact Ep|]. apply (Hf a w1); [apply Ep|done].
  - by injection Hrun as <- <-.
Qed.

Lemma adds_do {A} start me (p : Prog CronWorld A) f w r w' :
  quiet unmade p -> (forall a w1, (w_calls w <= w_calls w1)%N -> run (f a) w1 = (r, w') -> adds start me w1 r w') ->
  run (prog_bind p f) w = (r, w') -> adds start me w r w'.
Proof.
  intros Hp Hf Hrun. rewrite run_bind in Hrun. destruct (run p w) as [a w1] eqn:Ep. apply run_unmade in Ep; [|done].
  eapply adds_later; [exact Ep|]. apply (Hf a w1); [apply Ep|done].
Qed.

Lemma run_add me req t w r w' :
  healthy w -> run (add_job_internal me req t) w = (r, w') -> adds (w_calls w) me w r w'.
Proof.
  intros Hw. unfold add_job_internal. cbv zeta.
  apply adds_try; [quietly|]. intros _ w1 Hc1. apply adds_try; [quietly|]. intros ty w2 Hc2.
  apply adds_try; [quietly|]. intros _ w3 Hc3. apply adds_try; [quietly|]. intros mode w4 Hc4.
  apply adds_try; [quietly|]. intros by_ w5 Hc5. apply adds_try; [quietly|]. intros cfg w6 Hc6.
  apply adds_do; [quietly|]. intros now w7 Hc7. intros Hrun. rewrite run_bind, run_call in Hrun. cbv beta iota in Hrun.
  eapply adds_later; [apply (calls w7 (N.succ (w_calls w7))); lia|].
  revert Hrun. apply adds_try; [quietly|]. intros _ w8 Hc8 Hrun. simpl in Hc8.
  refine (run_insert_and_plan (w_calls w) me _ w8 r w' _ _ Hrun); [apply (healthy_later w); [done|lia]|].
  exists (w_calls w7). split; [lia|done].
Qed.

Lemma filter_unmatched {A} (p : A -> bool) l : List.find p l = None -> List.filter (fun a => negb (p a)) l = l.
Proof. induction l as [|a l IH]; [done|]. simpl. destruct (p a); [done|]. intros Hl. simpl. by rewrite IH. Qed.

Lemma run_remove me id w :
  healthy w -> existsb (CronRepo.is_job id) (w_jobs w) = true ->
  let w' := snd (run (remove_job me id) w) in
  w_jobs w' = List.filter (fun r => negb (CronRepo.is_job id r)) (w_jobs w) /\ w_timers w' = delete (me, id) (w_timers w).
Proof.
  intros Hw Hex. unfold remove_job. rewrite run_bind. cbn [run cancel_job atomic]. rewrite run_bind.
  set (w1 := cancel me id w). destruct (run (logged _) w1) as [u w2] eqn:E2.
  apply run_unmade in E2 as (Hc2 & Hj2 & Ht2); [|quietly]. rewrite run_try. unfold db. rewrite run_map_err.
  unfold CronRepo.delete, CronRepo.sql, atomic. cbn [run]. rewrite Hw by (simpl in Hc2; lia).
  cbn [w_jobs set_calls]. rewrite Hj2. subst w1. cbn [w_jobs cancel set_timers]. rewrite Hex. simpl.
  by rewrite Ht2.
Qed.

Lemma run_failed_binding me j start w w1 w2 :
  healthy w2 -> made start me j w w1 -> unmade w1 w2 ->
  the_job (job_id j) w = None -> w_timers w !! (me, job_id j) = None ->
  let w' := snd (run (logged (remove_job me (job_id j))) w2) in
  w_jobs w' = w_jobs w /\ w_timers w' = w_timers w.
Proof.
  intros Hw2 (_ & _ & (row & Hrow & Hj1) & Ht1) (_ & Hj2 & Ht2) Hjob Htimer. cbv zeta. rewrite logged_run.
  destruct (run_remove me (job_id j) w2 Hw2) as [Hj Ht].
  { rewrite Hj2, Hj1, existsb_app. simpl. unfold CronRepo.is_job at 2. rewrite Hrow, String.eqb_refl. by rewrite orb_true_r. }
  rewrite Hj, Ht, Hj2, Hj1, Ht2, Ht1. split; [|by apply delete_id].
  rewrite List.filter_app. simpl. unfold CronRepo.is_job at 2. rewrite Hrow, String.eqb_refl. simpl. rewrite app_nil_r.
  by apply filter_unmatched.
Qed.

(** C20. A job that an agent asks for in its conversation, and that cannot be
    tied to the conversation, is taken back: when the request is answered with
    an error and no statement failed, the store has the jobs it had and the
    process the timers it had, at whichever point it went wrong. *)
Theorem failed_create_leaves_no_job me user_id conversation_id name schedule description message w e w' :
  healthy w ->
  (forall n, (w_calls w <= n)%N -> the_job (cron_id "cron" n) w = None /\ w_timers w !! (me, cron_id "cron" n) = None) ->
  run (create_for_conversation_helper me user_id conversation_id name schedule description message) w = (Err e, w') ->
  w_jobs w' = w_jobs w /\ w_timers w' = w_timers w.
Proof.
  intros Hw Hnew Hrun. unfold create_for_conversation_helper in Hrun.
  assert (forall w0, unmade w w0 -> w_jobs w0 = w_jobs w /\ w_timers w0 = w_timers w) as Hdone by (by intros w0 (_ & ? & ?)).
  apply run_try_err in Hrun as [Hrun|(row & w1 & K1 & Hrun)]; [apply Hdone; eapply run_unmade; [|exact Hrun]; quietly|].
  apply run_unmade in K1 as U1; [|quietly]. clear K1.
  apply run_do in Hrun as (sch & w2 & K2 & Hrun). apply run_unmade in K2 as U2; [|quietly]. clear K2.
  apply run_do in Hrun as ([[t cfg] o] & w3 & K3 & Hrun). apply run_unmade in K3 as U3; [|quietly]. clear K3.
  assert (unmade w w3) as U by (etransitivity; [exact U1|]; by etransitivity). clear U1 U2 U3 w1 w2.
  assert (healthy w3) as Hw3 by (apply (healthy_later w); [done|apply U]).
  apply run_try_err in Hrun as [Hrun|(j & w4 & K4 & Hrun)].
  { apply run_add in Hrun; [|done]. apply Hdone. etransitivity; [exact U|exact Hrun]. }
  apply run_add in K4 as M; [|done]. simpl in M. apply (unmade_then_made _ _ _ w) in M; [|done].
  apply run_do in Hrun as (bound & w5 & K5 & Hrun). apply run_unmade in K5 as U5; [|quietly].
  destruct bound as [u|e']; [done|]. apply run_do in Hrun as (u & w6 & K6 & Hrun). cbn in Hrun. injection Hrun as _ <-.
  pose proof M as (Hc4 & (n & Hn & Hid) & _). destruct (Hnew n) as [Hjob Htimer]; [destruct U; lia|].
  rewrite <- Hid in Hjob, Htimer.
  pose proof (run_failed_binding me j (w_calls w3) w w4 w5) as Hlast. rewrite K6 in Hlast. apply Hlast; try done.
  apply (healthy_later w); [done|]. destruct U5. lia.
Qed.
End Create.
