(* ===== verification/CronSkillFiles.v ===== *)
(** * Scheduled jobs: the files of saved skills

    [skill_files_stay_valid]: whatever the processes do at the same time, and
    whatever fails on the way, the file of a skill is a skill. *)

From S2P Require Import Prelude WorkModel Interleave TurnEvents SerdeJson CronTypes CronStore CronSkill CronExecutor CronAgents CronService CronQuiet CronCalls.
Import JobExecutor CronScheduler CronAgents CronService.

Section Files.
Context `{CronLib, CronDb, CronHost, !CronDbOk}.

(** ** Names *)
Definition skill_dir (dir : string) : Prop := exists job_id, cron_skill_dir job_id = Ok dir.

Lemma temp_not_skill n : SkillFile.temp_name n <> SKILL_FILE_NAME.
Proof. by unfold SkillFile.temp_name. Qed.
Lemma temp_name_inj m n : SkillFile.temp_name m = SkillFile.temp_name n -> m = n.
Proof. unfold SkillFile.temp_name. intros E. injection E as E. by apply nonce_is_new. Qed.

(** ** What holds of the files, and what the processes leave alone *)
Definition valid_skill (content : string) : Prop := is_ok (validate_skill_content content) = true.

Definition files_ok (w : CronWorld) : Prop :=
  forall dir name content, skill_dir dir -> w_files w !! (dir, name) = Some content ->
    (name = SKILL_FILE_NAME -> valid_skill content) /\
    (forall m, name = SkillFile.temp_name m -> (m < w_calls w)%N).

Definition keeps_skills (w w' : CronWorld) : Prop :=
  (w_calls w <= w_calls w')%N /\
  (files_ok w -> files_ok w') /\
  forall m dir, skill_dir dir -> (m < w_calls w)%N ->
    w_files w' !! (dir, SkillFile.temp_name m) = w_files w !! (dir, SkillFile.temp_name m) \/
    w_files w' !! (dir, SkillFile.temp_name m) = None.

#[export] Instance keeps_skills_preorder : PreOrder keeps_skills.
Proof.
  split.
  - intros w. split; [lia|]. split; [done|]. intros m dir _ _. by left.
  - intros w1 w2 w3 (Hc1 & Hok1 & Ht1) (Hc2 & Hok2 & Ht2). split; [lia|]. split; [auto|].
    intros m dir Hd Hm. destruct (Ht2 m dir Hd) as [->|]; [lia| |by right]. by apply Ht1.
Qed.

Lemma keeps_same_files w w' : (w_calls w <= w_calls w')%N -> w_files w' = w_files w -> keeps_skills w w'.
Proof.
  intros Hc Hf. split; [done|]. rewrite Hf. split; [|intros; by left].
  intros Hok dir name content Hd Hin. rewrite Hf in Hin. destruct (Hok _ _ _ Hd Hin) as [Hv Ht]. split; [done|].
  intros m Hm. specialize (Ht m Hm). lia.
Qed.

#[export] Instance keeps_skills_sees : Sees (fun p => match p with PFiles => true | _ => false end) keeps_skills.
Proof. split; [apply _|]. intros w w' Hc Hs. apply keeps_same_files; [done|]. by apply (Hs PFiles). Qed.

(** ** File operations *)
Lemma keeps_less n w files :
  (w_calls w <= n)%N -> (forall path content, files !! path = Some content -> w_files w !! path = Some content) ->
  keeps_skills w (set_files files (set_calls n w)).
Proof.
  intros Hn Hless. split; [done|]. split.
  - intros Hok dir name content Hd Hin. destruct (Hok dir name content Hd (Hless _ _ Hin)) as [Hv Ht]. split; [done|].
    intros m Hm. specialize (Ht m Hm). simpl. lia.
  - intros m dir _ _. simpl. destruct (files !! _) as [c|] eqn:E; [left|by right]. symmetry. by apply Hless.
Qed.

Lemma quiet_removal j : quiet keeps_skills (SkillFile.delete_skill_file j).
Proof.
  apply (quiet_try keeps_skills); [by apply (quiet_ret keeps_skills)|]. intros dir. apply (quiet_file_call keeps_skills). intros w.
  split; apply keeps_less; try lia; intros path content Hin; by apply map_lookup_filter_Some in Hin as [Hin _].
Qed.

(** A text is put where no process has written yet. *)
Lemma keeps_new_temp w dir content :
  keeps_skills w (SkillFile.put_file (dir, SkillFile.temp_name (w_calls w)) content (set_calls (N.succ (w_calls w)) w)).
Proof.
  split; [simpl; lia|]. split.
  - intros Hok dir' name content' Hd Hin. simpl in *. apply lookup_insert_Some in Hin as [[E _]|[_ Hin]].
    + apply pair_equal_spec in E as [<- <-]. split; [intros E; by apply temp_not_skill in E|]. intros m Hm%temp_name_inj. lia.
    + destruct (Hok _ _ _ Hd Hin) as [Hv Ht]. split; [done|]. intros m Hm. specialize (Ht m Hm). lia.
  - intros m dir' Hd Hm. left. simpl. apply lookup_insert_ne. intros [_ E%temp_name_inj]%pair_equal_spec. lia.
Qed.

Lemma keeps_renamed w n dir m content :
  (w_calls w <= n)%N -> valid_skill content ->
  keeps_skills w (SkillFile.put_file (dir, SKILL_FILE_NAME) content
    (set_files (delete (dir, SkillFile.temp_name m) (w_files w)) (set_calls n w))).
Proof.
  intros Hn Hvalid. split; [done|]. split.
  - intros Hok dir' name content' Hd Hin. simpl in *. apply lookup_insert_Some in Hin as [[E Ec]|[_ Hin]].
    + apply pair_equal_spec in E as [<- <-]. subst content'. split; [done|]. intros m' Hm'. by symmetry in Hm'; apply temp_not_skill in Hm'.
    + apply lookup_delete_Some in Hin as [_ Hin]. destruct (Hok _ _ _ Hd Hin) as [Hv Ht]. split; [done|].
      intros m' Hm. specialize (Ht m' Hm). lia.
  - intros m' dir' Hd Hm. simpl. rewrite lookup_insert_ne by (intros [_ E]%pair_equal_spec; symmetry in E; by apply temp_not_skill in E).
    destruct (decide ((dir, SkillFile.temp_name m) = (dir', SkillFile.temp_name m'))) as [E|E].
    + rewrite E. right. apply lookup_delete_eq.
    + left. by apply lookup_delete_ne.
Qed.

(** The temporary file is the writer's own: it stays as written, or goes with
    its directory. *)
Lemma ensures_rename w dir m :
  skill_dir dir -> (m < w_calls w)%N ->
  (forall content, w_files w !! (dir, SkillFile.temp_name m) = Some content -> valid_skill content) ->
  ensures keeps_skills (SkillFile.rename_file (dir, SkillFile.temp_name m) (dir, SKILL_FILE_NAME)) (fun _ _ => True) w.
Proof.
  intros Hd Hm Hvalid. unfold SkillFile.rename_file, SkillFile.file_call, map_err.
  apply (ensures_bind keeps_skills), (ensures_atomic keeps_skills). intros w' (Hc & _ & Htemp).
  split; [|intros w'' _; by destruct (fst _)]. cbv zeta. destruct (fs_error _); [apply keeps_same_files; simpl; [lia|done]|].
  simpl. destruct (w_files w' !! _) as [content|] eqn:E; simpl; [|apply keeps_same_files; simpl; [lia|done]].
  apply keeps_renamed; [lia|]. apply Hvalid. destruct (Htemp m dir Hd Hm) as [<-|E']; congruence.
Qed.

Lemma quiet_write j content : quiet keeps_skills (SkillFile.write_raw_skill_file j content).
Proof.
  unfold SkillFile.write_raw_skill_file. destruct (validate_skill_content content) as [v|e] eqn:Hv; [|done].
  destruct (cron_skill_dir j) as [dir|e] eqn:Hdir; [|done].
  assert (skill_dir dir) as Hd by by exists j. unfold try_bind. cbn [prog_bind].
  apply (quiet_bind keeps_skills); [apply (quiet_mkdir keeps_skills)|]. intros [u|e]; [|done].
  intros w. apply (ensures_bind keeps_skills). unfold SkillFile.write_temp, SkillFile.file_call, map_err.
  apply (ensures_bind keeps_skills), (ensures_atomic keeps_skills). intros w1 _. cbv zeta.
  destruct (fs_error _) as [err|].
  - split; [|intros w2 _; done]. simpl. destruct (fs_written _); [apply keeps_new_temp|apply keeps_same_files; simpl; [lia|done]].
  - split; [apply keeps_new_temp|]. intros w2 HR2. cbn [fst prog_bind]. intros w3 HR3.
    assert (keeps_skills (SkillFile.put_file (dir, SkillFile.temp_name (w_calls w1)) content
      (set_calls (N.succ (w_calls w1)) w1)) w3) as (Hc3 & _ & Ht3) by (etransitivity; [exact HR2|exact HR3]).
    cbn beta iota. apply (ensures_then keeps_skills); [|intros [u'|e']; done].
    apply ensures_rename; [done|simpl in Hc3; lia|]. intros c Hin.
    destruct (Ht3 (w_calls w1) dir Hd) as [E|E]; [simpl; lia| |congruence].
    rewrite Hin in E. simpl in E. rewrite lookup_insert_eq in E. injection E as ->. unfold valid_skill. by rewrite Hv.
Qed.

Lemma keeps_skills_steps me : StoreSteps (fun _ => True) me keeps_skills.
Proof.
  split; try solve [intros; quietly].
  - split; [apply _|]. intros w w' Hc Hs. apply keeps_same_files; [done|]. by apply (Hs PFiles).
  - by intros w w' [Hc _].
  - apply quiet_write.
  - apply quiet_removal.
Qed.

(** What an agent writes to its workspace, which is not where skills are. *)
Definition agent_write (p : Prog CronWorld unit) : Prop :=
  exists dir name content, ~ skill_dir dir /\ p = atomic (fun w => (tt, SkillFile.put_file (dir, name) content w)).

Lemma agent_keeps_skills p w : agent_write p -> ensures keeps_skills p (fun _ _ => True) w.
Proof.
  intros (dir & name & content & Hd & ->). apply (ensures_atomic keeps_skills). intros w' _. split; [|done].
  assert (forall dir' name', skill_dir dir' -> w_files (SkillFile.put_file (dir, name) content w') !! (dir', name') =
    w_files w' !! (dir', name')) as Hsame by
    (intros dir' name' Hd'; simpl; apply lookup_insert_ne; intros [-> _]%pair_equal_spec; done).
  split; [done|]. split; [|intros m dir' Hd' _; left; by apply Hsame].
  intros Hok dir' name' c Hd' Hin. rewrite Hsame in Hin by done. exact (Hok _ _ _ Hd' Hin).
Qed.

(** C19. The file of a saved skill is never half written: whatever the services
    of any number of processes do at the same time (saving, replacing and
    removing skills, running jobs), whatever agents write to their workspaces
    meanwhile, and whichever statements and file operations fail, a file found
    at a job's skill path passes the check that a skill must pass. *)
Theorem skill_files_stay_valid w w' ts job_id path content :
  rtc (pool_step (fun p => (exists me, service_call (fun _ => True) me p) \/ agent_write p)) (w, []) (w', ts) ->
  files_ok w ->
  cron_skill_file_path job_id = Ok path -> w_files w' !! path = Some content ->
  is_ok (validate_skill_content content) = true.
Proof.
  intros Hrun Hok Hpath Hin. unfold cron_skill_file_path in Hpath.
  destruct (cron_skill_dir job_id) as [dir|] eqn:Hdir; [|done]. injection Hpath as <-.
  destruct (pool_ensures keeps_skills (fun p => (exists me, service_call (fun _ => True) me p) \/ agent_write p)
    files_ok (fun _ _ => True) w w' ts) as (_ & Hok' & _); [by intros w1 w2 (_ & Hk & _)| |done|done|].
  - intros p w0 [[me Hcall]|Ha] _; [|by apply agent_keeps_skills]. pose proof (keeps_skills_steps me).
    apply (quiet_service (fun _ => True) me keeps_skills 0); [done|lia|done].
  - apply (Hok' dir SKILL_FILE_NAME content); [by exists job_id|done|done].
Qed.
End Files.
