(* ===== verification/CronRuns.v ===== *)
(** * Scheduled jobs: concrete runs

    An instance of everything the jobs are given, on which the theorems'
    hypotheses hold, and runs of the programs on small stores. *)

From S2P Require Import Prelude WorkModel Interleave SerdeJson CronTypes CronStore CronSkill CronExecutor CronAgents CronService.
From S2P Require Import CronRows CronQuiet CronCalls CronLease CronOutcome CronCreate CronSkillText CronSkillFiles.
Import JobExecutor CronScheduler CronService SampleJson.
From stdpp Require Import pretty countable sorting.

#[local] Instance provider_eq_dec : EqDecision ProviderWithModel.
Proof. solve_decision. Defined.
#[local] Instance provider_countable : Countable ProviderWithModel.
Proof.
  refine (inj_countable' (fun p => (pm_provider_id p, pm_model p, pm_use_model p))
    (fun '(a, b, c) => mkProviderModel a b c) _). by intros [].
Defined.
#[local] Instance config_eq_dec : EqDecision CronAgentConfig.
Proof. solve_decision. Defined.
#[local] Instance config_countable : Countable CronAgentConfig.
Proof.
  refine (inj_countable' (fun c => (ac_name c, ac_cli_path c, ac_is_preset c, ac_assistant_id c, ac_custom_agent_id c,
      (ac_mode c, ac_model_id c, ac_model c, ac_config_options c, ac_workspace c)))
    (fun '(a, b, c, d, e, (f, g, h, i, j)) => mkAgentConfig a b c d e f g h i j) _). by intros [].
Defined.

Module CronRuns.
#[local] Instance lib : CronLib := {|
  cron_parses _ := true;
  cron_error _ := "";
  tz_parses _ := true;
  cron_after _ _ now := Some (now + 60000)%Z;
  config_to_string c := digits (encode c);
  config_from_str s := match undigits s ≫= decode with Some c => Ok c | None => Err "expected value" end;
  to_lowercase s := s;
  hash_text s := s;
|}.

#[local] Instance lib_ok : CronLibOk.
Proof.
  split.
  - intros expr tz now t [= <-]. lia.
  - intros c. cbn. rewrite undigits_digits. cbn. by rewrite decode_encode.
Qed.

Definition by_key {A : Type} (key : A -> Z) (a b : A) : Prop := (key a <= key b)%Z.
#[local] Instance by_key_dec {A} (key : A -> Z) : RelDecision (by_key key).
Proof. intros a b. unfold by_key. apply _. Defined.
#[local] Instance by_key_transitive {A} (key : A -> Z) : Transitive (by_key key).
Proof. intros a b c. unfold by_key. lia. Qed.
#[local] Instance by_key_total {A} (key : A -> Z) : Total (by_key key).
Proof. intros a b. unfold by_key. lia. Qed.

(** A second passes with every call; the calls of [fails] fail. *)
Definition db_of (fails : list N) : CronDb := {|
  cron_now n := (1000 * Z.of_N n)%Z;
  cron_id prefix n := prefix +:+ "_" +:+ pretty n;
  cron_fails n := bool_decide (n ∈ fails);
  sort_by A key l := merge_sort (by_key key) l;
  fs_error _ := None;
  fs_written _ := None;
  fs_removed _ _ := false;
  fs_nonce n := pretty n;
  data_dir := "/data";
|}.

Lemma db_ok fails : @CronDbOk (db_of fails).
Proof.
  split.
  - intros m n Hmn. cbn. lia.
  - intros A key l. apply merge_sort_Permutation.
  - intros A key l. apply (StronglySorted_merge_sort (by_key key) l).
  - intros m n Hmn. by apply (inj pretty) in Hmn.
Qed.

(** Every conversation exists and those of [busy] have a turn; turns succeed. *)
#[local] Instance host (busy : list string) : CronHost := {|
  conversation_row _ id := Ok (Some (mkConversation id "user" "Chat" "acp" None ""));
  update_conversation _ _ := Ok tt;
  conversations_of_job _ _ _ := Ok [];
  conversation_claimed _ id := bool_decide (id ∈ busy);
  create_conversation n _ _ := Ok ("conv_" +:+ pretty n, "/work");
  turn_started _ _ := true;
  run_agent_turn n _ := Ok (mkOutcome ("turn_" +:+ pretty n) false None);
  latest_error _ _ := Ok None;
  save_runtime_mode _ _ _ := Ok tt;
  insert_message _ _ _ := Ok tt;
  auto_workspace _ _ := None;
  find_builtin _ _ := None;
  runtime_assistants _ := Ok [mkAssistant "helper" "Helper" "claude" "claude"];
  agent_metadata _ := Ok [mkAgentMetadata "claude" "Claude" "acp" "builtin" (Some "claude") None 0];
  assistant_snapshot _ _ := Ok None;
  local_timezone _ := Some "Asia/Shanghai";
  path_check _ _ := PathCheck.Available;
  same_path _ a b := (a =? b)%string;
  create_dir_all _ _ := Ok tt;
  under_work_dir name := "/work/conversations/" +:+ name;
  map_remove k v := v;
  model_from_str _ := None;
  json_error _ := "";
|}.

Definition config : CronAgentConfig :=
  mkAgentConfig "Claude" None None (Some "helper") None (Some "bypassPermissions") None None None (Some "/repo").

Definition job (schedule : CronSchedule.t) (next : option Z) : CronJob :=
  mkCronJob "j" "Report" true schedule "do it" ExecutionMode.Existing (Some config) "c1" None "acp" CreatedBy.User None None
    1 1 next None None None 0 0 3 false.

Definition hourly : CronSchedule.t := CronSchedule.Every 3600000 None.

Definition world (rows : list CronJobRow) (runs : list CronRunRow) : CronWorld := mkWorld rows runs [] ∅ ∅ ∅ ∅ [] [] 0.

Definition running (owner : string) (lease : Z) : CronRunRow :=
  mkRunRow "run" "j" 0 RunStatus.Running (Some owner) (Some lease) None None (Some 0%Z) None 0 0.

(** ** Schedules and rows *)
Lemma next_run_on_grid_witness :
  compute_next_run_after_occurrence hourly 1000 7300000 = Some 10801000%Z /\
  (0 < 3600000 <= i64_max)%Z /\ (7300000 < next_on_grid 1000 3600000 7300000)%Z.
Proof.
  split; [reflexivity|]. split; [vm_compute; split; [reflexivity|discriminate]|].
  exact (proj1 (proj2 (next_run_on_grid 3600000 None 1000 7300000
    ltac:(vm_compute; split; [reflexivity|discriminate]) ltac:(vm_compute; split; discriminate)
    ltac:(vm_compute; split; [discriminate|reflexivity])))).
Defined.

Lemma job_row_roundtrip_witness :
  cron_job_from_row (cron_job_to_row (job (CronSchedule.At (-9223372036854775808) None) None)) =
    Ok (with_agent_type "" (job (CronSchedule.At (-9223372036854775808) None) None)).
Proof. exact (job_row_roundtrip (job (CronSchedule.At (-9223372036854775808) None) None) eq_refl). Defined.

(** ** Occurrences among processes *)
Section Shared.
#[local] Instance db : CronDb := db_of [].
#[local] Instance db_is_ok : CronDbOk := db_ok [].
#[local] Instance idle_host : CronHost := host [].

Definition shared : CronWorld :=
  world [cron_job_to_row (job hourly (Some 0%Z))] [running "a" 100000].


Lemma held_occurrence_not_run_witness :
  w_asked (snd (run (tick "a" "j" 0) shared)) = [] /\ w_runs (snd (run (tick "a" "j" 0) shared)) = w_runs shared /\
  w_artifacts (snd (run (tick "a" "j" 0) shared)) = [] /\ w_files (snd (run (tick "a" "j" 0) shared)) = ∅.
Proof. exact (held_occurrence_not_run "a" "j" 0 shared (running "a" 100000) eq_refl (fun _ => eq_refl)). Defined.

Lemma all_healthy w : healthy w.
Proof. by intros n _. Qed.

(** Process a's run succeeds. *)
Lemma result_settles_job_witness :
  the_run "j" 0 (snd (run (handle_execution_result "a" (job hourly (Some 0%Z)) 0 (ExecutionResult.Success "c1")) shared)) =
    Some (settled_run RunStatus.Success (Some "c1") None 0 (running "a" 100000)).
Proof.
  refine (proj1 (result_settles_job "a" (job hourly (Some 0%Z)) 0 (ExecutionResult.Success "c1") RunStatus.Success (Some "c1") None
    shared (cron_job_to_row (job hourly (Some 0%Z))) (running "a" 100000) eq_refl (all_healthy _) eq_refl eq_refl _ _)).
  - by split.
  - by intros r' [<-|[]] _.
Defined.

(** The next run is an hour after the occurrence and its timer is set. *)
Example settled_job_goes_on :
  let w := snd (run (handle_execution_result "a" (job hourly (Some 0%Z)) 0 (ExecutionResult.Success "c1")) shared) in
  cj_next_run_at <$> the_job "j" w = Some (Some 3600000%Z) /\
  w_timers w !! ("a", "j") = Some (Timer.Every false 3600000 3600000 3600000).
Proof. vm_compute. done. Qed.
End Shared.

(** ** An update *)
Section Updating.
#[local] Instance update_db : CronDb := db_of [].
#[local] Instance update_host : CronHost := host [].

Definition more_retries : UpdateCronJobRequest :=
  mkUpdateJob (Some "Weekly report") None None None None None None None (Some 9%Z) None.
Definition one_job : CronWorld := world [cron_job_to_row (job hourly (Some 5%Z))] [].

Definition returned : CronJob :=
  mkCronJob "j" "Weekly report" true hourly "do it" ExecutionMode.Existing (Some config) "c1" None "acp" CreatedBy.User
    None None 1 2000 (Some 5%Z) None None None 0 0 9 false.

(** The client is told of nine retries; the store keeps three. *)
Lemma update_stores_what_it_returns_witness :
  exists row' now, the_job "j" (snd (run (update_job "a" "j" more_retries) one_job)) = Some row' /\
    cron_job_from_row row' = Ok (as_stored 3 now returned).
Proof.
  assert (fst (run (update_job "a" "j" more_retries) one_job) = Ok returned) as Hok by (vm_compute; reflexivity).
  refine (update_stores_what_it_returns "a" "j" more_retries one_job returned
    (snd (run (update_job "a" "j" more_retries) one_job)) (cron_job_to_row (job hourly (Some 5%Z))) _ _ I (or_introl eq_refl)).
  - rewrite <- Hok. apply surjective_pairing.
  - vm_compute. reflexivity.
Defined.
End Updating.

(** ** A tick that fails

    The timer of a retry is the only timer of its job.  When the statement that
    loads the job fails, the call ends, and nothing is left that would ever
    call for the job again. *)
Section Lost.
#[local] Instance lost_db : CronDb := db_of [31%N].
#[local] Instance lost_host : CronHost := host [].

Definition waiting : CronWorld :=
  mkWorld [cron_job_to_row (job hourly (Some 0%Z))]
    [mkRunRow "run" "j" 0 RunStatus.Retrying None (Some 30000%Z) None None (Some 0%Z) None 0 0]
    [] ∅ {[ ("a", "j") := Timer.Occurrence 0 30000 ]} ∅ ∅ [] [] 30.

Example failed_tick_loses_job :
  let w := snd (run (on_timer "a" "j") waiting) in
  w_timers w !! ("a", "j") = Some Timer.Finished /\ the_run "j" 0 w = the_run "j" 0 waiting /\
  cj_enabled <$> the_job "j" w = Some true.
Proof. vm_compute. done. Qed.
End Lost.

(** ** Missed while the machine was off, or asleep

    The same job, five seconds late: a process that starts runs it, one that
    wakes up does not. *)
Section Missed.
#[local] Instance missed_db : CronDb := db_of [].
#[local] Instance missed_host : CronHost := host [].

Definition late : CronWorld := mkWorld [cron_job_to_row (job hourly (Some 5000%Z))] [] [] ∅ ∅ ∅ ∅ [] [] 10.

Definition is_turn (a : Asked.t) : bool := match a with Asked.Turn _ => true | _ => false end.

Example start_runs_missed_job :
  let w := snd (run (on_timer "a" "j") (snd (run (init "a") late))) in
  length (List.filter is_turn (w_asked w)) = 1.
Proof. vm_compute. done. Qed.

Example resume_skips_missed_job :
  let w := snd (run (on_timer "a" "j") (snd (run (handle_system_resume "a") late))) in
  length (List.filter is_turn (w_asked w)) = 0 /\
  cj_last_status <$> the_job "j" w = Some (Some "missed").
Proof. vm_compute. done. Qed.
End Missed.

(** ** A start *)
Section Start.
#[local] Instance failing_db : CronDb := db_of [1%N; 3%N].
#[local] Instance failing_ok : CronDbOk := db_ok [1%N; 3%N].
#[local] Instance start_host : CronHost := host [].

(** The clean-up and the look at the runs fail. *)
Lemma started_jobs_have_timers_witness :
  is_scheduled "a" "j" (snd (run (init "a") (world [cron_job_to_row (job hourly (Some 5%Z))] []))) = true.
Proof.
  refine (proj1 (started_jobs_have_timers "a" (world [cron_job_to_row (job hourly (Some 5%Z))] []) eq_refl _)
    (cron_job_to_row (job hourly (Some 5%Z))) (with_agent_type "" (job hourly (Some 5%Z))) _ _ eq_refl _).
  - apply NoDup_singleton.
  - by left.
  - vm_compute. reflexivity.
  - by eexists.
Defined.
End Start.

(** ** Skills *)
Definition skill : string := build_skill_content "Report" "Daily report" "Check the sources." None.

Lemma skill_content_roundtrip_witness :
  parse_skill_content (build_skill_content " Report" ("Daily" +:+ newline +:+ " report") ("Check" +:+ newline) (Some "hourly")) =
    Ok (mkParsed "Report" "Daily report" "Check").
Proof.
  refine (skill_content_roundtrip " Report" ("Daily" +:+ newline +:+ " report") ("Check" +:+ newline) (Some "hourly")
    _ _ _ _ eq_refl _ eq_refl); try (by apply List.Forall_forall; vm_compute; intuition subst); try (by vm_compute).
  split; [|split; [|done]]; by apply List.Forall_forall; vm_compute; intuition subst.
Defined.

(** A line break in the name of a job ends the line of the front matter: the
    description that is read is the one in the name, or there is no skill. *)
Example name_breaks_front_matter :
  (fun p => ps_description p) <$>
    (match parse_skill_content (build_skill_content ("Report" +:+ newline +:+ "description: other") "Daily report" "Check." None)
     with Ok p => Some p | Err _ => None end) = Some "other" /\
  is_ok (parse_skill_content (build_skill_content ("Report" +:+ newline +:+ "---") "Daily report" "Check." None)) = false.
Proof. vm_compute. done. Qed.

(** A prompt that begins with a line the reader takes for the introduction. *)
Example prompt_loses_first_line :
  (fun p => ps_body p) <$>
    (match parse_skill_content (build_skill_content "Report" "Daily" ("不要提出澄清问题。" +:+ newline +:+ "Check.") None)
     with Ok p => Some p | Err _ => None end) = Some "Check.".
Proof. vm_compute. done. Qed.

Section Skills.
#[local] Instance skill_db : CronDb := db_of [].
#[local] Instance skill_db_ok : CronDbOk := db_ok [].
#[local] Instance skill_host : CronHost := host [].

Definition skill_path : FilePath := ("/data/cron/skills/cron-j", SKILL_FILE_NAME).

(** Process a saves the skill. *)
Lemma skill_files_stay_valid_witness :
  w_files (snd (run (logged (save_skill "j" skill)) one_job)) !! skill_path = Some skill /\
  is_ok (validate_skill_content skill) = true.
Proof.
  assert (w_files (snd (run (logged (save_skill "j" skill)) one_job)) !! skill_path = Some skill) as Hin by (vm_compute; reflexivity).
  split; [exact Hin|].
  refine (skill_files_stay_valid one_job (snd (run (logged (save_skill "j" skill)) one_job))
    [Ret (fst (run (logged (save_skill "j" skill)) one_job))] "j" skill_path skill
    _ _ eq_refl Hin).
  - apply (pool_run _ (logged (save_skill "j" skill)) one_job []). left. exists "a". apply call_save_skill.
  - intros dir name content _ Hnone. change (w_files one_job) with (∅ : gmap FilePath string) in Hnone. by rewrite lookup_empty in Hnone.
Defined.

(** *** Suggestions *)
Definition left_in_workspace : CronWorld :=
  set_files {[ ("/work", SKILL_SUGGEST_FILENAME) := skill ]} (world [cron_job_to_row (job hourly None)] []).

Definition suggestions (w : CronWorld) : list ArtifactStatus.t := map ar_status (w_artifacts w).
Definition check (me : string) : Prog CronWorld unit := SkillSuggestDetector.check_with_retry me "c1" "j" "/work".

(** The second check finds nothing new. *)
Example suggested_once :
  let w := snd (run (check "a") left_in_workspace) in
  suggestions w = [ArtifactStatus.Pending] /\ length (w_events w) = 1 /\
  length (w_events (snd (run (check "a") w))) = 1.
Proof. vm_compute. done. Qed.

(** What the user has dismissed is suggested again by a process that has started
    anew and remembers no hashes. *)
Example dismissed_suggestion_returns :
  let w := snd (run (check "a") left_in_workspace) in
  let w := set_artifacts (map (ArtifactRepo.with_status ArtifactStatus.Dismissed 0) (w_artifacts w)) w in
  suggestions (snd (run (check "a") w)) = [ArtifactStatus.Dismissed] /\
  suggestions (snd (run (check "b") w)) = [ArtifactStatus.Pending].
Proof. vm_compute. done. Qed.

(** The skill is saved after the check has looked for it (its first two steps):
    the suggestion is pending when both are done. *)
Example saved_suggestion_returns :
  let '(rest, w) := steps 2 (check "a") left_in_workspace in
  let w := snd (run (save_skill "j" skill) w) in
  w_files w !! skill_path = Some skill /\ suggestions (snd (run rest w)) = [ArtifactStatus.Pending].
Proof. vm_compute. done. Qed.
End Skills.

Section FailedSuggestion.
#[local] Instance unlucky_db : CronDb := db_of [3%N].
#[local] Instance unlucky_host : CronHost := host [].

(** The hash is noted before the row is written: a write that fails is not tried
    again, in this check or in a later one. *)
Example failed_suggestion_is_lost :
  let check := SkillSuggestDetector.check_with_retry "a" "c1" "j" "/work" in
  let w := snd (run check left_in_workspace) in
  suggestions w = [] /\ suggestions (snd (run check w)) = [].
Proof. vm_compute. done. Qed.
End FailedSuggestion.

Section DiskError.
(** The directory cannot be made at the second call. *)
#[local] Instance disk_db : CronDb := {|
  cron_now n := (1000 * Z.of_N n)%Z;
  cron_id prefix n := prefix +:+ "_" +:+ pretty n;
  cron_fails _ := false;
  sort_by A key l := merge_sort (by_key key) l;
  fs_error n := if (n =? 1)%N then Some "Interrupted system call" else None;
  fs_written _ := None;
  fs_removed _ _ := false;
  fs_nonce n := pretty n;
  data_dir := "/data";
|}.
#[local] Instance disk_host : CronHost := host [].

(** An error of the disk counts as a text that is no skill: the text, which is
    one, is wrapped in a second front matter. *)
Example disk_error_wraps_skill :
  let '(r, w) := run (save_skill "j" skill) one_job in
  is_ok r = true /\
  w_files w !! skill_path = Some (build_skill_content "Report" "为 Report 保存的定时任务技能" (str_trim skill) None).
Proof. vm_compute. done. Qed.
End DiskError.

(** ** A job that an agent asks for *)
Section Asking.
#[local] Instance asking_db : CronDb := db_of [].
(** The conversation can be read and not written. *)
#[local] Instance asking_host : CronHost := {|
  conversation_row _ id := Ok (Some (mkConversation id "user" "Chat" "acp" None ""));
  update_conversation _ _ := Err (DbError.Query "database is locked");
  conversations_of_job _ _ _ := Ok [];
  conversation_claimed _ id := true;
  create_conversation n _ _ := Ok ("conv_" +:+ pretty n, "/work");
  turn_started _ _ := true;
  run_agent_turn n _ := Ok (mkOutcome ("turn_" +:+ pretty n) false None);
  latest_error _ _ := Ok None;
  save_runtime_mode _ _ _ := Ok tt;
  insert_message _ _ _ := Ok tt;
  auto_workspace _ _ := None;
  find_builtin _ _ := None;
  runtime_assistants _ := Ok [mkAssistant "helper" "Helper" "claude" "claude"];
  agent_metadata _ := Ok [mkAgentMetadata "claude" "Claude" "acp" "builtin" (Some "claude") None 0];
  assistant_snapshot _ _ := Ok None;
  local_timezone _ := Some "Asia/Shanghai";
  path_check _ _ := PathCheck.Available;
  same_path _ a b := (a =? b)%string;
  create_dir_all _ _ := Ok tt;
  under_work_dir name := "/work/conversations/" +:+ name;
  map_remove k v := v;
  model_from_str _ := None;
  json_error _ := "";
|}.

Definition asked : Prog CronWorld (Result (string * string) CronError.t) :=
  create_for_conversation_helper "a" "user" "c1" "Report" "0 9 * * *" "at nine" "do it".
Definition start : CronWorld := world [cron_job_to_row (job hourly None)] [].

(** The new job is in the store before it is tied, and is gone afterwards. *)
Lemma failed_create_leaves_no_job_witness :
  fst (run asked start) = Err (CronError.Database (DbError.Query "database is locked")) /\
  map cj_id (w_jobs (snd (steps 20 asked start))) = ["j"; "cron_14"] /\
  w_jobs (snd (run asked start)) = w_jobs start /\ w_timers (snd (run asked start)) = w_timers start.
Proof.
  split; [by vm_compute|]. split; [by vm_compute|].
  refine (failed_create_leaves_no_job "a" "user" "c1" "Report" "0 9 * * *" "at nine" "do it" start
    (CronError.Database (DbError.Query "database is locked")) (snd (run asked start)) _ _ _).
  - done.
  - intros n _. split; [done|]. apply lookup_empty.
  - by vm_compute.
Defined.
End Asking.
End CronRuns.
