(* ===== verification/ChannelStore.v ===== *)
(** * Chat channels: tables and world
    ([crates/tjuaeui-channel/src/types.rs], [error.rs],
    [crates/tjuaeui-db/src/repository/sqlite_channel.rs])

    A chat platform (Telegram, Lark and others) delivers messages; a platform
    user may talk to the agents once an administrator has approved a pairing
    code.  The tables are lists of rows in the order of insertion, a statement
    is one atomic step that may fail; every task of the server runs over the
    world below. *)

From S2P Require Import Prelude WorkModel Interleave TurnEvents SerdeJson CronTypes.
From stdpp Require Import pretty.

(** ** Platforms *)
Module PluginType.
Inductive t : Type := Telegram | Lark | Dingtalk | Weixin | Slack | Discord.
#[export] Instance t_eq_dec : EqDecision t.
Proof. solve_decision. Defined.
Definition to_string (p : t) : string :=
  match p with
  | Telegram => "telegram" | Lark => "lark" | Dingtalk => "dingtalk"
  | Weixin => "weixin" | Slack => "slack" | Discord => "discord"
  end.
Definition from_str_opt (s : string) : option t :=
  List.find (fun p => to_string p =? s)%string [Telegram; Lark; Dingtalk; Weixin; Slack; Discord].
End PluginType.
Export (hints) PluginType.

Module ConversationSource.
Inductive t : Type := TjuaeUI | Telegram | Lark | Dingtalk | Weixin.
End ConversationSource.

Module PairingStatus.
Inductive t : Type := Pending | Approved | Rejected | Expired.
#[export] Instance t_eq_dec : EqDecision t.
Proof. solve_decision. Defined.
Definition to_string (s : t) : string :=
  match s with Pending => "pending" | Approved => "approved" | Rejected => "rejected" | Expired => "expired" end.
End PairingStatus.
Export (hints) PairingStatus.

Module ChannelError.
Inductive t : Type :=
| PluginNotFound (m : string)
| InvalidPluginType (m : string)
| PluginAlreadyRunning (m : string)
| InvalidConfig (m : string)
| ConnectionFailed (m : string)
| PairingNotFound (code : string)
| PairingExpired (code : string)
| PairingAlreadyProcessed (code : string)
| UserNotFound (m : string)
| UserNotAuthorized (m : string)
| SessionNotFound (m : string)
| EncryptionFailed (m : string)
| DecryptionFailed (m : string)
| PlatformApi (m : string)
| MessageSendFailed (m : string)
| Database (e : DbError.t)
| Json (m : string).

Definition to_string (e : t) : string :=
  match e with
  | PluginNotFound m => "找不到插件：" +:+ m
  | InvalidPluginType m => "插件类型无效：" +:+ m
  | PluginAlreadyRunning m => "插件已在运行：" +:+ m
  | InvalidConfig m => "插件配置无效：" +:+ m
  | ConnectionFailed m => "插件连接失败：" +:+ m
  | PairingNotFound m => "找不到配对码：" +:+ m
  | PairingExpired m => "配对码已过期：" +:+ m
  | PairingAlreadyProcessed m => "配对码已处理：" +:+ m
  | UserNotFound m => "找不到用户：" +:+ m
  | UserNotAuthorized m => "用户未获授权：" +:+ m
  | SessionNotFound m => "找不到会话：" +:+ m
  | EncryptionFailed m => "凭据加密失败：" +:+ m
  | DecryptionFailed m => "凭据解密失败：" +:+ m
  | PlatformApi m => "平台 API 错误：" +:+ m
  | MessageSendFailed m => "消息发送失败：" +:+ m
  | Database e => db_error_text e
  | Json m => "JSON 错误：" +:+ m
  end.
End ChannelError.

(** ** Rows ([tjuaeui-db/src/models/channel.rs]) *)
Record AssistantUserRow : Type := mkUser {
  us_id : string;
  us_platform_user_id : string;
  us_platform_type : string;
  us_display_name : option string;
  us_authorized_at : Z;
  us_last_active : option Z;
  us_session_id : option string;
}.

Record AssistantSessionRow : Type := mkSession {
  se_id : string;
  se_user_id : string;
  se_agent_type : string;
  se_conversation_id : option string;
  se_workspace : option string;
  se_chat_id : option string;
  se_created_at : Z;
  se_last_activity : Z;
}.

(** The status is one of four by a [CHECK]. *)
Record PairingCodeRow : Type := mkPairing {
  pc_code : string;
  pc_platform_user_id : string;
  pc_platform_type : string;
  pc_display_name : option string;
  pc_requested_at : Z;
  pc_expires_at : Z;
  pc_status : PairingStatus.t;
}.

Definition set_status (s : PairingStatus.t) (r : PairingCodeRow) : PairingCodeRow :=
  mkPairing (pc_code r) (pc_platform_user_id r) (pc_platform_type r) (pc_display_name r)
    (pc_requested_at r) (pc_expires_at r) s.

Definition set_conversation (c : option string) (r : AssistantSessionRow) : AssistantSessionRow :=
  mkSession (se_id r) (se_user_id r) (se_agent_type r) c (se_workspace r) (se_chat_id r) (se_created_at r) (se_last_activity r).
Definition set_agent_type (a : string) (r : AssistantSessionRow) : AssistantSessionRow :=
  mkSession (se_id r) (se_user_id r) a (se_conversation_id r) (se_workspace r) (se_chat_id r) (se_created_at r) (se_last_activity r).
Definition touch (now : Z) (r : AssistantSessionRow) : AssistantSessionRow :=
  mkSession (se_id r) (se_user_id r) (se_agent_type r) (se_conversation_id r) (se_workspace r) (se_chat_id r)
    (se_created_at r) now.
Definition set_last_active (now : Z) (r : AssistantUserRow) : AssistantUserRow :=
  mkUser (us_id r) (us_platform_user_id r) (us_platform_type r) (us_display_name r) (us_authorized_at r)
    (Some now) (us_session_id r).

(** ** Messages

    Of an incoming message and of an action, the fields that are read. *)
Module ActionCategory.
Inductive t : Type := Platform | System | Chat.
End ActionCategory.

Record ActionContext : Type := mkContext {
  cx_platform : PluginType.t;
  cx_user_id : string;
  cx_chat_id : string;
}.

Record UnifiedAction : Type := mkAction {
  ac_action : string;
  ac_category : ActionCategory.t;
  ac_params : option (gmap string string);
  ac_context : ActionContext;
}.

Record UnifiedIncomingMessage : Type := mkIncoming {
  im_platform : PluginType.t;
  im_chat_id : string;
  im_user_id : string;
  im_display_name : string;
  im_text : string;
  im_action : option UnifiedAction;
}.

Module ParseMode.
Inductive t : Type := HTML | MarkdownV2 | Markdown.
End ParseMode.

Record ActionButton : Type := mkButton {
  bt_label : string;
  bt_action : string;
  bt_params : option (gmap string string);
}.

Module OutgoingMessageType.
Inductive t : Type := Text | Image | File | Buttons.
End OutgoingMessageType.

(** Pictures, files and reply marks are always absent here. *)
Record UnifiedOutgoingMessage : Type := mkOutgoing {
  om_type : OutgoingMessageType.t;
  om_text : option string;
  om_parse_mode : option ParseMode.t;
  om_buttons : option (list (list ActionButton));
  om_keyboard : option (list (list ActionButton));
}.

Module ActionBehavior.
Inductive t : Type := Send | Edit | Answer.
End ActionBehavior.

Record ActionResponse : Type := mkResponse {
  re_text : option string;
  re_parse_mode : option ParseMode.t;
  re_buttons : option (list (list ActionButton));
  re_keyboard : option (list (list ActionButton));
  re_behavior : ActionBehavior.t;
  re_toast : option string;
  re_edit_message_id : option string;
}.

(** ** The world *)
Module ChannelEvent.
Inductive t : Type :=
| PairingRequested (code platform_user_id platform_type : string) (display_name : option string) (expires_at : Z)
| UserAuthorized (id platform_user_id platform_type : string) (display_name : option string).
End ChannelEvent.

(** What a plugin was told to send or to edit. *)
Module Sent.
Inductive t : Type :=
| Message (plugin_id chat_id : string) (message : UnifiedOutgoingMessage)
| Edit (plugin_id chat_id message_id : string) (message : UnifiedOutgoingMessage).
End Sent.

Record CreateConversationRequest : Type := mkCreateConversation {
  cr_type : option AgentType.t;
  cr_name : option string;
  cr_model : option ProviderWithModel;
  cr_assistant : option string;
  cr_source : option ConversationSource.t;
  cr_channel_chat_id : option string;
  cr_extra : string;
}.

(** What the conversation service was asked for, each request with the session
    that it serves; [cr_extra] is the text of the JSON. *)
Module Asked.
Inductive t : Type :=
| Create (session : AssistantSessionRow) (owner_user_id : string) (req : CreateConversationRequest)
| Warmup (session : AssistantSessionRow) (owner_user_id conversation_id : string)
| Send (session : AssistantSessionRow) (owner_user_id conversation_id content : string).
Definition session (a : t) : AssistantSessionRow :=
  match a with Create s _ _ | Warmup s _ _ | Send s _ _ _ => s end.
End Asked.

(** [client_preferences] by key; [ch_granted] notes the users that were ever
    inserted, for the theorems: nothing reads it. *)
Record ChannelWorld : Type := mkChannelWorld {
  ch_users : list AssistantUserRow;
  ch_sessions : list AssistantSessionRow;
  ch_pairings : list PairingCodeRow;
  ch_prefs : gmap string string;
  ch_events : list ChannelEvent.t;
  ch_sent : list Sent.t;
  ch_asked : list Asked.t;
  ch_calls : N;
  ch_granted : list AssistantUserRow;
}.

Definition set_users (l : list AssistantUserRow) (w : ChannelWorld) : ChannelWorld :=
  mkChannelWorld l (ch_sessions w) (ch_pairings w) (ch_prefs w) (ch_events w) (ch_sent w) (ch_asked w) (ch_calls w) (ch_granted w).
Definition set_sessions (l : list AssistantSessionRow) (w : ChannelWorld) : ChannelWorld :=
  mkChannelWorld (ch_users w) l (ch_pairings w) (ch_prefs w) (ch_events w) (ch_sent w) (ch_asked w) (ch_calls w) (ch_granted w).
Definition set_pairings (l : list PairingCodeRow) (w : ChannelWorld) : ChannelWorld :=
  mkChannelWorld (ch_users w) (ch_sessions w) l (ch_prefs w) (ch_events w) (ch_sent w) (ch_asked w) (ch_calls w) (ch_granted w).
Definition set_prefs (p : gmap string string) (w : ChannelWorld) : ChannelWorld :=
  mkChannelWorld (ch_users w) (ch_sessions w) (ch_pairings w) p (ch_events w) (ch_sent w) (ch_asked w) (ch_calls w) (ch_granted w).
Definition add_event (e : ChannelEvent.t) (w : ChannelWorld) : ChannelWorld :=
  mkChannelWorld (ch_users w) (ch_sessions w) (ch_pairings w) (ch_prefs w) (ch_events w ++ [e]) (ch_sent w) (ch_asked w) (ch_calls w) (ch_granted w).
Definition add_sent (m : Sent.t) (w : ChannelWorld) : ChannelWorld :=
  mkChannelWorld (ch_users w) (ch_sessions w) (ch_pairings w) (ch_prefs w) (ch_events w) (ch_sent w ++ [m]) (ch_asked w) (ch_calls w) (ch_granted w).
Definition add_asked (a : Asked.t) (w : ChannelWorld) : ChannelWorld :=
  mkChannelWorld (ch_users w) (ch_sessions w) (ch_pairings w) (ch_prefs w) (ch_events w) (ch_sent w) (ch_asked w ++ [a]) (ch_calls w) (ch_granted w).
Definition set_channel_calls (n : N) (w : ChannelWorld) : ChannelWorld :=
  mkChannelWorld (ch_users w) (ch_sessions w) (ch_pairings w) (ch_prefs w) (ch_events w) (ch_sent w) (ch_asked w) n (ch_granted w).

Definition add_granted (u : AssistantUserRow) (w : ChannelWorld) : ChannelWorld :=
  mkChannelWorld (ch_users w) (ch_sessions w) (ch_pairings w) (ch_prefs w) (ch_events w) (ch_sent w) (ch_asked w) (ch_calls w)
    (ch_granted w ++ [u]).

(** ** What comes from outside

    The [n]-th call finds the clock at [ch_now n], draws the id [ch_id n] or
    the random number [ch_random n], and fails if [ch_fails n]; [order_desc]
    is [ORDER BY .. DESC] on a time.  [has_conversation n] tells whether the
    conversation of that id is in its table. *)
Class ChannelDb : Type := {
  ch_now : N -> Z;
  ch_id : N -> string;
  ch_random : N -> Result N string;
  ch_fails : N -> bool;
  order_desc : forall {A : Type}, (A -> Z) -> list A -> list A;
  has_conversation : N -> string -> bool;
}.

(** [getrandom] fills four bytes: a [u32]. *)
Class ChannelDbOk `{ChannelDb} : Prop := {
  order_desc_permutation : forall {A : Type} (key : A -> Z) l, order_desc key l ≡ₚ l;
  random_u32 : forall n k, ch_random n = Ok k -> (k <= u32_max)%N;
}.

(** ** The repository *)
Module ChannelRepo.
Section Repo.
Context `{ChannelDb}.
Local Open Scope tjuae_scope.

Definition ask {A : Type} (f : N -> A) : Prog ChannelWorld A :=
  atomic (fun w => (f (ch_calls w), set_channel_calls (N.succ (ch_calls w)) w)).

Definition sql {A : Type} (f : N -> ChannelWorld -> Result A DbError.t * ChannelWorld)
    : Prog ChannelWorld (Result A DbError.t) :=
  atomic (fun w =>
    let n := ch_calls w in
    let w := set_channel_calls (N.succ n) w in
    if ch_fails n then (Err (DbError.Query "statement failed"), w) else f n w).

Definition not_found {A : Type} (what id : string) : Result A DbError.t :=
  Err (DbError.NotFound (what +:+ " '" +:+ id +:+ "' not found")).

(** [UPDATE .. SET f WHERE p]. *)
Definition update_rows {A : Type} (p : A -> bool) (f : A -> A) (l : list A) : list A :=
  map (fun r => if p r then f r else r) l.

(** *** Users *)
Definition is_user (id : string) (r : AssistantUserRow) : bool := (us_id r =? id)%string.
Definition on_platform (platform_user_id platform_type : string) (r : AssistantUserRow) : bool :=
  (us_platform_user_id r =? platform_user_id)%string && (us_platform_type r =? platform_type)%string.

Definition get_all_users : Prog ChannelWorld (Result (list AssistantUserRow) DbError.t) :=
  sql (fun _ w => (Ok (order_desc us_authorized_at (ch_users w)), w)).

Definition get_user_by_platform (platform_user_id platform_type : string)
    : Prog ChannelWorld (Result (option AssistantUserRow) DbError.t) :=
  sql (fun _ w => (Ok (List.find (on_platform platform_user_id platform_type) (ch_users w)), w)).

(** [id] is the primary key, the two platform columns are unique together. *)
Definition create_user (row : AssistantUserRow) : Prog ChannelWorld (Result unit DbError.t) :=
  sql (fun _ w =>
    if existsb (fun r => is_user (us_id row) r || on_platform (us_platform_user_id row) (us_platform_type row) r) (ch_users w)
    then (Err (DbError.Conflict ("User '" +:+ us_platform_user_id row +:+ "' on platform '" +:+ us_platform_type row +:+
                                 "' already exists")), w)
    else (Ok tt, add_granted row (set_users (ch_users w ++ [row]) w))).

Definition update_user_last_active (id : string) (last_active : Z) : Prog ChannelWorld (Result unit DbError.t) :=
  sql (fun _ w =>
    if existsb (is_user id) (ch_users w)
    then (Ok tt, set_users (update_rows (is_user id) (set_last_active last_active) (ch_users w)) w)
    else (not_found "User" id, w)).

(** The user's sessions go too: [ON DELETE CASCADE]. *)
Definition delete_user (id : string) : Prog ChannelWorld (Result unit DbError.t) :=
  sql (fun _ w =>
    if existsb (is_user id) (ch_users w)
    then (Ok tt,
          set_sessions (List.filter (fun r => negb (se_user_id r =? id)%string) (ch_sessions w))
            (set_users (List.filter (fun r => negb (is_user id r)) (ch_users w)) w))
    else (not_found "User" id, w)).

(** *** Sessions *)
Definition is_session (id : string) (r : AssistantSessionRow) : bool := (se_id r =? id)%string.
Definition in_chat (user_id chat_id : string) (r : AssistantSessionRow) : bool :=
  (se_user_id r =? user_id)%string && bool_decide (se_chat_id r = Some chat_id).

Definition get_all_sessions : Prog ChannelWorld (Result (list AssistantSessionRow) DbError.t) :=
  sql (fun _ w => (Ok (order_desc se_last_activity (ch_sessions w)), w)).

Definition get_session (id : string) : Prog ChannelWorld (Result (option AssistantSessionRow) DbError.t) :=
  sql (fun _ w => (Ok (List.find (is_session id) (ch_sessions w)), w)).

Definition find_session (user_id chat_id : string) : Prog ChannelWorld (Result (option AssistantSessionRow) DbError.t) :=
  sql (fun _ w => (Ok (List.find (in_chat user_id chat_id) (ch_sessions w)), w)).

(** An update of no rows is no error here. *)
Definition touch_session (id : string) (now : Z) : Prog ChannelWorld (Result unit DbError.t) :=
  sql (fun _ w => (Ok tt, set_sessions (update_rows (is_session id) (touch now) (ch_sessions w)) w)).

(** [user_id] refers to a user, [conversation_id] to a conversation. *)
Definition references (n : N) (user_id : string) (conversation_id : option string) (w : ChannelWorld) : bool :=
  existsb (is_user user_id) (ch_users w) &&
  match conversation_id with Some c => has_conversation n c | None => true end.

Definition insert_session (row : AssistantSessionRow) : Prog ChannelWorld (Result unit DbError.t) :=
  sql (fun n w =>
    if existsb (is_session (se_id row)) (ch_sessions w)
    then (Err (DbError.Query "UNIQUE constraint failed: assistant_sessions.id"), w)
    else if references n (se_user_id row) (se_conversation_id row) w
         then (Ok tt, set_sessions (ch_sessions w ++ [row]) w)
         else (Err (DbError.Query "FOREIGN KEY constraint failed"), w)).

(** Two or three statements, no transaction. *)
Definition get_or_create_session (user_id chat_id : string) (new_row : AssistantSessionRow)
    : Prog ChannelWorld (Result AssistantSessionRow DbError.t) :=
  let! existing := find_session user_id chat_id in
  match existing with
  | Some row =>
      do now := ask ch_now in
      let! _ := touch_session (se_id row) now in
      Ret (Ok (touch now row))
  | None =>
      let! _ := insert_session new_row in
      Ret (Ok new_row)
  end.

Definition update_session (id : string) (f : N -> AssistantSessionRow -> AssistantSessionRow)
    (conversation_id : option string) : Prog ChannelWorld (Result unit DbError.t) :=
  sql (fun n w =>
    if existsb (is_session id) (ch_sessions w)
    then if match conversation_id with Some c => has_conversation n c | None => true end
         then (Ok tt, set_sessions (update_rows (is_session id) (f n) (ch_sessions w)) w)
         else (Err (DbError.Query "FOREIGN KEY constraint failed"), w)
    else (not_found "Session" id, w)).

Definition update_session_activity (id : string) (last_activity : Z) : Prog ChannelWorld (Result unit DbError.t) :=
  update_session id (fun _ => touch last_activity) None.
Definition update_session_conversation (id conversation_id : string) : Prog ChannelWorld (Result unit DbError.t) :=
  update_session id (fun n r => touch (ch_now n) (set_conversation (Some conversation_id) r)) (Some conversation_id).
Definition update_session_agent_type (id agent_type : string) : Prog ChannelWorld (Result unit DbError.t) :=
  update_session id (fun n r => touch (ch_now n) (set_agent_type agent_type r)) None.

Definition delete_sessions_by_user (user_id : string) : Prog ChannelWorld (Result unit DbError.t) :=
  sql (fun _ w => (Ok tt, set_sessions (List.filter (fun r => negb (se_user_id r =? user_id)%string) (ch_sessions w)) w)).

Definition delete_session_by_user_chat (user_id chat_id : string) : Prog ChannelWorld (Result unit DbError.t) :=
  sql (fun _ w => (Ok tt, set_sessions (List.filter (fun r => negb (in_chat user_id chat_id r)) (ch_sessions w)) w)).

(** Deleting a conversation empties the column that refers to it:
    [ON DELETE SET NULL]. *)
Definition conversation_deleted (conversation_id : string) : Prog ChannelWorld unit :=
  atomic (fun w =>
    (tt, set_sessions
           (update_rows (fun r => bool_decide (se_conversation_id r = Some conversation_id)) (set_conversation None)
              (ch_sessions w)) w)).

(** *** Pairing codes *)
Definition has_code (code : string) (r : PairingCodeRow) : bool := (pc_code r =? code)%string.
Definition is_pending (r : PairingCodeRow) : bool := bool_decide (pc_status r = PairingStatus.Pending).

Definition create_pairing (row : PairingCodeRow) : Prog ChannelWorld (Result unit DbError.t) :=
  sql (fun _ w =>
    if existsb (has_code (pc_code row)) (ch_pairings w)
    then (Err (DbError.Conflict ("Pairing code '" +:+ pc_code row +:+ "' already exists")), w)
    else (Ok tt, set_pairings (ch_pairings w ++ [row]) w)).

Definition get_pending_pairings : Prog ChannelWorld (Result (list PairingCodeRow) DbError.t) :=
  sql (fun _ w => (Ok (order_desc pc_requested_at (List.filter is_pending (ch_pairings w))), w)).

Definition get_pairing_by_code (code : string) : Prog ChannelWorld (Result (option PairingCodeRow) DbError.t) :=
  sql (fun _ w => (Ok (List.find (has_code code) (ch_pairings w)), w)).

Definition update_pairing_status (code : string) (status : PairingStatus.t) : Prog ChannelWorld (Result unit DbError.t) :=
  sql (fun _ w =>
    if existsb (has_code code) (ch_pairings w)
    then (Ok tt, set_pairings (update_rows (has_code code) (set_status status) (ch_pairings w)) w)
    else (not_found "Pairing code" code, w)).

Definition overdue (now : Z) (r : PairingCodeRow) : bool := is_pending r && (pc_expires_at r <=? now)%Z.

Definition cleanup_expired_pairings (now : Z) : Prog ChannelWorld (Result N DbError.t) :=
  sql (fun _ w =>
    (Ok (N.of_nat (length (List.filter (overdue now) (ch_pairings w)))),
     set_pairings (update_rows (overdue now) (set_status PairingStatus.Expired) (ch_pairings w)) w)).

(** *** Preferences *)
(** Those of the keys that are there; [ORDER BY key] is the order in which
    they are asked for here. *)
Definition get_by_keys (keys : list string) : Prog ChannelWorld (Result (list (string * string)) DbError.t) :=
  sql (fun _ w => (Ok (flat_map (fun key => match ch_prefs w !! key with Some value => [(key, value)] | None => [] end) keys), w)).
Definition upsert_one (key value : string) : Prog ChannelWorld (Result unit DbError.t) :=
  sql (fun _ w => (Ok tt, set_prefs (<[key := value]> (ch_prefs w)) w)).
End Repo.
End ChannelRepo.
