(* ===== verification/ChannelPairing.v ===== *)
(** * Chat channels: pairing and sessions
    ([crates/tjuaeui-channel/src/pairing.rs], [session.rs])

    A platform user who is not known gets a code of six digits; an
    administrator approves it within ten minutes.  [SessionManager] keeps a
    session for every user and chat. *)

From S2P Require Import Prelude WorkModel Interleave TurnEvents SerdeJson CronTypes ChannelStore.
From stdpp Require Import pretty.

Definition PAIRING_CODE_LENGTH : nat := 6.
Definition PAIRING_CODE_TTL : Z := 600000.

(** [db] converts the error of a statement, as [?] does. *)
Definition db_step {A : Type} (p : Prog ChannelWorld (Result A DbError.t)) : Prog ChannelWorld (Result A ChannelError.t) :=
  map_err ChannelError.Database p.

(** [format!("{num:0>width$}")]. *)
Fixpoint zeros (n : nat) : string := match n with 0 => "" | S n => "0" +:+ zeros n end.
Definition pad_zeros (width : nat) (s : string) : string := zeros (width - String.length s) +:+ s.

Module PairingService.
Section Pairing.
Context `{ChannelDb}.
Import ChannelRepo.
Local Open Scope tjuae_scope.

Definition pairing_code (num : N) : string :=
  pad_zeros PAIRING_CODE_LENGTH (pretty (num mod 10 ^ N.of_nat PAIRING_CODE_LENGTH)%N).

Definition generate_pairing_code : Prog ChannelWorld (Result string ChannelError.t) :=
  do num := ask ch_random in
  Ret (match num with
       | Ok num => Ok (pairing_code num)
       | Err e => Err (ChannelError.InvalidConfig ("RNG failure: " +:+ e))
       end).

Definition emit (e : ChannelEvent.t) : Prog ChannelWorld unit := atomic (fun w => (tt, add_event e w)).

Definition same_user (platform_user_id platform_type : string) (r : PairingCodeRow) : bool :=
  (pc_platform_user_id r =? platform_user_id)%string && (pc_platform_type r =? platform_type)%string.

Definition expire_user_pending_codes (platform_user_id platform_type : string)
    : Prog ChannelWorld (Result unit ChannelError.t) :=
  let! pending := db_step get_pending_pairings in
  try_each (fun row =>
    if same_user platform_user_id platform_type row
    then db_step (update_pairing_status (pc_code row) PairingStatus.Expired)
    else Ret (Ok tt)) pending.

Definition request_pairing (platform_user_id platform_type : string) (display_name : option string)
    : Prog ChannelWorld (Result string ChannelError.t) :=
  let! _ := expire_user_pending_codes platform_user_id platform_type in
  let! code := generate_pairing_code in
  do now := ask ch_now in
  let expires_at := (now + PAIRING_CODE_TTL)%Z in
  let! _ := db_step (create_pairing
    (mkPairing code platform_user_id platform_type display_name now expires_at PairingStatus.Pending)) in
  do _ := emit (ChannelEvent.PairingRequested code platform_user_id platform_type display_name expires_at) in
  Ret (Ok code).

Definition get_valid_pending_pairing (code : string) : Prog ChannelWorld (Result PairingCodeRow ChannelError.t) :=
  let! row := db_step (get_pairing_by_code code) in
  match row with
  | None => Ret (Err (ChannelError.PairingNotFound code))
  | Some row =>
      if negb (is_pending row) then Ret (Err (ChannelError.PairingAlreadyProcessed code))
      else
        do now := ask ch_now in
        if (pc_expires_at row <=? now)%Z then
          do _ := update_pairing_status code PairingStatus.Expired in
          Ret (Err (ChannelError.PairingExpired code))
        else Ret (Ok row)
  end.

Definition approve_pairing (code : string) : Prog ChannelWorld (Result unit ChannelError.t) :=
  let! row := get_valid_pending_pairing code in
  do now := ask ch_now in
  do user_id := ask ch_id in
  let! _ := db_step (create_user
    (mkUser user_id (pc_platform_user_id row) (pc_platform_type row) (pc_display_name row) now None None)) in
  let! _ := db_step (update_pairing_status code PairingStatus.Approved) in
  do _ := emit (ChannelEvent.UserAuthorized user_id (pc_platform_user_id row) (pc_platform_type row) (pc_display_name row)) in
  Ret (Ok tt).

Definition reject_pairing (code : string) : Prog ChannelWorld (Result unit ChannelError.t) :=
  let! _ := get_valid_pending_pairing code in
  db_step (update_pairing_status code PairingStatus.Rejected).

Definition pending_pairings : Prog ChannelWorld (Result (list PairingCodeRow) ChannelError.t) :=
  let! rows := db_step get_pending_pairings in
  do now := ask ch_now in
  Ret (Ok (List.filter (fun r => (now <? pc_expires_at r)%Z) rows)).

Definition is_user_authorized (platform_user_id platform_type : string) : Prog ChannelWorld (Result bool ChannelError.t) :=
  let! user := db_step (get_user_by_platform platform_user_id platform_type) in
  Ret (Ok (match user with Some _ => true | None => false end)).

Definition get_internal_user_id (platform_user_id platform_type : string)
    : Prog ChannelWorld (Result (option string) ChannelError.t) :=
  let! user := db_step (get_user_by_platform platform_user_id platform_type) in
  Ret (Ok (us_id <$> user)).

(** One round of the clean-up timer; its error is logged. *)
Definition cleanup_tick : Prog ChannelWorld unit :=
  do now := ask ch_now in
  do _ := cleanup_expired_pairings now in
  Ret tt.
End Pairing.
End PairingService.

Module SessionManager.
Section Sessions.
Context `{ChannelDb}.
Import ChannelRepo.
Local Open Scope tjuae_scope.

Definition new_session (id user_id chat_id agent_type : string) (workspace : option string) (now : Z) : AssistantSessionRow :=
  mkSession id user_id agent_type None workspace (Some chat_id) now now.

Definition get_or_create_session (user_id chat_id agent_type : string) (workspace : option string)
    : Prog ChannelWorld (Result AssistantSessionRow ChannelError.t) :=
  do now := ask ch_now in
  do id := ask ch_id in
  db_step (ChannelRepo.get_or_create_session user_id chat_id (new_session id user_id chat_id agent_type workspace now)).

Definition get_active_sessions : Prog ChannelWorld (Result (list AssistantSessionRow) ChannelError.t) := db_step get_all_sessions.

Definition reset_session (user_id chat_id agent_type : string) (workspace : option string)
    : Prog ChannelWorld (Result AssistantSessionRow ChannelError.t) :=
  let! _ := db_step (delete_session_by_user_chat user_id chat_id) in
  get_or_create_session user_id chat_id agent_type workspace.

Definition update_agent_type (session_id agent_type : string) : Prog ChannelWorld (Result unit ChannelError.t) :=
  db_step (update_session_agent_type session_id agent_type).

Definition cleanup_user_sessions (user_id : string) : Prog ChannelWorld (Result unit ChannelError.t) :=
  db_step (delete_sessions_by_user user_id).

(** Each user's sessions are deleted once, at the first of them. *)
Fixpoint clear_users (cleared : list string) (l : list AssistantSessionRow) : Prog ChannelWorld (Result unit ChannelError.t) :=
  match l with
  | [] => Ret (Ok tt)
  | s :: l =>
      if bool_decide (se_user_id s ∈ cleared) then clear_users cleared l
      else
        let! _ := db_step (delete_sessions_by_user (se_user_id s)) in
        clear_users (se_user_id s :: cleared) l
  end.
Definition clear_all_sessions : Prog ChannelWorld (Result unit ChannelError.t) :=
  let! sessions := db_step get_all_sessions in
  clear_users [] sessions.

Definition get_session_by_id (session_id : string) : Prog ChannelWorld (Result (option AssistantSessionRow) ChannelError.t) :=
  db_step (get_session session_id).

Definition bind_conversation (session_id conversation_id : string) : Prog ChannelWorld (Result unit ChannelError.t) :=
  db_step (update_session_conversation session_id conversation_id).
End Sessions.
End SessionManager.
