(* ===== verification/ChannelFlow.v ===== *)
(** * Chat channels: what happens to a message
    ([crates/tjuaeui-channel/src/channel_settings.rs], [action.rs],
    [message_service.rs], [stream_relay.rs], [orchestrator.rs], [routes.rs])

    The orchestrator spawns a task for every incoming message: the sender is
    looked up, a stranger is given a pairing code, a pressed button is answered
    and a text is sent to the agent of the chat's session, whose events are
    relayed back.  A task is a program of atomic steps. *)

From S2P Require Import Prelude WorkModel Interleave TurnEvents SerdeJson CronTypes ChannelStore ChannelPairing.
From stdpp Require Import pretty.

Record ChannelAssistantCatalogEntry : Type := mkCatalogEntry {
  ca_assistant_id : string;
  ca_name : string;
  ca_agent_type : string;
  ca_backend : option string;
}.

(** ** What comes from outside

    The conversation service with the agents, the plugins, the catalog of
    assistants, a clock that never goes back ([instant]) and the formatter of
    a platform, which is regular expressions. *)
Class ChannelHost : Type := {
  runtime_assistants : N -> Result (list ChannelAssistantCatalogEntry) ChannelError.t;
  create_conversation : N -> string -> CreateConversationRequest -> Result string string;
  warmup : N -> string -> string -> Result unit string;
  has_task : N -> string -> bool;
  send_to_conversation : N -> string -> string -> string -> Result unit string;
  plugin_send : N -> string -> string -> UnifiedOutgoingMessage -> Result string ChannelError.t;
  plugin_edit : N -> string -> string -> string -> UnifiedOutgoingMessage -> Result unit ChannelError.t;
  instant : N -> Z;
  format_text_for_platform : string -> PluginType.t -> string;
}.

Section Text.
Context `{SerdeJson}.

(** ** Settings *)
Record ResolvedAgentConfig : Type := mkAgent { rc_agent_type : string; rc_backend : option string }.
Record ResolvedModelConfig : Type := mkModel { rm_provider_id : string; rm_model : string; rm_use_model : option string }.

Record ChannelAssistantSettingResponse : Type := mkAssistantSetting {
  st_assistant_id : option string;
  st_custom_agent_id : option string;
  st_backend : option string;
  st_agent_type : option string;
  st_name : option string;
}.
Record ChannelDefaultModelSetting : Type := mkModelSetting { dm_id : string; dm_use_model : string }.
Record ChannelPlatformSettingsResponse : Type := mkPlatformSettings {
  ps_platform : string;
  ps_assistant : option ChannelAssistantSettingResponse;
  ps_default_model : option ChannelDefaultModelSetting;
}.

Definition DEFAULT_AGENT_TYPE : string := "tjuaecli".
Definition agent_key (p : PluginType.t) : string := "assistant." +:+ PluginType.to_string p +:+ ".agent".
Definition model_key (p : PluginType.t) : string := "assistant." +:+ PluginType.to_string p +:+ ".defaultModel".
Definition default_agent_config : ResolvedAgentConfig := mkAgent DEFAULT_AGENT_TYPE None.

Definition assistant_setting (id : string) (name : option string) : ChannelAssistantSettingResponse :=
  mkAssistantSetting (Some id) None None None name.

Definition parse_channel_assistant_setting (value : string) : option ChannelAssistantSettingResponse :=
  parsed ← from_str value;
  id ← str_of (v_get "assistant_id" parsed);
  if (str_trim id =? "")%string then None else Some (assistant_setting (str_trim id) (str_of (v_get "name" parsed))).

(** [serde_json::to_string]: an absent name is left out. *)
Definition print_assistant_setting (assistant_id : string) (name : option string) : string :=
  to_string (v_obj (("assistant_id", v_str (str_trim assistant_id)) ::
                    match name with Some name => [("name", v_str name)] | None => [] end)).

Definition parse_channel_model_setting (value : string) : option ChannelDefaultModelSetting :=
  parsed ← from_str value;
  id ← str_of (v_get "id" parsed);
  use_model ← str_of (v_get "use_model" parsed);
  Some (mkModelSetting id use_model).

Definition print_model_setting (m : ChannelDefaultModelSetting) : string :=
  to_string (v_obj [("id", v_str (dm_id m)); ("use_model", v_str (dm_use_model m))]).

Definition model_config_of (value : string) : option ResolvedModelConfig :=
  let parsed := default Null (from_str value) in
  let provider_id := default "" (str_of (v_get "id" parsed)) in
  let use_model := str_of (v_get "use_model" parsed) in
  match use_model with
  | None => if (provider_id =? "")%string then None else Some (mkModel provider_id "" None)
  | Some m => Some (mkModel provider_id m (Some m))
  end.

Definition resolved_model_to_provider (model : option ResolvedModelConfig) : ProviderWithModel :=
  match model with
  | Some m => mkProviderModel (rm_provider_id m) (rm_model m) (rm_use_model m)
  | None => mkProviderModel "" "" None
  end.

(** ** Conversations of a channel *)
Definition platform_to_source (p : PluginType.t) : ConversationSource.t :=
  match p with
  | PluginType.Telegram => ConversationSource.Telegram
  | PluginType.Lark => ConversationSource.Lark
  | PluginType.Dingtalk => ConversationSource.Dingtalk
  | PluginType.Weixin => ConversationSource.Weixin
  | PluginType.Slack | PluginType.Discord => ConversationSource.TjuaeUI
  end.

(** Only ACP and the CLI take new conversations. *)
Definition parse_agent_type (s : string) : Result AgentType.t ChannelError.t :=
  let named n := (s =? n)%string in
  let agent_type :=
    if named "acp" then AgentType.Acp
    else if named "gemini" then AgentType.Gemini
    else if named "openclaw-gateway" then AgentType.OpenclawGateway
    else if named "nanobot" then AgentType.Nanobot
    else if named "remote" then AgentType.Remote
    else if named "tjuaecli" then AgentType.TjuaeCli
    else AgentType.Acp in
  match agent_type with
  | AgentType.Acp | AgentType.TjuaeCli => Ok agent_type
  | _ => Err (ChannelError.InvalidConfig "This agent type is no longer supported for new conversations.")
  end.

(** Identifiers are ASCII, so that any cut of them is one between characters. *)
Definition first_eight (s : string) : string := String.substring 0 8 s.

Definition channel_conversation_name (p : PluginType.t) (agent_type : string) (backend chat_id : option string) : string :=
  let short :=
    match p with
    | PluginType.Telegram => "tg" | PluginType.Lark => "lark" | PluginType.Dingtalk => "ding"
    | PluginType.Weixin => "wx" | PluginType.Slack => "slack" | PluginType.Discord => "discord"
    end in
  String.concat "-"
    ([short] ++ (if (agent_type =? "")%string then [] else [agent_type]) ++
     (if (agent_type =? "acp")%string then match backend with Some b => [b] | None => [] end else []) ++
     match chat_id with Some cid => [first_eight cid] | None => [] end).

Definition build_channel_extra (backend : option string) : Value :=
  let extra := v_obj [("session_mode", v_str "yolo")] in
  match backend with Some b => map_insert "backend" (v_str b) extra | None => extra end.

Definition provider_to_value (m : ProviderWithModel) : Value :=
  v_obj [("provider_id", v_str (pm_provider_id m)); ("model", v_str (pm_model m));
         ("use_model", match pm_use_model m with Some u => v_str u | None => Null end)].
End Text.

Module ChannelSettings.
Section Settings.
Context `{SerdeJson, ChannelDb, ChannelHost}.
Import ChannelRepo.
Local Open Scope tjuae_scope.

Definition list_runtime_assistants : Prog ChannelWorld (Result (list ChannelAssistantCatalogEntry) ChannelError.t) :=
  ask runtime_assistants.

Definition resolve_runtime_assistant (assistant_id : string)
    : Prog ChannelWorld (Result (option ChannelAssistantCatalogEntry) ChannelError.t) :=
  let! l := list_runtime_assistants in
  Ret (Ok (List.find (fun a => (ca_assistant_id a =? assistant_id)%string) l)).

Definition unavailable {A : Type} (assistant_id : string) : Result A ChannelError.t :=
  Err (ChannelError.InvalidConfig
         ("Channel assistant binding references unavailable assistant identity: " +:+ assistant_id)).

(** The value of the first preference. *)
Definition pref (key : string) : Prog ChannelWorld (Result (option string) ChannelError.t) :=
  let! prefs := db_step (get_by_keys [key]) in
  Ret (Ok (snd <$> head prefs)).

Definition get_agent_config (platform : PluginType.t) : Prog ChannelWorld (Result ResolvedAgentConfig ChannelError.t) :=
  let! value := pref (agent_key platform) in
  match value ≫= parse_channel_assistant_setting with
  | Some setting =>
      match st_assistant_id setting with
      | Some assistant_id =>
          let! a := resolve_runtime_assistant assistant_id in
          Ret (match a with
               | Some a => Ok (mkAgent (ca_agent_type a) (ca_backend a))
               | None => Err (ChannelError.InvalidConfig
                   ("Channel assistant binding references unresolved assistant identity: " +:+ assistant_id))
               end)
      | None => Ret (Ok default_agent_config)
      end
  | None => Ret (Ok default_agent_config)
  end.

Definition get_model_config (platform : PluginType.t) : Prog ChannelWorld (Result (option ResolvedModelConfig) ChannelError.t) :=
  let! value := pref (model_key platform) in
  Ret (Ok (value ≫= model_config_of)).

Definition filled (o : option string) : option string :=
  match o with
  | Some s => if (str_trim s =? "")%string then None else Some s
  | None => None
  end.

Definition normalize_channel_assistant_setting_for_response (a : ChannelAssistantSettingResponse)
    : Prog ChannelWorld (Result ChannelAssistantSettingResponse ChannelError.t) :=
  match (match filled (st_assistant_id a) with Some id => Some id | None => filled (st_custom_agent_id a) end) with
  | None => Ret (Ok a)
  | Some assistant_id =>
      let! found := resolve_runtime_assistant assistant_id in
      Ret (match found with
           | Some _ => Ok (assistant_setting assistant_id (st_name a))
           | None => unavailable assistant_id
           end)
  end.

Definition resolve_default_assistant_identity : Prog ChannelWorld (Result (option string) ChannelError.t) :=
  let! l := list_runtime_assistants in
  Ret (Ok (ca_assistant_id <$>
    List.find (fun a => (ca_agent_type a =? DEFAULT_AGENT_TYPE)%string ||
                        bool_decide (ca_backend a = Some DEFAULT_AGENT_TYPE)) l)).

Definition resolve_default_channel_assistant_setting
    : Prog ChannelWorld (Result (option ChannelAssistantSettingResponse) ChannelError.t) :=
  let! id := resolve_default_assistant_identity in
  Ret (Ok ((fun id => assistant_setting id None) <$> id)).

Definition stored_assistant (value : string) : Prog ChannelWorld (Result (option ChannelAssistantSettingResponse) ChannelError.t) :=
  match parse_channel_assistant_setting value with
  | Some a => let! a := normalize_channel_assistant_setting_for_response a in Ret (Ok (Some a))
  | None => Ret (Ok None)
  end.

Definition get_assistant_setting (platform : PluginType.t)
    : Prog ChannelWorld (Result (option ChannelAssistantSettingResponse) ChannelError.t) :=
  let! value := pref (agent_key platform) in
  match value with
  | None => resolve_default_channel_assistant_setting
  | Some value => stored_assistant value
  end.

(** The loop over the two preferences. *)
Fixpoint read_prefs (platform : PluginType.t) (prefs : list (string * string))
    (found : option ChannelAssistantSettingResponse * option ChannelDefaultModelSetting)
    : Prog ChannelWorld (Result (option ChannelAssistantSettingResponse * option ChannelDefaultModelSetting) ChannelError.t) :=
  match prefs with
  | [] => Ret (Ok found)
  | (key, value) :: prefs =>
      if (key =? agent_key platform)%string then
        let! a := stored_assistant value in
        read_prefs platform prefs (match a with Some a => Some a | None => fst found end, snd found)
      else if (key =? model_key platform)%string
      then read_prefs platform prefs (fst found, parse_channel_model_setting value)
      else read_prefs platform prefs found
  end.

Definition get_platform_settings (platform : PluginType.t)
    : Prog ChannelWorld (Result ChannelPlatformSettingsResponse ChannelError.t) :=
  let! prefs := db_step (get_by_keys [agent_key platform; model_key platform]) in
  let! found := read_prefs platform prefs (None, None) in
  let! assistant :=
    match fst found with
    | Some a => Ret (Ok (Some a))
    | None => resolve_default_channel_assistant_setting
    end in
  Ret (Ok (mkPlatformSettings (PluginType.to_string platform) assistant (snd found))).

Definition set_assistant_setting (platform : PluginType.t) (assistant_id : string) (name : option string)
    : Prog ChannelWorld (Result unit ChannelError.t) :=
  let! found := resolve_runtime_assistant (str_trim assistant_id) in
  match found with
  | None => Ret (unavailable (str_trim assistant_id))
  | Some _ => db_step (upsert_one (agent_key platform) (print_assistant_setting assistant_id name))
  end.

Definition set_model_setting (platform : PluginType.t) (model : ChannelDefaultModelSetting)
    : Prog ChannelWorld (Result unit ChannelError.t) :=
  db_step (upsert_one (model_key platform) (print_model_setting model)).
End Settings.
End ChannelSettings.
