(* ===== verification/ChannelActions.v ===== *)
(** * Chat channels: who may do what
    ([crates/tjuaeui-channel/src/action.rs])

    [ActionExecutor]: a stranger's message becomes a pairing code, a known
    user's button is answered and a known user's text is dispatched to the
    session of the chat. *)

From S2P Require Import Prelude WorkModel Interleave TurnEvents SerdeJson CronTypes ChannelStore ChannelPairing ChannelFlow.
From stdpp Require Import pretty.

Module MessageResult.
Inductive t : Type :=
| Action (response : ActionResponse)
| Dispatched (session_id : string) (conversation_id : option string)
| AlreadyProcessing.
End MessageResult.

(** ** Answers *)
Definition button (label action : string) : ActionButton := mkButton label action None.
Definition reply (text : string) (buttons : option (list (list ActionButton))) : ActionResponse :=
  mkResponse (Some text) None buttons None ActionBehavior.Send None None.
Definition toast (text : string) (behavior : ActionBehavior.t) : ActionResponse :=
  mkResponse None None None None behavior (Some text) None.

Definition build_pairing_response (code : string) : ActionResponse :=
  reply ("欢迎使用！使用此机器人前需要完成授权。

你的配对码：*" +:+ code +:+ "*

请将配对码告知管理员，由管理员在“设置 → 渠道 → 配对请求”中批准。
配对码将在 10 分钟后过期。")
    (Some [[button "刷新配对码" "pairing.refresh"; button "检查状态" "pairing.check"; button "帮助" "pairing.help"]]).

Definition build_help_response : ActionResponse :=
  reply "需要什么帮助？
请选择下方选项，或直接发送消息。"
    (Some [[button "新建会话" "session.new"; button "会话状态" "session.status"];
           [button "功能介绍" "help.features"; button "使用技巧" "help.tips"]]).

Definition build_unknown_action_response (action : string) : ActionResponse := reply ("未知操作：" +:+ action) None.

Definition authorized_response : ActionResponse := reply "授权成功！发送消息即可开始聊天。" None.
Definition waiting_response : ActionResponse :=
  reply "仍在等待授权，请管理员前往“设置 → 渠道”查看。"
    (Some [[button "刷新" "pairing.refresh"; button "再次检查" "pairing.check"]]).
Definition pairing_help_response : ActionResponse :=
  reply "使用此机器人前需要完成授权：
1. 发送任意消息获取六位配对码
2. 将配对码告知管理员
3. 管理员在“设置 → 渠道”中批准请求
4. 授权后即可开始聊天" None.

Definition session_new_response (s : AssistantSessionRow) : ActionResponse :=
  reply ("已创建新会话。
智能体：" +:+ se_agent_type s +:+ "
会话：" +:+ first_eight (se_id s)) (Some [[button "帮助" "help.show"]]).
Definition session_status_response (s : AssistantSessionRow) : ActionResponse :=
  reply ("会话：" +:+ first_eight (se_id s) +:+ "
智能体：" +:+ se_agent_type s +:+ "
创建时间：" +:+ pretty (se_created_at s) +:+ "
最近活动：" +:+ pretty (se_last_activity s)) (Some [[button "新建会话" "session.new"]]).

Definition features_response : ActionResponse :=
  reply "功能：
• 通过已配置的助手进行 AI 对话
• 自动批准工具执行
• 每个聊天使用独立会话" None.
Definition help_pairing_response : ActionResponse :=
  reply "配对：
发送任意消息 → 获取六位配对码 → 管理员批准 → 开始使用" None.
Definition tips_response : ActionResponse :=
  reply "使用技巧：
• 新建会话可清除上下文
• 使用 /help 查看可用命令
• 在群聊中请 @机器人" None.
Definition settings_response : ActionResponse :=
  reply "设置由桌面应用统一管理。
请前往“设置 → 渠道”配置插件和管理用户。" None.

Module ActionExecutor.
Section Actions.
Context `{SerdeJson, ChannelDb, ChannelHost}.
Import PairingService ChannelSettings.
Local Open Scope tjuae_scope.

Definition answer (r : ActionResponse) : Prog ChannelWorld (Result ActionResponse ChannelError.t) := Ret (Ok r).

Definition handle_unauthorized (platform_user_id platform_type display_name : string)
    : Prog ChannelWorld (Result ActionResponse ChannelError.t) :=
  let! code := request_pairing platform_user_id platform_type (Some display_name) in
  answer (build_pairing_response code).

Definition handle_platform_action (action : UnifiedAction) : Prog ChannelWorld (Result ActionResponse ChannelError.t) :=
  let named n := (ac_action action =? n)%string in
  let user_id := cx_user_id (ac_context action) in
  let platform := PluginType.to_string (cx_platform (ac_context action)) in
  if named "pairing.show" || named "pairing.refresh" then
    let! code := request_pairing user_id platform None in
    answer (build_pairing_response code)
  else if named "pairing.check" then
    let! authorized := is_user_authorized user_id platform in
    answer (if authorized : bool then authorized_response else waiting_response)
  else if named "pairing.help" then answer pairing_help_response
  else answer (build_unknown_action_response (ac_action action)).

Definition handle_system_action (action : UnifiedAction) (internal_user_id : string)
    : Prog ChannelWorld (Result ActionResponse ChannelError.t) :=
  let named n := (ac_action action =? n)%string in
  let context := ac_context action in
  if named "session.new" then
    let! agent_config := get_agent_config (cx_platform context) in
    let! session := SessionManager.reset_session internal_user_id (cx_chat_id context) (rc_agent_type agent_config) None in
    answer (session_new_response session)
  else if named "session.status" then
    let! agent_config := get_agent_config (cx_platform context) in
    let! session := SessionManager.get_or_create_session internal_user_id (cx_chat_id context) (rc_agent_type agent_config) None in
    answer (session_status_response session)
  else if named "help.show" then answer build_help_response
  else if named "help.features" then answer features_response
  else if named "help.pairing" then answer help_pairing_response
  else if named "help.tips" then answer tips_response
  else if named "settings.show" then answer settings_response
  else answer (build_unknown_action_response (ac_action action)).

(** The call and the value of a confirmation are only logged. *)
Definition handle_chat_action (action : UnifiedAction) : Prog ChannelWorld (Result ActionResponse ChannelError.t) :=
  let named n := (ac_action action =? n)%string in
  if named "chat.send" || named "chat.regenerate" || named "chat.continue" then answer (toast "处理中……" ActionBehavior.Send)
  else if named "action.copy" then answer (toast "已复制到剪贴板" ActionBehavior.Answer)
  else if named "system.confirm" then answer (toast "已确认" ActionBehavior.Answer)
  else answer (build_unknown_action_response (ac_action action)).

Definition route_action (action : UnifiedAction) (internal_user_id : string)
    : Prog ChannelWorld (Result ActionResponse ChannelError.t) :=
  match ac_category action with
  | ActionCategory.Platform => handle_platform_action action
  | ActionCategory.System => handle_system_action action internal_user_id
  | ActionCategory.Chat => handle_chat_action action
  end.

Definition handle_incoming_message (msg : UnifiedIncomingMessage) : Prog ChannelWorld (Result MessageResult.t ChannelError.t) :=
  let platform_type := PluginType.to_string (im_platform msg) in
  let! internal_user_id := get_internal_user_id (im_user_id msg) platform_type in
  match internal_user_id with
  | None =>
      let! response := handle_unauthorized (im_user_id msg) platform_type (im_display_name msg) in
      Ret (Ok (MessageResult.Action response))
  | Some internal_user_id =>
      match im_action msg with
      | Some action =>
          let! response := route_action action internal_user_id in
          Ret (Ok (MessageResult.Action response))
      | None =>
          let! agent_config := get_agent_config (im_platform msg) in
          let! session :=
            SessionManager.get_or_create_session internal_user_id (im_chat_id msg) (rc_agent_type agent_config) None in
          Ret (Ok (MessageResult.Dispatched (se_id session) (se_conversation_id session)))
      end
  end.
End Actions.
End ActionExecutor.
