(* ===== verification/ChannelRelay.v ===== *)
(** * Chat channels: the agent and its reply
    ([crates/tjuaeui-channel/src/message_service.rs], [stream_relay.rs],
    [orchestrator.rs], the handlers of [routes.rs])

    A dispatched text is sent to the agent of the session's conversation and
    the events of the agent are relayed to the chat: on most platforms one
    message is edited over and over, WeChat gets a message per piece. *)

From S2P Require Import Prelude WorkModel Interleave TurnEvents SerdeJson CronTypes ChannelStore ChannelPairing ChannelFlow ChannelActions.

(** ** Messages to a platform *)
Definition text_message (text : string) : UnifiedOutgoingMessage := mkOutgoing OutgoingMessageType.Text (Some text) None None None.
Definition build_thinking_message : UnifiedOutgoingMessage := text_message "⏳ Thinking...".
Definition build_streaming_message : string -> UnifiedOutgoingMessage := text_message.
Definition build_final_message (text : string) : UnifiedOutgoingMessage :=
  mkOutgoing OutgoingMessageType.Buttons (Some text) None
    (Some [[button "🔄 Regenerate" "chat.regenerate"; button "▶️ Continue" "chat.continue";
            button "➕ New Session" "session.new"]]) None.
Definition error_message (text : string) : UnifiedOutgoingMessage := text_message ("❌ " +:+ text).

Module StreamAction.
Inductive t : Type :=
| AppendText (s : string)
| Finish
| Error (m : string)
| Thinking (s : string)
| ToolCall (name status : string).
End StreamAction.

(** [{:?}]. *)
Definition debug_status (s : ToolCallStatus.t) : string :=
  match s with
  | ToolCallStatus.Running => "Running" | ToolCallStatus.Completed => "Completed"
  | ToolCallStatus.Error => "Error" | ToolCallStatus.Canceled => "Canceled"
  end.

Definition process_stream_event `{JsonValues} (event : AgentStreamEvent.t) : option StreamAction.t :=
  match event with
  | AgentStreamEvent.Text content => Some (StreamAction.AppendText content)
  | AgentStreamEvent.Finish _ => Some StreamAction.Finish
  | AgentStreamEvent.Error data => Some (StreamAction.Error (message data))
  | AgentStreamEvent.Thinking data => Some (StreamAction.Thinking (thinking_content data))
  | AgentStreamEvent.ToolCall data => Some (StreamAction.ToolCall (call_name data) (debug_status (call_status data)))
  | _ => None
  end.

(** What [recv] gives; the end of a list is the closed channel. *)
Module Received.
Inductive t `{JsonValues} : Type :=
| Event (event : AgentStreamEvent.t)
| Lagged (n : N).
End Received.

(** What the subscription of a conversation's agent will give. *)
Class ChannelStreams `{JsonValues} : Type := { subscription : N -> string -> list Received.t }.

Record RelayConfig : Type := mkRelayConfig {
  ry_platform : PluginType.t;
  ry_plugin_id : string;
  ry_chat_id : string;
  ry_throttle_ms : Z;
}.

Module ChannelSender.
Section Sender.
Context `{ChannelDb, ChannelHost}.
Definition send_message (plugin_id chat_id : string) (m : UnifiedOutgoingMessage)
    : Prog ChannelWorld (Result string ChannelError.t) :=
  atomic (fun w =>
    (plugin_send (ch_calls w) plugin_id chat_id m,
     set_channel_calls (N.succ (ch_calls w)) (add_sent (Sent.Message plugin_id chat_id m) w))).
Definition edit_message (plugin_id chat_id message_id : string) (m : UnifiedOutgoingMessage)
    : Prog ChannelWorld (Result unit ChannelError.t) :=
  atomic (fun w =>
    (plugin_edit (ch_calls w) plugin_id chat_id message_id m,
     set_channel_calls (N.succ (ch_calls w)) (add_sent (Sent.Edit plugin_id chat_id message_id m) w))).
End Sender.
End ChannelSender.

Module ChannelStreamRelay.
Section Relay.
Context `{JsonValues, ChannelDb, ChannelHost}.
Import ChannelSender.
Variable config : RelayConfig.
Local Open Scope tjuae_scope.

Definition formatted (text : string) : string := format_text_for_platform text (ry_platform config).
Definition post (m : UnifiedOutgoingMessage) : Prog ChannelWorld unit :=
  do _ := send_message (ry_plugin_id config) (ry_chat_id config) m in Ret tt.
Definition revise (message_id : string) (m : UnifiedOutgoingMessage) : Prog ChannelWorld unit :=
  do _ := edit_message (ry_plugin_id config) (ry_chat_id config) message_id m in Ret tt.

(** *** WeChat: a message that was sent stays as it is *)
Definition worth_sending (has_content : bool) (text_buffer : string) : bool :=
  has_content && negb (str_trim text_buffer =? "")%string.

Definition post_final (has_content : bool) (text_buffer : string) : Prog ChannelWorld unit :=
  if worth_sending has_content text_buffer then post (build_final_message (formatted text_buffer)) else Ret tt.

Fixpoint run_weixin (rx : list Received.t) (text_buffer : string) (has_content : bool) : Prog ChannelWorld unit :=
  match rx with
  | [] => post_final has_content text_buffer
  | Received.Lagged _ :: rx => run_weixin rx text_buffer has_content
  | Received.Event event :: rx =>
      match process_stream_event event with
      | Some (StreamAction.AppendText chunk) => run_weixin rx (text_buffer +:+ chunk) true
      | Some (StreamAction.Thinking _) | None => run_weixin rx text_buffer has_content
      | Some (StreamAction.ToolCall _ _) =>
          if worth_sending has_content text_buffer then
            do _ := post (build_streaming_message (formatted text_buffer)) in
            run_weixin rx "" false
          else run_weixin rx text_buffer has_content
      | Some StreamAction.Finish => post_final has_content text_buffer
      | Some (StreamAction.Error msg) => post (error_message msg)
      end
  end.

(** *** The others: one message, edited *)
Definition send_final_edit (text_buffer : string) (has_content : bool) (msg_id : string) : Prog ChannelWorld unit :=
  if has_content then revise msg_id (build_final_message (formatted text_buffer)) else Ret tt.

Fixpoint relay_loop (rx : list Received.t) (msg_id text_buffer : string) (last_edit : Z) (has_content : bool)
    : Prog ChannelWorld unit :=
  match rx with
  | [] => send_final_edit text_buffer has_content msg_id
  | Received.Lagged _ :: rx => relay_loop rx msg_id text_buffer last_edit has_content
  | Received.Event event :: rx =>
      match process_stream_event event with
      | Some (StreamAction.AppendText chunk) =>
          let text_buffer := text_buffer +:+ chunk in
          do now := ChannelRepo.ask instant in
          if (ry_throttle_ms config <=? now - last_edit)%Z then
            do _ := revise msg_id (build_streaming_message (formatted text_buffer)) in
            do edited := ChannelRepo.ask instant in
            relay_loop rx msg_id text_buffer edited true
          else relay_loop rx msg_id text_buffer last_edit true
      | Some (StreamAction.Thinking _) | None => relay_loop rx msg_id text_buffer last_edit has_content
      | Some (StreamAction.ToolCall name _) =>
          do _ := revise msg_id (build_streaming_message ("⏳ " +:+ name +:+ "...")) in
          relay_loop rx msg_id text_buffer last_edit has_content
      | Some StreamAction.Finish => send_final_edit text_buffer has_content msg_id
      | Some (StreamAction.Error msg) => revise msg_id (error_message msg)
      end
  end.

Definition run_editable (rx : list Received.t) : Prog ChannelWorld unit :=
  do sent := send_message (ry_plugin_id config) (ry_chat_id config) build_thinking_message in
  match sent with
  | Err _ => Ret tt
  | Ok thinking_msg_id =>
      do now := ChannelRepo.ask instant in
      relay_loop rx thinking_msg_id "" (now - ry_throttle_ms config)%Z false
  end.

Definition is_weixin_platform (p : PluginType.t) : bool := bool_decide (p = PluginType.Weixin).

Definition run_relay (rx : list Received.t) : Prog ChannelWorld unit :=
  if is_weixin_platform (ry_platform config) then run_weixin rx "" false else run_editable rx.
End Relay.
End ChannelStreamRelay.

(** ** The agent *)
Module ChannelMessageService.
Section Service.
Context `{SerdeJson, ChannelDb, ChannelHost}.
Import ChannelSettings.
Variable owner_user_id : string.
Local Open Scope tjuae_scope.

(** A request to the conversation service, whose error is its text. *)
Definition service {A : Type} (a : Asked.t) (f : N -> Result A string) : Prog ChannelWorld (Result A ChannelError.t) :=
  map_err ChannelError.MessageSendFailed
    (atomic (fun w => (f (ch_calls w), set_channel_calls (N.succ (ch_calls w)) (add_asked a w)))).

Definition conversation_name (name : option string) : option string :=
  match str_trim <$> name with
  | Some name => if (name =? "")%string then None else Some name
  | None => None
  end.

Definition conversation_request (session : AssistantSessionRow) (platform : PluginType.t) (agent_config : ResolvedAgentConfig)
    (assistant : option ChannelAssistantSettingResponse) (agent_type : AgentType.t) (model : ProviderWithModel)
    : CreateConversationRequest :=
  let assistant_id := assistant ≫= st_assistant_id in
  let extra := build_channel_extra (match assistant_id with Some _ => None | None => rc_backend agent_config end) in
  let name := default (channel_conversation_name platform (rc_agent_type agent_config) (rc_backend agent_config)
                         (se_chat_id session)) (conversation_name (assistant ≫= st_name)) in
  let cli := bool_decide (agent_type = AgentType.TjuaeCli) in
  mkCreateConversation (match assistant_id with Some _ => None | None => Some agent_type end) (Some name)
    (if cli then Some model else None) assistant_id (Some (platform_to_source platform)) (se_chat_id session)
    (to_string (if cli then extra else map_insert "model" (provider_to_value model) extra)).

Definition create_conversation_for_session (session : AssistantSessionRow) (platform : PluginType.t)
    : Prog ChannelWorld (Result string ChannelError.t) :=
  let! agent_config :=
    map_err (fun e => ChannelError.MessageSendFailed (ChannelError.to_string e)) (get_agent_config platform) in
  let! assistant := get_assistant_setting platform in
  let! model_config := get_model_config platform in
  let! agent_type := Ret (parse_agent_type (rc_agent_type agent_config)) in
  let req := conversation_request session platform agent_config assistant agent_type
               (resolved_model_to_provider model_config) in
  service (Asked.Create session owner_user_id req) (fun n => create_conversation n owner_user_id req).

(** The subscription is taken before the message is sent; what it will give is
    known when it is read. *)
Definition send_to_agent (session : AssistantSessionRow) (text : string) (platform : PluginType.t)
    : Prog ChannelWorld (Result string ChannelError.t) :=
  let! conversation_id :=
    match se_conversation_id session with
    | Some cid => Ret (Ok cid)
    | None => create_conversation_for_session session platform
    end in
  let! _ := service (Asked.Warmup session owner_user_id conversation_id) (fun n => warmup n owner_user_id conversation_id) in
  do subscribed := ChannelRepo.ask (fun n => has_task n conversation_id) in
  if negb subscribed
  then Ret (Err (ChannelError.MessageSendFailed ("Agent task missing after warmup for conversation " +:+ conversation_id)))
  else
    let! _ := service (Asked.Send session owner_user_id conversation_id text)
                (fun n => send_to_conversation n owner_user_id conversation_id text) in
    Ret (Ok conversation_id).
End Service.
End ChannelMessageService.

(** ** The orchestrator and the administrator *)
Module ChannelOrchestrator.
Section Orchestrator.
Context `{SerdeJson, ChannelDb, ChannelHost, ChannelStreams}.
Import ChannelSender ChannelMessageService ChannelStreamRelay.
Variable owner_user_id : string.
Local Open Scope tjuae_scope.

Definition RELAY_THROTTLE_MS : Z := 500.

Definition send_action_response (plugin_id chat_id : string) (response : ActionResponse) : Prog ChannelWorld unit :=
  match re_text response with
  | None => Ret tt
  | Some text =>
      let outgoing := mkOutgoing OutgoingMessageType.Text (Some text) (re_parse_mode response) (re_buttons response)
                        (re_keyboard response) in
      match re_behavior response with
      | ActionBehavior.Edit =>
          match re_edit_message_id response with
          | Some edit_id => do _ := edit_message plugin_id chat_id edit_id outgoing in Ret tt
          | None => Ret tt
          end
      | _ => do _ := send_message plugin_id chat_id outgoing in Ret tt
      end
  end.

(** The relay is a task of its own, with which this one ends. *)
Definition handle_dispatched (session_id : string) (conversation_id : option string) (text : string)
    (platform : PluginType.t) (plugin_id chat_id : string) : Prog ChannelWorld unit :=
  do session := SessionManager.get_session_by_id session_id in
  match session with
  | Err _ | Ok None => Ret tt
  | Ok (Some session) =>
      do sent := send_to_agent owner_user_id session text platform in
      match sent with
      | Err e =>
          do _ := send_message plugin_id chat_id (error_message ("Failed to process: " +:+ ChannelError.to_string e)) in
          Ret tt
      | Ok cid =>
          do _ := match conversation_id with
                  | None => do _ := SessionManager.bind_conversation session_id cid in Ret tt
                  | Some _ => Ret tt
                  end in
          do rx := ChannelRepo.ask (fun n => subscription n cid) in
          run_relay (mkRelayConfig platform plugin_id chat_id RELAY_THROTTLE_MS) rx
      end
  end.

Definition handle_message (msg : UnifiedIncomingMessage) : Prog ChannelWorld unit :=
  let plugin_id := PluginType.to_string (im_platform msg) in
  do result := ActionExecutor.handle_incoming_message msg in
  match result with
  | Ok (MessageResult.Action response) => send_action_response plugin_id (im_chat_id msg) response
  | Ok (MessageResult.Dispatched session_id conversation_id) =>
      handle_dispatched session_id conversation_id (im_text msg) (im_platform msg) plugin_id (im_chat_id msg)
  | Ok MessageResult.AlreadyProcessing | Err _ => Ret tt
  end.

(** *** [routes.rs] *)
Definition revoke_user (user_id : string) : Prog ChannelWorld (Result unit ChannelError.t) :=
  let! _ := SessionManager.cleanup_user_sessions user_id in
  db_step (ChannelRepo.delete_user user_id).

Definition set_channel_assistant_setting (platform : PluginType.t) (assistant_id : string) (name : option string)
    : Prog ChannelWorld (Result unit ChannelError.t) :=
  let! _ := ChannelSettings.set_assistant_setting platform assistant_id name in
  SessionManager.clear_all_sessions.

Definition set_channel_default_model_setting (platform : PluginType.t) (model : ChannelDefaultModelSetting)
    : Prog ChannelWorld (Result unit ChannelError.t) :=
  let! _ := ChannelSettings.set_model_setting platform model in
  SessionManager.clear_all_sessions.
End Orchestrator.
End ChannelOrchestrator.
