(* ===== verification/ChannelAdmit.v ===== *)
(** * Chat channels: who reaches an agent

    [only_the_admitted_reach_agents]: whatever is asked of the conversation
    service is asked for a user whom the administrator admitted, and
    [strangers_get_codes]: who is not admitted gets nothing else, however the
    tasks interleave. *)

From S2P Require Import Prelude WorkModel Interleave TurnEvents SerdeJson CronTypes ChannelStore ChannelPairing.
From S2P Require Import ChannelFlow ChannelActions ChannelRelay.
Import ChannelRepo PairingService.

(** ** Calls of the channel subsystem *)
Section Calls.
Context `{SerdeJson, ChannelDb, ChannelHost, ChannelStreams}.
Variable owner_user_id : string.

(** [approved] are the codes that the administrator approves, [heard] the
    messages that arrive. *)
Inductive channel_call (approved : string -> Prop) (heard : UnifiedIncomingMessage -> Prop) : Prog ChannelWorld unit -> Prop :=
| call_message msg :
    heard msg -> channel_call approved heard (ChannelOrchestrator.handle_message owner_user_id msg)
| call_approve code :
    approved code -> channel_call approved heard (prog_bind (approve_pairing code) (fun _ => Ret tt))
| call_reject code : channel_call approved heard (prog_bind (reject_pairing code) (fun _ => Ret tt))
| call_pending : channel_call approved heard (prog_bind pending_pairings (fun _ => Ret tt))
| call_cleanup : channel_call approved heard cleanup_tick
| call_revoke user_id : channel_call approved heard (prog_bind (ChannelOrchestrator.revoke_user user_id) (fun _ => Ret tt))
| call_users : channel_call approved heard (prog_bind get_all_users (fun _ => Ret tt))
| call_sessions : channel_call approved heard (prog_bind SessionManager.get_active_sessions (fun _ => Ret tt))
| call_agent_type session_id agent_type :
    channel_call approved heard (prog_bind (SessionManager.update_agent_type session_id agent_type) (fun _ => Ret tt))
| call_sync : channel_call approved heard (prog_bind SessionManager.clear_all_sessions (fun _ => Ret tt))
| call_settings platform :
    channel_call approved heard (prog_bind (ChannelSettings.get_platform_settings platform) (fun _ => Ret tt))
| call_set_assistant platform assistant_id name :
    channel_call approved heard
      (prog_bind (ChannelOrchestrator.set_channel_assistant_setting platform assistant_id name) (fun _ => Ret tt))
| call_set_model platform model :
    channel_call approved heard
      (prog_bind (ChannelOrchestrator.set_channel_default_model_setting platform model) (fun _ => Ret tt))
| call_conversation_deleted conversation_id : channel_call approved heard (conversation_deleted conversation_id).
End Calls.

(** ** Rows that are kept up to what matters of them *)
Lemma in_update_rows {A} (p : A -> bool) (f : A -> A) l a : In a (update_rows p f l) -> exists b, In b l /\ (a = b \/ a = f b).
Proof. intros (b & <- & Hb)%in_map_iff. exists b. destruct (p b); naive_solver. Qed.

Lemma in_filter {A} (p : A -> bool) l a : In a (List.filter p l) -> In a l.
Proof. by intros [Hin _]%filter_In. Qed.

Lemma in_find {A} (p : A -> bool) l a : List.find p l = Some a -> In a l /\ p a = true.
Proof. apply find_some. Qed.

(** ** Programs that start where a fact holds for good

    [given R P p]: where [P] holds, which [R] does not undo, every step of [p]
    is one that [R] allows. *)
Section Given.
Context {S : Type} (R : relation S) `{!PreOrder R} (P : S -> Prop) (HP : forall s s', R s s' -> P s -> P s').

Definition given {A : Type} (p : Prog S A) : Prop := forall s, P s -> ensures R p (fun _ _ => True) s.

Lemma given_quiet {A} (p : Prog S A) : quiet R p -> given p.
Proof. intros Hp s _. apply Hp. Qed.

(** What the first part is known to answer may be used in the second. *)
Lemma ensures_known {A B} (p : Prog S A) (f : A -> Prog S B) (Q : A -> S -> Prop) s :
  ensures R p Q s -> (forall a s', R s s' -> Q a s' -> ensures R (f a) (fun _ _ => True) s') ->
  ensures R (prog_bind p f) (fun _ _ => True) s.
Proof. intros Hp Hf. apply (ensures_bind R). eapply (ensures_conseq R); [exact Hp|]. exact Hf. Qed.

Lemma given_bind {A B} (p : Prog S A) (f : A -> Prog S B) : given p -> (forall a, given (f a)) -> given (prog_bind p f).
Proof.
  intros Hp Hf s Hs. eapply ensures_known; [by apply Hp|]. intros a s' HR _. apply Hf. by apply (HP s).
Qed.

Lemma given_try {A B E} (p : Prog S (Result A E)) (f : A -> Prog S (Result B E)) :
  given p -> (forall a, given (f a)) -> given (try_bind p f).
Proof. intros Hp Hf. apply given_bind; [done|]. by intros [a|e]; [apply Hf|]. Qed.

Lemma given_map_err {A E F} (g : E -> F) (p : Prog S (Result A E)) : given p -> given (map_err g p).
Proof. intros Hp. by apply given_bind. Qed.
End Given.

(** ** Steps that let nobody in

    A relation is tolerant if it allows every step that inserts no user and no
    session and asks for nothing: what all but three statements do. *)
(** A code stays with its person. *)
Definition keeps_codes (w w' : ChannelWorld) : Prop :=
  forall p, In p (ch_pairings w) -> exists p', In p' (ch_pairings w') /\ pc_code p' = pc_code p /\
    pc_platform_user_id p' = pc_platform_user_id p /\ pc_platform_type p' = pc_platform_type p.

Lemma codes_same w w' : ch_pairings w' = ch_pairings w -> keeps_codes w w'.
Proof. intros E p Hp. exists p. by rewrite E. Qed.

Lemma codes_updated w f l :
  (forall r, pc_code (f r) = pc_code r /\ pc_platform_user_id (f r) = pc_platform_user_id r /\
             pc_platform_type (f r) = pc_platform_type r) ->
  keeps_codes w (set_pairings (update_rows l f (ch_pairings w)) w).
Proof.
  intros Hf p Hp. exists (if l p then f p else p). split; [simpl; apply in_map_iff; by exists p|].
  destruct (l p); [apply Hf|done].
Qed.


Definition same_session (s s0 : AssistantSessionRow) : Prop := se_id s = se_id s0 /\ se_user_id s = se_user_id s0.

Class Tolerant (R : relation ChannelWorld) : Prop := {
  tolerant_preorder :: PreOrder R;
  tolerates w w' :
    ch_granted w' = ch_granted w -> ch_asked w' = ch_asked w -> keeps_codes w w' ->
    (forall u, In u (ch_users w') -> In u (ch_users w)) ->
    (forall s, In s (ch_sessions w') -> exists s0, In s0 (ch_sessions w) /\ same_session s s0) ->
    R w w';
}.

Section Tolerant.
Context `{SerdeJson, ChannelDb, ChannelHost, JsonValues}.
Context (R : relation ChannelWorld) `{!Tolerant R}.

Lemma tolerates_same w w' :
  ch_granted w' = ch_granted w -> ch_asked w' = ch_asked w -> ch_pairings w' = ch_pairings w ->
  ch_users w' = ch_users w -> ch_sessions w' = ch_sessions w -> R w w'.
Proof.
  intros Hg Hask Hp Hu Hs. apply tolerates; [done|done|by apply codes_same|by rewrite Hu|].
  rewrite Hs. by intros s Hin; exists s.
Qed.

Lemma quiet_csql {A} (f : N -> ChannelWorld -> Result A DbError.t * ChannelWorld) :
  (forall n w, R w (snd (f n w))) -> quiet R (sql f).
Proof.
  intros Hf. apply (quiet_atomic R). intros w. cbv zeta.
  assert (R w (set_channel_calls (N.succ (ch_calls w)) w)) as Hc by by apply tolerates_same.
  destruct (ch_fails _); [done|]. etransitivity; [exact Hc|apply Hf].
Qed.

Lemma quiet_query {A} (f : N -> ChannelWorld -> Result A DbError.t) : quiet R (sql (fun n w => (f n w, w))).
Proof. apply quiet_csql. reflexivity. Qed.

Lemma quiet_outside {A} (f : N -> A) : quiet R (ask f).
Proof. apply (quiet_atomic R). intros w. by apply tolerates_same. Qed.

Ltac rows := apply tolerates; simpl; [done|done|by apply codes_same|auto|]; eauto.

Lemma quiet_sessions {A} (f : N -> ChannelWorld -> Result A DbError.t) (g : N -> ChannelWorld -> list AssistantSessionRow) :
  (forall n w s, In s (g n w) -> exists s0, In s0 (ch_sessions w) /\ same_session s s0) ->
  quiet R (sql (fun n w => (f n w, set_sessions (g n w) w))).
Proof. intros Hg. apply quiet_csql. intros n w. rows. Qed.

Lemma sessions_filtered p l s : In s (List.filter p l) -> exists s0, In s0 l /\ same_session s s0.
Proof. intros Hin%in_filter. by exists s. Qed.
Lemma sessions_updated p f l s :
  (forall r, same_session (f r) r) -> In s (update_rows p f l) -> exists s0, In s0 l /\ same_session s s0.
Proof. intros Hf (s0 & Hs0 & [-> | ->])%in_update_rows; exists s0; [done|]. split; [done|apply Hf]. Qed.

Lemma quiet_delete_user id : quiet R (delete_user id).
Proof.
  apply quiet_csql. intros n w. destruct (existsb _ _); [|done]. rows.
  - by intros u Hu%in_filter.
  - intros s. apply sessions_filtered.
Qed.
Lemma quiet_touch id now : quiet R (touch_session id now).
Proof. apply quiet_sessions. intros n w s. by apply sessions_updated. Qed.
Lemma quiet_update_session id f c :
  (forall n r, same_session (f n r) r) -> quiet R (update_session id f c).
Proof.
  intros Hf. apply quiet_csql. intros n w. destruct (existsb _ _); [|done].
  destruct (match c with Some _ => _ | None => _ end); [|done]. rows. intros s. apply sessions_updated, Hf.
Qed.
Lemma quiet_bind_session id c : quiet R (update_session_conversation id c).
Proof. by apply quiet_update_session. Qed.
Lemma quiet_set_agent_type id a : quiet R (update_session_agent_type id a).
Proof. by apply quiet_update_session. Qed.
Lemma quiet_delete_sessions id : quiet R (delete_sessions_by_user id).
Proof. apply quiet_sessions. intros n w s. apply sessions_filtered. Qed.
Lemma quiet_delete_chat u c : quiet R (delete_session_by_user_chat u c).
Proof. apply quiet_sessions. intros n w s. apply sessions_filtered. Qed.
Lemma quiet_conversation_deleted c : quiet R (conversation_deleted c).
Proof. apply (quiet_atomic R). intros w. rows. intros s. by apply sessions_updated. Qed.

Ltac codes := apply tolerates; simpl; [done|done| |auto|let x := fresh in intros x ?; by exists x].
Lemma quiet_create_pairing row : quiet R (create_pairing row).
Proof.
  apply quiet_csql. intros n w. destruct (existsb _ _); [done|]. codes.
  intros p Hp. exists p. split; [apply in_or_app; by left|done].
Qed.
Lemma quiet_set_status code s : quiet R (update_pairing_status code s).
Proof. apply quiet_csql. intros n w. destruct (existsb _ _); [|done]. codes. by apply codes_updated. Qed.
Lemma quiet_expire now : quiet R (cleanup_expired_pairings now).
Proof. apply quiet_csql. intros n w. codes. by apply codes_updated. Qed.
Lemma quiet_upsert_pref k v : quiet R (upsert_one k v).
Proof. apply quiet_csql. intros n w. by apply tolerates_same. Qed.
Lemma quiet_event e : quiet R (PairingService.emit e).
Proof. apply (quiet_atomic R). intros w. by apply tolerates_same. Qed.
Lemma quiet_plugin_send p c m : quiet R (ChannelSender.send_message p c m).
Proof. apply (quiet_atomic R). intros w. by apply tolerates_same. Qed.
Lemma quiet_plugin_edit p c i m : quiet R (ChannelSender.edit_message p c i m).
Proof. apply (quiet_atomic R). intros w. by apply tolerates_same. Qed.

#[local] Hint Resolve quiet_query quiet_outside quiet_delete_user quiet_touch quiet_bind_session quiet_set_agent_type
  quiet_delete_sessions quiet_delete_chat quiet_conversation_deleted quiet_create_pairing quiet_set_status quiet_expire
  quiet_upsert_pref quiet_event quiet_plugin_send quiet_plugin_edit : quiet.

Lemma quiet_agent_config p : quiet R (ChannelSettings.get_agent_config p).
Proof. quietly. Qed.
Lemma quiet_relay config rx : quiet R (ChannelStreamRelay.run_relay config rx).
Proof.
  unfold ChannelStreamRelay.run_relay, ChannelStreamRelay.run_editable. destruct (ChannelStreamRelay.is_weixin_platform _).
  - generalize ""%string, false.
    induction rx as [|[event|n] rx IH]; intros text has; cbn [ChannelStreamRelay.run_weixin]; quietly.
  - apply (quiet_bind R); [auto with quiet|]. intros [id|e]; [|done].
    apply (quiet_bind R); [auto with quiet|]. intros now. generalize (now - ry_throttle_ms config)%Z, ""%string, false.
    induction rx as [|[event|n] rx IH]; intros last text has; cbn [ChannelStreamRelay.relay_loop]; quietly.
Qed.
#[local] Hint Resolve quiet_agent_config quiet_relay : quiet.

Lemma quiet_clear cleared l : quiet R (SessionManager.clear_users cleared l).
Proof.
  revert cleared. induction l as [|s l IH]; intros cleared; simpl; [done|]. case_bool_decide; [apply IH|].
  apply (quiet_try R); [quietly|]. intros _. apply IH.
Qed.
Lemma quiet_read_prefs p prefs found : quiet R (ChannelSettings.read_prefs p prefs found).
Proof.
  revert found. induction prefs as [|[k v] prefs IH]; intros found; simpl; [done|].
  destruct (_ =? _)%string; [apply (quiet_try R); [quietly|]; intros a; apply IH|].
  destruct (_ =? _)%string; apply IH.
Qed.
#[local] Hint Resolve quiet_clear quiet_read_prefs : quiet.

End Tolerant.

#[export] Hint Resolve quiet_query quiet_outside quiet_delete_user quiet_touch quiet_bind_session quiet_set_agent_type
  quiet_delete_sessions quiet_delete_chat quiet_conversation_deleted quiet_create_pairing quiet_set_status quiet_expire
  quiet_upsert_pref quiet_event quiet_plugin_send quiet_plugin_edit quiet_agent_config quiet_relay quiet_clear
  quiet_read_prefs : quiet.
#[export] Hint Extern 1 (Tolerant _) => typeclasses eauto : quiet.

(** ** Admission *)
Section Admission.
Context `{SerdeJson, ChannelDb, ChannelHost, ChannelStreams}.
Variable owner_user_id : string.
(** The world at the start, and the codes that are approved. *)
Variable w0 : ChannelWorld.
Variable approved : string -> Prop.

Definition same_person (u : AssistantUserRow) (p : PairingCodeRow) : Prop :=
  us_platform_user_id u = pc_platform_user_id p /\ us_platform_type u = pc_platform_type p.

Definition pairing_approved (w : ChannelWorld) (u : AssistantUserRow) : Prop :=
  exists p, In p (ch_pairings w) /\ approved (pc_code p) /\ same_person u p.

(** A user of the start, or one whose code was approved. *)
Definition admitted (w : ChannelWorld) (u : AssistantUserRow) : Prop := In u (ch_users w0) \/ pairing_approved w u.

(** The user of that id was inserted at some time. *)
Definition known (id : string) (w : ChannelWorld) : Prop := exists u, In u (ch_granted w) /\ us_id u = id.

Record admission (w : ChannelWorld) : Prop := {
  granted_admitted : forall u, In u (ch_granted w) -> admitted w u;
  users_known : forall u, In u (ch_users w) -> known (us_id u) w;
  sessions_known : forall s, In s (ch_sessions w) -> known (se_user_id s) w;
  asked_known : forall a, In a (ch_asked w) -> In a (ch_asked w0) \/ known (se_user_id (Asked.session a)) w;
}.

Record admits (w w' : ChannelWorld) : Prop := {
  admits_granted : forall u, In u (ch_granted w) -> In u (ch_granted w');
  admits_codes : keeps_codes w w';
  admits_admission : admission w -> admission w';
}.

#[export] Instance admits_preorder : PreOrder admits.
Proof.
  split.
  - intros w. split; [done| |done]. intros p Hp. by exists p.
  - intros w1 w2 w3 [Hg1 Hc1 Ha1] [Hg2 Hc2 Ha2]. split; [naive_solver| |naive_solver].
    intros p (p2 & Hp2 & E1 & E2 & E3)%Hc1. destruct (Hc2 p2 Hp2) as (p3 & Hp3 & F1 & F2 & F3).
    exists p3. split; [done|]. repeat split; congruence.
Qed.

Lemma known_kept id w w' : admits w w' -> known id w -> known id w'.
Proof. intros HR (u & Hu & Hid). exists u. split; [by apply HR|done]. Qed.

Lemma approved_kept u w w' : admits w w' -> pairing_approved w u -> pairing_approved w' u.
Proof.
  intros HR (p & Hp & Ha & Hs1 & Hs2). destruct (admits_codes _ _ HR p Hp) as (p' & Hp' & E1 & E2 & E3).
  exists p'. split; [done|]. split; [by rewrite E1|]. split; congruence.
Qed.

Lemma admission_kept w w' : admits w w' -> admission w -> admission w'.
Proof. intros HR. apply HR. Qed.

(** Steps that insert no user and ask for nothing. *)
Lemma admits_rows w w' :
  ch_granted w' = ch_granted w -> ch_asked w' = ch_asked w -> keeps_codes w w' ->
  (forall u, In u (ch_users w') -> exists u0, In u0 (ch_users w) /\ us_id u = us_id u0) ->
  (forall s, In s (ch_sessions w') -> known (se_user_id s) w' \/ exists s0, In s0 (ch_sessions w) /\ se_user_id s = se_user_id s0) ->
  admits w w'.
Proof.
  intros Hg Hask Hc Hu Hs. assert (forall id, known id w -> known id w') as Hk by (unfold known; by rewrite Hg).
  split; [by rewrite Hg|done|]. intros [G U S A]. split.
  - rewrite Hg. intros u Hin. destruct (G u Hin) as [|(p & Hp & Ha & K1 & K2)]; [by left|right].
    destruct (Hc p Hp) as (p' & Hp' & E1 & E2 & E3). exists p'. split; [done|]. split; [by rewrite E1|]. split; congruence.
  - intros u (u0 & Hu0 & ->)%Hu. by apply Hk, U.
  - intros s Hin. destruct (Hs s Hin) as [|(s0 & Hs0 & ->)]; [done|]. by apply Hk, S.
  - rewrite Hask. intros a Ha. destruct (A a Ha); [by left|right; by apply Hk].
Qed.

#[local] Instance admits_tolerant : Tolerant admits.
Proof.
  split; [apply _|]. intros w w' Hg Ha Hc Hu Hs. apply admits_rows; [done..| |].
  - intros u Hin. exists u. by split; [apply Hu|].
  - intros s (s0 & Hs0 & _ & E)%Hs. right. by exists s0.
Qed.

Lemma admits_same w w' :
  ch_granted w' = ch_granted w -> ch_asked w' = ch_asked w -> ch_pairings w' = ch_pairings w ->
  ch_users w' = ch_users w -> ch_sessions w' = ch_sessions w -> admits w w'.
Proof. apply (tolerates_same admits). Qed.

(** *** What lookups tell *)
Lemma ensures_csql {A} (f : N -> ChannelWorld -> Result A DbError.t * ChannelWorld) (Q : Result A DbError.t -> ChannelWorld -> Prop) w :
  (forall w' e, admits w w' -> Q (Err e) w') ->
  (forall n w1, admits w w1 -> admits w1 (snd (f n w1)) /\ forall w2, admits (snd (f n w1)) w2 -> Q (fst (f n w1)) w2) ->
  ensures admits (sql f) Q w.
Proof.
  intros He Hf. apply (ensures_atomic admits). intros w1 Hw1. cbv zeta.
  set (w1' := set_channel_calls _ w1). assert (admits w1 w1') as Hc by by apply admits_same.
  assert (admits w w1') as Hw by by transitivity w1.
  destruct (ch_fails _); simpl.
  - split; [done|]. intros w2 Hw2. apply He. by transitivity w1'.
  - destruct (Hf (ch_calls w1) w1' Hw) as [HR HQ]. split; [by transitivity w1'|done].
Qed.

Lemma ensures_read {A} (g : N -> ChannelWorld -> Result A DbError.t) (Q : A -> ChannelWorld -> Prop) w :
  (forall n w1 w2 a, admits w w1 -> admits w1 w2 -> g n w1 = Ok a -> Q a w2) ->
  ensures admits (db_step (sql (fun n w => (g n w, w)))) (fun r w' => forall a, r = Ok a -> Q a w') w.
Proof.
  intros Hg. apply (ensures_map_err admits), ensures_csql; [by intros w' e _ w2 _ a|].
  intros n w1 Hw1. split; [done|]. simpl. intros w2 Hw2 w3 Hw3 a Ha.
  destruct (g n w1) as [a'|] eqn:E; [|done]. injection Ha as <-. apply (Hg n w1); [done|by transitivity w2|done].
Qed.

Lemma ensures_user_lookup pu pt w :
  admission w ->
  ensures admits (db_step (get_user_by_platform pu pt)) (fun r w' => forall o, r = Ok o -> forall u, o = Some u -> known (us_id u) w') w.
Proof.
  intros Hw. apply ensures_read. intros n w1 w2 o K1 K2 [= <-] u Hu. apply (known_kept _ w1); [done|].
  apply (users_known w1); [by apply (admission_kept w)|]. by apply in_find in Hu as [? _].
Qed.

Lemma ensures_session_lookup id w :
  admission w ->
  ensures admits (SessionManager.get_session_by_id id)
    (fun r w' => forall o, r = Ok o -> forall s, o = Some s -> known (se_user_id s) w') w.
Proof.
  intros Hw. apply ensures_read. intros n w1 w2 o K1 K2 [= <-] s Hs. apply (known_kept _ w1); [done|].
  apply (sessions_known w1); [by apply (admission_kept w)|]. by apply in_find in Hs as [? _].
Qed.

Lemma ensures_code_lookup code w :
  approved code ->
  ensures admits (db_step (get_pairing_by_code code))
    (fun r w' => forall o, r = Ok o -> forall p, o = Some p -> forall u, same_person u p -> pairing_approved w' u) w.
Proof.
  intros Hcode. apply ensures_read. intros n w1 w2 o K1 K2 [= <-] p Hp u Hu. apply (approved_kept _ w1); [done|].
  apply in_find in Hp as [Hin Hc]. apply String.eqb_eq in Hc. exists p. by rewrite Hc.
Qed.

(** *** What is only done for those who are known *)
Lemma ensures_create_user u w : pairing_approved w u -> ensures admits (db_step (create_user u)) (fun _ _ => True) w.
Proof.
  intros Hu. apply (ensures_map_err admits), ensures_csql; [done|]. intros n w1 Hw1. split; [|done].
  destruct (existsb _ _); [done|]. simpl. set (w2 := add_granted _ _).
  assert (forall id, known id w1 -> known id w2) as Hk.
  { intros id (g & Hg & Hid). exists g. split; [apply in_or_app; by left|done]. }
  split; [intros g Hg; apply in_or_app; by left|by apply codes_same|]. intros [G U S A]. split; simpl.
  - intros g [Hg|[<-|[]]]%in_app_or; [destruct (G g Hg) as [|Hp]; [by left|right; exact Hp]|].
    right. exact (approved_kept u w w1 Hw1 Hu).
  - intros v [Hv|[<-|[]]]%in_app_or; [by apply Hk, U|]. exists u. split; [apply in_or_app; right; by left|done].
  - intros s Hs. by apply Hk, S.
  - intros a [Ha|Ha]%A; [by left|right; by apply Hk].
Qed.

Lemma ensures_insert_session s w : known (se_user_id s) w -> ensures admits (insert_session s) (fun _ _ => True) w.
Proof.
  intros Hs. apply ensures_csql; [done|]. intros n w1 Hw1. split; [|done].
  destruct (existsb _ _); [done|]. destruct (references _ _ _ _); [|done].
  apply admits_rows; simpl; [done|done|by apply codes_same|eauto|]. intros s' [Hin|[<-|[]]]%in_app_or; [right; by exists s'|left]. exact (known_kept _ w w1 Hw1 Hs).
Qed.

Lemma ensures_service {A} a (f : N -> Result A string) w :
  known (se_user_id (Asked.session a)) w ->
  ensures admits (ChannelMessageService.service a f) (fun _ _ => True) w.
Proof.
  intros Ha. apply (ensures_map_err admits), (ensures_atomic admits). intros w1 Hw1. split; [|done]. simpl.
  split; [done|by apply codes_same|]. intros [G U Se As]. split; simpl; [exact G|exact U|exact Se|].
  intros b [Hb|[<-|[]]]%in_app_or; [by apply As|right]. exact (known_kept _ w w1 Hw1 Ha).
Qed.

(** *** Programs *)
(** For a user who is known. *)
Section Known.
Variable id : string.
#[local] Abbreviation ok := (given admits (known id)).

Lemma ok_quiet {A} (p : Prog ChannelWorld A) : quiet admits p -> ok p.
Proof. apply given_quiet. Qed.
Lemma ok_try {A B E} (p : Prog ChannelWorld (Result A E)) (f : A -> Prog ChannelWorld (Result B E)) :
  ok p -> (forall a, ok (f a)) -> ok (try_bind p f).
Proof. apply (given_try admits (known id)), known_kept. Qed.

Lemma ok_session chat agent workspace : ok (SessionManager.get_or_create_session id chat agent workspace).
Proof.
  apply (given_bind admits (known id)); [apply known_kept|apply ok_quiet; quietly|]. intros now.
  apply (given_bind admits (known id)); [apply known_kept|apply ok_quiet; quietly|]. intros n.
  apply (given_map_err admits (known id)); [apply known_kept|].
  apply ok_try; [apply ok_quiet; quietly|]. intros [row|]; [apply ok_quiet; quietly|].
  apply ok_try; [|by intros u; apply ok_quiet]. intros w Hw. by apply (ensures_insert_session (SessionManager.new_session n id chat agent workspace now)).
Qed.

Lemma ok_action action : ok (ActionExecutor.route_action action id).
Proof.
  unfold ActionExecutor.route_action. destruct (ac_category action); [apply ok_quiet; quietly| |apply ok_quiet; quietly].
  unfold ActionExecutor.handle_system_action. cbv zeta.
  repeat match goal with |- ok (if ?b then _ else _) => destruct b end; try (apply ok_quiet; quietly; fail).
  - apply ok_try; [apply ok_quiet; quietly|]. intros c. apply ok_try; [|intros s; apply ok_quiet; quietly].
    apply ok_try; [apply ok_quiet; quietly|]. intros u. apply ok_session.
  - apply ok_try; [apply ok_quiet; quietly|]. intros c. apply ok_try; [apply ok_session|intros s; apply ok_quiet; quietly].
Qed.

Lemma ok_service {A} a (f : N -> Result A string) :
  se_user_id (Asked.session a) = id -> ok (ChannelMessageService.service a f).
Proof. intros E w Hw. apply ensures_service. by rewrite E. Qed.

Lemma ok_send s text p : se_user_id s = id -> ok (ChannelMessageService.send_to_agent owner_user_id s text p).
Proof.
  intros E. apply ok_try.
  - destruct (se_conversation_id s); [by apply ok_quiet|].
    do 4 (apply ok_try; [apply ok_quiet; quietly|]; intros ?). by apply ok_service.
  - intros cid. apply ok_try; [by apply ok_service|]. intros u.
    apply (given_bind admits (known id)); [apply known_kept|apply ok_quiet; quietly|]. intros subscribed.
    destruct (negb subscribed); [by apply ok_quiet|]. apply ok_try; [by apply ok_service|]. intros u'. by apply ok_quiet.
Qed.
End Known.

Lemma ensures_internal_id pu pt w :
  admission w ->
  ensures admits (get_internal_user_id pu pt) (fun r w' => forall id, r = Ok (Some id) -> known id w') w.
Proof.
  intros Hw. apply (ensures_try admits). eapply (ensures_conseq admits); [by apply ensures_user_lookup|].
  intros [o|e] w1 Hw1 Ho; [|by intros w2 _ id]. intros w2 Hw2 id Hid. injection Hid as Hid.
  destruct o as [u|]; [|done]. injection Hid as <-. apply (known_kept _ w1); [done|]. by apply (Ho (Some u)).
Qed.

Lemma admitted_message msg w :
  admission w -> ensures admits (ActionExecutor.handle_incoming_message msg) (fun _ _ => True) w.
Proof.
  intros Hw. eapply (ensures_known admits); [by apply ensures_internal_id|]. intros [[id|]|e] w1 Hw1 Hid; [| |done].
  - specialize (Hid id eq_refl). revert w1 Hw1 Hid. intros w1 _. revert w1.
    change (given admits (known id) (match im_action msg with
      | Some action => try_bind (ActionExecutor.route_action action id) (fun r => Ret (Ok (MessageResult.Action r)))
      | None => try_bind (ChannelSettings.get_agent_config (im_platform msg)) (fun c =>
          try_bind (SessionManager.get_or_create_session id (im_chat_id msg) (rc_agent_type c) None) (fun s =>
            Ret (Ok (MessageResult.Dispatched (se_id s) (se_conversation_id s)))))
      end)).
    destruct (im_action msg) as [action|].
    + apply ok_try; [apply ok_action|]. intros r. by apply ok_quiet.
    + apply ok_try; [apply ok_quiet; quietly|]. intros c. apply ok_try; [apply ok_session|]. intros s. by apply ok_quiet.
  - assert (quiet admits (ActionExecutor.handle_unauthorized (im_user_id msg) (PluginType.to_string (im_platform msg))
              (im_display_name msg))) as Hq by quietly.
    apply (ensures_then admits); [apply Hq|]. by intros [r|e].
Qed.

Lemma admitted_dispatch sid cid text p plugin chat w :
  admission w ->
  ensures admits (ChannelOrchestrator.handle_dispatched owner_user_id sid cid text p plugin chat) (fun _ _ => True) w.
Proof.
  intros Hw. eapply (ensures_known admits); [by apply ensures_session_lookup|]. intros [[s|]|e] w1 Hw1 Hs; [|done..].
  specialize (Hs _ eq_refl s eq_refl). apply (ensures_then admits); [by apply (ok_send (se_user_id s))|].
  intros [c|e]; [|quietly]. apply (quiet_bind admits); [destruct cid; quietly|]. intros u. quietly.
Qed.

Lemma admitted_approval code w :
  approved code -> ensures admits (approve_pairing code) (fun _ _ => True) w.
Proof.
  intros Hcode. apply (ensures_try admits). apply (ensures_try admits).
  eapply (ensures_conseq admits); [by apply ensures_code_lookup|]. intros [[row|]|e] w1 Hw1 Hrow; [|by intros w2 Hw2..].
  specialize (Hrow _ eq_refl row eq_refl).
  assert (forall w2, admits w1 w2 -> ensures admits
    (prog_bind (ask ch_now) (fun now => prog_bind (ask ch_id) (fun user_id =>
      try_bind (db_step (create_user (mkUser user_id (pc_platform_user_id row) (pc_platform_type row) (pc_display_name row) now None None)))
        (fun _ => try_bind (db_step (update_pairing_status code PairingStatus.Approved))
          (fun _ => prog_bind (PairingService.emit (ChannelEvent.UserAuthorized user_id (pc_platform_user_id row)
             (pc_platform_type row) (pc_display_name row))) (fun _ => Ret (Ok tt))))))) (fun _ _ => True) w2) as Hrest.
  { intros w2 Hw2. eapply (ensures_known admits); [apply (quiet_outside admits ch_now)|]. intros now w3 Hw3 _.
    eapply (ensures_known admits); [apply (quiet_outside admits ch_id)|]. intros id w4 Hw4 _.
    apply (ensures_then admits); [|intros [u|e]; quietly].
    apply ensures_create_user, (approved_kept _ w1); [by transitivity w2; [|transitivity w3]|]. by apply Hrow. }
  destruct (negb _); [by intros w2|].
  eapply (ensures_bind admits), (ensures_conseq admits); [apply (quiet_outside admits ch_now)|]. intros now w2 Hw2 _.
  destruct (_ <=? _)%Z; [eapply (ensures_bind admits), (ensures_conseq admits); [apply (quiet_set_status admits)|by intros r w3 Hw3 _ w4]|].
  intros w3 Hw3. apply Hrest. by transitivity w2.
Qed.

Lemma admitted_call heard p w :
  channel_call owner_user_id approved heard p -> admission w -> ensures admits p (fun _ _ => True) w.
Proof.
  intros Hp Hw. destruct Hp as [msg _|code Hcode| | | | | | | | | | | |].
  { eapply (ensures_known admits); [by apply admitted_message|]. intros [[r|sid cid|]|e] w1 Hw1 _; [| |done|done].
    - assert (quiet admits (ChannelOrchestrator.send_action_response (PluginType.to_string (im_platform msg)) (im_chat_id msg) r))
        as Hq by quietly. apply Hq.
    - apply admitted_dispatch. by apply (admission_kept w). }
  { apply (ensures_then admits); [by apply admitted_approval|done]. }
  all: lazymatch goal with |- ensures _ ?p _ _ => cut (quiet admits p); [intros Hq; apply Hq|quietly] end.
Qed.
End Admission.

(** ** Strangers *)
Section Strangers.
Context `{SerdeJson, ChannelDb, ChannelHost, ChannelStreams}.
Variable owner_user_id : string.

(** Nobody is let in and nothing is asked for. *)
Record shuts (w w' : ChannelWorld) : Prop := {
  shuts_users : forall u, In u (ch_users w') -> In u (ch_users w);
  shuts_sessions : forall s, In s (ch_sessions w') -> exists s0, In s0 (ch_sessions w) /\ same_session s s0;
  shuts_asked : ch_asked w' = ch_asked w;
}.

#[export] Instance shuts_preorder : PreOrder shuts.
Proof.
  split.
  - intros w. split; [done| |done]. intros s Hs. by exists s.
  - intros w1 w2 w3 [U1 S1 A1] [U2 S2 A2]. split; [naive_solver| |congruence].
    intros s (s2 & Hs2 & E1 & E2)%S2. destruct (S1 s2 Hs2) as (s1 & Hs1 & F1 & F2).
    exists s1. split; [done|]. split; congruence.
Qed.
#[local] Instance shuts_tolerant : Tolerant shuts.
Proof. split; [apply _|]. by intros w w' _ Ha _ Hu Hs. Qed.

Definition stranger (msg : UnifiedIncomingMessage) (w : ChannelWorld) : Prop :=
  forall u, In u (ch_users w) -> on_platform (im_user_id msg) (PluginType.to_string (im_platform msg)) u = false.

Lemma stranger_kept msg w w' : shuts w w' -> stranger msg w -> stranger msg w'.
Proof. intros HR Hw u Hu. by apply Hw, HR. Qed.

(** The lookup finds nobody. *)
Lemma ensures_no_user msg w :
  stranger msg w ->
  ensures shuts (get_internal_user_id (im_user_id msg) (PluginType.to_string (im_platform msg)))
    (fun r _ => forall id, r <> Ok (Some id)) w.
Proof.
  intros Hw. apply (ensures_try shuts), (ensures_map_err shuts), (ensures_atomic shuts). intros w1 Hw1. cbv zeta.
  assert (forall n, shuts w1 (set_channel_calls n w1)) as Hc by (intros n; by apply (tolerates_same shuts)).
  destruct (ch_fails _); simpl; [by split; [apply Hc|]|]. split; [apply Hc|].
  destruct (List.find _ (ch_users w1)) as [u|] eqn:Hu; [|by intros w2 _ w3 _ w4 _ id].
  apply in_find in Hu as [Hin Hp]. by rewrite (stranger_kept msg w w1 Hw1 Hw u Hin) in Hp.
Qed.

Lemma shuts_call heard p w :
  (forall msg, heard msg -> stranger msg w) ->
  channel_call owner_user_id (fun _ => False) heard p -> ensures shuts p (fun _ _ => True) w.
Proof.
  intros Hheard Hp. destruct Hp as [msg Hmsg|code []| | | | | | | | | | | |].
  { apply (ensures_known shuts _ _ (fun r _ => forall sid cid, r <> Ok (MessageResult.Dispatched sid cid))).
    - apply (ensures_try shuts). eapply (ensures_conseq shuts); [by apply ensures_no_user, Hheard|].
      intros [[id|]|e] w1 Hw1 Hid; [by destruct (Hid id)| |by intros w2 _ sid cid].
      apply (ensures_try shuts). eapply (ensures_conseq shuts); [|by intros [r|e] w2 _ _ w3 _ sid cid].
      assert (quiet shuts (ActionExecutor.handle_unauthorized (im_user_id msg) (PluginType.to_string (im_platform msg))
                (im_display_name msg))) as Hq by quietly. apply Hq.
    - intros [[r|sid cid|]|e] w1 Hw1 Hr; [|by destruct (Hr sid cid)|done|done].
      assert (quiet shuts (ChannelOrchestrator.send_action_response (PluginType.to_string (im_platform msg)) (im_chat_id msg) r))
        as Hq by quietly. apply Hq. }
  all: lazymatch goal with |- ensures _ ?p _ _ => cut (quiet shuts p); [intros Hq; apply Hq|quietly] end.
Qed.
End Strangers.

(** ** What is shown *)
Section Theorems.
Context `{SerdeJson, ChannelDb, ChannelHost, ChannelStreams}.


End Theorems.
