(* ===== verification/ChannelCodes.v ===== *)
(** * Chat channels: what becomes of a code

    [request_leaves_one_code]: a stranger's request leaves them one code that
    may be approved, of six digits and for ten minutes; [approval_outcome]:
    what approving a code does, on every branch. *)

From S2P Require Import Prelude WorkModel Interleave TurnEvents CronTypes ChannelStore ChannelPairing ChannelAdmit.
From stdpp Require Import pretty.
Import ChannelRepo PairingService.

(** ** Six digits *)
Definition is_digit (c : Ascii.ascii) : bool := (48 <=? Ascii.N_of_ascii c)%N && (Ascii.N_of_ascii c <=? 57)%N.
Definition all_digits (s : string) : bool := forallb is_digit (String.list_ascii_of_string s).

Lemma digits_app s t : all_digits (s +:+ t) = all_digits s && all_digits t.
Proof.
  unfold all_digits. induction s as [|c s IH]; [done|]. simpl. rewrite IH. by rewrite andb_assoc.
Qed.

Lemma str_length_app s t : String.length (s +:+ t) = String.length s + String.length t.
Proof. induction s as [|c s IH]; [done|]. simpl. by rewrite IH. Qed.

Lemma digit_char n : (n < 10)%N -> is_digit (pretty_N_char n) = true.
Proof.
  assert (forallb (fun k => is_digit (pretty_N_char (N.of_nat k))) (List.seq 0 10) = true) as Hall by done.
  rewrite forallb_forall in Hall. intros Hn. specialize (Hall (N.to_nat n)). rewrite N2Nat.id in Hall.
  apply Hall, in_seq. lia.
Qed.

Lemma pretty_go_digits k : forall n s, (n < 10 ^ N.of_nat k)%N ->
  String.length (pretty_N_go n s) <= k + String.length s /\ all_digits (pretty_N_go n s) = all_digits s.
Proof.
  induction k as [|k IH]; intros n s Hn.
  - assert (n = 0)%N as -> by (simpl in Hn; lia). by rewrite pretty_N_go_0.
  - destruct (decide (n = 0)%N) as [-> |Hnz]; [rewrite pretty_N_go_0; split; [lia|done]|].
    rewrite pretty_N_go_step by lia.
    destruct (IH (n / 10)%N (String (pretty_N_char (n mod 10)) s)) as [Hl Hd].
    { apply N.Div0.div_lt_upper_bound. rewrite Nat2N.inj_succ, N.pow_succ_r' in Hn. lia. }
    simpl in Hl. split; [lia|]. rewrite Hd. unfold all_digits. simpl.
    by rewrite digit_char by (apply N.mod_lt; lia).
Qed.

Lemma zeros_digits n : String.length (zeros n) = n /\ all_digits (zeros n) = true.
Proof.
  induction n as [|n [IHl IHd]]; [done|]. change (zeros (Datatypes.S n)) with ("0" +:+ zeros n).
  rewrite str_length_app, digits_app, IHd. simpl. split; [lia|done].
Qed.

Lemma pairing_code_digits num : String.length (pairing_code num) = 6 /\ all_digits (pairing_code num) = true.
Proof.
  unfold pairing_code, pad_zeros, PAIRING_CODE_LENGTH. set (n := (num mod _)%N).
  assert (n < 10 ^ N.of_nat 6)%N as Hn by (apply N.mod_lt; done).
  assert (String.length (pretty n) <= 6 /\ all_digits (pretty n) = true) as [Hl Hd].
  { unfold pretty, pretty_N. destruct (decide (n = 0)%N); [split; [simpl; lia|done]|].
    destruct (pretty_go_digits 6 n "" Hn) as [Hl Hd]. simpl in Hl. split; [lia|by rewrite Hd]. }
  destruct (zeros_digits (6 - String.length (pretty n))) as [Hz Hzd].
  split; [|by rewrite digits_app, Hzd, Hd]. rewrite str_length_app. lia.
Qed.

(** ** Running alone *)
Section Alone.
Context `{ChannelDb}.

Definition tick (w : ChannelWorld) : ChannelWorld := set_channel_calls (N.succ (ch_calls w)) w.

Lemma run_db {A} (f : N -> ChannelWorld -> Result A DbError.t * ChannelWorld) w :
  run (db_step (sql f)) w =
    if ch_fails (ch_calls w) then (Err (ChannelError.Database (DbError.Query "statement failed")), tick w)
    else match f (ch_calls w) (tick w) with
         | (Ok a, w') => (Ok a, w')
         | (Err e, w') => (Err (ChannelError.Database e), w')
         end.
Proof.
  unfold db_step. rewrite run_map_err. simpl. unfold tick. destruct (ch_fails _); [done|]. by destruct (f _ _) as [[]].
Qed.

Lemma run_db_ok {A} (f : N -> ChannelWorld -> Result A DbError.t * ChannelWorld) w a w' :
  run (db_step (sql f)) w = (Ok a, w') -> f (ch_calls w) (tick w) = (Ok a, w').
Proof. rewrite run_db. destruct (ch_fails _); [done|]. destruct (f _ _) as [[a'|e] w1]; [|done]. by intros [= -> ->]. Qed.

(** *** The codes of before *)
Definition spoken_for (u pt : string) (l : list PairingCodeRow) (r : PairingCodeRow) : bool :=
  existsb (fun x => same_user u pt x && has_code (pc_code x) r) l.
Definition open_of (u pt : string) (r : PairingCodeRow) : bool := is_pending r && same_user u pt r.

Lemma update_rows_twice {A} (p q : A -> bool) (f : A -> A) l :
  (forall r, f (f r) = f r) -> (forall r, q (f r) = q r) ->
  update_rows q f (update_rows p f l) = update_rows (fun r => p r || q r) f l.
Proof.
  intros Hf Hq. unfold update_rows. rewrite map_map. apply map_ext. intros r.
  destruct (p r); simpl; [rewrite Hq, Hf; by destruct (q r)|done].
Qed.

Lemma update_rows_none {A} (p : A -> bool) (f : A -> A) l : (forall r, r ∈ l -> p r = false) -> update_rows p f l = l.
Proof.
  unfold update_rows. induction l as [|r l IH]; [done|]. intros Hp. simpl. rewrite Hp by set_solver.
  f_equal. apply IH. set_solver.
Qed.

Lemma update_rows_ext {A} (p q : A -> bool) (f : A -> A) l :
  (forall r, r ∈ l -> p r = q r) -> update_rows p f l = update_rows q f l.
Proof. intros Hp. unfold update_rows. apply map_ext_in. intros r Hr. by rewrite Hp by (by apply list_elem_of_In). Qed.

Lemma expire_each u pt l : forall w w',
  run (try_each (fun row =>
         if same_user u pt row then db_step (update_pairing_status (pc_code row) PairingStatus.Expired)
         else Ret (Ok tt)) l) w = (Ok tt, w') ->
  ch_users w' = ch_users w /\
  ch_pairings w' = update_rows (spoken_for u pt l) (set_status PairingStatus.Expired) (ch_pairings w).
Proof.
  induction l as [|x l IH]; intros w w' Hr.
  - injection Hr as <-. split; [done|]. symmetry. by apply update_rows_none.
  - simpl in Hr. apply run_try_ok in Hr as ([] & w1 & Hx & Hl). apply IH in Hl as [-> ->].
    enough (ch_users w1 = ch_users w /\
            ch_pairings w1 = update_rows (fun r => same_user u pt x && has_code (pc_code x) r)
                               (set_status PairingStatus.Expired) (ch_pairings w)) as [-> ->].
    { split; [done|]. by apply update_rows_twice. }
    destruct (same_user u pt x).
    + apply run_db_ok in Hx. simpl in Hx. destruct (existsb _ _); [|done]. by injection Hx as <-.
    + injection Hx as <-. split; [done|]. symmetry. by apply update_rows_none.
Qed.

Lemma expired_before `{!ChannelDbOk} u pt w w' : NoDup (map pc_code (ch_pairings w)) ->
  run (expire_user_pending_codes u pt) w = (Ok tt, w') ->
  ch_users w' = ch_users w /\
  ch_pairings w' = update_rows (open_of u pt) (set_status PairingStatus.Expired) (ch_pairings w).
Proof.
  intros Hnd Hr. apply run_try_ok in Hr as (l & w1 & Hl & Hr). apply run_db_ok in Hl. injection Hl as <- <-.
  apply expire_each in Hr as [-> ->]. split; [done|]. apply update_rows_ext. intros r Hr.
  apply eq_true_iff_eq. unfold spoken_for, open_of. rewrite existsb_exists, andb_true_iff. split.
  - intros (x & Hx & [Hu Hc]%andb_true_iff). apply list_elem_of_In in Hx. rewrite order_desc_permutation in Hx.
    apply list_elem_of_In, filter_In in Hx as [Hx Hp]. apply list_elem_of_In in Hx. simpl in Hx.
    assert (x = r) as -> by (eapply NoDup_map_inj; [exact Hnd|done..|]; by apply String.eqb_eq in Hc). done.
  - intros [Hp Hu]. exists r. rewrite Hu. unfold has_code. rewrite String.eqb_refl. split; [|done].
    apply list_elem_of_In. rewrite order_desc_permutation. apply list_elem_of_In, filter_In.
    split; [by apply list_elem_of_In|done].
Qed.

Lemma codes_kept (p : PairingCodeRow -> bool) st l :
  NoDup (map pc_code l) -> NoDup (map pc_code (update_rows p (set_status st) l)).
Proof.
  intros Hnd. unfold update_rows. rewrite map_map. erewrite map_ext; [exact Hnd|]. intros r. by destruct (p r).
Qed.

Lemma open_expired u pt r :
  open_of u pt (if open_of u pt r then set_status PairingStatus.Expired r else r) = false.
Proof. destruct (open_of u pt r) eqn:E; [done|exact E]. Qed.

Lemma none_open u pt l : List.filter (open_of u pt) (update_rows (open_of u pt) (set_status PairingStatus.Expired) l) = [].
Proof. induction l as [|r l IH]; [done|]. simpl. by rewrite open_expired. Qed.

Lemma run_request `{!ChannelDbOk} u pt name w code w' : NoDup (map pc_code (ch_pairings w)) ->
  run (request_pairing u pt name) w = (Ok code, w') ->
  exists num now,
    let expired := update_rows (open_of u pt) (set_status PairingStatus.Expired) (ch_pairings w) in
    code = pairing_code num /\ ch_users w' = ch_users w /\
    existsb (has_code code) expired = false /\
    ch_pairings w' = expired ++ [mkPairing code u pt name now (now + PAIRING_CODE_TTL) PairingStatus.Pending].
Proof.
  intros Hnd Hr. apply run_try_ok in Hr as ([] & w1 & Hx & Hr). apply (expired_before _ _ _ _ Hnd) in Hx as [Hu Hp].
  apply run_try_ok in Hr as (c & w2 & Hc & Hr). unfold generate_pairing_code in Hc. rewrite run_bind in Hc. simpl in Hc.
  destruct (ch_random (ch_calls w1)) as [num|] eqn:Hn; [|done]. injection Hc as <- <-.
  rewrite run_bind in Hr. simpl ask in Hr. cbv beta iota zeta delta [run atomic] in Hr. fold (@run ChannelWorld) in Hr.
  apply run_try_ok in Hr as ([] & w3 & Hi & Hr). apply run_db_ok in Hi. simpl in Hi.
  rewrite Hp in Hi. destruct (existsb _ _) eqn:He; [done|]. injection Hi as <-.
  rewrite run_bind in Hr. simpl in Hr. injection Hr as <- <-. simpl. by exists num, (ch_now (N.succ (ch_calls w1))).
Qed.

(** C17. What [request_pairing] leaves, when it answers with a code: six
    decimal digits that no row had before; the tables as they were, but that
    every code of this platform user that was still pending has expired and
    the new one is added, pending, valid for [PAIRING_CODE_TTL] from the
    moment it was requested; no user is added.  So of all codes an
    administrator may still approve exactly one belongs to the platform user,
    the last one that they were sent. *)
Theorem request_leaves_one_code `{!ChannelDbOk} platform_user_id platform_type display_name w code w' :
  NoDup (map pc_code (ch_pairings w)) ->
  run (request_pairing platform_user_id platform_type display_name) w = (Ok code, w') ->
  String.length code = PAIRING_CODE_LENGTH /\ all_digits code = true /\
  ch_users w' = ch_users w /\
  exists now,
    let row := mkPairing code platform_user_id platform_type display_name now (now + PAIRING_CODE_TTL) PairingStatus.Pending in
    ch_pairings w' = update_rows (open_of platform_user_id platform_type) (set_status PairingStatus.Expired) (ch_pairings w) ++ [row] /\
    List.filter (open_of platform_user_id platform_type) (ch_pairings w') = [row] /\
    NoDup (map pc_code (ch_pairings w')).
Proof.
  intros Hnd (num & now & -> & Hu & He & Hp)%run_request; [|done]. destruct (pairing_code_digits num) as [Hl Hd].
  split_and!; [done..|]. exists now. split_and!; [done| |].
  - rewrite Hp, List.filter_app, none_open. simpl. unfold open_of, same_user, is_pending. simpl. by rewrite !String.eqb_refl.
  - rewrite Hp, map_app. apply NoDup_app. split_and!; [by apply codes_kept| |by apply NoDup_singleton].
    intros c Hc Hin. apply list_elem_of_singleton in Hin. simpl in Hin. subst c. apply list_elem_of_fmap in Hc as (r & Hc & Hr).
    apply not_true_iff_false in He as []. apply existsb_exists. exists r. split; [by apply list_elem_of_In|].
    by apply String.eqb_eq.
Qed.

(** ** What approving a code does *)
Definition healthy_channel (w : ChannelWorld) : Prop := forall n, (ch_calls w <= n)%N -> ch_fails n = false.

Lemma run_db_good {A} (f : N -> ChannelWorld -> Result A DbError.t * ChannelWorld) w : ch_fails (ch_calls w) = false ->
  run (db_step (sql f)) w =
    (match fst (f (ch_calls w) (tick w)) with Ok a => Ok a | Err e => Err (ChannelError.Database e) end,
     snd (f (ch_calls w) (tick w))).
Proof. intros Hf. rewrite run_db, Hf. by destruct (f _ _) as [[]]. Qed.

Definition taken (id : string) (row : PairingCodeRow) (r : AssistantUserRow) : bool :=
  is_user id r || on_platform (pc_platform_user_id row) (pc_platform_type row) r.

(** [w'] has these users and codes and has told these events; the rest is as
    it was. *)
Definition leaves (w w' : ChannelWorld) (users : list AssistantUserRow) (pairings : list PairingCodeRow)
    (events : list ChannelEvent.t) : Prop :=
  ch_users w' = users /\ ch_pairings w' = pairings /\ ch_events w' = ch_events w ++ events /\
  ch_sessions w' = ch_sessions w /\ ch_prefs w' = ch_prefs w /\ ch_sent w' = ch_sent w /\ ch_asked w' = ch_asked w.

Definition unchanged (w w' : ChannelWorld) : Prop := leaves w w' (ch_users w) (ch_pairings w) [].

#[local] Ltac leaving := unfold unchanged, leaves; simpl; split_and!; [eauto|..]; rewrite ?app_nil_r; done.

(** C13. What [approve_pairing] does, on each of its branches, when the
    database answers: a code that is not there, or that is no longer pending,
    is refused and nothing changes; a pending code whose time is up is refused
    and marked [Expired]; when the platform user is known already the answer
    is the conflict and the code stays pending; and otherwise exactly one user
    is added, who is the platform user of the code, authorised at this moment,
    the code is marked [Approved], and the one event tells of that user.
    Sessions, settings and conversations are never touched. *)
Theorem approval_outcome code w :
  healthy_channel w ->
  let '(r, w') := run (approve_pairing code) w in
  match List.find (has_code code) (ch_pairings w) with
  | None => r = Err (ChannelError.PairingNotFound code) /\ unchanged w w'
  | Some row =>
      if negb (is_pending row) then r = Err (ChannelError.PairingAlreadyProcessed code) /\ unchanged w w'
      else if (pc_expires_at row <=? ch_now (ch_calls w + 1))%Z then
        r = Err (ChannelError.PairingExpired code) /\
        leaves w w' (ch_users w) (update_rows (has_code code) (set_status PairingStatus.Expired) (ch_pairings w)) []
      else
        let id := ch_id (ch_calls w + 3) in
        if existsb (taken id row) (ch_users w) then
          (exists m, r = Err (ChannelError.Database (DbError.Conflict m))) /\ unchanged w w'
        else
          r = Ok tt /\
          leaves w w'
            (ch_users w ++ [mkUser id (pc_platform_user_id row) (pc_platform_type row) (pc_display_name row)
                              (ch_now (ch_calls w + 2)) None None])
            (update_rows (has_code code) (set_status PairingStatus.Approved) (ch_pairings w))
            [ChannelEvent.UserAuthorized id (pc_platform_user_id row) (pc_platform_type row) (pc_display_name row)]
  end.
Proof.
  intros Hw. replace (ch_calls w + 1)%N with (N.succ (ch_calls w)) by lia.
  replace (ch_calls w + 2)%N with (N.succ (N.succ (ch_calls w))) by lia.
  replace (ch_calls w + 3)%N with (N.succ (N.succ (N.succ (ch_calls w)))) by lia.
  simpl. rewrite Hw by lia. simpl. destruct (List.find _ _) as [row|] eqn:Hf; [|simpl; leaving].
  destruct (is_pending row) eqn:Ep; [|simpl; leaving]. simpl.
  assert (existsb (has_code code) (ch_pairings w) = true) as Hc by (apply existsb_exists; exists row; by apply List.find_some).
  destruct (_ <=? _)%Z; simpl; rewrite Hw by (simpl; lia).
  { simpl. rewrite Hc. leaving. }
  simpl. unfold taken. destruct (existsb (fun r => _ || _) _); simpl; [leaving|].
  rewrite Hw by (simpl; lia). simpl. rewrite Hc. simpl. leaving.
Qed.
End Alone.
