(* ===== verification/ChannelReplies.v ===== *)
(** * Chat channels: the reply that stays in the chat

    [reply_ends_with_the_text]: what a relay that edits its message leaves
    behind, whatever events the agent sends and however they are spaced. *)

From S2P Require Import Prelude WorkModel Interleave TurnEvents SerdeJson CronTypes ChannelStore ChannelFlow.
From S2P Require Import ChannelActions ChannelRelay.
Import ChannelStreamRelay.

Section Replies.
Context `{JsonValues, ChannelDb, ChannelHost}.

(** ** What the agent said

    Up to the first event that ends the turn: the text, whether there was any,
    the message of the error if it ended with one, the tools that were named. *)
Record Speech : Type := mkSpeech { sp_text : string; sp_spoke : bool; sp_error : option string; sp_tools : list string }.

Fixpoint speech (rx : list Received.t) : Speech :=
  match rx with
  | [] => mkSpeech "" false None []
  | Received.Lagged _ :: rx => speech rx
  | Received.Event event :: rx =>
      match process_stream_event event with
      | Some (StreamAction.AppendText chunk) =>
          let s := speech rx in mkSpeech (chunk +:+ sp_text s) true (sp_error s) (sp_tools s)
      | Some (StreamAction.ToolCall name _) =>
          let s := speech rx in mkSpeech (sp_text s) (sp_spoke s) (sp_error s) (name :: sp_tools s)
      | Some StreamAction.Finish => mkSpeech "" false None []
      | Some (StreamAction.Error m) => mkSpeech "" false (Some m) []
      | Some (StreamAction.Thinking _) | None => speech rx
      end
  end.

Definition tool_label (name : string) : UnifiedOutgoingMessage := build_streaming_message ("⏳ " +:+ name +:+ "...").

(** How the edits end; [text] was there before, if [spoke]. *)
Definition ends_with (config : RelayConfig) (text : string) (spoke : bool) (s : Speech) (edits : list UnifiedOutgoingMessage) : Prop :=
  match sp_error s with
  | Some m => last edits = Some (error_message m)
  | None =>
      if spoke || sp_spoke s
      then last edits = Some (build_final_message (formatted config (text +:+ sp_text s)))
      else edits = map tool_label (sp_tools s)
  end.

Variable config : RelayConfig.

(** From [w] to [w'] the message was edited in these ways, and nothing else was
    sent. *)
Definition edited (msg_id : string) (w w' : ChannelWorld) (edits : list UnifiedOutgoingMessage) : Prop :=
  ch_sent w' = ch_sent w ++ map (Sent.Edit (ry_plugin_id config) (ry_chat_id config) msg_id) edits.

Lemma edited_more msg_id m w w1 w' edits :
  ch_sent w1 = ch_sent w ++ [Sent.Edit (ry_plugin_id config) (ry_chat_id config) msg_id m] ->
  edited msg_id w1 w' edits -> edited msg_id w w' (m :: edits).
Proof. unfold edited. intros -> ->. by rewrite <- app_assoc. Qed.

Lemma edited_from msg_id w w1 w' edits : ch_sent w1 = ch_sent w -> edited msg_id w1 w' edits -> edited msg_id w w' edits.
Proof. unfold edited. by intros ->. Qed.

Lemma last_after {A} (x : A) l y : last l = Some y -> last (x :: l) = Some y.
Proof. by destruct l. Qed.

(** Speech that goes on after the chunk, or after the tool. *)
Lemma ends_chunk text spoke chunk rx edits :
  ends_with config (text +:+ chunk) true rx edits ->
  ends_with config text spoke (mkSpeech (chunk +:+ sp_text rx) true (sp_error rx) (sp_tools rx)) edits.
Proof. unfold ends_with. simpl. rewrite orb_true_r, str_app_assoc. by destruct (sp_error rx). Qed.

Lemma ends_later text rx m edits : ends_with config text true rx edits -> ends_with config text true rx (m :: edits).
Proof. unfold ends_with. destruct (sp_error rx); simpl; apply last_after. Qed.

Lemma ends_tool text spoke s name edits :
  ends_with config text spoke s edits ->
  ends_with config text spoke (mkSpeech (sp_text s) (sp_spoke s) (sp_error s) (name :: sp_tools s)) (tool_label name :: edits).
Proof.
  unfold ends_with. simpl. destruct (sp_error s); [apply last_after|].
  destruct (spoke || sp_spoke s); [apply last_after|by intros ->].
Qed.

Lemma loop_edits msg_id rx : forall text at_ spoke w,
  exists edits, edited msg_id w (snd (run (relay_loop config rx msg_id text at_ spoke) w)) edits /\
    ends_with config text spoke (speech rx) edits.
Proof.
  assert (forall text spoke w, exists edits,
    edited msg_id w (snd (run (send_final_edit config text spoke msg_id) w)) edits /\
    ends_with config text spoke (mkSpeech "" false None []) edits) as Hfinal.
  { intros text [] w; unfold ends_with, edited; simpl.
    - rewrite str_app_nil. by exists [build_final_message (formatted config text)].
    - exists []. by rewrite app_nil_r. }
  induction rx as [|[event|n] rx IH]; intros text at_ spoke w; simpl; [apply Hfinal| |apply IH].
  destruct (process_stream_event event) as [[chunk| |m|t|name st]|]; [|apply Hfinal| |apply IH| |apply IH].
  - simpl. destruct (_ <=? _)%Z; simpl.
    + edestruct IH as (edits & He & Hs). exists (build_streaming_message (formatted config (text +:+ chunk)) :: edits).
      split; [by eapply edited_more; [|exact He]|]. by apply ends_chunk, ends_later.
    + edestruct IH as (edits & He & Hs). exists edits. split; [by eapply edited_from; [|exact He]|by apply ends_chunk].
  - by exists [error_message m].
  - simpl. edestruct IH as (edits & He & Hs). exists (tool_label name :: edits).
    split; [by eapply edited_more; [|exact He]|by apply ends_tool].
Qed.

(** C29. What a relay that edits its message leaves in the chat: one message
    is posted and then only edited.  If the agent's turn ends in an error, the
    last edit shows the error; if it said anything and ended, or the channel
    closed, the last edit is the final message with all of the text, in order
    and formatted once, however few of the edits in between the throttle let
    through; and if it said nothing, the message shows the last tool that was
    named, or still the placeholder.  A message that could not be posted is
    never edited. *)
Theorem reply_ends_with_the_text rx w :
  let w' := snd (run (run_editable config rx) w) in
  let posted := Sent.Message (ry_plugin_id config) (ry_chat_id config) build_thinking_message in
  match plugin_send (ch_calls w) (ry_plugin_id config) (ry_chat_id config) build_thinking_message with
  | Err _ => ch_sent w' = ch_sent w ++ [posted]
  | Ok msg_id =>
      exists edits,
        ch_sent w' = ch_sent w ++ posted :: map (Sent.Edit (ry_plugin_id config) (ry_chat_id config) msg_id) edits /\
        match sp_error (speech rx) with
        | Some m => last edits = Some (error_message m)
        | None =>
            if sp_spoke (speech rx)
            then last edits = Some (build_final_message (formatted config (sp_text (speech rx))))
            else edits = map tool_label (sp_tools (speech rx))
        end
  end.
Proof.
  simpl. destruct (plugin_send _ _ _ _) as [msg_id|e]; [|done]. simpl.
  match goal with |- context [run (relay_loop _ _ _ _ ?t _) ?w1] =>
    destruct (loop_edits msg_id rx "" t false w1) as (edits & He & Hs) end.
  exists edits. split; [|exact Hs].
  unfold edited in He. rewrite He. simpl. by rewrite <- app_assoc.
Qed.
End Replies.
