(* ===== verification/ChannelRuns.v ===== *)
(** * Chat channels: concrete runs

    An instance of what the channels are given, on which the theorems'
    hypotheses hold, and runs of the programs on small tables. *)

From S2P Require Import Prelude WorkModel Interleave TurnEvents SerdeJson CronTypes ChannelStore ChannelPairing.
From S2P Require Import ChannelFlow ChannelActions ChannelRelay ChannelAdmit ChannelCodes ChannelReplies.
Import ChannelRepo PairingService SampleJson.
From stdpp Require Import pretty sorting.

Module ChannelRuns.
#[local] Instance values : JsonValues := {| Json := unit |}.

Definition newer {A : Type} (key : A -> Z) (a b : A) : Prop := (key b <= key a)%Z.
#[local] Instance newer_dec {A} (key : A -> Z) : RelDecision (newer key).
Proof. intros a b. unfold newer. apply _. Defined.

(** A second passes with every call; the calls of [fails] fail, and [draw]
    gives the numbers that are drawn. *)
Definition db_of (fails : list N) (draw : N -> N) : ChannelDb := {|
  ch_now n := (1000 * Z.of_N n)%Z;
  ch_id n := "id_" +:+ pretty n;
  ch_random n := Ok (draw n `mod` 4294967296)%N;
  ch_fails n := bool_decide (n ∈ fails);
  order_desc A key l := merge_sort (newer key) l;
  has_conversation _ _ := true;
|}.

Lemma channel_db_ok fails draw : @ChannelDbOk (db_of fails draw).
Proof.
  split.
  - intros A key l. apply merge_sort_Permutation.
  - intros n k. cbn. intros [= <-]. unfold u32_max.
    pose proof (N.mod_lt (draw n) 4294967296 ltac:(done)). lia.
Qed.

#[local] Instance host : ChannelHost := {|
  runtime_assistants _ := Ok [mkCatalogEntry "helper" "Helper" "acp" (Some "claude")];
  create_conversation n _ _ := Ok ("conv_" +:+ pretty n);
  warmup _ _ _ := Ok tt;
  has_task _ _ := true;
  send_to_conversation _ _ _ _ := Ok tt;
  plugin_send n _ _ _ := Ok ("msg_" +:+ pretty n);
  plugin_edit _ _ _ _ _ := Ok tt;
  instant n := (100 * Z.of_N n)%Z;
  format_text_for_platform text _ := text;
|}.

#[local] Instance streams : ChannelStreams := {|
  subscription _ _ := [Received.Event (AgentStreamEvent.Text "Hel"); Received.Event (AgentStreamEvent.Text "lo");
                       Received.Event (AgentStreamEvent.Finish None)];
|}.

Definition alice : AssistantUserRow := mkUser "u1" "alice" "telegram" None 0 None None.
Definition world (users : list AssistantUserRow) (sessions : list AssistantSessionRow) (pairings : list PairingCodeRow)
    : ChannelWorld :=
  mkChannelWorld users sessions pairings ∅ [] [] [] 0 users.
Definition text_of (user text : string) : UnifiedIncomingMessage :=
  mkIncoming PluginType.Telegram (user +:+ "_chat") user user text None.
Definition press (user action : string) : UnifiedIncomingMessage :=
  mkIncoming PluginType.Telegram (user +:+ "_chat") user user ""
    (Some (mkAction action ActionCategory.Platform None (mkContext PluginType.Telegram user (user +:+ "_chat")))).

Definition hear `{ChannelDb, ChannelHost} (msg : UnifiedIncomingMessage) : Prog ChannelWorld unit :=
  ChannelOrchestrator.handle_message "owner" msg.
Definition statuses (w : ChannelWorld) : list (string * PairingStatus.t) := map (fun p => (pc_code p, pc_status p)) (ch_pairings w).

(** ** A stranger who is admitted *)
Section Newcomer.
#[local] Instance db : ChannelDb := db_of [] (fun n => 1000 * n + 7)%N.
#[local] Instance db_is_ok : ChannelDbOk := channel_db_ok [] _.

Definition start : ChannelWorld := world [alice] [] [].
Definition asked_in : ChannelWorld := snd (run (hear (text_of "bob" "hi")) start).
Definition admitted : ChannelWorld := snd (run (approve_pairing "002007") asked_in).
Definition talked : ChannelWorld := snd (run (hear (text_of "bob" "hello")) admitted).

Definition by_code (code : string) : Prop := code = "002007".

Lemma runs_of_bob :
  exists ts, rtc (pool_step (channel_call "owner" by_code (fun _ => True))) (start, []) (talked, ts).
Proof.
  eexists. etransitivity; [eapply (pool_run _ (hear (text_of "bob" "hi")) start []); by constructor|].
  etransitivity.
  - apply (pool_run _ (prog_bind (approve_pairing "002007") (fun _ => Ret tt)) asked_in). by constructor.
  - replace (snd (run (prog_bind (approve_pairing "002007") (fun _ => Ret tt)) asked_in)) with admitted.
    + apply (pool_run _ (hear (text_of "bob" "hello")) admitted). by constructor.
    + unfold admitted. rewrite run_bind. by destruct (run (approve_pairing "002007") asked_in).
Qed.

(** What is asked for the second message. *)
Definition bob_session : AssistantSessionRow := mkSession "id_15" "id_9" "tjuaecli" None None (Some "bob_chat") 14000 14000.
Definition bob_says : Asked.t := Asked.Send bob_session "owner" "conv_23" "hello".


(** Three requests are made for bob, and the reply is edited into the chat. *)
Example admitted_user_is_served :
  map (fun a => se_user_id (Asked.session a)) (ch_asked talked) = ["id_9"; "id_9"; "id_9"] /\
  statuses talked = [("002007", PairingStatus.Approved)] /\
  last (ch_sent talked) = Some (Sent.Edit "telegram" "bob_chat" "msg_29" (build_final_message "Hello")).
Proof. split_and!; by vm_compute. Qed.

Definition from_bob (msg : UnifiedIncomingMessage) : Prop := im_user_id msg = "bob" /\ im_platform msg = PluginType.Telegram.


Lemma request_leaves_one_code_witness :
  exists now,
    List.filter (open_of "bob" "telegram") (ch_pairings (snd (run (request_pairing "bob" "telegram" None) asked_in))) =
      [mkPairing "008007" "bob" "telegram" None now (now + PAIRING_CODE_TTL) PairingStatus.Pending].
Proof.
  assert (NoDup (map pc_code (ch_pairings asked_in))) as Hnd by (vm_compute; apply NoDup_singleton).
  destruct (request_leaves_one_code "bob" "telegram" None asked_in "008007"
              (snd (run (request_pairing "bob" "telegram" None) asked_in)) Hnd ltac:(by vm_compute))
    as (_ & _ & _ & now & _ & Hopen & _).
  exists now. exact Hopen.
Defined.

Lemma approval_outcome_witness :
  fst (run (approve_pairing "002007") asked_in) = Ok tt /\
  statuses (snd (run (approve_pairing "002007") asked_in)) = [("002007", PairingStatus.Approved)].
Proof.
  pose proof (approval_outcome "002007" asked_in (fun n _ => eq_refl)) as Hout.
  destruct (run (approve_pairing "002007") asked_in) as [r w'] eqn:E.
  assert (List.find (has_code "002007") (ch_pairings asked_in) =
            Some (mkPairing "002007" "bob" "telegram" (Some "bob") 3000 603000 PairingStatus.Pending)) as Hrow by (vm_compute; reflexivity).
  rewrite Hrow in Hout. vm_compute in Hout. destruct Hout as (-> & _ & Hp & _). split; [done|].
  unfold statuses. cbn [snd]. by rewrite (Hp : ch_pairings w' = _).
Defined.
End Newcomer.

(** ** Buttons *)
Section Buttons.
#[local] Instance button_db : ChannelDb := db_of [] (fun n => 1000 * n + 7)%N.

(** A stranger who presses "check" or "help" below their code gets another
    code instead, and the one that they passed on has expired. *)
Example pressing_check_spoils_the_code :
  let sent := snd (run (hear (text_of "bob" "hi")) (world [] [] [])) in
  statuses sent = [("002007", PairingStatus.Pending)] /\
  statuses (snd (run (hear (press "bob" "pairing.check")) sent)) =
    [("002007", PairingStatus.Expired); ("009007", PairingStatus.Pending)] /\
  statuses (snd (run (hear (press "bob" "pairing.help")) sent)) =
    [("002007", PairingStatus.Expired); ("009007", PairingStatus.Pending)].
Proof. split_and!; by vm_compute. Qed.

Definition press_chat (action : string) : UnifiedIncomingMessage :=
  mkIncoming PluginType.Telegram "alice_chat" "alice" "alice" ""
    (Some (mkAction action ActionCategory.Chat None (mkContext PluginType.Telegram "alice" "alice_chat"))).

(** Two of the three buttons below every reply do nothing at all. *)
Example regenerate_does_nothing :
  Forall (fun action =>
    let w := snd (run (hear (press_chat action)) (world [alice] [] [])) in ch_sent w = [] /\ ch_asked w = [])
    ["chat.regenerate"; "chat.continue"].
Proof. repeat constructor. Qed.
End Buttons.

(** ** Interleavings *)
Section Races.
#[local] Instance race_db : ChannelDb := db_of [] (fun n => 1000 * n + 7)%N.

Definition incoming (text : string) : Prog ChannelWorld (Result MessageResult.t ChannelError.t) :=
  ActionExecutor.handle_incoming_message (text_of "alice" text).

(** Alice sends two messages at once: both look for her session before either
    has made one. *)
Example two_sessions_for_one_chat :
  let '(rest, between) := steps 5 (incoming "one") (world [alice] [] []) in
  let second := snd (run (incoming "two") between) in
  map (fun s => (se_user_id s, se_chat_id s)) (ch_sessions (snd (run rest second))) =
    [("u1", Some "alice_chat"); ("u1", Some "alice_chat")].
Proof. by vm_compute. Qed.

Definition code : PairingCodeRow := mkPairing "123456" "bob" "telegram" None 0 600000 PairingStatus.Pending.

(** One administrator rejects while another approves. *)
Example rejected_code_admits :
  let '(rest, between) := steps 2 (reject_pairing "123456") (world [] [] [code]) in
  let approved := snd (run (approve_pairing "123456") between) in
  let w := snd (run rest approved) in
  fst (run rest approved) = Ok tt /\ statuses w = [("123456", PairingStatus.Rejected)] /\
  map us_platform_user_id (ch_users w) = ["bob"].
Proof. vm_compute. done. Qed.
End Races.

(** ** Failures *)
Section HalfApproved.
#[local] Instance half_db : ChannelDb := db_of [5%N] (fun n => 1000 * n + 7)%N.

(** The user is added, the second statement fails: the code stays pending and
    approving it again is a conflict. *)
Example half_approved :
  let w := snd (run (approve_pairing "123456") (world [] [] [code])) in
  map us_platform_user_id (ch_users w) = ["bob"] /\ statuses w = [("123456", PairingStatus.Pending)] /\ ch_events w = [] /\
  (exists m, fst (run (approve_pairing "123456") w) = Err (ChannelError.Database (DbError.Conflict m))).
Proof. vm_compute. split_and!; [done..|]. by eexists. Qed.
End HalfApproved.

Section Collision.
#[local] Instance unlucky_db : ChannelDb := db_of [] (fun _ => 123456)%N.

(** The code that is drawn is that of a row of long ago: the pending code has
    expired, there is no new one and nobody is told. *)
Example drawn_code_is_taken :
  let pending := mkPairing "000001" "carol" "telegram" None 0 600000 PairingStatus.Pending in
  let w := snd (run (hear (text_of "carol" "hi")) (world [] [] [set_status PairingStatus.Approved code; pending])) in
  statuses w = [("123456", PairingStatus.Approved); ("000001", PairingStatus.Expired)] /\ ch_sent w = [] /\ ch_events w = [].
Proof. vm_compute. done. Qed.
End Collision.

Section Unbound.
#[local] Instance unbound_db : ChannelDb := db_of [] (fun n => 1000 * n + 7)%N.
#[local] Instance failing_host : ChannelHost := {|
  runtime_assistants _ := Ok [];
  create_conversation n _ _ := Ok ("conv_" +:+ pretty n);
  warmup _ _ _ := Err "agent not installed";
  has_task _ _ := true;
  send_to_conversation _ _ _ _ := Ok tt;
  plugin_send n _ _ _ := Ok ("msg_" +:+ pretty n);
  plugin_edit _ _ _ _ _ := Ok tt;
  instant n := (100 * Z.of_N n)%Z;
  format_text_for_platform text _ := text;
|}.
Definition creates (w : ChannelWorld) : nat :=
  length (List.filter (fun a => match a with Asked.Create _ _ _ => true | _ => false end) (ch_asked w)).

(** The session forgets the conversation that was made for it, so that every
    message of the chat makes another. *)
Example failed_send_leaves_conversations :
  let once := snd (run (hear (text_of "alice" "one")) (world [alice] [] [])) in
  let twice := snd (run (hear (text_of "alice" "two")) once) in
  creates once = 1 /\ creates twice = 2 /\ map se_conversation_id (ch_sessions twice) = [None].
Proof. vm_compute. done. Qed.
End Unbound.

(** ** Replies *)
Section Relays.
#[local] Instance relay_db : ChannelDb := db_of [] (fun n => 1000 * n + 7)%N.
Definition relay_on (p : PluginType.t) (events : list AgentStreamEvent.t) : list Sent.t :=
  ch_sent (snd (run (ChannelStreamRelay.run_relay (mkRelayConfig p "p" "c" 500) (map Received.Event events)) (world [] [] []))).

(** An agent that says nothing leaves the placeholder in the chat for good. *)
Example placeholder_stays :
  relay_on PluginType.Telegram [AgentStreamEvent.Finish None] = [Sent.Message "p" "c" build_thinking_message].
Proof. by vm_compute. Qed.

(** On WeChat, what was said before an error is lost. *)
Example weixin_error_drops_the_text :
  forall e, relay_on PluginType.Weixin [AgentStreamEvent.Text "half an answer"; AgentStreamEvent.Error e] =
    [Sent.Message "p" "c" (error_message (message e))].
Proof. intros e. reflexivity. Qed.
End Relays.
End ChannelRuns.
